(* ===== verification/_CoqProject ===== *)
-Q . S2P
Prelude.v
Text.v
Config.v
F64.v
Json.v
Http.v
Model.v
Identity.v
Cache.v
Limit.v
LimitFacts.v
LimitStoreFacts.v
Pricing.v
PricingFacts.v
PricingRules.v
PricingTables.v
UsageParse.v
UsageParseFacts.v
Usage.v
UsageFacts.v
UsageStore.v
UsageReport.v
UsageTasks.v
UsageTasksFacts.v
UsageReportFacts.v
Performance.v
PerformanceStore.v
PerformanceTasks.v
PerformanceFacts.v
PerformanceRuns.v
PerformanceRequestFacts.v
AccountStore.v
Account.v
AccountFacts.v
AccountRuns.v
AccountAuthFacts.v
GatewayHeaders.v
Rewriter.v
RewriteBody.v
RewriterFacts.v
RewriteBodyFacts.v
RewriteTextFacts.v
Fingerprint.v
FingerprintFacts.v
OAuthFlow.v
OAuthFacts.v
Telemetry.v
TelemetryFacts.v
TlsCodec.v
TlsEnums.v
TlsHello.v
TlsMessages.v
TlsRecord.v
TlsSession.v
Craft.v
TlsContext.v
TlsKeys.v
TlsHandshake.v
TlsClient.v
TlsDeframer.v
NodeTls.v
TlsWire.v
TlsRecordFacts.v
TlsHelloFacts.v
TlsReadFacts.v
NodeTlsFacts.v
NodeTlsRuns.v
NodeTlsTraffic.v
TlsDeframerFacts.v
TokenStore.v
Admin.v
AdminFacts.v
Gateway.v
GatewayFacts.v
Demo.v
Examples.v
RewriteExamples.v
UsageExamples.v
AdminExamples.v
NodeTlsExamples.v
