(* ===== verification/Prelude.v ===== *)
(** * cc-bridge: a verification development

    cc-bridge is a gateway in front of an AI provider. A client sends a request with a
    token of the gateway; the gateway chooses one of its own accounts, makes the request
    look like one of that account's official client, sends it upstream with the account's
    credentials, learns the account's limits from the answer, meters the usage, and
    passes the answer on. This library models that program and proves what makes it
    correct. Paths below are relative to src/src/.

    ** The parts

    - Prelude, Text, F64, Json, Http: what the program uses of its language and standard
      library: results and panics ([outcome]), machine integers with their wrap-around,
      saturation and checks, record update, byte strings, doubles, JSON values, headers,
      clocks. Here are also the notations, the hint database [bridge] and the lemmas that
      the components share.
    - Model (model/account.rs, model/usage.rs, model/api_token.rs, error.rs): the data.
    - Identity (model/identity.rs): the canonical profile of an account, drawn from
      presets, written to JSON and read back.
    - Cache (store/cache.rs, store/memory.rs): the interface of the cache as the class
      [CacheStore], its contract for slots as [SlotLaws], and the in-memory
      implementation that discharges it; the Redis URL (store/redis.rs).
    - Limit (service/limit.rs): the rate-limit state of each account: headers to a new
      state ([compute_new_state]), availability ([judge_availability]), flushing to the
      database, the JSON snapshot, the store behind a mutex that a panic poisons.
    - Pricing (service/usage_pricing.rs): rules, overrides, snapshots of remote price
      lists and the price of a request in integers.
    - UsageParse, Usage (service/usage.rs): incremental parsers of JSON and event-stream
      answers, decoders, the observer of an answer, the bounded queue of usage events.
    - UsageStore (store/usage_store.rs), UsageReport and UsageTasks (service/usage.rs,
      handler/router.rs for the query): the event table, reports over it, and the writer,
      refresh, backfill and retention tasks with their interleaving ([usage_step]).
    - Performance (service/performance.rs, model/performance.rs), PerformanceStore
      (store/performance_store.rs), PerformanceTasks (service/performance.rs,
      handler/performance.rs): the measurement of one request (its guard, its handle, its
      observed body), the table and the SQL of its reports, the writer, the expiry of what
      is never finished, the cleanup, and their interleaving ([perf_step]).
    - AccountStore (store/account_store.rs), Account (service/account.rs): the account
      table with its cached list, selection of an account, sticky sessions, slots, OAuth
      tokens and usage queries.
    - GatewayHeaders, Rewriter, RewriteBody (service/gateway.rs, service/rewriter.rs):
      classification of clients, header filters, the rewritten headers and bodies. The
      class [Rewriter] is the interface that the gateway uses.
    - TokenStore (store/token_store.rs), Gateway (service/gateway.rs): the whole request
      path as steps that open, poll and drop answer bodies and run spawned tasks.
    - OAuthFlow (service/oauth_flow.rs, service/oauth.rs): pending authorizations, the
      exchange of a code, refresh, token test and usage query, each as the request that it
      makes ([HttpRequest]) and what its answer becomes.
    - Admin (handler/router.rs, middleware/auth.rs): the password and the operations of
      the administration, in a monad of state, errors and panics ([Handler]).
    - Fingerprint (service/fingerprint_audit.rs, and the observation of a request in
      service/gateway.rs): the queue of the audit, the guard of a request, the worker with
      its counters and records, the anomalies of what goes upstream.
    - Telemetry (service/telemetry.rs): a session per account in use, its requests and
      their completions, the loop of the session ([telemetry_tick] under the lock, then
      [telemetry_send] without it), the payloads.
    - Config (config.rs): what is read from the environment, the connection strings.

    The client of TLS that makes an upstream see Node.js is a fork of rustls in the
    repository (../craftls/rustls/src/, with src/tlsfp/tlsfp.rs, which configures it):

    - TlsCodec (msgs/codec.rs, msgs/base.rs), TlsEnums (msgs/enums.rs, enums.rs), TlsHello and
      TlsMessages (msgs/handshake.rs): readers and writers, numbers with names, the extensions
      and the messages of a handshake.
    - TlsRecord (msgs/message.rs, msgs/fragmenter.rs, record_layer.rs, vecbuf.rs,
      crypto/ring/tls13.rs, common_state.rs): messages, fragments, records, their protection
      with its numbers, buffers, and what sending does ([wire_run] over a list of events).
    - TlsSession (msgs/persist.rs, limited_cache.rs, client/handy.rs): what a client keeps of
      its sessions. TlsKeys (hash_hs.rs, tls13/key_schedule.rs): transcript and secrets.
    - Craft (craft/mod.rs) and NodeTls (tlsfp/tlsfp.rs): the fingerprint, how it changes a
      configuration and a hello, and the clients that are built with it.
    - TlsContext, TlsHandshake, TlsClient (client/hs.rs, client/tls13.rs, common_state.rs,
      conn.rs): the handshake in a monad of state, errors and panics ([Hs]); every state of
      a client of TLS 1.3 ([ClientState]) with its handler, and the loop over messages
      ([process_new_packets]).
    - TlsDeframer (msgs/deframer.rs, conn.rs): bytes in one buffer to messages ([pop]), and
      the connection that reads them ([drain], [feed]). The class [Receiver] is what the
      deframer asks of a connection; [client_receiver] is the client.

    A file named after a component and ending in Facts (and LimitStoreFacts,
    PricingRules, PricingTables, AccountRuns, AccountAuthFacts, RewriteTextFacts,
    PerformanceRuns, PerformanceRequestFacts, OAuthFacts) holds its theorems; of the TLS
    client, TlsWire holds the round trips of messages, NodeTlsRuns what a handshake sends and
    which secret it comes to, NodeTlsTraffic what holds once there is data. Demo holds
    concrete instances of the interfaces, and Examples, RewriteExamples, UsageExamples,
    AdminExamples and NodeTlsExamples run the theorems at concrete inputs.

    ** How the parts interact

    The gateway calls token store, account service, rewriter, limit store and usage
    service; [handle_request] composes their definitions. The account service asks the
    limit store which account is available and the cache for bindings, slots and locks.
    The usage service asks the pricing engine. State is passed explicitly; where tasks
    share it, an inductive type of steps and a [run] over a list of them stand for every
    interleaving (limit operations, cache operations, gateway steps, usage steps,
    measurement steps, authorizations, audit steps, telemetry steps). A handshake does not
    look at the record layer, so that it writes a list of events that the record layer takes
    one after the other: sending takes all of them, reading the keys. A statement
    of a database consumes the next entry of a list of faults, so that a theorem without a
    hypothesis on the faults covers every pattern of failures.

    ** What the theorems show

    - Selection: a chosen account may be chosen, and one is chosen when there is one; a
      disabled account is not chosen by what reads the list later, also when the steps of
      selections interleave ([select_step]); a throttled account is not chosen before its
      time, as long as no further 429 replaces its ban; sessions stay.
    - Limits: an account is refused when one of the documented limits holds of it, and only
      then but for a rejection that has outlived its reset, over every history;
      a limit on one group of models leaves the others alone; flush and bottleneck times;
      which answers can poison the store.
    - Requests: an answer depends on upstream only through requests on behalf of a selected
      account, with its token, over its proxy and with whitelisted headers; slots never leak;
      upstream errors are hidden; exactly what is rewritten in headers, messages (relations
      between the client's fields and those sent) and events, and when it panics.
    - Usage: each answer is recorded once, however it is cut and wherever it ends; each
      observed event is counted once through queue, writer and table; the writer, the
      backfill and the retention end and do what they are for; a report is the sum of the
      stored events in total, by bucket and by group; a restart restores the prices.
    - Measurements: each request is measured once, however its handler, its answer and
      the background tasks interleave; what an event of a measurement says of the times
      that were observed; a report sums the table up, by bucket and by rank.
    - Administration: nothing is done without the password; an edit of an account stores
      what it names and nothing else; an authorization is redeemed once, in time, with the
      verifier that its address announced; when a refreshed token is usable.
    - Audit and telemetry: the requests in flight are those that are open, up to what a
      full queue refused; a rewritten request raises no anomaly; which two texts of a client
      get into a record, and of what kind; each registered request leaves in one way; what telemetry sends, with
      whose token and over whose proxy; an idle session ends.
    - TLS: the first hello is that of Node.js, for every server, session and group; a hello is
      read back from its message; the handshake comes to the secret of the server's share and the
      private key of a share that was sent, over the messages heard; over TLS 1.3 there is no
      data before the server has proved who it is; no nonce is given twice to the cipher under
      a key (read off an AEAD that records what it seals with, [recording]); what is sent is received; in which pieces it arrives does not matter,
      because the one buffer of the deframer implements a stream ([Pops]).
    - Prices: rounding, saturation, completeness, lookup order, well-formed tables.

    ** Bounds and fuel

    Recursion is structural but for: the wait for another task's token
    ([OAUTH_WAIT_ATTEMPTS], the code's own bound of 20), hexadecimal digits (16, the
    width of the hash), lossy UTF-8 decoding (the length of the text), and the loops of
    backfill, retention and cleanup, whose fuel the theorems bound by the number of rows. In the
    TLS client, reading the elements of a list has the number of its bytes as fuel
    (shown in TlsReadFacts); [pop] the unread bytes, and a connection one more for each piece
    ([client_feeds]); [send_single_fragment] is one deep below the soft limit of the numbers,
    and at the limit no fuel is enough ([soft_limit_never_ends]). Integers
    are [Z] with the width of the code's type applied where it matters ([checked],
    [saturate], [wrap]); a day is its number from 1970-01-01 and a time its nanoseconds.

    ** Parameters

    Classes stand for the code that is not in the repository, with the laws that a
    theorem uses as a second class: [Chrono], [Calendar] (chrono), [UnicodeCase],
    [JsonText], [PricingText] (serde), [Digest] (sha2, hex), [Codecs] (flate2, brotli,
    zstd), [RegexEngine], [BodyCodecs], [Base64Url] (regex, base64, xxhash), [PerfText] (the
    SQL that orders and searches text), [HttpClient] (reqwest, with the derived readers of
    its answers), [TlsCrypto] (random bytes, the key exchange of ring and of the ML-KEM crate),
    [RingAead], [RingAeadLaws], [RingOpens] and [RingHash] (its ciphers and hashes), [DnsNames] and
    [ServerVerifier] (pki-types and webpki: names and certificates), [SessionKeys] (equality of
    names), [Reqwest] (its builder). Telemetry takes the printing of a time with milliseconds as an argument.
    The account service takes the token endpoint as a function without panics; that
    [refresh_oauth_token] can panic is a theorem about it. Clock readings, random draws, the
    answers of upstream and of the token and usage endpoints are arguments.

    ** What is not modelled

    SQL text and column decoding (each statement is the function on rows that it
    denotes), HTTP transport, of TLS the verification of certificates, TLS 1.2 after its server
    hello, servers, QUIC, early data and the sockets, Redis commands, log
    lines, sleeps, what axum and serde make of a request before a handler runs. Of
    the decoders, the zstd output loop is part of a parameter. Left out for good: the web front end and the routes that serve it,
    deployment files, the benchmark, logging and start-up, which are I/O. *)

From stdpp Require Export base tactics option list numbers gmap strings fin_maps pretty sorting.
From Stdlib Require Export Ascii ZArith Lia.

#[global] Open Scope Z_scope.

(** ** Results and panics

    [result E A] is Rust's [Result<A, E>]; [outcome A] is a computation that
    may panic (an [expect], an [unwrap], an arithmetic operator that aborts). *)

Inductive result (E A : Type) : Type :=
  | Ok (a : A)
  | Err (e : E).
Arguments Ok {_ _} _.
Arguments Err {_ _} _.

Inductive outcome (A : Type) : Type :=
  | Done (a : A)
  | Panic.
Arguments Done {_} _.
Arguments Panic {_}.

#[export] Instance result_ret E : MRet (result E) := λ A a, Ok a.
#[export] Instance result_bind E : MBind (result E) := λ A B f m,
  match m with Ok a => f a | Err e => Err e end.
#[export] Instance result_fmap E : FMap (result E) := λ A B f m,
  match m with Ok a => Ok (f a) | Err e => Err e end.

#[export] Instance outcome_ret : MRet outcome := λ A a, Done a.
#[export] Instance outcome_bind : MBind outcome := λ A B f m,
  match m with Done a => f a | Panic => Panic end.
#[export] Instance outcome_fmap : FMap outcome := λ A B f m,
  match m with Done a => Done (f a) | Panic => Panic end.

Lemma Done_inj {A} (a b : A) : Done a = Done b → a = b.
Proof. congruence. Qed.

(** [Option::ok_or] / [ok_or_else]. *)
Definition ok_or {E A} (o : option A) (e : E) : result E A :=
  match o with Some a => Ok a | None => Err e end.

(** [Result::ok]. *)
Definition res_ok {E A} (r : result E A) : option A :=
  match r with Ok a => Some a | Err _ => None end.

(** [Result::map_err]. *)
Definition map_err {E F A} (f : E → F) (r : result E A) : result F A :=
  match r with Ok a => Ok a | Err e => Err (f e) end.

(** [Option<Result<A,E>>::transpose]. *)
Definition transpose {E A} (o : option (result E A)) : result E (option A) :=
  match o with
  | None => Ok None
  | Some (Ok a) => Ok (Some a)
  | Some (Err e) => Err e
  end.

(** [Option::or] / [or_else] (first argument wins). *)
Definition opt_or {A} (o1 o2 : option A) : option A :=
  match o1 with Some a => Some a | None => o2 end.

(** [Option::filter]. *)
Definition opt_filter {A} (p : A → bool) (o : option A) : option A :=
  match o with Some a => if p a then Some a else None | None => None end.

(** [Option::is_some_and] and [Option::is_none_or]. *)
Definition is_some_and {A} (o : option A) (p : A → bool) : bool :=
  match o with Some a => p a | None => false end.
Definition is_none_or {A} (o : option A) (p : A → bool) : bool :=
  match o with Some a => p a | None => true end.

Definition opt_is_some {A} (o : option A) : bool :=
  match o with Some _ => true | None => false end.
Definition opt_is_none {A} (o : option A) : bool :=
  match o with Some _ => false | None => true end.

(** ** Machine integers

    An integer type is its inclusive range; a value of the type is a [Z] in
    the range. *)

Record ity := ITy { ity_min : Z; ity_max : Z }.

Definition i32 : ity := ITy (-2147483648) 2147483647.
Definition i64 : ity := ITy (-9223372036854775808) 9223372036854775807.
Definition u64 : ity := ITy 0 18446744073709551615.
Definition i128 : ity :=
  ITy (-170141183460469231731687303715884105728)
      170141183460469231731687303715884105727.

Definition fits (t : ity) (z : Z) : bool := (ity_min t <=? z) && (z <=? ity_max t).

(** [checked_*] and [try_from]: the exact value when it fits. *)
Definition checked (t : ity) (z : Z) : option Z := if fits t z then Some z else None.

(** [saturating_*]: the exact value clamped to the range. *)
Definition saturate (t : ity) (z : Z) : Z := Z.max (ity_min t) (Z.min z (ity_max t)).

(** [as] casts between integer types: reduction modulo the width. *)
Definition wrap (t : ity) (z : Z) : Z :=
  ity_min t + (z - ity_min t) mod (ity_max t - ity_min t + 1).

Definition sat_add (t : ity) (a b : Z) : Z := saturate t (a + b).

Lemma fits_spec t z : fits t z = true ↔ ity_min t ≤ z ≤ ity_max t.
Proof. unfold fits. rewrite andb_true_iff, !Z.leb_le. lia. Qed.

Lemma checked_Some t z r : checked t z = Some r ↔ r = z ∧ ity_min t ≤ z ≤ ity_max t.
Proof.
  unfold checked. pose proof (fits_spec t z) as Hf.
  destruct (fits t z); (split; [intros ?; simplify_eq | intros [-> ?]]).
  - split; [done | by apply Hf].
  - done.
  - intuition congruence.
Qed.

Lemma checked_None t z : checked t z = None ↔ z < ity_min t ∨ ity_max t < z.
Proof.
  unfold checked. pose proof (fits_spec t z) as Hf.
  destruct (fits t z); split; intros; simplify_eq; try done.
  - exfalso. assert (ity_min t ≤ z ≤ ity_max t) by tauto. lia.
  - assert (¬ (ity_min t ≤ z ≤ ity_max t)) by (intros ?; intuition congruence). lia.
Qed.

Lemma checked_fits t z : ity_min t ≤ z ≤ ity_max t → checked t z = Some z.
Proof. intros. by apply checked_Some. Qed.

Lemma wrap_id t z : ity_min t ≤ z ≤ ity_max t → wrap t z = z.
Proof. intros Hz. unfold wrap. rewrite Z.mod_small; lia. Qed.

Lemma saturate_id t z : ity_min t ≤ z ≤ ity_max t → saturate t z = z.
Proof. unfold saturate. lia. Qed.

Lemma saturate_bounds t z :
  ity_min t ≤ ity_max t → ity_min t ≤ saturate t z ≤ ity_max t.
Proof. unfold saturate. lia. Qed.

Lemma saturate_mono t a b : a ≤ b → saturate t a ≤ saturate t b.
Proof. unfold saturate. lia. Qed.

(** ** Finite maps: the [any] of [HashMap::iter] *)

Definition map_any {V} (p : string → V → bool) (m : gmap string V) : bool :=
  existsb (λ kv, p (fst kv) (snd kv)) (map_to_list m).

Lemma map_any_true {V} (p : string → V → bool) (m : gmap string V) :
  map_any p m = true ↔ ∃ k v, m !! k = Some v ∧ p k v = true.
Proof.
  unfold map_any. rewrite existsb_exists. split.
  - intros ([k v] & Hin & Hp). apply list_elem_of_In, elem_of_map_to_list in Hin. eauto.
  - intros (k & v & Hm & Hp). exists (k, v). split; [|done].
    by apply list_elem_of_In, elem_of_map_to_list.
Qed.

Lemma map_any_false {V} (p : string → V → bool) (m : gmap string V) :
  map_any p m = false ↔ ∀ k v, m !! k = Some v → p k v = false.
Proof.
  rewrite <- not_true_iff_false, map_any_true. split.
  - intros H k v Hm. destruct (p k v) eqn:?; [|done]. exfalso. eauto.
  - intros H (k & v & Hm & Hp). specialize (H _ _ Hm). congruence.
Qed.

(** ** Stable sorting ([sort_by], [ORDER BY]) *)

Fixpoint insert_by {A} (le : A → A → bool) (x : A) (l : list A) : list A :=
  match l with
  | [] => [x]
  | y :: l' => if le x y then x :: l else y :: insert_by le x l'
  end.

Definition sort_by {A} (le : A → A → bool) (l : list A) : list A := foldr (insert_by le) [] l.

Lemma insert_by_perm {A} le (x : A) l : insert_by le x l ≡ₚ x :: l.
Proof.
  induction l as [|y l IH]; simpl; [done|]. destruct (le x y); [done|]. rewrite IH. constructor.
Qed.

Lemma sort_by_perm {A} le (l : list A) : sort_by le l ≡ₚ l.
Proof. induction l as [|x l IH]; simpl; [done|]. by rewrite insert_by_perm, IH. Qed.

Lemma insert_by_sorted {A} (le : A → A → bool) x l :
  (∀ a b, le a b = false → le b a = true) →
  (∀ a b c, le a b = true → le b c = true → le a c = true) →
  StronglySorted (λ a b, le a b = true) l → StronglySorted (λ a b, le a b = true) (insert_by le x l).
Proof.
  intros Htot Htr. induction l as [|y l IH]; simpl; [repeat constructor|].
  intros [Hl Hy]%StronglySorted_inv. destruct (le x y) eqn:Hxy.
  - constructor; [by constructor|]. constructor; [done|].
    eapply Forall_impl; [exact Hy|]. intros z. by apply Htr.
  - constructor; [by apply IH|]. rewrite insert_by_perm. constructor; [by apply Htot|done].
Qed.

Lemma sort_by_sorted {A} (le : A → A → bool) l :
  (∀ a b, le a b = false → le b a = true) →
  (∀ a b c, le a b = true → le b c = true → le a c = true) →
  StronglySorted (λ a b, le a b = true) (sort_by le l).
Proof. intros Htot Htr. induction l as [|x l IH]; simpl; [constructor|]. by apply insert_by_sorted. Qed.

(** ** Filters and groups *)

Lemma filter_ext_in {A} (P Q : A → Prop) `{∀ x, Decision (P x), ∀ x, Decision (Q x)} (l : list A) :
  (∀ x, x ∈ l → P x ↔ Q x) → filter P l = filter Q l.
Proof.
  induction l as [|x l IH]; intros Hpq; [done|].
  specialize (IH ltac:(set_solver)). pose proof (Hpq x ltac:(set_solver)) as Hx.
  destruct (decide (P x)) as [Hp|Hp].
  - by rewrite (filter_cons_True P), (filter_cons_True Q), IH by naive_solver.
  - by rewrite (filter_cons_False P), (filter_cons_False Q), IH by naive_solver.
Qed.

Lemma filter_all {A} `{∀ x : A, Decision True} (l : list A) : filter (λ _, True) l = l.
Proof. induction l as [|x l IH]; [done|]. by rewrite filter_cons_True, IH. Qed.

Lemma filter_or_perm {A} (P Q : A → Prop) `{∀ x, Decision (P x), ∀ x, Decision (Q x)}
    `{∀ x, Decision (P x ∨ Q x)} (l : list A) :
  (∀ x, P x → ¬ Q x) → filter P l ++ filter Q l ≡ₚ filter (λ x, P x ∨ Q x) l.
Proof.
  intros Hpq. induction l as [|x l IH]; [done|]. rewrite !filter_cons.
  pose proof (Hpq x). destruct (decide (P x)), (decide (Q x)), (decide (P x ∨ Q x)); try tauto; simpl.
  - by rewrite IH.
  - rewrite <- Permutation_middle. by rewrite IH.
Qed.

Lemma concat_groups {A K} `{EqDecision K} (key : A → K) (ks : list K) (l : list A) :
  NoDup ks →
  concat ((λ k, filter (λ e, key e = k) l) <$> ks) ≡ₚ filter (λ e, key e ∈ ks) l.
Proof.
  induction 1 as [|k ks Hk Hnd IH]; simpl.
  - induction l as [|x l IH]; [done|]. rewrite filter_cons_False by apply not_elem_of_nil. done.
  - rewrite IH. etrans.
    + apply (filter_or_perm (λ e, key e = k) (λ e, key e ∈ ks)). intros e ->. done.
    + rewrite (filter_ext_in (λ x, key x = k ∨ key x ∈ ks) (λ e, key e ∈ k :: ks)); [done|].
      intros. by rewrite elem_of_cons.
Qed.

(** ** Automation *)

Create HintDb bridge.
Create Rewrite HintDb bridge.
#[export] Hint Rewrite @lookup_insert_eq @lookup_delete_eq @lookup_empty : bridge.
#[export] Hint Resolve saturate_bounds : bridge.

(** Splits a hypothesis on a boolean conjunction or disjunction and turns the
    integer tests into propositions. *)
Ltac bool_prop :=
  repeat match goal with
  | H : _ && _ = true |- _ => apply andb_true_iff in H; destruct H
  | H : _ || _ = false |- _ => apply orb_false_iff in H; destruct H
  | H : negb _ = true |- _ => apply negb_true_iff in H
  | H : negb _ = false |- _ => apply negb_false_iff in H
  | H : (_ <=? _) = true |- _ => apply Z.leb_le in H
  | H : (_ <=? _) = false |- _ => apply Z.leb_gt in H
  | H : (_ <? _) = true |- _ => apply Z.ltb_lt in H
  | H : (_ <? _) = false |- _ => apply Z.ltb_ge in H
  | H : (_ =? _) = true |- _ => apply Z.eqb_eq in H
  | H : (_ =? _) = false |- _ => apply Z.eqb_neq in H
  end.

(** Case analysis on every [match] or [if] of the goal, with the equations
    simplified. *)
Ltac split_matches :=
  repeat (case_match; simplify_eq/=; try done).

(** ** Record update

    [r <| field := v |>] is Rust's [r.field = v] (and the [..r] struct update):
    the setter of a projection is built by rewriting the constructor
    application of a destructed record. *)

Class Updatable {R E : Type} (get : R → E) : Type := upd : (E → E) → R → R.
Arguments upd {_ _} _ {_} _ _ /.

Ltac build_setter R E get :=
  exact (λ (f : E → E) (r : R), ltac:(
    pose (probe := get r); destruct r;
    lazymatch goal with
    | probe := get ?b |- _ =>
        let x := eval hnf in (get b) in
        lazymatch eval pattern x in b with
        | ?c _ => let b' := eval cbv beta in (c (f x)) in exact b'
        end
    end)).

#[export] Hint Extern 1 (@Updatable ?R ?E ?get) => build_setter R E get : typeclass_instances.

Declare Scope bridge_scope.
Delimit Scope bridge_scope with bridge.
Notation "r <| f := v |>" := (upd f (λ _, v) r)
  (at level 1, left associativity, f constr at level 99, v at level 200,
   format "r  <| f  :=  v |>") : bridge_scope.
#[global] Open Scope bridge_scope.
