(* ===== verification/Text.v ===== *)
(** * Text: the string operations of the standard library

    Rust's [str] is a sequence of UTF-8 bytes; a [string] here is that byte
    sequence. The file defines the operations the gateway applies to strings
    (case folding, trimming, searching, splitting, integer parsing and
    printing) on bytes, with the lemmas the components share. *)

From S2P Require Import Prelude.

(** ** Bytes *)

Definition byte_val (c : ascii) : Z := Z.of_N (N_of_ascii c).

Definition is_digit (c : ascii) : bool := (48 <=? byte_val c) && (byte_val c <=? 57).
Definition is_upper (c : ascii) : bool := (65 <=? byte_val c) && (byte_val c <=? 90).
Definition is_lower (c : ascii) : bool := (97 <=? byte_val c) && (byte_val c <=? 122).
Definition is_alphanumeric (c : ascii) : bool := is_digit c || is_upper c || is_lower c.

Definition lower (c : ascii) : ascii :=
  if is_upper c then ascii_of_N (N_of_ascii c + 32) else c.
Definition upper (c : ascii) : ascii :=
  if is_lower c then ascii_of_N (N_of_ascii c - 32) else c.

(** ** Whole strings *)

Fixpoint str_map (f : ascii → ascii) (s : string) : string :=
  match s with EmptyString => EmptyString | String c r => String (f c) (str_map f r) end.

Fixpoint str_all (p : ascii → bool) (s : string) : bool :=
  match s with EmptyString => true | String c r => p c && str_all p r end.

Definition str_len (s : string) : Z := Z.of_nat (String.length s).
Definition is_empty (s : string) : bool := match s with EmptyString => true | _ => false end.

Definition to_ascii_lowercase : string → string := str_map lower.

(** [str::replace] for single bytes. *)
Definition replace_byte (a b : ascii) : string → string :=
  str_map (λ c, if Ascii.eqb c a then b else c).

Fixpoint starts_with (p s : string) : bool :=
  match p, s with
  | EmptyString, _ => true
  | String a p', String b s' => Ascii.eqb a b && starts_with p' s'
  | String _ _, EmptyString => false
  end.

Fixpoint strip_prefix (p s : string) : option string :=
  match p, s with
  | EmptyString, _ => Some s
  | String a p', String b s' => if Ascii.eqb a b then strip_prefix p' s' else None
  | String _ _, EmptyString => None
  end.

Fixpoint contains (needle s : string) : bool :=
  starts_with needle s || match s with EmptyString => false | String _ r => contains needle r end.

(** [str::find] on a byte set: the text before the first match and the text
    after it. *)
Fixpoint split_at_first (p : ascii → bool) (s : string) : option (string * string) :=
  match s with
  | EmptyString => None
  | String c r =>
      if p c then Some (EmptyString, r)
      else match split_at_first p r with
           | Some (a, b) => Some (String c a, b)
           | None => None
           end
  end.

Definition split_once (c : ascii) : string → option (string * string) :=
  split_at_first (Ascii.eqb c).

(** [str::split] on a byte set: never empty, [""] gives [[""]]. *)
Fixpoint split_by (p : ascii → bool) (s : string) : list string :=
  match s with
  | EmptyString => [EmptyString]
  | String c r =>
      if p c then EmptyString :: split_by p r
      else match split_by p r with
           | [] => [String c EmptyString]
           | x :: xs => String c x :: xs
           end
  end.

Definition split_on (c : ascii) : string → list string := split_by (Ascii.eqb c).

Fixpoint join (sep : string) (l : list string) : string :=
  match l with
  | [] => EmptyString
  | [x] => x
  | x :: xs => x +:+ sep +:+ join sep xs
  end.

(** ** [str::trim]

    Unicode [White_Space], by the length of the UTF-8 encoding. *)

Definition ws1 (a : ascii) : bool :=
  let v := byte_val a in ((9 <=? v) && (v <=? 13)) || (v =? 32).
Definition ws2 (a b : ascii) : bool :=
  (byte_val a =? 194) && ((byte_val b =? 133) || (byte_val b =? 160)).
Definition ws3 (a b c : ascii) : bool :=
  let x := byte_val a in let y := byte_val b in let z := byte_val c in
  ((x =? 225) && (y =? 154) && (z =? 128))
  || ((x =? 226) && (y =? 128) &&
      (((128 <=? z) && (z <=? 138)) || (z =? 168) || (z =? 169) || (z =? 175)))
  || ((x =? 226) && (y =? 129) && (z =? 159))
  || ((x =? 227) && (y =? 128) && (z =? 128)).

Fixpoint drop_ws (w2 : ascii → ascii → bool) (w3 : ascii → ascii → ascii → bool)
    (s : string) : string :=
  match s with
  | EmptyString => EmptyString
  | String a s1 =>
      if ws1 a then drop_ws w2 w3 s1
      else match s1 with
           | EmptyString => s
           | String b s2 =>
               if w2 a b then drop_ws w2 w3 s2
               else match s2 with
                    | EmptyString => s
                    | String c s3 => if w3 a b c then drop_ws w2 w3 s3 else s
                    end
           end
  end.

Definition trim_start : string → string := drop_ws ws2 ws3.
Definition trim_end (s : string) : string :=
  String.rev (drop_ws (λ a b, ws2 b a) (λ a b c, ws3 c b a) (String.rev s)).
Definition trim (s : string) : string := trim_end (trim_start s).

(** A byte that no white space contains: ASCII, and none of tab to return, space. *)
Definition plain (c : ascii) : bool := (byte_val c <? 128) && negb (ws1 c).

(** No [c] in the string. *)
Definition lacks (c : ascii) (s : string) : bool := str_all (λ x, negb (Ascii.eqb x c)) s.

(** ** Integers in decimal *)

Fixpoint digits_val (acc : Z) (s : string) : option Z :=
  match s with
  | EmptyString => Some acc
  | String c r => if is_digit c then digits_val (acc * 10 + (byte_val c - 48)) r else None
  end.

(** A non-empty run of decimal digits. *)
Definition parse_digits (s : string) : option Z :=
  match s with EmptyString => None | _ => digits_val 0 s end.

(** [str::parse] at an integer type: an optional sign (a minus only for a
    signed type), digits, and a value in the range of the type. *)
Definition parse_int (t : ity) (s : string) : option Z :=
  match s with
  | String c r =>
      if Ascii.eqb c "+" then z ← parse_digits r; checked t z
      else if Ascii.eqb c "-" && (ity_min t <? 0) then z ← parse_digits r; checked t (- z)
      else z ← parse_digits s; checked t z
  | EmptyString => None
  end.

(** [to_string] of an integer. *)
Definition int_to_string (z : Z) : string := pretty z.

(** ** [BTreeMap<String, V>]

    A finite map whose iteration is in the byte order of the keys. *)

Fixpoint insert_entry {V} (x : string * V) (l : list (string * V)) : list (string * V) :=
  match l with
  | [] => [x]
  | y :: r => if String.leb x.1 y.1 then x :: l else y :: insert_entry x r
  end.

Definition btree_entries {V} (m : gmap string V) : list (string * V) :=
  foldr insert_entry [] (map_to_list m).

(** ** Lemmas *)

Lemma leb_cons x a y b :
  String.leb (String x a) (String y b) =
  match (N_of_ascii x ?= N_of_ascii y)%N with Lt => true | Eq => String.leb a b | Gt => false end.
Proof. unfold String.leb. simpl. unfold Ascii.compare. by destruct (_ ?= _)%N. Qed.

Lemma leb_total_false a b : String.leb a b = false → String.leb b a = true.
Proof. destruct (String.leb_total a b); congruence. Qed.

Lemma leb_trans a b c : String.leb a b = true → String.leb b c = true → String.leb a c = true.
Proof.
  revert b c. induction a as [|x a IH]; intros [|y b] [|z c]; try done. rewrite !leb_cons.
  destruct (N.compare_spec (N_of_ascii x) (N_of_ascii y)), (N.compare_spec (N_of_ascii y) (N_of_ascii z)),
    (N.compare_spec (N_of_ascii x) (N_of_ascii z)); try done; try (exfalso; lia). apply IH.
Qed.

Lemma insert_entry_perm {V} (x : string * V) l : insert_entry x l ≡ₚ x :: l.
Proof.
  induction l as [|y l IH]; simpl; [done|]. destruct (String.leb _ _); [done|].
  rewrite IH. apply Permutation_swap.
Qed.

Lemma btree_entries_perm {V} (m : gmap string V) : btree_entries m ≡ₚ map_to_list m.
Proof.
  unfold btree_entries. induction (map_to_list m) as [|x l IH]; simpl; [done|].
  by rewrite insert_entry_perm, IH.
Qed.

Lemma elem_of_btree_entries {V} (m : gmap string V) k v :
  (k, v) ∈ btree_entries m ↔ m !! k = Some v.
Proof. by rewrite btree_entries_perm, elem_of_map_to_list. Qed.

Lemma str_len_nonneg s : 0 ≤ str_len s.
Proof. unfold str_len. lia. Qed.

Lemma str_len_cons c s : str_len (String c s) = str_len s + 1.
Proof. unfold str_len. simpl. lia. Qed.

Lemma str_app_nil s : s +:+ "" = s.
Proof. induction s as [|c s IH]; [done|]. change (String c (s +:+ "") = String c s). by rewrite IH. Qed.

Lemma str_app_assoc a b c : a +:+ (b +:+ c) = (a +:+ b) +:+ c.
Proof.
  induction a as [|x a IH]; [done|].
  change (String x (a +:+ (b +:+ c)) = String x ((a +:+ b) +:+ c)). by rewrite IH.
Qed.

Lemma str_cons_app x a b : String x a +:+ b = String x (a +:+ b).
Proof. done. Qed.

Lemma str_len_app a b : str_len (a +:+ b) = str_len a + str_len b.
Proof.
  induction a as [|x a IH]; [done|]. rewrite str_cons_app, !str_len_cons. lia.
Qed.

Lemma str_all_app p a b : str_all p (a +:+ b) = str_all p a && str_all p b.
Proof.
  induction a as [|x a IH]; [done|]. rewrite str_cons_app. simpl.
  by rewrite IH, andb_assoc.
Qed.

Lemma strip_prefix_Some p s r : strip_prefix p s = Some r ↔ s = p +:+ r.
Proof.
  revert s. induction p as [|a p IH]; intros s; simpl.
  - split; [by intros [= ->] | by intros ->].
  - destruct s as [|b s]; [done|]. rewrite str_cons_app.
    destruct (Ascii.eqb_spec a b) as [->|Hne].
    + rewrite IH. split; [by intros -> | by intros [= ->]].
    + split; [done | intros [=]; congruence].
Qed.

Lemma starts_with_strip p s : starts_with p s = opt_is_some (strip_prefix p s).
Proof.
  revert s. induction p as [|a p IH]; intros [|b s]; simpl; try done.
  destruct (Ascii.eqb a b); [apply IH | done].
Qed.

Lemma starts_with_true p s : starts_with p s = true ↔ ∃ r, s = p +:+ r.
Proof.
  rewrite starts_with_strip. destruct (strip_prefix p s) as [r|] eqn:Hs.
  - split; [|done]. intros _. exists r. by apply strip_prefix_Some.
  - split; [done|]. intros [r Hr]. apply strip_prefix_Some in Hr. congruence.
Qed.

Lemma byte_val_bounds c : 0 ≤ byte_val c < 256.
Proof. unfold byte_val. pose proof (N_ascii_bounded c). lia. Qed.

Lemma digits_val_mono s acc v : 0 ≤ acc → digits_val acc s = Some v → acc ≤ v.
Proof.
  revert acc. induction s as [|c s IH]; intros acc Hacc Hv; simplify_eq/=; [lia|].
  destruct (is_digit c) eqn:Hd; [|done].
  unfold is_digit in Hd. bool_prop. apply IH in Hv; lia.
Qed.

Lemma parse_digits_nonneg s v : parse_digits s = Some v → 0 ≤ v.
Proof. destruct s; [done|]. intros H. by apply digits_val_mono in H. Qed.

Lemma digits_val_all s acc : str_all is_digit s = true ↔ is_Some (digits_val acc s).
Proof.
  revert acc. induction s as [|c s IH]; intros acc; simpl; [split; [by eexists | done]|].
  destruct (is_digit c); simpl; [apply IH|]. split; [done | by intros [? [=]]].
Qed.

Lemma digits_val_app a b acc :
  digits_val acc (a +:+ b) = (v ← digits_val acc a; digits_val v b).
Proof.
  revert acc. induction a as [|c a IH]; intros acc; [done|].
  rewrite str_cons_app. simpl. destruct (is_digit c); [apply IH | done].
Qed.

(** A longer run of digits scales what was read before it. *)
Lemma digits_val_scale s acc :
  digits_val acc s = (v ← digits_val 0 s; Some (acc * 10 ^ str_len s + v)).
Proof.
  revert acc. induction s as [|c s IH]; intros acc.
  - simpl. f_equal. change (str_len "") with 0. lia.
  - simpl. destruct (is_digit c); [|done].
    rewrite (IH (acc * 10 + _)), (IH (0 + _)).
    destruct (digits_val 0 s) as [v|]; [|done]. simpl. f_equal.
    rewrite str_len_cons, Z.pow_add_r by (pose proof (str_len_nonneg s); lia). ring.
Qed.

Lemma parse_digits_app a b x :
  parse_digits a = Some x →
  str_all is_digit b = true →
  ∃ y, digits_val 0 b = Some y ∧ parse_digits (a +:+ b) = Some (x * 10 ^ str_len b + y).
Proof.
  intros Ha Hb. apply (digits_val_all b 0) in Hb as [y Hy]. exists y. split; [done|].
  destruct a as [|c a]; [done|]. unfold parse_digits in *. rewrite str_cons_app.
  change (digits_val 0 (String c a +:+ b) = Some (x * 10 ^ str_len b + y)).
  rewrite digits_val_app, Ha. simpl. by rewrite digits_val_scale, Hy.
Qed.

Lemma digits_val_lt s v : digits_val 0 s = Some v → v < 10 ^ str_len s.
Proof.
  revert v. induction s as [|c s IH]; intros v Hv.
  - injection Hv as <-. change (10 ^ str_len "") with 1. lia.
  - simpl in Hv. destruct (is_digit c) eqn:Hd; [|done].
    rewrite digits_val_scale in Hv. destruct (digits_val 0 s) as [w|] eqn:Hw; [|done].
    simpl in Hv. injection Hv as <-. specialize (IH w eq_refl).
    unfold is_digit in Hd. bool_prop. pose proof (str_len_nonneg s).
    rewrite str_len_cons, Z.pow_add_r by lia. nia.
Qed.

(** Printing an integer and reading it back is the identity. *)
Lemma pretty_char_digit x :
  (x < 10)%N →
  is_digit (pretty_N_char x) = true ∧ byte_val (pretty_N_char x) - 48 = Z.of_N x.
Proof.
  intros. assert (x = 0 ∨ x = 1 ∨ x = 2 ∨ x = 3 ∨ x = 4 ∨ x = 5 ∨ x = 6 ∨ x = 7 ∨ x = 8
    ∨ x = 9)%N as Hx by lia.
  destruct Hx as [->|[->|[->|[->|[->|[->|[->|[->|[->| ->]]]]]]]]]; done.
Qed.

Lemma digits_val_pretty_go x s acc :
  ∃ k, digits_val acc (pretty_N_go x s) = digits_val (acc * 10 ^ k + Z.of_N x) s ∧ 0 ≤ k.
Proof.
  revert s acc. induction (N.lt_wf_0 x) as [x _ IH]; intros s acc.
  destruct (decide (x = 0)%N) as [->|Hx].
  { exists 0. rewrite pretty_N_go_0. split; [f_equal; lia | done]. }
  rewrite pretty_N_go_step by lia.
  destruct (IH (x `div` 10)%N) with (s := String (pretty_N_char (x `mod` 10)) s) (acc := acc)
    as (k & Hk & Hk0); [apply N.div_lt; lia|].
  exists (k + 1). split; [|lia]. rewrite Hk. simpl.
  destruct (pretty_char_digit (x `mod` 10)%N) as [Hd Hv]; [apply N.mod_lt; lia|].
  rewrite Hd, Hv. f_equal. rewrite Z.pow_add_r by lia.
  rewrite N2Z.inj_div, N2Z.inj_mod. change (Z.of_N 10) with 10.
  pose proof (Z.div_mod (Z.of_N x) 10 ltac:(done)). nia.
Qed.

Lemma pretty_N_go_cons x s :
  (0 < x)%N → ∃ c r, pretty_N_go x s = String c r ∧ is_digit c = true.
Proof.
  revert s. induction (N.lt_wf_0 x) as [x _ IH]; intros s Hx.
  rewrite pretty_N_go_step by done.
  destruct (decide (x `div` 10 = 0)%N) as [->|Hne].
  - rewrite pretty_N_go_0. eexists _, _. split; [done|].
    apply pretty_char_digit, N.mod_lt. lia.
  - apply IH; [by apply N.div_lt | by apply N.neq_0_lt_0].
Qed.

Lemma pretty_N_digits n :
  ∃ c r, pretty n = String c r ∧ is_digit c = true ∧ parse_digits (pretty n) = Some (Z.of_N n).
Proof.
  unfold pretty, pretty_N. case_decide as Hn.
  - subst. by exists "0"%char, "".
  - destruct (pretty_N_go_cons n "") as (c & r & Hc & Hd); [lia|].
    exists c, r. split_and!; [done..|].
    destruct (digits_val_pretty_go n "" 0) as (k & Hk & _).
    rewrite Hc in *. exact Hk.
Qed.

Lemma parse_int_to_string t z :
  ity_min t ≤ z ≤ ity_max t → parse_int t (int_to_string z) = Some z.
Proof.
  intros Hz. unfold int_to_string, pretty, pretty_Z.
  destruct (pretty_N_digits (Z.to_N z)) as (c & r & Hc & Hd & Hp).
  destruct z as [|p|p]; simpl in *.
  - by rewrite checked_fits.
  - change (pretty p) with (pretty (Npos p)). rewrite Hc in *. simpl.
    destruct (Ascii.eqb_spec c "+") as [->|]; [done|].
    destruct (Ascii.eqb_spec c "-") as [->|]; [done|]. simpl in *.
    rewrite Hp. simpl. by apply checked_fits.
  - destruct (pretty_N_digits (Npos p)) as (c' & r' & Hc' & Hd' & Hp').
    change (pretty p) with (pretty (Npos p)). simpl.
    destruct (ity_min t <? 0) eqn:Hm; bool_prop; [|lia].
    change ("" +:+ pretty (Npos p)) with (pretty (Npos p)). rewrite Hp'. simpl.
    by apply checked_fits.
Qed.

(** *** Trimming keeps every byte that is not white space *)

Lemma str_all_map p f s : str_all p (str_map f s) = str_all (λ c, p (f c)) s.
Proof. induction s as [|c s IH]; simpl; [done|]. by rewrite IH. Qed.

Lemma str_all_rev p s : str_all p (String.rev s) = str_all p s.
Proof.
  unfold String.rev.
  assert (∀ acc, str_all p (String.rev_app s acc) = str_all p s && str_all p acc) as Hr.
  { induction s as [|c s IH]; intros acc; simpl; [done|].
    rewrite IH. simpl. destruct (p c), (str_all p s), (str_all p acc); done. }
  rewrite Hr. simpl. by rewrite andb_true_r.
Qed.

Lemma str_all_drop_ws p w2 w3 s :
  (∀ a, ws1 a = true → p a = true) →
  (∀ a b, w2 a b = true → p a = true ∧ p b = true) →
  (∀ a b c, w3 a b c = true → p a = true ∧ p b = true ∧ p c = true) →
  str_all p (drop_ws w2 w3 s) = str_all p s.
Proof.
  intros H1 H2 H3. remember (String.length s) as n eqn:Hn.
  assert (String.length s ≤ n)%nat as Hle by lia. clear Hn. revert s Hle.
  induction n as [|n IH]; intros [|a s1] Hle; simpl in *; try done; [lia|].
  destruct (ws1 a) eqn:W1; [rewrite IH by lia; by rewrite H1|].
  destruct s1 as [|b s2]; [done|]. simpl in *.
  destruct (w2 a b) eqn:W2.
  { rewrite IH by lia. by destruct (H2 _ _ W2) as [-> ->]. }
  destruct s2 as [|c s3]; [done|]. simpl in *.
  destruct (w3 a b c) eqn:W3; [|done].
  rewrite IH by lia. by destruct (H3 _ _ _ W3) as (-> & -> & ->).
Qed.

Lemma trim_lacks c s : plain c = true → lacks c (trim s) = lacks c s.
Proof.
  unfold plain, lacks, trim, trim_end, trim_start. intros Hp. bool_prop.
  assert (∀ a, 128 ≤ byte_val a → negb (Ascii.eqb a c) = true) as Hb.
  { intros a Ha. destruct (Ascii.eqb_spec a c) as [->|]; [lia|done]. }
  assert (∀ a, ws1 a = true → negb (Ascii.eqb a c) = true) as Hw.
  { intros a Ha. destruct (Ascii.eqb_spec a c) as [->|]; [congruence|done]. }
  assert (∀ a b, ws2 a b = true → negb (Ascii.eqb a c) = true ∧ negb (Ascii.eqb b c) = true) as Hw2.
  { intros a b Hab. unfold ws2 in Hab. rewrite andb_true_iff, orb_true_iff, !Z.eqb_eq in Hab.
    split; apply Hb; lia. }
  assert (∀ a b d, ws3 a b d = true → negb (Ascii.eqb a c) = true ∧ negb (Ascii.eqb b c) = true ∧
    negb (Ascii.eqb d c) = true) as Hw3.
  { intros a b d Hab. unfold ws3 in Hab.
    rewrite !orb_true_iff, !andb_true_iff, !orb_true_iff, !andb_true_iff, !Z.eqb_eq, !Z.leb_le in Hab.
    split_and!; apply Hb; lia. }
  rewrite str_all_rev, str_all_drop_ws, str_all_rev, str_all_drop_ws; try done.
  - intros a b Hab. by destruct (Hw2 _ _ Hab).
  - intros a b d Hab. by destruct (Hw3 _ _ _ Hab) as (? & ? & ?).
Qed.

Lemma trim_nonempty c s : plain c = true → lacks c s = false → is_empty (trim s) = false.
Proof.
  intros Hp Hl. rewrite <- (trim_lacks c s Hp) in Hl. by destruct (trim s).
Qed.

Lemma lacks_map c f s : f c = c → lacks c s = false → lacks c (str_map f s) = false.
Proof.
  unfold lacks. intros Hf. rewrite str_all_map.
  induction s as [|x s IH]; simpl; [done|].
  destruct (Ascii.eqb_spec x c) as [->|Hx]; simpl.
  - rewrite Hf, Ascii.eqb_refl. done.
  - intros Hs. rewrite IH by done. apply andb_false_r.
Qed.

Lemma lacks_app c a b : lacks c (a +:+ b) = lacks c a && lacks c b.
Proof. apply str_all_app. Qed.

(** ** Splitting and joining *)

Lemma split_by_nonempty p s : split_by p s ≠ [].
Proof. destruct s as [|c r]; simpl; [done|]. by destruct (p c), (split_by p r). Qed.

Lemma split_on_lacks c s x : x ∈ split_on c s → lacks c x = true.
Proof.
  unfold split_on. revert x. induction s as [|d r IH]; intros x; simpl.
  { intros ->%list_elem_of_singleton. done. }
  destruct (Ascii.eqb c d) eqn:Hd.
  { intros [->|Hx]%elem_of_cons; [done|auto]. }
  assert (Ascii.eqb d c = false) as Hd' by by rewrite Ascii.eqb_sym.
  destruct (split_by _ r) as [|y ys].
  { intros ->%list_elem_of_singleton. unfold lacks. simpl. by rewrite Hd'. }
  intros [->|Hx]%elem_of_cons; [|apply IH; set_solver].
  unfold lacks. simpl. rewrite Hd'. apply IH. set_solver.
Qed.

Lemma split_on_app c x s :
  lacks c x = true → split_on c (x +:+ String c s) = x :: split_on c s.
Proof.
  induction x as [|d x IH]; intros Hx.
  { unfold split_on. simpl. by rewrite Ascii.eqb_refl. }
  unfold lacks in Hx. simpl in Hx. bool_prop. rewrite str_cons_app. unfold split_on. simpl.
  rewrite Ascii.eqb_sym. match goal with H : Ascii.eqb d c = false |- _ => rewrite H end.
  unfold split_on in IH. by rewrite IH.
Qed.

Lemma split_on_whole c x : lacks c x = true → split_on c x = [x].
Proof.
  induction x as [|d x IH]; intros Hx; [done|]. unfold lacks in Hx. simpl in Hx. bool_prop.
  unfold split_on. simpl. rewrite Ascii.eqb_sym.
  match goal with H : Ascii.eqb d c = false |- _ => rewrite H end.
  unfold split_on in IH. by rewrite IH.
Qed.

Lemma split_on_join c l :
  l ≠ [] → Forall (λ x, lacks c x = true) l → split_on c (join (String c "") l) = l.
Proof.
  intros Hl. induction l as [|x l IH]; [done|]. intros [Hx Hf]%Forall_cons.
  destruct l as [|y l]; [by apply split_on_whole|].
  change (join (String c "") (x :: y :: l)) with (x +:+ String c (join (String c "") (y :: l))).
  rewrite split_on_app by done. by rewrite IH.
Qed.
