(* ===== verification/Config.v ===== *)
(** * Config: the configuration (src/src/config.rs)

    What is read from the environment; [env] gives the value of a variable that is set and
    is text, after the .env file was loaded. *)

From S2P Require Import Prelude Text.

Record ServerConfig := mkServerConfig {
  sc_port : Z;
  sc_host : string;
  sc_tls_cert : option string;
  sc_tls_key : option string;
}.

Record DatabaseConfig := mkDatabaseConfig {
  dc_driver : option string;
  dc_dsn : option string;
  dc_host : string;
  dc_port : Z;
  dc_user : string;
  dc_password : string;
  dc_dbname : string;
}.

Record RedisConfig := mkRedisConfig {
  rc_host : string;
  rc_port : Z;
  rc_password : string;
  rc_db : Z;
}.

Record AdminConfig := mkAdminConfig { ac_password : string }.

Record Config := mkConfig {
  cf_server : ServerConfig;
  cf_database : DatabaseConfig;
  cf_redis : option RedisConfig;
  cf_admin : AdminConfig;
  cf_log_level : string;
  cf_log_dir : string;
  cf_fingerprint_audit_enabled : bool;
  cf_performance_monitoring_enabled : bool;
  cf_usage_pricing_overrides_json : option string;
}.

(** ** The database *)

Definition driver (c : DatabaseConfig) : string := default "sqlite" (dc_driver c).

Definition not_blank (s : string) : bool := negb (is_empty (trim s)).

Definition has_explicit_dsn (c : DatabaseConfig) : bool := default false (not_blank <$> dc_dsn c).

Definition dsn (c : DatabaseConfig) : string :=
  match opt_filter not_blank (dc_dsn c) with
  | Some dsn => dsn
  | None =>
      if String.eqb (driver c) "sqlite" then "data/claude-code-gateway.db"
      else "postgres://" +:+ dc_user c +:+ ":" +:+ dc_password c +:+ "@" +:+ dc_host c +:+ ":"
           +:+ int_to_string (dc_port c) +:+ "/" +:+ dc_dbname c +:+ "?sslmode=disable"
  end.

Definition admin_dsn (c : DatabaseConfig) : string :=
  "postgres://" +:+ dc_user c +:+ ":" +:+ dc_password c +:+ "@" +:+ dc_host c +:+ ":"
  +:+ int_to_string (dc_port c) +:+ "/postgres?sslmode=disable".

(** ** Loading *)

Definition u16 : ity := ITy 0 65535.

Definition one_of (l : list string) (s : string) : bool := existsb (String.eqb s) l.

Definition is_on (value : string) : bool := one_of ["1"; "true"; "yes"; "on"] (to_ascii_lowercase value).

(** [dockerenv]: whether the file /.dockerenv exists. *)
Definition default_postgres_host (dockerenv : bool) : string :=
  if dockerenv then "postgres" else "127.0.0.1".

(** [env::var(key).ok().and_then(|v| v.parse().ok()).unwrap_or(d)]. *)
Definition env_int (env : string → option string) (t : ity) (key : string) (d : Z) : Z :=
  default d (env key ≫= parse_int t).

Definition load (env : string → option string) (dockerenv : bool) : Config := {|
  cf_redis := (λ host, {|
    rc_host := host;
    rc_port := env_int env u16 "REDIS_PORT" 6379;
    rc_password := default "" (env "REDIS_PASSWORD");
    rc_db := env_int env i64 "REDIS_DB" 0 |}) <$> env "REDIS_HOST";
  cf_server := {|
    sc_port := env_int env u16 "SERVER_PORT" 5674;
    sc_host := default "0.0.0.0" (env "SERVER_HOST");
    sc_tls_cert := env "TLS_CERT_FILE";
    sc_tls_key := env "TLS_KEY_FILE" |};
  cf_database := {|
    dc_driver := env "DATABASE_DRIVER";
    dc_dsn := opt_filter not_blank (env "DATABASE_DSN");
    dc_host := default (default_postgres_host dockerenv) (env "DATABASE_HOST");
    dc_port := env_int env u16 "DATABASE_PORT" 5432;
    dc_user := default "postgres" (opt_or (env "DATABASE_USER") (env "POSTGRES_USER"));
    dc_password := default "" (opt_or (env "DATABASE_PASSWORD") (env "POSTGRES_PASSWORD"));
    dc_dbname := default "claude_code_gateway" (opt_or (env "DATABASE_DBNAME") (env "POSTGRES_DB")) |};
  cf_admin := {| ac_password := default "admin" (env "ADMIN_PASSWORD") |};
  cf_log_level := default "info" (env "LOG_LEVEL");
  cf_log_dir := default "data/logs" (opt_filter not_blank (env "LOG_DIR"));
  cf_fingerprint_audit_enabled := is_some_and (env "FINGERPRINT_AUDIT_ENABLED") is_on;
  cf_performance_monitoring_enabled := is_none_or (env "PERFORMANCE_MONITORING_ENABLED") is_on;
  cf_usage_pricing_overrides_json := opt_filter not_blank (env "USAGE_PRICING_OVERRIDES_JSON");
|}.
