(* ===== verification/F64.v ===== *)
(** * F64: IEEE 754 double precision

    [f64] is the standard library's bit-exact specification of binary floating
    point at 53 bits of precision: every operation rounds to nearest even, and
    evaluates. Parsing and fixed-precision printing are the correctly rounded
    conversions that Rust's [str::parse::<f64>] and [format!("{:.n}")] do. *)

From Stdlib Require Import SpecFloat.
From S2P Require Import Prelude Text.

Abbreviation f64 := spec_float.

(** ** Arithmetic *)

Definition f_zero : f64 := S754_zero false.

(** An integer converted with [as f64]. *)
Definition f_of_Z (z : Z) : f64 := binary_normalize 53 1024 z 0 false.

(** The double nearest to a positive rational. *)
Definition f_of_ratio (sign : bool) (n d : positive) : f64 :=
  let '(m, e, l) := SFdiv_core_binary 53 1024 (Zpos n) 0 (Zpos d) 0 in
  binary_round_aux 53 1024 sign m e l.

Definition f_mul : f64 → f64 → f64 := SFmul 53 1024.
Definition f_div : f64 → f64 → f64 := SFdiv 53 1024.
Definition f_lt (x y : f64) : bool := SFltb x y.
Definition f_ge (x y : f64) : bool := SFleb y x.
Definition f_eqb (x y : f64) : bool := SFeqb x y.

(** The order of numbers ([ORDER BY]): a finite double as a multiple of its least
    step. *)
Definition f_key (x : f64) : Z :=
  match x with
  | S754_finite sign m e => (if sign then -1 else 1) * (Zpos m * 2 ^ (e + 1074))
  | S754_infinity sign => (if sign then -1 else 1) * 2 ^ 2100
  | _ => 0
  end.
Definition f_le (x y : f64) : bool := f_key x <=? f_key y.

Definition f_is_nan (x : f64) : bool := match x with S754_nan => true | _ => false end.
Definition f_is_finite (x : f64) : bool :=
  match x with S754_zero _ | S754_finite _ _ _ => true | _ => false end.

(** ** Parsing *)

Definition is_e (c : ascii) : bool := Ascii.eqb c "e" || Ascii.eqb c "E".

Definition parse_exponent (s : string) : option Z :=
  match s with
  | String c r =>
      if Ascii.eqb c "+" then parse_digits r
      else if Ascii.eqb c "-" then Z.opp <$> parse_digits r
      else parse_digits s
  | EmptyString => None
  end.

(** The decimal [digits * 10 ^ e], rounded. *)
Definition f_of_decimal (sign : bool) (digits e : Z) : f64 :=
  match digits with
  | Zpos m =>
      if 0 <=? e then f_of_ratio sign (Z.to_pos (Zpos m * 10 ^ e)) 1
      else f_of_ratio sign m (Z.to_pos (10 ^ (- e)))
  | _ => S754_zero sign
  end.

Definition parse_f64_unsigned (sign : bool) (s : string) : option f64 :=
  let l := to_ascii_lowercase s in
  if String.eqb l "inf" || String.eqb l "infinity" then Some (S754_infinity sign)
  else if String.eqb l "nan" then Some S754_nan
  else
    let '(mant, ex) :=
      match split_at_first is_e s with Some (a, b) => (a, Some b) | None => (s, None) end in
    let '(ip, fp) := match split_once "." mant with Some (a, b) => (a, b) | None => (mant, "") end in
    e ← match ex with None => Some 0 | Some x => parse_exponent x end;
    digits ← parse_digits (ip +:+ fp);
    Some (f_of_decimal sign digits (e - str_len fp)).

Definition parse_f64 (s : string) : option f64 :=
  match s with
  | String c r =>
      if Ascii.eqb c "+" then parse_f64_unsigned false r
      else if Ascii.eqb c "-" then parse_f64_unsigned true r
      else parse_f64_unsigned false s
  | EmptyString => None
  end.

(** ** Fixed-precision printing: [format!("{:.n}")] *)

Definition div_half_even (a b : Z) : Z :=
  let q := a / b in
  let r := a mod b in
  if 2 * r <? b then q else if b <? 2 * r then q + 1 else if Z.even q then q else q + 1.

Fixpoint pad_left (n : nat) (s : string) : string :=
  match n with O => s | S n' => String "0" (pad_left n' s) end.

Definition fmt_scaled (prec : nat) (q : Z) : string :=
  let p := 10 ^ Z.of_nat prec in
  let whole := int_to_string (q / p) in
  match prec with
  | O => whole
  | _ =>
      let frac := int_to_string (q mod p) in
      whole +:+ "." +:+ pad_left (prec - String.length frac) frac
  end.

Definition fmt_fixed (prec : nat) (x : f64) : string :=
  match x with
  | S754_nan => "NaN"
  | S754_infinity s => (if s then "-" else "") +:+ "inf"
  | S754_zero s => (if s then "-" else "") +:+ fmt_scaled prec 0
  | S754_finite s m e =>
      let scaled := Zpos m * 10 ^ Z.of_nat prec in
      (if s then "-" else "") +:+
      fmt_scaled prec (if 0 <=? e then scaled * 2 ^ e else div_half_even scaled (2 ^ (- e)))
  end.

(** ** Lemmas *)

Lemma f_ge_not_lt x t : f_ge x t = true → f_lt x t = false.
Proof.
  unfold f_ge, f_lt, SFleb, SFltb, SFcompare.
  destruct x as [sx|sx| |sx mx ex], t as [st|st| |st mt et]; try done;
    try (destruct sx; done); try (destruct st; done); try (destruct sx, st; done).
  destruct sx, st; try done; rewrite (Z.compare_antisym ex et);
    destruct (Z.compare ex et); simpl; try done;
    change (Pos.compare_cont Eq mt mx) with (Pos.compare mt mx);
    change (Pos.compare_cont Eq mx mt) with (Pos.compare mx mt);
    rewrite (Pos.compare_antisym mx mt); by destruct (Pos.compare mx mt).
Qed.

Lemma f_lt_ge x t :
  f_is_nan x = false → f_is_nan t = false → f_lt x t = negb (f_ge x t).
Proof.
  unfold f_ge, f_lt, SFleb, SFltb, SFcompare, f_is_nan.
  destruct x as [sx|sx| |sx mx ex], t as [st|st| |st mt et]; try done;
    try (destruct sx; done); try (destruct st; done); try (destruct sx, st; done).
  intros _ _. destruct sx, st; try done; rewrite (Z.compare_antisym ex et);
    destruct (Z.compare ex et); simpl; try done;
    change (Pos.compare_cont Eq mt mx) with (Pos.compare mt mx);
    change (Pos.compare_cont Eq mx mt) with (Pos.compare mx mt);
    rewrite (Pos.compare_antisym mx mt); by destruct (Pos.compare mx mt).
Qed.
