(* ===== verification/Json.v ===== *)
(** * Json: the [serde_json::Value] data type

    [Value] is the public enum of serde_json; an object is a finite map (the
    crate is built without [preserve_order], so its map is a [BTreeMap]).
    Numbers are integers of the [i64]/[u64] range or doubles. The accessors
    follow the crate's documentation; text is read and written by functions
    that stay parameters of the definitions that use them. *)

From S2P Require Import Prelude Text F64.

Inductive number := NInt (z : Z) | NFloat (f : f64).

Inductive Value :=
  | VNull
  | VBool (b : bool)
  | VNumber (n : number)
  | VString (s : string)
  | VArray (l : list Value)
  | VObject (m : gmap string Value).

(** [Value::get] with a string index. *)
Definition vget (v : Value) (k : string) : option Value :=
  match v with VObject m => m !! k | _ => None end.

Definition as_str (v : Value) : option string :=
  match v with VString s => Some s | _ => None end.
Definition as_bool (v : Value) : option bool :=
  match v with VBool b => Some b | _ => None end.
Definition as_array (v : Value) : option (list Value) :=
  match v with VArray l => Some l | _ => None end.
Definition as_object (v : Value) : option (gmap string Value) :=
  match v with VObject m => Some m | _ => None end.
Definition as_i64 (v : Value) : option Z :=
  match v with VNumber (NInt z) => checked i64 z | _ => None end.
Definition as_f64 (v : Value) : option f64 :=
  match v with
  | VNumber (NInt z) => Some (f_of_Z z)
  | VNumber (NFloat f) => Some f
  | _ => None
  end.

(** [Value::from]: a double that is not finite becomes [null]. *)
Definition of_f64 (f : f64) : Value :=
  if f_is_finite f then VNumber (NFloat f) else VNull.
Definition of_i64 (z : Z) : Value := VNumber (NInt z).
Definition of_str (s : string) : Value := VString s.

(** [value.get(k).and_then(Value::as_str)] and a field that must be given. *)
Definition get_str (v : Value) (k : string) : option string := vget v k ≫= as_str.

(** [if let Some(x) = o { obj.insert(k, f(x)) }]. *)
Definition insert_opt {A} (k : string) (f : A → Value) (o : option A)
    (m : gmap string Value) : gmap string Value :=
  match o with Some a => <[k := f a]> m | None => m end.

(** [if b { obj.insert(k, v) }]. *)
Definition insert_if (b : bool) (k : string) (v : Value) (m : gmap string Value)
    : gmap string Value := if b then <[k := v]> m else m.

(** Reading and writing JSON text: [serde_json::from_str::<Value>],
    [serde_json::to_string] and the text of a float. *)
Class JsonText := {
  json_from_str : string → result string Value;
  json_to_string : Value → result string string;
  float_to_string : f64 → string;
}.

(** [Number::to_string]. *)
Definition number_to_string `{JsonText} (n : number) : string :=
  match n with NInt z => int_to_string z | NFloat f => float_to_string f end.

(** [Sha256::digest] and [hex::encode]. *)
Class Digest := {
  sha256 : string → string;
  hex_encode : string → string;
}.

Lemma lookup_insert_if_ne b k k' v m : k ≠ k' → insert_if b k v m !! k' = m !! k'.
Proof. intros. destruct b; simpl; by rewrite ?lookup_insert_ne. Qed.

Lemma lookup_insert_opt {A} k (f : A → Value) o m :
  insert_opt k f o m !! k = match o with Some a => Some (f a) | None => m !! k end.
Proof. destruct o; simpl; by rewrite ?lookup_insert_eq. Qed.

Lemma lookup_insert_opt_ne {A} k k' (f : A → Value) o m :
  k ≠ k' → insert_opt k f o m !! k' = m !! k'.
Proof. intros. destruct o; simpl; by rewrite ?lookup_insert_ne. Qed.

#[export] Hint Rewrite @lookup_insert_opt : bridge.
