(* ===== verification/Http.v ===== *)
(** * Http: headers, responses, time

    The values the gateway receives from its HTTP and time libraries: a header
    map is the ordered list of its entries, with lower-case names and raw byte
    values; a time is a number of nanoseconds. The calendar library is an
    interface ([Chrono]): its range of representable times and its RFC 3339
    text conversions are parameters. *)

From S2P Require Import Prelude Text.

(** ** Header maps ([http::HeaderMap]) *)

Abbreviation HeaderMap := (list (string * string)).

(** [HeaderMap::get]: the first value under a name, names compared without case. *)
Fixpoint hget (h : HeaderMap) (name : string) : option string :=
  match h with
  | [] => None
  | (k, v) :: r => if String.eqb k (to_ascii_lowercase name) then Some v else hget r name
  end.

(** [HeaderMap::get_all]. *)
Definition hget_all (h : HeaderMap) (name : string) : list string :=
  snd <$> filter (λ kv, kv.1 = to_ascii_lowercase name) h.

(** [HeaderValue::to_str]: only visible ASCII and tabs are text. *)
Definition is_visible (c : ascii) : bool :=
  ((32 <=? byte_val c) && (byte_val c <? 127)) || (byte_val c =? 9).
Definition to_str (v : string) : option string := if str_all is_visible v then Some v else None.

(** A response: status, headers and body. *)
Record Response := mkResponse {
  resp_status : Z;
  resp_headers : HeaderMap;
  resp_body : string;
}.

(** ** Time

    [DateTime] ([DateTime<Utc>]) counts nanoseconds from the Unix epoch,
    [Instant] nanoseconds of the monotonic clock, [Duration] nanoseconds. *)

Abbreviation DateTime := Z.
Abbreviation Instant := Z.
Abbreviation Duration := Z.

Definition from_secs (s : Z) : Duration := s * 1000000000.
Definition from_millis (ms : Z) : Duration := ms * 1000000.

(** [Instant::elapsed] and [duration_since]: zero when the clock reads earlier. *)
Definition elapsed (now since : Instant) : Duration := Z.max 0 (now - since).

(** [DateTime::timestamp_millis]. *)
Definition timestamp_millis (t : DateTime) : Z := t / 1000000.

Class Chrono := {
  (** The representable times, and the largest [std] duration that converts. *)
  chrono_min : DateTime;
  chrono_max : DateTime;
  chrono_dur_max : Duration;
  (** [DateTime::parse_from_rfc3339 .. with_timezone(&Utc)] and [to_rfc3339]. *)
  parse_from_rfc3339 : string → option DateTime;
  to_rfc3339 : DateTime → string;
}.

(** What is relied on of the library: times are in range, and a printed time
    reads back. *)
Class ChronoLaws `{Chrono} : Prop := {
  chrono_range : chrono_min < 0 < chrono_max;
  chrono_dur_pos : 0 ≤ chrono_dur_max;
  rfc3339_roundtrip t :
    chrono_min ≤ t ≤ chrono_max → parse_from_rfc3339 (to_rfc3339 t) = Some t;
  parse_range s t : parse_from_rfc3339 s = Some t → chrono_min ≤ t ≤ chrono_max;
}.

Section chrono.
Context `{Chrono}.

Definition in_chrono (t : DateTime) : bool := (chrono_min <=? t) && (t <=? chrono_max).

(** [DateTime::from_timestamp(secs, 0)]. *)
Definition from_timestamp (secs : Z) : option DateTime :=
  let t := from_secs secs in if in_chrono t then Some t else None.

(** [DateTime + TimeDelta] aborts when the sum is not representable. *)
Definition dt_add (t : DateTime) (d : Duration) : outcome DateTime :=
  let r := t + d in if in_chrono r then Done r else Panic.

(** [chrono::Duration::from_std(d).unwrap_or_default()]. *)
Definition dur_from_std (d : Duration) : Duration :=
  if d <=? chrono_dur_max then d else 0.

Lemma dt_add_done t d r : dt_add t d = Done r → r = t + d.
Proof. unfold dt_add. case_match; by intros [= <-]. Qed.

Lemma dt_add_in t d : in_chrono (t + d) = true → dt_add t d = Done (t + d).
Proof. unfold dt_add. by intros ->. Qed.
End chrono.

(** A concrete calendar for the examples: the range of chrono's [DateTime<Utc>]
    in nanoseconds, with times written as their decimal number of
    nanoseconds. *)
Definition chrono_demo : Chrono := {|
  chrono_min := -8334601228800000000000;
  chrono_max := 8210266876799999999999;
  chrono_dur_max := 9223372036854775807000000;
  parse_from_rfc3339 s :=
    t ← parse_int (ITy (-8334601228800000000000) 8210266876799999999999) s; Some t;
  to_rfc3339 := int_to_string;
|}.

Lemma chrono_demo_laws : @ChronoLaws chrono_demo.
Proof.
  split; simpl; try done.
  - intros t Ht. by rewrite parse_int_to_string.
  - intros s t Hs. destruct (parse_int _ s) as [z|] eqn:Hp; simplify_eq/=.
    unfold parse_int in Hp. destruct s as [|c r]; [done|].
    repeat case_match; simplify_option_eq; match goal with
    | H : checked _ _ = Some _ |- _ => apply checked_Some in H; simpl in H; lia
    end.
Qed.

(** ** Lemmas *)

Lemma hget_app h1 h2 name : hget (h1 ++ h2) name = opt_or (hget h1 name) (hget h2 name).
Proof. induction h1 as [|[k v] h1 IH]; simpl; [done|]. by destruct (String.eqb k _). Qed.

Lemma elapsed_nonneg a b : 0 ≤ elapsed a b.
Proof. unfold elapsed. lia. Qed.

#[export] Hint Resolve elapsed_nonneg : bridge.
