(* ===== verification/Model.v ===== *)
(** * Model: the data of src/src/model and the error type

    [Account], [ApiToken], the usage structures and [AppError], with the
    operations their modules define on them. *)

From S2P Require Import Prelude Text Json Http.

(** ** src/src/error.rs *)

Inductive AppError :=
  | NotFound
  | BadRequest (s : string)
  | Unauthorized
  | TooManyRequests (s : string)
  | BadGateway (s : string)
  | ServiceUnavailable (s : string)
  | Internal (s : string).

(** The [Display] that [thiserror] derives. *)
Definition app_error_to_string (e : AppError) : string :=
  match e with
  | NotFound => "not found"
  | BadRequest s => "bad request: " +:+ s
  | Unauthorized => "unauthorized"
  | TooManyRequests s => "too many requests: " +:+ s
  | BadGateway s => "bad gateway: " +:+ s
  | ServiceUnavailable s => "service unavailable: " +:+ s
  | Internal s => "internal: " +:+ s
  end.

(** The status and the JSON body of the response. *)
Definition app_error_into_response (e : AppError) : Z * Value :=
  let '(status, msg) :=
    match e with
    | NotFound => (404, "not found")
    | BadRequest _ => (400, "")
    | Unauthorized => (401, "unauthorized")
    | TooManyRequests _ => (429, "")
    | BadGateway _ => (502, "")
    | ServiceUnavailable _ => (503, "")
    | Internal _ => (500, "internal error")
    end in
  (status,
   VObject {["error" := VString (if is_empty msg then app_error_to_string e else msg)]}).

(** ** src/src/model/account.rs *)

Inductive AccountStatus := AS_Active | AS_Error | AS_Disabled.
Inductive BillingMode := BM_Strip | BM_Rewrite.
Inductive AccountAuthType := AT_SetupToken | AT_Oauth.

#[export] Instance AccountStatus_eq_dec : EqDecision AccountStatus.
Proof. solve_decision. Defined.
#[export] Instance BillingMode_eq_dec : EqDecision BillingMode.
Proof. solve_decision. Defined.
#[export] Instance AccountAuthType_eq_dec : EqDecision AccountAuthType.
Proof. solve_decision. Defined.

Definition account_status_to_string (s : AccountStatus) : string :=
  match s with AS_Active => "active" | AS_Error => "error" | AS_Disabled => "disabled" end.

Definition account_status_from_string (s : string) : AccountStatus :=
  if String.eqb s "active" then AS_Active
  else if String.eqb s "error" then AS_Error
  else if String.eqb s "disabled" then AS_Disabled
  else AS_Active.

Definition billing_mode_to_string (m : BillingMode) : string :=
  match m with BM_Strip => "strip" | BM_Rewrite => "rewrite" end.

Definition billing_mode_from_string (s : string) : BillingMode :=
  if String.eqb s "rewrite" then BM_Rewrite else BM_Strip.

Definition auth_type_to_string (t : AccountAuthType) : string :=
  match t with AT_SetupToken => "setup_token" | AT_Oauth => "oauth" end.

Definition auth_type_from_string (s : string) : AccountAuthType :=
  if String.eqb s "oauth" then AT_Oauth else AT_SetupToken.

Record Account := mkAccount {
  acc_id : Z;
  acc_name : string;
  acc_email : string;
  acc_status : AccountStatus;
  acc_auth_type : AccountAuthType;
  acc_setup_token : string;
  acc_access_token : string;
  acc_refresh_token : string;
  acc_expires_at : option DateTime;
  acc_oauth_refreshed_at : option DateTime;
  acc_auth_error : string;
  acc_proxy_url : string;
  acc_device_id : string;
  acc_canonical_env : Value;
  acc_canonical_prompt : Value;
  acc_canonical_process : Value;
  acc_billing_mode : BillingMode;
  acc_account_uuid : option string;
  acc_organization_uuid : option string;
  acc_subscription_type : option string;
  acc_concurrency : Z;
  acc_priority : Z;
  acc_rate_limited_at : option DateTime;
  acc_rate_limit_reset_at : option DateTime;
  acc_disable_reason : string;
  acc_auto_telemetry : bool;
  acc_telemetry_count : Z;
  acc_usage_data : Value;
  acc_usage_fetched_at : option DateTime;
  acc_created_at : DateTime;
  acc_updated_at : DateTime;
}.

Definition is_schedulable (a : Account) : bool := bool_decide (acc_status a = AS_Active).

Definition has_valid_oauth_access_token (now : DateTime) (a : Account) (buffer_seconds : Z)
    : bool :=
  if bool_decide (acc_auth_type a ≠ AT_Oauth) || is_empty (acc_access_token a) then false
  else match acc_expires_at a with
       | Some expires_at => now + from_secs buffer_seconds <? expires_at
       | None => false
       end.

(** [mod optional_timestamp_millis]. *)
Definition serialize_millis (value : option DateTime) : Value :=
  match value with Some dt => of_i64 (timestamp_millis dt) | None => VNull end.

Definition deserialize_millis `{Chrono} (v : Value) : result string (option DateTime) :=
  match v with
  | VNull => Ok None
  | _ =>
      match as_i64 v with
      | None => Err "invalid type"
      | Some ms =>
          if in_chrono (from_millis ms) then Ok (Some (from_millis ms))
          else Err "invalid timestamp millis"
      end
  end.

(** ** src/src/model/api_token.rs *)

Inductive ApiTokenStatus := TS_Active | TS_Disabled.

#[export] Instance ApiTokenStatus_eq_dec : EqDecision ApiTokenStatus.
Proof. solve_decision. Defined.

Definition token_status_to_string (s : ApiTokenStatus) : string :=
  match s with TS_Active => "active" | TS_Disabled => "disabled" end.

Definition token_status_from_string (s : string) : ApiTokenStatus :=
  if String.eqb s "active" then TS_Active else TS_Disabled.

Record ApiToken := mkApiToken {
  tok_id : Z;
  tok_name : string;
  tok_token : string;
  tok_allowed_accounts : string;
  tok_blocked_accounts : string;
  tok_status : ApiTokenStatus;
  tok_created_at : DateTime;
  tok_updated_at : DateTime;
}.

Definition parse_id_list (s : string) : list Z :=
  if is_empty s then []
  else omap (λ part, parse_int i64 (trim part)) (split_on "," s).

Definition allowed_account_ids (t : ApiToken) : list Z := parse_id_list (tok_allowed_accounts t).
Definition blocked_account_ids (t : ApiToken) : list Z := parse_id_list (tok_blocked_accounts t).

(** ** src/src/model/usage.rs *)

Record UsageTokens := mkTokens {
  ut_input : Z;
  ut_output : Z;
  ut_cache_creation_5m : Z;
  ut_cache_creation_1h : Z;
  ut_cache_read : Z;
}.

Definition tokens_default : UsageTokens := mkTokens 0 0 0 0 0.

#[export] Instance UsageTokens_eq_dec : EqDecision UsageTokens.
Proof. solve_decision. Defined.

Definition tokens_total (t : UsageTokens) : Z :=
  sat_add i64 (sat_add i64 (sat_add i64 (sat_add i64 (ut_input t) (ut_output t))
    (ut_cache_creation_5m t)) (ut_cache_creation_1h t)) (ut_cache_read t).

Definition has_usage (t : UsageTokens) : bool := 0 <? tokens_total t.

Definition tokens_add (t other : UsageTokens) : UsageTokens := {|
  ut_input := sat_add i64 (ut_input t) (ut_input other);
  ut_output := sat_add i64 (ut_output t) (ut_output other);
  ut_cache_creation_5m := sat_add i64 (ut_cache_creation_5m t) (ut_cache_creation_5m other);
  ut_cache_creation_1h := sat_add i64 (ut_cache_creation_1h t) (ut_cache_creation_1h other);
  ut_cache_read := sat_add i64 (ut_cache_read t) (ut_cache_read other);
|}.

(** The [Serialize] instance: the fields, and the total. *)
Definition tokens_to_json (t : UsageTokens) : Value :=
  VObject
    (<["input" := of_i64 (ut_input t)]>
    (<["output" := of_i64 (ut_output t)]>
    (<["cache_creation_5m" := of_i64 (ut_cache_creation_5m t)]>
    (<["cache_creation_1h" := of_i64 (ut_cache_creation_1h t)]>
    (<["cache_read" := of_i64 (ut_cache_read t)]>
    (<["total" := of_i64 (tokens_total t)]> ∅)))))).

Record UsageCosts := mkCosts {
  uc_input_nano_usd : option Z;
  uc_output_nano_usd : option Z;
  uc_cache_creation_5m_nano_usd : option Z;
  uc_cache_creation_1h_nano_usd : option Z;
  uc_cache_read_nano_usd : option Z;
  uc_known_nano_usd : Z;
  uc_complete : bool;
  uc_unpriced_tokens : Z;
}.

Definition costs_default : UsageCosts := mkCosts None None None None None 0 false 0.

Record UsageEvent := mkEvent {
  ue_dedup_key : string;
  ue_upstream_message_id : option string;
  ue_upstream_request_id : option string;
  ue_occurred_at_utc : DateTime;
  ue_sg_day : Z;
  ue_account_id : Z;
  ue_api_token_id : Z;
  ue_model : string;
  ue_tokens : UsageTokens;
  ue_costs : UsageCosts;
  ue_pricing_version : string;
  ue_pricing_model_key : option string;
  ue_http_status : Z;
  ue_is_stream : bool;
}.

Record UnpricedUsageEvent := mkUnpriced {
  un_id : Z;
  un_model : string;
  un_tokens : UsageTokens;
}.

Record UsagePricingUpdate := mkPricingUpdate {
  pu_id : Z;
  pu_costs : UsageCosts;
  pu_pricing_version : string;
  pu_pricing_model_key : string;
}.

Record UsageMetrics := mkMetrics {
  um_request_count : Z;
  um_tokens : UsageTokens;
  um_known_cost_nano_usd : Z;
  um_cost_complete : bool;
  um_unpriced_request_count : Z;
  um_unpriced_tokens : Z;
}.

Definition metrics_default : UsageMetrics := mkMetrics 0 tokens_default 0 true 0 0.

Definition metrics_add (m other : UsageMetrics) : UsageMetrics :=
  let unpriced := sat_add i64 (um_unpriced_request_count m) (um_unpriced_request_count other) in
  {| um_request_count := sat_add i64 (um_request_count m) (um_request_count other);
     um_tokens := tokens_add (um_tokens m) (um_tokens other);
     um_known_cost_nano_usd :=
       sat_add i64 (um_known_cost_nano_usd m) (um_known_cost_nano_usd other);
     um_cost_complete := unpriced =? 0;
     um_unpriced_request_count := unpriced;
     um_unpriced_tokens := sat_add i64 (um_unpriced_tokens m) (um_unpriced_tokens other) |}.

Record DailyUsageRow := mkDailyRow {
  dr_sg_day : Z;
  dr_group_id : Z;
  dr_group_text : string;
  dr_metrics : UsageMetrics;
}.

Inductive UsageGroupBy := GB_Account | GB_ApiToken | GB_Model.
Inductive UsageGranularity := UG_Day | UG_Week | UG_Month.

#[export] Instance UsageGroupBy_eq_dec : EqDecision UsageGroupBy.
Proof. solve_decision. Defined.
#[export] Instance UsageGranularity_eq_dec : EqDecision UsageGranularity.
Proof. solve_decision. Defined.
