(* ===== verification/Identity.v ===== *)
(** * Identity: the canonical identity of an account (src/src/model/identity.rs)

    The environment, prompt and process profiles that requests are rewritten to
    (the structs are in src/src/model/account.rs): how they are drawn for a new
    account, stored as JSON, brought to the current client release and read
    back. A derived [Deserialize] reads an object by field name or an array by
    position, ignores unknown fields, and gives a missing field its default
    where the struct or the field says [serde(default)]. *)

From S2P Require Import Prelude Text F64 Json.

Definition CLAUDE_CODE_VERSION : string := "2.1.280".
Definition CLAUDE_CODE_BUILD_TIME : string := "2026-09-21T20:40:17Z".
Definition CLAUDE_CODE_STAINLESS_VERSION : string := "0.112.1".
Definition CLAUDE_CODE_RUNTIME_VERSION : string := "v26.3.0".

(** ** The profiles *)

Record CanonicalEnvData := mkEnv {
  ce_platform : string;
  ce_platform_raw : string;
  ce_arch : string;
  ce_node_version : string;
  ce_terminal : string;
  ce_shell : string;
  ce_package_managers : string;
  ce_runtimes : string;
  ce_is_running_with_bun : bool;
  ce_is_ci : bool;
  ce_is_claubbit : bool;
  ce_is_claude_code_remote : bool;
  ce_is_local_agent_mode : bool;
  ce_is_conductor : bool;
  ce_is_github_action : bool;
  ce_is_claude_code_action : bool;
  ce_is_claude_ai_auth : bool;
  ce_version : string;
  ce_version_base : string;
  ce_build_time : string;
  ce_deployment_environment : string;
  ce_vcs : string;
}.

Definition env_default : CanonicalEnvData :=
  mkEnv "" "" "" "" "" "" "" "" false false false false false false false false false
    "" "" "" "" "".

Record CanonicalPromptEnvData := mkPromptEnv {
  cp_platform : string;
  cp_shell : string;
  cp_os_version : string;
  cp_working_dir : string;
}.

Definition prompt_default : CanonicalPromptEnvData := mkPromptEnv "" "" "" "".

Record CanonicalProcessData := mkProcess {
  pr_constrained_memory : Z;
  pr_rss_range : Z * Z;
  pr_heap_total_range : Z * Z;
  pr_heap_used_range : Z * Z;
  pr_external_range : Z * Z;
  pr_array_buffers_range : Z * Z;
}.

Definition process_default : CanonicalProcessData :=
  mkProcess 0 (0, 0) (0, 0) (0, 0) (0, 0) (0, 0).

(** ** [Serialize] *)

Definition env_to_value (e : CanonicalEnvData) : Value :=
  VObject (list_to_map
    [("platform", VString (ce_platform e)); ("platform_raw", VString (ce_platform_raw e));
     ("arch", VString (ce_arch e)); ("node_version", VString (ce_node_version e));
     ("terminal", VString (ce_terminal e)); ("shell", VString (ce_shell e));
     ("package_managers", VString (ce_package_managers e)); ("runtimes", VString (ce_runtimes e));
     ("is_running_with_bun", VBool (ce_is_running_with_bun e)); ("is_ci", VBool (ce_is_ci e));
     ("is_claubbit", VBool (ce_is_claubbit e));
     ("is_claude_code_remote", VBool (ce_is_claude_code_remote e));
     ("is_local_agent_mode", VBool (ce_is_local_agent_mode e));
     ("is_conductor", VBool (ce_is_conductor e));
     ("is_github_action", VBool (ce_is_github_action e));
     ("is_claude_code_action", VBool (ce_is_claude_code_action e));
     ("is_claude_ai_auth", VBool (ce_is_claude_ai_auth e)); ("version", VString (ce_version e));
     ("version_base", VString (ce_version_base e)); ("build_time", VString (ce_build_time e));
     ("deployment_environment", VString (ce_deployment_environment e));
     ("vcs", VString (ce_vcs e))]).

Definition prompt_to_value (p : CanonicalPromptEnvData) : Value :=
  VObject (list_to_map
    [("platform", VString (cp_platform p)); ("shell", VString (cp_shell p));
     ("os_version", VString (cp_os_version p)); ("working_dir", VString (cp_working_dir p))]).

Definition pair_to_value (p : Z * Z) : Value := VArray [of_i64 p.1; of_i64 p.2].

Definition process_to_value (p : CanonicalProcessData) : Value :=
  VObject (list_to_map
    [("constrained_memory", of_i64 (pr_constrained_memory p));
     ("rss_range", pair_to_value (pr_rss_range p));
     ("heap_total_range", pair_to_value (pr_heap_total_range p));
     ("heap_used_range", pair_to_value (pr_heap_used_range p));
     ("external_range", pair_to_value (pr_external_range p));
     ("array_buffers_range", pair_to_value (pr_array_buffers_range p))]).

(** ** [Deserialize] *)

(** The fields of a struct: an object, or the elements of an array no longer
    than the struct. *)
Definition struct_fields (names : list string) (v : Value) : option (gmap string Value) :=
  match v with
  | VObject m => Some m
  | VArray l =>
      if (length l <=? length names)%nat then Some (list_to_map (zip names l)) else None
  | _ => None
  end.

Definition de_field {A} (de : Value → option A) (missing : option A)
    (fields : gmap string Value) (name : string) : option A :=
  match fields !! name with Some v => de v | None => missing end.

Definition de_pair (v : Value) : option (Z * Z) :=
  match v with VArray [a; b] => x ← as_i64 a; y ← as_i64 b; Some (x, y) | _ => None end.

Definition ENV_FIELDS : list string :=
  ["platform"; "platform_raw"; "arch"; "node_version"; "terminal"; "shell"; "package_managers";
   "runtimes"; "is_running_with_bun"; "is_ci"; "is_claubbit"; "is_claude_code_remote";
   "is_local_agent_mode"; "is_conductor"; "is_github_action"; "is_claude_code_action";
   "is_claude_ai_auth"; "version"; "version_base"; "build_time"; "deployment_environment"; "vcs"].

Definition env_from_value (v : Value) : option CanonicalEnvData :=
  m ← struct_fields ENV_FIELDS v;
  let text := de_field as_str (Some "") m in
  let flag := de_field as_bool (Some false) m in
  platform ← text "platform"; platform_raw ← text "platform_raw"; arch ← text "arch";
  node_version ← text "node_version"; terminal ← text "terminal"; shell ← text "shell";
  package_managers ← text "package_managers"; runtimes ← text "runtimes";
  bun ← flag "is_running_with_bun"; ci ← flag "is_ci"; claubbit ← flag "is_claubbit";
  remote ← flag "is_claude_code_remote"; agent ← flag "is_local_agent_mode";
  conductor ← flag "is_conductor"; github ← flag "is_github_action";
  action ← flag "is_claude_code_action"; auth ← flag "is_claude_ai_auth";
  version ← text "version"; version_base ← text "version_base"; build_time ← text "build_time";
  deployment ← text "deployment_environment"; vcs ← text "vcs";
  Some (mkEnv platform platform_raw arch node_version terminal shell package_managers runtimes
          bun ci claubbit remote agent conductor github action auth version version_base
          build_time deployment vcs).

Definition prompt_from_value (v : Value) : option CanonicalPromptEnvData :=
  m ← struct_fields ["platform"; "shell"; "os_version"; "working_dir"] v;
  let text := de_field as_str (Some "") m in
  platform ← text "platform"; shell ← text "shell"; os_version ← text "os_version";
  working_dir ← text "working_dir";
  Some (mkPromptEnv platform shell os_version working_dir).

Definition process_from_value (v : Value) : option CanonicalProcessData :=
  m ← struct_fields ["constrained_memory"; "rss_range"; "heap_total_range"; "heap_used_range";
                     "external_range"; "array_buffers_range"] v;
  constrained ← de_field as_i64 None m "constrained_memory";
  rss ← de_field de_pair None m "rss_range";
  heap_total ← de_field de_pair None m "heap_total_range";
  heap_used ← de_field de_pair None m "heap_used_range";
  external ← de_field de_pair (Some (0, 0)) m "external_range";
  array_buffers ← de_field de_pair (Some (0, 0)) m "array_buffers_range";
  Some (mkProcess constrained rss heap_total heap_used external array_buffers).

(** ** The current release *)

Definition env_shell (map : gmap string Value) : string :=
  match map !! "platform" ≫= as_str with
  | Some p =>
      if String.eqb p "darwin" then "zsh"
      else if String.eqb p "linux" || String.eqb p "win32" then "bash" else ""
  | None => ""
  end.

Definition normalize_canonical_env_json (value : Value) : Value :=
  let map := default ∅ (as_object value) in
  let map := <["version" := VString CLAUDE_CODE_VERSION]> map in
  let map := <["version_base" := VString CLAUDE_CODE_VERSION]> map in
  let map := <["build_time" := VString CLAUDE_CODE_BUILD_TIME]> map in
  let map := <["node_version" := VString CLAUDE_CODE_RUNTIME_VERSION]> map in
  let map := <["runtimes" := VString "node"]> map in
  let map := <["is_running_with_bun" := VBool true]> map in
  let shell := env_shell map in
  VObject
    (if negb (is_empty shell)
        && negb (is_some_and (map !! "shell" ≫= as_str) (λ v, negb (is_empty v)))
     then <["shell" := VString shell]> map else map).

Definition parse_canonical_env (value : Value) : CanonicalEnvData :=
  default env_default (env_from_value (normalize_canonical_env_json value)).

Definition is_empty_text (v : Value) : bool :=
  match v with VString text => is_empty text | _ => false end.

Definition drop_empty_texts (m : gmap string Value) : gmap string Value :=
  filter (λ kv : string * Value, is_empty_text kv.2 = false) m.

Definition build_full_env_json (e : CanonicalEnvData) : Value :=
  let e := if is_empty (ce_terminal e) then e <| ce_terminal := "unknown" |> else e in
  match env_to_value e with VObject m => VObject (drop_empty_texts m) | v => v end.

(** ** A new account *)

(** The constructors of the presets share everything but these fields. *)
Definition preset (platform arch node term shell pm : string) : CanonicalEnvData :=
  env_default
    <| ce_platform := platform |> <| ce_platform_raw := platform |> <| ce_arch := arch |>
    <| ce_node_version := node |> <| ce_terminal := term |> <| ce_shell := shell |>
    <| ce_package_managers := pm |> <| ce_runtimes := "node" |> <| ce_is_running_with_bun := true |>
    <| ce_is_claude_ai_auth := true |> <| ce_version := CLAUDE_CODE_VERSION |>
    <| ce_version_base := CLAUDE_CODE_VERSION |> <| ce_build_time := CLAUDE_CODE_BUILD_TIME |>
    <| ce_deployment_environment := "unknown-" +:+ platform |> <| ce_vcs := "git" |>.

Definition dp (arch node term pm : string) : CanonicalEnvData :=
  preset "darwin" arch node term "zsh" pm.
Definition dx (node term pm : string) : CanonicalEnvData := dp "x64" node term pm.
Definition lp (node term pm : string) : CanonicalEnvData :=
  preset "linux" "x64" node term "bash" pm.
Definition wp (node term pm : string) : CanonicalEnvData :=
  preset "win32" "x64" node term "bash" pm.

Definition env_presets : list CanonicalEnvData :=
  let node := CLAUDE_CODE_RUNTIME_VERSION in
  [dp "arm64" node "iTerm.app" "npm,pnpm"; dp "arm64" node "Apple_Terminal" "npm,yarn";
   dp "arm64" node "vscode" "npm,pnpm"; dp "arm64" node "WarpTerminal" "npm";
   dp "arm64" node "kitty" "npm,yarn,pnpm"; dp "arm64" node "iTerm.app" "npm";
   dp "arm64" node "tmux" "npm,pnpm"; dp "arm64" node "ghostty" "npm,yarn";
   dx node "iTerm.app" "npm,yarn"; dx node "Apple_Terminal" "npm,pnpm"; dx node "vscode" "npm";
   dx node "iTerm.app" "npm,pnpm";
   lp node "gnome-terminal" "npm,pnpm"; lp node "ssh-session" "npm";
   lp node "xterm-256color" "npm,yarn"; lp node "vscode" "npm,pnpm"; lp node "tmux" "npm";
   lp node "alacritty" "npm,yarn";
   wp node "windows-terminal" "npm,pnpm"; wp node "vscode" "npm,yarn"; wp node "mingw64" "npm";
   wp node "windows-terminal" "npm,pnpm"].

Definition prompt_presets : gmap string CanonicalPromptEnvData :=
  list_to_map
    [("darwin", mkPromptEnv "darwin" "zsh" "Darwin 24.4.0" "/Users/user/projects");
     ("linux", mkPromptEnv "linux" "bash" "Linux 6.5.0-generic" "/home/user/projects");
     ("win32", mkPromptEnv "win32"
        "bash (use Unix shell syntax, not Windows — e.g., /dev/null not NUL, forward slashes in paths)"
        "Windows 10 Pro 10.0.19045" "/c/Users/user/projects")].

Definition MEMORY_PRESETS : list Z := [0].

(** [draw n] is [gen_range(0..n)]: first the environment, then the memory. A
    missing preset is the panic of its [expect]; [device_id] is drawn. *)
Definition generate_canonical_identity (device_id : string) (draw_env draw_memory : nat → nat)
    : outcome (string * Value * Value * Value) :=
  match env_presets !! draw_env (length env_presets) with
  | None => Panic
  | Some env =>
      match prompt_presets !! ce_platform env with
      | None => Panic
      | Some prompt_env =>
          match MEMORY_PRESETS !! draw_memory (length MEMORY_PRESETS) with
          | None => Panic
          | Some mem =>
              let process :=
                mkProcess mem (300000000, 500000000) (100000000, 200000000) (40000000, 80000000)
                  (1000000, 3000000) (10000, 50000) in
              Done (device_id, env_to_value env, prompt_to_value prompt_env,
                    process_to_value process)
          end
      end
  end.

(** ** Reading back *)

Lemma env_reads_back e : env_from_value (env_to_value e) = Some e.
Proof. by destruct e. Qed.

Lemma prompt_reads_back p : prompt_from_value (prompt_to_value p) = Some p.
Proof. by destruct p. Qed.

#[export] Instance CanonicalEnvData_eq_dec : EqDecision CanonicalEnvData.
Proof. solve_decision. Defined.

Lemma presets_stable e : e ∈ env_presets → parse_canonical_env (env_to_value e) = e.
Proof.
  intros He%list_elem_of_In.
  assert (forallb (λ e, bool_decide (parse_canonical_env (env_to_value e) = e)) env_presets = true)
    as Hf by (vm_compute; reflexivity).
  rewrite forallb_forall in Hf. apply Hf in He. by apply bool_decide_eq_true in He.
Qed.

Lemma presets_have_prompts e :
  e ∈ env_presets → ∃ p, prompt_presets !! ce_platform e = Some p ∧ cp_platform p = ce_platform e.
Proof.
  intros He%list_elem_of_In.
  assert (forallb (λ e, match prompt_presets !! ce_platform e with
                        | Some p => String.eqb (cp_platform p) (ce_platform e) | None => false end)
            env_presets = true) as Hf by (vm_compute; reflexivity).
  rewrite forallb_forall in Hf. apply Hf in He.
  destruct (prompt_presets !! ce_platform e) as [p|]; [|done]. exists p. by apply String.eqb_eq in He.
Qed.

Definition process_ranges (p : CanonicalProcessData) : list (Z * Z) :=
  [pr_rss_range p; pr_heap_total_range p; pr_heap_used_range p; pr_external_range p;
   pr_array_buffers_range p].

(** The identity drawn for a new account is complete and is read back as it
    was drawn: the environment is one of the presets of the current release, the
    prompt is for the same platform, and every range of the process has room. *)
Theorem identity_reads_back device_id draw_env draw_memory :
  (draw_env (length env_presets) < length env_presets)%nat →
  (draw_memory (length MEMORY_PRESETS) < length MEMORY_PRESETS)%nat →
  ∃ env prompt process vs_env vs_prompt vs_process,
    generate_canonical_identity device_id draw_env draw_memory
    = Done (device_id, vs_env, vs_prompt, vs_process)
    ∧ parse_canonical_env vs_env = env ∧ env ∈ env_presets
    ∧ prompt_from_value vs_prompt = Some prompt ∧ cp_platform prompt = ce_platform env
    ∧ process_from_value vs_process = Some process
    ∧ Forall (λ r, 0 < r.1 < r.2) (process_ranges process).
Proof.
  intros He Hm. unfold generate_canonical_identity.
  destruct (lookup_lt_is_Some_2 _ _ He) as [env Henv]. rewrite Henv.
  apply list_elem_of_lookup_2 in Henv.
  destruct (presets_have_prompts env Henv) as (prompt & Hp & Hplat). rewrite Hp.
  destruct (draw_memory _) as [|n]; [|simpl in Hm; lia]. cbn [lookup list_lookup MEMORY_PRESETS].
  eexists env, prompt, _, _, _, _. split; [reflexivity|].
  split; [by apply presets_stable|]. split; [done|]. split; [apply prompt_reads_back|].
  split; [done|]. split; [reflexivity|]. repeat constructor.
Qed.
