(* ===== verification/Cache.v ===== *)
(** * Cache: the [CacheStore] trait and its in-memory implementation

    src/src/store/cache.rs is the class [CacheStore]: sticky sessions, the
    concurrency slots and the refresh locks. src/src/store/memory.rs is
    [MemoryStore], an instance. Every operation takes the clock reading it
    makes; the mutex of each table makes an operation one atomic step.
    [SlotLaws] is what the gateway is promised about slots. *)

From S2P Require Import Prelude Text Http Model.

(** ** The trait *)

Class CacheStore (S : Type) := {
  get_session_account_id : string → Instant → S → result AppError (option Z) * S;
  set_session_account_id : string → Z → Duration → Instant → S → result AppError unit * S;
  delete_session : string → S → result AppError unit * S;
  acquire_slot : string → Z → Duration → S → result AppError bool * S;
  release_slot : string → S → S;
  acquire_lock : string → string → Duration → Instant → S → result AppError bool * S;
  release_lock : string → string → S → S;
}.

(** The contract of the slots: a count per key, raised by a successful
    acquisition (only below the limit) and lowered by a release; sessions and
    locks do not touch it. *)
Class SlotLaws (S : Type) `{CacheStore S} (count : S → string → Z) : Prop := {
  acquire_slot_spec key max ttl s s' r k :
    acquire_slot key max ttl s = (r, s') →
    match r with
    | Ok true => count s key < max ∧ count s' k = if decide (k = key) then count s key + 1 else count s k
    | Ok false => max ≤ count s key ∧ count s' k = count s k
    | Err _ => count s' k = count s k
    end;
  release_slot_spec key s k :
    count (release_slot key s) k =
      if decide (k = key) then (if 0 <? count s key then count s key - 1 else count s key)
      else count s k;
  session_ops_keep_slots h id ttl now s k :
    count (get_session_account_id h now s).2 k = count s k ∧
    count (set_session_account_id h id ttl now s).2 k = count s k ∧
    count (delete_session h s).2 k = count s k;
  lock_ops_keep_slots key owner ttl now s k :
    count (acquire_lock key owner ttl now s).2 k = count s k ∧
    count (release_lock key owner s) k = count s k;
}.

(** ** The in-memory store *)

Record SessionEntry := mkSessionEntry { se_account_id : Z; se_expires_at : Instant }.
Record LockEntry := mkLockEntry { le_owner : string; le_expires_at : Instant }.

Record MemoryStore := mkMemoryStore {
  ms_sessions : gmap string SessionEntry;
  ms_slots : gmap string Z;
  ms_locks : gmap string LockEntry;
}.

Module Memory.

Definition new : MemoryStore := mkMemoryStore ∅ ∅ ∅.

Definition session_key (session_hash : string) : string := "session:" +:+ session_hash.

Definition get_session_account_id (session_hash : string) (now : Instant) (s : MemoryStore)
    : result AppError (option Z) * MemoryStore :=
  let key := session_key session_hash in
  match ms_sessions s !! key with
  | Some entry =>
      if se_expires_at entry <? now then
        (Ok None, s <| ms_sessions := delete key (ms_sessions s) |>)
      else (Ok (Some (se_account_id entry)), s)
  | None => (Ok None, s)
  end.

Definition set_session_account_id (session_hash : string) (account_id : Z) (ttl : Duration)
    (now : Instant) (s : MemoryStore) : result AppError unit * MemoryStore :=
  let key := session_key session_hash in
  (Ok tt, s <| ms_sessions := <[key := mkSessionEntry account_id (now + ttl)]> (ms_sessions s) |>).

Definition delete_session (session_hash : string) (s : MemoryStore)
    : result AppError unit * MemoryStore :=
  (Ok tt, s <| ms_sessions := delete (session_key session_hash) (ms_sessions s) |>).

(** The counter is created at 0, raised, and lowered back over the limit. *)
Definition acquire_slot (key : string) (max : Z) (_ttl : Duration) (s : MemoryStore)
    : result AppError bool * MemoryStore :=
  let val := default 0 (ms_slots s !! key) in
  let val := val + 1 in
  if max <? val then
    let val := val - 1 in
    (Ok false, s <| ms_slots := <[key := val]> (ms_slots s) |>)
  else (Ok true, s <| ms_slots := <[key := val]> (ms_slots s) |>).

Definition release_slot (key : string) (s : MemoryStore) : MemoryStore :=
  match ms_slots s !! key with
  | Some val =>
      if 0 <? val then s <| ms_slots := <[key := val - 1]> (ms_slots s) |> else s
  | None => s
  end.

Definition acquire_lock (key owner : string) (ttl : Duration) (now : Instant) (s : MemoryStore)
    : result AppError bool * MemoryStore :=
  let grant :=
    (Ok true, s <| ms_locks := <[key := mkLockEntry owner (now + ttl)]> (ms_locks s) |>) in
  match ms_locks s !! key with
  | Some existing => if now <=? le_expires_at existing then (Ok false, s) else grant
  | None => grant
  end.

Definition release_lock (key owner : string) (s : MemoryStore) : MemoryStore :=
  match ms_locks s !! key with
  | Some existing =>
      if String.eqb (le_owner existing) owner then
        s <| ms_locks := delete key (ms_locks s) |>
      else s
  | None => s
  end.

(** The number of slots in use under a key. *)
Definition slot_count (s : MemoryStore) (key : string) : Z := default 0 (ms_slots s !! key).

(** ** Runs of the store *)

Inductive Op :=
  | GetSession (h : string) (now : Instant)
  | SetSession (h : string) (id : Z) (ttl : Duration) (now : Instant)
  | DeleteSession (h : string)
  | AcquireSlot (key : string) (max : Z) (ttl : Duration)
  | ReleaseSlot (key : string)
  | AcquireLock (key owner : string) (ttl : Duration) (now : Instant)
  | ReleaseLock (key owner : string).

Definition step (s : MemoryStore) (op : Op) : MemoryStore :=
  match op with
  | GetSession h now => (get_session_account_id h now s).2
  | SetSession h id ttl now => (set_session_account_id h id ttl now s).2
  | DeleteSession h => (delete_session h s).2
  | AcquireSlot key max ttl => (acquire_slot key max ttl s).2
  | ReleaseSlot key => release_slot key s
  | AcquireLock key owner ttl now => (acquire_lock key owner ttl now s).2
  | ReleaseLock key owner => release_lock key owner s
  end.

Definition run (s : MemoryStore) (ops : list Op) : MemoryStore := foldl step s ops.

(** An operation that neither touches the session of [h] nor reads the clock
    for it after [t]. *)
Definition keeps_session (h : string) (t : Instant) (op : Op) : bool :=
  match op with
  | GetSession h' now => negb (String.eqb h h') || (now <=? t)
  | SetSession h' _ _ _ | DeleteSession h' => negb (String.eqb h h')
  | _ => true
  end.

(** An operation that neither releases the lock [key] in the name of [owner] nor
    tries to take it after [t]. *)
Definition keeps_lock (key owner : string) (t : Instant) (op : Op) : bool :=
  match op with
  | AcquireLock key' _ _ now => negb (String.eqb key key') || (now <=? t)
  | ReleaseLock key' owner' => negb (String.eqb key key') || negb (String.eqb owner owner')
  | _ => true
  end.

(** Every acquisition of the key uses a limit of at most [max]. *)
Definition slot_limit (key : string) (max : Z) (op : Op) : bool :=
  match op with
  | AcquireSlot key' m _ => negb (String.eqb key key') || (m <=? max)
  | _ => true
  end.
End Memory.

#[export] Instance memory_cache_store : CacheStore MemoryStore := {|
  get_session_account_id := Memory.get_session_account_id;
  set_session_account_id := Memory.set_session_account_id;
  delete_session := Memory.delete_session;
  acquire_slot := Memory.acquire_slot;
  release_slot := Memory.release_slot;
  acquire_lock := Memory.acquire_lock;
  release_lock := Memory.release_lock;
|}.

(** ** src/src/store/redis.rs: the connection URL *)

Definition build_redis_url (host : string) (port : Z) (password : string) (db : Z) : string :=
  if is_empty password then
    "redis://" +:+ host +:+ ":" +:+ int_to_string port +:+ "/" +:+ int_to_string db
  else
    "redis://:" +:+ password +:+ "@" +:+ host +:+ ":" +:+ int_to_string port +:+ "/" +:+
    int_to_string db.

(** ** Lemmas *)

Module MemoryFacts.
Import Memory.

#[export] Instance session_key_inj : Inj (=) (=) session_key.
Proof. unfold session_key. apply _. Qed.

Lemma slot_count_insert key v se sl lo k :
  slot_count (mkMemoryStore se (<[key := v]> sl) lo) k =
    if decide (k = key) then v else slot_count (mkMemoryStore se sl lo) k.
Proof.
  unfold slot_count; simpl. rewrite lookup_insert. repeat case_decide; by subst.
Qed.

Lemma acquire_slot_count key max ttl s s' r k :
  acquire_slot key max ttl s = (r, s') →
  match r with
  | Ok true => slot_count s key < max ∧
      slot_count s' k = if decide (k = key) then slot_count s key + 1 else slot_count s k
  | Ok false => max ≤ slot_count s key ∧ slot_count s' k = slot_count s k
  | Err _ => slot_count s' k = slot_count s k
  end.
Proof.
  destruct s as [se sl lo]. unfold acquire_slot; simpl.
  change (default 0 (sl !! key)) with (slot_count (mkMemoryStore se sl lo) key).
  destruct (max <? slot_count _ key + 1) eqn:Hm; intros [= <- <-]; bool_prop;
    rewrite slot_count_insert; (split; [lia|]); case_decide; subst; lia.
Qed.

Lemma release_slot_count key s k :
  slot_count (release_slot key s) k =
    if decide (k = key) then (if 0 <? slot_count s key then slot_count s key - 1 else slot_count s key)
    else slot_count s k.
Proof.
  destruct s as [se sl lo]. unfold release_slot; simpl.
  assert (slot_count (mkMemoryStore se sl lo) key = default 0 (sl !! key)) as Hc by done.
  rewrite Hc. destruct (sl !! key) as [v|] eqn:Hv; simpl in *.
  - destruct (0 <? v); rewrite ?slot_count_insert; case_decide; by subst.
  - case_decide; by subst.
Qed.

#[export] Instance memory_slot_laws : SlotLaws MemoryStore slot_count.
Proof.
  split.
  - intros key max ttl s s' r k Ha. by apply acquire_slot_count with (ttl := ttl).
  - intros. apply release_slot_count.
  - intros h id ttl now s k. destruct s. unfold slot_count. simpl.
    unfold Memory.get_session_account_id. split_and!; simpl; repeat case_match; done.
  - intros key owner ttl now s k. destruct s. unfold slot_count. simpl.
    unfold Memory.acquire_lock, Memory.release_lock. split; simpl; repeat case_match; done.
Qed.

(** A step that cannot fail: what it does to one session entry. *)
Lemma step_keeps_session h t e s op :
  keeps_session h t op = true →
  ms_sessions s !! session_key h = Some e → t ≤ se_expires_at e →
  ms_sessions (step s op) !! session_key h = Some e.
Proof.
  intros Hk Hs Ht. destruct s as [se sl lo]; simpl in *.
  destruct op as [h' now|h' id ttl now|h'|key max ttl|key|key o ttl now|key o]; simpl in *.
  - unfold Memory.get_session_account_id; simpl.
    destruct (se !! session_key h') as [e'|] eqn:He'; [|done].
    destruct (se_expires_at e' <? now) eqn:Hx; [|done]. simpl.
    destruct (String.eqb_spec h h') as [<-|Hne]; bool_prop; simpl in *.
    + simplify_eq. bool_prop. lia.
    + rewrite lookup_delete_ne; [done|]. intros Heq. by apply (inj session_key) in Heq.
  - destruct (String.eqb_spec h h') as [->|Hne]; [done|].
    rewrite lookup_insert_ne; [done|]. intros Heq. by apply (inj session_key) in Heq.
  - destruct (String.eqb_spec h h') as [->|Hne]; [done|].
    rewrite lookup_delete_ne; [done|]. intros Heq. by apply (inj session_key) in Heq.
  - unfold Memory.acquire_slot; simpl. by case_match.
  - unfold Memory.release_slot; simpl. by repeat case_match.
  - unfold Memory.acquire_lock; simpl. by repeat case_match.
  - unfold Memory.release_lock; simpl. by repeat case_match.
Qed.

Lemma run_keeps_session h t e ops s :
  forallb (keeps_session h t) ops = true →
  ms_sessions s !! session_key h = Some e → t ≤ se_expires_at e →
  ms_sessions (run s ops) !! session_key h = Some e.
Proof.
  revert s. induction ops as [|op ops IH]; intros s; simpl; [done|].
  intros Hk Hs Ht. bool_prop. apply IH; [done| |done]. by eapply step_keeps_session.
Qed.

Lemma step_keeps_lock key owner t e s op :
  keeps_lock key owner t op = true →
  ms_locks s !! key = Some e → le_owner e = owner → t ≤ le_expires_at e →
  ms_locks (step s op) !! key = Some e.
Proof.
  intros Hk Hs Ho Ht. destruct s as [se sl lo]; simpl in *.
  destruct op as [h' now|h' id ttl now|h'|k max ttl|k|k o ttl now|k o]; simpl in *; try done.
  - unfold Memory.get_session_account_id; simpl. by repeat case_match.
  - unfold Memory.acquire_slot; simpl. by case_match.
  - unfold Memory.release_slot; simpl. by repeat case_match.
  - unfold Memory.acquire_lock; simpl.
    destruct (String.eqb_spec key k) as [<-|Hne]; simpl in *.
    + bool_prop. rewrite Hs. destruct (now <=? le_expires_at e) eqn:Hx; [done|]. bool_prop. lia.
    + destruct (lo !! k) as [e'|]; [destruct (now <=? le_expires_at e')|]; simpl;
        by rewrite ?lookup_insert_ne.
  - unfold Memory.release_lock; simpl.
    destruct (String.eqb_spec key k) as [<-|Hne]; simpl in *.
    + rewrite Hs. destruct (String.eqb_spec (le_owner e) o) as [Heq|]; [|done].
      subst. by rewrite String.eqb_refl in Hk.
    + destruct (lo !! k) as [e'|]; [destruct (String.eqb (le_owner e') o)|]; simpl;
        by rewrite ?lookup_delete_ne.
Qed.

Lemma run_keeps_lock key owner t e ops s :
  forallb (keeps_lock key owner t) ops = true →
  ms_locks s !! key = Some e → le_owner e = owner → t ≤ le_expires_at e →
  ms_locks (run s ops) !! key = Some e.
Proof.
  revert s. induction ops as [|op ops IH]; intros s; simpl; [done|].
  intros Hk Hs Ho Ht. bool_prop. apply IH; [done| |done..]. by eapply step_keeps_lock.
Qed.

Lemma step_slot_bounds key max s op :
  0 ≤ max → slot_limit key max op = true →
  0 ≤ slot_count s key ≤ max → 0 ≤ slot_count (step s op) key ≤ max.
Proof.
  intros Hm Hl Hb.
  destruct op as [h' now|h' id ttl now|h'|k m ttl|k|k o ttl now|k o]; simpl in *.
  - destruct (session_ops_keep_slots (count := slot_count) h' 0 0 now s key) as (H1 & _ & _).
    by rewrite <- H1 in Hb.
  - destruct (session_ops_keep_slots (count := slot_count) h' id ttl now s key) as (_ & H2 & _).
    by rewrite <- H2 in Hb.
  - destruct (session_ops_keep_slots (count := slot_count) h' 0 0 0 s key) as (_ & _ & H3).
    by rewrite <- H3 in Hb.
  - destruct (Memory.acquire_slot k m ttl s) as [r s'] eqn:Ha.
    pose proof (acquire_slot_count _ _ _ _ _ _ key Ha) as Hc. simpl.
    destruct r as [[]|]; [|lia..]. destruct Hc as [Hlt ->].
    case_decide as Hk; subst; [|done]. rewrite String.eqb_refl in Hl. simpl in Hl.
    bool_prop. lia.
  - rewrite release_slot_count. case_decide; subst; [case_match; bool_prop; lia | done].
  - destruct (lock_ops_keep_slots (count := slot_count) k o ttl now s key) as (H1 & _).
    by rewrite <- H1 in Hb.
  - destruct (lock_ops_keep_slots (count := slot_count) k o 0 0 s key) as (_ & H2).
    by rewrite <- H2 in Hb.
Qed.

(** Over any sequence of operations on the in-memory cache, the number of slots in use
    under a key stays between zero and the limit with which they are acquired. *)
Theorem slots_within_limit key max ops :
  0 ≤ max → forallb (slot_limit key max) ops = true →
  0 ≤ slot_count (run new ops) key ≤ max.
Proof.
  intros Hm. assert (0 ≤ slot_count new key ≤ max) as Hs
    by (unfold slot_count; simpl; rewrite lookup_empty; simpl; lia).
  revert Hs. generalize new as s.
  induction ops as [|op ops IH]; intros s Hs Hl; [done|]. simpl in Hl. bool_prop.
  simpl. apply IH; [by apply step_slot_bounds | done].
Qed.

Theorem session_sticks h id ttl t0 ops t s :
  forallb (keeps_session h t) ops = true → t ≤ t0 + ttl →
  (get_session_account_id h t
    (run (set_session_account_id h id ttl t0 s).2 ops)).1 = Ok (Some id).
Proof.
  intros Hk Ht. unfold get_session_account_id.
  rewrite (run_keeps_session h t (mkSessionEntry id (t0 + ttl))); simpl; [|done| |done].
  - destruct (t0 + ttl <? t) eqn:Hx; bool_prop; [lia|done].
  - destruct s; simpl. apply lookup_insert_eq.
Qed.

Theorem session_expires h id ttl t0 t s :
  t0 + ttl < t →
  get_session_account_id h t (set_session_account_id h id ttl t0 s).2 =
    (Ok None, (delete_session h s).2).
Proof.
  intros Ht. unfold get_session_account_id, set_session_account_id, delete_session.
  destruct s; simpl. rewrite lookup_insert_eq. simpl.
  destruct (t0 + ttl <? t) eqn:Hx; bool_prop; [|lia]. by rewrite delete_insert_eq.
Qed.

(** Until an in-memory lock expires or its owner releases it, no other owner acquires it,
    whatever else is done with the cache. *)
Theorem lock_excludes key owner ttl t0 s s' ops owner' ttl' t :
  acquire_lock key owner ttl t0 s = (Ok true, s') →
  forallb (keeps_lock key owner t) ops = true → t ≤ t0 + ttl →
  (acquire_lock key owner' ttl' t (run s' ops)).1 = Ok false.
Proof.
  intros Ha Hk Ht. unfold acquire_lock at 1.
  rewrite (run_keeps_lock key owner t (mkLockEntry owner (t0 + ttl))); simpl; [|done| |done..].
  - destruct (t <=? t0 + ttl) eqn:Hx; bool_prop; [done|lia].
  - unfold acquire_lock in Ha. destruct s; simpl in *.
    repeat case_match; simplify_eq; simpl; apply lookup_insert_eq.
Qed.

End MemoryFacts.
