(* ===== verification/Limit.v ===== *)
(** * Limit: the rate-limit state machine (src/src/service/limit.rs)

    Definitions only; the theorems are in LimitFacts. The module keeps, per
    account, the limits read from upstream response headers and from the usage
    endpoint, and tells the selector whether an account may serve a model. *)

From S2P Require Import Prelude Text F64 Json Http Model.

(** ** Constants *)

Definition DB_FLUSH_TTL : Duration := from_secs (5 * 60).
Definition HIT_THRESHOLD : f64 := Eval vm_compute in f_of_ratio false 97 100.
Definition DEFAULT_429_BAN : Duration := from_secs 60.
Definition PREEMPT_RATIO : f64 := Eval vm_compute in f_of_ratio false 3 100.

(** ** Data *)

Inductive ModelClass := Opus | Sonnet | Fable.

#[export] Instance ModelClass_eq_dec : EqDecision ModelClass.
Proof. solve_decision. Defined.

Definition from_model_id (model_id : string) : ModelClass :=
  let lower := to_ascii_lowercase model_id in
  if contains "sonnet" lower then Sonnet
  else if contains "fable" lower then Fable
  else Opus.

Definition model_class_as_str (c : ModelClass) : string :=
  match c with Opus => "opus" | Sonnet => "sonnet" | Fable => "fable" end.

Definition scoped_group (c : ModelClass) : option string :=
  match c with Sonnet => Some "sonnet" | Fable => Some "fable" | Opus => None end.

Inductive UnifiedStatus := US_Allowed | US_AllowedWarning | US_Rejected.

#[export] Instance UnifiedStatus_eq_dec : EqDecision UnifiedStatus.
Proof. solve_decision. Defined.

Definition unified_status_parse (s : string) : option UnifiedStatus :=
  if String.eqb s "allowed" then Some US_Allowed
  else if String.eqb s "allowed_warning" then Some US_AllowedWarning
  else if String.eqb s "rejected" then Some US_Rejected
  else None.

Definition unified_status_as_str (s : UnifiedStatus) : string :=
  match s with
  | US_Allowed => "allowed"
  | US_AllowedWarning => "allowed_warning"
  | US_Rejected => "rejected"
  end.

Inductive OverageStatus := OS_Allowed | OS_AllowedWarning | OS_Rejected.

Definition overage_status_parse (s : string) : option OverageStatus :=
  if String.eqb s "allowed" then Some OS_Allowed
  else if String.eqb s "allowed_warning" then Some OS_AllowedWarning
  else if String.eqb s "rejected" then Some OS_Rejected
  else None.

Definition overage_status_as_str (s : OverageStatus) : string :=
  match s with
  | OS_Allowed => "allowed"
  | OS_AllowedWarning => "allowed_warning"
  | OS_Rejected => "rejected"
  end.

Record WindowSnapshot := mkWindow {
  ws_utilization : f64;
  ws_resets_at : DateTime;
  ws_status : UnifiedStatus;
  ws_surpassed_threshold : option f64;
}.

Record ScopedLimitSnapshot := mkScoped {
  sl_model_group : string;
  sl_display_name : string;
  sl_window : WindowSnapshot;
}.

Record RpmTpmCounter := mkCounter {
  rc_limit : Z;
  rc_remaining : Z;
  rc_reset_at : DateTime;
}.

Record RpmTpmSnapshot := mkRpmTpm {
  rs_requests : option RpmTpmCounter;
  rs_tokens : option RpmTpmCounter;
  rs_input_tokens : option RpmTpmCounter;
  rs_output_tokens : option RpmTpmCounter;
}.

Definition rpm_tpm_default : RpmTpmSnapshot := mkRpmTpm None None None None.

(** A counter is preempted when [remaining / limit], as doubles, is under 3%
    and its reset lies ahead. *)
Definition counter_preempted (c : RpmTpmCounter) (now : DateTime) : bool :=
  (0 <? rc_limit c)
  && f_lt (f_div (f_of_Z (rc_remaining c)) (f_of_Z (rc_limit c))) PREEMPT_RATIO
  && (now <? rc_reset_at c).

Fixpoint first_preempted_in (l : list (string * option RpmTpmCounter)) (now : DateTime)
    : option (string * DateTime) :=
  match l with
  | [] => None
  | (name, Some c) :: r =>
      if counter_preempted c now then Some (name, rc_reset_at c) else first_preempted_in r now
  | (_, None) :: r => first_preempted_in r now
  end.

Definition first_preempted (s : RpmTpmSnapshot) (now : DateTime) : option (string * DateTime) :=
  first_preempted_in
    [("requests", rs_requests s); ("tokens", rs_tokens s);
     ("input_tokens", rs_input_tokens s); ("output_tokens", rs_output_tokens s)] now.

Definition all_counters (s : RpmTpmSnapshot) : list RpmTpmCounter :=
  omap id [rs_requests s; rs_tokens s; rs_input_tokens s; rs_output_tokens s].

Record LimitState := mkLimitState {
  ls_five_hour : option WindowSnapshot;
  ls_seven_day : option WindowSnapshot;
  ls_status : option UnifiedStatus;
  ls_representative_claim : option string;
  ls_reset_at : option DateTime;
  ls_fallback_percentage : option f64;
  ls_overage_status : option OverageStatus;
  ls_overage_disabled_reason : option string;
  ls_overage_reset_at : option DateTime;
  ls_rate_limited_until : option DateTime;
  ls_rpm_tpm : option RpmTpmSnapshot;
  ls_scoped_weekly : gmap string ScopedLimitSnapshot;
  ls_scoped_rate_limited_until : gmap string DateTime;
  ls_sonnet_seven_day : option WindowSnapshot;
  ls_sonnet_rate_limited_until : option DateTime;
  ls_updated_at : option Instant;
  ls_last_db_flush_at : option Instant;
}.

Definition limit_state_default : LimitState :=
  mkLimitState None None None None None None None None None None None ∅ ∅ None None None None.

Inductive Availability :=
  | Available
  | Unavailable (reason : string) (until : option DateTime).

Definition is_available (a : Availability) : bool :=
  match a with Available => true | Unavailable _ _ => false end.

(** The full Unicode upper-casing of one non-ASCII character. *)
Class UnicodeCase := { char_to_uppercase : string → string }.

Section limit.
Context `{Chrono} `{UnicodeCase}.

(** ** Display names *)

(** The bytes of the first character, and the rest. *)
Definition first_char (s : string) : option (string * string) :=
  match s with
  | EmptyString => None
  | String c _ =>
      let v := byte_val c in
      let n := if v <? 192 then 1 else if v <? 224 then 2 else if v <? 240 then 3 else 4 in
      Some (String.substring 0 (Z.to_nat n) s,
            String.substring (Z.to_nat n) (String.length s - Z.to_nat n) s)
  end.

Definition capitalize (part : string) : string :=
  match first_char part with
  | Some (String c EmptyString, rest) => String (upper c) rest
  | Some (first, rest) => char_to_uppercase first +:+ rest
  | None => EmptyString
  end.

Definition default_scoped_display_name (model_group : string) : string :=
  if String.eqb model_group "sonnet" then "Sonnet"
  else if String.eqb model_group "fable" then "Fable"
  else join " " (capitalize <$>
         filter (λ part, part ≠ "") (split_by (λ c, Ascii.eqb c "_" || Ascii.eqb c "-") model_group)).

(** ** Header parsing *)

Definition header_str (headers : HeaderMap) (name : string) : option string :=
  hget headers name ≫= to_str.

Definition scoped_claim_group (claim : option string) : option string :=
  match claim with
  | Some c =>
      if String.eqb c "seven_day_sonnet" then Some "sonnet"
      else if String.eqb c "seven_day_overage_included" then Some "fable"
      else None
  | None => None
  end.

Definition scoped_rejection_group (headers : HeaderMap) : option string :=
  scoped_claim_group (header_str headers "anthropic-ratelimit-unified-representative-claim").

Definition is_sonnet_rejection (headers : HeaderMap) : bool :=
  bool_decide (scoped_rejection_group headers = Some "sonnet").

Definition parse_window_from_headers (headers : HeaderMap) (abbrev : string)
    : option WindowSnapshot :=
  let hdr suffix := header_str headers ("anthropic-ratelimit-unified-" +:+ abbrev +:+ suffix) in
  util ← hdr "-utilization" ≫= parse_f64;
  reset_secs ← hdr "-reset" ≫= parse_int i64;
  resets_at ← from_timestamp reset_secs;
  let status := default US_Allowed (hdr "-status" ≫= unified_status_parse) in
  let surpassed_threshold := hdr "-surpassed-threshold" ≫= parse_f64 in
  Some (mkWindow util resets_at status surpassed_threshold).

Record ParsedHeaders := mkParsed {
  ph_five_hour : option WindowSnapshot;
  ph_seven_day : option WindowSnapshot;
  ph_scoped_weekly : list ScopedLimitSnapshot;
  ph_status : option UnifiedStatus;
  ph_representative_claim : option string;
  ph_reset_at : option DateTime;
  ph_fallback_percentage : option f64;
  ph_overage_status : option OverageStatus;
  ph_overage_disabled_reason : option string;
  ph_overage_reset_at : option DateTime;
}.

Definition any_present (p : ParsedHeaders) : bool :=
  opt_is_some (ph_five_hour p)
  || opt_is_some (ph_seven_day p)
  || negb (bool_decide (length (ph_scoped_weekly p) = 0%nat))
  || opt_is_some (ph_status p)
  || opt_is_some (ph_representative_claim p)
  || opt_is_some (ph_reset_at p)
  || opt_is_some (ph_overage_status p)
  || opt_is_some (ph_overage_reset_at p).

Definition parse_unified_headers (headers : HeaderMap) : option ParsedHeaders :=
  let hdr name := header_str headers ("anthropic-ratelimit-unified-" +:+ name) in
  let scoped_weekly :=
    match parse_window_from_headers headers "7d_sonnet" with
    | Some window => [mkScoped "sonnet" "Sonnet" window]
    | None => []
    end ++
    match parse_window_from_headers headers "7d_oi" with
    | Some window => [mkScoped "fable" "Fable" window]
    | None => []
    end in
  let parsed := {|
    ph_five_hour := parse_window_from_headers headers "5h";
    ph_seven_day := parse_window_from_headers headers "7d";
    ph_scoped_weekly := scoped_weekly;
    ph_status := hdr "status" ≫= unified_status_parse;
    ph_representative_claim := hdr "representative-claim";
    ph_reset_at := (hdr "reset" ≫= parse_int i64) ≫= from_timestamp;
    ph_fallback_percentage := hdr "fallback-percentage" ≫= parse_f64;
    ph_overage_status := hdr "overage-status" ≫= overage_status_parse;
    ph_overage_disabled_reason := hdr "overage-disabled-reason";
    ph_overage_reset_at := (hdr "overage-reset" ≫= parse_int i64) ≫= from_timestamp;
  |} in
  if any_present parsed then Some parsed else None.

Definition parse_retry_after (headers : HeaderMap) : option Duration :=
  s ← header_str headers "retry-after";
  secs ← parse_int u64 (trim s);
  Some (from_secs secs).

Definition parse_rpm_tpm_counter (headers : HeaderMap) (kind : string) : option RpmTpmCounter :=
  let hdr suffix := header_str headers ("anthropic-ratelimit-" +:+ kind +:+ suffix) in
  limit ← hdr "-limit" ≫= parse_int i64;
  remaining ← hdr "-remaining" ≫= parse_int i64;
  reset_at ← hdr "-reset" ≫= parse_from_rfc3339;
  Some (mkCounter limit remaining reset_at).

Definition parse_rpm_tpm_headers (headers : HeaderMap) : option RpmTpmSnapshot :=
  let s := {|
    rs_requests := parse_rpm_tpm_counter headers "requests";
    rs_tokens := parse_rpm_tpm_counter headers "tokens";
    rs_input_tokens := parse_rpm_tpm_counter headers "input-tokens";
    rs_output_tokens := parse_rpm_tpm_counter headers "output-tokens";
  |} in
  if opt_is_none (rs_requests s) && opt_is_none (rs_tokens s)
     && opt_is_none (rs_input_tokens s) && opt_is_none (rs_output_tokens s)
  then None else Some s.

Definition merge_rpm_tpm (prev : option RpmTpmSnapshot) (new : RpmTpmSnapshot) : RpmTpmSnapshot :=
  let out := default rpm_tpm_default prev in
  {| rs_requests := opt_or (rs_requests new) (rs_requests out);
     rs_tokens := opt_or (rs_tokens new) (rs_tokens out);
     rs_input_tokens := opt_or (rs_input_tokens new) (rs_input_tokens out);
     rs_output_tokens := opt_or (rs_output_tokens new) (rs_output_tokens out) |}.

(** ** State updates *)

Definition set_scoped_window (state : LimitState) (item : ScopedLimitSnapshot) : LimitState :=
  let state :=
    if String.eqb (sl_model_group item) "sonnet"
    then state <| ls_sonnet_seven_day := Some (sl_window item) |> else state in
  state <| ls_scoped_weekly := <[sl_model_group item := item]> (ls_scoped_weekly state) |>.

Definition set_scoped_ban (state : LimitState) (model_group : string) (until : DateTime)
    : LimitState :=
  let state := state <| ls_scoped_rate_limited_until :=
    <[model_group := until]> (ls_scoped_rate_limited_until state) |> in
  if String.eqb model_group "sonnet"
  then state <| ls_sonnet_rate_limited_until := Some until |> else state.

(** The headers that are stored without any routing. *)
Definition apply_parsed_account (state : LimitState) (parsed : ParsedHeaders) : LimitState :=
  state
    <| ls_five_hour := opt_or (ph_five_hour parsed) (ls_five_hour state) |>
    <| ls_representative_claim :=
         opt_or (ph_representative_claim parsed) (ls_representative_claim state) |>
    <| ls_reset_at := opt_or (ph_reset_at parsed) (ls_reset_at state) |>
    <| ls_fallback_percentage :=
         opt_or (ph_fallback_percentage parsed) (ls_fallback_percentage state) |>
    <| ls_overage_status := opt_or (ph_overage_status parsed) (ls_overage_status state) |>
    <| ls_overage_disabled_reason :=
         opt_or (ph_overage_disabled_reason parsed) (ls_overage_disabled_reason state) |>
    <| ls_overage_reset_at := opt_or (ph_overage_reset_at parsed) (ls_overage_reset_at state) |>.

(** The generic seven-day window: the account's own, unless the response only
    names a model-level claim, in which case it is that model's. *)
Definition apply_parsed_seven_day (state : LimitState) (parsed : ParsedHeaders) : LimitState :=
  let claim_group := scoped_claim_group (ph_representative_claim parsed) in
  let explicit_groups := sl_model_group <$> ph_scoped_weekly parsed in
  match ph_seven_day parsed with
  | None => state
  | Some w =>
      match opt_filter (λ group, negb (existsb (String.eqb group) explicit_groups)) claim_group with
      | Some group =>
          let w := match ph_status parsed with Some s => w <| ws_status := s |> | None => w end in
          set_scoped_window state (mkScoped group (default_scoped_display_name group) w)
      | None => state <| ls_seven_day := Some w |>
      end
  end.

Definition apply_parsed (state : LimitState) (parsed : ParsedHeaders) : LimitState :=
  let state := apply_parsed_account state parsed in
  let state := foldl set_scoped_window state (ph_scoped_weekly parsed) in
  let state := apply_parsed_seven_day state parsed in
  match scoped_claim_group (ph_representative_claim parsed) with
  | None => state <| ls_status := opt_or (ph_status parsed) (ls_status state) |>
  | Some _ => state
  end.

(** The ban of a 429 that carried limit headers. *)
Definition ban_with_headers (s : LimitState) (claim_group : option string)
    (current_reset_at : option DateTime) (retry_after : option Duration) (now : DateTime)
    : outcome LimitState :=
  match claim_group with
  | Some group =>
      until ← match current_reset_at with
              | Some r => Done (Some r)
              | None =>
                  match retry_after with
                  | Some duration => Some <$> dt_add now (dur_from_std duration)
                  | None => Done None
                  end
              end;
      Done (match until with Some until => set_scoped_ban s group until | None => s end)
  | None =>
      if opt_is_none current_reset_at then
        match retry_after with
        | Some duration =>
            until ← dt_add now (dur_from_std duration);
            Done (s <| ls_rate_limited_until := Some until |>)
        | None => Done s
        end
      else Done s
  end.

(** [None]: nothing to absorb. A [Panic] is the overflow of [Utc::now() + ban]. *)
Definition compute_new_state (prev : LimitState) (model_class : ModelClass) (status : Z)
    (headers : HeaderMap) (now : DateTime) : outcome (option LimitState) :=
  let parsed_unified := parse_unified_headers headers in
  let parsed_rpm_tpm := parse_rpm_tpm_headers headers in
  let retry_after := parse_retry_after headers in
  if opt_is_some parsed_unified || opt_is_some parsed_rpm_tpm then
    let claim_group :=
      parsed_unified ≫= λ parsed, scoped_claim_group (ph_representative_claim parsed) in
    let current_reset_at := parsed_unified ≫= ph_reset_at in
    let s := match parsed_unified with Some u => apply_parsed prev u | None => prev end in
    let s := match parsed_rpm_tpm with
             | Some r => s <| ls_rpm_tpm := Some (merge_rpm_tpm (ls_rpm_tpm s) r) |>
             | None => s
             end in
    if status =? 429 then
      Some <$> ban_with_headers s claim_group current_reset_at retry_after now
    else Done (Some s)
  else if status =? 429 then
    let ban := default DEFAULT_429_BAN retry_after in
    ban_until ← dt_add now (dur_from_std ban);
    match scoped_group model_class with
    | Some group => Done (Some (set_scoped_ban prev group ban_until))
    | None => Done (Some (prev <| ls_rate_limited_until := Some ban_until |>))
    end
  else Done None.

(** ** The usage endpoint *)

Definition f_hundred : f64 := f_of_Z 100.

Definition parse_usage_json_window (usage : Value) (key : string) : option WindowSnapshot :=
  window ← vget usage key;
  util_0_100 ← vget window "utilization" ≫= as_f64;
  resets_at_str ← vget window "resets_at" ≫= as_str;
  resets_at ← parse_from_rfc3339 resets_at_str;
  Some (mkWindow (f_div util_0_100 f_hundred) resets_at US_Allowed None).

(** One element of [limits]: the closure of the [filter_map]. *)
Definition parse_scoped_limit (item : Value) : option ScopedLimitSnapshot :=
  if bool_decide ((vget item "type" ≫= as_str) ≠ Some "weekly_scoped") then None
  else
    model ← vget item "scope" ≫= (λ scope, vget scope "model");
    group ← vget model "model_group" ≫= as_str;
    let model_group := to_ascii_lowercase (trim group) in
    if is_empty model_group then None
    else
      utilization ← vget item "utilization" ≫= as_f64;
      if negb (f_is_finite utilization) || f_lt utilization f_zero then None
      else
        resets_at ← (vget item "resets_at" ≫= as_str) ≫= parse_from_rfc3339;
        let display_name :=
          default (default_scoped_display_name model_group)
            (opt_filter (λ v, negb (is_empty v)) (trim <$> (vget model "display_name" ≫= as_str))) in
        Some (mkScoped model_group display_name
                (mkWindow (f_div utilization f_hundred) resets_at US_Allowed None)).

Definition parse_usage_json_scoped_limits (usage : Value) : list ScopedLimitSnapshot :=
  match vget usage "limits" ≫= as_array with
  | None => []
  | Some items => omap parse_scoped_limit items
  end.

Definition apply_usage_json (state : LimitState) (usage : Value) : LimitState :=
  let state := state <| ls_five_hour :=
    opt_or (parse_usage_json_window usage "five_hour") (ls_five_hour state) |> in
  let state := state <| ls_seven_day :=
    opt_or (parse_usage_json_window usage "seven_day") (ls_seven_day state) |> in
  let state := state <| ls_seven_day :=
    opt_or (parse_usage_json_window usage "seven_day_opus") (ls_seven_day state) |> in
  let state :=
    if opt_is_some (vget usage "limits")
    then state <| ls_scoped_weekly := ∅ |> <| ls_sonnet_seven_day := None |> else state in
  let scoped := parse_usage_json_scoped_limits usage in
  let has_dynamic_sonnet := existsb (λ item, String.eqb (sl_model_group item) "sonnet") scoped in
  let state := foldl set_scoped_window state scoped in
  if negb has_dynamic_sonnet then
    match parse_usage_json_window usage "seven_day_sonnet" with
    | Some w => set_scoped_window state (mkScoped "sonnet" "Sonnet" w)
    | None => state
    end
  else state.

(** ** When to write to the database *)

Definition rpm_tpm_newly_preempted (prev new : option RpmTpmSnapshot) (now : DateTime) : bool :=
  let prev_preempted := is_some_and prev (λ p, opt_is_some (first_preempted p now)) in
  let new_preempted := is_some_and new (λ n, opt_is_some (first_preempted n now)) in
  new_preempted && negb prev_preempted.

Definition window_utilization (w : option WindowSnapshot) : f64 :=
  default f_zero (ws_utilization <$> w).

Definition crossed_threshold (prev new : option WindowSnapshot) (threshold : f64) : bool :=
  let new_util := window_utilization new in
  let prev_util := window_utilization prev in
  f_ge new_util threshold && f_lt prev_util threshold.

Definition newly_surpassed (prev new : option WindowSnapshot) : bool :=
  let new_has := opt_is_some (new ≫= ws_surpassed_threshold) in
  let prev_has := opt_is_some (prev ≫= ws_surpassed_threshold) in
  new_has && negb prev_has.

Definition scoped_status_tightened (prev new : LimitState) : bool :=
  map_any (λ group item,
    let previous :=
      default US_Allowed ((λ p, ws_status (sl_window p)) <$> (ls_scoped_weekly prev !! group)) in
    bool_decide (previous = US_Allowed)
    && bool_decide (ws_status (sl_window item) ≠ US_Allowed)) (ls_scoped_weekly new).

Definition scoped_crossed_threshold (prev new : LimitState) : bool :=
  map_any (λ group item,
    let previous := sl_window <$> (ls_scoped_weekly prev !! group) in
    f_ge (ws_utilization (sl_window item)) HIT_THRESHOLD
    && f_lt (window_utilization previous) HIT_THRESHOLD) (ls_scoped_weekly new).

Definition scoped_newly_surpassed (prev new : LimitState) : bool :=
  map_any (λ group item,
    opt_is_some (ws_surpassed_threshold (sl_window item))
    && opt_is_none (ls_scoped_weekly prev !! group ≫= λ p, ws_surpassed_threshold (sl_window p)))
    (ls_scoped_weekly new).

(** The two clocks that [flush_reason] reads. *)
Definition flush_reason (prev new : LimitState) (now_i : Instant) (now : DateTime)
    : option string :=
  match ls_last_db_flush_at prev with
  | None => Some "first-fill"
  | Some last =>
  if DB_FLUSH_TTL <=? elapsed now_i last then Some "ttl-expired"
  else
  let prev_status := default US_Allowed (ls_status prev) in
  let new_status := default US_Allowed (ls_status new) in
  if bool_decide (prev_status = US_Allowed) && bool_decide (new_status ≠ US_Allowed)
  then Some "status-changed"
  else if map_any (λ group _, opt_is_none (ls_scoped_weekly prev !! group)) (ls_scoped_weekly new)
  then Some "scoped-window-added"
  else if scoped_status_tightened prev new then Some "scoped-status-changed"
  else if crossed_threshold (ls_five_hour prev) (ls_five_hour new) HIT_THRESHOLD
          || crossed_threshold (ls_seven_day prev) (ls_seven_day new) HIT_THRESHOLD
          || scoped_crossed_threshold prev new
  then Some "threshold-crossed-97pct"
  else if newly_surpassed (ls_five_hour prev) (ls_five_hour new)
          || newly_surpassed (ls_seven_day prev) (ls_seven_day new)
          || scoped_newly_surpassed prev new
  then Some "surpassed-threshold"
  else if opt_is_none (ls_rate_limited_until prev) && opt_is_some (ls_rate_limited_until new)
  then Some "429-short-ban"
  else if map_any (λ group until,
            is_none_or (ls_scoped_rate_limited_until prev !! group) (λ previous, previous <? until))
            (ls_scoped_rate_limited_until new)
  then Some "429-short-ban-scoped"
  else if rpm_tpm_newly_preempted (ls_rpm_tpm prev) (ls_rpm_tpm new) now
  then Some "rpm-tpm-preempted"
  else None
  end.

(** ** Availability *)

(** A window blocks when it is at the threshold and its reset lies ahead. *)
Definition window_hit (now : DateTime) (w : WindowSnapshot) : bool :=
  f_ge (ws_utilization w) HIT_THRESHOLD && (now <? ws_resets_at w).

Definition bottleneck_picks (state : LimitState) (now : DateTime) : list DateTime :=
  (ws_resets_at <$> filter (λ w, window_hit now w = true)
     (omap id [ls_five_hour state; ls_seven_day state])) ++
  match ls_rpm_tpm state with
  | Some rt => rc_reset_at <$> filter (λ c, counter_preempted c now = true) (all_counters rt)
  | None => []
  end.

(** [Iterator::max]. *)
Definition list_max (l : list Z) : option Z :=
  match l with [] => None | x :: r => Some (foldl Z.max x r) end.

Definition bottleneck_limit_until (state : LimitState) (now : DateTime) : option DateTime :=
  list_max (bottleneck_picks state now).

(** The checks of [judge_availability], in order; each reads the clock at most
    once, and only when it is reached. *)
Definition gate_rejected (state : LimitState) : option Availability :=
  if bool_decide (ls_status state = Some US_Rejected)
  then Some (Unavailable "上游已拒绝（status=rejected）" (ls_reset_at state)) else None.

Definition gate_ban (state : LimitState) (now : DateTime) : option Availability :=
  until ← ls_rate_limited_until state;
  if now <? until then Some (Unavailable "429 短期隔离" (Some until)) else None.

Definition gate_rpm_tpm (state : LimitState) (now : DateTime) : option Availability :=
  rt ← ls_rpm_tpm state;
  '(name, until) ← first_preempted rt now;
  Some (Unavailable (name +:+ " 剩余 < " +:+ fmt_fixed 0 (f_mul PREEMPT_RATIO f_hundred) +:+ "%")
          (Some until)).

Definition gate_window (w : option WindowSnapshot) (label : string) (now : DateTime)
    : option Availability :=
  w ← w;
  if window_hit now w then
    Some (Unavailable (label +:+ fmt_fixed 1 (f_mul (ws_utilization w) f_hundred) +:+ "%")
            (Some (ws_resets_at w)))
  else None.

(** [(group == "sonnet").then_some(x).flatten()]. *)
Definition sonnet_mirror {A} (group : string) (x : option A) : option A :=
  if String.eqb group "sonnet" then x else None.

Definition gate_scoped_ban (state : LimitState) (group : string) (now : DateTime)
    : option Availability :=
  until ← opt_or (ls_scoped_rate_limited_until state !! group)
            (sonnet_mirror group (ls_sonnet_rate_limited_until state));
  if now <? until
  then Some (Unavailable (default_scoped_display_name group +:+ " 429 短期隔离") (Some until))
  else None.

Definition gate_scoped_window (state : LimitState) (group : string) (now : DateTime)
    : option Availability :=
  w ← opt_or (sl_window <$> ls_scoped_weekly state !! group)
        (sonnet_mirror group (ls_sonnet_seven_day state));
  if bool_decide (ws_status w = US_Rejected) || window_hit now w then
    Some (Unavailable (default_scoped_display_name group +:+ " 7 天已用 " +:+
                       fmt_fixed 1 (f_mul (ws_utilization w) f_hundred) +:+ "%")
            (Some (ws_resets_at w)))
  else None.

(** The clock reading of each check: [clk i] at the [i]-th of them. *)
Definition judge_availability (state : LimitState) (model_class : ModelClass)
    (clk : nat → DateTime) : Availability :=
  default Available
    (opt_or (gate_rejected state)
    (opt_or (gate_ban state (clk 0%nat))
    (opt_or (gate_rpm_tpm state (clk 1%nat))
    (opt_or (gate_window (ls_five_hour state) "5 小时窗口已用 " (clk 2%nat))
    (opt_or (gate_window (ls_seven_day state) "7 天窗口已用 " (clk 3%nat))
    match scoped_group model_class with
    | None => None
    | Some group =>
        opt_or (gate_scoped_ban state group (clk 4%nat))
               (gate_scoped_window state group (clk 5%nat))
    end))))).

(** ** The JSON snapshot *)

Definition window_to_json (w : WindowSnapshot) : Value :=
  VObject
    (insert_opt "surpassed_threshold" of_f64 (ws_surpassed_threshold w)
    (<["status" := of_str (unified_status_as_str (ws_status w))]>
    (<["resets_at" := of_str (to_rfc3339 (ws_resets_at w))]>
    (<["utilization" := of_f64 (f_mul (ws_utilization w) f_hundred)]> ∅)))).

Definition scoped_limit_to_json (item : ScopedLimitSnapshot) : Value :=
  let model := VObject
    (<["model_group" := of_str (sl_model_group item)]>
    (<["display_name" := of_str (sl_display_name item)]> ∅)) in
  VObject
    (<["type" := of_str "weekly_scoped"]>
    (<["scope" := VObject {["model" := model]}]>
    (<["utilization" := of_f64 (f_mul (ws_utilization (sl_window item)) f_hundred)]>
    (<["resets_at" := of_str (to_rfc3339 (ws_resets_at (sl_window item)))]>
    (<["status" := of_str (unified_status_as_str (ws_status (sl_window item)))]> ∅))))).

Definition counter_to_json (c : RpmTpmCounter) : Value :=
  VObject
    (<["limit" := of_i64 (rc_limit c)]>
    (<["remaining" := of_i64 (rc_remaining c)]>
    (<["reset_at" := of_str (to_rfc3339 (rc_reset_at c))]> ∅))).

Definition rpm_tpm_to_json (rt : RpmTpmSnapshot) : Value :=
  VObject
    (insert_opt "requests" counter_to_json (rs_requests rt)
    (insert_opt "tokens" counter_to_json (rs_tokens rt)
    (insert_opt "input_tokens" counter_to_json (rs_input_tokens rt)
    (insert_opt "output_tokens" counter_to_json (rs_output_tokens rt) ∅)))).

(** The items of [scoped_weekly] by model group: a stable insertion sort, by
    bytes. The keys of the map are its items' groups, so no two are equal. *)
Fixpoint insert_scoped (x : ScopedLimitSnapshot) (l : list ScopedLimitSnapshot)
    : list ScopedLimitSnapshot :=
  match l with
  | [] => [x]
  | y :: r =>
      if String.leb (sl_model_group x) (sl_model_group y) then x :: l
      else y :: insert_scoped x r
  end.

Definition sorted_scoped (m : gmap string ScopedLimitSnapshot) : list ScopedLimitSnapshot :=
  foldr insert_scoped [] (snd <$> map_to_list m).

Definition of_time (t : DateTime) : Value := of_str (to_rfc3339 t).

Definition build_usage_json (state : LimitState) : Value :=
  let obj : gmap string Value := ∅ in
  let obj := insert_opt "five_hour" window_to_json (ls_five_hour state) obj in
  let obj := insert_opt "seven_day" window_to_json (ls_seven_day state) obj in
  let obj := insert_opt "seven_day_opus" window_to_json (ls_seven_day state) obj in
  let obj := insert_opt "seven_day_sonnet" window_to_json (ls_sonnet_seven_day state) obj in
  let obj := insert_opt "seven_day_fable" (λ item, window_to_json (sl_window item))
               (ls_scoped_weekly state !! "fable") obj in
  let obj := insert_if (bool_decide (ls_scoped_weekly state ≠ ∅)) "limits"
               (VArray (scoped_limit_to_json <$> sorted_scoped (ls_scoped_weekly state))) obj in
  let obj := insert_opt "status" (λ s, of_str (unified_status_as_str s)) (ls_status state) obj in
  let obj := insert_opt "representative_claim" of_str (ls_representative_claim state) obj in
  let obj := insert_opt "resets_at" of_time (ls_reset_at state) obj in
  let obj := insert_opt "fallback_percentage" of_f64 (ls_fallback_percentage state) obj in
  let obj := insert_opt "overage_status" (λ s, of_str (overage_status_as_str s))
               (ls_overage_status state) obj in
  let obj := insert_opt "overage_disabled_reason" of_str (ls_overage_disabled_reason state) obj in
  let obj := insert_opt "overage_reset_at" of_time (ls_overage_reset_at state) obj in
  let obj := insert_opt "rate_limited_until" of_time (ls_rate_limited_until state) obj in
  let obj := insert_opt "sonnet_rate_limited_until" of_time
               (ls_sonnet_rate_limited_until state) obj in
  let obj := insert_if (bool_decide (ls_scoped_rate_limited_until state ≠ ∅))
               "scoped_rate_limited_until"
               (VObject (of_time <$> ls_scoped_rate_limited_until state)) obj in
  let obj := insert_opt "rpm_tpm" rpm_tpm_to_json (ls_rpm_tpm state) obj in
  VObject (<["source" := of_str "headers"]> obj).

(** ** The store

    The mutex around the map is poisoned by a panic of its holder; every later
    [lock().unwrap()] then panics. *)

Record LimitStore := mkLimitStore {
  lst_states : gmap Z LimitState;
  lst_poisoned : bool;
}.

Definition limit_store_new : LimitStore := mkLimitStore ∅ false.

(** The readings [absorb_headers] makes of the two clocks. *)
Record AbsorbClock := mkAbsorbClock {
  ac_utc : DateTime;
  ac_updated : Instant;
  ac_elapsed : Instant;
  ac_preempt : DateTime;
  ac_flushed : Instant;
}.

Definition state_of (st : LimitStore) (account_id : Z) : LimitState :=
  default limit_state_default (lst_states st !! account_id).

Definition absorb_headers (st : LimitStore) (account_id : Z) (model_class : ModelClass)
    (status : Z) (headers : HeaderMap) (c : AbsorbClock) : outcome bool * LimitStore :=
  if lst_poisoned st then (Panic, st)
  else
    let prev := state_of st account_id in
    match compute_new_state prev model_class status headers (ac_utc c) with
    | Panic => (Panic, st <| lst_poisoned := true |>)
    | Done None => (Done false, st)
    | Done (Some new_state) =>
        let new_state := new_state <| ls_updated_at := Some (ac_updated c) |> in
        let flush_r := flush_reason prev new_state (ac_elapsed c) (ac_preempt c) in
        let new_state :=
          if opt_is_some flush_r
          then new_state <| ls_last_db_flush_at := Some (ac_flushed c) |> else new_state in
        (Done (opt_is_some flush_r),
         st <| lst_states := <[account_id := new_state]> (lst_states st) |>)
    end.

Definition availability (st : LimitStore) (account_id : Z) (model_class : ModelClass)
    (clk : nat → DateTime) : outcome Availability :=
  if lst_poisoned st then Panic
  else Done match lst_states st !! account_id with
            | Some state => judge_availability state model_class clk
            | None => Available
            end.

Definition ingest_usage_json (st : LimitStore) (account_id : Z) (usage : Value) (now : Instant)
    : outcome unit * LimitStore :=
  if lst_poisoned st then (Panic, st)
  else
    let state := apply_usage_json (state_of st account_id) usage in
    let state := state <| ls_updated_at := Some now |> in
    (Done tt, st <| lst_states := <[account_id := state]> (lst_states st) |>).

(** The account table, as far as [flush_to_db] writes it. *)
Class AccountLimits (D : Type) := {
  update_usage : Z → string → D → result AppError unit * D;
  set_rate_limit : Z → DateTime → D → result AppError unit * D;
  clear_rate_limit : Z → D → result AppError unit * D;
}.

Definition flush_to_db `{db : AccountLimits D} (json_to_string : Value → result string string)
    (st : LimitStore) (account_id : Z) (now : DateTime) (d : D)
    : outcome (result AppError unit) * D :=
  if lst_poisoned st then (Panic, d)
  else
    match lst_states st !! account_id with
    | None => (Done (Ok tt), d)
    | Some state =>
        let limit_until :=
          opt_or (bottleneck_limit_until state now) (ls_rate_limited_until state) in
        let json := build_usage_json state in
        let json_str := default "{}" (res_ok (json_to_string json)) in
        let '(r, d) := update_usage account_id json_str d in
        match r with
        | Err e => (Done (Err e), d)
        | Ok _ =>
            match limit_until with
            | Some reset_at => let '(r, d) := set_rate_limit account_id reset_at d in (Done r, d)
            | None => let '(r, d) := clear_rate_limit account_id d in (Done r, d)
            end
        end
    end.

(** ** Histories: the operations on the state of one account *)

Inductive LimitOp :=
  | Absorb (model_class : ModelClass) (status : Z) (headers : HeaderMap) (c : AbsorbClock)
  | Ingest (usage : Value) (now : Instant).

Definition limit_step (account_id : Z) (st : LimitStore) (op : LimitOp) : LimitStore :=
  match op with
  | Absorb mc status headers c => (absorb_headers st account_id mc status headers c).2
  | Ingest usage now => (ingest_usage_json st account_id usage now).2
  end.

Definition limit_run (account_id : Z) (st : LimitStore) (ops : list LimitOp) : LimitStore :=
  foldl (limit_step account_id) st ops.
End limit.
