(* ===== verification/LimitFacts.v ===== *)
(** * LimitFacts: the theorems on the rate-limit state machine

    The abstract specification of the selector's question ([Blocked]), its
    refinement by [judge_availability], the isolation of model-level limits,
    the invariant that ties the legacy Sonnet fields to the per-group tables,
    the flush policy, and the panics of the store. *)

From S2P Require Import Prelude Text F64 Json Http Model Limit.

(** ** Specification *)

(** The limits of an account as the documentation declares them, read off the fields of its
    state and a clock; [clk i] is the [i]-th reading of one query. *)

(** A window is spent: 97% of it is used and its reset lies ahead. *)
Definition spent (w : WindowSnapshot) (now : DateTime) : Prop :=
  f_ge (ws_utilization w) HIT_THRESHOLD = true ∧ now < ws_resets_at w.

(** Less than 3% of a counter is left and its reset lies ahead. *)
Definition drained (c : RpmTpmCounter) (now : DateTime) : Prop :=
  0 < rc_limit c ∧ now < rc_reset_at c ∧
  f_lt (f_div (f_of_Z (rc_remaining c)) (f_of_Z (rc_limit c))) PREEMPT_RATIO = true.

(** The group of models that has a limit of its own. *)
Definition limited_as (mc : ModelClass) (g : string) : Prop :=
  mc = Sonnet ∧ g = "sonnet" ∨ mc = Fable ∧ g = "fable".

(** An account may not serve a model class now. Upstream's rejection lasts until its reset. *)
Inductive Blocked `{Chrono} `{UnicodeCase} (s : LimitState) (mc : ModelClass)
    (clk : nat → DateTime) : Prop :=
  | BRejected :
      ls_status s = Some US_Rejected → (∀ t, ls_reset_at s = Some t → clk 0%nat < t) →
      Blocked s mc clk
  | BBan t : ls_rate_limited_until s = Some t → clk 0%nat < t → Blocked s mc clk
  | BCounter rt c :
      ls_rpm_tpm s = Some rt →
      Some c ∈ [rs_requests rt; rs_tokens rt; rs_input_tokens rt; rs_output_tokens rt] →
      drained c (clk 1%nat) → Blocked s mc clk
  | BFiveHour w : ls_five_hour s = Some w → spent w (clk 2%nat) → Blocked s mc clk
  | BSevenDay w : ls_seven_day s = Some w → spent w (clk 3%nat) → Blocked s mc clk
  | BScopedBan g t :
      limited_as mc g → ls_scoped_rate_limited_until s !! g = Some t → clk 4%nat < t →
      Blocked s mc clk
  | BScopedRejected g item :
      limited_as mc g → ls_scoped_weekly s !! g = Some item →
      ws_status (sl_window item) = US_Rejected → clk 5%nat < ws_resets_at (sl_window item) →
      Blocked s mc clk
  | BScopedWindow g item :
      limited_as mc g → ls_scoped_weekly s !! g = Some item →
      spent (sl_window item) (clk 5%nat) → Blocked s mc clk.

(** A rejection whose reset has passed, of the account or of the model's own window. *)
Definition outlived `{Chrono} `{UnicodeCase} (s : LimitState) (mc : ModelClass)
    (clk : nat → DateTime) : Prop :=
  ls_status s = Some US_Rejected ∧ (∃ t, ls_reset_at s = Some t ∧ t ≤ clk 0%nat) ∨
  ∃ g item, limited_as mc g ∧ ls_scoped_weekly s !! g = Some item ∧
    ws_status (sl_window item) = US_Rejected ∧ ws_resets_at (sl_window item) ≤ clk 5%nat.

(** The legacy Sonnet fields mirror the entries of the per-group tables, and
    an item is stored under its own group. *)
Record StateInv (s : LimitState) : Prop := {
  inv_window : ls_sonnet_seven_day s = sl_window <$> ls_scoped_weekly s !! "sonnet";
  inv_ban : ls_sonnet_rate_limited_until s = ls_scoped_rate_limited_until s !! "sonnet";
  inv_group g item : ls_scoped_weekly s !! g = Some item → sl_model_group item = g;
}.

Definition StoreInv (st : LimitStore) : Prop :=
  ∀ id s, lst_states st !! id = Some s → StateInv s.

(** A response that says nothing of the account's own status. *)
Definition no_account_status `{Chrono} (headers : HeaderMap) : bool :=
  match parse_unified_headers headers with
  | Some p => opt_is_none (ph_status p) || opt_is_some (scoped_claim_group (ph_representative_claim p))
  | None => true
  end.

Definition op_keeps_status `{Chrono} (op : LimitOp) : bool :=
  match op with Absorb _ _ headers _ => no_account_status headers | Ingest _ _ => true end.

(** The ban of a 429 response that carries no limit headers. *)
Definition header_less_ban (headers : HeaderMap) : Duration :=
  default DEFAULT_429_BAN (parse_retry_after headers).

(** The header of the window of a model group. *)
Definition explicit_window_header (g : string) : string :=
  if String.eqb g "sonnet" then "7d_sonnet" else "7d_oi".

(** The bans in a state, of the account and of single models. *)
Definition bans (s : LimitState) : option DateTime * gmap string DateTime :=
  (ls_rate_limited_until s, ls_scoped_rate_limited_until s).

(** The account is banned until [t], for [mc] only if that model has limits of its own. *)
Definition banned (st : LimitStore) (id : Z) (mc : ModelClass) (t : DateTime) : Prop :=
  ∃ s, lst_states st !! id = Some s ∧
    match scoped_group mc with
    | None => ls_rate_limited_until s = Some t
    | Some g => ls_scoped_rate_limited_until s !! g = Some t
    end.

(** An operation on [id'] that is no 429 of the account [id]. *)
Definition spares `{Chrono} (id id' : Z) (op : LimitOp) : Prop :=
  id' ≠ id ∨ match op with Absorb _ status _ _ => status ≠ 429 | Ingest _ _ => True end.

(** A check that fires says "unavailable". *)
Definition refuses (o : option Availability) : Prop := ∀ a, o = Some a → is_available a = false.

Section facts.
Context `{Chrono} `{UnicodeCase}.
Implicit Types (s prev new : LimitState) (mc : ModelClass) (headers : HeaderMap).

(** ** Helper lemmas *)

Lemma opt_or_None {A} (a b : option A) : opt_or a b = None ↔ a = None ∧ b = None.
Proof. destruct a; simpl; naive_solver. Qed.

Lemma is_available_default (o : option Availability) :
  (∀ a, o = Some a → is_available a = false) →
  is_available (default Available o) = true ↔ o = None.
Proof.
  destruct o as [a|]; simpl; [|done]. intros Ha. rewrite (Ha a) by done. split; discriminate.
Qed.

Lemma first_preempted_in_None l now :
  first_preempted_in l now = None ↔
  ∀ name c, (name, Some c) ∈ l → counter_preempted c now = false.
Proof.
  induction l as [|[name [c|]] l IH]; simpl.
  - split; [|done]. intros _ name c Hin. by apply not_elem_of_nil in Hin.
  - destruct (counter_preempted c now) eqn:Hc.
    + split; [done|]. intros Hall. specialize (Hall name c ltac:(left)). congruence.
    + rewrite IH. split; intros Hall name' c' Hin.
      * apply elem_of_cons in Hin as [[= -> ->]|Hin]; [done|]. by eapply Hall.
      * eapply Hall. by right.
  - rewrite IH. split; intros Hall name' c' Hin.
    + apply elem_of_cons in Hin as [[=]|Hin]. by eapply Hall.
    + eapply Hall. by right.
Qed.

Lemma all_counters_elem rt c :
  c ∈ all_counters rt ↔
  rs_requests rt = Some c ∨ rs_tokens rt = Some c ∨
  rs_input_tokens rt = Some c ∨ rs_output_tokens rt = Some c.
Proof.
  unfold all_counters.
  destruct (rs_requests rt), (rs_tokens rt), (rs_input_tokens rt), (rs_output_tokens rt);
    simpl; rewrite ?elem_of_cons, ?elem_of_nil; naive_solver.
Qed.

Lemma first_preempted_None rt now :
  first_preempted rt now = None ↔ ∀ c, c ∈ all_counters rt → counter_preempted c now = false.
Proof.
  unfold first_preempted. rewrite first_preempted_in_None. split.
  - intros Hall c Hc. apply all_counters_elem in Hc.
    destruct Hc as [Hc|[Hc|[Hc|Hc]]]; eapply Hall; rewrite Hc, !elem_of_cons; eauto 6.
  - intros Hall name c Hc. apply Hall, all_counters_elem.
    rewrite !elem_of_cons, elem_of_nil in Hc. naive_solver.
Qed.

Lemma first_preempted_in_Some l now name t :
  first_preempted_in l now = Some (name, t) → now < t.
Proof.
  induction l as [|[n [c|]] l IH]; simpl; [done| |done].
  destruct (counter_preempted c now) eqn:Hc; [|done].
  intros [= <- <-]. unfold counter_preempted in Hc. by bool_prop.
Qed.

(** *** Each check, as a proposition *)

Lemma gate_rejected_None s : gate_rejected s = None ↔ ls_status s ≠ Some US_Rejected.
Proof. unfold gate_rejected. case_bool_decide; naive_solver. Qed.

Lemma gate_ban_None s now :
  gate_ban s now = None ↔ ∀ t, ls_rate_limited_until s = Some t → t ≤ now.
Proof.
  unfold gate_ban. destruct (ls_rate_limited_until s) as [t|]; simpl; [|naive_solver].
  destruct (now <? t) eqn:Ht; bool_prop.
  - split; [done|]. intros Hall. specialize (Hall _ eq_refl). lia.
  - split; [|done]. intros _ t' [= <-]. done.
Qed.

Lemma gate_rpm_tpm_None s now :
  gate_rpm_tpm s now = None ↔
  ∀ rt c, ls_rpm_tpm s = Some rt → c ∈ all_counters rt → counter_preempted c now = false.
Proof.
  unfold gate_rpm_tpm. destruct (ls_rpm_tpm s) as [rt|]; cbn [mbind option_bind];
    [|by split].
  destruct (first_preempted rt now) as [[name t]|] eqn:Hf; cbn [mbind option_bind].
  - split; [done|]. intros Hall.
    assert (first_preempted rt now = None) by (apply first_preempted_None; naive_solver).
    congruence.
  - split; [|done]. intros _ rt' c [= <-]. by apply first_preempted_None.
Qed.

Lemma gate_window_None w label now :
  gate_window w label now = None ↔ ∀ w', w = Some w' → window_hit now w' = false.
Proof.
  unfold gate_window. destruct w as [w|]; simpl; [|naive_solver].
  destruct (window_hit now w) eqn:Hw; [|naive_solver].
  split; [done|]. intros Hall. specialize (Hall _ eq_refl). congruence.
Qed.

Lemma gate_scoped_ban_None s g now :
  gate_scoped_ban s g now = None ↔
  ∀ t, opt_or (ls_scoped_rate_limited_until s !! g)
         (sonnet_mirror g (ls_sonnet_rate_limited_until s)) = Some t → t ≤ now.
Proof.
  unfold gate_scoped_ban. destruct (opt_or _ _) as [t|]; simpl; [|naive_solver].
  destruct (now <? t) eqn:Ht; bool_prop.
  - split; [done|]. intros Hall. specialize (Hall _ eq_refl). lia.
  - split; [|done]. by intros _ t' [= <-].
Qed.

Lemma gate_scoped_window_None s g now :
  gate_scoped_window s g now = None ↔
  ∀ w, opt_or (sl_window <$> ls_scoped_weekly s !! g) (sonnet_mirror g (ls_sonnet_seven_day s))
         = Some w → ws_status w ≠ US_Rejected ∧ window_hit now w = false.
Proof.
  unfold gate_scoped_window. destruct (opt_or _ _) as [w|]; simpl; [|naive_solver].
  case_bool_decide as Hr; simpl.
  - split; [done|]. intros Hall. by destruct (Hall _ eq_refl).
  - destruct (window_hit now w) eqn:Hw; simpl.
    + split; [done|]. intros Hall. destruct (Hall _ eq_refl). congruence.
    + split; [|done]. by intros _ w' [= <-].
Qed.

Lemma refuses_or o1 o2 : refuses o1 → refuses o2 → refuses (opt_or o1 o2).
Proof. unfold refuses. destruct o1; simpl; naive_solver. Qed.

Lemma gates_refuse s mc clk :
  refuses (gate_rejected s) ∧ (∀ t, refuses (gate_ban s t)) ∧ (∀ t, refuses (gate_rpm_tpm s t)) ∧
  (∀ w l t, refuses (gate_window w l t)) ∧
  refuses match scoped_group mc with
          | None => None
          | Some g => opt_or (gate_scoped_ban s g (clk 4%nat)) (gate_scoped_window s g (clk 5%nat))
          end.
Proof.
  unfold refuses. split_and!.
  - unfold gate_rejected. intros a Ha. case_bool_decide; by simplify_eq.
  - unfold gate_ban. intros t a Ha. destruct (ls_rate_limited_until s); [|done]. simpl in Ha.
    case_match; by simplify_eq.
  - unfold gate_rpm_tpm. intros t a Ha. destruct (ls_rpm_tpm s); [|done]. cbn [mbind option_bind] in Ha.
    destruct (first_preempted _ _) as [[? ?]|]; cbn [mbind option_bind] in Ha; by simplify_eq.
  - unfold gate_window. intros w l t a Ha. destruct w; [|done]. simpl in Ha.
    case_match; by simplify_eq.
  - destruct (scoped_group mc) as [g|]; [|done]. apply refuses_or; intros a Ha.
    + unfold gate_scoped_ban in Ha. destruct (opt_or _ _); [|done]. simpl in Ha.
      case_match; by simplify_eq.
    + unfold gate_scoped_window in Ha. destruct (opt_or _ _); [|done]. simpl in Ha.
      case_match; by simplify_eq.
Qed.

(** The answer is "available" exactly when no check fires. *)
Lemma judge_available s mc clk :
  is_available (judge_availability s mc clk) = true ↔
  gate_rejected s = None ∧ gate_ban s (clk 0%nat) = None ∧ gate_rpm_tpm s (clk 1%nat) = None ∧
  gate_window (ls_five_hour s) "5 小时窗口已用 " (clk 2%nat) = None ∧
  gate_window (ls_seven_day s) "7 天窗口已用 " (clk 3%nat) = None ∧
  ∀ g, scoped_group mc = Some g →
    gate_scoped_ban s g (clk 4%nat) = None ∧ gate_scoped_window s g (clk 5%nat) = None.
Proof.
  unfold judge_availability. destruct (gates_refuse s mc clk) as (H1 & H2 & H3 & H4 & H5).
  rewrite is_available_default by (repeat apply refuses_or; eauto).
  rewrite !opt_or_None. destruct (scoped_group mc) as [g|].
  - rewrite opt_or_None. naive_solver.
  - naive_solver.
Qed.

(** *** The invariant *)

Lemma inv_default : StateInv limit_state_default.
Proof. split; simpl; rewrite ?lookup_empty; [done..|]. intros g item. by rewrite lookup_empty. Qed.

Lemma inv_set_scoped_window s item : StateInv s → StateInv (set_scoped_window s item).
Proof.
  intros [Hw Hb Hg]. destruct s; unfold set_scoped_window; simpl in *.
  destruct (String.eqb_spec (sl_model_group item) "sonnet") as [Heq|Hne]; simpl.
  - split; simpl; [by rewrite Heq, lookup_insert_eq | done |].
    intros g it. rewrite lookup_insert_Some. intros [[<- <-]|[? ?]]; eauto.
  - split; simpl; [by rewrite lookup_insert_ne | done |].
    intros g it. rewrite lookup_insert_Some. intros [[<- <-]|[? ?]]; eauto.
Qed.

Lemma inv_foldl_scoped l s : StateInv s → StateInv (foldl set_scoped_window s l).
Proof. revert s. induction l; intros s Hs; simpl; auto using inv_set_scoped_window. Qed.

Lemma inv_set_scoped_ban s g t : StateInv s → StateInv (set_scoped_ban s g t).
Proof.
  intros [Hw Hb Hg]. destruct s; unfold set_scoped_ban; simpl in *.
  destruct (String.eqb_spec g "sonnet") as [->|Hne]; simpl; split; simpl; try done.
  - by rewrite lookup_insert_eq.
  - by rewrite lookup_insert_ne.
Qed.

(** Two states with the same model-level fields. *)
Lemma inv_transfer s s' :
  ls_sonnet_seven_day s' = ls_sonnet_seven_day s →
  ls_scoped_weekly s' = ls_scoped_weekly s →
  ls_sonnet_rate_limited_until s' = ls_sonnet_rate_limited_until s →
  ls_scoped_rate_limited_until s' = ls_scoped_rate_limited_until s →
  StateInv s → StateInv s'.
Proof. intros E1 E2 E3 E4 [Hw Hb Hg]. split; rewrite ?E1, ?E2, ?E3, ?E4; done. Qed.

Ltac transfer s := apply (inv_transfer s); [destruct s; simpl; by repeat case_match..|].

Lemma inv_apply_parsed s p : StateInv s → StateInv (apply_parsed s p).
Proof.
  intros Hs. unfold apply_parsed.
  assert (StateInv (apply_parsed_account s p)) as Ha by by transfer s.
  apply (inv_foldl_scoped (ph_scoped_weekly p)) in Ha. revert Ha.
  generalize (foldl set_scoped_window (apply_parsed_account s p) (ph_scoped_weekly p)) as s1.
  intros s1 Hs1.
  assert (StateInv (apply_parsed_seven_day s1 p)) as Hd.
  { unfold apply_parsed_seven_day. destruct (ph_seven_day p) as [w|]; [|done].
    destruct (opt_filter _ _); [by apply inv_set_scoped_window | by transfer s1]. }
  destruct (scoped_claim_group _); [done|]. revert Hd.
  generalize (apply_parsed_seven_day s1 p) as s2. intros s2 Hs2. by transfer s2.
Qed.

Lemma inv_ban_with_headers s cg r ra now s' :
  ban_with_headers s cg r ra now = Done s' → StateInv s → StateInv s'.
Proof.
  unfold ban_with_headers. intros Hb Hs. destruct cg as [g|].
  - destruct (match r with Some _ => _ | None => _ end) as [until|]; simplify_eq/=.
    destruct until; [by apply inv_set_scoped_ban | done].
  - destruct (opt_is_none r); [|by simplify_eq]. destruct ra as [d|]; [|by simplify_eq].
    destruct (dt_add now (dur_from_std d)); simplify_eq/=. by transfer s.
Qed.

Lemma inv_compute_new_state prev mc status headers now new :
  compute_new_state prev mc status headers now = Done (Some new) → StateInv prev → StateInv new.
Proof.
  unfold compute_new_state. intros Hc Hp. destruct (_ || _) eqn:Hpres.
  - set (s1 := match parse_unified_headers headers with Some _ => _ | None => _ end) in *.
    assert (StateInv s1) as H1 
      by (subst s1; clear Hc; destruct (parse_unified_headers headers); auto using inv_apply_parsed).
    set (s2 := match parse_rpm_tpm_headers headers with Some _ => _ | None => _ end) in *.
    assert (StateInv s2) as H2 
      by (subst s2; clearbody s1; clear Hc; destruct (parse_rpm_tpm_headers headers);
          [by transfer s1 | done]).
    clearbody s1 s2. destruct (status =? 429); [|by simplify_eq].
    destruct (ban_with_headers _ _ _ _ _) eqn:Hb; simplify_eq/=. by eapply inv_ban_with_headers.
  - destruct (status =? 429); [|done]. destruct (dt_add _ _); simplify_eq/=.
    destruct (scoped_group mc); simplify_eq; [by apply inv_set_scoped_ban | by transfer prev].
Qed.

Lemma inv_apply_usage_json s usage : StateInv s → StateInv (apply_usage_json s usage).
Proof.
  intros Hs. unfold apply_usage_json.
  set (s1 := upd ls_seven_day _ _).
  assert (StateInv s1) as H1 by by transfer s. clearbody s1.
  set (s2 := if opt_is_some _ then _ else _).
  assert (StateInv s2) as H2.
  { subst s2. destruct (opt_is_some _); [|done]. destruct H1 as [Hw Hb Hg]. destruct s1.
    split; simpl in *; [done..|]. intros g item. by rewrite lookup_empty. }
  clearbody s2. apply (inv_foldl_scoped (parse_usage_json_scoped_limits usage)) in H2.
  destruct (negb _); [|done]. destruct (parse_usage_json_window _ _); [|done].
  by apply inv_set_scoped_window.
Qed.

Lemma state_of_inv st id : StoreInv st → StateInv (state_of st id).
Proof.
  intros Hst. unfold state_of. destruct (lst_states st !! id) eqn:Hs; simpl; eauto using inv_default.
Qed.

Lemma store_inv_insert st id s :
  StoreInv st → StateInv s → StoreInv (st <| lst_states := <[id := s]> (lst_states st) |>).
Proof.
  intros Hst Hs id' s'. destruct st; simpl. rewrite lookup_insert_Some.
  intros [[<- <-]|[? ?]]; eauto.
Qed.

Lemma store_inv_step id st op : StoreInv st → StoreInv (limit_step id st op).
Proof.
  intros Hst. destruct op as [mc status headers c|usage now]; simpl.
  - unfold absorb_headers. destruct (lst_poisoned st); [done|].
    destruct (compute_new_state _ _ _ _ _) as [[new|]|] eqn:Hc; simpl; [|done|by destruct st].
    apply store_inv_insert; [done|].
    eapply inv_compute_new_state in Hc; [|by apply state_of_inv].
    destruct (opt_is_some _); by transfer new.
  - unfold ingest_usage_json. destruct (lst_poisoned st); [done|]. simpl.
    apply store_inv_insert; [done|].
    pose proof (inv_apply_usage_json _ usage (state_of_inv st id Hst)) as Hn.
    revert Hn. generalize (apply_usage_json (state_of st id) usage) as new. intros new Hn.
    by transfer new.
Qed.

Lemma store_inv_run id st ops : StoreInv st → StoreInv (limit_run id st ops).
Proof. revert st. induction ops; intros st Hst; simpl; auto using store_inv_step. Qed.

Lemma store_inv_new : StoreInv limit_store_new.
Proof. intros id s. simpl. by rewrite lookup_empty. Qed.

(** ** Selection *)

(** Under the invariant the fallbacks on the Sonnet fields add nothing. *)
Lemma mirror_ban s g :
  StateInv s →
  opt_or (ls_scoped_rate_limited_until s !! g) (sonnet_mirror g (ls_sonnet_rate_limited_until s))
    = ls_scoped_rate_limited_until s !! g.
Proof.
  intros [_ Hb _]. unfold sonnet_mirror. rewrite Hb.
  destruct (String.eqb_spec g "sonnet") as [->|];
    [by destruct (ls_scoped_rate_limited_until s !! "sonnet") | by destruct (ls_scoped_rate_limited_until s !! g)].
Qed.

Lemma mirror_window s g :
  StateInv s →
  opt_or (sl_window <$> ls_scoped_weekly s !! g) (sonnet_mirror g (ls_sonnet_seven_day s))
    = sl_window <$> ls_scoped_weekly s !! g.
Proof.
  intros [Hw _ _]. unfold sonnet_mirror. rewrite Hw.
  destruct (String.eqb_spec g "sonnet") as [->|];
    [by destruct (ls_scoped_weekly s !! "sonnet") | by destruct (ls_scoped_weekly s !! g)].
Qed.

Lemma spent_hit w now : spent w now ↔ window_hit now w = true.
Proof. unfold spent, window_hit. rewrite andb_true_iff, Z.ltb_lt. done. Qed.

Lemma drained_preempted c now : drained c now ↔ counter_preempted c now = true.
Proof. unfold drained, counter_preempted. rewrite !andb_true_iff, !Z.ltb_lt. naive_solver. Qed.

Lemma limited_as_scoped mc g : limited_as mc g ↔ scoped_group mc = Some g.
Proof. unfold limited_as. destruct mc; naive_solver. Qed.

Lemma counter_of rt c :
  Some c ∈ [rs_requests rt; rs_tokens rt; rs_input_tokens rt; rs_output_tokens rt] ↔
  c ∈ all_counters rt.
Proof. rewrite all_counters_elem, !elem_of_cons, elem_of_nil. naive_solver. Qed.

Lemma blocked_unavailable s mc clk :
  StateInv s → Blocked s mc clk → is_available (judge_availability s mc clk) = false.
Proof.
  intros Hs Hb. apply not_true_is_false. rewrite judge_available.
  rewrite gate_rejected_None, gate_ban_None, gate_rpm_tpm_None, !gate_window_None.
  intros (G1 & G2 & G3 & G4 & G5 & G6).
  assert (∀ g, limited_as mc g →
    (∀ t, ls_scoped_rate_limited_until s !! g = Some t → t ≤ clk 4%nat) ∧
    (∀ item, ls_scoped_weekly s !! g = Some item → ws_status (sl_window item) ≠ US_Rejected ∧
       ¬ spent (sl_window item) (clk 5%nat))) as G.
  { intros g Hg%limited_as_scoped. destruct (G6 g Hg) as [Gb Gw].
    rewrite gate_scoped_ban_None, mirror_ban in Gb by done.
    rewrite gate_scoped_window_None, mirror_window in Gw by done. split; [done|].
    intros item Hl. rewrite Hl in Gw. destruct (Gw _ eq_refl) as [? Hw]. split; [done|].
    rewrite spent_hit, Hw. done. }
  destruct Hb as [?|t ? ?|rt c ? Hc%counter_of Hd|w ? Hw|w ? Hw|g t Hg Hl ?|g item Hg Hl Hr|
    g item Hg Hl Hw]; try destruct (G g Hg) as [Gb Gw].
  - done.
  - specialize (G2 t ltac:(done)). lia.
  - apply drained_preempted in Hd. rewrite (G3 rt c) in Hd; done.
  - apply spent_hit in Hw. rewrite (G4 w) in Hw; done.
  - apply spent_hit in Hw. rewrite (G5 w) in Hw; done.
  - specialize (Gb t Hl). lia.
  - by destruct (Gw item Hl).
  - by destruct (Gw item Hl).
Qed.

Lemma first_preempted_in_fires l now r :
  first_preempted_in l now = Some r → ∃ c, Some c ∈ l.*2 ∧ counter_preempted c now = true.
Proof.
  induction l as [|[n [c|]] l IH]; simpl; [done| |].
  - destruct (counter_preempted c now) eqn:Hc; intros Hf.
    + exists c. split; [left|done].
    + destruct (IH Hf) as (c' & ? & ?). exists c'. split; [by right|done].
  - intros Hf. destruct (IH Hf) as (c' & ? & ?). exists c'. split; [by right|done].
Qed.

(** The checks that look at the model's group. *)
Lemma scoped_gates_fire s mc g clk a :
  StateInv s → scoped_group mc = Some g →
  opt_or (gate_scoped_ban s g (clk 4%nat)) (gate_scoped_window s g (clk 5%nat)) = Some a →
  Blocked s mc clk ∨ outlived s mc clk.
Proof.
  intros Hs Hg%limited_as_scoped. unfold gate_scoped_ban, gate_scoped_window.
  rewrite mirror_ban, mirror_window by done.
  destruct (ls_scoped_rate_limited_until s !! g) as [t|] eqn:Ht; simpl;
    [destruct (clk 4%nat <? t) eqn:Hlt; simpl; [intros _; bool_prop; left; by eapply BScopedBan|]|];
  (destruct (ls_scoped_weekly s !! g) as [item|] eqn:Hl; simpl; [|done];
   destruct (_ || _) eqn:Hw; [|done]; intros _;
   apply orb_true_iff in Hw as [Hw%bool_decide_eq_true|Hw%spent_hit];
   [destruct (Z_lt_le_dec (clk 5%nat) (ws_resets_at (sl_window item)));
    [left; by eapply BScopedRejected | right; right; by exists g, item]
   |left; by eapply BScopedWindow]).
Qed.

Lemma unavailable_blocked s mc clk :
  StateInv s → is_available (judge_availability s mc clk) = false →
  Blocked s mc clk ∨ outlived s mc clk.
Proof.
  intros Hs. unfold judge_availability.
  destruct (gate_rejected s) eqn:G1; simpl.
  { intros _. unfold gate_rejected in G1. case_bool_decide as Hr; [|done].
    destruct (ls_reset_at s) as [t|] eqn:Ht; [destruct (Z_lt_le_dec (clk 0%nat) t)|].
    - left. apply BRejected; [done|]. rewrite Ht. by intros ? [= <-].
    - right. left. eauto.
    - left. apply BRejected; [done|]. by rewrite Ht. }
  destruct (gate_ban s _) eqn:G2; simpl.
  { intros _. unfold gate_ban in G2. destruct (ls_rate_limited_until s) eqn:Ht; [|done].
    simpl in G2. case_match; [|done]. bool_prop. left. by eapply BBan. }
  destruct (gate_rpm_tpm s _) eqn:G3; simpl.
  { intros _. unfold gate_rpm_tpm in G3. destruct (ls_rpm_tpm s) as [rt|] eqn:Hr; [|done].
    cbn [mbind option_bind] in G3. destruct (first_preempted rt _) as [r|] eqn:Hf; [|done].
    apply first_preempted_in_fires in Hf as (c & Hin & Hc%drained_preempted). left.
    by eapply BCounter. }
  destruct (gate_window (ls_five_hour s) _ _) eqn:G4; simpl.
  { intros _. unfold gate_window in G4. destruct (ls_five_hour s) eqn:Hw; [|done].
    simpl in G4. case_match eqn:Hh; [|done]. apply spent_hit in Hh. left. by eapply BFiveHour. }
  destruct (gate_window (ls_seven_day s) _ _) eqn:G5; simpl.
  { intros _. unfold gate_window in G5. destruct (ls_seven_day s) eqn:Hw; [|done].
    simpl in G5. case_match eqn:Hh; [|done]. apply spent_hit in Hh. left. by eapply BSevenDay. }
  destruct (scoped_group mc) as [g|] eqn:Hg; [|done].
  destruct (opt_or _ _) eqn:Ho; [|done]. intros _. by eapply scoped_gates_fire.
Qed.

(** C2: After any sequence of absorbed responses and usage snapshots, LimitStore::availability
    answers 'unavailable' whenever one of the documented limits holds of the account's state (a
    rejection before its reset, an account ban, less than 3% left of a request or token counter,
    a window used to 97% before its reset, or a ban, rejection or spent window of the requested
    model's own group), and only then, except for a rejection whose reset has passed: that one
    the code may still refuse, which the documentation does not say; an account without a state
    is available. *)
Theorem availability_refines_blocked id ops mc clk :
  let st := limit_run id limit_store_new ops in
  match availability st id mc clk with
  | Panic => lst_poisoned st = true
  | Done a =>
      match lst_states st !! id with
      | None => is_available a = true
      | Some s =>
          (Blocked s mc clk → is_available a = false) ∧
          (is_available a = false → Blocked s mc clk ∨ outlived s mc clk)
      end
  end.
Proof.
  intros st. pose proof (store_inv_run id _ ops store_inv_new) as Hst. fold st in Hst.
  unfold availability. destruct (lst_poisoned st); [done|].
  destruct (lst_states st !! id) as [s|] eqn:Hs; [|done].
  split; [apply blocked_unavailable | apply unavailable_blocked]; by eapply Hst.
Qed.

(** ** Model-level claims *)

Lemma unified_of_claim headers g :
  scoped_rejection_group headers = Some g →
  ∃ p, parse_unified_headers headers = Some p ∧
       scoped_claim_group (ph_representative_claim p) = Some g.
Proof.
  unfold scoped_rejection_group, parse_unified_headers. intros Hg.
  destruct (header_str headers _) as [c|] eqn:Hc in Hg; [|done].
  assert (header_str headers ("anthropic-ratelimit-unified-" +:+ "representative-claim") = Some c)
    as Hc' by exact Hc.
  rewrite Hc'. set (p := mkParsed _ _ _ _ _ _ _ _ _ _).
  assert (any_present p = true) as Hp.
  { unfold any_present, p. cbn [ph_representative_claim opt_is_some]. by rewrite !orb_true_r. }
  exists p. by rewrite Hp.
Qed.

Lemma scoped_claim_group_cases c g :
  scoped_claim_group c = Some g → g = "sonnet" ∨ g = "fable".
Proof. unfold scoped_claim_group. repeat case_match; naive_solver. Qed.

Lemma parsed_no_explicit headers p g :
  parse_unified_headers headers = Some p → g = "sonnet" ∨ g = "fable" →
  parse_window_from_headers headers (explicit_window_header g) = None →
  existsb (String.eqb g) (sl_model_group <$> ph_scoped_weekly p) = false.
Proof.
  unfold parse_unified_headers. intros Hp Hg Hw. case_match; [|done]. simplify_eq.
  cbn [ph_scoped_weekly]. rewrite fmap_app.
  destruct Hg as [-> | ->]; unfold explicit_window_header in Hw; cbn [String.eqb] in Hw;
    simpl in Hw; rewrite Hw; repeat case_match; done.
Qed.

(** What storing windows leaves alone. *)
Lemma foldl_scoped_frame l s :
  let s' := foldl set_scoped_window s l in
  ls_status s' = ls_status s ∧ ls_rate_limited_until s' = ls_rate_limited_until s ∧
  ls_seven_day s' = ls_seven_day s ∧
  ls_scoped_rate_limited_until s' = ls_scoped_rate_limited_until s.
Proof.
  revert s. induction l as [|x l IH]; intros s; simpl; [done|].
  destruct (IH (set_scoped_window s x)) as (-> & -> & -> & ->).
  destruct s; unfold set_scoped_window; simpl. by destruct (String.eqb _ _).
Qed.

Lemma apply_parsed_scoped_frame s p g :
  scoped_claim_group (ph_representative_claim p) = Some g →
  let s' := apply_parsed s p in
  ls_status s' = ls_status s ∧ ls_rate_limited_until s' = ls_rate_limited_until s ∧
  ls_scoped_rate_limited_until s' = ls_scoped_rate_limited_until s ∧
  (existsb (String.eqb g) (sl_model_group <$> ph_scoped_weekly p) = false →
   ls_seven_day s' = ls_seven_day s).
Proof.
  intros Hc. unfold apply_parsed, apply_parsed_seven_day. rewrite Hc.
  destruct (foldl_scoped_frame (ph_scoped_weekly p) (apply_parsed_account s p))
    as (E1 & E2 & E3 & E4). simpl. revert E1 E2 E3 E4.
  generalize (foldl set_scoped_window (apply_parsed_account s p) (ph_scoped_weekly p)) as s1.
  intros s1 E1 E2 E3 E4.
  destruct (ph_seven_day p) as [w|]; [|by destruct s].
  destruct (existsb _ _); simpl.
  - destruct s, s1; simpl in *; subst. by split_and!.
  - destruct (foldl_scoped_frame [mkScoped g (default_scoped_display_name g)
      match ph_status p with Some st => w <| ws_status := st |> | None => w end] s1)
      as (F1 & F2 & F3 & F4). simpl in F1, F2, F3, F4.
    rewrite F1, F2, F3, F4, E1, E2, E3, E4. by destruct s.
Qed.

Lemma set_rpm_tpm_frame s r :
  let s' := s <| ls_rpm_tpm := r |> in
  ls_status s' = ls_status s ∧ ls_rate_limited_until s' = ls_rate_limited_until s ∧
  ls_seven_day s' = ls_seven_day s ∧
  ls_scoped_rate_limited_until s' = ls_scoped_rate_limited_until s.
Proof. by destruct s. Qed.

Lemma set_scoped_ban_frame s g t :
  let s' := set_scoped_ban s g t in
  ls_status s' = ls_status s ∧ ls_rate_limited_until s' = ls_rate_limited_until s ∧
  ls_seven_day s' = ls_seven_day s ∧ ls_five_hour s' = ls_five_hour s ∧
  ls_rpm_tpm s' = ls_rpm_tpm s ∧ ls_scoped_weekly s' = ls_scoped_weekly s ∧
  ls_reset_at s' = ls_reset_at s ∧
  ls_sonnet_seven_day s' = ls_sonnet_seven_day s ∧
  ls_last_db_flush_at s' = ls_last_db_flush_at s ∧
  ls_scoped_rate_limited_until s' = <[g := t]> (ls_scoped_rate_limited_until s).
Proof. destruct s; unfold set_scoped_ban; simpl; by destruct (String.eqb _ _). Qed.

(** A response whose representative claim names a model group (Sonnet or Fable) with a
    rejection leaves the account's own status, account ban, the other groups' bans, and (unless
    the header of that group's window is present) the account's seven-day window unchanged. *)
Theorem scoped_claim_isolated prev mc status headers now g s :
  scoped_rejection_group headers = Some g →
  compute_new_state prev mc status headers now = Done (Some s) →
  ls_status s = ls_status prev ∧
  ls_rate_limited_until s = ls_rate_limited_until prev ∧
  (∀ g', g' ≠ g → ls_scoped_rate_limited_until s !! g' = ls_scoped_rate_limited_until prev !! g') ∧
  (parse_window_from_headers headers (explicit_window_header g) = None →
   ls_seven_day s = ls_seven_day prev).
Proof.
  intros Hg Hc. destruct (unified_of_claim _ _ Hg) as (p & Hp & Hclaim).
  pose proof (λ Hn, parsed_no_explicit _ _ g Hp (scoped_claim_group_cases _ _ Hclaim) Hn) as Hex.
  unfold compute_new_state in Hc. rewrite Hp in Hc. simpl in Hc. rewrite Hclaim in Hc.
  destruct (apply_parsed_scoped_frame prev p g Hclaim) as (E1 & E2 & E3 & E4). simpl in *.
  revert Hc E1 E2 E3 E4. generalize (apply_parsed prev p) as s1. intros s1 Hc E1 E2 E3 E4.
  set (s2 := match parse_rpm_tpm_headers headers with Some _ => _ | None => _ end) in *.
  assert (ls_status s2 = ls_status s1 ∧ ls_rate_limited_until s2 = ls_rate_limited_until s1 ∧
    ls_seven_day s2 = ls_seven_day s1 ∧
    ls_scoped_rate_limited_until s2 = ls_scoped_rate_limited_until s1) as (F1 & F2 & F3 & F4).
  { subst s2. clear Hc. destruct (parse_rpm_tpm_headers headers);
      [apply set_rpm_tpm_frame | done]. }
  clearbody s2.
  assert (s = s2 ∨ ∃ t, s = set_scoped_ban s2 g t) as [-> | [t ->]].
  { destruct (status =? 429); [|simplify_eq; by left]. unfold ban_with_headers in Hc.
    destruct (ph_reset_at p); simplify_eq/=; [eauto|].
    destruct (parse_retry_after headers); simplify_eq/=; [|by left].
    destruct (dt_add _ _); simplify_eq/=; eauto. }
  - rewrite F1, F2, F3, F4, E1, E2, E3. naive_solver.
  - destruct (set_scoped_ban_frame s2 g t) as (G1 & G2 & G3 & _ & _ & _ & _ & _ & _ & G4).
    simpl in *. rewrite G1, G2, G3, G4, F1, F2, F3, F4, E1, E2, E3. split_and!; [done..| |].
    + intros g' Hne. by rewrite lookup_insert_ne.
    + auto.
Qed.

(** ** The ban of a 429 without limit headers *)

Lemma header_less_state prev mc headers now :
  parse_unified_headers headers = None → parse_rpm_tpm_headers headers = None →
  in_chrono (now + dur_from_std (header_less_ban headers)) = true →
  compute_new_state prev mc 429 headers now =
    Done (Some
      match scoped_group mc with
      | Some g => set_scoped_ban prev g (now + dur_from_std (header_less_ban headers))
      | None => prev <| ls_rate_limited_until :=
                  Some (now + dur_from_std (header_less_ban headers)) |>
      end).
Proof.
  unfold compute_new_state, header_less_ban. intros -> -> Hc. simpl.
  rewrite dt_add_in by done. simpl. by destruct (scoped_group mc).
Qed.

(** A ban that has not passed makes the models that it covers unavailable. *)
Lemma ban_blocks s mc clk t :
  ls_rate_limited_until s = Some t → clk 0%nat < t →
  is_available (judge_availability s mc clk) = false.
Proof.
  intros Hs Ht. apply not_true_is_false. rewrite judge_available. intros (_ & G & _).
  rewrite gate_ban_None in G. specialize (G t Hs). lia.
Qed.

Lemma scoped_ban_blocks s mc g clk t :
  scoped_group mc = Some g → ls_scoped_rate_limited_until s !! g = Some t → clk 4%nat < t →
  is_available (judge_availability s mc clk) = false.
Proof.
  intros Hg Hs Ht. apply not_true_is_false. rewrite judge_available.
  intros (_ & _ & _ & _ & _ & G). destruct (G g Hg) as [Gb _].
  rewrite gate_scoped_ban_None, Hs in Gb. specialize (Gb t eq_refl). lia.
Qed.

(** *** What becomes of a ban *)

Lemma set_scoped_window_bans s x : bans (set_scoped_window s x) = bans s.
Proof. unfold set_scoped_window. destruct s. simpl. by destruct (String.eqb _ _). Qed.

Lemma foldl_scoped_bans l s : bans (foldl set_scoped_window s l) = bans s.
Proof.
  revert s. induction l as [|x l IH]; intros s; simpl; [done|].
  by rewrite IH, set_scoped_window_bans.
Qed.

Lemma apply_parsed_bans s p : bans (apply_parsed s p) = bans s.
Proof.
  unfold apply_parsed. set (s1 := foldl _ _ _). set (s2 := apply_parsed_seven_day s1 p).
  trans (bans s2); [destruct (scoped_claim_group _); by destruct s2|]. trans (bans s1).
  - unfold s2, apply_parsed_seven_day. destruct (ph_seven_day p); [|done].
    destruct (opt_filter _ _); [apply set_scoped_window_bans|by destruct s1].
  - unfold s1. rewrite foldl_scoped_bans. by destruct s.
Qed.

Lemma compute_bans prev mc status headers now new :
  compute_new_state prev mc status headers now = Done (Some new) → status ≠ 429 →
  bans new = bans prev.
Proof.
  unfold compute_new_state. intros Hc Hs%Z.eqb_neq. rewrite Hs in Hc.
  destruct (_ || _); [|done]. injection Hc as <-. set (s1 := match parse_unified_headers headers with Some _ => _ | None => _ end).
  assert (bans s1 = bans prev) as <-.
  { unfold s1. destruct (parse_unified_headers headers); [apply apply_parsed_bans|done]. }
  by destruct (parse_rpm_tpm_headers headers), s1.
Qed.

Lemma ingest_bans s usage : bans (apply_usage_json s usage) = bans s.
Proof.
  unfold apply_usage_json. set (s1 := upd ls_seven_day _ _). set (s2 := if opt_is_some _ then _ else s1).
  trans (bans s2); [|unfold s2, s1; destruct (opt_is_some (vget _ _)); by destruct s].
  destruct (negb _), (parse_usage_json_window usage "seven_day_sonnet");
    by rewrite ?set_scoped_window_bans, foldl_scoped_bans.
Qed.

Lemma limit_step_bans id id' st op s :
  lst_states st !! id = Some s → spares id id' op →
  ∃ s', lst_states (limit_step id' st op) !! id = Some s' ∧ bans s' = bans s.
Proof.
  intros Hs Hop. destruct op as [mc status headers c|usage now]; simpl.
  - unfold absorb_headers. destruct (lst_poisoned st); [by exists s|].
    destruct (compute_new_state _ _ _ _ _) as [[new|]|] eqn:Hc; [|by exists s|by exists s; destruct st].
    destruct (decide (id' = id)) as [->|Hne]; cbn [snd].
    + destruct Hop as [Hop|Hop]; [done|]. unfold state_of in Hc. rewrite Hs in Hc. simpl in Hc.
      apply (compute_bans s) in Hc; [|done]. rewrite <- Hc.
      eexists. split; [destruct st; apply lookup_insert_eq|]. destruct (opt_is_some _); by destruct new.
    + exists s. split; [|done]. destruct st. simpl. by rewrite lookup_insert_ne.
  - unfold ingest_usage_json. destruct (lst_poisoned st); [by exists s|]. cbn [snd].
    destruct (decide (id' = id)) as [->|Hne].
    + unfold state_of. rewrite Hs. simpl. rewrite <- (ingest_bans s usage).
      eexists. split; [destruct st; apply lookup_insert_eq|]. by destruct (apply_usage_json s usage).
    + exists s. split; [|done]. destruct st. simpl. by rewrite lookup_insert_ne.
Qed.

Lemma banned_step id mc t id' st op :
  banned st id mc t → spares id id' op → banned (limit_step id' st op) id mc t.
Proof.
  intros (s & Hs & Hb) Hop. destruct (limit_step_bans _ _ _ _ _ Hs Hop) as (s' & Hs' & [= E1 E2]).
  exists s'. split; [done|]. by rewrite E1, E2.
Qed.

(** A ban keeps the account unavailable for the models that it covers until it ends. *)
Lemma banned_unavailable st id mc mc' t clk a :
  banned st id mc t → scoped_group mc = None ∨ mc' = mc → (∀ i, clk i < t) →
  availability st id mc' clk = Done a → is_available a = false.
Proof.
  intros (s & Hs & Hb) Hmc Hclk. unfold availability. destruct (lst_poisoned st); [done|].
  rewrite Hs. intros [= <-]. destruct (scoped_group mc) as [g|] eqn:Hg.
  - destruct Hmc as [Hm|Hm]; [done|subst mc']. by eapply scoped_ban_blocks.
  - by eapply ban_blocks.
Qed.

Lemma scoped_group_inj mc mc' g :
  scoped_group mc = Some g → scoped_group mc' = Some g → mc' = mc.
Proof. by destruct mc, mc'; intros [= <-]. Qed.

(** A 429 without limit headers, absorbed for a model of a scoped group, makes exactly that
    model unavailable until retry-after (or the default) has passed and changes nothing for the
    other models; for an unscoped model it makes the whole account unavailable. *)
Theorem header_less_429_isolates prev mc headers now s :
  parse_unified_headers headers = None → parse_rpm_tpm_headers headers = None →
  in_chrono (now + dur_from_std (header_less_ban headers)) = true →
  compute_new_state prev mc 429 headers now = Done (Some s) →
  ∀ mc' clk, (∀ i, clk i < now + dur_from_std (header_less_ban headers)) →
    if decide (scoped_group mc = None ∨ mc' = mc)
    then is_available (judge_availability s mc' clk) = false
    else judge_availability s mc' clk = judge_availability prev mc' clk.
Proof.
  intros Hu Hr Hc Hs mc' clk Hclk. rewrite header_less_state in Hs by done. simplify_eq.
  revert Hclk. generalize (now + dur_from_std (header_less_ban headers)) as t. intros t Hclk.
  destruct (scoped_group mc) as [g|] eqn:Hg.
  - destruct (set_scoped_ban_frame prev g t) as (E1 & E2 & E3 & E4 & E5 & E6 & E7 & E8 & _ & E9).
    simpl in *. case_decide as Hd.
    + destruct Hd as [|Hd]; [done|]. subst mc'. apply (scoped_ban_blocks _ _ g _ t); [done| |done].
      by rewrite E9, lookup_insert_eq.
    + unfold judge_availability, gate_rejected, gate_ban, gate_rpm_tpm, gate_scoped_ban,
        gate_scoped_window.
      rewrite E1, E2, E3, E4, E5, E6, E7, E8, E9.
      destruct (scoped_group mc') as [g'|] eqn:Hg'; [|done].
      assert (g' ≠ g) as Hne by (intros ->; eauto using scoped_group_inj).
      rewrite lookup_insert_ne by done. do 6 f_equal. f_equal. f_equal.
      unfold set_scoped_ban. destruct prev; simpl. unfold sonnet_mirror.
      destruct (String.eqb_spec g "sonnet") as [->|], (String.eqb_spec g' "sonnet"); by subst.
  - rewrite decide_True by auto. apply (ban_blocks _ _ _ t); [by destruct prev|done].
Qed.

(** ** A rejected account *)

Lemma apply_parsed_status s p :
  opt_is_none (ph_status p) || opt_is_some (scoped_claim_group (ph_representative_claim p)) = true →
  ls_status (apply_parsed s p) = ls_status s.
Proof.
  intros Hk. destruct (scoped_claim_group (ph_representative_claim p)) as [g|] eqn:Hg.
  - by destruct (apply_parsed_scoped_frame s p g Hg) as (-> & _).
  - rewrite orb_false_r in Hk. unfold apply_parsed, apply_parsed_seven_day. rewrite Hg.
    destruct (ph_status p); [done|].
    destruct (foldl_scoped_frame (ph_scoped_weekly p) (apply_parsed_account s p)) as (E & _).
    simpl in *. revert E. generalize (foldl set_scoped_window (apply_parsed_account s p)
      (ph_scoped_weekly p)) as s1. intros s1 E.
    destruct (ph_seven_day p); destruct s, s1; simpl in *; by subst.
Qed.

Lemma ban_with_headers_status s cg r ra now s' :
  ban_with_headers s cg r ra now = Done s' → ls_status s' = ls_status s.
Proof.
  unfold ban_with_headers. intros Hb. destruct cg as [g|].
  - destruct (match r with Some _ => _ | None => _ end) as [[until|]|]; simplify_eq/=; [|done].
    by destruct (set_scoped_ban_frame s g until) as (-> & _).
  - destruct (opt_is_none r); [|by simplify_eq]. destruct ra as [d|]; [|by simplify_eq].
    destruct (dt_add now (dur_from_std d)); simplify_eq/=. by destruct s.
Qed.

Lemma compute_keeps_status prev mc status headers now s :
  no_account_status headers = true →
  compute_new_state prev mc status headers now = Done (Some s) → ls_status s = ls_status prev.
Proof.
  unfold compute_new_state. intros Hk Hc. destruct (_ || _).
  - set (s1 := match parse_unified_headers headers with Some _ => _ | None => _ end) in *.
    assert (ls_status s1 = ls_status prev) as E1.
    { subst s1. clear Hc. unfold no_account_status in Hk.
      destruct (parse_unified_headers headers); [|done]. by apply apply_parsed_status. }
    clearbody s1. rewrite <- E1.
    set (s2 := match parse_rpm_tpm_headers headers with Some _ => _ | None => _ end) in *.
    assert (ls_status s2 = ls_status s1) as E2.
    { subst s2. clear Hc. destruct (parse_rpm_tpm_headers headers); [by destruct s1 | done]. }
    clearbody s2. rewrite <- E2. destruct (status =? 429); [|by simplify_eq].
    destruct (ban_with_headers _ _ _ _ _) eqn:Hb; simplify_eq/=. by eapply ban_with_headers_status.
  - destruct (status =? 429); [|done]. destruct (dt_add _ _) as [t|]; simplify_eq/=.
    destruct (scoped_group mc) as [g|]; simplify_eq.
    + by destruct (set_scoped_ban_frame prev g t) as (-> & _).
    + by destruct prev.
Qed.

Lemma ingest_keeps_status s usage : ls_status (apply_usage_json s usage) = ls_status s.
Proof.
  unfold apply_usage_json.
  set (s1 := upd ls_seven_day _ _).
  assert (ls_status s1 = ls_status s) as E1 by by destruct s. clearbody s1.
  set (s2 := if opt_is_some _ then _ else _).
  assert (ls_status s2 = ls_status s1) as E2
    by (subst s2; destruct (opt_is_some _); by destruct s1).
  clearbody s2. rewrite <- E1, <- E2.
  destruct (foldl_scoped_frame (parse_usage_json_scoped_limits usage) s2) as (E3 & _).
  simpl in E3. rewrite <- E3. destruct (negb _); [|done].
  destruct (parse_usage_json_window _ _) as [w|]; [|done].
  by destruct (foldl_scoped_frame [mkScoped "sonnet" "Sonnet" w]
    (foldl set_scoped_window s2 (parse_usage_json_scoped_limits usage))) as (E4 & _).
Qed.

Lemma step_keeps_status id st op s :
  op_keeps_status op = true → lst_states st !! id = Some s →
  ∃ s', lst_states (limit_step id st op) !! id = Some s' ∧ ls_status s' = ls_status s.
Proof.
  intros Hk Hs. assert (state_of st id = s) as Hst by by (unfold state_of; rewrite Hs).
  destruct op as [mc status headers c|usage now]; simpl in *.
  - unfold absorb_headers. destruct (lst_poisoned st); [eauto|].
    rewrite Hst. destruct (compute_new_state _ _ _ _ _) as [[new|]|] eqn:Hc; simpl.
    + eexists. destruct st; simpl. rewrite lookup_insert_eq. split; [done|].
      rewrite <- (compute_keeps_status _ _ _ _ _ _ Hk Hc).
      destruct (opt_is_some _); by destruct new.
    + eauto.
    + destruct st; simpl in *. eauto.
  - unfold ingest_usage_json. destruct (lst_poisoned st); [eauto|]. rewrite Hst. simpl.
    destruct st; simpl. rewrite lookup_insert_eq. eexists. split; [done|].
    rewrite <- (ingest_keeps_status s usage). by destruct (apply_usage_json s usage).
Qed.

(** An account whose status is rejected stays unavailable for every model, however far the
    clock advances, as long as no absorbed response carries a new account status. *)
Theorem rejected_is_not_recovered id st ops s :
  lst_states st !! id = Some s → ls_status s = Some US_Rejected →
  forallb op_keeps_status ops = true →
  ∀ mc clk a, availability (limit_run id st ops) id mc clk = Done a → is_available a = false.
Proof.
  intros Hs Hrej Hops mc clk a.
  assert (∃ s', lst_states (limit_run id st ops) !! id = Some s' ∧ ls_status s' = Some US_Rejected)
    as (s' & Hs' & Hr').
  { clear mc clk a. revert st s Hs Hrej. induction ops as [|op ops IH]; intros st s Hs Hrej; simpl.
    - eauto.
    - simpl in Hops. bool_prop. destruct (step_keeps_status id st op s) as (s' & ? & ?); [done..|].
      apply (IH ltac:(done) _ s'); congruence. }
  unfold availability. destruct (lst_poisoned _); [done|]. rewrite Hs'. intros [= <-].
  unfold judge_availability, gate_rejected. rewrite Hr'. by rewrite bool_decide_true.
Qed.
End facts.
