(* ===== verification/LimitStoreFacts.v ===== *)
(** * LimitStoreFacts: the store, its flushes and its panics

    The flush policy of [absorb_headers], the database columns that
    [flush_to_db] derives from the bottleneck, the snapshot read back by the
    usage parser, and when the store panics. *)

From S2P Require Import Prelude Text F64 Json Http Model Limit LimitFacts.

(** ** A database that records the writes *)

Inductive LimitWrite :=
  | WUsage (id : Z) (json : string)
  | WSet (id : Z) (until : DateTime)
  | WClear (id : Z).

Definition write_log (w : LimitWrite) (d : list LimitWrite) : result AppError unit * list LimitWrite :=
  (Ok tt, d ++ [w]).

#[export] Instance log_limits : AccountLimits (list LimitWrite) := {|
  update_usage id json d := write_log (WUsage id json) d;
  set_rate_limit id until d := write_log (WSet id until) d;
  clear_rate_limit id d := write_log (WClear id) d;
|}.

(** Every ban that a response can ask for ends at a representable time. *)
Definition bans_in_range `{Chrono} (headers : HeaderMap) (now : DateTime) : Prop :=
  in_chrono (now + DEFAULT_429_BAN) = true ∧
  ∀ d, parse_retry_after headers = Some d → in_chrono (now + dur_from_std d) = true.

(** The window that a field of the snapshot holds. *)
Definition snapshot_window (s : LimitState) (key : string) : option WindowSnapshot :=
  if String.eqb key "five_hour" then ls_five_hour s
  else if String.eqb key "seven_day_sonnet" then ls_sonnet_seven_day s
  else if String.eqb key "seven_day_fable" then sl_window <$> ls_scoped_weekly s !! "fable"
  else ls_seven_day s.

Section facts.
Context `{Chrono} `{UnicodeCase}.
Implicit Types (s prev new : LimitState) (mc : ModelClass) (headers : HeaderMap).

(** ** The flush policy *)

Lemma crossed_same w t : crossed_threshold w w t = false.
Proof.
  unfold crossed_threshold. destruct (f_ge (window_utilization w) t) eqn:Hg; [|done].
  simpl. by apply f_ge_not_lt.
Qed.

Lemma newly_surpassed_same w : newly_surpassed w w = false.
Proof. unfold newly_surpassed. apply andb_negb_r. Qed.

Lemma rpm_tpm_preempted_same r now : rpm_tpm_newly_preempted r r now = false.
Proof. unfold rpm_tpm_newly_preempted. apply andb_negb_r. Qed.

(** States whose windows agree raise no window event. *)
Lemma same_windows_no_scoped_event prev new :
  ls_scoped_weekly new = ls_scoped_weekly prev →
  map_any (λ g _, opt_is_none (ls_scoped_weekly prev !! g)) (ls_scoped_weekly new) = false ∧
  scoped_status_tightened prev new = false ∧
  scoped_crossed_threshold prev new = false ∧
  scoped_newly_surpassed prev new = false.
Proof.
  intros E. unfold scoped_status_tightened, scoped_crossed_threshold, scoped_newly_surpassed.
  rewrite E. split_and!; apply map_any_false; intros g item Hg; rewrite Hg; simpl.
  - done.
  - case_bool_decide as H1; [|done]. by rewrite H1.
  - apply (crossed_same (Some (sl_window item))).
  - by destruct (ws_surpassed_threshold (sl_window item)).
Qed.

(** Absorbing what leaves the account's limits as they were flushes only on
    the time-to-live, on a first account ban, or on a new or later scoped ban. *)
Lemma flush_reason_bans_only prev new now_i now last :
  ls_last_db_flush_at prev = Some last → elapsed now_i last < DB_FLUSH_TTL →
  ls_status new = ls_status prev → ls_five_hour new = ls_five_hour prev →
  ls_seven_day new = ls_seven_day prev → ls_scoped_weekly new = ls_scoped_weekly prev →
  ls_rpm_tpm new = ls_rpm_tpm prev →
  ls_scoped_rate_limited_until new = ls_scoped_rate_limited_until prev →
  opt_is_none (ls_rate_limited_until prev) && opt_is_some (ls_rate_limited_until new) = false →
  flush_reason prev new now_i now = None.
Proof.
  intros Hl Ht E1 E2 E3 E4 E5 E6 Hb. unfold flush_reason. rewrite Hl.
  destruct (DB_FLUSH_TTL <=? elapsed now_i last) eqn:Hx; [bool_prop; lia|].
  destruct (same_windows_no_scoped_event prev new E4) as (F1 & F2 & F3 & F4).
  rewrite E1, F1, F2, F3, F4, E2, E3, E5, E6, !crossed_same, !newly_surpassed_same,
    rpm_tpm_preempted_same, Hb. simpl.
  assert (∀ m : gmap string DateTime,
    map_any (λ g until, is_none_or (m !! g) (λ previous, previous <? until)) m = false) as F5.
  { intros m. apply map_any_false. intros g t Hg. rewrite Hg. simpl. apply Z.ltb_irrefl. }
  rewrite F5. case_bool_decide; [|done]. by rewrite bool_decide_false by (intros ?; done).
Qed.

(** When an account was banned before, a new account-level ban that arrives within the
    flush interval is set in memory but is no reason for an immediate write. *)
Theorem repeated_ban_not_flushed prev mc headers now new now_i last t :
  scoped_group mc = None →
  parse_unified_headers headers = None → parse_rpm_tpm_headers headers = None →
  compute_new_state prev mc 429 headers now = Done (Some new) →
  ls_rate_limited_until prev = Some t →
  ls_last_db_flush_at prev = Some last → elapsed now_i last < DB_FLUSH_TTL →
  ls_rate_limited_until new = Some (now + dur_from_std (header_less_ban headers)) ∧
  ∀ updated, flush_reason prev (new <| ls_updated_at := updated |>) now_i now = None.
Proof.
  unfold compute_new_state, header_less_ban. intros -> -> -> Hc Ht Hl Hx. simpl in Hc.
  destruct (dt_add _ _) as [until|] eqn:Ha; simplify_eq/=. apply dt_add_done in Ha as ->.
  split; [by destruct prev|]. intros updated.
  apply (flush_reason_bans_only _ _ _ _ last); destruct prev; simpl in *; simplify_eq/=; done.
Qed.

Lemma compute_keeps_flush_stamp prev mc status headers now s :
  compute_new_state prev mc status headers now = Done (Some s) →
  ls_last_db_flush_at s = ls_last_db_flush_at prev.
Proof.
  assert (∀ s item, ls_last_db_flush_at (set_scoped_window s item) = ls_last_db_flush_at s) as W.
  { intros s1 item. destruct s1; unfold set_scoped_window; simpl. by destruct (String.eqb _ _). }
  assert (∀ l s, ls_last_db_flush_at (foldl set_scoped_window s l) = ls_last_db_flush_at s) as WL.
  { intros l. induction l as [|x l IH]; intros s1; simpl; [done|]. by rewrite IH, W. }
  assert (∀ s p, ls_last_db_flush_at (apply_parsed s p) = ls_last_db_flush_at s) as WP.
  { intros s1 p. unfold apply_parsed, apply_parsed_seven_day.
    assert (ls_last_db_flush_at (foldl set_scoped_window (apply_parsed_account s1 p)
      (ph_scoped_weekly p)) = ls_last_db_flush_at s1) as E by (rewrite WL; by destruct s1).
    revert E. generalize (foldl set_scoped_window (apply_parsed_account s1 p)
      (ph_scoped_weekly p)) as s2. intros s2 E. rewrite <- E.
    destruct (ph_seven_day p); [destruct (opt_filter _ _)|];
      destruct (scoped_claim_group _); rewrite ?W; try done; destruct s2; simpl; try done.
    all: unfold set_scoped_window; simpl; by destruct (String.eqb _ _). }
  unfold compute_new_state. intros Hc. destruct (_ || _).
  - set (s1 := match parse_unified_headers headers with Some _ => _ | None => _ end) in *.
    assert (ls_last_db_flush_at s1 = ls_last_db_flush_at prev) as E1
      by (subst s1; clear Hc; by destruct (parse_unified_headers headers)).
    clearbody s1. rewrite <- E1.
    set (s2 := match parse_rpm_tpm_headers headers with Some _ => _ | None => _ end) in *.
    assert (ls_last_db_flush_at s2 = ls_last_db_flush_at s1) as E2
      by (subst s2; clear Hc; destruct (parse_rpm_tpm_headers headers); [by destruct s1 | done]).
    clearbody s2. rewrite <- E2. destruct (status =? 429); [|by simplify_eq].
    unfold ban_with_headers in Hc. repeat (case_match; simplify_eq/=);
      try destruct (dt_add _ _); simplify_eq/=; try done; try (by destruct s2);
      match goal with |- context [set_scoped_ban ?a ?b ?c] =>
        by destruct (set_scoped_ban_frame a b c) as (_&_&_&_&_&_&_&_&->&_) end.
  - destruct (status =? 429); [|done]. destruct (dt_add _ _) as [t|]; simplify_eq/=.
    destruct (scoped_group mc) as [g|]; simplify_eq.
    + by destruct (set_scoped_ban_frame prev g t) as (_&_&_&_&_&_&_&_&->&_).
    + by destruct prev.
Qed.

(** Absorbing a response changes only the named account's state, stamps the flush time
    exactly when it reports a flush, and always reports one for an informative response when the
    last flush is at least the flush interval old or there was none. *)
Theorem absorb_flush_policy st id mc status headers c flushed st' :
  absorb_headers st id mc status headers c = (Done flushed, st') →
  (∀ id', id' ≠ id → lst_states st' !! id' = lst_states st !! id') ∧
  ls_last_db_flush_at (state_of st' id) =
    (if flushed then Some (ac_flushed c) else ls_last_db_flush_at (state_of st id)) ∧
  (compute_new_state (state_of st id) mc status headers (ac_utc c) ≠ Done None →
   is_none_or (ls_last_db_flush_at (state_of st id))
     (λ last, DB_FLUSH_TTL <=? elapsed (ac_elapsed c) last) = true → flushed = true).
Proof.
  unfold absorb_headers. destruct (lst_poisoned st); [done|].
  destruct (compute_new_state _ _ _ _ _) as [[new|]|] eqn:Hc; intros [= <- <-].
  - pose proof (compute_keeps_flush_stamp _ _ _ _ _ _ Hc) as Hk.
    set (fr := flush_reason _ _ _ _). split_and!.
    + intros id' Hne. destruct st; simpl. by rewrite lookup_insert_ne.
    + unfold state_of at 1. destruct st; simpl. rewrite lookup_insert_eq. simpl.
      rewrite <- Hk. destruct (opt_is_some fr); by destruct new.
    + intros _ Httl. subst fr. unfold flush_reason.
      destruct (ls_last_db_flush_at (state_of st id)); [|done]. simpl in Httl. by rewrite Httl.
  - split_and!; [done..|]. intros ?. done.
Qed.

(** ** The bottleneck *)

Lemma foldl_max_spec l x :
  (foldl Z.max x l = x ∨ foldl Z.max x l ∈ l) ∧ x ≤ foldl Z.max x l ∧
  ∀ y, y ∈ l → y ≤ foldl Z.max x l.
Proof.
  revert x. induction l as [|z l IH]; intros x; simpl.
  - split_and!; [by left|lia|]. intros y Hy. by apply elem_of_nil in Hy.
  - destruct (IH (Z.max x z)) as (H1 & H2 & H3). split_and!.
    + destruct H1 as [H1|H1]; [|right; by right]. rewrite H1.
      destruct (Z.max_spec x z) as [[_ ->]|[_ ->]]; [right; left | by left].
    + lia.
    + intros y [->|Hy]%elem_of_cons; [lia|auto].
Qed.

Lemma list_max_spec l :
  match list_max l with
  | Some t => t ∈ l ∧ ∀ y, y ∈ l → y ≤ t
  | None => l = []
  end.
Proof.
  destruct l as [|x l]; simpl; [done|]. destruct (foldl_max_spec l x) as (H1 & H2 & H3).
  split.
  - destruct H1 as [H1|H1]; [rewrite H1; left | by right].
  - intros y [->|Hy]%elem_of_cons; auto.
Qed.

(** What the picks are. *)
Lemma bottleneck_picks_elem s now t :
  t ∈ bottleneck_picks s now ↔
  (∃ w, (ls_five_hour s = Some w ∨ ls_seven_day s = Some w) ∧ window_hit now w = true ∧
        t = ws_resets_at w) ∨
  (∃ rt c, ls_rpm_tpm s = Some rt ∧ c ∈ all_counters rt ∧ counter_preempted c now = true ∧
        t = rc_reset_at c).
Proof.
  unfold bottleneck_picks. rewrite elem_of_app, list_elem_of_fmap. apply Morphisms_Prop.or_iff_morphism.
  - apply exist_proper. intros w. rewrite list_elem_of_filter.
    destruct (ls_five_hour s), (ls_seven_day s); simpl;
      rewrite ?elem_of_cons, ?elem_of_nil; naive_solver.
  - destruct (ls_rpm_tpm s) as [rt|].
    + rewrite list_elem_of_fmap. setoid_rewrite list_elem_of_filter. naive_solver.
    + rewrite elem_of_nil. naive_solver.
Qed.

Lemma pick_blocks s now t mc :
  t ∈ bottleneck_picks s now →
  now < t ∧ is_available (judge_availability s mc (λ _, now)) = false.
Proof.
  rewrite bottleneck_picks_elem. intros Hp.
  assert (now < t ∧ ∃ w c rt,
    (ls_five_hour s = Some w ∧ window_hit now w = true) ∨
    (ls_seven_day s = Some w ∧ window_hit now w = true) ∨
    (ls_rpm_tpm s = Some rt ∧ c ∈ all_counters rt ∧ counter_preempted c now = true))
    as (Hlt & w & c & rt & Hcase).
  { destruct Hp as [(w & Hw & Hh & ->)|(rt & c & Hr & Hc & Hpre & ->)].
    - split; [unfold window_hit in Hh; by bool_prop|].
      exists w, (mkCounter 0 0 0), rpm_tpm_default. naive_solver.
    - split; [unfold counter_preempted in Hpre; by bool_prop|].
      exists (mkWindow f_zero 0 US_Allowed None), c, rt. naive_solver. }
  split; [done|]. apply not_true_is_false. rewrite judge_available.
  rewrite gate_rpm_tpm_None, !gate_window_None. intros (_ & _ & G3 & G4 & G5 & _).
  destruct Hcase as [[Hw Hh]|[[Hw Hh]|(Hr & Hc & Hpre)]].
  - rewrite (G4 _ Hw) in Hh. done.
  - rewrite (G5 _ Hw) in Hh. done.
  - rewrite (G3 _ _ Hr Hc) in Hpre. done.
Qed.

Lemma no_pick_gates s now :
  bottleneck_limit_until s now = None →
  gate_rpm_tpm s now = None ∧
  (∀ l, gate_window (ls_five_hour s) l now = None) ∧ (∀ l, gate_window (ls_seven_day s) l now = None).
Proof.
  unfold bottleneck_limit_until. intros Hn.
  pose proof (list_max_spec (bottleneck_picks s now)) as Hm. rewrite Hn in Hm.
  assert (∀ t, ¬ (t ∈ bottleneck_picks s now)) as Hno
    by (intros t Ht; rewrite Hm in Ht; by apply elem_of_nil in Ht).
  setoid_rewrite bottleneck_picks_elem in Hno.
  rewrite gate_rpm_tpm_None. setoid_rewrite gate_window_None. split_and!.
  - intros rt c Hr Hc. apply not_true_is_false. intros Hp. eapply Hno. right. eauto 10.
  - intros _ w Hw. apply not_true_is_false. intros Hp. eapply Hno. left. eauto 10.
  - intros _ w Hw. apply not_true_is_false. intros Hp. eapply Hno. left. eauto 10.
Qed.

(** bottleneck_limit_until returns the latest of the times that block the account, all
    models are unavailable until then; when it returns nothing, only a rejected status or an
    account ban can make the account unavailable for an unscoped model. *)
Theorem bottleneck_correct s now :
  match bottleneck_limit_until s now with
  | Some t =>
      t ∈ bottleneck_picks s now ∧ (∀ t', t' ∈ bottleneck_picks s now → t' ≤ t) ∧ now < t ∧
      ∀ mc, is_available (judge_availability s mc (λ _, now)) = false
  | None =>
      is_available (judge_availability s Opus (λ _, now)) =
        negb (bool_decide (ls_status s = Some US_Rejected))
        && is_none_or (ls_rate_limited_until s) (λ t, t <=? now)
  end.
Proof.
  destruct (bottleneck_limit_until s now) as [t|] eqn:Hb.
  - pose proof (list_max_spec (bottleneck_picks s now)) as Hm.
    unfold bottleneck_limit_until in Hb. rewrite Hb in Hm. destruct Hm as [Hin Hmax].
    split_and!; [done..| |].
    + by apply (pick_blocks s now t Opus).
    + intros mc. by apply (pick_blocks s now t mc).
  - destruct (no_pick_gates s now Hb) as (G3 & G4 & G5).
    apply eq_bool_prop_intro. rewrite !Is_true_true, judge_available, andb_true_iff, negb_true_iff,
      bool_decide_eq_false, gate_rejected_None, gate_ban_None. simpl.
    split.
    + intros (G1 & G2 & _). split; [done|].
      destruct (ls_rate_limited_until s) as [t|]; simpl; [|done]. apply Z.leb_le. auto.
    + intros (G1 & G2). split_and!; auto; [|done].
      intros t Ht. rewrite Ht in G2. simpl in G2. by bool_prop.
Qed.

(** ** Flushing *)

(** Writing the state of an account stores its JSON snapshot and then sets the rate-limit
    columns to the bottleneck time (or, without one, the account's ban), or clears them; when
    they are cleared and the status is not rejected, the account is available for a model
    without a scoped group. *)
Theorem flush_columns_agree json_to_string st id now s d :
  lst_poisoned st = false → lst_states st !! id = Some s →
  ∃ json, flush_to_db json_to_string st id now d =
    (Done (Ok tt), d ++ [WUsage id json;
       match opt_or (bottleneck_limit_until s now) (ls_rate_limited_until s) with
       | Some t => WSet id t
       | None => WClear id
       end]) ∧
    (opt_or (bottleneck_limit_until s now) (ls_rate_limited_until s) = None →
     ls_status s ≠ Some US_Rejected →
     is_available (judge_availability s Opus (λ _, now)) = true).
Proof.
  intros Hp Hs. unfold flush_to_db. rewrite Hp, Hs.
  exists (default "{}" (res_ok (json_to_string (build_usage_json s)))). split.
  - simpl. unfold write_log. destruct (opt_or _ _); by rewrite <- app_assoc.
  - rewrite opt_or_None. intros [Hb Hr] Hst.
    destruct (no_pick_gates s now Hb) as (G3 & G4 & G5).
    rewrite judge_available, gate_rejected_None, gate_ban_None, Hr. by split_and!.
Qed.

(** ** Panics *)

Lemma poisoned_forever id st ops : lst_poisoned st = true → lst_poisoned (limit_run id st ops) = true.
Proof.
  revert st. induction ops as [|op ops IH]; intros st Hp; simpl; [done|]. apply IH.
  destruct op; simpl.
  - unfold absorb_headers. by rewrite Hp.
  - unfold ingest_usage_json. by rewrite Hp.
Qed.

(** A 429 whose retry-after lies beyond the calendar's range panics while the limit store
    is locked, after which every query of any account's availability panics. *)
Theorem huge_retry_after_poisons st id mc headers c d :
  lst_poisoned st = false →
  parse_unified_headers headers = None → parse_rpm_tpm_headers headers = None →
  parse_retry_after headers = Some d → d ≤ chrono_dur_max → chrono_max < ac_utc c + d →
  let '(r, st') := absorb_headers st id mc 429 headers c in
  r = Panic ∧
  ∀ id' ops id'' mc' clk, availability (limit_run id' st' ops) id'' mc' clk = Panic.
Proof.
  intros Hp Hu Hr Hd Hle Hgt. unfold absorb_headers, compute_new_state. rewrite Hp, Hu, Hr, Hd. simpl.
  unfold dt_add, dur_from_std, in_chrono.
  destruct (d <=? chrono_dur_max) eqn:Hx; [|bool_prop; lia].
  destruct (ac_utc c + d <=? chrono_max) eqn:Hy; [bool_prop; lia|]. rewrite andb_false_r. simpl.
  split; [done|]. intros id' ops id'' mc' clk. unfold availability.
  rewrite poisoned_forever; [done|]. by destruct st.
Qed.

(** As long as the bans that the headers ask for end at representable times, absorbing a
    response never panics and never poisons the limit store. *)
Theorem absorb_never_panics st id mc status headers c :
  lst_poisoned st = false → dur_from_std DEFAULT_429_BAN = DEFAULT_429_BAN →
  bans_in_range headers (ac_utc c) →
  ∃ b st', absorb_headers st id mc status headers c = (Done b, st') ∧ lst_poisoned st' = false.
Proof.
  intros Hp Hdef [H60 Hra]. unfold absorb_headers. rewrite Hp.
  assert (∃ o, compute_new_state (state_of st id) mc status headers (ac_utc c) = Done o) as [o ->].
  { unfold compute_new_state. destruct (_ || _).
    - destruct (status =? 429); [|eauto]. unfold ban_with_headers.
      destruct (parse_retry_after headers) as [d|] eqn:Hd.
      + rewrite (dt_add_in (ac_utc c)) by auto. simpl. repeat case_match; simplify_eq/=; eauto.
      + repeat case_match; simplify_eq/=; eauto.
    - destruct (status =? 429); [|eauto].
      destruct (parse_retry_after headers) as [d|] eqn:Hd; simpl.
      + rewrite dt_add_in by auto. simpl. destruct (scoped_group mc); eauto.
      + rewrite Hdef, dt_add_in by done. simpl. destruct (scoped_group mc); eauto. }
  destruct o as [new|]; [|eauto]. do 2 eexists. split; [done|]. by destruct st.
Qed.

(** ** The snapshot *)

Lemma window_json_get w :
  vget (window_to_json w) "utilization" = Some (of_f64 (f_mul (ws_utilization w) f_hundred)) ∧
  vget (window_to_json w) "resets_at" = Some (of_str (to_rfc3339 (ws_resets_at w))).
Proof.
  unfold window_to_json. cbn [vget]. split; rewrite lookup_insert_opt_ne by done.
  - by rewrite lookup_insert_ne, lookup_insert_ne, lookup_insert_eq.
  - by rewrite lookup_insert_ne, lookup_insert_eq.
Qed.

Lemma window_json_roundtrip `{!ChronoLaws} w usage key :
  chrono_min ≤ ws_resets_at w ≤ chrono_max →
  vget usage key = Some (window_to_json w) →
  parse_usage_json_window usage key =
    if f_is_finite (f_mul (ws_utilization w) f_hundred)
    then Some (mkWindow (f_div (f_mul (ws_utilization w) f_hundred) f_hundred) (ws_resets_at w)
                 US_Allowed None)
    else None.
Proof.
  intros Hr Ho. unfold parse_usage_json_window. rewrite Ho. cbn [mbind option_bind].
  destruct (window_json_get w) as [-> ->]. unfold of_f64.
  destruct (f_is_finite _); [|done]. simpl. by rewrite rfc3339_roundtrip.
Qed.

(** The window fields of the snapshot. *)
Lemma snapshot_get s k :
  k ∈ ["five_hour"; "seven_day"; "seven_day_opus"; "seven_day_sonnet"; "seven_day_fable"] →
  vget (build_usage_json s) k = window_to_json <$> snapshot_window s k.
Proof.
  intros Hk. unfold build_usage_json. cbn [vget]. rewrite !elem_of_cons, elem_of_nil in Hk.
  destruct Hk as [->|[->|[->|[->|[->|[]]]]]]; rewrite lookup_insert_ne by done;
    repeat first [rewrite lookup_insert_opt_ne by done | rewrite lookup_insert_if_ne by done];
    rewrite lookup_insert_opt; unfold snapshot_window; simpl.
  - by destruct (ls_five_hour s).
  - destruct (ls_seven_day s); [done|]. by rewrite lookup_insert_opt_ne.
  - destruct (ls_seven_day s); [done|]. by rewrite !lookup_insert_opt_ne.
  - destruct (ls_sonnet_seven_day s); [done|]. by rewrite !lookup_insert_opt_ne.
  - destruct (ls_scoped_weekly s !! "fable"); [done|]. by rewrite !lookup_insert_opt_ne.
Qed.

(** A window written to the JSON snapshot is read back by the usage parser with the same
    reset time and the utilization that its percentage denotes, as long as that percentage is a
    finite number. *)
Theorem snapshot_reads_back `{!ChronoLaws} s k w :
  k ∈ ["five_hour"; "seven_day"; "seven_day_opus"; "seven_day_sonnet"; "seven_day_fable"] →
  snapshot_window s k = Some w → chrono_min ≤ ws_resets_at w ≤ chrono_max →
  parse_usage_json_window (build_usage_json s) k =
    let percent := f_mul (ws_utilization w) f_hundred in
    if f_is_finite percent
    then Some (mkWindow (f_div percent f_hundred) (ws_resets_at w) US_Allowed None)
    else None.
Proof.
  intros Hk Hw Hr. apply window_json_roundtrip; [done|]. by rewrite snapshot_get, Hw.
Qed.
End facts.
