(* ===== verification/Pricing.v ===== *)
(** * Pricing: the price of a request's tokens (src/src/service/usage_pricing.rs)

    Rates are nano-dollars per million tokens. An engine holds the rules of a
    snapshot and the operator's overrides; a price is computed component by
    component in 128-bit integers and rounded half up. Decoding of JSON text,
    the digest and the network are interfaces. *)

From S2P Require Import Prelude Text F64 Json Http Model.

Definition BASE_PRICING_VERSION : string := "builtin-anthropic-2026-08-13".
Definition PRICING_RESPONSE_LIMIT : Z := 8 * 1024 * 1024.

(** ** Data *)

Record LongContextPricing := mkLongContext {
  lc_threshold : Z;
  lc_input : option Z;
  lc_output : option Z;
  lc_cache_creation_5m : option Z;
  lc_cache_creation_1h : option Z;
  lc_cache_read : option Z;
}.

Record PricingRule := mkRule {
  pr_model_key : string;
  pr_input : option Z;
  pr_output : option Z;
  pr_cache_creation_5m : option Z;
  pr_cache_creation_1h : option Z;
  pr_cache_read : option Z;
  pr_long_context : option LongContextPricing;
}.

Record PricingEngine := mkEngine {
  pe_rules : gmap string PricingRule;
  pe_overrides : gmap string PricingRule;
  pe_version : string;
  pe_override_version_suffix : string;
}.

Record PricingSnapshot := mkSnapshot {
  ps_version : string;
  ps_rules : gmap string PricingRule;
}.

Record PricedUsage := mkPriced {
  pd_costs : UsageCosts;
  pd_pricing_version : string;
  pd_pricing_model_key : option string;
}.

Record OverrideLongContext := mkOverrideLong {
  ol_threshold : Z;
  ol_input_usd_per_million : option string;
  ol_output_usd_per_million : option string;
  ol_cache_creation_5m_usd_per_million : option string;
  ol_cache_creation_1h_usd_per_million : option string;
  ol_cache_read_usd_per_million : option string;
}.

Record OverrideRule := mkOverride {
  or_input_usd_per_million : option string;
  or_output_usd_per_million : option string;
  or_cache_creation_5m_usd_per_million : option string;
  or_cache_creation_1h_usd_per_million : option string;
  or_cache_read_usd_per_million : option string;
  or_long_context : option OverrideLongContext;
}.

(** ** Decimal rates *)

Definition has_sign (value : string) : bool := starts_with "-" value || starts_with "+" value.

(** [value.split_once('.').unwrap_or((value, ""))]. *)
Definition split_point (value : string) : string * string :=
  default (value, "") (split_once "." value).

Definition parse_usd_per_million (value : string) : result string Z :=
  let value := trim value in
  if is_empty value || has_sign value then Err ("invalid non-negative USD rate: " +:+ value)
  else
    let '(whole, fraction) := split_point value in
    if (9 <? str_len fraction) || negb (str_all is_digit whole) || negb (str_all is_digit fraction)
    then Err ("invalid USD rate with at most 9 decimals: " +:+ value)
    else
      whole ← ok_or (parse_int i128 whole) ("USD rate out of range: " +:+ value);
      fraction ← (if is_empty fraction then Ok 0
                  else f ← ok_or (parse_int i128 fraction) ("invalid USD rate: " +:+ value);
                       Ok (f * 10 ^ (9 - str_len fraction)));
      nano_usd ← ok_or (whole ← checked i128 (whole * 1000000000); checked i128 (whole + fraction))
                   ("USD rate out of range: " +:+ value);
      ok_or (checked i64 nano_usd) ("USD rate out of range: " +:+ value).

Definition parse_optional_rate (value : option string) : result string (option Z) :=
  transpose (parse_usd_per_million <$> value).

(** [10_i128.checked_pow(p)]: 10 ^ 39 is the first power out of range. *)
Definition checked_pow10 (p : Z) : option Z := if p <=? 38 then Some (10 ^ p) else None.

Definition is_exp_mark (c : ascii) : bool := Ascii.eqb c "e" || Ascii.eqb c "E".

(** The digits of a rate times [10 ^ power], rounded half up. *)
Definition scale_decimal (value : string) (digits power : Z) : result string Z :=
  let out_of_range := "pricing rate out of range: " +:+ value in
  if 0 <=? power then
    p ← ok_or (checked_pow10 power) out_of_range;
    ok_or (checked i128 (digits * p)) out_of_range
  else
    magnitude ← ok_or (checked i32 (Z.abs power)) ("pricing scale out of range: " +:+ value);
    divisor ← ok_or (checked_pow10 magnitude) out_of_range;
    sum ← ok_or (checked i128 (digits + Z.quot divisor 2)) out_of_range;
    Ok (Z.quot sum divisor).

Definition parse_decimal_scaled (value : string) (scale : Z) : result string Z :=
  let value := trim value in
  if is_empty value || has_sign value then Err ("invalid non-negative pricing rate: " +:+ value)
  else
    '(mantissa, exponent) ←
      match split_at_first is_exp_mark value with
      | Some (mantissa, text) =>
          exponent ← ok_or (parse_int i32 text) ("invalid pricing exponent: " +:+ value);
          Ok (mantissa, exponent)
      | None => Ok (value, 0)
      end;
    let '(whole, fraction) := split_point mantissa in
    if is_empty whole || negb (str_all is_digit whole) || negb (str_all is_digit fraction)
    then Err ("invalid pricing decimal: " +:+ value)
    else
      digits ← ok_or (parse_int i128 (whole +:+ fraction))
                 ("pricing rate out of range: " +:+ value);
      power ← ok_or (power ← checked i32 (scale + exponent);
                     checked i32 (power - wrap i32 (str_len fraction)))
                ("pricing scale out of range: " +:+ value);
      scaled ← scale_decimal value digits power;
      ok_or (checked i64 scaled) ("pricing rate out of range: " +:+ value).

Definition multiply_rate (rate numerator denominator : Z) : option Z :=
  product ← checked i128 (rate * numerator);
  sum ← checked i128 (product + Z.quot denominator 2);
  (if denominator =? 0 then None else checked i128 (Z.quot sum denominator)) ≫= checked i64.

Definition component_cost (tokens : Z) (nano_usd_per_million : option Z) : option Z :=
  if tokens <=? 0 then Some 0
  else
    rate ← nano_usd_per_million;
    numerator ← checked i128 (tokens * rate);
    sum ← checked i128 (numerator + 500000);
    rounded ← checked i128 (Z.quot sum 1000000);
    checked i64 rounded.

(** ** Rules *)

Definition normalize_model_key (model : string) : string :=
  replace_byte "." "-" (to_ascii_lowercase (trim model)).

(** The key itself, or the key followed by a date: a dash and eight digits. *)
Definition model_key_matches (model key : string) : bool :=
  String.eqb model key ||
  match strip_prefix key model with
  | Some (String c suffix) =>
      Ascii.eqb c "-" && (str_len suffix =? 8) && str_all is_digit suffix
  | _ => false
  end.

(** [max_by_key(len)]: the last longest of the iteration. *)
Definition longer (best : option (string * PricingRule)) (e : string * PricingRule)
    : option (string * PricingRule) :=
  match best with
  | Some b => if str_len b.1 <=? str_len e.1 then Some e else best
  | None => Some e
  end.

Definition dated_rule (rules : gmap string PricingRule) (normalized : string)
    : option (string * PricingRule) :=
  foldl longer None
    (filter (λ e, model_key_matches normalized e.1 = true) (btree_entries rules)).

Definition find_rule (e : PricingEngine) (model : string) : option PricingRule :=
  let exact := to_ascii_lowercase (trim model) in
  let normalized := replace_byte "." "-" exact in
  opt_or (pe_overrides e !! exact)
  (opt_or (pe_rules e !! normalized)
  (snd <$> dated_rule (pe_rules e) normalized)).

(** A rule's five rates, in the order input, output, cache 5m, cache 1h, cache read. *)
Record Rates := mkRates {
  rt_input : option Z;
  rt_output : option Z;
  rt_cache_5m : option Z;
  rt_cache_1h : option Z;
  rt_cache_read : option Z;
}.

Definition rates_for (rule : PricingRule) (input_tokens : Z) : Rates :=
  match opt_filter (λ tier, lc_threshold tier <? input_tokens) (pr_long_context rule) with
  | Some tier => mkRates (lc_input tier) (lc_output tier) (lc_cache_creation_5m tier)
                   (lc_cache_creation_1h tier) (lc_cache_read tier)
  | None => mkRates (pr_input rule) (pr_output rule) (pr_cache_creation_5m rule)
              (pr_cache_creation_1h rule) (pr_cache_read rule)
  end.

(** [fold(0, i64::saturating_add)]. *)
Definition sat_sum (l : list Z) : Z := foldl (sat_add i64) 0 l.

Definition price (e : PricingEngine) (model : string) (tokens : UsageTokens) : PricedUsage :=
  let matched := find_rule e model in
  let rates := default (mkRates None None None None None)
                 ((λ rule, rates_for rule (ut_input tokens)) <$> matched) in
  let input := component_cost (ut_input tokens) (rt_input rates) in
  let output := component_cost (ut_output tokens) (rt_output rates) in
  let cache_5m := component_cost (ut_cache_creation_5m tokens) (rt_cache_5m rates) in
  let cache_1h := component_cost (ut_cache_creation_1h tokens) (rt_cache_1h rates) in
  let cache_read := component_cost (ut_cache_read tokens) (rt_cache_read rates) in
  let known_nano_usd := sat_sum (omap id [input; output; cache_5m; cache_1h; cache_read]) in
  let unpriced_tokens :=
    sat_sum (omap (λ '(count, cost), if (0 <? count) && opt_is_none cost then Some count else None)
      [(ut_input tokens, input); (ut_output tokens, output);
       (ut_cache_creation_5m tokens, cache_5m); (ut_cache_creation_1h tokens, cache_1h);
       (ut_cache_read tokens, cache_read)]) in
  {| pd_costs := {|
       uc_input_nano_usd := input;
       uc_output_nano_usd := output;
       uc_cache_creation_5m_nano_usd := cache_5m;
       uc_cache_creation_1h_nano_usd := cache_1h;
       uc_cache_read_nano_usd := cache_read;
       uc_known_nano_usd := known_nano_usd;
       uc_complete := unpriced_tokens =? 0;
       uc_unpriced_tokens := unpriced_tokens |};
     pd_pricing_version := pe_version e;
     pd_pricing_model_key := pr_model_key <$> matched |}.

(** ** The built-in rules *)

(** [expect]: a built-in price that does not parse aborts the program. *)
Definition expect_ok {E A} (r : result E A) : outcome A :=
  match r with Ok a => Done a | Err _ => Panic end.

Definition rule (model_key input output cache_5m cache_1h cache_read : string)
    : outcome PricingRule :=
  input ← expect_ok (parse_usd_per_million input);
  output ← expect_ok (parse_usd_per_million output);
  cache_5m ← expect_ok (parse_usd_per_million cache_5m);
  cache_1h ← expect_ok (parse_usd_per_million cache_1h);
  cache_read ← expect_ok (parse_usd_per_million cache_read);
  Done (mkRule model_key (Some input) (Some output) (Some cache_5m) (Some cache_1h)
          (Some cache_read) None).

Definition builtin_list : list (outcome PricingRule) := [
  rule "claude-opus-5" "5" "25" "6.25" "10" "0.5";
  rule "claude-opus-4-8" "5" "25" "6.25" "10" "0.5";
  rule "claude-opus-4-7" "5" "25" "6.25" "10" "0.5";
  rule "claude-opus-4-6" "5" "25" "6.25" "10" "0.5";
  rule "claude-opus-4-5" "5" "25" "6.25" "10" "0.5";
  rule "claude-opus-4-1" "15" "75" "18.75" "30" "1.5";
  rule "claude-opus-4" "15" "75" "18.75" "30" "1.5";
  rule "claude-sonnet-4-6" "3" "15" "3.75" "6" "0.3";
  rule "claude-sonnet-4-5" "3" "15" "3.75" "6" "0.3";
  rule "claude-sonnet-4" "3" "15" "3.75" "6" "0.3";
  rule "claude-sonnet-5" "2" "10" "2.5" "4" "0.2";
  rule "claude-fable-5" "10" "50" "12.5" "20" "1";
  rule "claude-haiku-4-5" "1" "5" "1.25" "2" "0.1";
  rule "claude-3-7-sonnet" "3" "15" "3.75" "6" "0.3";
  rule "claude-3-5-sonnet" "3" "15" "3.75" "6" "0.3";
  rule "claude-3-5-haiku" "0.8" "4" "1" "1.6" "0.08";
  rule "claude-3-opus" "15" "75" "18.75" "30" "1.5";
  rule "claude-3-haiku" "0.25" "1.25" "0.3" "0.5" "0.03"].

Fixpoint collect_rules (l : list (outcome PricingRule)) (rules : gmap string PricingRule)
    : outcome (gmap string PricingRule) :=
  match l with
  | [] => Done rules
  | r :: l => r ← r; collect_rules l (<[pr_model_key r := r]> rules)
  end.

Definition builtin_long_context : outcome LongContextPricing :=
  input ← expect_ok (parse_usd_per_million "6");
  output ← expect_ok (parse_usd_per_million "22.5");
  cache_5m ← expect_ok (parse_usd_per_million "7.5");
  cache_1h ← expect_ok (parse_usd_per_million "12");
  cache_read ← expect_ok (parse_usd_per_million "0.6");
  Done (mkLongContext 200000 (Some input) (Some output) (Some cache_5m) (Some cache_1h)
          (Some cache_read)).

Definition set_long_context (key : string) (rules : gmap string PricingRule)
    : outcome (gmap string PricingRule) :=
  match rules !! key with
  | Some r =>
      tier ← builtin_long_context;
      Done (<[key := r <| pr_long_context := Some tier |>]> rules)
  | None => Done rules
  end.

Definition builtin_rules_outcome : outcome (gmap string PricingRule) :=
  rules ← collect_rules builtin_list ∅;
  rules ← set_long_context "claude-sonnet-4" rules;
  rules ← set_long_context "claude-sonnet-4-5" rules;
  set_long_context "claude-sonnet-4-6" rules.

(** No built-in price fails to parse ([builtin_rules_done]); the engine uses
    the resulting table. *)
Definition builtin_rules : gmap string PricingRule :=
  match builtin_rules_outcome with Done rules => rules | Panic => ∅ end.

(** ** Overrides *)

Definition parse_override_tier (tier : OverrideLongContext) : result string LongContextPricing :=
  if ol_threshold tier <=? 0 then Err "long_context.threshold must be positive"
  else
    input ← parse_optional_rate (ol_input_usd_per_million tier);
    output ← parse_optional_rate (ol_output_usd_per_million tier);
    cache_5m ← parse_optional_rate (ol_cache_creation_5m_usd_per_million tier);
    cache_1h ← parse_optional_rate (ol_cache_creation_1h_usd_per_million tier);
    cache_read ← parse_optional_rate (ol_cache_read_usd_per_million tier);
    Ok (mkLongContext (ol_threshold tier) input output cache_5m cache_1h cache_read).

Definition parse_override_rule (model_key : string) (rule : OverrideRule)
    : result string PricingRule :=
  input ← parse_optional_rate (or_input_usd_per_million rule);
  output ← parse_optional_rate (or_output_usd_per_million rule);
  cache_5m ← parse_optional_rate (or_cache_creation_5m_usd_per_million rule);
  cache_1h ← parse_optional_rate (or_cache_creation_1h_usd_per_million rule);
  cache_read ← parse_optional_rate (or_cache_read_usd_per_million rule);
  long_context ← transpose (parse_override_tier <$> or_long_context rule);
  Ok (mkRule model_key input output cache_5m cache_1h cache_read long_context).

Fixpoint collect_overrides (l : list (string * OverrideRule)) (m : gmap string PricingRule)
    : result string (gmap string PricingRule) :=
  match l with
  | [] => Ok m
  | (model, rule) :: l =>
      let model := to_ascii_lowercase (trim model) in
      if is_empty model then Err "pricing override model must not be empty"
      else
        parsed ← parse_override_rule model rule;
        collect_overrides l (<[model := parsed]> m)
  end.

(** The derived decoders of the two structures. *)
Class PricingText := {
  overrides_from_str : string → result string (gmap string OverrideRule);
  snapshot_from_str : string → result string PricingSnapshot;
  snapshot_to_str : PricingSnapshot → result string string;
  rules_to_str : gmap string PricingRule → result string string;
}.

Section engine.
Context `{JsonText} `{Digest} `{PricingText}.

(** [hex::encode(&digest[..8])]. *)
Definition digest_prefix (canonical : string) : string :=
  hex_encode (String.substring 0 8 (sha256 canonical)).

Definition from_override_json (override_json : option string) : result string PricingEngine :=
  '(overrides, suffix) ←
    match opt_filter (λ raw, negb (is_empty raw)) (trim <$> override_json) with
    | Some raw =>
        input_overrides ←
          map_err (λ err, "invalid USAGE_PRICING_OVERRIDES_JSON: " +:+ err) (overrides_from_str raw);
        overrides ← collect_overrides (btree_entries input_overrides) ∅;
        value ← map_err (λ err, "invalid pricing override JSON: " +:+ err) (json_from_str raw);
        canonical ← map_err (λ err, "canonicalize pricing overrides: " +:+ err)
                      (json_to_string value);
        Ok (overrides, "+override-" +:+ digest_prefix canonical)
    | None => Ok (∅, "")
    end;
  Ok (mkEngine builtin_rules overrides (BASE_PRICING_VERSION +:+ suffix) suffix).

(** ** Snapshots *)

Definition any_negative (rates : list (option Z)) : bool :=
  existsb (λ rate, rate <? 0) (omap id rates).

Definition rule_invalid (key : string) (rule : PricingRule) : bool :=
  is_empty (trim key) || negb (String.eqb (pr_model_key rule) key)
  || any_negative [pr_input rule; pr_output rule; pr_cache_creation_5m rule;
                   pr_cache_creation_1h rule; pr_cache_read rule].

Definition tier_invalid (tier : LongContextPricing) : bool :=
  (lc_threshold tier <=? 0)
  || any_negative [lc_input tier; lc_output tier; lc_cache_creation_5m tier;
                   lc_cache_creation_1h tier; lc_cache_read tier].

Fixpoint validate_rules (l : list (string * PricingRule)) : result string unit :=
  match l with
  | [] => Ok tt
  | (key, rule) :: l =>
      if rule_invalid key rule then Err ("invalid pricing rule for model " +:+ key)
      else if is_some_and (pr_long_context rule) tier_invalid
      then Err ("invalid long-context pricing rule for model " +:+ key)
      else validate_rules l
  end.

Definition validate (s : PricingSnapshot) : result string unit :=
  if is_empty (trim (ps_version s)) || bool_decide (ps_rules s = ∅)
  then Err "pricing snapshot must contain a version and at least one rule"
  else validate_rules (btree_entries (ps_rules s)).

Definition snapshot_from_json (json : string) : result string PricingSnapshot :=
  snapshot ← map_err (λ error, "invalid cached pricing snapshot: " +:+ error)
               (snapshot_from_str json);
  _ ← validate snapshot;
  Ok snapshot.

Definition snapshot_to_json (s : PricingSnapshot) : result string string :=
  map_err (λ error, "serialize pricing snapshot: " +:+ error) (snapshot_to_str s).

(** A rule of the snapshot, with the long-context tier of the rule it replaces
    when it has none. *)
Definition merge_rule (rules : gmap string PricingRule) (e : string * PricingRule)
    : gmap string PricingRule :=
  let merged :=
    match pr_long_context e.2 with
    | None => e.2 <| pr_long_context := rules !! e.1 ≫= pr_long_context |>
    | Some _ => e.2
    end in
  <[e.1 := merged]> rules.

Definition with_snapshot (e : PricingEngine) (snapshot : PricingSnapshot)
    : result string PricingEngine :=
  _ ← validate snapshot;
  let rules := foldl merge_rule builtin_rules (btree_entries (ps_rules snapshot)) in
  Ok (mkEngine rules (pe_overrides e) (ps_version snapshot +:+ pe_override_version_suffix e)
        (pe_override_version_suffix e)).

(** ** Remote sources *)

Definition json_rate (value : option Value) (decimal_scale : Z) : result string (option Z) :=
  transpose ((λ value,
    raw ← match value with
          | VNumber number => Ok (number_to_string number)
          | VString value => Ok value
          | _ => Err "pricing rate must be a JSON number or decimal string"
          end;
    parse_decimal_scaled raw decimal_scale) <$> value).

(** The body of the loop over the models, after the two required rates. *)
Definition litellm_rule (model : string) (entry : gmap string Value) (input output : Z)
    : result string PricingRule :=
  cache_creation_5m ← json_rate (entry !! "cache_creation_input_token_cost") 15;
  let cache_creation_5m := opt_or cache_creation_5m (multiply_rate input 5 4) in
  cache_creation_1h ← json_rate (entry !! "cache_creation_input_token_cost_above_1hr") 15;
  let cache_creation_1h := opt_or cache_creation_1h (multiply_rate input 2 1) in
  cache_read ← json_rate (entry !! "cache_read_input_token_cost") 15;
  let cache_read := opt_or cache_read (multiply_rate input 1 10) in
  long_input ← json_rate (entry !! "input_cost_per_token_above_200k_tokens") 15;
  long_output ← json_rate (entry !! "output_cost_per_token_above_200k_tokens") 15;
  long_cache_creation ←
    json_rate (entry !! "cache_creation_input_token_cost_above_200k_tokens") 15;
  long_cache_read ← json_rate (entry !! "cache_read_input_token_cost_above_200k_tokens") 15;
  let long_context :=
    if existsb opt_is_some [long_input; long_output; long_cache_creation; long_cache_read]
    then Some {|
      lc_threshold := 200000;
      lc_input := opt_or long_input (Some input);
      lc_output := opt_or long_output (Some output);
      lc_cache_creation_5m := opt_or long_cache_creation cache_creation_5m;
      lc_cache_creation_1h :=
        opt_or (long_input ≫= λ rate, multiply_rate rate 2 1) cache_creation_1h;
      lc_cache_read := opt_or long_cache_read cache_read |}
    else None in
  Ok (mkRule (normalize_model_key model) (Some input) (Some output) cache_creation_5m
        cache_creation_1h cache_read long_context).

(** One model of LiteLLM's table: [None] is a [continue]. *)
Definition litellm_entry (model : string) (value : Value) : result string (option PricingRule) :=
  match as_object value with
  | None => Ok None
  | Some entry =>
      if bool_decide ((entry !! "litellm_provider" ≫= as_str) ≠ Some "anthropic")
         || negb (starts_with "claude-" model)
      then Ok None
      else
        input ← json_rate (entry !! "input_cost_per_token") 15;
        match input with
        | None => Ok None
        | Some input =>
            output ← json_rate (entry !! "output_cost_per_token") 15;
            match output with
            | None => Ok None
            | Some output => Some <$> litellm_rule model entry input output
            end
        end
  end.

(** One model of models.dev's table. *)
Definition models_dev_rule (key : string) (model : Value) (cost : gmap string Value)
    (input output : Z) : result string (option PricingRule) :=
  cache_creation_5m ← json_rate (cost !! "cache_write") 9;
  let cache_creation_5m := opt_or cache_creation_5m (multiply_rate input 5 4) in
  let cache_creation_1h := multiply_rate input 2 1 in
  cache_read ← json_rate (cost !! "cache_read") 9;
  let cache_read := opt_or cache_read (multiply_rate input 1 10) in
  let model_key := normalize_model_key (default key (vget model "id" ≫= as_str)) in
  if negb (starts_with "claude-" model_key) then Ok None
  else Ok (Some (mkRule model_key (Some input) (Some output) cache_creation_5m
                   cache_creation_1h cache_read None)).

Definition models_dev_entry (key : string) (model : Value) : result string (option PricingRule) :=
  match vget model "cost" ≫= as_object with
  | None => Ok None
  | Some cost =>
      input ← json_rate (cost !! "input") 9;
      match input with
      | None => Ok None
      | Some input =>
          output ← json_rate (cost !! "output") 9;
          match output with
          | None => Ok None
          | Some output => models_dev_rule key model cost input output
          end
      end
  end.

(** The loop over a table, in key order; the first error ends it. *)
Fixpoint collect_entries (entry : string → Value → result string (option PricingRule))
    (l : list (string * Value)) (rules : gmap string PricingRule)
    : result string (gmap string PricingRule) :=
  match l with
  | [] => Ok rules
  | (key, value) :: l =>
      r ← entry key value;
      collect_entries entry l
        match r with Some r => <[pr_model_key r := r]> rules | None => rules end
  end.

Definition parse_litellm_snapshot (json : string) : result string (gmap string PricingRule) :=
  root ← map_err (λ error, "invalid LiteLLM pricing JSON: " +:+ error)
           (root ← json_from_str json; ok_or (as_object root) "invalid type: expected a map");
  rules ← collect_entries litellm_entry (btree_entries root) ∅;
  if bool_decide (rules = ∅) then Err "LiteLLM returned no complete Anthropic pricing rules"
  else Ok rules.

Definition parse_models_dev_snapshot (json : string) : result string (gmap string PricingRule) :=
  root ← map_err (λ error, "invalid models.dev pricing JSON: " +:+ error) (json_from_str json);
  models ← ok_or ((vget root "anthropic" ≫= λ provider, vget provider "models") ≫= as_object)
             "models.dev response is missing anthropic.models";
  rules ← collect_entries models_dev_entry (btree_entries models) ∅;
  if bool_decide (rules = ∅) then Err "models.dev returned no complete Anthropic pricing rules"
  else Ok rules.

(** [fetch_pricing_json] after the response headers: the declared length, then
    the chunks, each an error or bytes. *)
Fixpoint read_chunks (chunks : list (result string string)) (body : string)
    : result string string :=
  match chunks with
  | [] => Ok body
  | chunk :: chunks =>
      chunk ← map_err (λ error, "read response: " +:+ error) chunk;
      if PRICING_RESPONSE_LIMIT <? str_len body + str_len chunk
      then Err "response exceeds 8 MiB limit"
      else read_chunks chunks (body +:+ chunk)
  end.

Definition read_pricing_body (content_length : option Z) (chunks : list (result string string))
    (is_utf8 : string → bool) : result string string :=
  if is_some_and content_length (λ length, PRICING_RESPONSE_LIMIT <? length)
  then Err "response exceeds 8 MiB limit"
  else
    body ← read_chunks chunks "";
    if is_utf8 body then Ok body else Err "response is not UTF-8 JSON".

(** [fetch_remote_pricing_snapshot], given what the two requests returned. *)
Definition fetch_remote_pricing_snapshot (litellm models_dev : result string string)
    : result string PricingSnapshot :=
  let '(sources, rules) :=
    match litellm ≫= parse_litellm_snapshot with
    | Ok parsed => (["litellm"], parsed ∪ ∅)
    | Err _ => ([], ∅)
    end in
  let '(sources, rules) :=
    match models_dev ≫= parse_models_dev_snapshot with
    | Ok parsed => (sources ++ ["modelsdev"], rules ∪ parsed)
    | Err _ => (sources, rules)
    end in
  if bool_decide (rules = ∅) then
    Err "all remote pricing sources failed or returned no Anthropic rules"
  else
    canonical ← map_err (λ error, "canonicalize remote pricing: " +:+ error) (rules_to_str rules);
    let snapshot :=
      mkSnapshot ("auto-" +:+ join "-" sources +:+ "-" +:+ digest_prefix canonical) rules in
    _ ← validate snapshot;
    Ok snapshot.
End engine.
