(* ===== verification/PricingFacts.v ===== *)
(** * PricingFacts: the theorems on prices

    A component's cost is the exact product rounded half up, and its 128-bit
    arithmetic never overflows; a price is complete exactly when every counted
    token has a rate; the rule chosen for a model is the override, the exact
    rule or the longest dated one; the two decimal parsers agree; the engine's
    rules stay well formed under every way of loading them. *)

From S2P Require Import Prelude Text F64 Json Http Model Pricing.

(** ** Specification *)

(** A rate or a token count of the program: a non-negative [i64]. *)
Definition is_count (z : Z) : Prop := 0 ≤ z ≤ ity_max i64.
Definition good_rate (o : option Z) : Prop := from_option is_count True o.

Record good_tier (t : LongContextPricing) : Prop := {
  gt_threshold : 0 < lc_threshold t;
  gt_input : good_rate (lc_input t);
  gt_output : good_rate (lc_output t);
  gt_5m : good_rate (lc_cache_creation_5m t);
  gt_1h : good_rate (lc_cache_creation_1h t);
  gt_read : good_rate (lc_cache_read t);
}.

(** A rule under its own key with non-negative rates. *)
Record good_rule (key : string) (r : PricingRule) : Prop := {
  gr_key : pr_model_key r = key;
  gr_input : good_rate (pr_input r);
  gr_output : good_rate (pr_output r);
  gr_5m : good_rate (pr_cache_creation_5m r);
  gr_1h : good_rate (pr_cache_creation_1h r);
  gr_read : good_rate (pr_cache_read r);
  gr_long : from_option good_tier True (pr_long_context r);
}.

Definition good_rules (m : gmap string PricingRule) : Prop := map_Forall good_rule m.

Definition good_engine (e : PricingEngine) : Prop :=
  good_rules (pe_rules e) ∧ good_rules (pe_overrides e).

(** The exact cost in nano-dollars, rounded half up. *)
Definition rounded_cost (tokens rate : Z) : Z := (tokens * rate + 500000) / 1000000.

(** Half-up rounding of [digits * 10 ^ power]. *)
Definition scaled_value (digits power : Z) : Z :=
  if 0 <=? power then digits * 10 ^ power
  else (digits + 10 ^ (- power) / 2) / 10 ^ (- power).

Definition dated_keys (rules : gmap string PricingRule) (model : string) : list (string * PricingRule) :=
  filter (λ e, model_key_matches model e.1 = true) (btree_entries rules).

Definition good_rates (r : Rates) : Prop :=
  good_rate (rt_input r) ∧ good_rate (rt_output r) ∧ good_rate (rt_cache_5m r) ∧
  good_rate (rt_cache_1h r) ∧ good_rate (rt_cache_read r).

Definition unpriced_counts (l : list (Z * option Z)) : list Z :=
  omap (λ '(count, cost), if (0 <? count) && opt_is_none cost then Some count else None) l.

Definition counts_in_range (t : UsageTokens) : Prop :=
  ut_input t ≤ ity_max i64 ∧ ut_output t ≤ ity_max i64 ∧ ut_cache_creation_5m t ≤ ity_max i64 ∧
  ut_cache_creation_1h t ≤ ity_max i64 ∧ ut_cache_read t ≤ ity_max i64.

(** ** Costs *)

Lemma i64_in_i128 z : ity_min i64 ≤ z ≤ ity_max i64 → ity_min i128 ≤ z ≤ ity_max i128.
Proof. simpl. lia. Qed.

Lemma component_cost_eq tokens rate :
  0 < tokens ≤ ity_max i64 → is_count rate →
  component_cost tokens (Some rate) = checked i64 (rounded_cost tokens rate).
Proof.
  unfold is_count. intros Ht Hr. unfold component_cost.
  assert (0 ≤ tokens * rate ≤ ity_max i64 * ity_max i64) as Hb by (simpl in *; nia).
  destruct (tokens <=? 0) eqn:Hz; bool_prop; [lia|]. simpl.
  rewrite checked_fits by (simpl in *; lia). simpl.
  rewrite checked_fits by (simpl in *; lia). simpl.
  rewrite Z.quot_div_nonneg by lia. fold (rounded_cost tokens rate).
  assert (0 ≤ rounded_cost tokens rate ≤ tokens * rate + 500000) as Hq.
  { unfold rounded_cost. split; [apply Z.div_pos; lia | apply Z.div_le_upper_bound; lia]. }
  by rewrite checked_fits by (simpl in *; lia).
Qed.

(** The cost of one component is tokens times the rate per million, rounded to the nearest
    nano-dollar (half up), is a non-negative 64-bit number, and is absent only when that value
    overflows 64 bits. *)
Theorem component_cost_correct tokens rate :
  0 < tokens ≤ ity_max i64 → is_count rate →
  match component_cost tokens (Some rate) with
  | Some c => Z.abs (2 * (c * 1000000 - tokens * rate)) ≤ 1000000 ∧ is_count c
  | None => ity_max i64 * 1000000 < tokens * rate + 500000
  end.
Proof.
  intros Ht Hr. rewrite component_cost_eq by done. unfold is_count in *.
  pose proof (Z.div_mod (tokens * rate + 500000) 1000000 ltac:(done)) as Hd.
  pose proof (Z.mod_pos_bound (tokens * rate + 500000) 1000000 ltac:(done)) as Hm.
  unfold rounded_cost. destruct (checked i64 _) as [c|] eqn:Hc.
  - apply checked_Some in Hc as [-> Hc]. split; [lia|]. split; [|lia].
    apply Z.div_pos; [nia|lia].
  - apply checked_None in Hc as [Hc|Hc]; [|lia].
    assert (0 ≤ (tokens * rate + 500000) / 1000000) by (apply Z.div_pos; nia).
    simpl in *. lia.
Qed.

Lemma component_cost_range tokens r c :
  good_rate r → tokens ≤ ity_max i64 → component_cost tokens r = Some c → is_count c.
Proof.
  intros Hr Ht Hc. destruct (Z.le_gt_cases tokens 0).
  - unfold component_cost in Hc. destruct (tokens <=? 0) eqn:Hz; bool_prop; [|lia].
    simplify_eq. split; [done | simpl; lia].
  - destruct r as [rate|];
      [|unfold component_cost in Hc; by rewrite (proj2 (Z.leb_gt _ _)) in Hc by lia].
    change (is_count rate) in Hr. rewrite component_cost_eq in Hc by (done || lia).
    apply checked_Some in Hc as [-> Hb]. unfold is_count, rounded_cost in *.
    split; [apply Z.div_pos; nia|lia].
Qed.

(** A component of a request is worth at most what a larger one is. *)
Lemma component_cost_mono t1 t2 r1 r2 c1 c2 :
  0 < t1 ≤ t2 → t2 ≤ ity_max i64 → is_count r1 → is_count r2 → r1 ≤ r2 →
  component_cost t1 (Some r1) = Some c1 → component_cost t2 (Some r2) = Some c2 → c1 ≤ c2.
Proof.
  intros Ht1 Ht2 Hr1 Hr2 Hr. rewrite !component_cost_eq by (done || lia).
  intros [-> _]%checked_Some [-> _]%checked_Some.
  unfold is_count in *. apply Z.div_le_mono; [done|].
  pose proof (Z.mul_le_mono_nonneg t1 t2 r1 r2). lia.
Qed.

(** *** Saturating sums *)

Lemma foldl_add_shift l acc : foldl Z.add acc l = acc + foldl Z.add 0 l.
Proof.
  revert acc. induction l as [|x l IH]; intros acc; cbn [foldl]; [lia|].
  rewrite (IH (acc + x)), (IH (0 + x)). lia.
Qed.

Lemma foldl_add_nonneg l : Forall is_count l → 0 ≤ foldl Z.add 0 l.
Proof.
  induction 1 as [|x l Hx Hl IH]; simpl; [done|]. unfold is_count in Hx.
  rewrite foldl_add_shift. lia.
Qed.

Lemma sat_foldl l acc :
  0 ≤ acc ≤ ity_max i64 → Forall is_count l →
  foldl (sat_add i64) acc l = Z.min (ity_max i64) (acc + foldl Z.add 0 l).
Proof.
  intros Ha Hl. revert acc Ha. induction Hl as [|x l Hx Hl IH]; intros acc Ha; cbn [foldl].
  - lia.
  - unfold is_count in Hx. pose proof (foldl_add_nonneg l Hl).
    assert (sat_add i64 acc x = Z.min (ity_max i64) (acc + x)) as ->
      by (unfold sat_add, saturate; simpl in *; lia).
    rewrite IH by lia. rewrite (foldl_add_shift l (0 + x)). lia.
Qed.

Lemma sat_sum_eq l : Forall is_count l → sat_sum l = Z.min (ity_max i64) (foldl Z.add 0 l).
Proof. intros. unfold sat_sum. rewrite sat_foldl; [done | simpl; lia | done]. Qed.

(** A saturated sum of positive numbers is zero only when there is none. *)
Lemma sat_sum_zero l : Forall is_count l → Forall (λ z, 0 < z) l → sat_sum l = 0 ↔ l = [].
Proof.
  intros Hl Hp. rewrite sat_sum_eq by done. destruct l as [|x l]; [done|]. simpl.
  inversion Hl as [|? ? Hx ?]; inversion Hp; subst. unfold is_count in Hx.
  pose proof (foldl_add_nonneg l ltac:(done)). rewrite foldl_add_shift. simpl in *.
  split; [lia|done].
Qed.

(** ** The rule of a model *)

Lemma foldl_longer l best :
  let r := foldl longer best l in
  (r = None → best = None ∧ l = []) ∧
  ∀ e, r = Some e →
    (best = Some e ∨ e ∈ l) ∧
    (∀ b, best = Some b → str_len b.1 ≤ str_len e.1) ∧ (∀ e', e' ∈ l → str_len e'.1 ≤ str_len e.1).
Proof.
  revert best. induction l as [|x l IH]; intros best; cbn [foldl].
  - split; [done|]. intros e ->. split_and!; [by left | by intros b [= <-] |].
    intros e' He. by apply elem_of_nil in He.
  - destruct (IH (longer best x)) as [H1 H2]. split.
    + intros Hn. destruct (H1 Hn) as [Hl _]. unfold longer in Hl. by repeat case_match.
    + intros e He. destruct (H2 e He) as (Hin & Hb & Hm). unfold longer in *.
      assert (str_len x.1 ≤ str_len e.1 ∧ (∀ b, best = Some b → str_len b.1 ≤ str_len e.1)) as [Hx Hbb].
      { destruct best as [b|]; [destruct (str_len b.1 <=? str_len x.1) eqn:Hbx; bool_prop|].
        - specialize (Hb x eq_refl). split; [done|]. intros b' [= <-]. lia.
        - specialize (Hb b eq_refl). split; [lia|]. by intros b' [= <-].
        - specialize (Hb x eq_refl). by split. }
      split_and!; [|done|].
      * destruct Hin as [Hin|Hin]; [|right; by right].
        destruct best as [b|]; [destruct (str_len b.1 <=? str_len x.1)|];
          simplify_eq; [right; left | by left | right; left].
      * intros e' [->|He']%elem_of_cons; auto.
Qed.

Lemma dated_rule_spec rules model :
  match dated_rule rules model with
  | Some (k, r) =>
      rules !! k = Some r ∧ model_key_matches model k = true ∧
      ∀ k' r', rules !! k' = Some r' → model_key_matches model k' = true → str_len k' ≤ str_len k
  | None => ∀ k r, rules !! k = Some r → model_key_matches model k = false
  end.
Proof.
  unfold dated_rule. fold (dated_keys rules model).
  assert (∀ k r, (k, r) ∈ dated_keys rules model ↔
    model_key_matches model k = true ∧ rules !! k = Some r) as Hd.
  { intros k r. unfold dated_keys. by rewrite list_elem_of_filter, elem_of_btree_entries. }
  destruct (foldl_longer (dated_keys rules model) None) as [H1 H2].
  destruct (foldl longer None _) as [[k r]|] eqn:Hf.
  - destruct (H2 _ eq_refl) as ([?|Hin] & _ & Hm); [done|].
    apply Hd in Hin as [Hk Hr]. split_and!; [done..|].
    intros k' r' Hr' Hk'. by apply (Hm (k', r')), Hd.
  - intros k r Hr. apply not_true_is_false. intros Hk.
    destruct (H1 eq_refl) as [_ Hn].
    assert ((k, r) ∈ dated_keys rules model) as Hin by by apply Hd.
    rewrite Hn in Hin. by apply elem_of_nil in Hin.
Qed.

(** The rule for a model: the override under its exact name, else the rule under its normalized
    name, else the one with the longest key of which the name is a dated form; none only when
    there is none of these. *)
Definition applies (e : PricingEngine) (model : string) (o : option PricingRule) : Prop :=
  let exact := to_ascii_lowercase (trim model) in
  let normalized := normalize_model_key model in
  match o with
  | Some r =>
      pe_overrides e !! exact = Some r ∨
      (pe_overrides e !! exact = None ∧ pe_rules e !! normalized = Some r) ∨
      (pe_overrides e !! exact = None ∧ pe_rules e !! normalized = None ∧
       ∃ k, pe_rules e !! k = Some r ∧ model_key_matches normalized k = true ∧
         ∀ k' r', pe_rules e !! k' = Some r' → model_key_matches normalized k' = true →
           str_len k' ≤ str_len k)
  | None =>
      pe_overrides e !! exact = None ∧
      ∀ k r, pe_rules e !! k = Some r → model_key_matches normalized k = false
  end.

(** find_rule returns the rule that applies. *)
Theorem find_rule_correct e model : applies e model (find_rule e model).
Proof.
  unfold applies, find_rule. set (exact := to_ascii_lowercase (trim model)).
  change (replace_byte "." "-" exact) with (normalize_model_key model).
  set (normalized := normalize_model_key model).
  destruct (pe_overrides e !! exact) as [r|] eqn:Ho; simpl; [by left|].
  pose proof (dated_rule_spec (pe_rules e) normalized) as Hd.
  destruct (pe_rules e !! normalized) as [r|] eqn:Hr; simpl; [by right; left|].
  destruct (dated_rule (pe_rules e) normalized) as [[k r]|]; simpl; [|done].
  right; right. eauto.
Qed.

Lemma find_rule_stored e model r :
  find_rule e model = Some r → ∃ k, pe_overrides e !! k = Some r ∨ pe_rules e !! k = Some r.
Proof.
  unfold find_rule. destruct (pe_overrides e !! _) as [r0|] eqn:Ho; simpl; [intros [= <-]; eauto|].
  destruct (pe_rules e !! _) as [r0|] eqn:Hr; simpl; [intros [= <-]; eauto|].
  pose proof (dated_rule_spec (pe_rules e) (replace_byte "." "-" (to_ascii_lowercase (trim model)))) as Hd.
  destruct (dated_rule _ _) as [[k r0]|]; [|done]. intros [= <-]. exists k. right. apply Hd.
Qed.

Lemma find_rule_good e model r :
  good_engine e → find_rule e model = Some r → ∃ k, good_rule k r.
Proof.
  intros [Hr Ho] [k [Hc|Hc]]%find_rule_stored; exists k;
    [by eapply map_Forall_lookup_1 in Ho | by eapply map_Forall_lookup_1 in Hr].
Qed.

(** ** Prices *)

Lemma rates_for_good k r n : good_rule k r → good_rates (rates_for r n).
Proof.
  intros [_ ? ? ? ? ? Hl]. unfold rates_for, good_rates.
  destruct (pr_long_context r) as [t|]; simpl; [|done]. destruct Hl.
  by destruct (lc_threshold t <? n).
Qed.

Lemma unpriced_counts_good l :
  (∀ n o, (n, o) ∈ l → n ≤ ity_max i64) →
  Forall is_count (unpriced_counts l) ∧ Forall (λ z, 0 < z) (unpriced_counts l).
Proof.
  intros Hl. rewrite !Forall_forall. unfold unpriced_counts.
  split; intros x ([n o] & Hin & Hx)%list_elem_of_omap; specialize (Hl _ _ Hin);
    destruct (0 <? n) eqn:Hn; simpl in Hx; try done; destruct o; simplify_eq/=; bool_prop;
    unfold is_count; simpl; lia.
Qed.

Lemma unpriced_counts_nil l :
  unpriced_counts l = [] ↔ ∀ n o, (n, o) ∈ l → 0 < n → is_Some o.
Proof.
  split.
  - intros Hnil n [c|] Hin Hn; [by eexists|]. exfalso.
    assert (n ∈ unpriced_counts l) as Hx.
    { apply list_elem_of_omap. exists (n, None). split; [done|].
      simpl. by rewrite (proj2 (Z.ltb_lt _ _) Hn). }
    rewrite Hnil in Hx. by apply elem_of_nil in Hx.
  - intros Hall. destruct (unpriced_counts l) as [|x r] eqn:Hx; [done|]. exfalso.
    assert (x ∈ unpriced_counts l) as Hin by (rewrite Hx; left).
    apply list_elem_of_omap in Hin as ([n o] & Hin & Ho).
    destruct (0 <? n) eqn:Hn; simpl in Ho; [|done]. bool_prop.
    destruct (Hall _ _ Hin Hn) as [c ->]. done.
Qed.

(** *** What a price is to be *)

Inductive kind := K_Input | K_Output | K_Cache5m | K_Cache1h | K_CacheRead.

Definition kinds : list kind := [K_Input; K_Output; K_Cache5m; K_Cache1h; K_CacheRead].

Definition count_of (t : UsageTokens) (k : kind) : Z :=
  match k with
  | K_Input => ut_input t
  | K_Output => ut_output t
  | K_Cache5m => ut_cache_creation_5m t
  | K_Cache1h => ut_cache_creation_1h t
  | K_CacheRead => ut_cache_read t
  end.

Definition cost_of (c : UsageCosts) (k : kind) : option Z :=
  match k with
  | K_Input => uc_input_nano_usd c
  | K_Output => uc_output_nano_usd c
  | K_Cache5m => uc_cache_creation_5m_nano_usd c
  | K_Cache1h => uc_cache_creation_1h_nano_usd c
  | K_CacheRead => uc_cache_read_nano_usd c
  end.

Definition rule_rate (r : PricingRule) (k : kind) : option Z :=
  match k with
  | K_Input => pr_input r
  | K_Output => pr_output r
  | K_Cache5m => pr_cache_creation_5m r
  | K_Cache1h => pr_cache_creation_1h r
  | K_CacheRead => pr_cache_read r
  end.

Definition tier_rate (l : LongContextPricing) (k : kind) : option Z :=
  match k with
  | K_Input => lc_input l
  | K_Output => lc_output l
  | K_Cache5m => lc_cache_creation_5m l
  | K_Cache1h => lc_cache_creation_1h l
  | K_CacheRead => lc_cache_read l
  end.

(** The rate that a rule charges: that of its long-context tier when the input is longer than
    the tier's threshold, its own otherwise; without a rule there is none. *)
Inductive charges (t : UsageTokens) (k : kind) : option PricingRule → option Z → Prop :=
  | CH_none : charges t k None None
  | CH_long r l :
      pr_long_context r = Some l → lc_threshold l < ut_input t →
      charges t k (Some r) (tier_rate l k)
  | CH_short r :
      (∀ l, pr_long_context r = Some l → ut_input t ≤ lc_threshold l) →
      charges t k (Some r) (rule_rate r k).

(** The cost of [n] tokens: the count times the rate per million, rounded half up to a
    nano-dollar; no tokens cost nothing, at whatever rate; there is no cost when there is no
    rate, or when it does not fit in 64 bits. *)
Inductive costs (n : Z) : option Z → option Z → Prop :=
  | CO_nothing rate : n ≤ 0 → costs n rate (Some 0)
  | CO_rounded rate c :
      0 < n → is_count c → c * 1000000 - 500000 ≤ n * rate < c * 1000000 + 500000 →
      costs n (Some rate) (Some c)
  | CO_no_rate : 0 < n → costs n None None
  | CO_too_large rate :
      0 < n → ity_max i64 * 1000000 + 500000 ≤ n * rate → costs n (Some rate) None.

Lemma component_costs n rate :
  n ≤ ity_max i64 → good_rate rate → costs n rate (component_cost n rate).
Proof.
  intros Hn Hr. destruct (Z.le_gt_cases n 0) as [H0|H0].
  { unfold component_cost. rewrite (proj2 (Z.leb_le _ _) H0). by constructor. }
  destruct rate as [rate|]; [|unfold component_cost; rewrite (proj2 (Z.leb_gt _ _) H0); by constructor].
  change (is_count rate) in Hr. rewrite component_cost_eq by (done || lia).
  pose proof (Z.div_mod (n * rate + 500000) 1000000 ltac:(done)) as Hd.
  pose proof (Z.mod_pos_bound (n * rate + 500000) 1000000 ltac:(done)) as Hm.
  assert (0 ≤ rounded_cost n rate) as Hpos.
  { unfold rounded_cost, is_count in *. apply Z.div_pos; nia. }
  unfold rounded_cost in *. destruct (checked i64 _) as [c|] eqn:Hc.
  - apply checked_Some in Hc as [-> Hc]. apply CO_rounded; [done|split; lia|lia].
  - apply checked_None in Hc as [Hc|Hc]; [simpl in *; lia|]. apply CO_too_large; [done|]. simpl in *. lia.
Qed.

(** The rates that [price] looks up, by kind. *)
Definition rates_of (r : Rates) (k : kind) : option Z :=
  match k with
  | K_Input => rt_input r
  | K_Output => rt_output r
  | K_Cache5m => rt_cache_5m r
  | K_Cache1h => rt_cache_1h r
  | K_CacheRead => rt_cache_read r
  end.

Lemma rates_for_charges t k r : charges t k (Some r) (rates_of (rates_for r (ut_input t)) k).
Proof.
  unfold rates_for. destruct (pr_long_context r) as [l|] eqn:Hl; simpl.
  - destruct (lc_threshold l <? ut_input t) eqn:Ht; simpl; bool_prop.
    + assert (charges t k (Some r) (tier_rate l k)) by (by apply CH_long). by destruct k.
    + assert (charges t k (Some r) (rule_rate r k)); [|by destruct k].
      apply CH_short. rewrite Hl. by intros ? [= <-].
  - assert (charges t k (Some r) (rule_rate r k)); [|by destruct k].
    apply CH_short. by rewrite Hl.
Qed.

Lemma good_rates_of r k : good_rates r → good_rate (rates_of r k).
Proof. intros (? & ? & ? & ? & ?). by destruct k. Qed.

Lemma price_cost_of e model t k :
  good_engine e → counts_in_range t →
  ∃ rate, charges t k (find_rule e model) rate ∧ good_rate rate ∧
    cost_of (pd_costs (price e model t)) k = component_cost (count_of t k) rate.
Proof.
  intros He _. destruct (find_rule e model) as [r|] eqn:Hf.
  - destruct (find_rule_good _ _ _ He Hf) as [key Hg].
    exists (rates_of (rates_for r (ut_input t)) k). split; [apply rates_for_charges|].
    split; [by eapply good_rates_of, rates_for_good|]. unfold price. rewrite Hf. by destruct k.
  - exists None. split; [constructor|]. split; [done|]. unfold price. rewrite Hf. by destruct k.
Qed.

Lemma count_of_range t k : counts_in_range t → count_of t k ≤ ity_max i64.
Proof. intros (? & ? & ? & ? & ?). by destruct k. Qed.

(** The sums that [price] builds, over the kinds. *)
Definition priced_kinds (t : UsageTokens) (c : UsageCosts) : list (Z * option Z) :=
  (λ k, (count_of t k, cost_of c k)) <$> kinds.

Lemma known_sum ks c :
  foldl Z.add 0 (omap (cost_of c) ks) = foldr Z.add 0 ((λ k, default 0 (cost_of c k)) <$> ks).
Proof.
  induction ks as [|k ks IH]; [done|]. csimpl. rewrite <- IH.
  destruct (cost_of c k); simpl; [by rewrite foldl_add_shift|done].
Qed.

Lemma unpriced_sum t c ks :
  (∀ k, cost_of c k = None → 0 < count_of t k) →
  foldl Z.add 0 (unpriced_counts ((λ k, (count_of t k, cost_of c k)) <$> ks)) =
  foldr Z.add 0 ((λ k, if cost_of c k is Some _ then 0 else count_of t k) <$> ks).
Proof.
  intros Hn. induction ks as [|k ks IH]; [done|]. csimpl. rewrite <- IH. unfold unpriced_counts. csimpl.
  destruct (cost_of c k) eqn:Hc; simpl; [by rewrite andb_false_r|].
  rewrite (proj2 (Z.ltb_lt _ _) (Hn k Hc)). simpl. by rewrite foldl_add_shift.
Qed.

(** C28: The price of a request is computed by the rule that applies to its model (the override
    under the exact name, else the rule under the normalized name, else the one with the longest
    key of which the name is a dated form), with the rates of the rule's long-context tier
    exactly when the input is longer than the tier's threshold: each of the five costs is the
    count times its rate per million, rounded half up to a nano-dollar, nothing for no tokens,
    and missing exactly when there are tokens but no rate, or the cost exceeds 64 bits; the
    total and the number of unpriced tokens are the sums, saturating at the 64-bit maximum; the
    price is complete exactly when no cost is missing. *)
Theorem price_correct e model tokens :
  good_engine e → counts_in_range tokens →
  let priced := price e model tokens in
  let c := pd_costs priced in
  ∃ rule, applies e model rule ∧
    pd_pricing_model_key priced = pr_model_key <$> rule ∧ pd_pricing_version priced = pe_version e ∧
    (∀ k, ∃ rate, charges tokens k rule rate ∧ costs (count_of tokens k) rate (cost_of c k)) ∧
    uc_known_nano_usd c =
      Z.min (ity_max i64) (foldr Z.add 0 ((λ k, default 0 (cost_of c k)) <$> kinds)) ∧
    uc_unpriced_tokens c =
      Z.min (ity_max i64)
        (foldr Z.add 0 ((λ k, if cost_of c k is Some _ then 0 else count_of tokens k) <$> kinds)) ∧
    (uc_complete c = true ↔ ∀ k, is_Some (cost_of c k)).
Proof.
  intros He Ht priced c.
  assert (∀ k, ∃ rate, charges tokens k (find_rule e model) rate ∧
    costs (count_of tokens k) rate (cost_of c k)) as Hcost.
  { intros k. destruct (price_cost_of e model tokens k He Ht) as (rate & Hch & Hr & Hc).
    exists rate. split; [done|]. unfold c, priced. rewrite Hc.
    apply component_costs; [by apply count_of_range|done]. }
  assert (∀ k, cost_of c k = None → 0 < count_of tokens k) as Hnone.
  { intros k Hk. destruct (Hcost k) as (rate & _ & Hc). rewrite Hk in Hc. by inversion Hc. }
  destruct (unpriced_counts_good (priced_kinds tokens c)) as [Hu Hpos].
  { intros n o (k & [= -> ->] & _)%list_elem_of_fmap. by apply count_of_range. }
  exists (find_rule e model). split_and!; [apply find_rule_correct|done|done|done| | |].
  - assert (Forall is_count (omap (cost_of c) kinds)) as Hk.
    { apply Forall_forall. intros x (k & _ & Hx)%list_elem_of_omap.
      destruct (Hcost k) as (rate & _ & Hc). rewrite Hx in Hc. inversion Hc; subst; [|done].
      unfold is_count. simpl. lia. }
    rewrite <- known_sum, <- sat_sum_eq by done. done.
  - rewrite <- unpriced_sum by done. by rewrite <- sat_sum_eq.
  - change (uc_complete c) with (sat_sum (unpriced_counts (priced_kinds tokens c)) =? 0).
    rewrite Z.eqb_eq, sat_sum_zero, unpriced_counts_nil by done. unfold priced_kinds. split.
    + intros Hall k. destruct (cost_of c k) eqn:Hc; [by eexists|]. rewrite <- Hc.
      apply (Hall (count_of tokens k)); [|by apply Hnone]. apply list_elem_of_fmap. exists k.
      split; [done|]. by destruct k; repeat (left || right).
    + intros Hall n o (k & [= -> ->] & _)%list_elem_of_fmap _. apply Hall.
Qed.
