(* ===== verification/PricingRules.v ===== *)
(** * PricingRules: the theorems on rates and rule tables

    The two decimal parsers agree where both apply; the built-in table parses;
    every table the engine can load (built-in, overrides, snapshot, remote)
    holds well-formed rules; a newer snapshot replaces the older one. *)

From S2P Require Import Prelude Text F64 Json Http Model Pricing PricingFacts.

(** ** Decimal rates *)

Lemma pow10_pos p : 0 ≤ p → 0 < 10 ^ p.
Proof. intros. by apply Z.pow_pos_nonneg. Qed.

Lemma pow10_big p : 39 ≤ p → ity_max i128 < 10 ^ p.
Proof.
  intros. apply Z.lt_le_trans with (10 ^ 39); [done|]. by apply Z.pow_le_mono_r.
Qed.

Lemma checked_pow10_correct p : 0 ≤ p → checked_pow10 p = checked i128 (10 ^ p).
Proof.
  intros Hp. unfold checked_pow10. symmetry. destruct (p <=? 38) eqn:Hle; bool_prop.
  - apply checked_fits. pose proof (pow10_pos p Hp).
    assert (10 ^ p ≤ 10 ^ 38) by (by apply Z.pow_le_mono_r). simpl in *. lia.
  - apply checked_None. right. apply pow10_big. lia.
Qed.

(** The value of a successful scaling. *)
Lemma scale_decimal_correct value digits power v :
  0 ≤ digits → scale_decimal value digits power = Ok v →
  v = scaled_value digits power ∧ 0 ≤ v.
Proof.
  intros Hd. unfold scale_decimal, scaled_value. destruct (0 <=? power) eqn:Hs; bool_prop.
  - rewrite checked_pow10_correct by done. pose proof (pow10_pos power Hs).
    destruct (checked i128 (10 ^ power)) as [p|] eqn:Hc; simpl; [|done].
    apply checked_Some in Hc as [-> _].
    destruct (checked i128 (digits * 10 ^ power)) as [x|] eqn:Hx; intros [= <-].
    apply checked_Some in Hx as [-> _]. split; [done|nia].
  - rewrite Z.abs_neq by lia.
    destruct (checked i32 (- power)) as [m|] eqn:Hm; simpl; [|done].
    apply checked_Some in Hm as [-> _]. rewrite checked_pow10_correct by lia. pose proof (pow10_pos (- power) ltac:(lia)).
    destruct (checked i128 (10 ^ (- power))) as [p|] eqn:Hc; simpl; [|done].
    apply checked_Some in Hc as [-> _]. rewrite Z.quot_div_nonneg by lia.
    pose proof (Z.div_pos (10 ^ (- power)) 2 ltac:(lia) ltac:(lia)).
    destruct (checked i128 (digits + _)) as [x|] eqn:Hx; intros [= <-].
    apply checked_Some in Hx as [-> _]. rewrite Z.quot_div_nonneg by lia.
    split; [done | apply Z.div_pos; lia].
Qed.

(** When the result fits 64 bits and the power is one of the parser's, no
    intermediate of the multiplication overflows. *)
Lemma scale_decimal_nonneg_power value digits power :
  0 ≤ digits → 0 ≤ power ≤ 38 → digits * 10 ^ power ≤ ity_max i64 →
  scale_decimal value digits power = Ok (digits * 10 ^ power).
Proof.
  intros Hd Hp Hv. unfold scale_decimal. rewrite (proj2 (Z.leb_le _ _)) by lia.
  unfold checked_pow10. rewrite (proj2 (Z.leb_le _ _)) by lia. simpl.
  pose proof (pow10_pos power ltac:(lia)). rewrite checked_fits; [done|].
  simpl in *. nia.
Qed.

Lemma parse_int_digits t s :
  s ≠ "" → str_all is_digit s = true →
  parse_int t s = (z ← digits_val 0 s; checked t z).
Proof.
  intros Hne Hd. destruct s as [|c r]; [done|]. unfold parse_int.
  destruct (Ascii.eqb_spec c "+") as [->|]; [done|].
  destruct (Ascii.eqb_spec c "-") as [->|]; [done|]. done.
Qed.

Lemma digits_val_nonneg s v : digits_val 0 s = Some v → 0 ≤ v.
Proof. by apply digits_val_mono. Qed.

(** A text without an exponent mark, cut at its point. *)
Record Decimal (value whole fraction : string) : Prop := {
  dec_no_sign : has_sign value = false;
  dec_nonempty : value ≠ "";
  dec_split : split_point value = (whole, fraction);
  dec_no_exp : split_at_first is_exp_mark value = None;
}.

Lemma usd_eq s whole fraction :
  Decimal (trim s) whole fraction → whole ≠ "" →
  str_all is_digit whole = true → str_all is_digit fraction = true → str_len fraction ≤ 9 →
  ∀ w f, digits_val 0 whole = Some w → digits_val 0 fraction = Some f →
  res_ok (parse_usd_per_million s) = checked i64 (w * 1000000000 + f * 10 ^ (9 - str_len fraction)).
Proof.
  intros [Hs He Hsp _] Hw Dw Df Hl w f Vw Vf. unfold parse_usd_per_million.
  destruct (trim s) as [|c r] eqn:Ht; [done|]. simpl is_empty. rewrite Hs, Hsp. simpl orb.
  rewrite (proj2 (Z.ltb_ge _ _)), Dw, Df by done. simpl.
  rewrite (parse_int_digits _ _ Hw Dw), Vw. simpl.
  pose proof (digits_val_nonneg _ _ Vw). pose proof (digits_val_nonneg _ _ Vf).
  pose proof (digits_val_lt _ _ Vf) as Hlt.
  pose proof (str_len_nonneg fraction).
  assert (0 < 10 ^ (9 - str_len fraction) ≤ 10 ^ 9) as Hp
    by (split; [apply pow10_pos; lia | apply Z.pow_le_mono_r; lia]).
  assert (f < 10 ^ 9) as Hf by
    (eapply Z.lt_le_trans; [exact Hlt | by apply Z.pow_le_mono_r]).
  change (10 ^ 9) with 1000000000 in *.
  assert ((if is_empty fraction then Ok 0
           else f0 ← ok_or (parse_int i128 fraction) ("invalid USD rate: " +:+ String c r);
                Ok (f0 * 10 ^ (9 - str_len fraction))) =
          Ok (E := string) (f * 10 ^ (9 - str_len fraction))) as Hfr.
  { destruct fraction as [|d t]; simpl is_empty; [injection Vf as <-; done|].
    rewrite (parse_int_digits _ (String d t)), Vf by done. simpl mbind.
    rewrite checked_fits by (simpl in *; lia). done. }
  destruct (checked i128 w) as [w'|] eqn:Cw; simpl.
  - apply checked_Some in Cw as [-> Cw]. rewrite Hfr. simpl.
    destruct (checked i128 (w * 1000000000)) as [x|] eqn:Cx; simpl.
    + apply checked_Some in Cx as [-> Cx].
      destruct (checked i128 (_ + _)) as [y|] eqn:Cy; simpl.
      * apply checked_Some in Cy as [-> Cy]. by destruct (checked i64 _).
      * symmetry. apply checked_None. apply checked_None in Cy. simpl in *. nia.
    + symmetry. apply checked_None. apply checked_None in Cx. simpl in *. nia.
  - symmetry. apply checked_None. apply checked_None in Cw. simpl in *. nia.
Qed.

Lemma split_digits_app whole fraction w f :
  whole ≠ "" → digits_val 0 whole = Some w → digits_val 0 fraction = Some f →
  digits_val 0 (whole +:+ fraction) = Some (w * 10 ^ str_len fraction + f).
Proof.
  intros Hw Vw Vf. rewrite digits_val_app, Vw. simpl. by rewrite digits_val_scale, Vf.
Qed.

Lemma str_all_digits_app a b :
  str_all is_digit a = true → str_all is_digit b = true → str_all is_digit (a +:+ b) = true.
Proof. intros Ha Hb. by rewrite str_all_app, Ha, Hb. Qed.

Lemma app_nonempty a b : a ≠ "" → a +:+ b ≠ "".
Proof. by destruct a. Qed.

Lemma pow10_split k : 0 ≤ k ≤ 9 → 10 ^ k * 10 ^ (9 - k) = 1000000000.
Proof.
  intros Hk. rewrite <- Z.pow_add_r by lia. by replace (k + (9 - k)) with 9 by lia.
Qed.

Lemma decimal_eq s whole fraction :
  Decimal (trim s) whole fraction → whole ≠ "" →
  str_all is_digit whole = true → str_all is_digit fraction = true → str_len fraction ≤ 9 →
  ∀ w f, digits_val 0 whole = Some w → digits_val 0 fraction = Some f →
  res_ok (parse_decimal_scaled s 9) =
    checked i64 (w * 1000000000 + f * 10 ^ (9 - str_len fraction)).
Proof.
  intros [Hs He Hsp Hx] Hw Dw Df Hl w f Vw Vf. unfold parse_decimal_scaled.
  destruct (trim s) as [|c r] eqn:Ht; [done|]. simpl is_empty. rewrite Hs, Hx. simpl orb.
  cbn [mbind result_bind]. rewrite Hsp.
  assert (is_empty whole = false) as -> by by destruct whole.
  rewrite Dw, Df. simpl negb. simpl orb. cbv iota.
  rewrite (parse_int_digits _ _ (app_nonempty _ _ Hw) (str_all_digits_app _ _ Dw Df)).
  rewrite (split_digits_app _ _ _ _ Hw Vw Vf). cbn [mbind option_bind].
  pose proof (digits_val_nonneg _ _ Vw). pose proof (digits_val_nonneg _ _ Vf).
  pose proof (str_len_nonneg fraction). set (k := str_len fraction) in *.
  pose proof (pow10_pos k ltac:(lia)). pose proof (pow10_pos (9 - k) ltac:(lia)).
  pose proof (pow10_split k ltac:(lia)) as Hk.
  assert (w * 1000000000 + f * 10 ^ (9 - k) = (w * 10 ^ k + f) * 10 ^ (9 - k)) as ->
    by (rewrite <- Hk; ring).
  set (d := w * 10 ^ k + f) in *. assert (0 ≤ d) by (subst d; nia).
  destruct (checked i128 d) as [d'|] eqn:Cd; cbn [ok_or mbind result_bind].
  - apply checked_Some in Cd as [-> Cd].
    rewrite (checked_fits i32 (9 + 0)) by (simpl; lia). cbn [mbind option_bind].
    assert (wrap i32 k = k) as -> by (unfold wrap; simpl; rewrite Z.mod_small; lia).
    rewrite checked_fits by (simpl; lia). cbn [ok_or mbind result_bind].
    replace (9 + 0 - k) with (9 - k) by lia.
    unfold scale_decimal, checked_pow10. rewrite (proj2 (Z.leb_le _ _)) by lia.
    rewrite (proj2 (Z.leb_le _ _)) by lia. cbn [ok_or mbind result_bind].
    destruct (checked i128 (d * _)) as [x|] eqn:Cx; cbn [ok_or mbind result_bind].
    + apply checked_Some in Cx as [-> _]. by destruct (checked i64 _).
    + symmetry. apply checked_None. apply checked_None in Cx. simpl in *. nia.
  - symmetry. apply checked_None. apply checked_None in Cd. simpl in *. nia.
Qed.

(** The two decimal parsers, the checked one for configured overrides and the scaled one
    for remote price lists, give the same rate for every text without an exponent and with at
    most nine fractional digits, and refuse the same ones. *)
Theorem decimal_parsers_agree s :
  split_at_first is_exp_mark (trim s) = None → str_len (split_point (trim s)).2 ≤ 9 →
  res_ok (parse_usd_per_million s) = res_ok (parse_decimal_scaled s 9).
Proof.
  intros Hx Hl. destruct (split_point (trim s)) as [whole fraction] eqn:Hsp. simpl in Hl.
  destruct (decide (trim s = "")) as [He|He];
    [unfold parse_usd_per_million, parse_decimal_scaled; by rewrite He|].
  destruct (has_sign (trim s)) eqn:Hs.
  { unfold parse_usd_per_million, parse_decimal_scaled. rewrite Hs, orb_true_r. done. }
  assert (Decimal (trim s) whole fraction) as HD by by split.
  destruct (str_all is_digit whole && str_all is_digit fraction) eqn:HDig; cycle 1.
  { unfold parse_usd_per_million, parse_decimal_scaled. rewrite Hs, Hx, Hsp.
    cbn [mbind result_bind]. rewrite Hsp, <- !orb_assoc, <- negb_andb, HDig, !orb_true_r.
    by destruct (trim s). }
  apply andb_true_iff in HDig as [Dw Df].
  destruct (decide (whole = "")) as [->|Hw].
  - unfold parse_usd_per_million, parse_decimal_scaled. rewrite Hs, Hx, Hsp, Df. simpl.
    rewrite Hsp. simpl. destruct (trim s); [done|]. by rewrite (proj2 (Z.ltb_ge _ _)).
  - pose proof (proj1 (digits_val_all whole 0) Dw) as [w Vw].
    pose proof (proj1 (digits_val_all fraction 0) Df) as [f Vf].
    by rewrite (usd_eq s whole fraction HD Hw Dw Df Hl w f Vw Vf),
      (decimal_eq s whole fraction HD Hw Dw Df Hl w f Vw Vf).
Qed.

(** *** Parsed rates are counts *)

Lemma parse_int_nonneg t s z : str_all is_digit s = true → parse_int t s = Some z → 0 ≤ z.
Proof.
  intros Hd Hp. destruct (decide (s = "")) as [->|Hne]; [done|].
  rewrite parse_int_digits in Hp by done.
  destruct (digits_val 0 s) as [v|] eqn:Hv; simpl in Hp; [|done].
  apply checked_Some in Hp as [-> _]. by eapply digits_val_nonneg.
Qed.

Lemma parse_decimal_scaled_count s scale v : parse_decimal_scaled s scale = Ok v → is_count v.
Proof.
  unfold parse_decimal_scaled. destruct (_ || has_sign _); [done|].
  set (ex := match split_at_first is_exp_mark (trim s) with Some _ => _ | None => _ end).
  destruct ex as [[mantissa e]|]; cbn [mbind result_bind]; [|done].
  destruct (split_point mantissa) as [whole fraction]. destruct (_ || negb _) eqn:Hd; [done|].
  bool_prop. destruct (parse_int i128 _) as [d|] eqn:Hp; cbn [ok_or mbind result_bind]; [|done].
  apply parse_int_nonneg in Hp; [|by apply str_all_digits_app].
  set (pw := ok_or _ _). destruct pw as [power|]; cbn [ok_or mbind result_bind]; [|done].
  destruct (scale_decimal _ d power) as [x|] eqn:Hx; cbn [ok_or mbind result_bind]; [|done].
  apply scale_decimal_correct in Hx as [_ Hx]; [|done].
  destruct (checked i64 x) eqn:Hc; intros [= <-].
  apply checked_Some in Hc as [-> Hc]. unfold is_count. lia.
Qed.

Lemma parse_usd_count s v : parse_usd_per_million s = Ok v → is_count v.
Proof.
  unfold parse_usd_per_million. destruct (_ || has_sign _); [done|].
  destruct (split_point (trim s)) as [whole fraction].
  destruct (_ || negb (str_all is_digit fraction)) eqn:Hd; [done|]. bool_prop.
  destruct (parse_int i128 whole) as [w|] eqn:Hw; cbn [ok_or mbind result_bind]; [|done].
  apply parse_int_nonneg in Hw; [|done].
  set (fr := if is_empty fraction then _ else _).
  assert (∀ f, fr = Ok f → 0 ≤ f) as Hf.
  { intros f. subst fr. destruct (is_empty fraction); [by intros [= <-]|].
    destruct (parse_int i128 fraction) as [y|] eqn:Hy; cbn [ok_or mbind result_bind]; [|done].
    apply parse_int_nonneg in Hy; [|done]. intros [= <-].
    pose proof (pow10_pos (9 - str_len fraction) ltac:(lia)). nia. }
  destruct fr as [f|]; cbn [ok_or mbind result_bind]; [|done]. specialize (Hf f eq_refl).
  destruct (checked i128 (w * _)) as [x|] eqn:Hx; cbn [ok_or mbind option_bind result_bind]; [|done].
  apply checked_Some in Hx as [-> _].
  destruct (checked i128 (_ + f)) as [y|] eqn:Hy; cbn [ok_or mbind option_bind result_bind]; [|done].
  apply checked_Some in Hy as [-> _].
  destruct (checked i64 _) eqn:Hc; intros [= <-].
  apply checked_Some in Hc as [-> Hc]. unfold is_count. lia.
Qed.

Lemma parse_optional_rate_good o r : parse_optional_rate o = Ok r → good_rate r.
Proof.
  unfold parse_optional_rate. destruct o as [s|]; simpl; [|by intros [= <-]].
  destruct (parse_usd_per_million s) eqn:Hp; intros [= <-]. by apply parse_usd_count in Hp.
Qed.

Lemma json_rate_good `{JsonText} v scale r : json_rate v scale = Ok r → good_rate r.
Proof.
  unfold json_rate. destruct v as [v|]; simpl; [|by intros [= <-]].
  set (raw := match v with VNumber _ => _ | _ => _ end). destruct raw as [x|]; simpl; [|done].
  destruct (parse_decimal_scaled x scale) eqn:Hp; intros [= <-].
  by apply parse_decimal_scaled_count in Hp.
Qed.

Lemma multiply_rate_good rate n d :
  is_count rate → 0 ≤ n → 0 < d → good_rate (multiply_rate rate n d).
Proof.
  intros Hr Hn Hd. unfold multiply_rate, is_count in *.
  destruct (checked i128 (rate * n)) as [x|] eqn:Hx; [|done]. apply checked_Some in Hx as [-> _].
  cbn [mbind option_bind]. rewrite !Z.quot_div_nonneg by lia.
  pose proof (Z.div_pos d 2 ltac:(lia) ltac:(lia)).
  destruct (checked i128 (_ + _)) as [y|] eqn:Hy; [|done]. apply checked_Some in Hy as [-> _].
  cbn [mbind option_bind]. rewrite (proj2 (Z.eqb_neq d 0)) by lia.
  rewrite Z.quot_div_nonneg by nia.
  destruct (checked i128 _) as [z|] eqn:Hz; [|done]. apply checked_Some in Hz as [-> _].
  cbn [mbind option_bind]. destruct (checked i64 _) as [u|] eqn:Hu; [|done].
  apply checked_Some in Hu as [-> Hu]. simpl. split; [apply Z.div_pos; nia | lia].
Qed.

Lemma opt_or_good a b : good_rate a → good_rate b → good_rate (opt_or a b).
Proof. by destruct a. Qed.
