(* ===== verification/PricingTables.v ===== *)
(** * PricingTables: every loaded rule table is well formed

    The built-in rules, the operator's overrides, a cached snapshot and the two
    remote sources all give tables of [good_rules]; a remote snapshot passes
    its own validation; loading a snapshot forgets the one before it. *)

From S2P Require Import Prelude Text F64 Json Http Model Pricing PricingFacts PricingRules.

(** A decoded snapshot: its rates and thresholds are [i64] values. *)
Definition rate_typed (o : option Z) : Prop := from_option (λ z, z ≤ ity_max i64) True o.

Record rule_typed (r : PricingRule) : Prop := {
  rty_rates : Forall rate_typed [pr_input r; pr_output r; pr_cache_creation_5m r;
    pr_cache_creation_1h r; pr_cache_read r];
  rty_tier t : pr_long_context r = Some t →
    Forall rate_typed [lc_input t; lc_output t; lc_cache_creation_5m t;
      lc_cache_creation_1h t; lc_cache_read t];
}.

Definition snapshot_typed (s : PricingSnapshot) : Prop :=
  map_Forall (λ _ r, rule_typed r) (ps_rules s).

(** The keys of a table contain a byte that trimming cannot remove. *)
Definition named_rules (m : gmap string PricingRule) : Prop :=
  ∀ k r, m !! k = Some r → lacks "c" k = false.

#[export] Instance good_rate_dec o : Decision (good_rate o).
Proof. destruct o; unfold good_rate, is_count; simpl; apply _. Defined.

#[export] Instance good_tier_dec t : Decision (good_tier t).
Proof.
  refine (cast_if (decide (0 < lc_threshold t ∧ good_rate (lc_input t) ∧ good_rate (lc_output t) ∧
    good_rate (lc_cache_creation_5m t) ∧ good_rate (lc_cache_creation_1h t) ∧
    good_rate (lc_cache_read t)))).
  - by destruct_and!.
  - intros [? ? ? ? ? ?]. tauto.
Defined.

#[export] Instance good_long_dec o : Decision (from_option good_tier True o).
Proof. destruct o; simpl; apply _. Defined.

#[export] Instance good_rule_dec k r : Decision (good_rule k r).
Proof.
  refine (cast_if (decide (pr_model_key r = k ∧ good_rate (pr_input r) ∧ good_rate (pr_output r) ∧
    good_rate (pr_cache_creation_5m r) ∧ good_rate (pr_cache_creation_1h r) ∧
    good_rate (pr_cache_read r) ∧ from_option good_tier True (pr_long_context r)))).
  - by destruct_and!.
  - intros [? ? ? ? ? ? ?]. tauto.
Defined.

(** ** The built-in rules *)

Lemma builtin_rules_done : builtin_rules_outcome = Done builtin_rules.
Proof.
  assert (match builtin_rules_outcome with Done _ => true | Panic => false end = true) as Hd
    by (vm_compute; reflexivity).
  unfold builtin_rules. revert Hd. generalize builtin_rules_outcome. by intros [m|].
Qed.

Lemma builtin_rules_good : good_rules builtin_rules.
Proof.
  assert (bool_decide (Forall (λ e, good_rule e.1 e.2) (map_to_list builtin_rules)) = true) as Hb
    by (by vm_compute).
  apply bool_decide_eq_true in Hb. rewrite Forall_forall in Hb.
  intros k r Hk. by apply (Hb (k, r)), elem_of_map_to_list.
Qed.

Lemma good_rules_insert m k r : good_rules m → good_rule k r → good_rules (<[k := r]> m).
Proof. intros. by apply map_Forall_insert_2. Qed.

(** ** Overrides *)

Ltac rates := repeat match goal with
  | H : (_ ← parse_optional_rate ?o; _) = Ok _ |- _ =>
      let Hr := fresh "Hr" in
      destruct (parse_optional_rate o) eqn:Hr; cbn [mbind result_bind] in H; [|discriminate H];
      apply parse_optional_rate_good in Hr
  | H : (_ ← json_rate ?v ?sc; _) = Ok _ |- _ =>
      let Hr := fresh "Hr" in
      destruct (json_rate v sc) eqn:Hr; cbn [mbind result_bind] in H; [|discriminate H];
      apply json_rate_good in Hr
  end.

Lemma parse_override_tier_good t r : parse_override_tier t = Ok r → good_tier r.
Proof.
  unfold parse_override_tier. destruct (ol_threshold t <=? 0) eqn:Ht; [done|]. intros Hp.
  rates. injection Hp as <-. bool_prop. by split.
Qed.

Lemma parse_override_rule_good k o r : parse_override_rule k o = Ok r → good_rule k r.
Proof.
  unfold parse_override_rule. intros Hp. rates.
  destruct (or_long_context o) as [t|]; simpl in Hp.
  - destruct (parse_override_tier t) as [tier|] eqn:Ht; simplify_eq/=.
    apply parse_override_tier_good in Ht. by split.
  - simplify_eq. by split.
Qed.

Lemma collect_overrides_good l m m' :
  good_rules m → collect_overrides l m = Ok m' → good_rules m'.
Proof.
  revert m. induction l as [|[model o] l IH]; intros m Hm; simpl; [by intros [= <-]|].
  destruct (is_empty _); [done|].
  destruct (parse_override_rule _ o) as [r|] eqn:Hr; cbn [mbind result_bind]; [|done].
  apply IH, good_rules_insert; [done|]. by eapply parse_override_rule_good.
Qed.

(** ** Snapshots *)

Lemma any_negative_false l : any_negative l = false ↔ ∀ z, Some z ∈ l → 0 ≤ z.
Proof.
  unfold any_negative. split.
  - intros Hn z Hz. apply not_true_iff_false in Hn. apply Z.nlt_ge. intros Hlt. apply Hn.
    apply existsb_exists. exists z. split; [|by apply Z.ltb_lt].
    apply list_elem_of_In, list_elem_of_omap. eauto.
  - intros Hall. apply not_true_iff_false. rewrite existsb_exists. intros (z & Hin & Hz).
    apply list_elem_of_In, list_elem_of_omap in Hin as (o & Ho & Heq). unfold id in Heq. subst.
    specialize (Hall _ Ho). bool_prop. lia.
Qed.

Lemma rates_good l :
  any_negative l = false → Forall rate_typed l → Forall good_rate l.
Proof.
  rewrite any_negative_false, !Forall_forall. intros Hn Ht [z|] Hin; [|done].
  split; [by apply Hn | by apply (Ht (Some z))].
Qed.

Lemma good_rates_any_negative l : Forall good_rate l → any_negative l = false.
Proof.
  rewrite any_negative_false, Forall_forall. intros Hg z Hz. by destruct (Hg _ Hz).
Qed.

Lemma validate_rules_Ok l :
  validate_rules l = Ok tt ↔
  ∀ k r, (k, r) ∈ l →
    rule_invalid k r = false ∧ is_some_and (pr_long_context r) tier_invalid = false.
Proof.
  induction l as [|[k r] l IH]; simpl.
  - split; [|done]. intros _ k r Hin. by apply elem_of_nil in Hin.
  - destruct (rule_invalid k r) eqn:H1.
    { split; [done|]. intros Hall. destruct (Hall k r ltac:(left)). congruence. }
    destruct (is_some_and _ _) eqn:H2.
    { split; [done|]. intros Hall. destruct (Hall k r ltac:(left)). congruence. }
    rewrite IH. split.
    + intros Hall k' r' Hin. apply elem_of_cons in Hin as [[= -> ->]|Hin]; auto.
    + intros Hall k' r' Hin. apply Hall. by right.
Qed.

Lemma valid_rule_good k r :
  rule_invalid k r = false → is_some_and (pr_long_context r) tier_invalid = false →
  rule_typed r → good_rule k r.
Proof.
  unfold rule_invalid. intros H1 H2 [T1 T2]. bool_prop.
  match goal with H : String.eqb _ _ = true |- _ => apply String.eqb_eq in H end.
  match goal with H : any_negative _ = false |- _ => apply rates_good in H; [|done] end.
  rewrite !Forall_cons in *. destruct_and!. split; try done.
  destruct (pr_long_context r) as [t|]; [|done]. simpl in *. specialize (T2 t eq_refl).
  unfold tier_invalid in H2. bool_prop.
  match goal with H : any_negative _ = false |- _ => apply rates_good in H; [|done] end.
  rewrite !Forall_cons in *. destruct_and!. by split.
Qed.

Lemma good_rule_valid k r :
  is_empty (trim k) = false → good_rule k r →
  rule_invalid k r = false ∧ is_some_and (pr_long_context r) tier_invalid = false.
Proof.
  intros Hk [E ? ? ? ? ? Ht]. split.
  - unfold rule_invalid. rewrite Hk, E, String.eqb_refl. simpl.
    apply good_rates_any_negative. by rewrite !Forall_cons, Forall_nil.
  - destruct (pr_long_context r) as [t|]; [|done]. simpl in *. destruct Ht.
    unfold tier_invalid. rewrite (proj2 (Z.leb_gt _ _)) by done. simpl.
    apply good_rates_any_negative. by rewrite !Forall_cons, Forall_nil.
Qed.

Lemma validate_good s : validate s = Ok tt → snapshot_typed s → good_rules (ps_rules s).
Proof.
  unfold validate. destruct (_ || _); [done|]. rewrite validate_rules_Ok. intros Hv Ht k r Hk.
  destruct (Hv k r) as [H1 H2]; [by apply elem_of_btree_entries|].
  apply valid_rule_good; [done..|]. by eapply (map_Forall_lookup_1 _ _ _ _ Ht).
Qed.

Lemma good_validate s :
  is_empty (trim (ps_version s)) = false → ps_rules s ≠ ∅ → good_rules (ps_rules s) →
  (∀ k r, ps_rules s !! k = Some r → is_empty (trim k) = false) → validate s = Ok tt.
Proof.
  intros Hv Hn Hg Hk. unfold validate. rewrite Hv, bool_decide_false by done. simpl.
  apply validate_rules_Ok. intros k r Hin%elem_of_btree_entries.
  apply good_rule_valid; [by eapply Hk | by apply Hg].
Qed.

Lemma merge_rule_good m k r : good_rules m → good_rule k r → good_rules (merge_rule m (k, r)).
Proof.
  intros Hm Hr. unfold merge_rule. apply good_rules_insert; [done|].
  destruct Hr as [? ? ? ? ? ? Hl]. simpl. destruct (pr_long_context r) as [t|] eqn:Ht.
  - split; try done. by rewrite Ht.
  - destruct r; split; simpl in *; try done.
    destruct (m !! k) as [r'|] eqn:Hk; [|done].
    by destruct (map_Forall_lookup_1 _ _ _ _ Hm Hk).
Qed.

Lemma foldl_merge_good l m :
  good_rules m → (∀ k r, (k, r) ∈ l → good_rule k r) → good_rules (foldl merge_rule m l).
Proof.
  revert m. induction l as [|[k r] l IH]; intros m Hm Hl; simpl; [done|].
  apply IH; [apply merge_rule_good; [done|apply Hl; left] | intros; apply Hl; by right].
Qed.

Section engine.
Context `{JsonText} `{Digest} `{PricingText}.

(** An engine built from overrides holds only rules stored under their own key with
    non-negative 64-bit rates and positive thresholds, and still does after any well-typed
    snapshot is accepted. *)
Theorem engine_rules_good raw e :
  from_override_json raw = Ok e →
  good_engine e ∧
  ∀ s e', snapshot_typed s → with_snapshot e s = Ok e' → good_engine e'.
Proof.
  unfold from_override_json. intros He.
  assert (good_engine e) as Hgood.
  { destruct (opt_filter _ _) as [text|].
    - destruct (overrides_from_str text) as [input|]; cbn [map_err mbind result_bind] in He; [|done].
      destruct (collect_overrides _ _) as [m|] eqn:Hm; cbn [mbind result_bind] in He; [|done].
      destruct (json_from_str text); cbn [map_err mbind result_bind] in He; [|done].
      destruct (json_to_string _); cbn [map_err mbind result_bind] in He; simplify_eq.
      split; [apply builtin_rules_good|]. simpl.
      eapply collect_overrides_good; [apply map_Forall_empty | done].
    - simplify_eq/=. split; [apply builtin_rules_good | apply map_Forall_empty]. }
  split; [done|]. intros s e' Ht Hw. unfold with_snapshot in Hw.
  destruct (validate s) as [[]|] eqn:Hv; cbn [mbind result_bind] in Hw; simplify_eq.
  split; simpl; [|apply Hgood]. apply foldl_merge_good; [apply builtin_rules_good|].
  intros k r Hin%elem_of_btree_entries. by apply (map_Forall_lookup_1 _ _ _ _ (validate_good _ Hv Ht)).
Qed.

(** Installing a pricing snapshot over an engine that already has one gives the same engine
    as installing it directly, and never changes an exact override. *)
Theorem snapshot_replaces e s1 s2 e1 :
  with_snapshot e s1 = Ok e1 →
  with_snapshot e1 s2 = with_snapshot e s2 ∧
  ∀ model, let exact := to_ascii_lowercase (trim model) in
    pe_overrides e1 !! exact = pe_overrides e !! exact.
Proof.
  unfold with_snapshot. destruct (validate s1) as [[]|]; cbn [mbind result_bind]; intros [= <-].
  by split.
Qed.
(** ** Remote tables *)

Lemma lacks_claude s : starts_with "claude-" s = true → lacks "c" s = false.
Proof. intros (r & ->)%starts_with_true. by rewrite lacks_app. Qed.

Lemma normalize_named model : lacks "c" model = false → lacks "c" (normalize_model_key model) = false.
Proof.
  intros Hl. unfold normalize_model_key, replace_byte, to_ascii_lowercase.
  apply lacks_map; [done|]. apply lacks_map; [done|]. by rewrite trim_lacks.
Qed.

Lemma litellm_rule_good model entry input output r :
  is_count input → is_count output → litellm_rule model entry input output = Ok r →
  good_rule (normalize_model_key model) r.
Proof.
  intros Hi Ho. unfold litellm_rule. intros Hp. rates. injection Hp as <-.
  pose proof (multiply_rate_good input 5 4 Hi ltac:(lia) ltac:(lia)).
  pose proof (multiply_rate_good input 2 1 Hi ltac:(lia) ltac:(lia)).
  pose proof (multiply_rate_good input 1 10 Hi ltac:(lia) ltac:(lia)).
  split; simpl; auto using opt_or_good.
  destruct (_ || _); simpl; [|done]. split; simpl; auto using opt_or_good; [lia|].
  apply opt_or_good; [|auto using opt_or_good].
  match goal with |- good_rate (?o ≫= _) => destruct o as [x|]; [|done] end.
  apply multiply_rate_good; [done|lia|lia].
Qed.

Lemma litellm_entry_good model v r :
  litellm_entry model v = Ok (Some r) →
  good_rule (pr_model_key r) r ∧ lacks "c" (pr_model_key r) = false.
Proof.
  unfold litellm_entry. destruct (as_object v) as [entry|]; [|done].
  destruct (_ || negb _) eqn:Hc; [done|]. bool_prop. intros Hp. rates.
  repeat match goal with
  | H : match ?o with Some _ => _ | None => _ end = Ok (Some _) |- _ => destruct o; [|done]
  | _ => progress rates
  end.
  destruct (litellm_rule model entry _ _) as [x|] eqn:Hx; [|done]. injection Hp as <-.
  apply litellm_rule_good in Hx; [|done..]. pose proof (gr_key _ _ Hx) as Hk. rewrite Hk.
  split; [done|]. by apply normalize_named, lacks_claude.
Qed.

Lemma models_dev_entry_good key v r :
  models_dev_entry key v = Ok (Some r) →
  good_rule (pr_model_key r) r ∧ lacks "c" (pr_model_key r) = false.
Proof.
  unfold models_dev_entry. destruct (_ ≫= as_object) as [cost|]; [|done]. intros Hp. rates.
  repeat match goal with
  | H : match ?o with Some _ => _ | None => _ end = Ok (Some _) |- _ => destruct o; [|done]
  | _ => progress rates
  end.
  unfold models_dev_rule in Hp. rates. destruct (negb _) eqn:Hn; [done|]. bool_prop.
  injection Hp as <-. simpl. split; [|by apply lacks_claude].
  split; simpl; auto using opt_or_good, multiply_rate_good with lia.
Qed.

Lemma collect_entries_good entry l m m' :
  (∀ k v r, entry k v = Ok (Some r) →
     good_rule (pr_model_key r) r ∧ lacks "c" (pr_model_key r) = false) →
  good_rules m → named_rules m → collect_entries entry l m = Ok m' →
  good_rules m' ∧ named_rules m'.
Proof.
  intros He. revert m. induction l as [|[k v] l IH]; intros m Hg Hn; simpl; [by intros [= <-]|].
  destruct (entry k v) as [[r|]|] eqn:Hr; cbn [mbind result_bind]; [|by apply IH|done].
  destruct (He _ _ _ Hr) as [Hgr Hnr]. apply IH; [by apply good_rules_insert|].
  intros k' r'. rewrite lookup_insert_Some. intros [[<- <-]|[? ?]]; eauto.
Qed.

Lemma named_empty : named_rules ∅.
Proof. intros k r. by rewrite lookup_empty. Qed.

Lemma litellm_snapshot_good json m :
  parse_litellm_snapshot json = Ok m → good_rules m ∧ named_rules m.
Proof.
  unfold parse_litellm_snapshot. intros Hp.
  destruct (map_err _ _) as [root|]; cbn [mbind result_bind] in Hp; [|done].
  destruct (collect_entries _ _ _) as [rules|] eqn:Hc; cbn [mbind result_bind] in Hp; [|done].
  case_bool_decide; simplify_eq.
  eapply collect_entries_good; [apply litellm_entry_good|apply map_Forall_empty|apply named_empty|done].
Qed.

Lemma models_dev_snapshot_good json m :
  parse_models_dev_snapshot json = Ok m → good_rules m ∧ named_rules m.
Proof.
  unfold parse_models_dev_snapshot. intros Hp.
  destruct (map_err _ _) as [root|]; cbn [mbind result_bind] in Hp; [|done].
  destruct (ok_or _ _) as [models|]; cbn [mbind result_bind] in Hp; [|done].
  destruct (collect_entries _ _ _) as [rules|] eqn:Hc; cbn [mbind result_bind] in Hp; [|done].
  case_bool_decide; simplify_eq.
  eapply collect_entries_good; [apply models_dev_entry_good|apply map_Forall_empty|apply named_empty|done].
Qed.

Lemma good_named_union m1 m2 :
  good_rules m1 ∧ named_rules m1 → good_rules m2 ∧ named_rules m2 →
  good_rules (m1 ∪ m2) ∧ named_rules (m1 ∪ m2).
Proof.
  intros [G1 N1] [G2 N2]. split.
  - by apply map_Forall_union_2.
  - intros k r [?|[_ ?]]%lookup_union_Some_raw; eauto.
Qed.

Lemma litellm_source_good litellm m :
  litellm ≫= parse_litellm_snapshot = Ok m → m ≠ ∅ ∧ good_rules m ∧ named_rules m.
Proof.
  intros Hm. destruct litellm as [json|]; [|done]. cbn [mbind result_bind] in Hm.
  split; [|by eapply litellm_snapshot_good]. intros ->. unfold parse_litellm_snapshot in Hm.
  destruct (map_err _ _); cbn [mbind result_bind] in Hm; [|done].
  destruct (collect_entries _ _ _); cbn [mbind result_bind] in Hm; [|done].
  by case_bool_decide; simplify_eq.
Qed.

Lemma models_dev_source_good models_dev m :
  models_dev ≫= parse_models_dev_snapshot = Ok m → m ≠ ∅ ∧ good_rules m ∧ named_rules m.
Proof.
  intros Hm. destruct models_dev as [json|]; [|done]. cbn [mbind result_bind] in Hm.
  split; [|by eapply models_dev_snapshot_good]. intros ->. unfold parse_models_dev_snapshot in Hm.
  destruct (map_err _ _); cbn [mbind result_bind] in Hm; [|done].
  destruct (ok_or _ _); cbn [mbind result_bind] in Hm; [|done].
  destruct (collect_entries _ _ _); cbn [mbind result_bind] in Hm; [|done].
  by case_bool_decide; simplify_eq.
Qed.

(** The last part of the fetch: naming and validating a non-empty table. *)
Lemma publish_valid sources m text :
  m ≠ ∅ → good_rules m ∧ named_rules m →
  validate (mkSnapshot ("auto-" +:+ join "-" sources +:+ "-" +:+ digest_prefix text) m) = Ok tt.
Proof.
  intros Hne [Hg Hn]. apply good_validate; [|done..|].
  - by apply (trim_nonempty "a").
  - intros k r Hk. apply (trim_nonempty "c"); [done|]. by eapply Hn.
Qed.

Lemma union_nonempty (m1 m2 : gmap string PricingRule) : m1 ≠ ∅ → m1 ∪ m2 ≠ ∅.
Proof. intros Hne Hu. by apply Hne, (map_positive_l m1 m2). Qed.

(** The remote pricing snapshot that is returned passes its own validation and holds only
    well-formed rules; an error is returned exactly when neither source gave a usable snapshot. *)
Theorem remote_snapshot_valid litellm models_dev :
  (∀ m, ∃ text, rules_to_str m = Ok text) →
  match fetch_remote_pricing_snapshot litellm models_dev with
  | Ok s => validate s = Ok tt ∧ good_rules (ps_rules s)
  | Err e =>
      e = "all remote pricing sources failed or returned no Anthropic rules" ∧
      res_ok (litellm ≫= parse_litellm_snapshot) = None ∧
      res_ok (models_dev ≫= parse_models_dev_snapshot) = None
  end.
Proof.
  intros Hser. unfold fetch_remote_pricing_snapshot.
  pose proof (litellm_source_good litellm) as HL.
  pose proof (models_dev_source_good models_dev) as HM.
  destruct (litellm ≫= parse_litellm_snapshot) as [m1|e1];
    destruct (models_dev ≫= parse_models_dev_snapshot) as [m2|e2]; cbv beta iota.
  4: by rewrite bool_decide_true.
  all: try destruct (HL _ eq_refl) as [N1 G1]; try destruct (HM _ eq_refl) as [N2 G2].
  all: rewrite ?map_union_empty, ?map_empty_union, bool_decide_false by eauto using union_nonempty.
  all: match goal with |- context [rules_to_str ?m] => destruct (Hser m) as [text ->] end.
  all: cbn [map_err mbind result_bind]; rewrite publish_valid by eauto using union_nonempty, good_named_union.
  all: cbn [mbind result_bind]; split; [apply publish_valid|]; eauto using union_nonempty, good_named_union.
  all: cbn [ps_rules]; try apply good_named_union; tauto.
Qed.
End engine.
