(* ===== verification/UsageParse.v ===== *)
(** * UsageParse: reading token usage out of a response (src/src/service/usage.rs)

    The incremental JSON and server-sent-events parsers, which see the response
    in chunks of any size, and the usage fields they read. The performance
    handle that the parsers call is represented by the list of the values they
    hand to it. JSON text is decoded by the [JsonText] interface; a chunk and a
    buffer are byte strings. *)

From S2P Require Import Prelude Text F64 Json Http Model.

Definition JSON_LIMIT : Z := 16 * 1024 * 1024.
Definition SSE_LINE_LIMIT : Z := 256 * 1024.

(** ** Content encodings *)

Inductive UsageContentEncoding := CE_Identity | CE_Gzip | CE_Deflate | CE_Brotli | CE_Zstd | CE_Unsupported.

#[export] Instance UsageContentEncoding_eq_dec : EqDecision UsageContentEncoding.
Proof. solve_decision. Defined.

Definition content_encoding_parse (value : option string) : UsageContentEncoding :=
  match value with
  | None => CE_Identity
  | Some value =>
      match filter (λ v, v ≠ "") (trim <$> split_on "," value) with
      | [] => CE_Identity
      | [encoding] =>
          let e := to_ascii_lowercase encoding in
          if String.eqb e "identity" then CE_Identity
          else if String.eqb e "gzip" || String.eqb e "x-gzip" then CE_Gzip
          else if String.eqb e "deflate" then CE_Deflate
          else if String.eqb e "br" then CE_Brotli
          else if String.eqb e "zstd" then CE_Zstd
          else CE_Unsupported
      | _ :: _ :: _ => CE_Unsupported
      end
  end.

(** ** The fields of a response *)

Record ParsedUsage := mkParsedUsage {
  pa_message_id : option string;
  pa_model : option string;
  pa_tokens : UsageTokens;
  pa_stop_reason : option string;
  pa_has_usage : bool;
}.

Record UsagePatch := mkPatch {
  up_input : option Z;
  up_output : option Z;
  up_cache_creation_5m : option Z;
  up_cache_creation_1h : option Z;
  up_cache_read : option Z;
}.

Definition patch_default : UsagePatch := mkPatch None None None None None.

Definition patch_has_any (p : UsagePatch) : bool :=
  opt_is_some (up_input p) || opt_is_some (up_output p) || opt_is_some (up_cache_creation_5m p)
  || opt_is_some (up_cache_creation_1h p) || opt_is_some (up_cache_read p).

Definition patch_apply (p : UsagePatch) (tokens : UsageTokens) : UsageTokens := {|
  ut_input := default (ut_input tokens) (up_input p);
  ut_output := default (ut_output tokens) (up_output p);
  ut_cache_creation_5m := default (ut_cache_creation_5m tokens) (up_cache_creation_5m p);
  ut_cache_creation_1h := default (ut_cache_creation_1h tokens) (up_cache_creation_1h p);
  ut_cache_read := default (ut_cache_read tokens) (up_cache_read p);
|}.

Definition string_field (value : Value) (field : string) : option string :=
  opt_filter (λ v, negb (is_empty v)) (trim <$> (vget value field ≫= as_str)).

Definition stop_reasons : list string :=
  ["end_turn"; "max_tokens"; "stop_sequence"; "tool_use"; "pause_turn"; "refusal";
   "model_context_window_exceeded"].

Definition stop_reason_field (value : Value) : option string :=
  opt_filter (λ reason, existsb (String.eqb reason) stop_reasons) (string_field value "stop_reason").

Definition optional_token (value : option Value) : result unit (option Z) :=
  match value with
  | None | Some VNull => Ok None
  | Some value => ok_or (Some <$> opt_filter (λ v, 0 <=? v) (as_i64 value)) tt
  end.

Definition parse_usage_patch (usage : Value) : result unit UsagePatch :=
  match as_object usage with
  | None => Err tt
  | Some object =>
      input ← optional_token (object !! "input_tokens");
      output ← optional_token (object !! "output_tokens");
      cache_read ← optional_token (object !! "cache_read_input_tokens");
      match object !! "cache_creation" ≫= as_object with
      | Some breakdown =>
          cache_5m ← optional_token (breakdown !! "ephemeral_5m_input_tokens");
          cache_1h ← optional_token (breakdown !! "ephemeral_1h_input_tokens");
          Ok (mkPatch input output cache_5m cache_1h cache_read)
      | None =>
          cache_5m ← optional_token (object !! "cache_creation_input_tokens");
          Ok (mkPatch input output cache_5m None cache_read)
      end
  end.

Definition parse_json_response (value : Value) : result unit ParsedUsage :=
  patch ← transpose (parse_usage_patch <$> vget value "usage");
  let patch := default patch_default patch in
  let has_usage := opt_is_some (vget value "usage") && patch_has_any patch in
  Ok {| pa_message_id := string_field value "id";
        pa_model := string_field value "model";
        pa_tokens := patch_apply patch tokens_default;
        pa_stop_reason := stop_reason_field value;
        pa_has_usage := has_usage |}.

(** ** The JSON parser *)

Record JsonParser := mkJsonParser {
  jp_observed : list Value;
  jp_buffer : string;
  jp_parsed : option ParsedUsage;
  jp_invalid : bool;
  jp_oversize : bool;
}.

Definition json_parser_default : JsonParser := mkJsonParser [] "" None false false.

Definition json_feed (p : JsonParser) (bytes : string) : JsonParser :=
  if jp_invalid p then p
  else if JSON_LIMIT <? str_len (jp_buffer p) + str_len bytes then
    p <| jp_buffer := "" |> <| jp_invalid := true |> <| jp_oversize := true |>
  else p <| jp_buffer := jp_buffer p +:+ bytes |>.

(** ** The server-sent-events parser *)

Record SseParser := mkSseParser {
  sp_observed : list Value;
  sp_line : string;
  sp_message_id : option string;
  sp_model : option string;
  sp_tokens : UsageTokens;
  sp_stop_reason : option string;
  sp_has_usage : bool;
  sp_complete : bool;
  sp_invalid : bool;
  sp_oversize : bool;
}.

Definition sse_parser_default : SseParser :=
  mkSseParser [] "" None None tokens_default None false false false false.

Definition newline : ascii := "010"%char.

(** [strip_suffix(b"\r").unwrap_or(line)]. *)
Fixpoint strip_cr (line : string) : string :=
  match line with
  | EmptyString => EmptyString
  | String c EmptyString => if Ascii.eqb c "013"%char then EmptyString else line
  | String c r => String c (strip_cr r)
  end.

(** What a line carries: the bytes after [data:], unless there are none. *)
Definition line_data (line : string) : option string :=
  data ← strip_prefix "data:" (strip_cr line);
  let data := default data (strip_prefix " " data) in
  if is_empty data || String.eqb data "[DONE]" then None else Some data.

(** A usage object merged into the totals; a bad one makes the parser invalid. *)
Definition sse_merge_usage (p : SseParser) (usage : option Value) : SseParser :=
  match usage with
  | None => p
  | Some usage =>
      match parse_usage_patch usage with
      | Ok patch =>
          p <| sp_has_usage := sp_has_usage p || patch_has_any patch |>
            <| sp_tokens := patch_apply patch (sp_tokens p) |>
      | Err _ => p <| sp_invalid := true |>
      end
  end.

Definition sse_event (p : SseParser) (value : Value) : SseParser :=
  match vget value "type" ≫= as_str with
  | Some kind =>
      if String.eqb kind "message_start" then
        match vget value "message" with
        | None => p <| sp_invalid := true |>
        | Some message =>
            let p := p <| sp_message_id := opt_or (string_field message "id") (sp_message_id p) |>
                       <| sp_model := opt_or (string_field message "model") (sp_model p) |> in
            sse_merge_usage p (vget message "usage")
        end
      else if String.eqb kind "message_delta" then
        let p := match vget value "delta" ≫= stop_reason_field with
                 | Some reason => p <| sp_stop_reason := Some reason |>
                 | None => p
                 end in
        sse_merge_usage p (vget value "usage")
      else if String.eqb kind "message_stop" then p <| sp_complete := true |>
      else p
  | None => p
  end.

Section parsers.
Context `{JsonText}.

(** [serde_json::from_slice]. *)
Definition json_from_slice (bytes : string) : option Value := res_ok (json_from_str bytes).

Definition json_finish (p : JsonParser) : JsonParser :=
  if jp_invalid p || opt_is_some (jp_parsed p) || is_empty (jp_buffer p) then p
  else
    let p :=
      match json_from_slice (jp_buffer p) with
      | Some value =>
          let p := p <| jp_observed := jp_observed p ++ [value] |> in
          match parse_json_response value with
          | Ok parsed => p <| jp_parsed := Some parsed |>
          | Err _ => p <| jp_invalid := true |>
          end
      | None => p <| jp_invalid := true |>
      end in
    p <| jp_buffer := "" |>.

(** A complete line, taken as an argument instead of read from [sp_line]. *)
Definition sse_line (p : SseParser) (line : string) : SseParser :=
  match line_data line with
  | None => p
  | Some data =>
      match json_from_slice data with
      | None => p <| sp_invalid := true |>
      | Some value => sse_event (p <| sp_observed := sp_observed p ++ [value] |>) value
      end
  end.

Definition process_line (p : SseParser) : SseParser := sse_line p (sp_line p).

Definition sse_stopped (p : SseParser) : bool := sp_invalid p || sp_complete p.

Fixpoint sse_feed_bytes (p : SseParser) (bytes : string) : SseParser :=
  match bytes with
  | EmptyString => p
  | String byte rest =>
      if Ascii.eqb byte newline then
        let p := (process_line p) <| sp_line := "" |> in
        if sse_stopped p then p else sse_feed_bytes p rest
      else if SSE_LINE_LIMIT <=? str_len (sp_line p) then
        p <| sp_line := "" |> <| sp_invalid := true |> <| sp_oversize := true |>
      else sse_feed_bytes (p <| sp_line := sp_line p +:+ String byte "" |>) rest
  end.

Definition sse_feed (p : SseParser) (bytes : string) : SseParser :=
  if sse_stopped p then p else sse_feed_bytes p bytes.

Definition sse_finish (p : SseParser) : SseParser :=
  if negb (sp_invalid p) && negb (sp_complete p) && negb (is_empty (sp_line p))
  then (process_line p) <| sp_line := "" |> else p.

Definition sse_parsed (p : SseParser) : option ParsedUsage :=
  if sp_has_usage p
  then Some (mkParsedUsage (sp_message_id p) (sp_model p) (sp_tokens p) (sp_stop_reason p) true)
  else None.

(** ** Either parser *)

Inductive ResponseParser := RP_Json (p : JsonParser) | RP_Sse (p : SseParser).

Definition rp_feed (p : ResponseParser) (bytes : string) : ResponseParser :=
  match p with RP_Json p => RP_Json (json_feed p bytes) | RP_Sse p => RP_Sse (sse_feed p bytes) end.
Definition rp_finish (p : ResponseParser) : ResponseParser :=
  match p with RP_Json p => RP_Json (json_finish p) | RP_Sse p => RP_Sse (sse_finish p) end.
Definition rp_parsed (p : ResponseParser) : option ParsedUsage :=
  match p with RP_Json p => jp_parsed p | RP_Sse p => sse_parsed p end.
Definition rp_is_complete (p : ResponseParser) : bool :=
  match p with RP_Json _ => false | RP_Sse p => sp_complete p end.
Definition rp_is_invalid (p : ResponseParser) : bool :=
  match p with RP_Json p => jp_invalid p | RP_Sse p => sp_invalid p end.
Definition rp_is_oversize (p : ResponseParser) : bool :=
  match p with RP_Json p => jp_oversize p | RP_Sse p => sp_oversize p end.
End parsers.
