(* ===== verification/UsageParseFacts.v ===== *)
(** * UsageParseFacts: the theorems on the incremental parsers

    The parsers do not depend on how the response is cut into chunks; the
    events parser is the fold of its lines; its buffers are bounded; the tokens
    it reads are counts; nothing is read after the end or an error. *)

From S2P Require Import Prelude Text F64 Json Http Model Pricing PricingFacts UsageParse.

(** ** Specification *)

(** The response cut at its newlines, and processed line by line until a line
    ends the message or is bad. A last line without a newline is processed by
    [finish], when it is not empty. *)
Fixpoint sse_lines `{JsonText} (p : SseParser) (lines : list string) : SseParser :=
  match lines with
  | [] => p
  | [last] => if is_empty last then p else sse_line p last
  | line :: rest =>
      let p := sse_line p line in
      if sse_stopped p then p else sse_lines p rest
  end.

Definition lines_within (limit : Z) (text : string) : bool :=
  forallb (λ line, str_len line <=? limit) (split_on newline text).

(** The lines of a text, with what was read before it put back in front. *)
Definition prepend (acc : string) (lines : list string) : list string :=
  match lines with x :: xs => (acc +:+ x) :: xs | [] => [acc] end.

Definition tokens_good (t : UsageTokens) : Prop :=
  is_count (ut_input t) ∧ is_count (ut_output t) ∧ is_count (ut_cache_creation_5m t) ∧
  is_count (ut_cache_creation_1h t) ∧ is_count (ut_cache_read t).

(** What holds of a parser at any moment. *)
Definition sse_inv (p : SseParser) : Prop :=
  str_len (sp_line p) ≤ SSE_LINE_LIMIT ∧ tokens_good (sp_tokens p) ∧
  (sp_oversize p = true → sp_invalid p = true) ∧
  (∀ id, sp_message_id p = Some id → id ≠ "") ∧ (∀ m, sp_model p = Some m → m ≠ "").

Definition json_inv (p : JsonParser) : Prop :=
  str_len (jp_buffer p) ≤ JSON_LIMIT ∧ (jp_oversize p = true → jp_invalid p = true) ∧
  (∀ u, jp_parsed p = Some u → tokens_good (pa_tokens u)).

Definition rp_inv (p : ResponseParser) : Prop :=
  match p with RP_Json p => json_inv p | RP_Sse p => sse_inv p end.

Section parsers.
Context `{JsonText}.

(** ** Chunks *)

Lemma json_feed_app p a b : json_feed p (a +:+ b) = json_feed (json_feed p a) b.
Proof.
  destruct p as [ob buf pa inv ov]. unfold json_feed; simpl.
  destruct inv; [done|]. rewrite str_len_app.
  pose proof (str_len_nonneg b).
  destruct (JSON_LIMIT <? str_len buf + str_len a) eqn:Ha; bool_prop; simpl.
  - destruct (JSON_LIMIT <? _) eqn:Hab; bool_prop; [done|lia].
  - rewrite str_len_app.
    replace (str_len buf + (str_len a + str_len b)) with (str_len buf + str_len a + str_len b) by lia.
    destruct (JSON_LIMIT <? _) eqn:Hab; [done|]. by rewrite str_app_assoc.
Qed.

Lemma sse_feed_bytes_app p a b :
  sse_stopped p = false →
  sse_feed_bytes p (a +:+ b) =
    let q := sse_feed_bytes p a in if sse_stopped q then q else sse_feed_bytes q b.
Proof.
  revert p. induction a as [|c a IH]; intros p Hp; cbv zeta.
  - simpl. by rewrite Hp.
  - rewrite str_cons_app. cbn [sse_feed_bytes]. cbv zeta. destruct (Ascii.eqb c newline).
    + destruct (sse_stopped ((process_line p) <| sp_line := "" |>)) eqn:Hs;
        [by rewrite Hs|]. by apply IH.
    + destruct (SSE_LINE_LIMIT <=? _); [by destruct p|].
      apply IH. by destruct p.
Qed.

Lemma sse_feed_app p a b : sse_feed p (a +:+ b) = sse_feed (sse_feed p a) b.
Proof.
  unfold sse_feed. destruct (sse_stopped p) eqn:Hp; [by rewrite Hp|].
  by rewrite sse_feed_bytes_app.
Qed.

Lemma rp_feed_app p a b : rp_feed p (a +:+ b) = rp_feed (rp_feed p a) b.
Proof. destruct p; simpl; f_equal; [apply json_feed_app | apply sse_feed_app]. Qed.

(** C39: Feeding a response parser chunk by chunk leaves it in the same state as feeding the
    whole text at once, for JSON and server-sent-event responses and for every way of cutting
    the text. *)
Theorem chunking_irrelevant p chunks :
  foldl rp_feed p chunks = rp_feed p (String.concat "" chunks) ∨ chunks = [].
Proof.
  destruct chunks as [|c cs]; [by right|]. left. revert p c.
  induction cs as [|d cs IH]; intros p c; [done|].
  change (foldl rp_feed p (c :: d :: cs)) with (foldl rp_feed (rp_feed p c) (d :: cs)).
  rewrite IH. change (String.concat "" (c :: d :: cs)) with (c +:+ ("" +:+ String.concat "" (d :: cs))).
  by rewrite rp_feed_app.
Qed.

(** ** Lines *)

Lemma set_line_merge p l u :
  sse_merge_usage (p <| sp_line := l |>) u = (sse_merge_usage p u) <| sp_line := l |>.
Proof.
  unfold sse_merge_usage. destruct p, u as [u|]; [|done]. by destruct (parse_usage_patch u).
Qed.

Lemma set_line_event p l v :
  sse_event (p <| sp_line := l |>) v = (sse_event p v) <| sp_line := l |>.
Proof.
  unfold sse_event. destruct (vget v "type" ≫= as_str) as [kind|]; [|by destruct p].
  destruct (String.eqb kind "message_start").
  { destruct (vget v "message"); [|by destruct p]. rewrite <- set_line_merge. by destruct p. }
  destruct (String.eqb kind "message_delta").
  { rewrite <- set_line_merge. f_equal.
    destruct (vget v "delta" ≫= stop_reason_field); by destruct p. }
  destruct (String.eqb kind "message_stop"); by destruct p.
Qed.

Lemma set_line_line p l x :
  sse_line (p <| sp_line := l |>) x = (sse_line p x) <| sp_line := l |>.
Proof.
  unfold sse_line. destruct (line_data x); [|done].
  destruct (json_from_slice _); [|by destruct p]. rewrite <- set_line_event. by destruct p.
Qed.

Lemma set_line_stopped p l : sse_stopped (p <| sp_line := l |>) = sse_stopped p.
Proof. by destruct p. Qed.

Lemma set_line_get p l : sp_line (p <| sp_line := l |>) = l.
Proof. by destruct p. Qed.

Lemma set_line_twice p a b : (p <| sp_line := a |>) <| sp_line := b |> = p <| sp_line := b |>.
Proof. by destruct p. Qed.

Lemma set_line_id p : p <| sp_line := sp_line p |> = p.
Proof. by destruct p. Qed.

Lemma finish_stopped p : sse_stopped p = true → sse_finish p = p.
Proof. unfold sse_stopped, sse_finish. by destruct (sp_invalid p), (sp_complete p). Qed.

Lemma sse_finish_line p l :
  sse_stopped p = false →
  sse_finish (p <| sp_line := l |>) = (if is_empty l then p else sse_line p l) <| sp_line := "" |>.
Proof.
  unfold sse_stopped. intros Hs. unfold sse_finish, process_line. rewrite set_line_line.
  destruct p as [? ? ? ? ? ? ? co inv ?]; simpl in *. destruct inv, co; try done. simpl.
  destruct l; simpl; [done|]. by destruct (sse_line _ _).
Qed.

Lemma split_on_cons d c r :
  split_on d (String c r) =
    if Ascii.eqb c d then "" :: split_on d r else prepend (String c "") (split_on d r).
Proof.
  unfold split_on. simpl. rewrite Ascii.eqb_sym. destruct (Ascii.eqb c d); [done|].
  by destruct (split_by _ r).
Qed.

Lemma split_on_nonempty d s : ∃ x xs, split_on d s = x :: xs.
Proof.
  destruct s as [|c r]; [by eexists _, _|]. rewrite split_on_cons.
  destruct (Ascii.eqb c d); [by eexists _, _|]. destruct (split_on d r); by eexists _, _.
Qed.

Lemma prepend_prepend a b l : prepend a (prepend b l) = prepend (a +:+ b) l.
Proof. destruct l; simpl; [done|]. by rewrite str_app_assoc. Qed.

Lemma prepend_lines_within limit acc l :
  forallb (λ line, str_len line <=? limit) (prepend acc l) = true → str_len acc ≤ limit.
Proof.
  destruct l as [|x l]; simpl; intros Hl; bool_prop; [done|].
  rewrite str_len_app in *. pose proof (str_len_nonneg x). lia.
Qed.

Lemma sse_feed_lines p acc text :
  sse_stopped p = false →
  forallb (λ line, str_len line <=? SSE_LINE_LIMIT) (prepend acc (split_on newline text)) = true →
  sse_finish (sse_feed_bytes (p <| sp_line := acc |>) text) =
    (sse_lines p (prepend acc (split_on newline text))) <| sp_line := "" |>.
Proof.
  revert p acc. induction text as [|c r IH]; intros p acc Hp Hl.
  { change (split_on newline "") with [""]. cbn [sse_feed_bytes prepend sse_lines].
    rewrite sse_finish_line by done. by rewrite str_app_nil. }
  rewrite split_on_cons in *. cbn [sse_feed_bytes]. destruct (Ascii.eqb c newline) eqn:Hc.
  - simpl in Hl. rewrite str_app_nil in Hl. apply andb_true_iff in Hl as [_ Hl].
    unfold process_line. rewrite set_line_get, set_line_line, set_line_twice, set_line_stopped.
    destruct (split_on_nonempty newline r) as (x & xs & Hx).
    cbn [prepend sse_lines]. rewrite str_app_nil, Hx.
    destruct (sse_stopped (sse_line p acc)) eqn:Hs.
    + rewrite finish_stopped; [done | by rewrite set_line_stopped].
    + rewrite (IH _ _ Hs); [by rewrite Hx | by rewrite Hx in *].
  - rewrite set_line_get, prepend_prepend in *.
    pose proof (prepend_lines_within _ _ _ Hl) as Hlen. rewrite str_len_app in Hlen.
    change (str_len (String c "")) with 1 in Hlen.
    rewrite (proj2 (Z.leb_gt _ _)) by lia. rewrite set_line_twice. by apply IH.
Qed.

(** When no line is longer than the limit, feeding a server-sent-event text and finishing
    processes exactly its lines, in order, the last one included when it has no line end. *)
Theorem sse_parses_lines p text :
  sse_stopped p = false → sp_line p = "" → lines_within SSE_LINE_LIMIT text = true →
  sse_finish (sse_feed p text) = (sse_lines p (split_on newline text)) <| sp_line := "" |>.
Proof.
  intros Hs Hp Hl. unfold sse_feed. rewrite Hs.
  assert (prepend "" (split_on newline text) = split_on newline text) as Hpre
    by by destruct (split_on_nonempty newline text) as (x & xs & ->).
  rewrite <- Hpre, <- sse_feed_lines; [|done | by rewrite Hpre].
  by rewrite <- Hp, set_line_id.
Qed.

(** ** Bounds *)

Lemma optional_token_count v o : optional_token v = Ok o → good_rate o.
Proof.
  unfold optional_token. destruct v as [v|]; [|by intros [= <-]].
  assert (ok_or (Some <$> opt_filter (λ v, 0 <=? v) (as_i64 v)) tt = Ok o → good_rate o) as Hv.
  { unfold as_i64. destruct v as [| |[z|]| | |]; try done.
    destruct (checked i64 z) as [x|] eqn:Hx; [|done]. apply checked_Some in Hx as [-> Hx]. simpl.
    destruct (0 <=? z) eqn:Hz; intros [= <-]. bool_prop. unfold good_rate, is_count. simpl in *. lia. }
  destruct v; auto. by intros [= <-].
Qed.

Definition patch_good (p : UsagePatch) : Prop :=
  good_rate (up_input p) ∧ good_rate (up_output p) ∧ good_rate (up_cache_creation_5m p) ∧
  good_rate (up_cache_creation_1h p) ∧ good_rate (up_cache_read p).

Lemma parse_usage_patch_good v p : parse_usage_patch v = Ok p → patch_good p.
Proof.
  unfold parse_usage_patch. destruct (as_object v) as [m|]; [|done]. intros Hp.
  repeat match goal with
  | Hp : (_ ← optional_token ?o; _) = Ok _ |- _ =>
      let Hr := fresh "Hr" in
      destruct (optional_token o) eqn:Hr; cbn [mbind result_bind] in Hp; [|discriminate Hp];
      apply optional_token_count in Hr
  | Hp : match ?o with Some _ => _ | None => _ end = Ok _ |- _ => destruct o
  end; injection Hp as <-; by split_and!.
Qed.

Lemma default_good d o : is_count d → good_rate o → is_count (default d o).
Proof. by destruct o. Qed.

Lemma patch_apply_good p t : patch_good p → tokens_good t → tokens_good (patch_apply p t).
Proof.
  intros (? & ? & ? & ? & ?) (? & ? & ? & ? & ?). unfold tokens_good, patch_apply. cbn.
  split_and!; by apply default_good.
Qed.

Lemma tokens_default_good : tokens_good tokens_default.
Proof. unfold tokens_good, is_count. simpl. lia. Qed.

Lemma opt_filter_Some {A} (q : A → bool) o a : opt_filter q o = Some a ↔ o = Some a ∧ q a = true.
Proof.
  destruct o as [b|]; simpl; [|by split; [|intros []]]. destruct (q b) eqn:Hq.
  - split; [by intros [= <-] | by intros [? ?]].
  - split; [done | intros [[= <-] ?]; congruence].
Qed.

Lemma string_field_nonempty v f s : string_field v f = Some s → s ≠ "".
Proof. unfold string_field. rewrite opt_filter_Some. intros [_ Hs] ->. done. Qed.

Lemma set_invalid_inv p : sse_inv p → sse_inv (p <| sp_invalid := true |>).
Proof. intros (H1 & H2 & H3 & H4 & H5). by destruct p. Qed.

Lemma sse_merge_inv p u : sse_inv p → sse_inv (sse_merge_usage p u).
Proof.
  intros (H1 & H2 & H3 & H4 & H5). unfold sse_merge_usage. destruct u as [u|]; [|done].
  destruct (parse_usage_patch u) as [patch|] eqn:Hp; destruct p; simpl in *; [|done].
  apply parse_usage_patch_good in Hp. unfold sse_inv; simpl.
  split_and!; try done. by apply patch_apply_good.
Qed.

Lemma sse_event_inv p v : sse_inv p → sse_inv (sse_event p v).
Proof.
  intros Hp. unfold sse_event. destruct (vget v "type" ≫= as_str) as [kind|]; [|done].
  destruct (String.eqb kind "message_start").
  { destruct (vget v "message") as [m|]; [|by apply set_invalid_inv].
    apply sse_merge_inv. destruct Hp as (H1 & H2 & H3 & H4 & H5), p; unfold sse_inv; simpl in *.
    split_and!; try done.
    - intros x. destruct (string_field m "id") eqn:Hs; simpl; [|auto].
      intros [= <-]. by eapply string_field_nonempty.
    - intros x. destruct (string_field m "model") eqn:Hs; simpl; [|auto].
      intros [= <-]. by eapply string_field_nonempty. }
  destruct (String.eqb kind "message_delta").
  { apply sse_merge_inv. destruct (vget v "delta" ≫= stop_reason_field); by destruct p. }
  destruct (String.eqb kind "message_stop"); by destruct p.
Qed.

Lemma sse_line_inv p l : sse_inv p → sse_inv (sse_line p l).
Proof.
  intros Hp. unfold sse_line. destruct (line_data l); [|done].
  destruct (json_from_slice _).
  - apply sse_event_inv. by destruct p.
  - by apply set_invalid_inv.
Qed.

Lemma sse_clear_inv p : sse_inv p → sse_inv (p <| sp_line := "" |>).
Proof. intros (H1 & H2 & H3 & H4 & H5). destruct p; simpl in *. by split_and!. Qed.

Lemma sse_feed_bytes_inv p b : sse_inv p → sse_inv (sse_feed_bytes p b).
Proof.
  revert p. induction b as [|c b IH]; intros p Hp; [done|]. cbn [sse_feed_bytes]. cbv zeta.
  destruct (Ascii.eqb c newline).
  - assert (sse_inv ((process_line p) <| sp_line := "" |>)) by by apply sse_clear_inv, sse_line_inv.
    destruct (sse_stopped _); auto.
  - destruct (SSE_LINE_LIMIT <=? str_len (sp_line p)) eqn:Hl; bool_prop.
    + destruct Hp as (H1 & H2 & H3 & H4 & H5), p; simpl in *. by split_and!.
    + apply IH. destruct Hp as (H1 & H2 & H3 & H4 & H5), p; simpl in *. split_and!; try done. simpl.
      rewrite str_len_app. change (str_len (String c "")) with 1. lia.
Qed.

Lemma rp_feed_inv p b : rp_inv p → rp_inv (rp_feed p b).
Proof.
  destruct p as [p|p]; simpl.
  - intros (H1 & H2 & H3). unfold json_feed. destruct (jp_invalid p) eqn:Hi; [done|].
    destruct p; simpl in *. destruct (JSON_LIMIT <? _) eqn:Hl; bool_prop;
      unfold json_inv; simpl; [by split_and!|].
    split_and!; [by rewrite str_len_app | intros Ho; by specialize (H2 Ho) | done].
  - intros Hp. unfold sse_feed. destruct (sse_stopped p); [done|]. by apply sse_feed_bytes_inv.
Qed.

Lemma parse_json_response_good v u : parse_json_response v = Ok u → tokens_good (pa_tokens u).
Proof.
  unfold parse_json_response. destruct (vget v "usage") as [x|]; simpl.
  - destruct (parse_usage_patch x) as [patch|] eqn:Hp; simpl; [|done]. intros [= <-]. simpl.
    apply patch_apply_good; [by eapply parse_usage_patch_good | apply tokens_default_good].
  - intros [= <-]. simpl. apply tokens_default_good.
Qed.

Lemma rp_finish_inv p : rp_inv p → rp_inv (rp_finish p).
Proof.
  destruct p as [p|p]; simpl.
  - intros (H1 & H2 & H3). unfold json_finish.
    destruct (_ || is_empty _) eqn:Hc; [done|]. bool_prop. destruct p; simpl in *.
    destruct (json_from_slice _) as [v|]; [|done].
    destruct (parse_json_response v) as [u|] eqn:Hu; [|done]. unfold json_inv; simpl.
    split_and!; [done..|]. intros u' [= <-]. by eapply parse_json_response_good.
  - intros Hp. unfold sse_finish. destruct (_ && negb (is_empty _)); [|done].
    by apply sse_clear_inv, sse_line_inv.
Qed.

Lemma rp_parsed_good p u : rp_inv p → rp_parsed p = Some u → tokens_good (pa_tokens u).
Proof.
  destruct p as [p|p]; simpl.
  - intros (_ & _ & Hp). apply Hp.
  - intros (_ & Ht & _). unfold sse_parsed. destruct (sp_has_usage p); by intros [= <-].
Qed.

Lemma rp_feed_all_inv p chunks : rp_inv p → rp_inv (foldl rp_feed p chunks).
Proof. revert p. induction chunks; intros p Hp; simpl; auto using rp_feed_inv. Qed.

Lemma rp_default_inv :
  rp_inv (RP_Json json_parser_default) ∧ rp_inv (RP_Sse sse_parser_default).
Proof.
  split; simpl.
  - by split_and!.
  - split_and!; try done; apply tokens_default_good.
Qed.

(** However a response is cut, its parser buffers at most 16 MiB of JSON or 256 KiB of one
    event line, is invalid when it is oversize, and reports only token counts that are
    non-negative 64-bit numbers. *)
Theorem parser_bounds (is_stream : bool) (chunks : list string) :
  let start := if is_stream then RP_Sse sse_parser_default else RP_Json json_parser_default in
  let fed := foldl rp_feed start chunks in
  rp_inv fed ∧ rp_inv (rp_finish fed) ∧
  ∀ u, rp_parsed (rp_finish fed) = Some u → tokens_good (pa_tokens u).
Proof.
  intros start fed. assert (rp_inv fed) as Hf.
  { apply rp_feed_all_inv. subst start. destruct is_stream; apply rp_default_inv. }
  pose proof (rp_finish_inv _ Hf). split_and!; [done..|]. intros u. by apply rp_parsed_good.
Qed.

(** ** After the end *)

Theorem stopped_parser_is_final p :
  rp_is_invalid p = true ∨ rp_is_complete p = true →
  (∀ chunk, rp_feed p chunk = p) ∧ rp_finish p = p.
Proof.
  destruct p as [p|p]; simpl; intros Hs.
  - destruct Hs as [Hs|]; [|done]. unfold json_feed, json_finish. by rewrite Hs.
  - assert (sse_stopped p = true) as Hst.
    { unfold sse_stopped. destruct Hs as [->| ->]; [done|]. apply orb_true_r. }
    split; [|by rewrite finish_stopped]. intros chunk. unfold sse_feed. by rewrite Hst.
Qed.
End parsers.
