(* ===== verification/Usage.v ===== *)
(** * Usage: observing a response and recording its usage (src/src/service/usage.rs)

    A response is decoded, parsed and, at its end, turned into one usage event
    for the writer's bounded queue and one observation for telemetry. The
    decompressors are interfaces: a codec turns written bytes into chunks for
    its sink. Clock readings and generated identifiers are arguments. *)

From S2P Require Import Prelude Text F64 Json Http Model Pricing UsageParse.

Definition QUEUE_CAPACITY : Z := 4096.
Definition WRITE_BATCH_SIZE : Z := 128.

(** ** Attempts *)

Record UsageAttempt := mkAttempt {
  at_attempt_id : string;
  at_occurred_at_utc : DateTime;
  at_started_at : Instant;
  at_telemetry_enabled : bool;
  at_account_id : Z;
  at_api_token_id : Z;
  at_request_model : string;
  at_upstream_request_id : option string;
  at_http_status : Z;
  at_is_stream : bool;
  at_content_encoding : UsageContentEncoding;
}.

Definition attempt_begin (uuid : string) (utc : DateTime) (now : Instant)
    (account_id api_token_id : Z) (request_model : string) (is_stream : bool) : UsageAttempt :=
  mkAttempt uuid utc now false account_id api_token_id request_model None 0 is_stream CE_Identity.

Definition complete_response (a : UsageAttempt) (http_status : Z)
    (upstream_request_id : option string) (content_encoding : UsageContentEncoding) : UsageAttempt :=
  a <| at_http_status := http_status |>
    <| at_upstream_request_id := upstream_request_id |>
    <| at_content_encoding := content_encoding |>.

Record CompletedInferenceObservation := mkObservation {
  co_correlation_id : string;
  co_account_id : Z;
  co_completed_at_utc : DateTime;
  co_model : string;
  co_upstream_request_id : option string;
  co_tokens : option UsageTokens;
  co_cost_nano_usd : option Z;
  co_duration_ms : Z;
  co_ttft_ms : option Z;
  co_stop_reason : option string;
  co_http_status : Z;
  co_is_stream : bool;
  co_client_dropped : bool;
}.

(** ** Days of the Singapore calendar

    A date is its number of days from 1970-01-01. *)

Definition day_ns : Z := 24 * 3600 * 1000000000.

Definition to_i32_or_max (z : Z) : Z := default (ity_max i32) (checked i32 z).

Definition sg_day_from_utc `{Chrono} (timestamp : DateTime) : outcome Z :=
  local ← dt_add timestamp (from_secs (8 * 3600));
  Done (to_i32_or_max (local / day_ns)).

(** ** Decoders *)

(** [write] and [finish] of a push decoder: its next state, the chunks it
    hands to its sink, and whether it accepted its input. *)
Record Codec := mkCodec {
  cd_state : Type;
  cd_new : cd_state;
  cd_write : cd_state → string → cd_state * list string * bool;
  cd_finish : cd_state → cd_state * list string * bool;
}.

(** The decompressors, and whether the zstd decoder could be created. *)
Class Codecs := {
  gzip : Codec;
  zlib : Codec;
  raw_deflate : Codec;
  brotli : Codec;
  zstd : Codec;
  zstd_available : bool;
}.

Section usage.
Context `{Chrono} `{JsonText} `{Codecs}.

(** [ParserSink]: [write_all] of nothing does not reach the parser. *)
Definition sink_write (p : ResponseParser) (bytes : string) : ResponseParser * bool :=
  if is_empty bytes then (p, true)
  else let p := rp_feed p bytes in (p, negb (rp_is_invalid p)).

Fixpoint sink_write_all (p : ResponseParser) (chunks : list string) : ResponseParser * bool :=
  match chunks with
  | [] => (p, true)
  | c :: cs => let '(p, ok) := sink_write p c in if ok then sink_write_all p cs else (p, false)
  end.

(** A codec over a parser. After an error the decoder is not used again. *)
Definition codec_write (c : Codec) (d : cd_state c) (p : ResponseParser) (bytes : string)
    : cd_state c * ResponseParser * bool :=
  if is_empty bytes then (d, p, true)
  else
    let '(d, chunks, ok) := cd_write c d bytes in
    let '(p, sunk) := sink_write_all p chunks in (d, p, ok && sunk).

Definition codec_finish (c : Codec) (d : cd_state c) (p : ResponseParser)
    : cd_state c * ResponseParser * bool :=
  let '(d, chunks, ok) := cd_finish c d in
  let '(p, sunk) := sink_write_all p chunks in (d, p, ok && sunk).

Inductive DeflateDecoderState :=
  | DS_Pending (prefix : string) (p : ResponseParser)
  | DS_Zlib (d : cd_state zlib) (p : ResponseParser)
  | DS_Raw (d : cd_state raw_deflate) (p : ResponseParser).

Definition deflate_parser (s : DeflateDecoderState) : ResponseParser :=
  match s with DS_Pending _ p | DS_Zlib _ p | DS_Raw _ p => p end.

Definition deflate_with_parser (s : DeflateDecoderState) (p : ResponseParser) : DeflateDecoderState :=
  match s with
  | DS_Pending prefix _ => DS_Pending prefix p
  | DS_Zlib d _ => DS_Zlib d p
  | DS_Raw d _ => DS_Raw d p
  end.

(** The two-byte header of RFC 1950. *)
Definition is_zlib_header (prefix : string) : bool :=
  match prefix with
  | String a (String b _) =>
      (Z.land (byte_val a) 15 =? 8) && (Z.shiftr (byte_val a) 4 <=? 7)
      && ((byte_val a * 256 + byte_val b) mod 31 =? 0)
  | _ => false
  end.

Definition deflate_write (s : DeflateDecoderState) (bytes : string) : DeflateDecoderState * bool :=
  match s with
  | DS_Zlib d p => let '(d, p, ok) := codec_write zlib d p bytes in (DS_Zlib d p, ok)
  | DS_Raw d p => let '(d, p, ok) := codec_write raw_deflate d p bytes in (DS_Raw d p, ok)
  | DS_Pending _ _ => (s, true)
  end.

(** The first two bytes decide between zlib and raw deflate. *)
Definition deflate_feed (s : DeflateDecoderState) (bytes : string) : DeflateDecoderState * bool :=
  match s with
  | DS_Pending prefix p =>
      let needed := (2 - String.length prefix)%nat in
      let consumed := Nat.min needed (String.length bytes) in
      let prefix := prefix +:+ String.substring 0 consumed bytes in
      let rest := String.substring consumed (String.length bytes - consumed) bytes in
      if str_len prefix <? 2 then (DS_Pending prefix p, true)
      else
        let s := if is_zlib_header prefix then DS_Zlib (cd_new zlib) p
                 else DS_Raw (cd_new raw_deflate) p in
        let '(s, ok) := deflate_write s prefix in
        if ok then deflate_write s rest else (s, false)
  | _ => deflate_write s bytes
  end.

Definition deflate_finish (s : DeflateDecoderState) : DeflateDecoderState * bool :=
  match s with
  | DS_Pending _ _ => (s, false)
  | DS_Zlib d p => let '(d, p, ok) := codec_finish zlib d p in (DS_Zlib d p, ok)
  | DS_Raw d p => let '(d, p, ok) := codec_finish raw_deflate d p in (DS_Raw d p, ok)
  end.

Inductive Decoder :=
  | D_Identity (p : ResponseParser)
  | D_Gzip (d : cd_state gzip) (p : ResponseParser)
  | D_Deflate (s : DeflateDecoderState)
  | D_Brotli (d : cd_state brotli) (p : ResponseParser)
  | D_Zstd (d : cd_state zstd) (p : ResponseParser).

Definition decoder_parser (d : Decoder) : ResponseParser :=
  match d with
  | D_Identity p | D_Gzip _ p | D_Brotli _ p | D_Zstd _ p => p
  | D_Deflate s => deflate_parser s
  end.

Definition decoder_with_parser (d : Decoder) (p : ResponseParser) : Decoder :=
  match d with
  | D_Identity _ => D_Identity p
  | D_Gzip d _ => D_Gzip d p
  | D_Deflate s => D_Deflate (deflate_with_parser s p)
  | D_Brotli d _ => D_Brotli d p
  | D_Zstd d _ => D_Zstd d p
  end.

Definition decoder_feed (d : Decoder) (bytes : string) : Decoder * bool :=
  match d with
  | D_Identity p => let '(p, ok) := sink_write p bytes in (D_Identity p, ok)
  | D_Gzip d p => let '(d, p, ok) := codec_write gzip d p bytes in (D_Gzip d p, ok)
  | D_Deflate s => let '(s, ok) := deflate_feed s bytes in (D_Deflate s, ok)
  | D_Brotli d p => let '(d, p, ok) := codec_write brotli d p bytes in (D_Brotli d p, ok)
  | D_Zstd d p => let '(d, p, ok) := codec_write zstd d p bytes in (D_Zstd d p, ok)
  end.

Definition decoder_finish (d : Decoder) : Decoder * bool :=
  match d with
  | D_Identity _ => (d, true)
  | D_Gzip d p => let '(d, p, ok) := codec_finish gzip d p in (D_Gzip d p, ok)
  | D_Deflate s => let '(s, ok) := deflate_finish s in (D_Deflate s, ok)
  | D_Brotli d p => let '(d, p, ok) := codec_finish brotli d p in (D_Brotli d p, ok)
  | D_Zstd d p => let '(d, p, ok) := codec_finish zstd d p in (D_Zstd d p, ok)
  end.

(** ** Encoded parsers *)

Record EncodedResponseParser := mkEncoded {
  ep_decoder : Decoder;
  ep_decode_failed : bool;
  ep_requires_terminal_validation : bool;
}.

Definition encoded_new (parser : ResponseParser) (encoding : UsageContentEncoding)
    : EncodedResponseParser :=
  let '(decoder, decode_failed) :=
    match encoding with
    | CE_Identity => (D_Identity parser, false)
    | CE_Gzip => (D_Gzip (cd_new gzip) parser, false)
    | CE_Deflate => (D_Deflate (DS_Pending "" parser), false)
    | CE_Brotli => (D_Brotli (cd_new brotli) parser, false)
    | CE_Zstd =>
        if zstd_available then (D_Zstd (cd_new zstd) parser, false)
        else (D_Identity (RP_Json json_parser_default), true)
    | CE_Unsupported => (D_Identity parser, true)
    end in
  mkEncoded decoder decode_failed (bool_decide (encoding ≠ CE_Identity)).

Definition encoded_feed (e : EncodedResponseParser) (bytes : string) : EncodedResponseParser :=
  if ep_decode_failed e then e
  else
    let '(d, ok) := decoder_feed (ep_decoder e) bytes in
    mkEncoded d (negb ok) (ep_requires_terminal_validation e).

Definition encoded_finish (e : EncodedResponseParser) (allow_incomplete_transport : bool)
    : EncodedResponseParser :=
  let usage_observed := opt_is_some (rp_parsed (decoder_parser (ep_decoder e))) in
  let e :=
    if ep_decode_failed e then e
    else
      let '(d, ok) := decoder_finish (ep_decoder e) in
      mkEncoded d (negb ok && negb (allow_incomplete_transport && usage_observed))
        (ep_requires_terminal_validation e) in
  if ep_decode_failed e then e
  else e <| ep_decoder := decoder_with_parser (ep_decoder e)
                            (rp_finish (decoder_parser (ep_decoder e))) |>.

Definition encoded_parsed (e : EncodedResponseParser) : option ParsedUsage :=
  rp_parsed (decoder_parser (ep_decoder e)).
Definition encoded_is_complete (e : EncodedResponseParser) : bool :=
  negb (ep_decode_failed e) && rp_is_complete (decoder_parser (ep_decoder e)).
Definition can_finalize_early (e : EncodedResponseParser) : bool :=
  negb (ep_requires_terminal_validation e).
Definition encoded_is_invalid (e : EncodedResponseParser) : bool :=
  ep_decode_failed e || rp_is_invalid (decoder_parser (ep_decoder e)).
Definition encoded_is_oversize (e : EncodedResponseParser) : bool :=
  rp_is_oversize (decoder_parser (ep_decoder e)).

(** ** The service *)

Record UsageHealthCounters := mkHealth {
  hc_observed : Z;
  hc_persisted : Z;
  hc_duplicate : Z;
  hc_queue_dropped : Z;
  hc_write_failed : Z;
  hc_parse_failed : Z;
  hc_parse_oversize : Z;
}.

Definition health_default : UsageHealthCounters := mkHealth 0 0 0 0 0 0 0.

(** The two bounded channels are the lists of what waits in them; the audit
    gets one note per dropped observation. *)
Record UsageService := mkService {
  sv_pricing : PricingEngine;
  sv_queue : list UsageEvent;
  sv_closed : bool;
  sv_has_completion : bool;
  sv_completion_capacity : Z;
  sv_completions : list CompletedInferenceObservation;
  sv_audit_dropped : list Z;
  sv_health : UsageHealthCounters;
}.

(** [fetch_add] on an [AtomicU64] wraps. *)
Definition u64_add (a b : Z) : Z := wrap u64 (a + b).

Definition send_completion (s : UsageService) (observation : CompletedInferenceObservation)
    (enabled : bool) : UsageService :=
  if negb enabled || negb (sv_has_completion s) then s
  else if Z.of_nat (length (sv_completions s)) <? sv_completion_capacity s
  then s <| sv_completions := sv_completions s ++ [observation] |>
  else s <| sv_audit_dropped := sv_audit_dropped s ++ [co_account_id observation] |>.

Definition event_dedup_key (parsed : ParsedUsage) (attempt : UsageAttempt) : string :=
  match pa_message_id parsed with
  | Some message_id => "anthropic:message:" +:+ message_id
  | None =>
      match at_upstream_request_id attempt with
      | Some request_id => "anthropic:request:" +:+ request_id
      | None => "attempt:" +:+ at_attempt_id attempt
      end
  end.

(** [as_millis] of a duration, as [i64]. *)
Definition millis_i64 (d : Duration) : Z := default (ity_max i64) (checked i64 (d / 1000000)).

(** The readings of the two clocks. *)
Record SubmitClock := mkSubmitClock { sc_utc : DateTime; sc_now : Instant }.

Definition ttft (attempt : UsageAttempt) (first_byte_at : option Instant) : option Z :=
  (λ instant, millis_i64 (elapsed instant (at_started_at attempt))) <$> first_byte_at.

Definition usage_model (attempt : UsageAttempt) (parsed : ParsedUsage) : string :=
  default (at_request_model attempt)
    (opt_filter (λ m, negb (is_empty (trim m))) (pa_model parsed)).

Definition usage_event (attempt : UsageAttempt) (parsed : ParsedUsage) (priced : PricedUsage)
    (sg_day : Z) : UsageEvent := {|
  ue_dedup_key := event_dedup_key parsed attempt;
  ue_upstream_message_id := pa_message_id parsed;
  ue_upstream_request_id := at_upstream_request_id attempt;
  ue_occurred_at_utc := at_occurred_at_utc attempt;
  ue_sg_day := sg_day;
  ue_account_id := at_account_id attempt;
  ue_api_token_id := at_api_token_id attempt;
  ue_model := usage_model attempt parsed;
  ue_tokens := pa_tokens parsed;
  ue_costs := pd_costs priced;
  ue_pricing_version := pd_pricing_version priced;
  ue_pricing_model_key := pd_pricing_model_key priced;
  ue_http_status := at_http_status attempt;
  ue_is_stream := at_is_stream attempt;
|}.

(** [try_send] into the writer's queue. *)
Definition try_send (s : UsageService) (event : UsageEvent) : UsageService :=
  if sv_closed s || (QUEUE_CAPACITY <=? Z.of_nat (length (sv_queue s))) then
    let h := sv_health s in
    s <| sv_health := h <| hc_queue_dropped := u64_add (hc_queue_dropped h) 1 |> |>
  else s <| sv_queue := sv_queue s ++ [event] |>.

Definition submit (s : UsageService) (attempt : UsageAttempt) (parsed : ParsedUsage)
    (client_dropped : bool) (first_byte_at : option Instant) (c : SubmitClock)
    : outcome UsageService :=
  if negb (pa_has_usage parsed) then Done s
  else
    let model := usage_model attempt parsed in
    let priced := price (sv_pricing s) model (pa_tokens parsed) in
    let completion := {|
      co_correlation_id := at_attempt_id attempt;
      co_account_id := at_account_id attempt;
      co_completed_at_utc := sc_utc c;
      co_model := model;
      co_upstream_request_id := at_upstream_request_id attempt;
      co_tokens := Some (pa_tokens parsed);
      co_cost_nano_usd := if uc_complete (pd_costs priced)
                          then Some (uc_known_nano_usd (pd_costs priced)) else None;
      co_duration_ms := millis_i64 (elapsed (sc_now c) (at_started_at attempt));
      co_ttft_ms := ttft attempt first_byte_at;
      co_stop_reason := pa_stop_reason parsed;
      co_http_status := at_http_status attempt;
      co_is_stream := at_is_stream attempt;
      co_client_dropped := client_dropped |} in
    sg_day ← sg_day_from_utc (at_occurred_at_utc attempt);
    let event := usage_event attempt parsed priced sg_day in
    let s := send_completion s completion (at_telemetry_enabled attempt) in
    let h := sv_health s in
    let s := s <| sv_health := h <| hc_observed := u64_add (hc_observed h) 1 |> |> in
    Done (try_send s event).

Definition complete_without_usage (s : UsageService) (attempt : UsageAttempt)
    (client_dropped : bool) (first_byte_at : option Instant) (c : SubmitClock) : UsageService :=
  send_completion s {|
    co_correlation_id := at_attempt_id attempt;
    co_account_id := at_account_id attempt;
    co_completed_at_utc := sc_utc c;
    co_model := at_request_model attempt;
    co_upstream_request_id := at_upstream_request_id attempt;
    co_tokens := None;
    co_cost_nano_usd := None;
    co_duration_ms := millis_i64 (elapsed (sc_now c) (at_started_at attempt));
    co_ttft_ms := ttft attempt first_byte_at;
    co_stop_reason := None;
    co_http_status := at_http_status attempt;
    co_is_stream := at_is_stream attempt;
    co_client_dropped := client_dropped |} (at_telemetry_enabled attempt).

Definition record_parse_failure (s : UsageService) (oversize : bool) : UsageService :=
  let h := sv_health s in
  s <| sv_health :=
    if oversize then h <| hc_parse_oversize := u64_add (hc_parse_oversize h) 1 |>
    else h <| hc_parse_failed := u64_add (hc_parse_failed h) 1 |> |>.

(** ** The observer of one response *)

(** What is told to the performance handle, when there is one. *)
Inductive PerfCall := PC_Bytes (bytes : string) | PC_ParseFailed.

Record ResponseObserver := mkObserver {
  ob_attempt : option UsageAttempt;
  ob_parser : EncodedResponseParser;
  ob_first_byte_at : option Instant;
  ob_performance : bool;
  ob_perf_calls : list PerfCall;
}.

Definition observer_new (attempt : UsageAttempt) (performance : bool) : ResponseObserver :=
  let response_parser :=
    if at_is_stream attempt then RP_Sse sse_parser_default else RP_Json json_parser_default in
  mkObserver (Some attempt) (encoded_new response_parser (at_content_encoding attempt)) None
    performance [].

Definition perf_call (o : ResponseObserver) (call : PerfCall) : ResponseObserver :=
  if ob_performance o then o <| ob_perf_calls := ob_perf_calls o ++ [call] |> else o.

Definition finalize (o : ResponseObserver) (s : UsageService) (terminal client_dropped : bool)
    (c : SubmitClock) : outcome (ResponseObserver * UsageService) :=
  let taken := o <| ob_attempt := None |> in
  let without_usage s :=
    match ob_attempt o with
    | Some attempt =>
        (taken, complete_without_usage s attempt client_dropped (ob_first_byte_at o) c)
    | None => (o, s)
    end in
  if encoded_is_invalid (ob_parser o) then
    match ob_attempt o with
    | Some attempt =>
        Done (without_usage (record_parse_failure s (encoded_is_oversize (ob_parser o))))
    | None => Done (o, s)
    end
  else
    match encoded_parsed (ob_parser o) with
    | Some parsed =>
        if pa_has_usage parsed && (terminal || encoded_is_complete (ob_parser o)) then
          match ob_attempt o with
          | Some attempt =>
              s ← submit s attempt parsed client_dropped (ob_first_byte_at o) c;
              Done (taken, s)
          | None => Done (o, s)
          end
        else if terminal then Done (without_usage s) else Done (o, s)
    | None => if terminal then Done (without_usage s) else Done (o, s)
    end.

Definition observer_idle (o : ResponseObserver) : bool :=
  opt_is_none (ob_attempt o) && negb (ob_performance o).

Definition note_parse_failure (o : ResponseObserver) : ResponseObserver :=
  if encoded_is_invalid (ob_parser o) then perf_call o PC_ParseFailed else o.

Definition observer_feed (o : ResponseObserver) (s : UsageService) (bytes : string)
    (c : SubmitClock) : outcome (ResponseObserver * UsageService) :=
  if observer_idle o then Done (o, s)
  else
    let o := if negb (is_empty bytes) && opt_is_none (ob_first_byte_at o)
             then o <| ob_first_byte_at := Some (sc_now c) |> else o in
    let o := perf_call o (PC_Bytes bytes) in
    let o := o <| ob_parser := encoded_feed (ob_parser o) bytes |> in
    let o := note_parse_failure o in
    if encoded_is_complete (ob_parser o) && can_finalize_early (ob_parser o)
    then finalize o s false false c
    else Done (o, s).

Definition observer_finish (o : ResponseObserver) (s : UsageService) (client_dropped : bool)
    (c : SubmitClock) : outcome (ResponseObserver * UsageService) :=
  if observer_idle o then Done (o, s)
  else
    let o := o <| ob_parser := encoded_finish (ob_parser o) client_dropped |> in
    finalize (note_parse_failure o) s true client_dropped c.

(** ** The observed stream *)

(** What polling the inner stream gives, and the dropping of the stream. *)
Inductive StreamStep := SS_Chunk (bytes : string) | SS_Pending | SS_Error | SS_End | SS_Drop.

(** [None] once the observer is taken. *)
Definition stream_step (o : option ResponseObserver) (s : UsageService) (step : StreamStep)
    (c : SubmitClock) : outcome (option ResponseObserver * UsageService) :=
  match o with
  | None => Done (None, s)
  | Some o =>
      match step with
      | SS_Chunk bytes => '(o, s) ← observer_feed o s bytes c; Done (Some o, s)
      | SS_Pending => Done (Some o, s)
      | SS_Error | SS_End => '(_, s) ← observer_finish o s false c; Done (None, s)
      | SS_Drop => '(_, s) ← observer_finish o s true c; Done (None, s)
      end
  end.

Fixpoint stream_run (o : option ResponseObserver) (s : UsageService)
    (steps : list (StreamStep * SubmitClock)) : outcome (option ResponseObserver * UsageService) :=
  match steps with
  | [] => Done (o, s)
  | (step, c) :: steps => '(o, s) ← stream_step o s step c; stream_run o s steps
  end.
End usage.
