(* ===== verification/UsageFacts.v ===== *)
(** * UsageFacts: the theorems on observing a response

    A response is recorded exactly once, however it is chunked and however it
    ends; what is recorded carries counts; the writer's queue is bounded. *)

From S2P Require Import Prelude Text F64 Json Http Model Pricing PricingFacts.
From S2P Require Import UsageParse UsageParseFacts Usage.

(** ** Specification *)

(** The one record of a response: its usage, or its end without usage, after a
    note when the response could not be read. *)
Inductive Recorded `{Chrono} `{JsonText} (s : UsageService) (attempt : UsageAttempt)
    : UsageService → Prop :=
  | R_usage parsed dropped first c s' :
      pa_has_usage parsed = true → tokens_good (pa_tokens parsed) →
      submit s attempt parsed dropped first c = Done s' → Recorded s attempt s'
  | R_none dropped first c :
      Recorded s attempt (complete_without_usage s attempt dropped first c)
  | R_unreadable oversize dropped first c :
      Recorded s attempt
        (complete_without_usage (record_parse_failure s oversize) attempt dropped first c).

Definition queue_bounded (s : UsageService) : Prop :=
  Z.of_nat (length (sv_queue s)) ≤ QUEUE_CAPACITY.

Definition encoded_inv `{Codecs} (e : EncodedResponseParser) : Prop :=
  rp_inv (decoder_parser (ep_decoder e)).

(** Before the record, the attempt is held and the service is untouched;
    after it, the attempt is gone. *)
Definition recorded_once `{Chrono} `{JsonText} `{Codecs} (s0 : UsageService)
    (attempt : UsageAttempt) (o : option ResponseObserver) (s : UsageService) : Prop :=
  (s = s0 ∧ ∃ ob, o = Some ob ∧ ob_attempt ob = Some attempt ∧ encoded_inv (ob_parser ob)) ∨
  (Recorded s0 attempt s ∧ ∀ ob, o = Some ob → ob_attempt ob = None).

Section usage.
Context `{Chrono} `{JsonText} `{Codecs}.

(** ** The parser behind a decoder keeps its invariant *)

Lemma sink_write_inv p b : rp_inv p → rp_inv (sink_write p b).1.
Proof. intros Hp. unfold sink_write. destruct (is_empty b); simpl; auto using rp_feed_inv. Qed.

Lemma sink_write_all_inv p cs : rp_inv p → rp_inv (sink_write_all p cs).1.
Proof.
  revert p. induction cs as [|c cs IH]; intros p Hp; simpl; [done|].
  pose proof (sink_write_inv p c Hp). destruct (sink_write p c) as [p' []]; simpl in *; auto.
Qed.

Lemma codec_write_inv c d p b : rp_inv p → rp_inv (codec_write c d p b).1.2.
Proof.
  intros Hp. unfold codec_write. destruct (is_empty b); [done|].
  destruct (cd_write c d b) as [[d' cs] ok]. pose proof (sink_write_all_inv p cs Hp).
  by destruct (sink_write_all p cs).
Qed.

Lemma codec_finish_inv c d p : rp_inv p → rp_inv (codec_finish c d p).1.2.
Proof.
  intros Hp. unfold codec_finish. destruct (cd_finish c d) as [[d' cs] ok].
  pose proof (sink_write_all_inv p cs Hp). by destruct (sink_write_all p cs).
Qed.

Lemma deflate_write_inv s b :
  rp_inv (deflate_parser s) → rp_inv (deflate_parser (deflate_write s b).1).
Proof.
  intros Hs. destruct s as [|d p|d p]; simpl in *; [done| |].
  - pose proof (codec_write_inv zlib d p b Hs). by destruct (codec_write zlib d p b) as [[? ?] ?].
  - pose proof (codec_write_inv raw_deflate d p b Hs).
    by destruct (codec_write raw_deflate d p b) as [[? ?] ?].
Qed.

Lemma deflate_feed_inv s b :
  rp_inv (deflate_parser s) → rp_inv (deflate_parser (deflate_feed s b).1).
Proof.
  intros Hs. destruct s as [prefix p|d p|d p]; [|by apply deflate_write_inv..].
  unfold deflate_feed. set (pre := prefix +:+ _). set (rest := String.substring _ _ _).
  destruct (str_len pre <? 2); [done|].
  set (s1 := if is_zlib_header pre then _ else _).
  assert (rp_inv (deflate_parser s1)) as H1' by (subst s1; by destruct (is_zlib_header pre)).
  pose proof (deflate_write_inv s1 pre H1') as H2'.
  destruct (deflate_write s1 pre) as [s2 []]; [by apply deflate_write_inv | done].
Qed.

Lemma decoder_feed_inv d b :
  rp_inv (decoder_parser d) → rp_inv (decoder_parser (decoder_feed d b).1).
Proof.
  intros Hd. destruct d as [p|d p|s|d p|d p]; simpl in *.
  - pose proof (sink_write_inv p b Hd). by destruct (sink_write p b).
  - pose proof (codec_write_inv gzip d p b Hd). by destruct (codec_write gzip d p b) as [[? ?] ?].
  - pose proof (deflate_feed_inv s b Hd). by destruct (deflate_feed s b).
  - pose proof (codec_write_inv brotli d p b Hd). by destruct (codec_write brotli d p b) as [[? ?] ?].
  - pose proof (codec_write_inv zstd d p b Hd). by destruct (codec_write zstd d p b) as [[? ?] ?].
Qed.

Lemma decoder_finish_inv d :
  rp_inv (decoder_parser d) → rp_inv (decoder_parser (decoder_finish d).1).
Proof.
  intros Hd. destruct d as [p|d p|s|d p|d p]; simpl in *; [done|..].
  - pose proof (codec_finish_inv gzip d p Hd). by destruct (codec_finish gzip d p) as [[? ?] ?].
  - destruct s as [|d p|d p]; simpl in *; [done| |].
    + pose proof (codec_finish_inv zlib d p Hd). by destruct (codec_finish zlib d p) as [[? ?] ?].
    + pose proof (codec_finish_inv raw_deflate d p Hd).
      by destruct (codec_finish raw_deflate d p) as [[? ?] ?].
  - pose proof (codec_finish_inv brotli d p Hd). by destruct (codec_finish brotli d p) as [[? ?] ?].
  - pose proof (codec_finish_inv zstd d p Hd). by destruct (codec_finish zstd d p) as [[? ?] ?].
Qed.

Lemma decoder_with_parser_get d p : decoder_parser (decoder_with_parser d p) = p.
Proof. destruct d as [| |[]| |]; done. Qed.

Lemma encoded_feed_inv e b : encoded_inv e → encoded_inv (encoded_feed e b).
Proof.
  unfold encoded_inv, encoded_feed. intros He. destruct (ep_decode_failed e); [done|].
  pose proof (decoder_feed_inv (ep_decoder e) b He). by destruct (decoder_feed _ b).
Qed.

Lemma encoded_finish_inv e a : encoded_inv e → encoded_inv (encoded_finish e a).
Proof.
  unfold encoded_inv, encoded_finish. intros He.
  set (e1 := if ep_decode_failed e then e else _).
  assert (rp_inv (decoder_parser (ep_decoder e1))) as H1'.
  { subst e1. destruct (ep_decode_failed e); [done|].
    pose proof (decoder_finish_inv (ep_decoder e) He). by destruct (decoder_finish _). }
  destruct (ep_decode_failed e1); [done|]. clearbody e1. destruct e1; simpl in *.
  rewrite decoder_with_parser_get. by apply rp_finish_inv.
Qed.

Lemma encoded_new_inv p enc : rp_inv p → encoded_inv (encoded_new p enc).
Proof.
  intros Hp. destruct enc; try done. unfold encoded_new, encoded_inv.
  destruct zstd_available; [done | apply rp_default_inv].
Qed.

(** ** Once *)

Lemma set_attempt_none o : ob_attempt (o <| ob_attempt := None |>) = None.
Proof. by destruct o. Qed.

Lemma finalize_recorded s attempt o terminal dropped c o' s' :
  ob_attempt o = Some attempt → encoded_inv (ob_parser o) →
  finalize o s terminal dropped c = Done (o', s') →
  (s' = s ∧ o' = o ∧ terminal = false) ∨ (Recorded s attempt s' ∧ ob_attempt o' = None).
Proof.
  intros Ha Hi. unfold finalize. rewrite Ha.
  destruct (encoded_is_invalid _).
  { intros [= <- <-]. right. split; [apply R_unreadable | apply set_attempt_none]. }
  assert (∀ b : bool, b = terminal →
    (if b then Done (o <| ob_attempt := None |>,
       complete_without_usage s attempt dropped (ob_first_byte_at o) c) else Done (o, s))
    = Done (o', s') →
    (s' = s ∧ o' = o ∧ terminal = false) ∨ (Recorded s attempt s' ∧ ob_attempt o' = None)) as Hend.
  { intros [] <- [= <- <-]; [right | by left].
    split; [apply R_none | apply set_attempt_none]. }
  destruct (encoded_parsed (ob_parser o)) as [parsed|] eqn:Hp; [|by apply Hend].
  destruct (pa_has_usage parsed && _) eqn:Hu; [|by apply Hend].
  destruct (submit _ _ _ _ _ _) as [s1|] eqn:Hs; [|done]. intros [= <- <-]. bool_prop. right.
  split; [|apply set_attempt_none]. eapply R_usage; [done| |done].
  by eapply rp_parsed_good.
Qed.

Lemma finalize_idle s o terminal dropped c :
  ob_attempt o = None → finalize o s terminal dropped c = Done (o, s).
Proof. intros Ha. unfold finalize. rewrite Ha. by repeat case_match. Qed.

(** What the handlers do before they finalize keeps the attempt. *)
Lemma perf_call_attempt o call : ob_attempt (perf_call o call) = ob_attempt o.
Proof. unfold perf_call. destruct (ob_performance o); by destruct o. Qed.

Lemma perf_call_parser o call : ob_parser (perf_call o call) = ob_parser o.
Proof. unfold perf_call. destruct (ob_performance o); by destruct o. Qed.

Lemma note_attempt o : ob_attempt (note_parse_failure o) = ob_attempt o.
Proof. unfold note_parse_failure. destruct (encoded_is_invalid _); [apply perf_call_attempt|done]. Qed.

Lemma note_parser o : ob_parser (note_parse_failure o) = ob_parser o.
Proof. unfold note_parse_failure. destruct (encoded_is_invalid _); [apply perf_call_parser|done]. Qed.

Lemma set_parser_get o p : ob_parser (o <| ob_parser := p |>) = p.
Proof. by destruct o. Qed.

Lemma set_parser_attempt o p : ob_attempt (o <| ob_parser := p |>) = ob_attempt o.
Proof. by destruct o. Qed.

(** The state in which [observer_feed] decides. *)
Definition fed (o : ResponseObserver) (bytes : string) (c : SubmitClock) : ResponseObserver :=
  let o := if negb (is_empty bytes) && opt_is_none (ob_first_byte_at o)
           then o <| ob_first_byte_at := Some (sc_now c) |> else o in
  let o := perf_call o (PC_Bytes bytes) in
  note_parse_failure (o <| ob_parser := encoded_feed (ob_parser o) bytes |>).

Lemma fed_attempt o b c : ob_attempt (fed o b c) = ob_attempt o.
Proof.
  unfold fed. rewrite note_attempt, set_parser_attempt, perf_call_attempt.
  destruct (_ && _); by destruct o.
Qed.

Lemma fed_inv o b c : encoded_inv (ob_parser o) → encoded_inv (ob_parser (fed o b c)).
Proof.
  intros Ho. unfold fed. rewrite note_parser, set_parser_get, perf_call_parser.
  apply encoded_feed_inv. destruct (_ && _); by destruct o.
Qed.

Lemma observer_feed_eq o s b c :
  observer_feed o s b c =
    if observer_idle o then Done (o, s)
    else if encoded_is_complete (ob_parser (fed o b c)) && can_finalize_early (ob_parser (fed o b c))
    then finalize (fed o b c) s false false c else Done (fed o b c, s).
Proof. done. Qed.

Lemma stream_step_once s0 attempt o s step c o' s' :
  recorded_once s0 attempt o s → stream_step o s step c = Done (o', s') →
  recorded_once s0 attempt o' s' ∧
  (step = SS_Error ∨ step = SS_End ∨ step = SS_Drop → o' = None).
Proof.
  intros Hr Hs. destruct o as [o|]; simpl in Hs; [|simplify_eq; by split].
  assert (∀ dropped, match observer_finish o s dropped c with
    | Done (_, s1) => recorded_once s0 attempt None s1 | Panic => True end) as Hfin.
  { intros dropped. unfold observer_finish.
    set (o1 := note_parse_failure _).
    assert (ob_attempt o1 = ob_attempt o) as A1
      by (subst o1; by rewrite note_attempt, set_parser_attempt).
    assert (encoded_inv (ob_parser o) → encoded_inv (ob_parser o1)) as I1.
    { intros Ho. subst o1. rewrite note_parser, set_parser_get. by apply encoded_finish_inv. }
    clearbody o1. destruct Hr as [(-> & ob & [= <-] & Ha & Hi)|[Hrec Hn]].
    - unfold observer_idle. rewrite Ha. simpl.
      destruct (finalize o1 s0 true dropped c) as [[o2 s2]|] eqn:Hf; [|done].
      destruct (finalize_recorded s0 attempt o1 true dropped c o2 s2) as [(_ & _ & ?)|[? ?]];
        [congruence | auto | done | done | by right].
    - destruct (observer_idle o); [by right|].
      rewrite finalize_idle by (rewrite A1; by apply Hn). by right. }
  destruct step as [bytes| | | |].
  - rewrite observer_feed_eq in Hs. split; [|by intros [?|[?|?]]].
    destruct Hr as [(-> & ob & [= <-] & Ha & Hi)|[Hrec Hn]].
    + unfold observer_idle in Hs. rewrite Ha in Hs. simpl in Hs.
      pose proof (fed_attempt o bytes c) as A1. pose proof (fed_inv o bytes c Hi) as I1.
      destruct (_ && can_finalize_early _).
      * destruct (finalize (fed o bytes c) s0 false false c) as [[o2 s2]|] eqn:Hf; simplify_eq/=.
        destruct (finalize_recorded s0 attempt (fed o bytes c) false false c o2 s')
          as [(-> & -> & _)|[? ?]]; [congruence | done | done | |].
        -- left. split; [done|]. eexists. split_and!; [done|congruence|done].
        -- right. split; [done|]. by intros ? [= <-].
      * simplify_eq/=. left. split; [done|]. eexists. split_and!; [done|congruence|done].
    + specialize (Hn o eq_refl). right.
      destruct (observer_idle o); [simplify_eq/=; split; [done | by intros ? [= <-]]|].
      assert (ob_attempt (fed o bytes c) = None) as A1 by by rewrite fed_attempt.
      rewrite (finalize_idle s (fed o bytes c)) in Hs by done.
      destruct (_ && _); simplify_eq/=; (split; [done | by intros ? [= <-]]).
  - simplify_eq/=. split; [done | by intros [?|[?|?]]].
  - specialize (Hfin false). destruct (observer_finish _ _ _ _) as [[? ?]|]; by simplify_eq/=.
  - specialize (Hfin false). destruct (observer_finish _ _ _ _) as [[? ?]|]; by simplify_eq/=.
  - specialize (Hfin true). destruct (observer_finish _ _ _ _) as [[? ?]|]; by simplify_eq/=.
Qed.

Lemma stream_run_once s0 attempt steps o s o' s' :
  recorded_once s0 attempt o s → stream_run o s steps = Done (o', s') →
  recorded_once s0 attempt o' s'.
Proof.
  revert o s. induction steps as [|[step c] steps IH]; intros o s Hr Hs; simpl in Hs; [by simplify_eq|].
  destruct (stream_step o s step c) as [[o1 s1]|] eqn:H1'; simplify_eq/=.
  eapply IH; [|done]. by eapply stream_step_once.
Qed.

Lemma observer_new_once s attempt perf :
  recorded_once s attempt (Some (observer_new attempt perf)) s.
Proof.
  left. split; [done|]. eexists. split_and!; [done..|]. simpl. apply encoded_new_inv.
  destruct (at_is_stream attempt); apply rp_default_inv.
Qed.

Lemma stream_gone s steps o' s' : stream_run None s steps = Done (o', s') → o' = None ∧ s' = s.
Proof.
  induction steps as [|[step c] steps IH]; simpl; [by intros [= <- <-]|]. exact IH.
Qed.

(** C3: Whatever chunks, pauses and ends an observed response stream goes through, once it
    ended, failed or was dropped its inference attempt has been recorded exactly once (its
    usage, or its end without usage), and anything polled later records nothing more. *)
Theorem recorded_exactly_once s attempt perf steps final c more o' s' :
  final = SS_Error ∨ final = SS_End ∨ final = SS_Drop →
  stream_run (Some (observer_new attempt perf)) s (steps ++ (final, c) :: more) = Done (o', s') →
  o' = None ∧ Recorded s attempt s'.
Proof.
  intros Hfinal. pose proof (observer_new_once s attempt perf) as Hr. revert Hr.
  generalize (Some (observer_new attempt perf)) as o. generalize s at 2 3 as s1.
  intros s1 o. revert o s1. induction steps as [|[step c'] steps IH]; intros o s1 Hr Hs; simpl in Hs.
  - destruct (stream_step o s1 final c) as [[o2 s2]|] eqn:H1'; [|done]. simpl in Hs.
    destruct (stream_step_once _ _ _ _ _ _ _ _ Hr H1') as [Hr2 Hn].
    rewrite (Hn Hfinal) in Hs, Hr2. apply stream_gone in Hs as [-> ->].
    split; [done|]. by destruct Hr2 as [(_ & ob & ? & _)|[? _]].
  - destruct (stream_step o s1 step c') as [[o2 s2]|] eqn:H1'; [|done]. simpl in Hs.
    eapply IH; [|done]. by eapply stream_step_once.
Qed.

(** ** What a record changes *)

Lemma send_completion_queue s ob b :
  sv_queue (send_completion s ob b) = sv_queue s ∧ sv_health (send_completion s ob b) = sv_health s
  ∧ sv_closed (send_completion s ob b) = sv_closed s.
Proof. unfold send_completion. destruct s; simpl. by repeat case_match. Qed.

Lemma submit_queue s attempt parsed dropped first c s' :
  submit s attempt parsed dropped first c = Done s' → pa_has_usage parsed = true →
  (∃ e, ue_dedup_key e = event_dedup_key parsed attempt ∧ ue_tokens e = pa_tokens parsed ∧
     ue_costs e = pd_costs (price (sv_pricing s) (usage_model attempt parsed) (pa_tokens parsed)) ∧
     (sv_queue s' = sv_queue s ++ [e] ∧ Z.of_nat (length (sv_queue s)) < QUEUE_CAPACITY ∨
      sv_queue s' = sv_queue s ∧
      hc_queue_dropped (sv_health s') = u64_add (hc_queue_dropped (sv_health s)) 1)) ∧
  hc_observed (sv_health s') = u64_add (hc_observed (sv_health s)) 1.
Proof.
  unfold submit. intros Hs Hu. rewrite Hu in Hs. simpl in Hs.
  destruct (sg_day_from_utc _) as [day|]; [|done]. cbn [mbind outcome_bind] in Hs. injection Hs as <-.
  set (e := usage_event _ _ _ _). set (ob := mkObservation _ _ _ _ _ _ _ _ _ _ _ _ _).
  destruct (send_completion_queue s ob (at_telemetry_enabled attempt)) as (Q & Hh & Cl).
  revert Q Hh Cl. generalize (send_completion s ob (at_telemetry_enabled attempt)) as s1.
  intros s1 Q Hh Cl. unfold try_send. destruct s1; simpl in *. subst.
  destruct (sv_closed s || _) eqn:Hfull; simpl.
  - split; [|by destruct (sv_health s)]. exists e. split_and!; [done..|]. right.
    split; [done|]. by destruct (sv_health s).
  - split; [|by destruct (sv_health s)]. exists e. split_and!; [done..|]. left.
    bool_prop. by split.
Qed.

(** One record adds at most one event to the writer's queue, never beyond its capacity,
    with in-range token counts, and counts it as observed. *)
Theorem record_effect s attempt s' :
  Recorded s attempt s' → queue_bounded s →
  queue_bounded s' ∧
  (sv_queue s' = sv_queue s ∨
   ∃ e, sv_queue s' = sv_queue s ++ [e] ∧ counts_in_range (ue_tokens e) ∧
     hc_observed (sv_health s') = u64_add (hc_observed (sv_health s)) 1).
Proof.
  unfold queue_bounded. intros Hr Hq. destruct Hr as [parsed dropped first c s' Hu Ht Hs| |].
  - destruct (submit_queue _ _ _ _ _ _ _ Hs Hu) as [(e & _ & Het & _ & Hcase) Hob].
    destruct Hcase as [[-> Hlt]|[-> _]]; [|by split; [|left]].
    rewrite length_app, Nat2Z.inj_add. simpl. split; [lia|]. right. exists e.
    split_and!; [done| |done]. rewrite Het. destruct Ht as (? & ? & ? & ? & ?).
    unfold counts_in_range, is_count in *. lia.
  - unfold complete_without_usage. set (ob := mkObservation _ _ _ _ _ _ _ _ _ _ _ _ _).
    destruct (send_completion_queue s ob (at_telemetry_enabled attempt)) as (-> & _ & _).
    by split; [|left].
  - unfold complete_without_usage. set (ob := mkObservation _ _ _ _ _ _ _ _ _ _ _ _ _).
    destruct (send_completion_queue (record_parse_failure s oversize) ob
      (at_telemetry_enabled attempt)) as (-> & _ & _).
    assert (sv_queue (record_parse_failure s oversize) = sv_queue s) as -> by by destruct s, oversize.
    by split; [|left].
Qed.
End usage.
