(* ===== verification/UsageStore.v ===== *)
(** * UsageStore: the table of usage events (src/src/store/usage_store.rs)

    The rows in the order of their ids, the cached price list and the outcomes of
    the next calls: [Some m] is a failure with that text, the end of the list
    success. A method is one statement or one transaction, so a failed call changes
    nothing. Each SQL text is the function on rows that it denotes; a database's
    order of texts is taken to be that of their bytes. *)

From S2P Require Import Prelude Text F64 Json Http Model.

Record UsageRow := mkUsageRow { ur_id : Z; ur_event : UsageEvent }.

Record UsageStore := mkUsageStore {
  us_rows : list UsageRow;
  us_next_id : Z;
  us_snapshot : option (string * string * DateTime);
  us_faults : list (option string);
}.

Definition usage_store_new : UsageStore := mkUsageStore [] 1 None [].

(** A call that may fail: the error, or what it does to the store. *)
Definition us_call {A} (f : UsageStore → A * UsageStore) (s : UsageStore)
    : result AppError A * UsageStore :=
  match us_faults s with
  | Some m :: fs => (Err (Internal m), s <| us_faults := fs |>)
  | None :: fs => let '(a, s) := f (s <| us_faults := fs |>) in (Ok a, s)
  | [] => let '(a, s) := f s in (Ok a, s)
  end.

(** ** Writing events *)

Definition has_dedup_key (key : string) (rows : list UsageRow) : bool :=
  existsb (λ r, String.eqb (ue_dedup_key (ur_event r)) key) rows.

(** [ON CONFLICT (dedup_key) DO NOTHING]: the rows affected. *)
Definition insert_event (s : UsageStore) (event : UsageEvent) : Z * UsageStore :=
  if has_dedup_key (ue_dedup_key event) (us_rows s) then (0, s)
  else (1, s <| us_rows := us_rows s ++ [mkUsageRow (us_next_id s) event] |>
             <| us_next_id := us_next_id s + 1 |>).

Fixpoint insert_events (events : list UsageEvent) (s : UsageStore) : Z * UsageStore :=
  match events with
  | [] => (0, s)
  | event :: events =>
      let '(n, s) := insert_event s event in
      let '(m, s) := insert_events events s in (n + m, s)
  end.

Definition insert_batch (events : list UsageEvent) (s : UsageStore)
    : result AppError (Z * Z) * UsageStore :=
  if bool_decide (length events = 0%nat) then (Ok (0, 0), s)
  else us_call (λ s, let '(inserted, s) := insert_events events s in
                     ((inserted, Z.of_nat (length events) - inserted), s)) s.

(** ** Reading *)

Record UsageFilters := mkFilters {
  uf_start_sg_day : Z;
  uf_end_sg_day : Z;
  uf_account_id : option Z;
  uf_api_token_id : option Z;
  uf_model : option string;
  uf_group_by : UsageGroupBy;
}.

Definition matches_filters (f : UsageFilters) (e : UsageEvent) : bool :=
  (uf_start_sg_day f <=? ue_sg_day e) && (ue_sg_day e <=? uf_end_sg_day f)
  && is_none_or (uf_account_id f) (Z.eqb (ue_account_id e))
  && is_none_or (uf_api_token_id f) (Z.eqb (ue_api_token_id e))
  && is_none_or (uf_model f) (String.eqb (ue_model e)).

(** The columns [group_id] and [group_text]. *)
Definition group_of (g : UsageGroupBy) (e : UsageEvent) : Z * string :=
  match g with
  | GB_Account => (ue_account_id e, "")
  | GB_ApiToken => (ue_api_token_id e, "")
  | GB_Model => (0, ue_model e)
  end.

Definition unpriced_of (cost : option Z) (tokens : Z) : Z := if opt_is_some cost then 0 else tokens.

Definition event_unpriced_tokens (e : UsageEvent) : Z :=
  let t := ue_tokens e in let c := ue_costs e in
  unpriced_of (uc_input_nano_usd c) (ut_input t)
  + unpriced_of (uc_output_nano_usd c) (ut_output t)
  + unpriced_of (uc_cache_creation_5m_nano_usd c) (ut_cache_creation_5m t)
  + unpriced_of (uc_cache_creation_1h_nano_usd c) (ut_cache_creation_1h t)
  + unpriced_of (uc_cache_read_nano_usd c) (ut_cache_read t).

(** [COUNT] and [SUM], exact. *)
Definition sum_of (f : UsageEvent → Z) (l : list UsageEvent) : Z := foldr (λ e n, f e + n) 0 l.

Definition event_is_unpriced (e : UsageEvent) : Z := if uc_complete (ue_costs e) then 0 else 1.

Definition metrics_of (l : list UsageEvent) : UsageMetrics := {|
  um_request_count := sum_of (λ _, 1) l;
  um_tokens := {|
    ut_input := sum_of (λ e, ut_input (ue_tokens e)) l;
    ut_output := sum_of (λ e, ut_output (ue_tokens e)) l;
    ut_cache_creation_5m := sum_of (λ e, ut_cache_creation_5m (ue_tokens e)) l;
    ut_cache_creation_1h := sum_of (λ e, ut_cache_creation_1h (ue_tokens e)) l;
    ut_cache_read := sum_of (λ e, ut_cache_read (ue_tokens e)) l |};
  um_known_cost_nano_usd := sum_of (λ e, uc_known_nano_usd (ue_costs e)) l;
  um_cost_complete := sum_of event_is_unpriced l =? 0;
  um_unpriced_request_count := sum_of event_is_unpriced l;
  um_unpriced_tokens := sum_of event_unpriced_tokens l;
|}.

(** [row_i64_text] reads every sum back as an [i64]. *)
Definition metrics_fit (m : UsageMetrics) : bool :=
  let t := um_tokens m in
  forallb (fits i64)
    [um_request_count m; ut_input t; ut_output t; ut_cache_creation_5m t; ut_cache_creation_1h t;
     ut_cache_read t; um_known_cost_nano_usd m; um_unpriced_request_count m; um_unpriced_tokens m].

(** A group: its day, id and text. *)
Abbreviation GroupKey := (Z * (Z * string))%type.

Definition key_of (g : UsageGroupBy) (e : UsageEvent) : GroupKey := (ue_sg_day e, group_of g e).

Definition key_le (a b : GroupKey) : bool :=
  (a.1 <? b.1)
  || ((a.1 =? b.1) && ((a.2.1 <? b.2.1) || ((a.2.1 =? b.2.1) && String.leb a.2.2 b.2.2))).

Definition daily_row (key : GroupKey) (l : list UsageEvent) : result AppError DailyUsageRow :=
  let m := metrics_of l in
  if metrics_fit m then Ok (mkDailyRow key.1 key.2.1 key.2.2 m)
  else Err (Internal "number too large to fit in target type").

(** [collect::<Result<Vec<_>, _>>()]. *)
Fixpoint collect_results {E A} (l : list (result E A)) : result E (list A) :=
  match l with
  | [] => Ok []
  | r :: l => a ← r; l ← collect_results l; Ok (a :: l)
  end.

Definition matching_events (f : UsageFilters) (s : UsageStore) : list UsageEvent :=
  filter (λ e, matches_filters f e = true) (ur_event <$> us_rows s).

Definition group_keys (g : UsageGroupBy) (l : list UsageEvent) : list GroupKey :=
  sort_by key_le (remove_dups (key_of g <$> l)).

Definition aggregate_rows (f : UsageFilters) (l : list UsageEvent)
    : result AppError (list DailyUsageRow) :=
  collect_results
    ((λ key, daily_row key (filter (λ e, key_of (uf_group_by f) e = key) l))
       <$> group_keys (uf_group_by f) l).

Definition aggregate_daily (f : UsageFilters) (s : UsageStore)
    : result AppError (list DailyUsageRow) * UsageStore :=
  let '(rows, s) := us_call (λ s, (matching_events f s, s)) s in
  (rows ≫= aggregate_rows f, s).

Record UsageDimensionOption := mkDimension { ud_id : Z; ud_label : string }.

Record UsageDimensions := mkDimensions {
  di_accounts : list UsageDimensionOption;
  di_api_tokens : list UsageDimensionOption;
  di_models : list string;
}.

(** [COALESCE(NULLIF(name, ''), prefix || CAST(id AS TEXT))] *)
Definition label_or (default_prefix : string) (names : gmap Z string) (id : Z) : string :=
  match names !! id with
  | Some name => if is_empty name then default_prefix +:+ int_to_string id else name
  | None => default_prefix +:+ int_to_string id
  end.

(** [SELECT DISTINCT .. UNION SELECT id FROM names .. LEFT JOIN .. ORDER BY label]. *)
Definition dimension_options (default_prefix : string) (ids : list Z) (names : gmap Z string)
    : list UsageDimensionOption :=
  sort_by (λ a b, String.leb (ud_label a) (ud_label b))
    ((λ id, mkDimension id (label_or default_prefix names id))
       <$> remove_dups (ids ++ (map_to_list names).*1)).

(** [account_names], [token_names]: the tables that are joined. Three statements. *)
Definition dimensions (min_sg_day : Z) (account_names token_names : gmap Z string)
    (s : UsageStore) : result AppError UsageDimensions * UsageStore :=
  let recent s := filter (λ e, min_sg_day ≤ ue_sg_day e) (ur_event <$> us_rows s) in
  let '(accounts, s) :=
    us_call (λ s, (dimension_options "账号 #" (ue_account_id <$> recent s) account_names, s)) s in
  match accounts with
  | Err e => (Err e, s)
  | Ok accounts =>
      let '(tokens, s) :=
        us_call (λ s, (dimension_options "Token #" (ue_api_token_id <$> recent s) token_names, s)) s in
      match tokens with
      | Err e => (Err e, s)
      | Ok tokens =>
          let '(models, s) :=
            us_call (λ s, (sort_by String.leb (remove_dups (ue_model <$> recent s)), s)) s in
          match models with
          | Err e => (Err e, s)
          | Ok models => (Ok (mkDimensions accounts tokens models), s)
          end
      end
  end.

(** ** Deleting, the price list, prices of old events *)

Fixpoint delete_first (n : nat) (p : UsageRow → bool) (l : list UsageRow) : list UsageRow :=
  match n, l with
  | S n', r :: l => if p r then delete_first n' p l else r :: delete_first n p l
  | _, _ => l
  end.

Definition delete_before (min_sg_day batch_size : Z) (s : UsageStore)
    : result AppError Z * UsageStore :=
  us_call (λ s,
    let rows := delete_first (Z.to_nat batch_size) (λ r, ue_sg_day (ur_event r) <? min_sg_day)
                  (us_rows s) in
    (Z.of_nat (length (us_rows s)) - Z.of_nat (length rows), s <| us_rows := rows |>)) s.

Definition load_pricing_snapshot (s : UsageStore) : result AppError (option string) * UsageStore :=
  us_call (λ s, ((λ p : string * string * DateTime, p.1.1) <$> us_snapshot s, s)) s.

Definition save_pricing_snapshot (snapshot_json pricing_version : string) (fetched_at : DateTime)
    (s : UsageStore) : result AppError unit * UsageStore :=
  us_call (λ s, (tt, s <| us_snapshot := Some (snapshot_json, pricing_version, fetched_at) |>)) s.

Definition unpriced_events_after (after_id limit : Z) (s : UsageStore)
    : result AppError (list UnpricedUsageEvent) * UsageStore :=
  us_call (λ s,
    (take (Z.to_nat limit)
       (omap (λ r, let e := ur_event r in
                   if negb (uc_complete (ue_costs e)) && (after_id <? ur_id r)
                   then Some (mkUnpriced (ur_id r) (ue_model e) (ue_tokens e)) else None)
          (us_rows s)), s)) s.

(** [UPDATE .. WHERE id = $1 AND cost_complete = 0]. *)
Definition update_applies (u : UsagePricingUpdate) (r : UsageRow) : bool :=
  (ur_id r =? pu_id u) && negb (uc_complete (ue_costs (ur_event r))).

Definition update_event (u : UsagePricingUpdate) (e : UsageEvent) : UsageEvent :=
  e <| ue_costs := pu_costs u |> <| ue_pricing_version := pu_pricing_version u |>
    <| ue_pricing_model_key := Some (pu_pricing_model_key u) |>.

Definition update_rows (u : UsagePricingUpdate) (rows : list UsageRow) : Z * list UsageRow :=
  (Z.of_nat (length (filter (λ r, update_applies u r = true) rows)),
   (λ r, if update_applies u r then mkUsageRow (ur_id r) (update_event u (ur_event r)) else r) <$> rows).

Fixpoint update_all (updates : list UsagePricingUpdate) (rows : list UsageRow)
    : Z * list UsageRow :=
  match updates with
  | [] => (0, rows)
  | u :: updates =>
      let '(n, rows) := update_rows u rows in
      let '(m, rows) := update_all updates rows in (n + m, rows)
  end.

Definition apply_pricing_updates (updates : list UsagePricingUpdate) (s : UsageStore)
    : result AppError Z * UsageStore :=
  if bool_decide (length updates = 0%nat) then (Ok 0, s)
  else us_call (λ s, let '(n, rows) := update_all updates (us_rows s) in
                     (n, s <| us_rows := rows |>)) s.
