(* ===== verification/UsageReport.v ===== *)
(** * UsageReport: reports over the usage events (src/src/service/usage.rs)

    A report sums the events of a range of Singapore days in total, by natural
    day, week or month and by account, token or model. A date is its number of days
    from 1970-01-01; what the calendar library says of a date is an interface. *)

From S2P Require Import Prelude Text F64 Json Http Model Pricing UsageParse Usage UsageStore.

(** ** Dates *)

(** [chrono::NaiveDate]: the representable days, a day's weekday from Monday, the
    first day of its month, and its [%Y-%m-%d] text, written and read. *)
Class Calendar := {
  naive_min : Z;
  naive_max : Z;
  days_from_monday : Z → Z;
  month_first : Z → Z;
  format_date : Z → string;
  parse_date : string → option Z;
}.

(** What is relied on: the range, which fits 32 bits and whose midnights are
    times; weeks have seven days that follow each other, and months are runs of
    days. *)
Class CalendarLaws `{Calendar} `{Chrono} : Prop := {
  naive_range : ity_min i32 ≤ naive_min ≤ 0 ∧ 0 ≤ naive_max ≤ ity_max i32;
  naive_midnight d : naive_min < d ≤ naive_max →
    in_chrono (d * day_ns - from_secs (8 * 3600)) = true;
  parse_in_range s d : parse_date s = Some d → naive_min ≤ d ≤ naive_max;
  weekday_range d : 0 ≤ days_from_monday d < 7;
  weekday_next d : days_from_monday (d + 1) = (days_from_monday d + 1) mod 7;
  month_first_le d : month_first d ≤ d;
  month_first_same d d' : month_first d ≤ d' ≤ d → month_first d' = month_first d;
}.

Section report.
Context `{Calendar} `{Chrono}.

(** [checked_add_signed(..).expect(..)] and [checked_sub_signed(..).expect(..)]. *)
Definition date_add (d n : Z) : outcome Z :=
  if (naive_min <=? d + n) && (d + n <=? naive_max) then Done (d + n) else Panic.

Definition sg_day_from_date (d : Z) : Z := to_i32_or_max d.

Definition date_from_sg_day (day : Z) : outcome Z := date_add 0 day.

Definition bucket_start (d : Z) (granularity : UsageGranularity) : outcome Z :=
  match granularity with
  | UG_Day => Done d
  | UG_Week => date_add d (- days_from_monday d)
  | UG_Month => Done (month_first d)
  end.

Definition singapore_midnight_utc (d : Z) : outcome DateTime :=
  dt_add (d * day_ns) (- from_secs (8 * 3600)).

(** ** Buckets *)

Record UsageBucket := mkBucket {
  ub_key : string;
  ub_start_date : Z;
  ub_end_date : Z;
  ub_start_at_utc : DateTime;
  ub_end_at_utc_exclusive : DateTime;
  ub_metrics : UsageMetrics;
}.

(** What is collected for a natural start. *)
Record Covered := mkCovered { cv_start : Z; cv_end : Z; cv_metrics : UsageMetrics }.

(** One turn of the loop over the days. *)
Definition cover_day (granularity : UsageGranularity) (by_day : gmap Z UsageMetrics) (date : Z)
    (buckets : gmap Z Covered) : outcome (gmap Z Covered) :=
  natural_start ← bucket_start date granularity;
  let entry := default (mkCovered date date metrics_default) (buckets !! natural_start) in
  let entry := entry <| cv_end := date |> in
  let entry := match by_day !! sg_day_from_date date with
               | Some metrics => entry <| cv_metrics := metrics_add (cv_metrics entry) metrics |>
               | None => entry
               end in
  Done (<[natural_start := entry]> buckets).

(** [n] days from [date] on; each turn ends by stepping to the next day. *)
Fixpoint cover_days (granularity : UsageGranularity) (by_day : gmap Z UsageMetrics) (n : nat)
    (date : Z) (buckets : gmap Z Covered) : outcome (gmap Z Covered) :=
  match n with
  | O => Done buckets
  | S n =>
      buckets ← cover_day granularity by_day date buckets;
      next ← date_add date 1;
      cover_days granularity by_day n next buckets
  end.

Definition days_between (start_date end_date : Z) : nat := Z.to_nat (end_date - start_date + 1).

(** A [BTreeMap] by date, in its order. *)
Definition date_entries {A} (m : gmap Z A) : list (Z * A) :=
  sort_by (λ a b, a.1 <=? b.1) (map_to_list m).

Definition finish_bucket (entry : Z * Covered) : outcome UsageBucket :=
  let '(natural_start, c) := entry in
  start_at ← singapore_midnight_utc (cv_start c);
  after ← date_add (cv_end c) 1;
  end_at ← singapore_midnight_utc after;
  Done (mkBucket (format_date natural_start) (cv_start c) (cv_end c) start_at end_at (cv_metrics c)).

Fixpoint collect_outcomes {A} (l : list (outcome A)) : outcome (list A) :=
  match l with
  | [] => Done []
  | o :: l => a ← o; l ← collect_outcomes l; Done (a :: l)
  end.

Definition build_buckets (start_date end_date : Z) (granularity : UsageGranularity)
    (by_day : gmap Z UsageMetrics) : outcome (list UsageBucket) :=
  buckets ← cover_days granularity by_day (days_between start_date end_date) start_date ∅;
  collect_outcomes (finish_bucket <$> date_entries buckets).

(** ** The report *)

Record UsageReportQuery := mkReportQuery {
  rq_start_date : Z;
  rq_end_date : Z;
  rq_granularity : UsageGranularity;
  rq_account_id : option Z;
  rq_api_token_id : option Z;
  rq_model : option string;
  rq_group_by : UsageGroupBy;
}.

Record UsageBreakdownRow := mkBreakdown {
  br_key : string;
  br_label : string;
  br_metrics : UsageMetrics;
}.

Record UsageReportData := mkReport {
  rp_granularity : UsageGranularity;
  rp_start_date : Z;
  rp_end_date : Z;
  rp_summary : UsageMetrics;
  rp_buckets : list UsageBucket;
  rp_breakdown : list UsageBreakdownRow;
}.

Definition group_key (row : DailyUsageRow) (group_by : UsageGroupBy) : string :=
  match group_by with
  | GB_Account | GB_ApiToken => int_to_string (dr_group_id row)
  | GB_Model => dr_group_text row
  end.

(** The loop over the rows: the total, by day, by key. *)
Definition add_to {K} `{Countable K} (k : K) (x : UsageMetrics) (m : gmap K UsageMetrics)
    : gmap K UsageMetrics :=
  <[k := metrics_add (default metrics_default (m !! k)) x]> m.

Definition sum_rows (group_by : UsageGroupBy) (rows : list DailyUsageRow)
    : UsageMetrics * gmap Z UsageMetrics * gmap string UsageMetrics :=
  foldl (λ '(summary, by_day, breakdown) row,
      (metrics_add summary (dr_metrics row),
       add_to (dr_sg_day row) (dr_metrics row) by_day,
       add_to (group_key row group_by) (dr_metrics row) breakdown))
    (metrics_default, ∅, ∅) rows.

(** Larger costs first, then more tokens, then by label. *)
Definition breakdown_le (a b : UsageBreakdownRow) : bool :=
  let cost r := um_known_cost_nano_usd (br_metrics r) in
  let total r := tokens_total (um_tokens (br_metrics r)) in
  (cost b <? cost a)
  || ((cost b =? cost a)
      && ((total b <? total a) || ((total b =? total a) && String.leb (br_label a) (br_label b)))).

Definition breakdown_rows (labels : gmap string string) (breakdown : gmap string UsageMetrics)
    : list UsageBreakdownRow :=
  sort_by breakdown_le
    ((λ '(key, metrics), mkBreakdown key (default key (labels !! key)) metrics)
       <$> btree_entries breakdown).

(** [into_iter().map(..).collect()] into a map: of two equal ids the last. *)
Definition labels_of (options : list UsageDimensionOption) : gmap string string :=
  foldl (λ m o, <[int_to_string (ud_id o) := ud_label o]> m) ∅ options.

Definition group_labels (group_by : UsageGroupBy) (min_sg_day : Z)
    (account_names token_names : gmap Z string) (s : UsageStore)
    : result AppError (gmap string string) * UsageStore :=
  match group_by with
  | GB_Model => (Ok ∅, s)
  | _ =>
      let '(r, s) := dimensions min_sg_day account_names token_names s in
      ((λ d, labels_of (match group_by with GB_Account => di_accounts d | _ => di_api_tokens d end))
         <$> r, s)
  end.

Definition report_filters (q : UsageReportQuery) : UsageFilters :=
  mkFilters (sg_day_from_date (rq_start_date q)) (sg_day_from_date (rq_end_date q))
    (rq_account_id q) (rq_api_token_id q) (rq_model q) (rq_group_by q).

(** The part after the statements. *)
Definition assemble_report (q : UsageReportQuery) (rows : list DailyUsageRow)
    (labels : gmap string string) : outcome UsageReportData :=
  let '(summary, by_day, breakdown) := sum_rows (rq_group_by q) rows in
  buckets ← build_buckets (rq_start_date q) (rq_end_date q) (rq_granularity q) by_day;
  Done (mkReport (rq_granularity q) (rq_start_date q) (rq_end_date q) summary buckets
          (breakdown_rows labels breakdown)).

Definition report (q : UsageReportQuery) (account_names token_names : gmap Z string)
    (s : UsageStore) : outcome (result AppError UsageReportData) * UsageStore :=
  let filters := report_filters q in
  let '(rows, s) := aggregate_daily filters s in
  match rows with
  | Err e => (Done (Err e), s)
  | Ok rows =>
      let '(labels, s) :=
        group_labels (rq_group_by q) (uf_start_sg_day filters) account_names token_names s in
      match labels with
      | Err e => (Done (Err e), s)
      | Ok labels => (Ok <$> assemble_report q rows labels, s)
      end
  end.

(** ** The query of a report (src/src/handler/router.rs) *)

Record UsageQuery := mkUsageQuery {
  uq_granularity : option string;
  uq_start_date : option string;
  uq_end_date : option string;
  uq_account_id : option Z;
  uq_api_token_id : option Z;
  uq_model : option string;
  uq_group_by : option string;
}.

Definition parse_usage_date (value : string) : result AppError Z :=
  ok_or (parse_date value)
    (BadRequest ("invalid date: " +:+ value +:+ "; expected YYYY-MM-DD")).

Definition singapore_today (now : DateTime) : outcome Z :=
  local ← dt_add now (from_secs (8 * 3600)); Done (local / day_ns).

Definition parse_granularity (s : string) : result AppError UsageGranularity :=
  if String.eqb s "day" then Ok UG_Day
  else if String.eqb s "week" then Ok UG_Week
  else if String.eqb s "month" then Ok UG_Month
  else Err (BadRequest "granularity must be day, week, or month").

Definition parse_group_by (s : string) : result AppError UsageGroupBy :=
  if String.eqb s "account" then Ok GB_Account
  else if String.eqb s "api_token" then Ok GB_ApiToken
  else if String.eqb s "model" then Ok GB_Model
  else Err (BadRequest "group_by must be account, api_token, or model").

(** The dates of a query and the checks on them. *)
Definition check_range (today min_date start_date end_date : Z) : result AppError unit :=
  if end_date <? start_date then Err (BadRequest "start_date must not be after end_date")
  else if today <? end_date
  then Err (BadRequest "end_date must not be in the future (Asia/Singapore)")
  else if start_date <? min_date
  then Err (BadRequest "start_date is outside the 365-day retention window")
  else if 365 <=? end_date - start_date
  then Err (BadRequest "usage date range must be at most 365 days")
  else Ok tt.

Definition check_ids (query : UsageQuery) : result AppError unit :=
  if is_some_and (uq_account_id query) (λ id, id <=? 0)
     || is_some_and (uq_api_token_id query) (λ id, id <=? 0)
  then Err (BadRequest "account_id and api_token_id must be positive") else Ok tt.

Definition validate_usage_query (query : UsageQuery) (now : DateTime)
    : outcome (result AppError UsageReportQuery) :=
  today ← singapore_today now;
  min_date ← date_add today (-364);
  match transpose (parse_usage_date <$> uq_end_date query) with
  | Err e => Done (Err e)
  | Ok end_date =>
      let end_date := default today end_date in
      match transpose (parse_usage_date <$> uq_start_date query) with
      | Err e => Done (Err e)
      | Ok start_date =>
          start_date ← (match start_date with Some d => Done d | None => date_add end_date (-29) end);
          Done
            (_ ← check_range today min_date start_date end_date;
             _ ← check_ids query;
             granularity ← parse_granularity (default "day" (uq_granularity query));
             group_by ← parse_group_by (default "model" (uq_group_by query));
             Ok (mkReportQuery start_date end_date granularity (uq_account_id query)
                   (uq_api_token_id query)
                   (opt_filter (λ model, negb (is_empty model)) (trim <$> uq_model query)) group_by))
      end
  end.
End report.
