(* ===== verification/UsageTasks.v ===== *)
(** * UsageTasks: the background tasks of the usage service (src/src/service/usage.rs)

    The writer takes batches from the queue and stores them, the refresh task
    installs new price lists and prices old events again, the retention task deletes
    what is older than a year. A loop that waits for the next day is modelled by one
    turn; [UsageStep] interleaves the tasks with the requests that record usage. *)

From S2P Require Import Prelude Text F64 Json Http Model Pricing UsageParse Usage UsageStore.

Definition RETENTION_BATCH_SIZE : Z := 5000.
Definition PRICING_BACKFILL_BATCH_SIZE : Z := 250.

(** [0..=3_u32]. *)
Definition WRITE_ATTEMPTS : nat := 4.

Section tasks.
Context `{Chrono} `{JsonText} `{PricingText} `{Codecs}.

(** ** The writer *)

(** An event whose price was incomplete gets the current one when that is complete. *)
Definition reprice_event (pricing : PricingEngine) (event : UsageEvent) : UsageEvent :=
  if uc_complete (ue_costs event) then event
  else
    let priced := price pricing (ue_model event) (ue_tokens event) in
    if uc_complete (pd_costs priced) then
      event <| ue_costs := pd_costs priced |>
            <| ue_pricing_version := pd_pricing_version priced |>
            <| ue_pricing_model_key := pd_pricing_model_key priced |>
    else event.

(** The service, its table, and the batch in the writer's hands with the number of
    attempts that are left to store it. *)
Record UsageState := mkUsageState {
  ux_service : UsageService;
  ux_store : UsageStore;
  ux_batch : option (list UsageEvent * nat);
}.

(** [received]: the events that arrive before the deadline, after the first. *)
Definition batch_size (received : nat) : nat := Nat.min (S received) (Z.to_nat WRITE_BATCH_SIZE).

Definition take_batch (received : nat) (st : UsageState) : UsageState :=
  match ux_batch st, sv_queue (ux_service st) with
  | None, _ :: _ =>
      let s := ux_service st in
      let n := batch_size received in
      st <| ux_batch := Some (reprice_event (sv_pricing s) <$> take n (sv_queue s), WRITE_ATTEMPTS) |>
         <| ux_service := (s <| sv_queue := drop n (sv_queue s) |>) |>
  | _, _ => st
  end.

Definition count_health (f : UsageHealthCounters → UsageHealthCounters) (s : UsageService)
    : UsageService := s <| sv_health := f (sv_health s) |>.

(** One turn of the loop over the attempts. *)
Definition write_attempt (st : UsageState) : UsageState :=
  match ux_batch st with
  | None => st
  | Some (batch, attempts) =>
      let '(r, store) := insert_batch batch (ux_store st) in
      let st := st <| ux_store := store |> in
      match r, attempts with
      | Ok (inserted, duplicates), _ =>
          st <| ux_batch := None |>
             <| ux_service := count_health (λ h,
                  h <| hc_persisted := u64_add (hc_persisted h) inserted |>
                    <| hc_duplicate := u64_add (hc_duplicate h) duplicates |>) (ux_service st) |>
      | Err _, S (S n) => st <| ux_batch := Some (batch, S n) |>
      | Err _, _ =>
          st <| ux_batch := None |>
             <| ux_service := count_health (λ h,
                  h <| hc_write_failed := u64_add (hc_write_failed h) (Z.of_nat (length batch)) |>)
                (ux_service st) |>
      end
  end.

Fixpoint write_attempts (n : nat) (st : UsageState) : UsageState :=
  match n with O => st | S n => write_attempts n (write_attempt st) end.

(** One turn of the loop of [run_writer]. *)
Definition writer_turn (received : nat) (st : UsageState) : UsageState :=
  write_attempts WRITE_ATTEMPTS (take_batch received st).

(** ** Prices of old events *)

Definition pricing_update (pricing : PricingEngine) (event : UnpricedUsageEvent)
    : option UsagePricingUpdate :=
  let priced := price pricing (un_model event) (un_tokens event) in
  if uc_complete (pd_costs priced) then
    (λ key, mkPricingUpdate (un_id event) (pd_costs priced) (pd_pricing_version priced) key)
      <$> pd_pricing_model_key priced
  else None.

(** [None] when [fuel] does not suffice. *)
Fixpoint backfill_loop (fuel : nat) (pricing : PricingEngine) (after_id updated_total : Z)
    (s : UsageStore) : option (result AppError Z * UsageStore) :=
  match fuel with
  | O => None
  | S fuel =>
      let '(events, s) := unpriced_events_after after_id PRICING_BACKFILL_BATCH_SIZE s in
      match events with
      | Err e => Some (Err e, s)
      | Ok [] => Some (Ok updated_total, s)
      | Ok events =>
          let after_id := default after_id (un_id <$> last events) in
          let '(n, s) := apply_pricing_updates (omap (pricing_update pricing) events) s in
          match n with
          | Err e => Some (Err e, s)
          | Ok n => backfill_loop fuel pricing after_id (sat_add u64 updated_total n) s
          end
      end
  end.

Definition backfill_unpriced_usage (fuel : nat) (pricing : PricingEngine) (s : UsageStore)
    : option (result AppError Z * UsageStore) :=
  backfill_loop fuel pricing 0 0 s.

(** One turn of [run_pricing_refresh], given what was fetched; a failed statement is
    only logged. *)
Definition refresh_turn (fuel : nat) (fetched : result string PricingSnapshot) (now : DateTime)
    (st : UsageState) : option UsageState :=
  match fetched with
  | Err _ => Some st
  | Ok snapshot =>
      match with_snapshot (sv_pricing (ux_service st)) snapshot with
      | Err _ => Some st
      | Ok next =>
          match snapshot_to_json snapshot with
          | Err _ => Some st
          | Ok json =>
              let '(_, store) := save_pricing_snapshot json (ps_version snapshot) now (ux_store st) in
              '(_, store) ← backfill_unpriced_usage fuel next store;
              Some (st <| ux_service := (ux_service st) <| sv_pricing := next |> |>
                       <| ux_store := store |>)
          end
      end
  end.

(** ** Retention *)

(** The inner loop of [run_retention]. *)
Fixpoint retention_loop (fuel : nat) (min_sg_day : Z) (s : UsageStore) : option UsageStore :=
  match fuel with
  | O => None
  | S fuel =>
      let '(r, s) := delete_before min_sg_day RETENTION_BATCH_SIZE s in
      match r with
      | Ok 0 | Err _ => Some s
      | Ok _ => retention_loop fuel min_sg_day s
      end
  end.

(** One turn of the outer loop, at the time [now]. The subtraction is one on [i32]. *)
Definition retention_turn (fuel : nat) (now : DateTime) (s : UsageStore)
    : outcome (option UsageStore) :=
  today ← sg_day_from_utc now;
  Done (retention_loop fuel (wrap i32 (today - 364)) s).

(** ** Start-up and health *)

(** The cached price list, when there is one and it is accepted. *)
Definition cached_pricing (json : result AppError (option string)) (pricing : PricingEngine)
    : PricingEngine :=
  match json with
  | Ok (Some json) =>
      match (snapshot ← snapshot_from_json json; with_snapshot pricing snapshot) with
      | Ok cached => cached
      | Err _ => pricing
      end
  | _ => pricing
  end.

Definition start_inner (pricing : PricingEngine) (has_completion : bool)
    (completion_capacity : Z) (store : UsageStore) : UsageState :=
  let '(json, store) := load_pricing_snapshot store in
  mkUsageState
    (mkService (cached_pricing json pricing) [] false has_completion completion_capacity [] []
       health_default)
    store None.

Record UsageIngestionHealth := mkIngestion {
  ih_since_utc : DateTime;
  ih_queue_depth : Z;
  ih_counters : UsageHealthCounters;
}.

Definition health (since_utc : DateTime) (s : UsageService) : UsageIngestionHealth :=
  mkIngestion since_utc (Z.of_nat (length (sv_queue s))) (sv_health s).

(** ** Interleaving *)

(** What the tasks and the requests do to the service and its table, one statement
    or one queue operation at a time. *)
Inductive UsageStep :=
  | UX_Submit (attempt : UsageAttempt) (parsed : ParsedUsage) (client_dropped : bool)
      (first_byte_at : option Instant) (c : SubmitClock)
  | UX_WithoutUsage (attempt : UsageAttempt) (client_dropped : bool)
      (first_byte_at : option Instant) (c : SubmitClock)
  | UX_ParseFailure (oversize : bool)
  | UX_Take (received : nat)
  | UX_Write
  | UX_Delete (min_sg_day : Z)
  | UX_Update (updates : list UsagePricingUpdate)
  | UX_Install (pricing : PricingEngine).

Definition usage_step (st : UsageState) (step : UsageStep) : outcome UsageState :=
  let on_service f := Done (st <| ux_service := f (ux_service st) |>) in
  match step with
  | UX_Submit attempt parsed client_dropped first_byte_at c =>
      s ← submit (ux_service st) attempt parsed client_dropped first_byte_at c;
      Done (st <| ux_service := s |>)
  | UX_WithoutUsage attempt client_dropped first_byte_at c =>
      on_service (λ s, complete_without_usage s attempt client_dropped first_byte_at c)
  | UX_ParseFailure oversize => on_service (λ s, record_parse_failure s oversize)
  | UX_Take received => Done (take_batch received st)
  | UX_Write => Done (write_attempt st)
  | UX_Delete min_sg_day =>
      Done (st <| ux_store := (delete_before min_sg_day RETENTION_BATCH_SIZE (ux_store st)).2 |>)
  | UX_Update updates =>
      Done (st <| ux_store := (apply_pricing_updates updates (ux_store st)).2 |>)
  | UX_Install pricing => on_service (λ s, s <| sv_pricing := pricing |>)
  end.

Fixpoint usage_run (st : UsageState) (steps : list UsageStep) : outcome UsageState :=
  match steps with
  | [] => Done st
  | step :: steps => st ← usage_step st step; usage_run st steps
  end.
End tasks.
