(* ===== verification/UsageTasksFacts.v ===== *)
(** * UsageTasksFacts: the theorems on the background tasks of the usage service

    No event is lost or counted twice, whatever the tasks do in between; a batch is
    stored but for its duplicates; old events are priced again and deleted, and both
    loops end. *)

From S2P Require Import Prelude Text F64 Json Http Model Pricing UsageParse Usage UsageStore.
From S2P Require Import UsageTasks.

(** ** The table *)

Definition dedup_keys (rows : list UsageRow) : list string := (λ r, ue_dedup_key (ur_event r)) <$> rows.

(** Keys occur once; ids grow and are below the next one. *)
Definition store_ok (s : UsageStore) : Prop :=
  NoDup (dedup_keys (us_rows s))
  ∧ StronglySorted (λ a b, ur_id a < ur_id b) (us_rows s)
  ∧ 1 ≤ us_next_id s ∧ Forall (λ r, 1 ≤ ur_id r < us_next_id s) (us_rows s).

Lemma has_dedup_key_spec k rows : has_dedup_key k rows = true ↔ k ∈ dedup_keys rows.
Proof.
  unfold has_dedup_key, dedup_keys. rewrite existsb_exists, list_elem_of_fmap.
  setoid_rewrite String.eqb_eq. setoid_rewrite <- list_elem_of_In. naive_solver.
Qed.

(** The events of a batch that are stored: the first of each new key. *)
Fixpoint fresh_events (seen : list string) (batch : list UsageEvent) : list UsageEvent :=
  match batch with
  | [] => []
  | e :: batch =>
      if bool_decide (ue_dedup_key e ∈ seen) then fresh_events seen batch
      else e :: fresh_events (seen ++ [ue_dedup_key e]) batch
  end.

(** Rows with consecutive ids. *)
Fixpoint rows_from (id : Z) (events : list UsageEvent) : list UsageRow :=
  match events with
  | [] => []
  | e :: events => mkUsageRow id e :: rows_from (id + 1) events
  end.

Lemma insert_events_spec batch s :
  let fresh := fresh_events (dedup_keys (us_rows s)) batch in
  insert_events batch s =
  (Z.of_nat (length fresh),
   s <| us_rows := us_rows s ++ rows_from (us_next_id s) fresh |>
     <| us_next_id := us_next_id s + Z.of_nat (length fresh) |>).
Proof.
  revert s. induction batch as [|e batch IH]; intros s; cbn [insert_events fresh_events].
  - destruct s. simpl. by rewrite app_nil_r, Z.add_0_r.
  - unfold insert_event.
    assert (has_dedup_key (ue_dedup_key e) (us_rows s)
            = bool_decide (ue_dedup_key e ∈ dedup_keys (us_rows s))) as ->.
    { apply eq_true_iff_eq. by rewrite has_dedup_key_spec, bool_decide_eq_true. }
    case_bool_decide; rewrite IH; [done|]. destruct s as [rows next snap fs]. simpl.
    unfold dedup_keys. rewrite fmap_app. simpl. f_equal; [lia|]. unfold upd. simpl.
    f_equal; [by rewrite <- app_assoc|lia].
Qed.

Lemma fresh_events_length seen batch : (length (fresh_events seen batch) ≤ length batch)%nat.
Proof.
  revert seen. induction batch as [|e batch IH]; intros seen; simpl; [done|].
  case_bool_decide; simpl; [specialize (IH seen)|specialize (IH (seen ++ [ue_dedup_key e]))]; lia.
Qed.

Lemma insert_event_ok s e : store_ok s → store_ok (insert_event s e).2.
Proof.
  intros (Hnd & Hs & Hn & Hf). unfold insert_event.
  destruct (has_dedup_key _ _) eqn:Hk; [done|]. destruct s as [rows next snap fs]. simpl in *.
  assert (ue_dedup_key e ∉ dedup_keys rows) as Hnew by (rewrite <- has_dedup_key_spec; congruence).
  split_and!; simpl; [|..|lia|].
  - unfold dedup_keys. rewrite fmap_app. apply NoDup_app. split_and!; [done| |apply NoDup_singleton].
    intros k Hin ->%list_elem_of_singleton. done.
  - clear Hk Hnew Hnd. induction Hs as [|r rows Hs IH Hr]; [repeat constructor|].
    apply Forall_cons in Hf as [Hr0 Hf]. simpl. constructor; [by apply IH|].
    apply Forall_app. split; [done|]. constructor; [simpl; lia|constructor].
  - apply Forall_app. split; [|constructor; [simpl; lia|constructor]].
    eapply Forall_impl; [done|]. simpl. lia.
Qed.

Lemma insert_events_ok batch s : store_ok s → store_ok (insert_events batch s).2.
Proof.
  revert s. induction batch as [|e batch IH]; intros s Hs; simpl; [done|].
  pose proof (insert_event_ok s e Hs) as H1. destruct (insert_event s e) as [n s1]. simpl in H1.
  specialize (IH s1 H1). by destruct (insert_events batch s1).
Qed.

(** What a call does to the table, but for the failures that wait. *)
Lemma us_call_cases {A} (f : UsageStore → A * UsageStore) s :
  (∃ m fs, us_faults s = Some m :: fs ∧ us_call f s = (Err (Internal m), s <| us_faults := fs |>))
  ∨ ∃ s0, us_rows s0 = us_rows s ∧ us_next_id s0 = us_next_id s ∧ us_snapshot s0 = us_snapshot s
      ∧ us_faults s0 = tail (us_faults s) ∧ us_call f s = (Ok (f s0).1, (f s0).2).
Proof.
  unfold us_call. destruct (us_faults s) as [|[m|] fs] eqn:Hf.
  - right. exists s. rewrite Hf. split_and!; [done..|]. by destruct (f s).
  - left. by eexists _, _.
  - right. exists (s <| us_faults := fs |>). destruct s. simpl. split_and!; [done..|].
    match goal with |- context [f ?x] => by destruct (f x) end.
Qed.

Lemma us_call_ok {A} (f : UsageStore → A * UsageStore) s :
  (∀ s0, store_ok s0 → store_ok (f s0).2) → store_ok s → store_ok (us_call f s).2.
Proof.
  intros Hf Hs. destruct (us_call_cases f s) as [(m & fs & _ & ->)|(s0 & Hr & Hn & _ & _ & ->)]; [by destruct s|].
  apply Hf. unfold store_ok. by rewrite Hr, Hn.
Qed.

Lemma delete_first_sublist n p l : delete_first n p l `sublist_of` l.
Proof.
  revert n. induction l as [|r l IH]; intros [|n]; simpl; try done.
  destruct (p r); [by apply sublist_cons|by apply sublist_skip].
Qed.

Lemma sublist_Forall {A} (P : A → Prop) l l' : l `sublist_of` l' → Forall P l' → Forall P l.
Proof. rewrite !Forall_forall. intros Hs Hf x Hx. apply Hf. by eapply elem_of_sublist. Qed.

Lemma sublist_sorted {A} (R : A → A → Prop) l l' :
  l `sublist_of` l' → StronglySorted R l' → StronglySorted R l.
Proof.
  intros Hs Hl. induction Hl as [|x l' Hl IH Hx] in l, Hs |- *.
  - apply sublist_nil_r in Hs as ->. constructor.
  - apply sublist_cons_r in Hs as [Hs|(l1 & -> & Hs)]; [by apply IH|].
    constructor; [by apply IH|]. by eapply sublist_Forall.
Qed.

Lemma store_ok_sublist s rows :
  rows `sublist_of` us_rows s → store_ok s → store_ok (s <| us_rows := rows |>).
Proof.
  intros Hsub (Hnd & Hs & Hn & Hf). destruct s as [rows' next snap fs]. simpl in *.
  split_and!; simpl; [|by eapply sublist_sorted|done|by eapply sublist_Forall].
  eapply sublist_NoDup; [exact Hnd|].
  clear -Hsub. induction Hsub; [done|by apply sublist_skip|by apply sublist_cons].
Qed.

Lemma store_ok_map s (f : UsageRow → UsageRow) :
  (∀ r, ur_id (f r) = ur_id r ∧ ue_dedup_key (ur_event (f r)) = ue_dedup_key (ur_event r)) →
  store_ok s → store_ok (s <| us_rows := f <$> us_rows s |>).
Proof.
  intros Hf (Hnd & Hs & Hn & Hr). destruct s as [rows next snap fs]. simpl in *.
  split_and!; simpl; [| |done|].
  - unfold dedup_keys in *. rewrite <- list_fmap_compose.
    erewrite list_fmap_ext; [exact Hnd|]. intros i r _. apply Hf.
  - clear -Hf Hs. induction Hs as [|r rows Hs IH Hr]; [constructor|]. simpl. constructor; [done|].
    rewrite Forall_fmap. eapply Forall_impl; [exact Hr|]. intros r'. simpl.
    by rewrite !(proj1 (Hf _)).
  - rewrite Forall_fmap. eapply Forall_impl; [exact Hr|]. intros r'. simpl. by rewrite (proj1 (Hf _)).
Qed.

Definition update_row (u : UsagePricingUpdate) (r : UsageRow) : UsageRow :=
  if update_applies u r then mkUsageRow (ur_id r) (update_event u (ur_event r)) else r.

Lemma update_row_keeps u r :
  ur_id (update_row u r) = ur_id r
  ∧ ue_dedup_key (ur_event (update_row u r)) = ue_dedup_key (ur_event r).
Proof. unfold update_row. by destruct (update_applies u r), r as [i []]. Qed.

Lemma update_all_rows us rows :
  (update_all us rows).2 = (λ r, foldl (λ r u, update_row u r) r us) <$> rows.
Proof.
  revert rows. induction us as [|u us IH]; intros rows; cbn [update_all].
  - symmetry. apply list_fmap_id.
  - unfold update_rows. specialize (IH (update_row u <$> rows)). fold (update_row u).
    change (λ r : UsageRow, if update_applies u r then mkUsageRow (ur_id r) (update_event u (ur_event r)) else r)
      with (update_row u).
    destruct (update_all us _) as [m rows']. simpl in *. by rewrite IH, <- list_fmap_compose.
Qed.

Lemma updates_keep us r :
  ur_id (foldl (λ r u, update_row u r) r us) = ur_id r
  ∧ ue_dedup_key (ur_event (foldl (λ r u, update_row u r) r us)) = ue_dedup_key (ur_event r).
Proof.
  revert r. induction us as [|u us IH]; intros r; [done|]. simpl.
  destruct (IH (update_row u r)) as [-> ->]. apply update_row_keeps.
Qed.

Lemma insert_batch_ok batch s : store_ok s → store_ok (insert_batch batch s).2.
Proof.
  intros Hs. unfold insert_batch. case_bool_decide; [done|]. apply us_call_ok; [|done].
  intros s0 H0. pose proof (insert_events_ok batch s0 H0) as Hi. by destruct (insert_events batch s0).
Qed.

Lemma delete_before_ok min_day n s : store_ok s → store_ok (delete_before min_day n s).2.
Proof.
  intros Hs. apply us_call_ok; [|done]. intros s0 H0. apply store_ok_sublist; [|done].
  apply delete_first_sublist.
Qed.

Lemma apply_pricing_updates_ok us s : store_ok s → store_ok (apply_pricing_updates us s).2.
Proof.
  intros Hs. unfold apply_pricing_updates. case_bool_decide; [done|]. apply us_call_ok; [|done].
  intros s0 H0. pose proof (update_all_rows us (us_rows s0)) as Hu.
  destruct (update_all us (us_rows s0)) as [n rows]. simpl in *. subst rows.
  apply store_ok_map; [|done]. apply updates_keep.
Qed.

(** ** Accounting *)

Lemma u64_add_mod a b : ∃ k, u64_add a b = a + b + k * 2 ^ 64 ∧ 0 ≤ u64_add a b < 2 ^ 64.
Proof.
  exists (- ((a + b) / 2 ^ 64)). unfold u64_add, wrap. simpl. rewrite Z.sub_0_r.
  pose proof (Z.div_mod (a + b) (2 ^ 64) ltac:(lia)). pose proof (Z.mod_pos_bound (a + b) (2 ^ 64) ltac:(lia)).
  change (18446744073709551615 - 0 + 1) with (2 ^ 64). lia.
Qed.

(** The events that a state accounts for. *)
Definition accounted (st : UsageState) : Z :=
  let h := sv_health (ux_service st) in
  hc_persisted h + hc_duplicate h + hc_write_failed h + hc_queue_dropped h
  + Z.of_nat (length (sv_queue (ux_service st)))
  + Z.of_nat (length (default [] (fst <$> ux_batch st))).

(** Modulo the width of the counters, which wrap. *)
Definition balanced (st : UsageState) : Prop :=
  (∃ k, hc_observed (sv_health (ux_service st)) = accounted st + k * 2 ^ 64)
  ∧ 0 ≤ hc_observed (sv_health (ux_service st)) < 2 ^ 64
  ∧ (∀ batch n, ux_batch st = Some (batch, n) → batch ≠ []).

Section accounting.
Context `{Chrono} `{JsonText} `{PricingText} `{Codecs}.

Lemma send_completion_keeps s o b :
  sv_health (send_completion s o b) = sv_health s ∧ sv_queue (send_completion s o b) = sv_queue s.
Proof. unfold send_completion. destruct s. by repeat case_match. Qed.

(** The difference that recording an event keeps. *)
Definition balance (s : UsageService) : Z :=
  let h := sv_health s in
  hc_observed h - hc_persisted h - hc_duplicate h - hc_write_failed h - hc_queue_dropped h
  - Z.of_nat (length (sv_queue s)).

Lemma observe_balance s e :
  let s' := try_send (s <| sv_health := (sv_health s) <| hc_observed := u64_add (hc_observed (sv_health s)) 1 |> |>) e in
  (∃ k, balance s' = balance s + k * 2 ^ 64) ∧ 0 ≤ hc_observed (sv_health s') < 2 ^ 64.
Proof.
  unfold try_send, balance. destruct s as [p q cl hcm cap comps aud h], h. simpl.
  destruct (u64_add_mod hc_observed 1) as (k1 & Hu & Hr). case_match; simpl.
  - destruct (u64_add_mod hc_queue_dropped 1) as (k2 & Hu2 & _). split; [|done].
    exists (k1 - k2). lia.
  - split; [|done]. exists k1. rewrite length_app. simpl. lia.
Qed.

Lemma submit_balanced st a p d fb c s :
  submit (ux_service st) a p d fb c = Done s → balanced st → balanced (st <| ux_service := s |>).
Proof.
  unfold submit. intros Hs (Hb & Hr & Hne). destruct (negb (pa_has_usage p)).
  { apply Done_inj in Hs as <-. by destruct st. }
  destruct (sg_day_from_utc _) as [day|]; [|done]. cbn [mbind outcome_bind] in Hs.
  apply Done_inj in Hs. subst s.
  match goal with |- context [try_send (upd _ _ ?x) ?e] =>
    pose proof (observe_balance x e) as Hob;
    assert (balance x = balance (ux_service st)) as Hx
      by (unfold balance; by rewrite (proj1 (send_completion_keeps _ _ _)), (proj2 (send_completion_keeps _ _ _)))
  end.
  cbv zeta in Hob. rewrite Hx in Hob. clear Hx. revert Hob.
  match goal with |- context [try_send ?x ?e] => generalize (try_send x e) end.
  intros s' [[k Hk] Hobs]. destruct st as [s store batch]. destruct Hb as [k0 Hb].
  unfold balanced, accounted, balance in *. simpl in *. split_and!; [|lia|lia|done].
  exists (k0 + k). lia.
Qed.

Lemma usage_step_balanced st step st' :
  usage_step st step = Done st' → balanced st → balanced st'.
Proof.
  intros Hs Hb. destruct step; cbn [usage_step] in Hs.
  - destruct (submit _ _ _ _ _ _) as [s|] eqn:Hsub; [|done]. apply Done_inj in Hs as <-.
    by eapply submit_balanced.
  - apply Done_inj in Hs as <-. destruct st as [s store batch]. unfold complete_without_usage, balanced, accounted in *. simpl in *.
    by rewrite !(proj1 (send_completion_keeps _ _ _)), (proj2 (send_completion_keeps _ _ _)).
  - apply Done_inj in Hs as <-. destruct st as [[] store batch]. unfold record_parse_failure, balanced, accounted in *. simpl in *.
    by destruct oversize, sv_health.
  - apply Done_inj in Hs as <-. unfold take_batch. destruct (ux_batch st) eqn:Hbt; [done|].
    destruct (sv_queue (ux_service st)) as [|e q] eqn:Hq; [done|]. destruct st as [[] store batch].
    simpl in *. subst. unfold balanced, accounted in *. simpl in *.
    destruct Hb as ([k Hb] & Hr & _). rewrite Hb in *. split_and!; [|lia|lia|].
    + exists k. rewrite length_fmap, length_drop, length_take. simpl. lia.
    + by intros batch n [= <- _].
  - apply Done_inj in Hs as <-. unfold write_attempt.
    destruct (ux_batch st) as [[batch n]|] eqn:Hbt; [|done].
    destruct Hb as ([k Hb] & Hr & Hne). specialize (Hne batch n Hbt).
    unfold insert_batch. rewrite bool_decide_false by (by destruct batch).
    destruct st as [[p q cl hcm cap comps aud h] store bt]. simpl in *. subst bt.
    unfold accounted in Hb. simpl in Hb.
    destruct (us_call_cases (λ s, let '(inserted, s) := insert_events batch s in
       ((inserted, Z.of_nat (length batch) - inserted), s)) store)
      as [(m & fs & _ & ->)|(s0 & _ & _ & _ & _ & ->)].
    + destruct n as [|[|n]]; unfold balanced, accounted; simpl.
      1-2: destruct h; unfold upd; simpl in *;
        destruct (u64_add_mod hc_write_failed (Z.of_nat (length batch))) as (k1 & -> & _);
        split_and!; [exists (k - k1); lia|lia|lia|done].
      split_and!; [exists k; lia|lia|lia|]. by intros ? ? [= <- _].
    + rewrite insert_events_spec. unfold balanced, accounted. simpl.
      set (n0 := length (fresh_events _ _)). destruct h. unfold upd. simpl in *.
      destruct (u64_add_mod hc_persisted (Z.of_nat n0)) as (k1 & -> & _).
      destruct (u64_add_mod hc_duplicate (Z.of_nat (length batch) - Z.of_nat n0)) as (k2 & -> & _).
      split_and!; [exists (k - k1 - k2); lia|lia|lia|done].
  - apply Done_inj in Hs as <-. by destruct st.
  - apply Done_inj in Hs as <-. by destruct st.
  - apply Done_inj in Hs as <-. by destruct st as [[] ? ?].
Qed.

Lemma usage_step_store_ok st step st' :
  usage_step st step = Done st' → store_ok (ux_store st) → store_ok (ux_store st').
Proof.
  intros Hs Hok. destruct step; cbn [usage_step] in Hs.
  1: destruct (submit _ _ _ _ _ _) as [sv|]; [|done].
  all: apply Done_inj in Hs as <-; destruct st as [s store batch]; simpl in *; try done.
  - unfold take_batch. simpl. destruct batch; [done|]. by destruct (sv_queue s).
  - unfold write_attempt. simpl. destruct batch as [[batch n]|]; [|done].
    pose proof (insert_batch_ok batch store Hok) as Hi. destruct (insert_batch batch store) as [r s1].
    by destruct r as [[]|], n as [|[]].
  - by apply delete_before_ok.
  - by apply apply_pricing_updates_ok.
Qed.

(** C16: Whatever requests, writer, refresh and retention do, one after the other in any order,
    every event that was observed is, modulo the width of the counters, counted exactly once: as
    persisted, duplicate, failed or dropped, or it still waits in the queue or in the writer's
    batch; and the table holds each deduplication key once. *)
Theorem events_accounted pricing hc cap store steps st :
  store_ok store →
  usage_run (start_inner pricing hc cap store) steps = Done st →
  hc_observed (sv_health (ux_service st)) = wrap u64 (accounted st)
  ∧ store_ok (ux_store st).
Proof.
  intros Hok Hrun.
  assert (balanced (start_inner pricing hc cap store) ∧ store_ok (ux_store (start_inner pricing hc cap store)))
    as [Hb Hs].
  { unfold start_inner. assert (store_ok (load_pricing_snapshot store).2) as Hl by by apply us_call_ok.
    destruct (load_pricing_snapshot store) as [json s]. split; [|done].
    split_and!; simpl; [by exists 0|lia|lia|done]. }
  assert (balanced st ∧ store_ok (ux_store st)) as [([k Hk] & Hr & _) Hst].
  { revert Hrun Hb Hs. generalize (start_inner pricing hc cap store) as st0.
    induction steps as [|step steps IH]; intros st0 Hrun Hb Hs.
    - by apply Done_inj in Hrun as <-.
    - cbn [usage_run] in Hrun. destruct (usage_step st0 step) as [st1|] eqn:Hst; [|done].
      apply (IH st1); [done| |]; [by eapply usage_step_balanced|by eapply usage_step_store_ok]. }
  split; [|done]. rewrite Hk in Hr |- *. unfold wrap. simpl. rewrite Z.sub_0_r.
  change (18446744073709551615 - 0 + 1) with (2 ^ 64).
  rewrite <- (Z_mod_plus_full (accounted st) k (2 ^ 64)). symmetry. by apply Z.mod_small.
Qed.

(** ** Storing a batch *)

Lemma fresh_events_spec seen batch k :
  k ∈ seen ++ (ue_dedup_key <$> fresh_events seen batch) ↔ k ∈ seen ++ (ue_dedup_key <$> batch).
Proof.
  revert seen. induction batch as [|e batch IH]; intros seen; simpl; [done|].
  case_bool_decide; [rewrite IH; set_solver|].
  specialize (IH (seen ++ [ue_dedup_key e])). simpl. rewrite <- !app_assoc in IH. exact IH.
Qed.

Lemma dedup_keys_rows_from id l : dedup_keys (rows_from id l) = ue_dedup_key <$> l.
Proof. unfold dedup_keys. revert id. induction l as [|e l IH]; intros id; simpl; [done|]. by rewrite IH. Qed.

Lemma write_attempts_idle n st : ux_batch st = None → write_attempts n st = st.
Proof. intros Hb. induction n as [|n IH]; [done|]. simpl. unfold write_attempt. by rewrite Hb. Qed.

(** What is left after the attempts: the batch is stored, or it failed. *)
Definition batch_written (batch : list UsageEvent) (st st' : UsageState) : Prop :=
  let h := sv_health (ux_service st) in
  let fresh := fresh_events (dedup_keys (us_rows (ux_store st))) batch in
  us_rows (ux_store st') = us_rows (ux_store st) ++ rows_from (us_next_id (ux_store st)) fresh
  ∧ sv_health (ux_service st') =
      h <| hc_persisted := u64_add (hc_persisted h) (Z.of_nat (length fresh)) |>
        <| hc_duplicate := u64_add (hc_duplicate h)
             (Z.of_nat (length batch) - Z.of_nat (length fresh)) |>.

Definition batch_failed (batch : list UsageEvent) (st st' : UsageState) : Prop :=
  let h := sv_health (ux_service st) in
  us_rows (ux_store st') = us_rows (ux_store st)
  ∧ sv_health (ux_service st') =
      h <| hc_write_failed := u64_add (hc_write_failed h) (Z.of_nat (length batch)) |>.

Definition next_call_succeeds (faults : list (option string)) : Prop :=
  match faults with Some _ :: _ => False | _ => True end.

Lemma write_attempt_succeeds batch n st :
  batch ≠ [] → ux_batch st = Some (batch, n) → next_call_succeeds (us_faults (ux_store st)) →
  let st' := write_attempt st in
  ux_batch st' = None ∧ sv_queue (ux_service st') = sv_queue (ux_service st)
  ∧ batch_written batch st st'.
Proof.
  intros Hne Hb Hf. unfold write_attempt. rewrite Hb. unfold insert_batch.
  rewrite bool_decide_false by (by destruct batch).
  destruct (us_call_cases (λ s, let '(inserted, s) := insert_events batch s in
       ((inserted, Z.of_nat (length batch) - inserted), s)) (ux_store st))
    as [(m & fs & Hm & _)|(s0 & Hr & Hn & _ & _ & ->)]; [by rewrite Hm in Hf|].
  rewrite insert_events_spec, Hr, Hn. destruct st as [[] store bt], s0. simpl in *. subst.
  unfold batch_written. by destruct sv_health.
Qed.

Lemma write_attempt_fails batch n st m fs :
  batch ≠ [] → ux_batch st = Some (batch, n) → us_faults (ux_store st) = Some m :: fs →
  let st' := write_attempt st in
  sv_queue (ux_service st') = sv_queue (ux_service st)
  ∧ us_faults (ux_store st') = fs ∧ us_next_id (ux_store st') = us_next_id (ux_store st)
  ∧ match n with
    | S (S n) => ux_batch st' = Some (batch, S n)
        ∧ us_rows (ux_store st') = us_rows (ux_store st)
        ∧ sv_health (ux_service st') = sv_health (ux_service st)
    | _ => ux_batch st' = None ∧ batch_failed batch st st'
    end.
Proof.
  intros Hne Hb Hf. unfold write_attempt. rewrite Hb. unfold insert_batch.
  rewrite bool_decide_false by (by destruct batch). unfold us_call. rewrite Hf.
  destruct st as [[] store bt], store, n as [|[|n]]; simpl in *; subst; unfold batch_failed;
    by destruct sv_health.
Qed.

Lemma write_attempts_outcome n batch ms fs st :
  batch ≠ [] → ux_batch st = Some (batch, S n) →
  us_faults (ux_store st) = (Some <$> ms) ++ fs → next_call_succeeds fs →
  let st' := write_attempts (S n) st in
  ux_batch st' = None ∧ sv_queue (ux_service st') = sv_queue (ux_service st)
  ∧ if bool_decide (length ms ≤ n)%nat then batch_written batch st st' else batch_failed batch st st'.
Proof.
  intros Hne. revert n ms st. induction n as [|n IH]; intros ms st Hb Hf Hnext;
    destruct ms as [|m ms]; cbn [fmap list_fmap app] in Hf; cbn [write_attempts].
  - rewrite <- Hf in Hnext. rewrite bool_decide_true by (simpl; lia).
    exact (write_attempt_succeeds batch 1 st Hne Hb Hnext).
  - rewrite bool_decide_false by (simpl; lia).
    destruct (write_attempt_fails batch 1 st m _ Hne Hb Hf) as (Hq & _ & _ & Hn & Hfail). done.
  - rewrite <- Hf in Hnext. rewrite bool_decide_true by (simpl; lia).
    destruct (write_attempt_succeeds batch _ st Hne Hb Hnext) as (Hn & Hq & Hw).
    change (write_attempts n (write_attempt (write_attempt st)))
      with (write_attempts (S n) (write_attempt st)). by rewrite write_attempts_idle.
  - destruct (write_attempt_fails batch _ st m _ Hne Hb Hf) as (Hq & Hfs & Hid & Hbt & Hr & Hh).
    destruct (IH ms (write_attempt st) Hbt Hfs Hnext) as (Hn & Hq' & Hw).
    change (write_attempts n (write_attempt (write_attempt st)))
      with (write_attempts (S n) (write_attempt st)).
    split_and!; [done|by rewrite Hq'|]. simpl length.
    rewrite (bool_decide_ext (S (length ms) ≤ S n)%nat (length ms ≤ n)%nat) by lia.
    case_bool_decide; unfold batch_written, batch_failed in *; by rewrite Hr, Hh, ?Hid in Hw.
Qed.

(** The writer takes at most 128 waiting events, the oldest first, gives those without a
    complete price the current one, and stores the first of each new key; after up to three
    failed attempts still, after four none, and then counts them all as failed. Either way the
    rest of the queue stays. *)
Theorem writer_turn_stores received st ms fs :
  ux_batch st = None → sv_queue (ux_service st) ≠ [] →
  us_faults (ux_store st) = (Some <$> ms) ++ fs → next_call_succeeds fs →
  let n := Nat.min (S received) 128 in
  let queue := sv_queue (ux_service st) in
  let batch := reprice_event (sv_pricing (ux_service st)) <$> take n queue in
  let st' := writer_turn received st in
  ux_batch st' = None ∧ sv_queue (ux_service st') = drop n queue
  ∧ if bool_decide (length ms ≤ 3)%nat
    then batch_written batch st st'
         ∧ ∀ k, k ∈ dedup_keys (us_rows (ux_store st')) ↔
             k ∈ dedup_keys (us_rows (ux_store st)) ∨ k ∈ ue_dedup_key <$> take n queue
    else batch_failed batch st st'.
Proof.
  intros Hb Hq Hf Hnext n queue batch st'.
  assert (batch ≠ []) as Hne by (unfold batch, queue; by destruct (sv_queue _)).
  set (st0 := take_batch received st).
  assert (ux_batch st0 = Some (batch, 4%nat) ∧ ux_store st0 = ux_store st
    ∧ sv_queue (ux_service st0) = drop n queue
    ∧ sv_health (ux_service st0) = sv_health (ux_service st)) as (Hb0 & Hs0 & Hq0 & Hh0).
  { unfold st0, take_batch, batch. rewrite Hb. destruct st as [[] store bt]. simpl in *.
    unfold queue in *. simpl in *. destruct sv_queue; [done|]. done. }
  rewrite <- Hs0 in Hf.
  destruct (write_attempts_outcome 3 batch ms fs st0 Hne Hb0 Hf Hnext) as (Hn' & Hq' & Hw).
  split_and!; [done|by rewrite <- Hq0|].
  unfold batch_written, batch_failed in *. rewrite Hs0, Hh0 in Hw.
  case_bool_decide; [|done]. split; [done|]. intros k. destruct Hw as [Hr _].
  change st' with (write_attempts 4 st0). rewrite Hr. unfold dedup_keys at 1.
  rewrite fmap_app, <- elem_of_app. fold (dedup_keys (us_rows (ux_store st))).
  fold (dedup_keys (rows_from (us_next_id (ux_store st)) (fresh_events (dedup_keys (us_rows (ux_store st))) batch))).
  rewrite dedup_keys_rows_from, fresh_events_spec.
  unfold batch. rewrite <- list_fmap_compose, !elem_of_app.
  erewrite (list_fmap_ext (ue_dedup_key ∘ _) ue_dedup_key); [done|].
  intros i e _. simpl. unfold reprice_event. repeat case_match; by destruct e.
Qed.

(** ** Prices of old events *)

Definition row_update (pricing : PricingEngine) (r : UsageRow) : option UsagePricingUpdate :=
  let e := ur_event r in
  if uc_complete (ue_costs e) then None
  else pricing_update pricing (mkUnpriced (ur_id r) (ue_model e) (ue_tokens e)).

(** A row after the backfill: priced, when it was not and can be. *)
Definition backfill_row (pricing : PricingEngine) (r : UsageRow) : UsageRow :=
  match row_update pricing r with
  | Some u => mkUsageRow (ur_id r) (update_event u (ur_event r))
  | None => r
  end.

Lemma row_update_id pricing r u :
  row_update pricing r = Some u → pu_id u = ur_id r ∧ update_applies u r = true.
Proof.
  unfold row_update, pricing_update, update_applies. cbn [un_model un_tokens un_id].
  destruct (uc_complete (ue_costs (ur_event r))); [done|].
  destruct (price pricing (ue_model (ur_event r)) (ue_tokens (ur_event r))) as [costs version [key|]]; simpl;
    destruct (uc_complete costs); simpl; intros Hu; simplify_eq/=.
  by rewrite Z.eqb_refl.
Qed.

Lemma update_other u r : ur_id r ≠ pu_id u → update_applies u r = false.
Proof. intros Hr. unfold update_applies. apply Z.eqb_neq in Hr. by rewrite Hr. Qed.

Lemma update_rows_others u rows :
  pu_id u ∉ ur_id <$> rows → update_row u <$> rows = rows
  ∧ filter (λ r, update_applies u r = true) rows = [].
Proof.
  induction rows as [|r rows IH]; intros Hin; [done|]. rewrite fmap_cons, not_elem_of_cons in Hin.
  destruct Hin as [Hr Hin]. destruct (IH Hin) as [Hrows Hf].
  assert (update_applies u r = false) as Hu by (apply update_other; congruence).
  rewrite fmap_cons, Hrows, filter_cons, Hf. unfold update_row. rewrite Hu. by rewrite decide_False.
Qed.

Lemma omap_cons {A B} (f : A → option B) x l :
  omap f (x :: l) = match f x with Some y => y :: omap f l | None => omap f l end.
Proof. done. Qed.

(** The updates of a run of rows change just these. *)
Lemma update_block pricing l1 l2 l3 :
  NoDup (ur_id <$> l1 ++ l2 ++ l3) →
  update_all (omap (row_update pricing) l2) (l1 ++ l2 ++ l3)
  = (Z.of_nat (length (omap (row_update pricing) l2)),
     l1 ++ (backfill_row pricing <$> l2) ++ l3).
Proof.
  revert l1. induction l2 as [|r l2 IH]; intros l1 Hnd; [done|].
  cbn [app] in *. rewrite fmap_cons, omap_cons. unfold backfill_row at 1.
  destruct (row_update pricing r) as [u|] eqn:Hu.
  - destruct (row_update_id _ _ _ Hu) as [Hid Happ]. cbn [update_all update_rows].
    unfold update_rows.
    rewrite fmap_app, fmap_cons in Hnd. apply NoDup_app in Hnd as (Hn1 & Hd & Hn2).
    apply NoDup_cons in Hn2 as [Hnr Hn2].
    assert (pu_id u ∉ ur_id <$> l1) as Hl1 by (rewrite Hid; intros Hin; by apply (Hd _ Hin), elem_of_cons; left).
    rewrite <- Hid in Hnr. destruct (update_rows_others u l1 Hl1) as [E1 F1].
    destruct (update_rows_others u (l2 ++ l3) Hnr) as [E2 F2].
    change (λ r0 : UsageRow, if update_applies u r0 then mkUsageRow (ur_id r0) (update_event u (ur_event r0)) else r0)
      with (update_row u).
    rewrite filter_app, filter_cons, decide_True, F1, F2, fmap_app, fmap_cons, E1, E2 by done.
    assert (update_row u r = mkUsageRow (ur_id r) (update_event u (ur_event r))) as ->
      by (unfold update_row; by rewrite Happ).
    specialize (IH (l1 ++ [mkUsageRow (ur_id r) (update_event u (ur_event r))])).
    rewrite <- !app_assoc in IH. cbn [app] in IH. rewrite IH.
    + cbn [app length]. f_equal. lia.
    + rewrite fmap_app, fmap_cons. cbn [ur_id]. apply NoDup_app. split_and!; [done|done|].
      apply NoDup_cons. by rewrite <- Hid.
  - specialize (IH (l1 ++ [r])). rewrite <- !app_assoc in IH. by apply IH.
Qed.

(** Where a batch of selected elements ends. *)
Lemma omap_take {A B} (sel : A → option B) n l :
  omap sel l ≠ [] → ∃ la x y lb,
    l = la ++ x :: lb ∧ sel x = Some y ∧ omap sel (la ++ [x]) = take (S n) (omap sel l).
Proof.
  revert n. induction l as [|x0 l IH]; intros n Hne; [done|]. rewrite omap_cons in *.
  destruct (sel x0) as [y0|] eqn:Hx.
  - destruct (decide (n = O ∨ omap sel l = [])) as [Hend|Hmore].
    + exists [], x0, y0, l. split_and!; [done..|]. cbn [app]. rewrite omap_cons, Hx. simpl. f_equal.
      by destruct Hend as [-> | ->]; rewrite ?take_nil.
    + destruct n as [|n]; [tauto|]. destruct (IH n ltac:(tauto)) as (la & x & y & lb & -> & Hy & Ht).
      exists (x0 :: la), x, y, lb. split_and!; [done..|]. cbn [app]. rewrite omap_cons, Hx, Ht. done.
  - destruct (IH n Hne) as (la & x & y & lb & -> & Hy & Ht).
    exists (x0 :: la), x, y, lb. split_and!; [done..|]. cbn [app]. by rewrite omap_cons, Hx.
Qed.

Definition unpriced_row (after_id : Z) (r : UsageRow) : option UnpricedUsageEvent :=
  let e := ur_event r in
  if negb (uc_complete (ue_costs e)) && (after_id <? ur_id r)
  then Some (mkUnpriced (ur_id r) (ue_model e) (ue_tokens e)) else None.

Lemma unpriced_row_old a l : Forall (λ r, ur_id r ≤ a) l → omap (unpriced_row a) l = [].
Proof.
  induction 1 as [|r l Hr Hl IH]; [done|]. rewrite omap_cons. unfold unpriced_row at 1.
  rewrite (proj2 (Z.ltb_ge _ _) Hr), andb_false_r. done.
Qed.

Lemma unpriced_row_updates pricing a l :
  Forall (λ r, a < ur_id r) l →
  omap (pricing_update pricing) (omap (unpriced_row a) l) = omap (row_update pricing) l.
Proof.
  induction 1 as [|r l Hr Hl IH]; [done|]. rewrite !omap_cons. unfold unpriced_row at 1, row_update at 1.
  rewrite (proj2 (Z.ltb_lt _ _) Hr), andb_true_r.
  destruct (uc_complete (ue_costs (ur_event r))); cbn [negb]; [done|]. rewrite omap_cons.
  by destruct (pricing_update pricing (mkUnpriced (ur_id r) (ue_model (ur_event r)) (ue_tokens (ur_event r)))); rewrite IH.
Qed.

Lemma no_unpriced pricing a l :
  Forall (λ r, a < ur_id r) l → omap (unpriced_row a) l = [] →
  omap (row_update pricing) l = [] ∧ backfill_row pricing <$> l = l.
Proof.
  intros Ha Hn. assert (omap (row_update pricing) l = []) as Hu
    by (by rewrite <- (unpriced_row_updates pricing a), Hn).
  split; [done|]. clear -Hu. induction l as [|r l IH]; [done|].
  rewrite fmap_cons. rewrite omap_cons in Hu. unfold backfill_row at 1.
  destruct (row_update pricing r); [done|]. by rewrite IH.
Qed.

Lemma sorted_ids_nodup l : StronglySorted (λ a b, ur_id a < ur_id b) l → NoDup (ur_id <$> l).
Proof.
  induction 1 as [|r l Hs IH Hr]; [constructor|]. simpl. apply NoDup_cons. split; [|done].
  intros (r' & Heq & Hin)%list_elem_of_fmap. rewrite Forall_forall in Hr. specialize (Hr r' Hin). lia.
Qed.

Lemma sorted_app_cons (l1 l2 : list UsageRow) x :
  StronglySorted (λ a b, ur_id a < ur_id b) (l1 ++ x :: l2) →
  Forall (λ r, ur_id r ≤ ur_id x) (l1 ++ [x]) ∧ Forall (λ r, ur_id x < ur_id r) l2.
Proof.
  intros Hs. induction l1 as [|y l1 IH]; simpl in *; inversion Hs as [|? ? Hs' Hy]; subst.
  - split; [constructor; [lia|constructor]|done].
  - destruct (IH Hs') as [H1' H2']. split; [|done]. constructor; [|done].
    rewrite Forall_forall in Hy. specialize (Hy x ltac:(set_solver)). lia.
Qed.

Lemma sat_add_count c n : 0 ≤ c → 0 ≤ n → sat_add u64 (saturate u64 c) n = saturate u64 (c + n).
Proof. intros. unfold sat_add, saturate. simpl. lia. Qed.

Lemma apply_pricing_updates_rows us s :
  us_faults s = [] →
  apply_pricing_updates us s =
  (Ok (update_all us (us_rows s)).1, s <| us_rows := (update_all us (us_rows s)).2 |>).
Proof.
  intros Hf. unfold apply_pricing_updates. destruct s as [rows next snap fs]. simpl in *. subst fs.
  case_bool_decide as Hu; [by destruct us|]. unfold us_call. simpl. by destruct (update_all us rows).
Qed.

Lemma unpriced_events_rows a n s :
  us_faults s = [] →
  unpriced_events_after a n s = (Ok (take (Z.to_nat n) (omap (unpriced_row a) (us_rows s))), s).
Proof. intros Hf. unfold unpriced_events_after, us_call. by rewrite Hf. Qed.

Lemma backfill_rows_ids pricing (l : list UsageRow) : ur_id <$> (backfill_row pricing <$> l) = ur_id <$> l.
Proof.
  induction l as [|r l IH]; [done|]. rewrite !fmap_cons, IH. f_equal. unfold backfill_row.
  by destruct (row_update pricing r).
Qed.

Lemma sorted_same_ids (l l' : list UsageRow) :
  ur_id <$> l' = ur_id <$> l → StronglySorted (λ a b, ur_id a < ur_id b) l →
  StronglySorted (λ a b, ur_id a < ur_id b) l'.
Proof.
  intros Heq Hs. revert l' Heq. induction Hs as [|r l Hs IH Hr]; intros [|r' l'] Heq; try done; [constructor|].
  rewrite !fmap_cons in Heq. injection Heq as Hid Heq. constructor; [by apply IH|].
  rewrite <- (Forall_fmap ur_id (λ i, ur_id r' < i)), Heq, Hid. by apply Forall_fmap.
Qed.

Lemma backfill_loop_ok pricing fuel a c s l1 l2 :
  us_faults s = [] → us_rows s = l1 ++ l2 →
  StronglySorted (λ a b, ur_id a < ur_id b) (l1 ++ l2) →
  Forall (λ r, ur_id r ≤ a) l1 → Forall (λ r, a < ur_id r) l2 →
  (length l2 < fuel)%nat → 0 ≤ c →
  backfill_loop fuel pricing a (saturate u64 c) s =
  Some (Ok (saturate u64 (c + Z.of_nat (length (omap (row_update pricing) l2)))),
        s <| us_rows := l1 ++ (backfill_row pricing <$> l2) |>).
Proof.
  revert a c s l1 l2. induction fuel as [|fuel IH]; intros a c s l1 l2 Hf Hr Hs H1' H2' Hlen Hc; [lia|].
  cbn [backfill_loop]. rewrite unpriced_events_rows, Hr, omap_app, (unpriced_row_old a l1) by done.
  cbn [app]. change (Z.to_nat PRICING_BACKFILL_BATCH_SIZE) with (S 249).
  destruct (decide (omap (unpriced_row a) l2 = [])) as [Hnone|Hsome].
  - rewrite Hnone. destruct (no_unpriced pricing a l2 H2' Hnone) as [-> ->]. simpl.
    rewrite Z.add_0_r, <- Hr. by destruct s.
  - destruct (omap_take (unpriced_row a) 249 l2 Hsome) as (la & x & y & lb & -> & Hy & Ht).
    assert (un_id y = ur_id x) as Hid.
    { unfold unpriced_row in Hy. destruct (_ && _); [|done]. by injection Hy as <-. }
    replace (la ++ x :: lb) with ((la ++ [x]) ++ lb) in * by (by rewrite <- app_assoc).
    set (l2a := la ++ [x]) in *. rewrite <- Ht.
    assert (last (omap (unpriced_row a) l2a) = Some y) as Hlast.
    { unfold l2a. rewrite omap_app. cbn [omap list_omap]. rewrite Hy. apply last_snoc. }
    destruct (omap (unpriced_row a) l2a) as [|e0 es] eqn:Hes; [done|]. rewrite Hlast, <- Hes.
    cbn [fmap option_fmap option_map default from_option]. rewrite Hid.
    apply Forall_app in H2' as [H2a H2b]. rewrite unpriced_row_updates by done.
    rewrite apply_pricing_updates_rows, Hr by done.
    rewrite update_block by by apply sorted_ids_nodup. cbn [fst snd].
    rewrite sat_add_count by lia.
    assert (Forall (λ r, ur_id r ≤ ur_id x) (l1 ++ l2a) ∧ Forall (λ r, ur_id x < ur_id r) lb) as [Hle Hlt].
    { unfold l2a. rewrite app_assoc. apply sorted_app_cons.
      unfold l2a in Hs. by rewrite <- !app_assoc in Hs |- *. }
    rewrite app_assoc. rewrite (IH _ _ _ (l1 ++ (backfill_row pricing <$> l2a)) lb).
    + rewrite omap_app, length_app, Nat2Z.inj_add, fmap_app, !app_assoc. f_equal. f_equal.
      * f_equal. f_equal. lia.
      * by destruct s.
    + by destruct s.
    + by destruct s.
    + eapply sorted_same_ids; [|exact Hs]. by rewrite app_assoc, !fmap_app, backfill_rows_ids.
    + rewrite <- (Forall_fmap ur_id (λ i, i ≤ ur_id x)), fmap_app, backfill_rows_ids, <- fmap_app.
      by apply Forall_fmap.
    + done.
    + unfold l2a in Hlen. rewrite !length_app in Hlen. simpl in Hlen. lia.
    + lia.
Qed.

(** C38: The backfill ends within as many rounds as there are rows and one more. It prices every
    event that was not priced and can be with the given prices, whole, changes no other event,
    and returns the number of those it priced. *)
Theorem backfill_correct pricing fuel s :
  store_ok s → us_faults s = [] → (length (us_rows s) < fuel)%nat →
  backfill_unpriced_usage fuel pricing s =
  Some (Ok (saturate u64 (Z.of_nat (length (omap (row_update pricing) (us_rows s))))),
        s <| us_rows := backfill_row pricing <$> us_rows s |>).
Proof.
  intros (_ & Hs & _ & Hids) Hf Hlen.
  apply (backfill_loop_ok pricing fuel 0 0 s [] (us_rows s)); try done.
  eapply Forall_impl; [exact Hids|]. simpl. lia.
Qed.

(** ** Retention *)

Definition old_row (min_day : Z) (r : UsageRow) : bool := ue_sg_day (ur_event r) <? min_day.

Lemma delete_first_all n p l :
  (length (filter (λ r, p r = true) l) ≤ n)%nat →
  delete_first n p l = filter (λ r, p r = false) l.
Proof.
  revert n. induction l as [|r l IH]; intros n Hn; [by destruct n|].
  rewrite filter_cons in Hn |- *. destruct (p r) eqn:Hp; simpl in *.
  - destruct n as [|n]; simpl in *; [lia|]. rewrite Hp. apply IH. lia.
  - destruct n as [|n]; simpl; [|by rewrite Hp, IH]. f_equal.
    rewrite <- (IH O) by done. by destruct l.
Qed.

(** A pass deletes as many old rows as it may, and no other. *)
Lemma delete_first_spec n p l :
  (length (delete_first n p l) + Nat.min n (length (filter (λ r, p r = true) l)) = length l)%nat
  ∧ filter (λ r, p r = false) (delete_first n p l) = filter (λ r, p r = false) l.
Proof.
  revert n. induction l as [|r l IH]; intros n; [by destruct n|].
  destruct n as [|n]; [by rewrite Nat.add_0_r|]. cbn [delete_first]. rewrite !(filter_cons _ r l).
  destruct (p r) eqn:Hp; simpl.
  - destruct (IH n) as [Hl Hf]. split; [lia|done].
  - destruct (IH (S n)) as [Hl Hf]. rewrite filter_cons, Hp. cbn [length]. simpl decide.
    split; [simpl in *; lia|simpl; by rewrite Hf].
Qed.

Lemma delete_before_rows min_day n s :
  us_faults s = [] →
  let rows := delete_first (Z.to_nat n) (old_row min_day) (us_rows s) in
  delete_before min_day n s =
  (Ok (Z.of_nat (length (us_rows s)) - Z.of_nat (length rows)), s <| us_rows := rows |>).
Proof. intros Hf. unfold delete_before, us_call. by rewrite Hf. Qed.

(** A retention pass ends, within as many deletions as there are rows and two more, and
    leaves exactly the events that are not older than the first day to keep, in their order. *)
Theorem retention_correct min_day fuel s :
  us_faults s = [] → (length (us_rows s) + 1 < fuel)%nat →
  retention_loop fuel min_day s =
  Some (s <| us_rows := filter (λ r, old_row min_day r = false) (us_rows s) |>).
Proof.
  revert s. induction fuel as [|fuel IH]; intros s Hf Hlen; [lia|]. cbn [retention_loop].
  rewrite delete_before_rows by done. cbv zeta.
  set (n := Z.to_nat RETENTION_BATCH_SIZE).
  destruct (delete_first_spec n (old_row min_day) (us_rows s)) as [Hl Hd].
  destruct (decide (length (filter (λ r, old_row min_day r = true) (us_rows s)) = 0)%nat) as [Hold|Hold].
  - rewrite Hold, Nat.min_0_r in Hl.
    replace (Z.of_nat (length (us_rows s)) - Z.of_nat _) with 0 by lia.
    by rewrite delete_first_all by lia.
  - assert (n = S (Z.to_nat (RETENTION_BATCH_SIZE - 1))) as Hn by reflexivity.
    assert (1 ≤ Nat.min n (length (filter (λ r, old_row min_day r = true) (us_rows s))))%nat as Hmin by lia.
    clear Hn. clearbody n.
    destruct (Z.of_nat (length (us_rows s)) - Z.of_nat (length (delete_first n (old_row min_day) (us_rows s))))
      as [|k|k] eqn:Hk; [lia| |lia].
    rewrite IH; [|by destruct s|destruct s; simpl in *; lia].
    destruct s as [rows next snap fs]. simpl in *. by rewrite Hd.
Qed.

(** ** Restart *)

Lemma with_snapshot_twice e e1 snap :
  with_snapshot e snap = Ok e1 → ∀ snap', with_snapshot e1 snap' = with_snapshot e snap'.
Proof.
  unfold with_snapshot. destruct (validate snap); [|done]. by intros [= <-].
Qed.

Lemma backfill_loop_keeps fuel pricing a c s r s' :
  us_faults s = [] → backfill_loop fuel pricing a c s = Some (r, s') →
  us_snapshot s' = us_snapshot s ∧ us_faults s' = [].
Proof.
  revert a c s. induction fuel as [|fuel IH]; intros a c s Hf Hb; [done|].
  cbn [backfill_loop] in Hb. rewrite unpriced_events_rows in Hb by done.
  destruct (take _ _) as [|e es]; [by injection Hb as <- <-|].
  rewrite apply_pricing_updates_rows in Hb by done. apply IH in Hb; [|by destruct s].
  by destruct s.
Qed.

(** After a refresh has installed a price list and stored it, a restart with the same
    overrides comes up with the same prices, rules and version, provided that the price list
    that was written is read back. *)
Theorem restart_restores_pricing fuel base snapshot now st st' hc cap :
  (∀ json, snapshot_to_str snapshot = Ok json → snapshot_from_str json = Ok snapshot) →
  (∃ old, with_snapshot base old = Ok (sv_pricing (ux_service st)))
  ∨ base = sv_pricing (ux_service st) →
  us_faults (ux_store st) = [] →
  (∃ next json, with_snapshot base snapshot = Ok next ∧ snapshot_to_str snapshot = Ok json) →
  refresh_turn fuel (Ok snapshot) now st = Some st' →
  with_snapshot base snapshot = Ok (sv_pricing (ux_service st'))
  ∧ sv_pricing (ux_service (start_inner base hc cap (ux_store st'))) = sv_pricing (ux_service st').
Proof.
  intros Hrt Hbase Hf (next & json & Hnext & Hjson) Hturn. unfold refresh_turn in Hturn.
  assert (with_snapshot (sv_pricing (ux_service st)) snapshot = Ok next) as Hn.
  { destruct Hbase as [[old Hold]|<-]; [|done]. by rewrite (with_snapshot_twice _ _ _ Hold). }
  rewrite Hn in Hturn. unfold snapshot_to_json in Hturn. rewrite Hjson in Hturn.
  unfold save_pricing_snapshot, us_call in Hturn. rewrite Hf in Hturn. cbn [map_err] in Hturn.
  unfold backfill_unpriced_usage in Hturn.
  destruct (backfill_loop _ _ _ _ _) as [[r store]|] eqn:Hb; [|done].
  apply backfill_loop_keeps in Hb as [Hsnap Hfaults]; [|by destruct (ux_store st)].
  cbn [mbind option_bind] in Hturn. injection Hturn as <-. destruct st as [sv store0 bt], sv. simpl in *.
  split; [done|]. unfold start_inner, load_pricing_snapshot, us_call. simpl. rewrite Hfaults. simpl.
  rewrite Hsnap. destruct store0. simpl. unfold snapshot_from_json. rewrite (Hrt _ Hjson). simpl.
  assert (validate snapshot = Ok tt) as Hv.
  { unfold with_snapshot in Hnext. by destruct (validate snapshot) as [[]|]. }
  rewrite Hv. simpl. by rewrite Hnext.
Qed.
End accounting.
