(* ===== verification/UsageReportFacts.v ===== *)
(** * UsageReportFacts: the theorems on usage reports

    A report is the sum of the stored events, in total, per bucket and per group,
    and its buckets are the runs of days of the range. *)

From S2P Require Import Prelude Text F64 Json Http Model Pricing UsageParse Usage UsageStore.
From S2P Require Import UsageReport.

(** ** Sums *)

Lemma sum_of_app f l1 l2 : sum_of f (l1 ++ l2) = sum_of f l1 + sum_of f l2.
Proof. unfold sum_of. induction l1 as [|e l1 IH]; simpl; [done|]. rewrite IH. lia. Qed.

Lemma sum_of_perm f l1 l2 : l1 ≡ₚ l2 → sum_of f l1 = sum_of f l2.
Proof. unfold sum_of. induction 1; simpl; lia. Qed.

Lemma metrics_of_perm l1 l2 : l1 ≡ₚ l2 → metrics_of l1 = metrics_of l2.
Proof.
  intros Hp. unfold metrics_of. by rewrite !(sum_of_perm _ _ _ Hp).
Qed.

(** An event as the writer stores them. *)
Definition event_ok (e : UsageEvent) : Prop :=
  let t := ue_tokens e in
  0 ≤ ut_input t ∧ 0 ≤ ut_output t ∧ 0 ≤ ut_cache_creation_5m t ∧ 0 ≤ ut_cache_creation_1h t
  ∧ 0 ≤ ut_cache_read t ∧ 0 ≤ uc_known_nano_usd (ue_costs e).

Lemma sum_of_nonneg f l : (∀ e, e ∈ l → 0 ≤ f e) → 0 ≤ sum_of f l.
Proof.
  unfold sum_of. induction l as [|e l IH]; simpl; intros Hf; [done|].
  pose proof (Hf e ltac:(set_solver)). specialize (IH ltac:(set_solver)). lia.
Qed.

Lemma unpriced_of_nonneg c t : 0 ≤ t → 0 ≤ unpriced_of c t.
Proof. unfold unpriced_of. destruct c; simpl; lia. Qed.

(** The nine sums of a list of events. *)
Definition sums : list (UsageEvent → Z) :=
  [λ _, 1; λ e, ut_input (ue_tokens e); λ e, ut_output (ue_tokens e);
   λ e, ut_cache_creation_5m (ue_tokens e); λ e, ut_cache_creation_1h (ue_tokens e);
   λ e, ut_cache_read (ue_tokens e); λ e, uc_known_nano_usd (ue_costs e);
   event_is_unpriced; event_unpriced_tokens].

Lemma sums_nonneg f e : f ∈ sums → event_ok e → 0 ≤ f e.
Proof.
  intros Hf (? & ? & ? & ? & ? & ?). unfold sums in Hf. rewrite !elem_of_cons in Hf.
  destruct Hf as [->|[->|[->|[->|[->|[->|[->|[->|[->|Hf%elem_of_nil]]]]]]]]]; try done; try lia.
  - unfold event_is_unpriced. destruct (uc_complete _); lia.
  - unfold event_unpriced_tokens.
    repeat match goal with |- context [unpriced_of ?c ?t] =>
      pose proof (unpriced_of_nonneg c t ltac:(lia)); generalize dependent (unpriced_of c t) end.
    intros. lia.
Qed.

Lemma metrics_fit_sums l : metrics_fit (metrics_of l) = true ↔ ∀ f, f ∈ sums → fits i64 (sum_of f l) = true.
Proof.
  change (metrics_fit (metrics_of l)) with (forallb (λ f, fits i64 (sum_of f l)) sums).
  rewrite forallb_forall. by setoid_rewrite list_elem_of_In.
Qed.

Lemma metrics_fit_app l1 l2 :
  Forall event_ok (l1 ++ l2) → metrics_fit (metrics_of (l1 ++ l2)) = true →
  metrics_fit (metrics_of l1) = true.
Proof.
  rewrite !metrics_fit_sums, Forall_forall. intros Hok Hf f Hin. specialize (Hf f Hin).
  rewrite sum_of_app in Hf. apply fits_spec in Hf. apply fits_spec.
  assert (0 ≤ sum_of f l1) by (apply sum_of_nonneg; intros; apply sums_nonneg; [done|]; apply Hok; set_solver).
  assert (0 ≤ sum_of f l2) by (apply sum_of_nonneg; intros; apply sums_nonneg; [done|]; apply Hok; set_solver).
  unfold i64 in *. simpl in *. lia.
Qed.

Lemma metrics_fit_perm l1 l2 : l1 ≡ₚ l2 → metrics_fit (metrics_of l1) = metrics_fit (metrics_of l2).
Proof. intros Hp. by rewrite (metrics_of_perm _ _ Hp). Qed.

Lemma metrics_fit_sublist l1 l2 :
  l1 ⊆+ l2 → Forall event_ok l2 → metrics_fit (metrics_of l2) = true → metrics_fit (metrics_of l1) = true.
Proof.
  intros [k Hk]%submseteq_Permutation Hok Hf. eapply metrics_fit_app.
  - by rewrite <- Hk.
  - by rewrite <- (metrics_fit_perm _ _ Hk).
Qed.

Lemma metrics_add_exact l1 l2 :
  metrics_fit (metrics_of (l1 ++ l2)) = true →
  metrics_add (metrics_of l1) (metrics_of l2) = metrics_of (l1 ++ l2).
Proof.
  rewrite metrics_fit_sums. intros Hf.
  assert (∀ f, f ∈ sums → sat_add i64 (sum_of f l1) (sum_of f l2) = sum_of f (l1 ++ l2)) as Hs.
  { intros f Hin. specialize (Hf f Hin). rewrite sum_of_app in *. unfold sat_add.
    by apply saturate_id, fits_spec. }
  unfold metrics_add, tokens_add, metrics_of. simpl.
  rewrite !Hs by (unfold sums; rewrite !elem_of_cons; naive_solver). done.
Qed.

(** Adding up the metrics of lists of events, one after the other. *)
Lemma fold_metrics ls l0 :
  Forall event_ok (l0 ++ concat ls) → metrics_fit (metrics_of (l0 ++ concat ls)) = true →
  foldl metrics_add (metrics_of l0) (metrics_of <$> ls) = metrics_of (l0 ++ concat ls).
Proof.
  revert l0. induction ls as [|l ls IH]; intros l0 Hok Hf; simpl in *; [by rewrite app_nil_r|].
  rewrite app_assoc in Hok, Hf. rewrite metrics_add_exact by by eapply metrics_fit_app.
  by rewrite IH, <- app_assoc.
Qed.

Lemma fold_metrics_nil ls :
  Forall event_ok (concat ls) → metrics_fit (metrics_of (concat ls)) = true →
  foldl metrics_add metrics_default (metrics_of <$> ls) = metrics_of (concat ls).
Proof. intros. by apply (fold_metrics ls []). Qed.

(** ** Groups *)

Lemma group_keys_nodup g l : NoDup (group_keys g l).
Proof. unfold group_keys. rewrite sort_by_perm. apply NoDup_remove_dups. Qed.

Lemma elem_of_group_keys g l k : k ∈ group_keys g l ↔ ∃ e, e ∈ l ∧ key_of g e = k.
Proof.
  unfold group_keys. rewrite sort_by_perm, elem_of_remove_dups, list_elem_of_fmap. naive_solver.
Qed.

(** The groups whose key has a property hold the events whose key has it. *)
Lemma groups_where g l (Q : GroupKey → Prop) `{∀ k, Decision (Q k)} :
  concat ((λ k, filter (λ e, key_of g e = k) l) <$> filter Q (group_keys g l))
  ≡ₚ filter (λ e, Q (key_of g e)) l.
Proof.
  rewrite concat_groups by apply NoDup_filter, group_keys_nodup.
  rewrite (filter_ext_in _ (λ e, Q (key_of g e))); [done|]. intros e He.
  rewrite list_elem_of_filter, elem_of_group_keys. naive_solver.
Qed.

(** ** Rows *)

(** The key of an event in the breakdown. *)
Definition group_name (g : UsageGroupBy) (e : UsageEvent) : string :=
  match g with
  | GB_Account => int_to_string (ue_account_id e)
  | GB_ApiToken => int_to_string (ue_api_token_id e)
  | GB_Model => ue_model e
  end.

Definition group_row (g : UsageGroupBy) (l : list UsageEvent) (k : GroupKey) : DailyUsageRow :=
  mkDailyRow k.1 k.2.1 k.2.2 (metrics_of (filter (λ e, key_of g e = k) l)).

Lemma aggregate_rows_ok f l :
  Forall event_ok l → metrics_fit (metrics_of l) = true →
  aggregate_rows f l = Ok (group_row (uf_group_by f) l <$> group_keys (uf_group_by f) l).
Proof.
  intros Hok Hf. unfold aggregate_rows. set (g := uf_group_by f).
  induction (group_keys g l) as [|k ks IH]; [done|]. rewrite !fmap_cons. cbn [collect_results].
  rewrite IH. unfold daily_row at 1. rewrite (metrics_fit_sublist _ l); [done| |done..].
  apply sublist_submseteq, sublist_filter.
Qed.

Lemma sum_rows_folds g rows :
  sum_rows g rows =
  (foldl metrics_add metrics_default (dr_metrics <$> rows),
   foldl (λ m r, add_to (dr_sg_day r) (dr_metrics r) m) ∅ rows,
   foldl (λ m r, add_to (group_key r g) (dr_metrics r) m) ∅ rows).
Proof.
  unfold sum_rows. generalize metrics_default as a, (∅ : gmap Z UsageMetrics) as m1,
    (∅ : gmap string UsageMetrics) as m2.
  induction rows as [|r rows IH]; intros a m1 m2; simpl; [done|]. by rewrite IH.
Qed.

Lemma fold_add_lookup {A K} `{Countable K} (k : A → K) (x : A → UsageMetrics) rows m k0 :
  foldl (λ m r, add_to (k r) (x r) m) m rows !! k0 =
  match filter (λ r, k r = k0) rows with
  | [] => m !! k0
  | rs => Some (foldl metrics_add (default metrics_default (m !! k0)) (x <$> rs))
  end.
Proof.
  revert m. induction rows as [|r rows IH]; intros m; [done|]. simpl. rewrite IH. unfold add_to.
  destruct (decide (k r = k0)) as [<-|Hk].
  - rewrite filter_cons_True, lookup_insert_eq by done. simpl. by destruct (filter _ rows).
  - by rewrite filter_cons_False, lookup_insert_ne by done.
Qed.

Lemma foldl_fmap {A B C} (f : A → C → A) (h : B → C) l a :
  foldl f a (h <$> l) = foldl (λ a b, f a (h b)) a l.
Proof. revert a. induction l as [|x l IH]; intros a; simpl; [done|]. by rewrite IH. Qed.

(** What is asked of a report's events: their numbers are numbers of requests, and
    their sums are 64-bit numbers. *)
Definition countable (l : list UsageEvent) : Prop :=
  Forall event_ok l ∧ metrics_fit (metrics_of l) = true.

Lemma countable_sub l1 l2 : l1 ⊆+ l2 → countable l2 → countable l1.
Proof.
  intros Hs [Hok Hf]. split; [|by eapply metrics_fit_sublist].
  apply submseteq_Permutation in Hs as [k Hk]. rewrite Hk, Forall_app in Hok. apply Hok.
Qed.

Lemma countable_filter (P : UsageEvent → Prop) `{∀ e, Decision (P e)} l :
  countable l → countable (filter P l).
Proof. apply countable_sub, sublist_submseteq, sublist_filter. Qed.

(** The metrics of some groups, added up, are those of their events. *)
Lemma groups_metrics g l (Q : GroupKey → Prop) `{∀ k, Decision (Q k)} :
  countable l →
  foldl metrics_add metrics_default
    ((λ k, metrics_of (filter (λ e, key_of g e = k) l)) <$> filter Q (group_keys g l))
  = metrics_of (filter (λ e, Q (key_of g e)) l).
Proof.
  intros Hc. pose proof (groups_where g l Q) as Hg.
  pose proof (list_fmap_compose (λ k, filter (λ e, key_of g e = k) l) metrics_of
    (filter Q (group_keys g l))) as Hmap. unfold compose in Hmap. rewrite Hmap. clear Hmap.
  assert (countable (concat ((λ k, filter (λ e, key_of g e = k) l) <$> filter Q (group_keys g l))))
    as [? ?].
  { eapply countable_sub; [|by apply (countable_filter (λ e, Q (key_of g e)))]. by rewrite Hg. }
  rewrite fold_metrics_nil by done. by apply metrics_of_perm.
Qed.

(** The sums of a report's rows, by any key that the groups refine. *)
Lemma group_sums {K} `{Countable K} g l (kf : GroupKey → K) k0 :
  countable l →
  foldl (λ m k, add_to (kf k) (metrics_of (filter (λ e, key_of g e = k) l)) m) ∅
    (group_keys g l) !! k0 =
  let es := filter (λ e, kf (key_of g e) = k0) l in
  if bool_decide (es = []) then None else Some (metrics_of es).
Proof.
  intros Hc. rewrite fold_add_lookup, lookup_empty. simpl.
  pose proof (groups_metrics g l (λ k, kf k = k0) Hc) as Hm.
  pose proof (groups_where g l (λ k, kf k = k0)) as Hg.
  destruct (filter (λ k, kf k = k0) (group_keys g l)) as [|k ks] eqn:Hks.
  - simpl in Hg. apply Permutation_nil_l in Hg. by rewrite bool_decide_true.
  - rewrite bool_decide_false; [by f_equal|]. intros He.
    assert (k ∈ filter (λ k, kf k = k0) (group_keys g l)) as Hin by (rewrite Hks; left).
    apply list_elem_of_filter in Hin as [Hk (e & Hel & <-)%elem_of_group_keys].
    assert (e ∈ filter (λ e, kf (key_of g e) = k0) l) as Hin by by apply list_elem_of_filter.
    rewrite He in Hin. by apply not_elem_of_nil in Hin.
Qed.

(** The loop over the rows of a report. *)
Lemma sum_rows_spec g l :
  countable l → ∃ by_day breakdown,
    sum_rows g (group_row g l <$> group_keys g l) = (metrics_of l, by_day, breakdown)
    ∧ (∀ d, by_day !! d = let es := filter (λ e, ue_sg_day e = d) l in
         if bool_decide (es = []) then None else Some (metrics_of es))
    ∧ (∀ k, breakdown !! k = let es := filter (λ e, group_name g e = k) l in
         if bool_decide (es = []) then None else Some (metrics_of es)).
Proof.
  intros Hc. rewrite sum_rows_folds, !foldl_fmap. do 2 eexists. split_and!; [|intros k..].
  - f_equal. f_equal.
    pose proof (groups_metrics g l (λ _, True) Hc) as Hm.
    rewrite !filter_all, foldl_fmap in Hm. exact Hm.
  - exact (group_sums g l (λ k, k.1) k Hc).
  - pose proof (group_sums g l (λ k, match g with GB_Model => k.2.2 | _ => int_to_string k.2.1 end) k Hc)
      as Hm. by destruct g.
Qed.

(** ** The breakdown *)

(** The three keys of a row, larger first but for the label. *)
Lemma breakdown_le_spec a b :
  breakdown_le a b = true ↔
  let cost r := um_known_cost_nano_usd (br_metrics r) in
  let total r := tokens_total (um_tokens (br_metrics r)) in
  cost b < cost a ∨ cost b = cost a ∧ (total b < total a ∨ total b = total a ∧
    String.leb (br_label a) (br_label b) = true).
Proof.
  unfold breakdown_le. rewrite !orb_true_iff, !andb_true_iff, !orb_true_iff, !andb_true_iff,
    !Z.ltb_lt, !Z.eqb_eq. naive_solver.
Qed.

Lemma breakdown_le_total a b : breakdown_le a b = false → breakdown_le b a = true.
Proof.
  intros Hf. apply breakdown_le_spec.
  assert (¬ breakdown_le a b = true) as Hn by (by rewrite Hf).
  rewrite breakdown_le_spec in Hn. cbv beta zeta in *.
  assert (String.leb (br_label a) (br_label b) = true ∨ String.leb (br_label b) (br_label a) = true)
    as Hl by apply String.leb_total.
  set (P := String.leb (br_label a) (br_label b) = true) in *. set (Q := String.leb (br_label b) (br_label a) = true) in *.
  clearbody P Q. destruct (Z.lt_total (um_known_cost_nano_usd (br_metrics a)) (um_known_cost_nano_usd (br_metrics b)))
    as [|[|]], (Z.lt_total (tokens_total (um_tokens (br_metrics a))) (tokens_total (um_tokens (br_metrics b))))
    as [|[|]]; naive_solver lia.
Qed.

Lemma breakdown_le_trans a b c :
  breakdown_le a b = true → breakdown_le b c = true → breakdown_le a c = true.
Proof.
  rewrite !breakdown_le_spec. cbv beta zeta. pose proof (leb_trans (br_label a) (br_label b) (br_label c)).
  intros [?|[? [?|[? ?]]]] [?|[? [?|[? ?]]]]; auto; try (left; lia); right; (split; [lia|]);
    try (left; lia); right; (split; [lia|auto]).
Qed.

(** The rows are in their order, there is one for each key of an event, under the
    label of that event, and its metrics are those of the events with that key. *)
Definition breakdown_correct (g : UsageGroupBy) (label : UsageEvent → string) (l : list UsageEvent)
    (rows : list UsageBreakdownRow) : Prop :=
  StronglySorted (λ a b, breakdown_le a b = true) rows
  ∧ NoDup (br_key <$> rows)
  ∧ (∀ k, k ∈ br_key <$> rows ↔ ∃ e, e ∈ l ∧ group_name g e = k)
  ∧ ∀ r, r ∈ rows →
       br_metrics r = metrics_of (filter (λ e, group_name g e = br_key r) l)
       ∧ ∀ e, e ∈ l → group_name g e = br_key r → br_label r = label e.

Lemma breakdown_rows_correct g labels label l (m : gmap string UsageMetrics) :
  (∀ k, m !! k = let es := filter (λ e, group_name g e = k) l in
     if bool_decide (es = []) then None else Some (metrics_of es)) →
  (∀ e, e ∈ l → default (group_name g e) (labels !! group_name g e) = label e) →
  breakdown_correct g label l (breakdown_rows labels m).
Proof.
  intros Hm Hlab. unfold breakdown_rows.
  assert (br_key <$> ((λ '(key, metrics), mkBreakdown key (default key (labels !! key)) metrics)
    <$> btree_entries m) = (btree_entries m).*1) as Hk.
  { induction (btree_entries m) as [|[k x] es IH]; [done|]. simpl. by f_equal. }
  split_and!.
  - apply sort_by_sorted; [apply breakdown_le_total|apply breakdown_le_trans].
  - rewrite sort_by_perm, Hk, btree_entries_perm. apply NoDup_fst_map_to_list.
  - intros k. rewrite sort_by_perm, Hk, list_elem_of_fmap. split.
    + intros ([k' x] & -> & Hx%elem_of_btree_entries). rewrite Hm in Hx. simpl in *.
      destruct (filter _ l) as [|e es] eqn:He; [done|].
      assert (e ∈ filter (λ e, group_name g e = k') l) as [? ?]%list_elem_of_filter by (rewrite He; left).
      by exists e.
    + intros (e & He & <-). exists (group_name g e, metrics_of (filter (λ e', group_name g e' = group_name g e) l)).
      split; [done|]. apply elem_of_btree_entries. rewrite Hm. simpl.
      rewrite bool_decide_false; [done|]. intros Hn.
      assert (e ∈ filter (λ e', group_name g e' = group_name g e) l) as Hin by by apply list_elem_of_filter.
      rewrite Hn in Hin. by apply not_elem_of_nil in Hin.
  - intros r. rewrite sort_by_perm. intros ([k x] & -> & Hx%elem_of_btree_entries)%list_elem_of_fmap.
    rewrite Hm in Hx. simpl in *. split; [destruct (bool_decide _); congruence|].
    intros e He <-. by apply Hlab.
Qed.

(** ** Labels *)

Lemma labels_of_lookup lab opts (m : gmap string string) id :
  (∀ o, o ∈ opts → ud_label o = lab (ud_id o)) →
  id ∈ ud_id <$> opts ∨ m !! int_to_string id = Some (lab id) →
  foldl (λ m o, <[int_to_string (ud_id o) := ud_label o]> m) m opts !! int_to_string id = Some (lab id).
Proof.
  revert m. induction opts as [|o opts IH]; intros m Hlab Hid; simpl.
  - destruct Hid as [[]%elem_of_nil|?]; done.
  - apply IH; [set_solver|]. rewrite fmap_cons, elem_of_cons in Hid.
    destruct (decide (id = ud_id o)) as [->|Hne].
    + right. by rewrite lookup_insert_eq, Hlab by set_solver.
    + rewrite lookup_insert_ne; [naive_solver|]. intros Heq. apply Hne. unfold int_to_string in Heq.
      by apply (inj pretty) in Heq.
Qed.

Lemma dimension_labels prefix ids names id :
  id ∈ ids → labels_of (dimension_options prefix ids names) !! int_to_string id
             = Some (label_or prefix names id).
Proof.
  intros Hid. unfold labels_of, dimension_options.
  apply (labels_of_lookup (label_or prefix names)).
  - intros o. rewrite sort_by_perm, list_elem_of_fmap. by intros (id' & -> & _).
  - left. rewrite sort_by_perm, <- list_fmap_compose, list_elem_of_fmap. exists id.
    split; [done|]. rewrite elem_of_remove_dups. set_solver.
Qed.

(** ** The buckets *)

Section buckets.
Context `{CalendarLaws}.

(** The day with which the natural day, week or month of a day starts. *)
Definition natural_start (g : UsageGranularity) (d : Z) : Z :=
  match g with
  | UG_Day => d
  | UG_Week => d - days_from_monday d
  | UG_Month => month_first d
  end.

Lemma bucket_start_natural g d :
  naive_min + 6 ≤ d ≤ naive_max → bucket_start d g = Done (natural_start g d).
Proof.
  intros Hd. destruct g; simpl; [done| |done]. unfold date_add. pose proof (weekday_range d).
  rewrite !(proj2 (Z.leb_le _ _)) by lia. done.
Qed.

Lemma natural_start_le g d : natural_start g d ≤ d.
Proof.
  destruct g; simpl; [lia| |apply month_first_le]. pose proof (weekday_range d). lia.
Qed.

Lemma weekday_add d (n : nat) :
  days_from_monday d + Z.of_nat n < 7 →
  days_from_monday (d + Z.of_nat n) = days_from_monday d + Z.of_nat n.
Proof.
  induction n as [|n IH]; intros Hn; [by rewrite !Z.add_0_r|].
  rewrite Nat2Z.inj_succ in *. replace (d + Z.succ (Z.of_nat n)) with (d + Z.of_nat n + 1) by lia.
  rewrite weekday_next, IH by lia. pose proof (weekday_range d). rewrite Z.mod_small by lia. lia.
Qed.

Lemma natural_start_same g d d' :
  natural_start g d ≤ d' ≤ d → natural_start g d' = natural_start g d.
Proof.
  destruct g; simpl; [lia| |apply month_first_same]. intros Hd.
  pose proof (weekday_range d). pose proof (weekday_range d').
  set (s := d - days_from_monday d) in *.
  (* the Monday that starts the week of [d] *)
  assert (days_from_monday s = 0) as Hs.
  { pose proof (weekday_range s). destruct (decide (days_from_monday s + days_from_monday d < 7)) as [Hlt|Hge].
    - pose proof (weekday_add s (Z.to_nat (days_from_monday d))) as Ha.
      rewrite Z2Nat.id in Ha by lia. replace (s + days_from_monday d) with d in Ha by lia. lia.
    - (* the week of [s] ends before [d] *)
      exfalso. set (k := 6 - days_from_monday s).
      pose proof (weekday_add s (Z.to_nat k)) as Ha. rewrite Z2Nat.id in Ha by lia.
      specialize (Ha ltac:(lia)). pose proof (weekday_next (s + k)) as Hn. rewrite Ha in Hn.
      replace ((days_from_monday s + k + 1) `mod` 7) with 0 in Hn
        by (replace (days_from_monday s + k + 1) with 7 by lia; done).
      pose proof (weekday_add (s + k + 1) (Z.to_nat (days_from_monday d - k - 1))) as Hb.
      rewrite Z2Nat.id in Hb by lia. rewrite Hn in Hb.
      replace (s + k + 1 + (days_from_monday d - k - 1)) with d in Hb by lia. lia. }
  pose proof (weekday_add s (Z.to_nat (d' - s))) as Ha. rewrite Z2Nat.id in Ha by lia.
  replace (s + (d' - s)) with d' in Ha by lia. rewrite Hs in Ha. lia.
Qed.

Lemma natural_start_mono g d d' : d ≤ d' → natural_start g d ≤ natural_start g d'.
Proof.
  intros Hd. destruct (decide (natural_start g d' < natural_start g d)) as [Hlt|]; [|lia].
  pose proof (natural_start_le g d). rewrite (natural_start_same g d' d) in * by lia. lia.
Qed.

(** The events of a run of days. *)
Definition events_of_days (a b : Z) (l : list UsageEvent) : list UsageEvent :=
  filter (λ e, a ≤ ue_sg_day e ≤ b) l.

Context (g : UsageGranularity) (start : Z) (l : list UsageEvent) (by_day : gmap Z UsageMetrics).
Context (Hl : countable l).
Context (Hby : ∀ d, by_day !! d = let es := filter (λ e, ue_sg_day e = d) l in
                      if bool_decide (es = []) then None else Some (metrics_of es)).

(** What is collected under [s] when the days from [start] up to [d], [d] excluded,
    are covered. *)
Definition covered (d s : Z) (c : Covered) : Prop :=
  start ≤ cv_start c ≤ cv_end c ∧ cv_end c < d
  ∧ (∀ x, start ≤ x < d → natural_start g x = s ↔ cv_start c ≤ x ≤ cv_end c)
  ∧ cv_metrics c = metrics_of (events_of_days (cv_start c) (cv_end c) l).

Definition covers (d : Z) (buckets : gmap Z Covered) : Prop :=
  map_Forall (covered d) buckets
  ∧ ∀ x, start ≤ x < d → is_Some (buckets !! natural_start g x).

(** One more day, of which the sums by day say what its events are. *)
Lemma add_day a d :
  a ≤ d →
  let c := mkCovered a d (metrics_of (events_of_days a (d - 1) l)) in
  match by_day !! d with
  | Some metrics => c <| cv_metrics := metrics_add (cv_metrics c) metrics |>
  | None => c
  end = mkCovered a d (metrics_of (events_of_days a d l)).
Proof.
  intros Ha. rewrite Hby. simpl.
  assert (events_of_days a (d - 1) l ++ filter (λ e, ue_sg_day e = d) l ≡ₚ events_of_days a d l) as Hp.
  { unfold events_of_days. etrans.
    - apply (filter_or_perm (λ e, a ≤ ue_sg_day e ≤ d - 1) (λ e, ue_sg_day e = d)). intros e ?. lia.
    - erewrite filter_ext_in; [done|]. intros e _. simpl. lia. }
  assert (countable (events_of_days a d l)) as [_ Hf] by by apply countable_filter.
  destruct (filter _ l) as [|e es].
  - rewrite app_nil_r in Hp. by rewrite bool_decide_true, (metrics_of_perm _ _ Hp).
  - rewrite bool_decide_false by done. unfold upd. simpl.
    rewrite metrics_add_exact by by rewrite (metrics_fit_perm _ _ Hp).
    by rewrite (metrics_of_perm _ _ Hp).
Qed.

Lemma sg_day_id d : naive_min ≤ d ≤ naive_max → sg_day_from_date d = d.
Proof. intros Hd. pose proof naive_range. unfold sg_day_from_date, to_i32_or_max. by rewrite checked_fits by lia. Qed.

Lemma covered_next d s c : natural_start g d ≠ s → covered d s c → covered (d + 1) s c.
Proof.
  intros Hs (? & ? & Hx & ?). split_and!; [lia..| |done]. intros x Hr.
  destruct (decide (x = d)) as [->|]; [|apply Hx; lia]. lia.
Qed.

(** The run of days of a natural start ends the day before the next one covered. *)
Lemma covered_run d c :
  start ≤ d → covered d (natural_start g d) c →
  cv_end c = d - 1
  ∧ covered (d + 1) (natural_start g d)
      (mkCovered (cv_start c) d (metrics_of (events_of_days (cv_start c) d l))).
Proof.
  intros Hd ((? & ?) & ? & Hx & Hm).
  assert (∀ x, cv_start c ≤ x ≤ d → natural_start g x = natural_start g d) as Hin.
  { intros x ?. apply natural_start_same. pose proof (natural_start_le g (cv_start c)).
    rewrite (proj2 (Hx (cv_start c) ltac:(lia)) ltac:(lia)) in *. lia. }
  assert (cv_end c = d - 1) as He.
  { destruct (decide (cv_start c = d)); [lia|].
    pose proof (proj1 (Hx (d - 1) ltac:(lia)) (Hin (d - 1) ltac:(lia))). lia. }
  split; [done|]. split_and!; simpl; [lia..| |done]. intros x Hr.
  destruct (decide (x = d)) as [->|]; [split; [lia|done]|]. rewrite Hx by lia. lia.
Qed.

Lemma covered_first d :
  start ≤ d → (∀ x, start ≤ x < d → natural_start g x ≠ natural_start g d) →
  covered (d + 1) (natural_start g d) (mkCovered d d (metrics_of (events_of_days d d l))).
Proof.
  intros Hd Hx. split_and!; simpl; [lia..| |done]. intros x Hr.
  destruct (decide (x = d)) as [->|]; [split; [lia|done]|]. split; [|lia].
  intros Hn. by destruct (Hx x ltac:(lia)).
Qed.

Lemma events_of_no_day d : events_of_days d (d - 1) l = [].
Proof.
  clear Hl Hby. unfold events_of_days. induction l as [|e l' IH]; [done|].
  by rewrite filter_cons_False by lia.
Qed.

Lemma cover_day_covers d buckets :
  naive_min + 6 ≤ start ≤ d → d ≤ naive_max → covers d buckets →
  ∃ buckets', cover_day g by_day d buckets = Done buckets' ∧ covers (d + 1) buckets'.
Proof.
  intros Hd Hmax [Hc Hcov]. unfold cover_day. rewrite bucket_start_natural by lia.
  cbn [mbind outcome_bind]. rewrite sg_day_id by lia. set (s := natural_start g d).
  set (old := default (mkCovered d d metrics_default) (buckets !! s)).
  assert (cv_metrics old = metrics_of (events_of_days (cv_start old) (d - 1) l) ∧ cv_start old ≤ d
          ∧ covered (d + 1) s (mkCovered (cv_start old) d (metrics_of (events_of_days (cv_start old) d l))))
    as (Hm & Hle & Hnew).
  { unfold old. destruct (buckets !! s) as [c|] eqn:Hs; simpl.
    - destruct (covered_run d c ltac:(lia) (Hc s c Hs)) as [He Hr].
      destruct (Hc s c Hs) as (? & ? & ? & Hm). rewrite He in Hm. split_and!; [done|lia|done].
    - rewrite events_of_no_day. split_and!; [done|lia|]. apply covered_first; [lia|].
      intros x Hx Hn. destruct (Hcov x Hx) as [c Hc']. unfold s in Hs. congruence. }
  pose proof (add_day (cv_start old) d Hle) as Ha. rewrite <- Hm in Ha.
  destruct old as [a b m]. cbn [cv_start cv_metrics] in *.
  eexists. split; [done|]. simpl in *. unfold upd. simpl. unfold upd in Ha. simpl in Ha.
  rewrite Ha. split.
  - intros s' c [[<- <-]|[Hs Hc']]%lookup_insert_Some; [done|].
    apply covered_next; [done|]. by apply Hc.
  - intros x Hx. destruct (decide (natural_start g x = s)) as [->|Hn];
      [by rewrite lookup_insert_eq; eexists|].
    rewrite lookup_insert_ne by done. apply Hcov. destruct (decide (x = d)) as [->|]; [done|lia].
Qed.

Lemma cover_days_covers n d buckets :
  naive_min + 6 ≤ start ≤ d → d + Z.of_nat n ≤ naive_max → covers d buckets →
  ∃ buckets', cover_days g by_day n d buckets = Done buckets' ∧ covers (d + Z.of_nat n) buckets'.
Proof.
  revert d buckets. induction n as [|n IH]; intros d buckets Hd Hmax Hc.
  - rewrite Z.add_0_r. by exists buckets.
  - rewrite Nat2Z.inj_succ in *.
    destruct (cover_day_covers d buckets) as (b1 & Hb & Hc1); [lia..|done|]. cbn [cover_days].
    rewrite Hb. cbn [mbind outcome_bind]. unfold date_add at 1.
    rewrite !(proj2 (Z.leb_le _ _)) by lia. cbn [andb mbind outcome_bind].
    destruct (IH (d + 1) b1) as (b2 & Hb2 & Hc2); [lia..|done|].
    exists b2. split; [done|]. by replace (d + Z.succ (Z.of_nat n)) with (d + 1 + Z.of_nat n) by lia.
Qed.

Definition bucket_of (entry : Z * Covered) : UsageBucket :=
  let '(s, c) := entry in
  mkBucket (format_date s) (cv_start c) (cv_end c) (cv_start c * day_ns - from_secs (8 * 3600))
    ((cv_end c + 1) * day_ns - from_secs (8 * 3600)) (cv_metrics c).

Lemma finish_bucket_Done s c :
  naive_min < cv_start c ≤ cv_end c → cv_end c < naive_max →
  finish_bucket (s, c) = Done (bucket_of (s, c)).
Proof.
  intros Hs He. unfold finish_bucket, singapore_midnight_utc, dt_add, date_add.
  change (- from_secs (8 * 3600)) with (Z.opp (from_secs (8 * 3600))). rewrite Z.add_opp_r.
  rewrite naive_midnight by lia. cbn [mbind outcome_bind].
  rewrite !(proj2 (Z.leb_le _ _)) by lia. cbn [andb mbind outcome_bind].
  rewrite Z.add_opp_r, naive_midnight by lia. done.
Qed.

Lemma collect_outcomes_Done {A B} (f : A → outcome B) (h : A → B) xs :
  (∀ x, x ∈ xs → f x = Done (h x)) → collect_outcomes (f <$> xs) = Done (h <$> xs).
Proof.
  induction xs as [|x xs IH]; intros Hf; [done|]. rewrite !fmap_cons. cbn [collect_outcomes].
  rewrite Hf by set_solver. cbn [mbind outcome_bind]. by rewrite IH by set_solver.
Qed.

(** The buckets are the maximal runs of days of the range with the same natural
    start, in order and without a gap; each is named after that start, runs from one
    Singapore midnight to another and sums the events of its days. *)
Definition buckets_correct (fin : Z) (bs : list UsageBucket) : Prop :=
  StronglySorted (λ a b, ub_end_date a < ub_start_date b) bs
  ∧ (∀ x, start ≤ x ≤ fin → ∃ b, b ∈ bs ∧ ub_start_date b ≤ x ≤ ub_end_date b)
  ∧ ∀ b, b ∈ bs →
      start ≤ ub_start_date b ≤ ub_end_date b ∧ ub_end_date b ≤ fin
      ∧ (∀ x, start ≤ x ≤ fin →
           natural_start g x = natural_start g (ub_start_date b)
           ↔ ub_start_date b ≤ x ≤ ub_end_date b)
      ∧ ub_key b = format_date (natural_start g (ub_start_date b))
      ∧ ub_start_at_utc b = ub_start_date b * day_ns - from_secs (8 * 3600)
      ∧ ub_end_at_utc_exclusive b = (ub_end_date b + 1) * day_ns - from_secs (8 * 3600)
      ∧ ub_metrics b = metrics_of (events_of_days (ub_start_date b) (ub_end_date b) l).

Lemma elem_of_date_entries {A} (m : gmap Z A) s c : (s, c) ∈ date_entries m ↔ m !! s = Some c.
Proof. unfold date_entries. by rewrite sort_by_perm, elem_of_map_to_list. Qed.

Lemma date_entries_sorted {A} (m : gmap Z A) : StronglySorted (λ a b, a.1 < b.1) (date_entries m).
Proof.
  assert (StronglySorted (λ a b : Z * A, (a.1 <=? b.1) = true) (date_entries m)) as Hs.
  { apply sort_by_sorted; intros *; rewrite ?Z.leb_le, ?Z.leb_gt; lia. }
  assert (NoDup (date_entries m).*1) as Hn.
  { unfold date_entries. rewrite sort_by_perm. apply NoDup_fst_map_to_list. }
  induction Hs as [|x xs Hs IH Hx]; [constructor|]. rewrite fmap_cons, NoDup_cons in Hn.
  destruct Hn as [Hnot Hn]. constructor; [by apply IH|]. rewrite Forall_forall in *.
  intros y Hy. specialize (Hx y Hy). apply Z.leb_le in Hx.
  assert (x.1 ≠ y.1); [|lia]. intros Heq. apply Hnot. rewrite Heq. by apply list_elem_of_fmap_2.
Qed.

Lemma covered_order d s1 c1 s2 c2 :
  s1 < s2 → covered d s1 c1 → covered d s2 c2 → cv_end c1 < cv_start c2.
Proof.
  intros Hs (? & ? & Hc1 & _) (? & ? & Hc2 & _).
  destruct (decide (cv_end c1 < cv_start c2)); [done|]. exfalso.
  pose proof (natural_start_mono g (cv_start c2) (cv_end c1) ltac:(lia)) as Hm.
  rewrite (proj2 (Hc1 (cv_end c1) ltac:(lia)) ltac:(lia)) in Hm.
  rewrite (proj2 (Hc2 (cv_start c2) ltac:(lia)) ltac:(lia)) in Hm. lia.
Qed.

Lemma sorted_fmap {A B} (R : A → A → Prop) (R' : B → B → Prop) (f : A → B) xs :
  (∀ x y, x ∈ xs → y ∈ xs → R x y → R' (f x) (f y)) →
  StronglySorted R xs → StronglySorted R' (f <$> xs).
Proof.
  intros Hf Hs. induction Hs as [|x xs Hs IH Hx]; [constructor|]. rewrite fmap_cons. constructor.
  - apply IH. intros a b Ha Hb. apply Hf; by right.
  - apply Forall_fmap, Forall_forall. intros y Hy. apply Hf; [left|by right|].
    by apply (proj1 (Forall_forall _ _) Hx).
Qed.

Lemma build_buckets_correct fin :
  naive_min + 7 ≤ start ≤ fin → fin < naive_max →
  ∃ bs, build_buckets start fin g by_day = Done bs ∧ buckets_correct fin bs.
Proof.
  intros Hs Hf. unfold build_buckets, days_between.
  destruct (cover_days_covers (Z.to_nat (fin - start + 1)) start ∅) as (m & Hm & Hc & Hcov); [lia..| |].
  { split; [apply map_Forall_empty|lia]. }
  rewrite Z2Nat.id in * by lia. replace (start + (fin - start + 1)) with (fin + 1) in * by lia.
  rewrite Hm. cbn [mbind outcome_bind].
  rewrite (collect_outcomes_Done _ bucket_of).
  2: { intros [s c] Hin%elem_of_date_entries. destruct (Hc s c Hin) as (? & ? & _).
       apply finish_bucket_Done; lia. }
  eexists. split; [done|]. split_and!.
  - eapply sorted_fmap; [|apply date_entries_sorted].
    intros [s1 c1] [s2 c2] Hd1%elem_of_date_entries Hd2%elem_of_date_entries Hlt. simpl in *.
    eapply covered_order; [done|by apply Hc..].
  - intros x Hx. destruct (Hcov x ltac:(lia)) as [c Hin]. exists (bucket_of (natural_start g x, c)).
    split; [by apply list_elem_of_fmap_2, elem_of_date_entries|].
    destruct (Hc _ _ Hin) as (_ & _ & Hiff & _). simpl. apply Hiff; [lia|done].
  - intros b ([s c] & -> & Hin%elem_of_date_entries)%list_elem_of_fmap. simpl.
    destruct (Hc _ _ Hin) as (? & ? & Hiff & Hmet).
    assert (natural_start g (cv_start c) = s) as Hns by (apply Hiff; lia).
    rewrite Hns. split_and!; try done; try lia. intros x Hx. apply Hiff. lia.
Qed.
End buckets.

(** ** The report *)

Definition group_label (g : UsageGroupBy) (account_names token_names : gmap Z string)
    (e : UsageEvent) : string :=
  match g with
  | GB_Account => label_or "账号 #" account_names (ue_account_id e)
  | GB_ApiToken => label_or "Token #" token_names (ue_api_token_id e)
  | GB_Model => ue_model e
  end.

Lemma group_labels_Ok g min_day an tn s :
  us_faults s = [] → ∃ labels,
    group_labels g min_day an tn s = (Ok labels, s)
    ∧ ∀ e, e ∈ ur_event <$> us_rows s → min_day ≤ ue_sg_day e →
        default (group_name g e) (labels !! group_name g e) = group_label g an tn e.
Proof.
  intros Hf. unfold group_labels, dimensions, us_call. rewrite !Hf.
  destruct g; (eexists; split; [reflexivity|]); intros e He Hday; simpl.
  3: by rewrite lookup_empty.
  all: rewrite dimension_labels; [done|]; apply list_elem_of_fmap_2, list_elem_of_filter; done.
Qed.

(** C17: A report sums up the stored events of its range that pass its filters: the summary all
    of them, each bucket those of its days, each row of the breakdown those of its account,
    token or model, under its name. The buckets are the days, weeks or months of the range in
    order, without a gap. *)
Theorem report_correct `{CalendarLaws} q an tn s :
  us_faults s = [] →
  let l := matching_events (report_filters q) s in
  countable l →
  naive_min + 7 ≤ rq_start_date q ≤ rq_end_date q → rq_end_date q < naive_max →
  ∃ r, report q an tn s = (Done (Ok r), s)
    ∧ rp_summary r = metrics_of l
    ∧ breakdown_correct (rq_group_by q) (group_label (rq_group_by q) an tn) l (rp_breakdown r)
    ∧ buckets_correct (rq_granularity q) (rq_start_date q) l (rq_end_date q) (rp_buckets r).
Proof.
  intros Hf l Hl Hs He. unfold report, aggregate_daily, us_call. rewrite Hf. fold l.
  cbn [mbind result_bind].
  rewrite (aggregate_rows_ok (report_filters q) l) by apply Hl. cbn [uf_group_by report_filters uf_start_sg_day].
  destruct (group_labels_Ok (rq_group_by q) (sg_day_from_date (rq_start_date q)) an tn s Hf)
    as (labels & -> & Hlab).
  unfold assemble_report.
  destruct (sum_rows_spec (rq_group_by q) l Hl) as (by_day & bd & Hsum & Hday & Hbd).
  rewrite Hsum.
  destruct (build_buckets_correct (rq_granularity q) (rq_start_date q) l by_day Hl Hday (rq_end_date q))
    as (bs & Hbs & Hb); [done..|].
  rewrite Hbs. eexists. split; [reflexivity|]. split_and!; [done| |done].
  apply (breakdown_rows_correct _ _ _ _ _ Hbd). intros e Hin.
  unfold l, matching_events in Hin. apply list_elem_of_filter in Hin as [Hm Hin].
  apply Hlab; [done|]. unfold matches_filters in Hm. rewrite !andb_true_iff, !Z.leb_le in Hm.
  apply Hm.
Qed.

Lemma transpose_date `{Calendar} o :
  match transpose (parse_usage_date <$> o) with
  | Err e => ∃ m, e = BadRequest m
  | Ok None => o = None
  | Ok (Some d) => ∃ s, o = Some s ∧ parse_date s = Some d
  end.
Proof.
  destruct o as [s|]; [|done]. simpl. unfold parse_usage_date, ok_or.
  destruct (parse_date s) eqn:Hd; simpl; by eexists.
Qed.

Lemma checked_query uq today first fin :
  match
    (_ ← check_range today (today - 364) first fin;
     _ ← check_ids uq;
     granularity ← parse_granularity (default "day" (uq_granularity uq));
     group_by ← parse_group_by (default "model" (uq_group_by uq));
     Ok (mkReportQuery first fin granularity (uq_account_id uq) (uq_api_token_id uq)
           (opt_filter (λ model, negb (is_empty model)) (trim <$> uq_model uq)) group_by))
  with
  | Ok q =>
      today - 364 ≤ rq_start_date q ≤ rq_end_date q ∧ rq_end_date q ≤ today
      ∧ rq_end_date q - rq_start_date q < 365
      ∧ is_none_or (rq_account_id q) (λ id, 0 <? id) = true
      ∧ is_none_or (rq_api_token_id q) (λ id, 0 <? id) = true
      ∧ rq_model q ≠ Some ""
  | Err e => ∃ m, e = BadRequest m
  end.
Proof.
  unfold check_range.
  destruct (fin <? first) eqn:H1; [by eexists|]. destruct (today <? fin) eqn:H2; [by eexists|].
  destruct (first <? today - 364) eqn:H3; [by eexists|].
  destruct (365 <=? fin - first) eqn:H4; [by eexists|]. cbn [mbind result_bind]. unfold check_ids.
  destruct (_ || _) eqn:Hids; [by eexists|]. cbn [mbind result_bind].
  assert (∀ s, (∃ m, parse_granularity s = Err (BadRequest m)) ∨ ∃ g, parse_granularity s = Ok g) as Hg.
  { intros s. unfold parse_granularity. repeat (case_match; [naive_solver|]). naive_solver. }
  assert (∀ s, (∃ m, parse_group_by s = Err (BadRequest m)) ∨ ∃ g, parse_group_by s = Ok g) as Hb.
  { intros s. unfold parse_group_by. repeat (case_match; [naive_solver|]). naive_solver. }
  destruct (Hg (default "day" (uq_granularity uq))) as [[m ->]|[g ->]]; [by eexists|].
  destruct (Hb (default "model" (uq_group_by uq))) as [[m ->]|[gb ->]]; [by eexists|].
  cbn [mbind result_bind rq_start_date rq_end_date rq_account_id rq_api_token_id rq_model].
  apply orb_false_iff in Hids as [Ha Ht]. split_and!; try lia.
  - destruct (uq_account_id uq); simpl in *; [lia|done].
  - destruct (uq_api_token_id uq); simpl in *; [lia|done].
  - destruct (uq_model uq); simpl; [|done]. by destruct (trim s).
Qed.

(** An accepted query asks for at most 365 days, from at most 364 days ago until today at
    the latest, of a positive account and token; a refused one is a bad request. It panics only
    on an end date, without a start date, in the first month of the calendar. *)
Theorem usage_query_bounds `{CalendarLaws} uq now today :
  singapore_today now = Done today → naive_min + 364 ≤ today ≤ naive_max →
  match validate_usage_query uq now with
  | Done (Ok q) =>
      today - 364 ≤ rq_start_date q ≤ rq_end_date q ∧ rq_end_date q ≤ today
      ∧ rq_end_date q - rq_start_date q < 365
      ∧ is_none_or (rq_account_id q) (λ id, 0 <? id) = true
      ∧ is_none_or (rq_api_token_id q) (λ id, 0 <? id) = true
      ∧ rq_model q ≠ Some ""
  | Done (Err e) => ∃ m, e = BadRequest m
  | Panic => uq_start_date uq = None ∧
      ∃ s d, uq_end_date uq = Some s ∧ parse_date s = Some d ∧ d < naive_min + 29
  end.
Proof.
  intros Ht Htoday. unfold validate_usage_query. rewrite Ht. cbn [mbind outcome_bind].
  assert (date_add today (-364) = Done (today - 364)) as ->.
  { unfold date_add. by rewrite !(proj2 (Z.leb_le _ _)) by lia. }
  cbn [mbind outcome_bind].
  pose proof (transpose_date (uq_end_date uq)) as Hend.
  destruct (transpose (parse_usage_date <$> uq_end_date uq)) as [fin|e]; [|done].
  pose proof (transpose_date (uq_start_date uq)) as Hstart.
  destruct (transpose (parse_usage_date <$> uq_start_date uq)) as [[first|]|e]; [| |done].
  - apply checked_query.
  - unfold date_add.
    destruct ((naive_min <=? default today fin + -29) && (default today fin + -29 <=? naive_max)) eqn:Hr.
    + apply checked_query.
    + split; [done|]. apply andb_false_iff in Hr. rewrite !Z.leb_gt in Hr.
      destruct fin as [d|]; simpl in Hr; [|lia]. destruct Hend as (s & Hs & Hd).
      exists s, d. pose proof (parse_in_range s d Hd). split_and!; [done|done|lia].
Qed.
