(* ===== verification/Performance.v ===== *)
(** * Performance: measuring requests (src/src/service/performance.rs, src/src/model/performance.rs)

    A request that is measured has a state behind a shared handle: the guard that ends
    the measurement, the observer of the answer and the list of active requests point to
    the same one, so the states are in a heap and a handle is an index. Clock readings
    and generated identifiers are arguments. *)

From S2P Require Import Prelude Text F64 Json Http Model UsageParse Usage.

Definition QUEUE_SIZE : Z := 4096.
Definition ACTIVE_LIMIT : Z := 10000.

(** ** Events *)

Inductive PerformanceOutcome :=
  | PO_Success | PO_LocalError | PO_HttpError | PO_SendError | PO_SendTimeout | PO_ReadTimeout
  | PO_StreamError | PO_Incomplete | PO_Aborted | PO_Unknown.

#[export] Instance performance_outcome_eq : EqDecision PerformanceOutcome.
Proof. solve_decision. Defined.

Definition outcome_as_str (o : PerformanceOutcome) : string :=
  match o with
  | PO_Success => "success"
  | PO_LocalError => "local_error"
  | PO_HttpError => "http_error"
  | PO_SendError => "send_error"
  | PO_SendTimeout => "send_timeout"
  | PO_ReadTimeout => "read_timeout"
  | PO_StreamError => "stream_error"
  | PO_Incomplete => "incomplete"
  | PO_Aborted => "aborted"
  | PO_Unknown => "unknown"
  end.

Record PerformanceEvent := mkPerfEvent {
  pv_request_id : string;
  pv_instance_id : string;
  pv_started_at_utc : DateTime;
  pv_completed_at_utc : option DateTime;
  pv_account_id : option Z;
  pv_api_token_id : option Z;
  pv_request_model : option string;
  pv_response_model : option string;
  pv_upstream_request_id : option string;
  pv_is_stream : bool;
  pv_upstream_status : option Z;
  pv_downstream_status : option Z;
  pv_outcome : option PerformanceOutcome;
  pv_observation_quality : string;
  pv_stop_reason : option string;
  pv_phase : string;
  pv_stages_ms : gmap string Z;
  pv_first_byte_ms : option Z;
  pv_first_content_ms : option Z;
  pv_first_text_ms : option Z;
  pv_model_completed_ms : option Z;
  pv_duration_ms : option Z;
  pv_age_ms : Z;
  pv_content_idle_ms : Z;
  pv_max_content_gap_ms : option Z;
  pv_output_tokens : option Z;
  pv_output_tokens_per_second : option f64;
}.

Record RequestState := mkRequestState {
  rq_start : Instant;
  rq_event : PerformanceEvent;
  rq_last_content : option Z;
  rq_batch : Z;
  rq_last_content_batch : option Z;
  rq_content_batches : Z;
  rq_finished : bool;
}.

Definition event_new (request_id instance_id : string) (utc : DateTime) : PerformanceEvent :=
  mkPerfEvent request_id instance_id utc None None None None None None false None None None
    "observed" None "preparing" ∅ None None None None None 0 0 None None None.

Definition request_new (request_id instance_id : string) (utc : DateTime) (now : Instant)
    : RequestState :=
  mkRequestState now (event_new request_id instance_id utc) None 0 None 0 false.

(** ** The handle *)

Definition millis (d : Duration) : Z := millis_i64 d.

Definition safe_label (v : string) : string :=
  if negb (is_empty v) && (str_len v <=? 128)
     && str_all (λ b, is_alphanumeric b || existsb (Ascii.eqb b) (String.list_ascii_of_string "-_.:/[]")) v
  then v else "other".

Definition get_or_insert {A} (a : A) (o : option A) : option A :=
  match o with Some _ => o | None => Some a end.

Definition nonempty (v : option Value) : bool :=
  is_some_and (v ≫= as_str) (λ s, negb (is_empty s)).

Definition max_gap (gap : option Z) (ms : Z) : option Z := Some (Z.max (default 0 gap) ms).

Definition record_content (s : RequestState) (ms : Z) (phase : string) : RequestState :=
  let e := rq_event s in
  let e := match rq_last_content s with
           | Some last => e <| pv_max_content_gap_ms := max_gap (pv_max_content_gap_ms e) (ms - last) |>
           | None => e
           end in
  let e := e <| pv_first_content_ms := get_or_insert ms (pv_first_content_ms e) |> in
  let e := if String.eqb phase "text"
           then e <| pv_first_text_ms := get_or_insert ms (pv_first_text_ms e) |> else e in
  let e := e <| pv_phase := phase |> in
  let s := s <| rq_event := e |> <| rq_last_content := Some ms |> in
  if bool_decide (rq_last_content_batch s = Some (rq_batch s)) then s
  else s <| rq_content_batches := rq_content_batches s + 1 |>
         <| rq_last_content_batch := Some (rq_batch s) |>.

(** What a piece of content tells: nothing, a phase, or that it is of an unknown kind. *)
Inductive ContentPhase := CP_None | CP_Phase (phase : string) | CP_Unknown.

Definition content_phase (content : Value) : ContentPhase :=
  let content_type := default "" (get_str content "type") in
  let one_of l := existsb (String.eqb content_type) l in
  if one_of ["text"; "text_delta"] && nonempty (vget content "text") then CP_Phase "text"
  else if one_of ["thinking"; "thinking_delta"] && nonempty (vget content "thinking")
  then CP_Phase "thinking"
  else if one_of ["input_json_delta"] && nonempty (vget content "partial_json") then CP_Phase "tool"
  else if one_of ["tool_use"]
          && is_some_and (vget content "input" ≫= as_object) (λ o, bool_decide (o ≠ ∅))
  then CP_Phase "tool"
  else if one_of ["text"; "text_delta"; "thinking"; "thinking_delta"; "input_json_delta"; "tool_use";
              "signature_delta"] then CP_None
  else CP_Unknown.

Definition observe_content (s : RequestState) (ms : Z) (content : Value) : RequestState :=
  match content_phase content with
  | CP_Phase phase => record_content s ms phase
  | CP_Unknown => s <| rq_event := (rq_event s) <| pv_observation_quality := "partial" |> |>
  | CP_None => s
  end.

Definition model_completed (s : RequestState) (ms : Z) : RequestState :=
  s <| rq_event := (rq_event s) <| pv_model_completed_ms := Some ms |>
         <| pv_phase := "finishing" |> |>.

(** The fields that any part of an answer may tell. *)
Definition observe_fields (value : Value) (e : PerformanceEvent) : PerformanceEvent :=
  let kind := default "" (get_str value "type") in
  let message := if String.eqb kind "message_start" then default value (vget value "message")
                 else value in
  let e := match get_str message "model" with
           | Some model => e <| pv_response_model := Some (safe_label model) |>
           | None => e
           end in
  let e := match opt_filter (λ n, 0 <=? n)
                   ((vget message "usage" ≫= λ u, vget u "output_tokens") ≫= as_i64) with
           | Some tokens => e <| pv_output_tokens := Some tokens |>
           | None => e
           end in
  let e := match opt_or (vget message "stop_reason")
                   (vget value "delta" ≫= λ d, vget d "stop_reason") ≫= as_str with
           | Some reason => e <| pv_stop_reason := Some (safe_label reason) |>
           | None => e
           end in
  if String.eqb kind "error" then e <| pv_outcome := Some PO_StreamError |> else e.

(** The content of a piece of a streamed answer. *)
Definition streamed_content (value : Value) : option Value :=
  let kind := default "" (get_str value "type") in
  if String.eqb kind "content_block_delta" then vget value "delta"
  else if String.eqb kind "content_block_start" then vget value "content_block"
  else None.

Definition observe_json (value : Value) (streaming : bool) (s : RequestState) (ms : Z)
    : RequestState :=
  let kind := default "" (get_str value "type") in
  let s := s <| rq_event := observe_fields value (rq_event s) |> in
  if streaming then
    let s := match streamed_content value with
             | Some content => observe_content s ms content
             | None => s
             end in
    if String.eqb kind "message_stop" then model_completed s ms else s
  else if String.eqb kind "message"
          && is_some_and (vget value "content") (λ c, opt_is_some (as_array c))
  then model_completed s ms else s.

(** The calls on a handle. *)
Inductive HandleOp :=
  | H_Stage (name : string) (duration : Duration)
  | H_Phase (phase : string)
  | H_Token (id : Z)
  | H_Account (id : Z)
  | H_Request (model : option string) (streaming : bool)
  | H_Upstream (status : Z) (request_id : option string) (streaming : bool)
  | H_Failure (outcome : PerformanceOutcome)
  | H_ParseFailed
  | H_Bytes (bytes : string)
  | H_ObserveJson (value : Value) (streaming : bool).

Definition apply_op (op : HandleOp) (s : RequestState) (ms : Z) : RequestState :=
  let e := rq_event s in
  let on_event e := s <| rq_event := e |> in
  match op with
  | H_Stage name duration =>
      on_event (e <| pv_stages_ms := <[name := millis duration]> (pv_stages_ms e) |>)
  | H_Phase phase => on_event (e <| pv_phase := phase |>)
  | H_Token id => on_event (e <| pv_api_token_id := Some id |>)
  | H_Account id => on_event (e <| pv_account_id := Some id |>)
  | H_Request model streaming =>
      on_event (e <| pv_request_model := safe_label <$> model |> <| pv_is_stream := streaming |>)
  | H_Upstream status request_id streaming =>
      on_event (e <| pv_upstream_status := Some status |>
                  <| pv_upstream_request_id := safe_label <$> request_id |>
                  <| pv_is_stream := streaming |>
                  <| pv_phase := "waiting_content" |>)
  | H_Failure outcome =>
      on_event (e <| pv_outcome := get_or_insert outcome (pv_outcome e) |>)
  | H_ParseFailed => on_event (e <| pv_observation_quality := "parse_failed" |>)
  | H_Bytes bytes =>
      if is_empty bytes then s
      else s <| rq_batch := rq_batch s + 1 |>
             <| rq_event := e <| pv_first_byte_ms := get_or_insert ms (pv_first_byte_ms e) |> |>
  | H_ObserveJson value streaming => observe_json value streaming s ms
  end.

(** [PerformanceHandle::update]. *)
Definition handle_update (f : RequestState → Z → RequestState) (now : Instant) (s : RequestState)
    : RequestState :=
  if rq_finished s then s else f s (millis (elapsed now (rq_start s))).

(** [i64::saturating_sub]. *)
Definition sat_sub (a b : Z) : Z := saturate i64 (a - b).

Definition snapshot (now : Instant) (s : RequestState) : PerformanceEvent :=
  let e := rq_event s in
  let age := default (millis (elapsed now (rq_start s))) (pv_duration_ms e) in
  let upto := default age (pv_model_completed_ms e) in
  let e := e <| pv_age_ms := age |>
             <| pv_content_idle_ms := sat_sub upto (default 0 (rq_last_content s)) |> in
  match rq_last_content s with
  | Some last => e <| pv_max_content_gap_ms := max_gap (pv_max_content_gap_ms e) (sat_sub upto last) |>
  | None => e
  end.

(** ** The service *)

Record PerformanceCounters := mkPerfCounters {
  pc_persisted : Z;
  pc_dropped : Z;
  pc_write_failed : Z;
  pc_active_dropped : Z;
  pc_parse_failed : Z;
  pc_expired : Z;
}.

Definition perf_counters_default : PerformanceCounters := mkPerfCounters 0 0 0 0 0 0.

(** [ms + 28_800_000) .div_euclid(86_400_000) as i32]. *)
Definition sg_day (ms : Z) : Z := wrap i32 ((ms + 28800000) / 86400000).

(** An [i32] subtraction. *)
Definition retention_day (now : DateTime) : Z := wrap i32 (sg_day (timestamp_millis now) - 29).

Definition event_day (e : PerformanceEvent) : Z := sg_day (timestamp_millis (pv_started_at_utc e)).

Record PerformanceService := mkPerf {
  pf_enabled : bool;
  pf_instance_id : string;
  pf_since : DateTime;
  pf_heap : list RequestState;
  pf_active : gmap string nat;
  pf_queue : list PerformanceEvent;
  pf_closed : bool;
  pf_counters : PerformanceCounters;
}.

Definition perf_new (instance_id : string) (utc : DateTime) (enabled : bool) : PerformanceService :=
  mkPerf enabled instance_id utc [] ∅ [] false perf_counters_default.

Definition perf_count (f : PerformanceCounters → PerformanceCounters) (p : PerformanceService)
    : PerformanceService := p <| pf_counters := f (pf_counters p) |>.

Definition handle_at (p : PerformanceService) (h : nat) (f : RequestState → RequestState)
    : PerformanceService := p <| pf_heap := alter f h (pf_heap p) |>.

Definition handle_op (h : nat) (op : HandleOp) (now : Instant) (p : PerformanceService)
    : PerformanceService := handle_at p h (handle_update (apply_op op) now).

Record PerformanceGuard := mkGuard { pg_handle : nat; pg_finished : bool }.

Definition perf_begin (request_id : string) (utc : DateTime) (now : Instant) (p : PerformanceService)
    : option PerformanceGuard * PerformanceService :=
  if negb (pf_enabled p) then (None, p)
  else
    let h := length (pf_heap p) in
    let p := p <| pf_heap := pf_heap p ++ [request_new request_id (pf_instance_id p) utc now] |> in
    let p := if Z.of_nat (size (pf_active p)) <? ACTIVE_LIMIT
             then p <| pf_active := <[request_id := h]> (pf_active p) |>
             else perf_count (λ c, c <| pc_active_dropped := u64_add (pc_active_dropped c) 1 |>) p in
    (Some (mkGuard h false), p).

(** ** The end of a request *)

Definition final_outcome (aborted : bool) (e : PerformanceEvent) : PerformanceOutcome :=
  match pv_outcome e with
  | Some outcome => outcome
  | None =>
      if aborted then PO_Aborted
      else if String.eqb (pv_observation_quality e) "parse_failed" then PO_Unknown
      else if opt_is_some (pv_model_completed_ms e) then PO_Success
      else if pv_is_stream e then PO_Incomplete
      else PO_Unknown
  end.

(** Tokens per second, when enough of the stream was observed. *)
Definition output_speed (outcome : PerformanceOutcome) (content_batches : Z) (e : PerformanceEvent)
    : option f64 :=
  if bool_decide (outcome = PO_Success) && String.eqb (pv_observation_quality e) "observed"
     && pv_is_stream e && (1 <? content_batches) then
    match pv_output_tokens e, pv_first_content_ms e, pv_model_completed_ms e with
    | Some tokens, Some first, Some stop =>
        if first <? stop
        then Some (f_div (f_mul (f_of_Z tokens) (f_of_Z 1000)) (f_of_Z (stop - first)))
        else pv_output_tokens_per_second e
    | _, _, _ => pv_output_tokens_per_second e
    end
  else pv_output_tokens_per_second e.

Definition finished_event (aborted : bool) (now : Instant) (utc : DateTime) (s : RequestState)
    : PerformanceEvent :=
  let e := snapshot now s in
  let e := e <| pv_duration_ms := Some (pv_age_ms e) |> <| pv_completed_at_utc := Some utc |> in
  let outcome := final_outcome aborted e in
  let e := e <| pv_outcome := Some outcome |> in
  e <| pv_output_tokens_per_second := output_speed outcome (rq_content_batches s) e |>.

(** [now], [utc] and [utc_day]: the clock readings of the snapshot, of the completion
    and of the retention check. *)
Record FinishClock := mkFinishClock { fc_now : Instant; fc_utc : DateTime; fc_day : DateTime }.

Definition enqueue (e : PerformanceEvent) (c : FinishClock) (p : PerformanceService)
    : PerformanceService :=
  if event_day e <? retention_day (fc_day c)
  then perf_count (λ k, k <| pc_expired := u64_add (pc_expired k) 1 |>) p
  else if pf_closed p || (QUEUE_SIZE <=? Z.of_nat (length (pf_queue p)))
  then perf_count (λ k, k <| pc_dropped := u64_add (pc_dropped k) 1 |>) p
  else p <| pf_queue := pf_queue p ++ [e] |>.

Definition guard_finish (aborted : bool) (c : FinishClock) (g : PerformanceGuard)
    (p : PerformanceService) : PerformanceGuard * PerformanceService :=
  if pg_finished g then (g, p)
  else
    let g := g <| pg_finished := true |> in
    match pf_heap p !! pg_handle g with
    | None => (g, p)
    | Some s =>
        let e := finished_event aborted (fc_now c) (fc_utc c) s in
        let p := handle_at p (pg_handle g) (λ s, s <| rq_finished := true |> <| rq_event := e |>) in
        let p := p <| pf_active := delete (pv_request_id e) (pf_active p) |> in
        let p := if String.eqb (pv_observation_quality e) "parse_failed"
                 then perf_count (λ k, k <| pc_parse_failed := u64_add (pc_parse_failed k) 1 |>) p
                 else p in
        (g, enqueue e c p)
    end.

(** Dropping a guard ends the measurement, if nothing did before. *)
Definition guard_drop (c : FinishClock) (g : PerformanceGuard) (p : PerformanceService)
    : PerformanceService := (guard_finish true c g p).2.

(** [finish(false)] on a guard that is dropped right after. *)
Definition guard_end (c : FinishClock) (g : PerformanceGuard) (p : PerformanceService)
    : PerformanceService :=
  let '(g, p) := guard_finish false c g p in guard_drop c g p.

Definition response_status (status : Z) (s : RequestState) (ms : Z) : RequestState :=
  let e := (rq_event s) <| pv_downstream_status := Some status |> in
  s <| rq_event :=
    if negb ((200 <=? status) && (status <? 300)) && opt_is_none (pv_outcome e)
    then e <| pv_outcome := Some (if opt_is_some (pv_upstream_status e)
                                  then PO_HttpError else PO_LocalError) |>
    else e |>.

(** The body that the response gets: [Some] when it carries the guard. *)
Definition guard_response (status : Z) (end_stream : bool) (now : Instant) (c : FinishClock)
    (g : PerformanceGuard) (p : PerformanceService) : option PerformanceGuard * PerformanceService :=
  let p := handle_at p (pg_handle g) (handle_update (response_status status) now) in
  if end_stream then (None, guard_end c g p) else (Some g, p).

(** ** The observed body *)

(** What polling the inner body gives; with a frame, whether it was the last one. *)
Inductive BodyPoll := BP_Pending | BP_Frame (last : bool) | BP_Error | BP_End.

Definition perf_body_poll (poll : BodyPoll) (now : Instant) (c : FinishClock)
    (body : option PerformanceGuard) (p : PerformanceService)
    : option PerformanceGuard * PerformanceService :=
  match body with
  | None => (None, p)
  | Some g =>
      match poll with
      | BP_Error => (None, guard_end c g (handle_op (pg_handle g) (H_Failure PO_StreamError) now p))
      | BP_End | BP_Frame true => (None, guard_end c g p)
      | BP_Pending | BP_Frame false => (Some g, p)
      end
  end.

Definition perf_body_drop (c : FinishClock) (body : option PerformanceGuard)
    (p : PerformanceService) : PerformanceService :=
  match body with None => p | Some g => guard_drop c g p end.

(** ** Health and the active requests *)

Record PerformanceHealth := mkPerfHealth {
  ph_enabled : bool;
  ph_instance_id : string;
  ph_since_utc : DateTime;
  ph_queue_depth : Z;
  ph_counters : PerformanceCounters;
}.

Definition perf_health (p : PerformanceService) : PerformanceHealth :=
  mkPerfHealth (pf_enabled p) (pf_instance_id p) (pf_since p) (Z.of_nat (length (pf_queue p)))
    (pf_counters p).

Record PerformanceFilter := mkPerfFilter {
  ff_start_ms : Z;
  ff_end_ms : Z;
  ff_account_id : option Z;
  ff_api_token_id : option Z;
  ff_model : option string;
  ff_instance_id : option string;
  ff_outcome : option PerformanceOutcome;
  ff_is_stream : option bool;
  ff_min_duration_ms : option Z;
  ff_duration_desc : bool;
  ff_page : Z;
  ff_page_size : Z;
}.

Record PerformancePage := mkPage {
  pp_items : list PerformanceEvent;
  pp_total : Z;
  pp_page : Z;
  pp_page_size : Z;
}.

(** [skip((page - 1) * page_size).take(page_size)]. *)
Definition page_of {A} (page page_size : Z) (l : list A) : list A :=
  take (Z.to_nat page_size) (drop (Z.to_nat ((page - 1) * page_size)) l).

Definition opt_eqb {A} `{EqDecision A} (o : option A) (a : A) : bool := bool_decide (o = Some a).

Definition active_matches (f : PerformanceFilter) (e : PerformanceEvent) : bool :=
  is_none_or (ff_account_id f) (opt_eqb (pv_account_id e))
  && is_none_or (ff_api_token_id f) (opt_eqb (pv_api_token_id e))
  && is_none_or (ff_model f) (opt_eqb (pv_request_model e))
  && is_none_or (ff_instance_id f) (String.eqb (pv_instance_id e))
  && is_none_or (ff_is_stream f) (Bool.eqb (pv_is_stream e)).

(** Longest first, then by identifier. *)
Definition active_le (a b : PerformanceEvent) : bool :=
  (pv_age_ms b <? pv_age_ms a)
  || ((pv_age_ms b =? pv_age_ms a) && String.leb (pv_request_id a) (pv_request_id b)).

(** [clk i]: the reading of the clock for the [i]-th snapshot. *)
Definition active_events (f : PerformanceFilter) (clk : nat → Instant) (p : PerformanceService)
    : list PerformanceEvent :=
  let states := omap (λ kv : string * nat, pf_heap p !! kv.2) (map_to_list (pf_active p)) in
  sort_by active_le
    (filter (λ e, active_matches f e = true) (imap (λ i s, snapshot (clk i) s) states)).

Definition active (f : PerformanceFilter) (clk : nat → Instant) (p : PerformanceService)
    : PerformancePage :=
  let items := active_events f clk p in
  mkPage (page_of (ff_page f) (ff_page_size f) items) (Z.of_nat (length items)) (ff_page f)
    (ff_page_size f).
