(* ===== verification/PerformanceStore.v ===== *)
(** * PerformanceStore: the table of measured requests (src/src/store/performance_store.rs)

    The rows with their columns, and the outcomes of the next statements: [Some m] is a
    failure with that text, the end of the list success. A method is a computation in a
    monad of states and errors. Each SQL text is the function on rows that it denotes;
    a missing number sorts before all others, as SQLite has it. *)

From S2P Require Import Prelude Text F64 Json Http Model UsageParse Usage UsageStore Performance.

(** The derived text form of an event. *)
Class PerfText := {
  event_to_str : PerformanceEvent → result string string;
  event_from_str : string → result string PerformanceEvent;
}.

Record PerfRow := mkPerfRow {
  pw_request_id : string;
  pw_instance_id : string;
  pw_started_at_ms : Z;
  pw_sg_day : Z;
  pw_account_id : option Z;
  pw_api_token_id : option Z;
  pw_model : option string;
  pw_is_stream : bool;
  pw_outcome : string;
  pw_duration_ms : option Z;
  pw_first_byte_ms : option Z;
  pw_first_content_ms : option Z;
  pw_first_text_ms : option Z;
  pw_output_speed : option f64;
  pw_event_json : string;
}.

Record PerformanceStore := mkPerfStore {
  pt_rows : list PerfRow;
  pt_faults : list (option string);
}.

(** ** The monad *)

Definition DB (A : Type) : Type := PerformanceStore → result AppError A * PerformanceStore.

#[export] Instance db_ret : MRet DB := λ A a s, (Ok a, s).
#[export] Instance db_bind : MBind DB := λ A B f m s,
  match m s with (Ok a, s) => f a s | (Err e, s) => (Err e, s) end.

Definition db_of {A} (r : result AppError A) : DB A := λ s, (r, s).

(** One statement: its fault, or what it reads and writes. *)
Definition statement {A} (f : list PerfRow → result AppError A * list PerfRow) : DB A := λ s,
  match pt_faults s with
  | Some m :: fs => (Err (Internal m), s <| pt_faults := fs |>)
  | fs =>
      let '(r, rows) := f (pt_rows s) in
      match r with
      | Ok a => (Ok a, s <| pt_rows := rows |> <| pt_faults := tail fs |>)
      | Err e => (Err e, s <| pt_faults := tail fs |>)
      end
  end.

Definition query {A} (f : list PerfRow → A) : DB A := statement (λ rows, (Ok (f rows), rows)).

Section store.
Context `{PerfText}.

(** ** Inserting *)

(** [NULLIF(x, null)], of a value bound with [unwrap_or(null)]. *)
Definition nullif (null : Z) (o : option Z) : option Z := opt_filter (λ z, negb (z =? null)) o.

Definition row_of (json : string) (e : PerformanceEvent) : PerfRow := {|
  pw_request_id := pv_request_id e;
  pw_instance_id := pv_instance_id e;
  pw_started_at_ms := timestamp_millis (pv_started_at_utc e);
  pw_sg_day := event_day e;
  pw_account_id := nullif (-1) (pv_account_id e);
  pw_api_token_id := nullif (-1) (pv_api_token_id e);
  pw_model := opt_filter (λ s, negb (is_empty s)) (pv_request_model e);
  pw_is_stream := pv_is_stream e;
  pw_outcome := outcome_as_str (default PO_Unknown (pv_outcome e));
  pw_duration_ms := nullif (-1) (pv_duration_ms e);
  pw_first_byte_ms := nullif (-1) (pv_first_byte_ms e);
  pw_first_content_ms := nullif (-1) (pv_first_content_ms e);
  pw_first_text_ms := nullif (-1) (pv_first_text_ms e);
  pw_output_speed :=
    opt_filter (λ x, negb (f_eqb x (f_of_Z (-1)))) (pv_output_tokens_per_second e);
  pw_event_json := json;
|}.

(** [ON CONFLICT (request_id) DO NOTHING]. *)
Fixpoint insert_rows (events : list PerformanceEvent) (rows : list PerfRow)
    : result AppError Z * list PerfRow :=
  match events with
  | [] => (Ok 0, rows)
  | e :: events =>
      match event_to_str e with
      | Err err => (Err (Internal ("serialize performance: " +:+ err)), rows)
      | Ok json =>
          let known := existsb (λ r, String.eqb (pw_request_id r) (pv_request_id e)) rows in
          let rows := if known then rows else rows ++ [row_of json e] in
          let '(n, rows) := insert_rows events rows in
          ((λ n, (if known then 0 else 1) + n) <$> n, rows)
      end
  end.

(** The transaction is rolled back on an error. *)
Definition perf_insert_batch (events : list PerformanceEvent) : DB Z :=
  statement (insert_rows events).

(** ** Reading *)

Definition where_filter (f : PerformanceFilter) (r : PerfRow) : bool :=
  (sg_day (ff_start_ms f) <=? pw_sg_day r) && (pw_sg_day r <=? sg_day (ff_end_ms f - 1))
  && (ff_start_ms f <=? pw_started_at_ms r) && (pw_started_at_ms r <? ff_end_ms f)
  && is_none_or (ff_account_id f) (opt_eqb (pw_account_id r))
  && is_none_or (ff_api_token_id f) (opt_eqb (pw_api_token_id r))
  && is_none_or (ff_model f) (opt_eqb (pw_model r))
  && is_none_or (ff_instance_id f) (String.eqb (pw_instance_id r))
  && is_none_or (ff_outcome f) (λ o, String.eqb (pw_outcome r) (outcome_as_str o))
  && is_none_or (ff_is_stream f) (Bool.eqb (pw_is_stream r))
  && is_none_or (ff_min_duration_ms f) (λ v, is_some_and (pw_duration_ms r) (λ d, v <=? d)).

Definition matching (f : PerformanceFilter) (rows : list PerfRow) : list PerfRow :=
  filter (λ r, where_filter f r = true) rows.

(** [NULL] first. *)
Definition null_lt (a b : option Z) : bool :=
  match a, b with
  | None, Some _ => true
  | Some a, Some b => a <? b
  | _, None => false
  end.

(** [started_at_ms DESC, request_id]. *)
Definition newest_le (a b : PerfRow) : bool :=
  (pw_started_at_ms b <? pw_started_at_ms a)
  || ((pw_started_at_ms b =? pw_started_at_ms a) && String.leb (pw_request_id a) (pw_request_id b)).

Definition list_le (duration_desc : bool) (a b : PerfRow) : bool :=
  if duration_desc then
    null_lt (pw_duration_ms b) (pw_duration_ms a)
    || (bool_decide (pw_duration_ms b = pw_duration_ms a) && newest_le a b)
  else newest_le a b.

Definition decode_event (json : string) : result AppError PerformanceEvent :=
  map_err (λ e, Internal ("read performance event: " +:+ e)) (event_from_str json).

Definition ordered (f : PerformanceFilter) (rows : list PerfRow) : list PerfRow :=
  sort_by (list_le (ff_duration_desc f)) (matching f rows).

Definition perf_list (f : PerformanceFilter) : DB PerformancePage :=
  total ← query (λ rows, Z.of_nat (length (matching f rows)));
  values ← query (λ rows, pw_event_json <$> page_of (ff_page f) (ff_page_size f) (ordered f rows));
  items ← db_of (collect_results (decode_event <$> values));
  mret (mkPage items total (ff_page f) (ff_page_size f)).

Definition perf_get (id : string) (min_day : Z) : DB PerformanceEvent :=
  json ← statement (λ rows,
    (ok_or (pw_event_json <$>
              head (filter (λ r, String.eqb (pw_request_id r) id && (min_day <=? pw_sg_day r) = true)
                      rows)) NotFound, rows));
  db_of (decode_event json).

Record PerformanceDimensions := mkPerfDimensions {
  pd_accounts : list UsageDimensionOption;
  pd_api_tokens : list UsageDimensionOption;
  pd_models : list string;
  pd_instances : list string;
}.

Definition perf_dimensions (min_day : Z) (account_names token_names : gmap Z string)
    : DB PerformanceDimensions :=
  let recent := filter (λ r, min_day ≤ pw_sg_day r) in
  accounts ← query (λ rows, dimension_options "账号 #" (omap pw_account_id (recent rows)) account_names);
  tokens ← query (λ rows, dimension_options "Token #" (omap pw_api_token_id (recent rows)) token_names);
  models ← query (λ rows, sort_by String.leb (remove_dups (omap pw_model (recent rows))));
  instances ← query (λ rows, sort_by String.leb (remove_dups (pw_instance_id <$> recent rows)));
  mret (mkPerfDimensions accounts tokens models instances).

(** The thousand oldest of the old rows. *)
Definition expired_ids (min_day : Z) (rows : list PerfRow) : list string :=
  pw_request_id <$> take 1000
    (sort_by (λ a b, pw_sg_day a <=? pw_sg_day b) (filter (λ r, pw_sg_day r < min_day) rows)).

Definition perf_delete_before (min_day : Z) : DB Z :=
  statement (λ rows,
    let ids := expired_ids min_day rows in
    let rest := filter (λ r, pw_request_id r ∉ ids) rows in
    (Ok (Z.of_nat (length rows) - Z.of_nat (length rest)), rest)).

(** ** The report *)

Record PerformanceCounts := mkPerfCounts {
  cn_completed : Z;
  cn_success : Z;
  cn_error : Z;
  cn_aborted : Z;
  cn_unknown : Z;
}.

Definition counts_default : PerformanceCounts := mkPerfCounts 0 0 0 0 0.

Definition counts_add (a b : PerformanceCounts) : PerformanceCounts :=
  mkPerfCounts (cn_completed a + cn_completed b) (cn_success a + cn_success b)
    (cn_error a + cn_error b) (cn_aborted a + cn_aborted b) (cn_unknown a + cn_unknown b).

Definition count_if (p : PerfRow → bool) (rows : list PerfRow) : Z :=
  Z.of_nat (length (filter (λ r, p r = true) rows)).

Definition outcome_is (o : PerformanceOutcome) (r : PerfRow) : bool :=
  String.eqb (pw_outcome r) (outcome_as_str o).

Definition counts_of (rows : list PerfRow) : PerformanceCounts := {|
  cn_completed := Z.of_nat (length rows);
  cn_success := count_if (outcome_is PO_Success) rows;
  cn_error := count_if (λ r, negb (outcome_is PO_Success r || outcome_is PO_Aborted r
                                   || outcome_is PO_Unknown r)) rows;
  cn_aborted := count_if (outcome_is PO_Aborted) rows;
  cn_unknown := count_if (outcome_is PO_Unknown) rows;
|}.

Record PerformancePercentiles := mkPercentiles {
  pq_sample_count : Z;
  pq_p50 : option f64;
  pq_p95 : option f64;
  pq_p99 : option f64;
  pq_max : option f64;
}.

Definition percentiles_default : PerformancePercentiles := mkPercentiles 0 None None None None.

(** The value with the number [(n * percent + 99) / 100] of [n] in their order. *)
Definition ranked (percent : Z) (sorted : list f64) : option f64 :=
  sorted !! Z.to_nat ((Z.of_nat (length sorted) * percent + 99) / 100 - 1).

Definition percentiles_of (values : list f64) : PerformancePercentiles :=
  let sorted := sort_by f_le values in
  mkPercentiles (Z.of_nat (length sorted)) (ranked 50 sorted) (ranked 95 sorted)
    (ranked 99 sorted) (last sorted).

Inductive PerfColumn := COL_Duration | COL_FirstByte | COL_FirstContent | COL_FirstText | COL_Speed.

Definition column (c : PerfColumn) (r : PerfRow) : option f64 :=
  match c with
  | COL_Duration => f_of_Z <$> pw_duration_ms r
  | COL_FirstByte => f_of_Z <$> pw_first_byte_ms r
  | COL_FirstContent => f_of_Z <$> pw_first_content_ms r
  | COL_FirstText => f_of_Z <$> pw_first_text_ms r
  | COL_Speed => pw_output_speed r
  end.

Definition samples (c : PerfColumn) (rows : list PerfRow) : list f64 :=
  omap (column c) (filter (λ r, outcome_is PO_Success r = true) rows).

(** [GROUP BY bucket ORDER BY bucket]: the buckets that have rows. *)
Definition bucket_keys (bucket : PerfRow → Z) (rows : list PerfRow) : list Z :=
  sort_by Z.leb (remove_dups (bucket <$> rows)).

Definition in_bucket (bucket : PerfRow → Z) (i : Z) (rows : list PerfRow) : list PerfRow :=
  filter (λ r, bucket r = i) rows.

Definition percentile_rows (c : PerfColumn) (bucket : PerfRow → Z) (rows : list PerfRow)
    : list (Z * PerformancePercentiles) :=
  let measured := filter (λ r, outcome_is PO_Success r && opt_is_some (column c r) = true) rows in
  (λ i, (i, percentiles_of (samples c (in_bucket bucket i measured)))) <$> bucket_keys bucket measured.

Definition percentiles (f : PerformanceFilter) (c : PerfColumn) (bucket : PerfRow → Z)
    : DB (list (Z * PerformancePercentiles)) :=
  query (λ rows, percentile_rows c bucket (matching f rows)).

(** [.pop().map(|(_, p)| p).unwrap_or_default()]. *)
Definition overall (f : PerformanceFilter) (c : PerfColumn) : DB PerformancePercentiles :=
  rows ← percentiles f c (λ _, 0); mret (default percentiles_default (snd <$> last rows)).

Record PerformanceBucket := mkPerfBucket {
  pb_start_ms : Z;
  pb_counts : PerformanceCounts;
  pb_duration : PerformancePercentiles;
  pb_first_content : PerformancePercentiles;
}.

Record PerformanceHistogram := mkHistogram {
  hi_label : string;
  hi_duration_count : Z;
  hi_first_content_count : Z;
}.

Record PerformanceReport := mkPerfReport {
  pr_start_ms : Z;
  pr_end_ms : Z;
  pr_bucket_ms : Z;
  pr_counts : PerformanceCounts;
  pr_duration : PerformancePercentiles;
  pr_first_byte : PerformancePercentiles;
  pr_first_content : PerformancePercentiles;
  pr_first_text : PerformancePercentiles;
  pr_output_speed : PerformancePercentiles;
  pr_buckets : list PerformanceBucket;
  pr_histogram : list PerformanceHistogram;
}.

Definition bucket_count (f : PerformanceFilter) (size : Z) : Z :=
  (ff_end_ms f - ff_start_ms f + size - 1) ÷ size.

(** [find(..).unwrap_or(86_400_000)]. *)
Definition bucket_size (f : PerformanceFilter) : Z :=
  default 86400000
    (head (filter (λ size, bucket_count f size <= 288) [60000; 300000; 3600000; 86400000])).

Definition bucket_expr (f : PerformanceFilter) (r : PerfRow) : Z :=
  (pw_started_at_ms r - ff_start_ms f) ÷ bucket_size f.

Definition empty_buckets (f : PerformanceFilter) : list PerformanceBucket :=
  (λ i, mkPerfBucket (ff_start_ms f + Z.of_nat i * bucket_size f) counts_default percentiles_default
          percentiles_default) <$> seq 0 (Z.to_nat (bucket_count f (bucket_size f))).

(** [get_mut(id as usize)]: an index out of range changes nothing. *)
Definition on_bucket (id : Z) (g : PerformanceBucket → PerformanceBucket)
    (buckets : list PerformanceBucket) : list PerformanceBucket :=
  alter g (Z.to_nat (wrap u64 id)) buckets.

Definition fill {A} (g : A → PerformanceBucket → PerformanceBucket) (rows : list (Z * A))
    (buckets : list PerformanceBucket) : list PerformanceBucket :=
  foldl (λ bs row, on_bucket row.1 (g row.2) bs) buckets rows.

Definition HISTOGRAM : list (Z * Z * string) := [
  (0, 1000, "<1秒"); (1000, 5000, "1–5秒"); (5000, 15000, "5–15秒"); (15000, 60000, "15–60秒");
  (60000, 300000, "1–5分钟"); (300000, 900000, "5–15分钟"); (900000, 1800000, "15–30分钟");
  (1800000, ity_max i64, "≥30分钟")].

Definition histogram_count (lower upper : Z) (col : PerfRow → option Z) (rows : list PerfRow) : Z :=
  count_if (λ r, outcome_is PO_Success r && is_some_and (col r) (λ v, (lower <=? v) && (v <? upper)))
    rows.

Definition histogram_of (rows : list PerfRow) : list PerformanceHistogram :=
  (λ '(lower, upper, label),
     mkHistogram label (histogram_count lower upper pw_duration_ms rows)
       (histogram_count lower upper pw_first_content_ms rows)) <$> HISTOGRAM.

Definition perf_report (f : PerformanceFilter) : DB PerformanceReport :=
  rows ← query (λ rows, let m := matching f rows in
                        (λ i, (i, counts_of (in_bucket (bucket_expr f) i m)))
                          <$> bucket_keys (bucket_expr f) m);
  let counts := foldl counts_add counts_default (snd <$> rows) in
  let buckets := fill (λ c b, b <| pb_counts := c |>) rows (empty_buckets f) in
  duration ← overall f COL_Duration;
  first_byte ← overall f COL_FirstByte;
  first_content ← overall f COL_FirstContent;
  first_text ← overall f COL_FirstText;
  speed ← overall f COL_Speed;
  durations ← percentiles f COL_Duration (bucket_expr f);
  let buckets := fill (λ p b, b <| pb_duration := p |>) durations buckets in
  contents ← percentiles f COL_FirstContent (bucket_expr f);
  let buckets := fill (λ p b, b <| pb_first_content := p |>) contents buckets in
  histogram ← query (λ rows, histogram_of (matching f rows));
  mret (mkPerfReport (ff_start_ms f) (ff_end_ms f) (bucket_size f) counts duration first_byte
          first_content first_text speed buckets histogram).
End store.
