(* ===== verification/PerformanceTasks.v ===== *)
(** * PerformanceTasks: the tasks and routes of the measurements

    The writer and the retention task of src/src/service/performance.rs, the query of
    src/src/handler/performance.rs, and the interleaving of the tasks with the requests
    that are measured. A loop that waits is modelled by one turn. *)

From S2P Require Import Prelude Text F64 Json Http Model UsageParse Usage UsageStore Performance.
From S2P Require Import PerformanceStore.

Definition PERF_BATCH_SIZE : Z := 128.
Definition PERF_ATTEMPTS : nat := 3.

(** ** State *)

(** A request that is being measured: its guard is in the handler or in the body. *)
Inductive OpenRequest := OR_Handler (g : PerformanceGuard) | OR_Body (g : PerformanceGuard).

Definition open_guard (o : OpenRequest) : PerformanceGuard :=
  match o with OR_Handler g | OR_Body g => g end.

Record PerfState := mkPerfState {
  xp_service : PerformanceService;
  xp_store : PerformanceStore;
  xp_batch : option (list PerformanceEvent * nat);
  xp_open : gmap nat OpenRequest;
}.

Section tasks.
Context `{PerfText}.

(** ** The writer *)

(** [received]: the events that arrive before the deadline, after the first. An empty
    batch is not written. *)
Definition perf_take (received : nat) (now : DateTime) (st : PerfState) : PerfState :=
  match xp_batch st, pf_queue (xp_service st) with
  | None, _ :: _ =>
      let p := xp_service st in
      let n := Nat.min (S received) (Z.to_nat PERF_BATCH_SIZE) in
      let batch := take n (pf_queue p) in
      let kept := filter (λ e, retention_day now ≤ event_day e) batch in
      let p := p <| pf_queue := drop n (pf_queue p) |> in
      let expired := Z.of_nat (length batch) - Z.of_nat (length kept) in
      let p := perf_count (λ c, c <| pc_expired := u64_add (pc_expired c) expired |>) p in
      let st := st <| xp_service := p |> in
      if bool_decide (kept = []) then st else st <| xp_batch := Some (kept, PERF_ATTEMPTS) |>
  | _, _ => st
  end.

(** One turn of the loop over the attempts. A batch that failed for good counts as
    failed and as dropped. *)
Definition perf_write (st : PerfState) : PerfState :=
  match xp_batch st with
  | None => st
  | Some (batch, attempts) =>
      let '(r, store) := perf_insert_batch batch (xp_store st) in
      let st := st <| xp_store := store |> in
      let on_counters f := st <| xp_batch := None |>
                              <| xp_service := perf_count f (xp_service st) |> in
      match r, attempts with
      | Ok n, _ => on_counters (λ c, c <| pc_persisted := u64_add (pc_persisted c) n |>)
      | Err _, S (S n) => st <| xp_batch := Some (batch, S n) |>
      | Err _, _ =>
          let n := Z.of_nat (length batch) in
          on_counters (λ c, c <| pc_write_failed := u64_add (pc_write_failed c) n |>
                              <| pc_dropped := u64_add (pc_dropped c) n |>)
      end
  end.

(** ** Retention *)

(** The inner loop of the cleanup task; [None] when [fuel] does not suffice. *)
Fixpoint cleanup_loop (fuel : nat) (min_day : Z) (s : PerformanceStore) : option PerformanceStore :=
  match fuel with
  | O => None
  | S fuel =>
      let '(r, s) := perf_delete_before min_day s in
      match r with
      | Ok 1000 => cleanup_loop fuel min_day s
      | Ok _ | Err _ => Some s
      end
  end.

(** ** Interleaving *)

Inductive PerfStep :=
  | PS_Begin (request_id : string) (utc : DateTime) (now : Instant)
  | PS_Op (h : nat) (op : HandleOp) (now : Instant)
  | PS_Response (h : nat) (status : Z) (end_stream : bool) (now : Instant) (c : FinishClock)
  | PS_Poll (h : nat) (poll : BodyPoll) (now : Instant) (c : FinishClock)
  | PS_Drop (h : nat) (c : FinishClock)
  | PS_Take (received : nat) (now : DateTime)
  | PS_Write
  | PS_Delete (min_day : Z).

(** What is left of a request after its response or a poll. *)
Definition reopen (h : nat) (r : option PerformanceGuard * PerformanceService) (st : PerfState)
    : PerfState :=
  let '(body, p) := r in
  st <| xp_service := p |>
     <| xp_open := match body with
                   | Some g => <[h := OR_Body g]> (xp_open st)
                   | None => delete h (xp_open st)
                   end |>.

Definition perf_step (st : PerfState) (step : PerfStep) : PerfState :=
  match step with
  | PS_Begin request_id utc now =>
      match perf_begin request_id utc now (xp_service st) with
      | (Some g, p) => st <| xp_service := p |>
                          <| xp_open := <[pg_handle g := OR_Handler g]> (xp_open st) |>
      | (None, p) => st <| xp_service := p |>
      end
  | PS_Op h op now => st <| xp_service := handle_op h op now (xp_service st) |>
  | PS_Response h status end_stream now c =>
      match xp_open st !! h with
      | Some (OR_Handler g) => reopen h (guard_response status end_stream now c g (xp_service st)) st
      | _ => st
      end
  | PS_Poll h poll now c =>
      match xp_open st !! h with
      | Some (OR_Body g) => reopen h (perf_body_poll poll now c (Some g) (xp_service st)) st
      | _ => st
      end
  | PS_Drop h c =>
      match xp_open st !! h with
      | Some o => reopen h (None, guard_drop c (open_guard o) (xp_service st)) st
      | None => st
      end
  | PS_Take received now => perf_take received now st
  | PS_Write => perf_write st
  | PS_Delete min_day => st <| xp_store := (perf_delete_before min_day (xp_store st)).2 |>
  end.

Definition perf_run (st : PerfState) (steps : list PerfStep) : PerfState := foldl perf_step st steps.
End tasks.

(** ** The query (src/src/handler/performance.rs) *)

Record PerformanceQuery := mkPerfQuery {
  qq_start_at : option DateTime;
  qq_end_at : option DateTime;
  qq_account_id : option Z;
  qq_api_token_id : option Z;
  qq_model : option string;
  qq_instance_id : option string;
  qq_outcome : option PerformanceOutcome;
  qq_is_stream : option bool;
  qq_min_duration_ms : option Z;
  qq_sort : option string;
  qq_page : option Z;
  qq_page_size : option Z;
}.

Definition bad_range (now day_now : DateTime)
    (start_ms end_ms : Z) : bool :=
  let min_ms := retention_day day_now * 86400000 - 28800000 in
  (start_ms <? min_ms) || (timestamp_millis now + 1000 <? end_ms) || (end_ms <=? start_ms).

Definition bad_filter (q : PerformanceQuery) : bool :=
  is_some_and (qq_account_id q) (λ v, v <=? 0)
  || is_some_and (qq_api_token_id q) (λ v, v <=? 0)
  || is_some_and (qq_min_duration_ms q) (λ v, v <? 0)
  || is_some_and (qq_page q) (λ v, negb ((1 <=? v) && (v <=? 1000000)))
  || is_some_and (qq_page_size q) (λ v, negb ((1 <=? v) && (v <=? 100)))
  || is_some_and (qq_model q) (λ s, 128 <? str_len s)
  || is_some_and (qq_instance_id q) (λ s, 128 <? str_len s).

Definition parse_sort (s : string) : result AppError bool :=
  if String.eqb s "duration_desc" then Ok true
  else if String.eqb s "created_at_desc" then Ok false
  else Err (BadRequest "invalid performance sort").

(** [now] and [day_now]: the two readings of the clock. *)
Definition validate_performance (now day_now : DateTime) (q : PerformanceQuery)
    : result AppError PerformanceFilter :=
  let end_ms := default (timestamp_millis now) (timestamp_millis <$> qq_end_at q) in
  let start_ms := default (end_ms - 3600000) (timestamp_millis <$> qq_start_at q) in
  if bad_range now day_now start_ms end_ms
  then Err (BadRequest "performance range must be within the last 30 Singapore calendar days")
  else if bad_filter q then Err (BadRequest "invalid performance filter or pagination")
  else
    duration_desc ← parse_sort (default "duration_desc" (qq_sort q));
    Ok {| ff_start_ms := start_ms; ff_end_ms := end_ms;
          ff_account_id := qq_account_id q; ff_api_token_id := qq_api_token_id q;
          ff_model := opt_filter (λ s, negb (is_empty s)) (qq_model q);
          ff_instance_id := opt_filter (λ s, negb (is_empty s)) (qq_instance_id q);
          ff_outcome := qq_outcome q; ff_is_stream := qq_is_stream q;
          ff_min_duration_ms := qq_min_duration_ms q; ff_duration_desc := duration_desc;
          ff_page := default 1 (qq_page q); ff_page_size := default 20 (qq_page_size q) |}.

(** The routes. *)
Definition overview `{PerfText} (now day_now : DateTime) (q : PerformanceQuery)
    (p : PerformanceService) : DB (PerformanceReport * PerformanceHealth) :=
  f ← db_of (validate_performance now day_now q);
  report ← perf_report f;
  mret (report, perf_health p).

Definition active_route (now day_now : DateTime) (q : PerformanceQuery) (clk : nat → Instant)
    (p : PerformanceService) : result AppError PerformancePage :=
  f ← validate_performance now day_now q; Ok (active f clk p).

Definition requests_route `{PerfText} (now day_now : DateTime) (q : PerformanceQuery)
    : DB PerformancePage :=
  f ← db_of (validate_performance now day_now q); perf_list f.

(** [is_uuid]: what [Uuid::parse_str] accepts. *)
Definition detail_route `{PerfText} (is_uuid : string → bool) (id : string) (now : DateTime)
    : DB PerformanceEvent :=
  if is_uuid id then perf_get id (retention_day now)
  else db_of (Err (BadRequest "invalid request id")).
