(* ===== verification/PerformanceFacts.v ===== *)
(** * PerformanceFacts: the theorems on the reports of measured requests

    Percentiles are nearest ranks; a report's buckets split its range, and every
    counter and percentile in it is that of the rows of its bucket; pages split the
    ordered list. *)

From S2P Require Import Prelude Text F64 Json Http Model UsageParse Usage UsageStore Performance.
From S2P Require Import PerformanceStore.

(** ** Percentiles *)

Lemma f_le_total a b : f_le a b = false → f_le b a = true.
Proof. unfold f_le. rewrite Z.leb_gt, Z.leb_le. lia. Qed.

Lemma f_le_trans a b c : f_le a b = true → f_le b c = true → f_le a c = true.
Proof. unfold f_le. rewrite !Z.leb_le. lia. Qed.

Lemma sort_f_sorted l : StronglySorted (λ a b, f_le a b = true) (sort_by f_le l).
Proof. apply sort_by_sorted; [apply f_le_total|apply f_le_trans]. Qed.

Lemma filter_length_all {A} (P : A → Prop) `{∀ x, Decision (P x)} (l : list A) :
  Forall P l → length (filter P l) = length l.
Proof. induction 1 as [|x l Hx Hl IH]; [done|]. by rewrite filter_cons_True; simpl; rewrite ?IH. Qed.

Lemma filter_length_none {A} (P : A → Prop) `{∀ x, Decision (P x)} (l : list A) :
  Forall (λ x, ¬ P x) l → length (filter P l) = O.
Proof. induction 1 as [|x l Hx Hl IH]; [done|]. by rewrite filter_cons_False. Qed.

(** How many are not above, and how many below, the element of a given rank. *)
Lemma sorted_rank l i v :
  StronglySorted (λ a b, f_le a b = true) l → l !! i = Some v →
  (S i ≤ length (filter (λ x, f_le x v = true) l))%nat
  ∧ (length (filter (λ x, f_le v x = false) l) ≤ i)%nat.
Proof.
  intros Hs Hi. pose proof (lookup_lt_Some _ _ _ Hi) as Hlen.
  assert (Forall (λ x, f_le x v = true) (take (S i) l) ∧ Forall (λ x, f_le v x = true) (drop i l)) as [Hlow Hup].
  { revert i Hi Hlen. induction Hs as [|x l Hs IH Hx]; intros [|i] Hi Hlen; simpl in *; try done.
    - injection Hi as ->. split; [|constructor; [unfold f_le; apply Z.leb_refl|done]].
      constructor; [unfold f_le; apply Z.leb_refl|]. rewrite take_0. constructor.
    - destruct (IH i Hi ltac:(lia)) as [H1 H2]. split; [|done]. constructor; [|done].
      apply (proj1 (Forall_forall _ _) Hx). by eapply list_elem_of_lookup_2. }
  split.
  - rewrite <- (take_drop (S i) l), filter_app, length_app, filter_length_all by done.
    rewrite length_take. lia.
  - rewrite <- (take_drop i l) at 1. rewrite filter_app, length_app.
    rewrite (filter_length_none (λ x, f_le v x = false) (drop i l)).
    + pose proof (length_filter (λ x, f_le v x = false) (take i l)) as Hf.
      rewrite length_take in Hf. lia.
    + eapply Forall_impl; [exact Hup|]. simpl. congruence.
Qed.

(** A percentile is the nearest rank: a sample that at least the given share of the samples
    do not exceed, while fewer than that share lie below it; there is one whenever there are
    samples. *)
Theorem percentile_correct percent l :
  l ≠ [] → 1 ≤ percent ≤ 100 →
  ∃ v, ranked percent (sort_by f_le l) = Some v ∧ v ∈ l
    ∧ Z.of_nat (length l) * percent ≤ 100 * Z.of_nat (length (filter (λ x, f_le x v = true) l))
    ∧ 100 * Z.of_nat (length (filter (λ x, f_le v x = false) l)) < Z.of_nat (length l) * percent.
Proof.
  intros Hl Hp. unfold ranked. pose proof (sort_by_perm f_le l) as Hperm.
  assert (length (sort_by f_le l) = length l) as -> by by rewrite Hperm.
  assert (1 ≤ Z.of_nat (length l)) as Hn by (destruct l; [done|simpl; lia]).
  set (n := Z.of_nat (length l)) in *. set (r := (n * percent + 99) / 100).
  assert (n * percent ≤ 100 * r ∧ 100 * r < n * percent + 100) as [Hr1 Hr2].
  { unfold r. pose proof (Z.div_mod (n * percent + 99) 100 ltac:(lia)).
    pose proof (Z.mod_pos_bound (n * percent + 99) 100 ltac:(lia)). lia. }
  assert (1 ≤ r ≤ n) as Hr by nia.
  destruct (lookup_lt_is_Some_2 (sort_by f_le l) (Z.to_nat (r - 1))) as [v Hv].
  { assert (length (sort_by f_le l) = length l) as -> by by rewrite Hperm. lia. }
  exists v. destruct (sorted_rank _ _ _ (sort_f_sorted l) Hv) as [H1 H2].
  rewrite (Permutation_length (filter_Permutation (λ x, f_le x v = true) _ _ Hperm)) in H1.
  rewrite (Permutation_length (filter_Permutation (λ x, f_le v x = false) _ _ Hperm)) in H2.
  split_and!; [done| |lia|lia].
  rewrite <- Hperm. by eapply list_elem_of_lookup_2.
Qed.

(** ** Counters *)

Lemma count_if_app p l1 l2 : count_if p (l1 ++ l2) = count_if p l1 + count_if p l2.
Proof. unfold count_if. rewrite filter_app, length_app. lia. Qed.

Lemma count_if_perm p l1 l2 : l1 ≡ₚ l2 → count_if p l1 = count_if p l2.
Proof. intros Hp. unfold count_if. by rewrite (Permutation_length (filter_Permutation _ _ _ Hp)). Qed.

Lemma counts_of_app l1 l2 : counts_of (l1 ++ l2) = counts_add (counts_of l1) (counts_of l2).
Proof. unfold counts_of, counts_add. simpl. rewrite !count_if_app, length_app. f_equal. lia. Qed.

Lemma counts_of_perm l1 l2 : l1 ≡ₚ l2 → counts_of l1 = counts_of l2.
Proof.
  intros Hp. unfold counts_of. by rewrite !(count_if_perm _ _ _ Hp), (Permutation_length Hp).
Qed.

Lemma fold_counts ls l0 :
  foldl counts_add (counts_of l0) (counts_of <$> ls) = counts_of (l0 ++ concat ls).
Proof.
  revert l0. induction ls as [|l ls IH]; intros l0; simpl; [by rewrite app_nil_r|].
  by rewrite <- counts_of_app, IH, app_assoc.
Qed.

Lemma bucket_keys_nodup bucket rows : NoDup (bucket_keys bucket rows).
Proof. unfold bucket_keys. rewrite sort_by_perm. apply NoDup_remove_dups. Qed.

Lemma elem_of_bucket_keys bucket rows i :
  i ∈ bucket_keys bucket rows ↔ ∃ r, r ∈ rows ∧ bucket r = i.
Proof.
  unfold bucket_keys. rewrite sort_by_perm, elem_of_remove_dups, list_elem_of_fmap. naive_solver.
Qed.

(** The buckets' counters add up to those of all rows. *)
Lemma bucket_counts_sum bucket rows :
  foldl counts_add counts_default ((λ i, counts_of (in_bucket bucket i rows)) <$> bucket_keys bucket rows)
  = counts_of rows.
Proof.
  pose proof (fold_counts ((λ i, in_bucket bucket i rows) <$> bucket_keys bucket rows) []) as Hf.
  rewrite <- list_fmap_compose in Hf. unfold compose in Hf. change (counts_of []) with counts_default in Hf.
  rewrite Hf. cbn [app]. apply counts_of_perm. unfold in_bucket.
  rewrite concat_groups by apply bucket_keys_nodup.
  rewrite (filter_ext_in _ (λ _, True)), filter_all; [done|].
  intros r Hr. rewrite elem_of_bucket_keys. naive_solver.
Qed.

(** ** Filling the buckets *)

Lemma fill_length {A} (g : A → PerformanceBucket → PerformanceBucket) rows bs :
  length (fill g rows bs) = length bs.
Proof.
  unfold fill, on_bucket. revert bs. induction rows as [|r rows IH]; intros bs; simpl; [done|].
  by rewrite IH, length_alter.
Qed.

(** Rows with distinct indexes reach each its own bucket. *)
Lemma fill_lookup {A} (g : A → PerformanceBucket → PerformanceBucket) (F : Z → A) keys bs i :
  NoDup keys → Forall (λ k, 0 ≤ k < 2 ^ 64) keys →
  fill g ((λ k, (k, F k)) <$> keys) bs !! i =
  (if bool_decide (Z.of_nat i ∈ keys) then g (F (Z.of_nat i)) else id) <$> bs !! i.
Proof.
  intros Hnd Hr. revert bs. induction Hnd as [|k keys Hk Hnd IH]; intros bs.
  - rewrite bool_decide_false by apply not_elem_of_nil. by rewrite option_fmap_id.
  - apply Forall_cons in Hr as [Hk' Hr]. rewrite fmap_cons. unfold fill. cbn [foldl fst snd].
    change (foldl _ _ _) with (fill g ((λ k, (k, F k)) <$> keys) (on_bucket k (g (F k)) bs)) at 1.
    rewrite IH by done. unfold on_bucket.
    assert (wrap u64 k = k) as ->.
    { unfold wrap. simpl. rewrite Z.sub_0_r. apply Z.mod_small. simpl in Hk'. lia. }
    destruct (decide (Z.of_nat i = k)) as [<-|Hne].
    + rewrite Nat2Z.id, list_lookup_alter_eq, (bool_decide_false (Z.of_nat i ∈ keys)) by done.
      rewrite bool_decide_true by (by left). by rewrite option_fmap_id.
    + rewrite list_lookup_alter_ne by lia. f_equal.
      rewrite (bool_decide_ext (Z.of_nat i ∈ keys) (Z.of_nat i ∈ k :: keys)); [done|].
      rewrite elem_of_cons. naive_solver.
Qed.

(** ** Samples *)

Definition measured (c : PerfColumn) (rows : list PerfRow) : list PerfRow :=
  filter (λ r, outcome_is PO_Success r && opt_is_some (column c r) = true) rows.

Lemma samples_cons c r rows :
  samples c (r :: rows) =
  (if outcome_is PO_Success r then option_list (column c r) else []) ++ samples c rows.
Proof.
  unfold samples. rewrite filter_cons. destruct (outcome_is PO_Success r); simpl; [|done].
  by destruct (column c r).
Qed.

Lemma samples_measured c (P : PerfRow → Prop) `{∀ r, Decision (P r)} rows :
  samples c (filter P (measured c rows)) = samples c (filter P rows).
Proof.
  unfold measured. induction rows as [|r rows IH]; [done|]. rewrite filter_cons.
  destruct (outcome_is PO_Success r) eqn:Ho, (column c r) eqn:Hc; simpl;
    rewrite !filter_cons; destruct (decide (P r)); rewrite ?samples_cons, ?Ho, ?Hc, ?IH; done.
Qed.

Lemma unmeasured_samples c (P : PerfRow → Prop) `{∀ r, Decision (P r)} rows :
  (∀ r, r ∈ measured c rows → ¬ P r) → samples c (filter P rows) = [].
Proof.
  intros Hn. rewrite <- samples_measured.
  assert (filter P (measured c rows) = []) as ->; [|done]. apply length_zero_iff_nil.
  apply filter_length_none. by apply Forall_forall.
Qed.

(** The percentiles of a bucket are there exactly when it has samples. *)
Lemma percentile_rows_bucket c bucket rows i :
  (if bool_decide (i ∈ bucket_keys bucket (measured c rows))
   then percentiles_of (samples c (in_bucket bucket i (measured c rows))) else percentiles_default)
  = percentiles_of (samples c (in_bucket bucket i rows)).
Proof.
  unfold in_bucket. case_bool_decide as Hi; [by rewrite samples_measured|].
  rewrite unmeasured_samples; [done|]. intros r Hr Hb. apply Hi, elem_of_bucket_keys. by exists r.
Qed.

Lemma percentile_rows_overall c rows :
  default percentiles_default (snd <$> last (percentile_rows c (λ _, 0) rows))
  = percentiles_of (samples c rows).
Proof.
  unfold percentile_rows. fold (measured c rows).
  pose proof (percentile_rows_bucket c (λ _, 0) rows 0) as Hb.
  assert (∀ l, in_bucket (λ _, 0) 0 l = l) as Hall.
  { intros l. unfold in_bucket. rewrite (filter_ext_in _ (λ _, True)) by done. apply filter_all. }
  rewrite !Hall in Hb. rewrite <- Hb.
  pose proof (bucket_keys_nodup (λ _, 0) (measured c rows)) as Hnd.
  pose proof (elem_of_bucket_keys (λ _, 0) (measured c rows)) as Hin.
  destruct (bucket_keys (λ _, 0) (measured c rows)) as [|k [|k' ks]].
  - by rewrite bool_decide_false by apply not_elem_of_nil.
  - destruct (proj1 (Hin k) ltac:(set_solver)) as (r & _ & <-).
    rewrite bool_decide_true by set_solver. simpl. by rewrite Hall.
  - destruct (proj1 (Hin k) ltac:(set_solver)) as (r & _ & <-).
    destruct (proj1 (Hin k') ltac:(set_solver)) as (r' & _ & <-).
    apply NoDup_cons in Hnd as [Hnd _]. set_solver.
Qed.

(** ** Buckets *)

Lemma bucket_size_spec f :
  ff_start_ms f ≤ ff_end_ms f ≤ ff_start_ms f + 288 * 86400000 →
  0 < bucket_size f ∧ bucket_count f (bucket_size f) ≤ 288.
Proof.
  intros Hf. unfold bucket_size. rewrite !filter_cons.
  repeat (destruct (decide _); [simpl; split; [lia|done]|]).
  exfalso. match goal with H : ¬ bucket_count f 86400000 ≤ 288 |- _ => apply H end.
  unfold bucket_count. rewrite Z.quot_div_nonneg by lia.
  apply Z.lt_succ_r, Z.div_lt_upper_bound; lia.
Qed.

(** The rows of the [i]-th bucket. *)
Definition bucket_rows (f : PerformanceFilter) (i : nat) (rows : list PerfRow) : list PerfRow :=
  filter (λ r, ff_start_ms f + Z.of_nat i * bucket_size f ≤ pw_started_at_ms r
               < ff_start_ms f + (Z.of_nat i + 1) * bucket_size f) (matching f rows).

Lemma matching_range f rows r :
  r ∈ matching f rows → ff_start_ms f ≤ pw_started_at_ms r < ff_end_ms f.
Proof.
  intros [Hw _]%list_elem_of_filter. unfold where_filter in Hw. rewrite !andb_true_iff in Hw.
  rewrite !Z.leb_le, Z.ltb_lt in Hw. tauto.
Qed.

Lemma bucket_expr_spec f rows r i :
  0 < bucket_size f → r ∈ matching f rows →
  bucket_expr f r = i ↔
  ff_start_ms f + i * bucket_size f ≤ pw_started_at_ms r < ff_start_ms f + (i + 1) * bucket_size f.
Proof.
  intros Hs Hr%matching_range. unfold bucket_expr. rewrite Z.quot_div_nonneg by lia.
  pose proof (Z.div_mod (pw_started_at_ms r - ff_start_ms f) (bucket_size f) ltac:(lia)).
  pose proof (Z.mod_pos_bound (pw_started_at_ms r - ff_start_ms f) (bucket_size f) Hs).
  split; [intros <-; nia|]. intros ?. nia.
Qed.

Lemma in_bucket_rows f rows i :
  0 < bucket_size f →
  in_bucket (bucket_expr f) (Z.of_nat i) (matching f rows) = bucket_rows f i rows.
Proof. intros Hs. apply filter_ext_in. intros r Hr. by rewrite (bucket_expr_spec f rows). Qed.

Lemma bucket_keys_range f l rows :
  ff_start_ms f ≤ ff_end_ms f ≤ ff_start_ms f + 288 * 86400000 → 0 < bucket_size f →
  l ⊆ matching f rows → Forall (λ k, 0 ≤ k < 2 ^ 64) (bucket_keys (bucket_expr f) l).
Proof.
  intros Hf Hs Hl. apply Forall_forall. intros k (r & Hr & <-)%elem_of_bucket_keys.
  pose proof (matching_range f rows r (Hl r Hr)). unfold bucket_expr.
  rewrite Z.quot_div_nonneg by lia. split; [apply Z.div_pos; lia|].
  apply Z.div_lt_upper_bound; [done|]. simpl. nia.
Qed.

(** ** The report *)

Definition all_measured (c : PerfColumn) (f : PerformanceFilter) (rows : list PerfRow)
    : PerformancePercentiles := percentiles_of (samples c (matching f rows)).

Lemma statement_query {A} (g : list PerfRow → A) s :
  pt_faults s = [] → query g s = (Ok (g (pt_rows s)), s).
Proof. intros Hf. unfold query, statement. rewrite Hf. destruct s. simpl in *. by subst. Qed.

Lemma overall_Ok f c s :
  pt_faults s = [] → overall f c s = (Ok (all_measured c f (pt_rows s)), s).
Proof.
  intros Hf. unfold overall. unfold mbind, db_bind, percentiles. rewrite statement_query by done.
  unfold mret, db_ret. by rewrite percentile_rows_overall.
Qed.

(** The buckets of a report, filled in three times. *)
Definition report_buckets (f : PerformanceFilter) (m : list PerfRow) : list PerformanceBucket :=
  fill (λ p b, b <| pb_first_content := p |>) (percentile_rows COL_FirstContent (bucket_expr f) m)
    (fill (λ p b, b <| pb_duration := p |>) (percentile_rows COL_Duration (bucket_expr f) m)
       (fill (λ c b, b <| pb_counts := c |>)
          ((λ i, (i, counts_of (in_bucket (bucket_expr f) i m))) <$> bucket_keys (bucket_expr f) m)
          (empty_buckets f))).

Lemma bucket_counts_in f i m :
  (if bool_decide (i ∈ bucket_keys (bucket_expr f) m)
   then counts_of (in_bucket (bucket_expr f) i m) else counts_default)
  = counts_of (in_bucket (bucket_expr f) i m).
Proof.
  case_bool_decide as Hi; [done|].
  assert (in_bucket (bucket_expr f) i m = []) as ->; [|done]. apply length_zero_iff_nil.
  apply filter_length_none, Forall_forall. intros r Hr Hb. apply Hi, elem_of_bucket_keys. by exists r.
Qed.

Lemma report_buckets_lookup f rows i :
  ff_start_ms f ≤ ff_end_ms f ≤ ff_start_ms f + 288 * 86400000 →
  report_buckets f (matching f rows) !! i =
  if bool_decide (Z.of_nat i < bucket_count f (bucket_size f))
  then Some (mkPerfBucket (ff_start_ms f + Z.of_nat i * bucket_size f)
               (counts_of (bucket_rows f i rows))
               (percentiles_of (samples COL_Duration (bucket_rows f i rows)))
               (percentiles_of (samples COL_FirstContent (bucket_rows f i rows))))
  else None.
Proof.
  intros Hf. destruct (bucket_size_spec f Hf) as [Hs Hc]. set (m := matching f rows).
  assert (∀ c, Forall (λ k, 0 ≤ k < 2 ^ 64) (bucket_keys (bucket_expr f) (measured c m))) as Hkeys.
  { intros c. apply (bucket_keys_range f _ rows Hf Hs). intros r. unfold measured.
    rewrite list_elem_of_filter. by intros [_ ?]. }
  unfold report_buckets, percentile_rows.
  fold (measured COL_FirstContent m). fold (measured COL_Duration m).
  rewrite !fill_lookup; try apply bucket_keys_nodup; [|by apply (bucket_keys_range f _ rows)|apply Hkeys..].
  unfold empty_buckets. rewrite list_lookup_fmap.
  destruct (decide (Z.of_nat i < bucket_count f (bucket_size f))) as [Hi|Hi].
  - rewrite (bool_decide_true (Z.of_nat i < _)) by done. rewrite lookup_seq_lt by lia. cbn [fmap option_fmap option_map].
    rewrite <- (in_bucket_rows f rows i Hs). fold m.
    generalize (percentile_rows_bucket COL_Duration (bucket_expr f) m (Z.of_nat i)),
      (percentile_rows_bucket COL_FirstContent (bucket_expr f) m (Z.of_nat i)),
      (bucket_counts_in f (Z.of_nat i) m).
    by repeat case_bool_decide; intros Hd Hfc Hk; simpl; rewrite ?Hd, ?Hfc, <- ?Hk, <- ?Hd, <- ?Hfc.
  - rewrite (bool_decide_false (Z.of_nat i < _)) by done. rewrite lookup_seq_ge by lia. done.
Qed.

(** The bins of the histogram split the times that are not negative. *)
Lemma histogram_bins v :
  0 ≤ v < ity_max i64 →
  foldr Z.add 0 ((λ '(lower, upper, _), if (lower <=? v) && (v <? upper) then 1 else 0) <$> HISTOGRAM) = 1.
Proof.
  intros Hv. cbn in Hv. unfold HISTOGRAM. cbn [fmap list_fmap foldr].
  assert (v < 1000 ∨ 1000 ≤ v < 5000 ∨ 5000 ≤ v < 15000 ∨ 15000 ≤ v < 60000 ∨ 60000 ≤ v < 300000
    ∨ 300000 ≤ v < 900000 ∨ 900000 ≤ v < 1800000 ∨ 1800000 ≤ v) as Hcases by lia.
  cbn [ity_max i64].
  repeat (destruct Hcases as [Hcase|Hcases]; [|]); 
    repeat match goal with
    | |- context [?a <=? v] => first [rewrite (proj2 (Z.leb_le a v)) by lia | rewrite (proj2 (Z.leb_gt a v)) by lia]
    | |- context [v <? ?b] => first [rewrite (proj2 (Z.ltb_lt v b)) by lia | rewrite (proj2 (Z.ltb_ge v b)) by lia]
    end; done.
Qed.

Lemma count_if_cons p r rows : count_if p (r :: rows) = (if p r then 1 else 0) + count_if p rows.
Proof. unfold count_if. rewrite filter_cons. destruct (p r); simpl; lia. Qed.

Lemma count_if_ext p q rows : (∀ r, p r = q r) → count_if p rows = count_if q rows.
Proof. intros Hpq. induction rows as [|r rows IH]; [done|]. by rewrite !count_if_cons, IH, Hpq. Qed.

Lemma sum_add {A} (F G : A → Z) l :
  foldr Z.add 0 ((λ x, F x + G x) <$> l) = foldr Z.add 0 (F <$> l) + foldr Z.add 0 (G <$> l).
Proof. induction l as [|x l IH]; [done|]. rewrite !fmap_cons. cbn [foldr]. rewrite IH. lia. Qed.

Lemma sum_ext {A} (F G : A → Z) l :
  (∀ x, F x = G x) → foldr Z.add 0 (F <$> l) = foldr Z.add 0 (G <$> l).
Proof.
  intros Hfg. induction l as [|x l IH]; [done|]. rewrite !fmap_cons. cbn [foldr]. by rewrite IH, Hfg.
Qed.

Lemma histogram_sum (col : PerfRow → option Z) rows :
  (∀ r v, r ∈ rows → col r = Some v → 0 ≤ v < ity_max i64) →
  foldr Z.add 0 ((λ b : Z * Z * string, histogram_count b.1.1 b.1.2 col rows) <$> HISTOGRAM)
  = count_if (λ r, outcome_is PO_Success r && opt_is_some (col r)) rows.
Proof.
  induction rows as [|r rows IH]; intros Hr; [done|]. rewrite count_if_cons, <- IH by set_solver.
  rewrite (sum_ext _ (λ b : Z * Z * string,
    (if outcome_is PO_Success r && is_some_and (col r) (λ v, (b.1.1 <=? v) && (v <? b.1.2)) then 1 else 0)
    + histogram_count b.1.1 b.1.2 col rows)) by (intros; apply count_if_cons).
  rewrite sum_add. f_equal. destruct (outcome_is PO_Success r); [|done]. cbn [andb].
  destruct (col r) as [v|] eqn:Hv; [|done]. cbn [is_some_and opt_is_some].
  etrans; [|apply (histogram_bins v), (Hr r v); [left|done]]. apply sum_ext.
  by intros [[lower upper] label].
Qed.

Lemma samples_length c rows :
  Z.of_nat (length (samples c rows))
  = count_if (λ r, outcome_is PO_Success r && opt_is_some (column c r)) rows.
Proof.
  induction rows as [|r rows IH]; [done|]. rewrite samples_cons, count_if_cons, length_app, Nat2Z.inj_add, IH.
  f_equal. destruct (outcome_is PO_Success r); [|done]. by destruct (column c r).
Qed.

Definition times_in_range (f : PerformanceFilter) (rows : list PerfRow) : Prop :=
  ∀ r v, r ∈ matching f rows → pw_duration_ms r = Some v → 0 ≤ v < ity_max i64.

(** ** Pages *)

Lemma newest_le_spec a b :
  newest_le a b = true ↔
  pw_started_at_ms b < pw_started_at_ms a
  ∨ pw_started_at_ms b = pw_started_at_ms a ∧ String.leb (pw_request_id a) (pw_request_id b) = true.
Proof. unfold newest_le. rewrite orb_true_iff, andb_true_iff, Z.ltb_lt, Z.eqb_eq. done. Qed.

Lemma newest_le_total a b : newest_le a b = true ∨ newest_le b a = true.
Proof.
  rewrite !newest_le_spec. pose proof (String.leb_total (pw_request_id a) (pw_request_id b)).
  destruct (Z.lt_total (pw_started_at_ms a) (pw_started_at_ms b)) as [|[|]]; naive_solver lia.
Qed.

Lemma newest_le_trans a b c : newest_le a b = true → newest_le b c = true → newest_le a c = true.
Proof.
  rewrite !newest_le_spec. pose proof (leb_trans (pw_request_id a) (pw_request_id b) (pw_request_id c)).
  intros [?|[? ?]] [?|[? ?]]; auto; try (left; lia). right. split; [lia|auto].
Qed.

Lemma null_lt_total a b : null_lt a b = true ∨ a = b ∨ null_lt b a = true.
Proof.
  destruct a as [x|], b as [y|]; simpl; auto. rewrite !Z.ltb_lt.
  destruct (Z.lt_total x y) as [|[->|]]; auto.
Qed.

Lemma null_lt_trans a b c : null_lt a b = true → null_lt b c = true → null_lt a c = true.
Proof. destruct a, b, c; simpl; rewrite ?Z.ltb_lt; try done. lia. Qed.

Lemma list_le_spec desc a b :
  list_le desc a b = true ↔
  if desc then null_lt (pw_duration_ms b) (pw_duration_ms a) = true
               ∨ pw_duration_ms b = pw_duration_ms a ∧ newest_le a b = true
  else newest_le a b = true.
Proof. destruct desc; simpl; [|done]. by rewrite orb_true_iff, andb_true_iff, bool_decide_eq_true. Qed.

Lemma list_le_total desc a b : list_le desc a b = false → list_le desc b a = true.
Proof.
  intros Hf. assert (¬ list_le desc a b = true) as Hn by congruence. revert Hn.
  rewrite !list_le_spec. pose proof (newest_le_total a b). destruct desc; [|tauto].
  destruct (null_lt_total (pw_duration_ms a) (pw_duration_ms b)) as [|[->|]]; tauto.
Qed.

Lemma list_le_trans desc a b c :
  list_le desc a b = true → list_le desc b c = true → list_le desc a c = true.
Proof.
  rewrite !list_le_spec. pose proof (newest_le_trans a b c). destruct desc; [|auto].
  pose proof (null_lt_trans (pw_duration_ms c) (pw_duration_ms b) (pw_duration_ms a)).
  intros [?|[Hab ?]] [?|[Hbc ?]]; [auto|left; congruence|left; congruence|right; split; [congruence|auto]].
Qed.

(** The first [n] pages, one after the other. *)
Lemma pages_concat {A} size n (l : list A) :
  0 ≤ size →
  concat ((λ i, page_of (Z.of_nat i + 1) size l) <$> seq 0 n) = take (n * Z.to_nat size) l.
Proof.
  intros Hs. induction n as [|n IH]; [done|].
  rewrite seq_S, fmap_app, concat_app, IH. simpl. rewrite app_nil_r. unfold page_of.
  replace (Z.to_nat ((Z.of_nat n + 1 - 1) * size)) with (n * Z.to_nat size)%nat by lia.
  rewrite take_take_drop. f_equal. lia.
Qed.

Lemma page_of_fmap {A B} (g : A → B) page size l : page_of page size (g <$> l) = g <$> page_of page size l.
Proof. unfold page_of. by rewrite fmap_take, fmap_drop. Qed.

Lemma collect_results_Ok {E A B} (f : A → result E B) (h : A → B) l :
  (∀ x, x ∈ l → f x = Ok (h x)) → collect_results (f <$> l) = Ok (h <$> l).
Proof.
  induction l as [|x l IH]; intros Hf; [done|]. rewrite !fmap_cons. cbn [collect_results].
  rewrite Hf by set_solver. cbn [mbind result_bind]. by rewrite IH by set_solver.
Qed.

Section report.
Context `{PerfText}.

(** A performance report splits its range into at most 288 equal buckets without a gap; the
    counters and percentiles of a bucket are those of the matching requests that started in it,
    the totals those of all matching requests, and the bins of the histogram count each measured
    duration once. *)
Theorem perf_report_correct f s :
  pt_faults s = [] →
  ff_start_ms f ≤ ff_end_ms f ≤ ff_start_ms f + 288 * 86400000 →
  let size := bucket_size f in
  let rows := pt_rows s in
  ∃ r, perf_report f s = (Ok r, s)
    ∧ pr_counts r = counts_of (matching f rows)
    ∧ pr_duration r = all_measured COL_Duration f rows
    ∧ pr_first_byte r = all_measured COL_FirstByte f rows
    ∧ pr_first_content r = all_measured COL_FirstContent f rows
    ∧ pr_first_text r = all_measured COL_FirstText f rows
    ∧ pr_output_speed r = all_measured COL_Speed f rows
    ∧ 0 < size ∧ (length (pr_buckets r) ≤ 288)%nat
    ∧ (∀ i b, pr_buckets r !! i = Some b →
         pb_start_ms b = ff_start_ms f + Z.of_nat i * size
         ∧ pb_counts b = counts_of (bucket_rows f i rows)
         ∧ pb_duration b = percentiles_of (samples COL_Duration (bucket_rows f i rows))
         ∧ pb_first_content b = percentiles_of (samples COL_FirstContent (bucket_rows f i rows)))
    ∧ (∀ t, ff_start_ms f ≤ t < ff_end_ms f → ∃ i b, pr_buckets r !! i = Some b
         ∧ pb_start_ms b ≤ t < pb_start_ms b + size)
    ∧ (times_in_range f rows →
         foldr Z.add 0 (hi_duration_count <$> pr_histogram r) = pq_sample_count (pr_duration r)).
Proof.
  intros Hf Hrange size rows. destruct (bucket_size_spec f Hrange) as [Hsize Hcount]. fold size in Hsize.
  unfold perf_report, percentiles.
  repeat (unfold mbind, db_bind; first [rewrite statement_query by done | rewrite overall_Ok by done]).
  fold rows. fold (report_buckets f (matching f rows)).
  eexists. split; [reflexivity|].
  cbn [pr_counts pr_duration pr_first_byte pr_first_content pr_first_text pr_output_speed pr_buckets pr_histogram].
  pose proof (λ i, report_buckets_lookup f rows i Hrange) as Hlook. fold size in Hlook.
  split_and!; try done.
  - rewrite <- list_fmap_compose. apply bucket_counts_sum.
  - destruct (decide (length (report_buckets f (matching f rows)) ≤ 288)%nat) as [|Hlen]; [done|].
    destruct (lookup_lt_is_Some_2 (report_buckets f (matching f rows)) 288) as [b Hb]; [lia|].
    rewrite Hlook, bool_decide_false in Hb by (simpl in *; fold size in Hcount; lia). done.
  - intros i b Hb. rewrite Hlook in Hb. case_bool_decide; [|done]. by injection Hb as <-.
  - intros t Ht. exists (Z.to_nat ((t - ff_start_ms f) / size)).
    assert (0 ≤ (t - ff_start_ms f) / size) as Hpos by (apply Z.div_pos; lia).
    pose proof (Z.div_mod (t - ff_start_ms f) size ltac:(lia)).
    pose proof (Z.mod_pos_bound (t - ff_start_ms f) size Hsize).
    eexists. rewrite Hlook, Z2Nat.id, bool_decide_true by
      (try done; unfold bucket_count; rewrite Z.quot_div_nonneg by lia;
       apply Z.div_le_lower_bound || (apply Z.lt_le_trans with ((t - ff_start_ms f) / size + 1); [lia|];
       apply Z.div_le_lower_bound; [done|nia])).
    split; [done|]. simpl. lia.
  - intros Ht. unfold all_measured, percentiles_of. cbn [pq_sample_count].
    rewrite (Permutation_length (sort_by_perm _ _)), samples_length.
    etrans; [|etrans; [apply (histogram_sum pw_duration_ms); exact Ht|]].
    2: { apply count_if_ext. intros r. simpl. by destruct (pw_duration_ms r). }
    unfold histogram_of. rewrite <- list_fmap_compose. apply sum_ext. by intros [[lower upper] label].
Qed.

(** The pages of a list of requests cut the matching requests, in their order, one after
    the other: no request is on two pages or on none, and each page carries the whole number. *)
Theorem pages_split f s decoded :
  pt_faults s = [] → 1 ≤ ff_page_size f →
  (∀ r, r ∈ pt_rows s → event_from_str (pw_event_json r) = Ok (decoded r)) →
  let rows := ordered f (pt_rows s) in
  StronglySorted (λ a b, list_le (ff_duration_desc f) a b = true) rows
  ∧ rows ≡ₚ matching f (pt_rows s)
  ∧ ∃ pages : nat → list PerformanceEvent,
      (∀ i, perf_list (f <| ff_page := Z.of_nat i + 1 |>) s =
        (Ok (mkPage (pages i) (Z.of_nat (length rows)) (Z.of_nat i + 1) (ff_page_size f)), s))
      ∧ ∀ n, (length rows ≤ n * Z.to_nat (ff_page_size f))%nat →
          concat (pages <$> seq 0 n) = decoded <$> rows.
Proof.
  intros Hf Hsize Hdec rows.
  assert (rows ≡ₚ matching f (pt_rows s)) as Hperm by apply sort_by_perm.
  split_and!; [apply sort_by_sorted; [apply list_le_total|apply list_le_trans]|done|].
  exists (λ i, page_of (Z.of_nat i + 1) (ff_page_size f) (decoded <$> rows)). split.
  - intros i. set (f' := f <| ff_page := Z.of_nat i + 1 |>).
    assert (ff_page f' = Z.of_nat i + 1 ∧ ff_page_size f' = ff_page_size f
      ∧ matching f' (pt_rows s) = matching f (pt_rows s) ∧ ordered f' (pt_rows s) = rows)
      as (Hp & Hps & Hm & Ho) by (by destruct f).
    unfold perf_list. unfold mbind, db_bind. rewrite !statement_query by done.
    rewrite Hp, Hps, Hm, Ho. unfold db_of.
    rewrite <- list_fmap_compose, (collect_results_Ok _ decoded).
    + unfold mret, db_ret. by rewrite page_of_fmap, (Permutation_length Hperm).
    + intros r Hr. unfold compose, decode_event. rewrite Hdec; [done|].
      assert (r ∈ rows) as Hin.
      { unfold page_of in Hr. eapply elem_of_sublist; [exact Hr|].
        etrans; [apply sublist_take|apply sublist_drop]. }
      rewrite Hperm in Hin. by apply list_elem_of_filter in Hin as [_ ?].
  - intros n Hn. rewrite pages_concat by lia. apply take_ge. by rewrite length_fmap.
Qed.
End report.
