(* ===== verification/PerformanceRuns.v ===== *)
(** * PerformanceRuns: the theorems on measured requests over runs

    Every measured request is counted once, whatever its answer does, and the list of
    active requests holds open ones only; what a finished measurement says. *)

From S2P Require Import Prelude Text F64 Json Http Model UsageParse Usage UsageStore UsageTasksFacts Performance.
From S2P Require Import PerformanceStore PerformanceTasks.

(** ** States of requests *)

Definition state_id (s : RequestState) : string := pv_request_id (rq_event s).

(** What leaves a request what it is. *)
Definition keeps (f : RequestState → RequestState) : Prop :=
  ∀ s, state_id (f s) = state_id s ∧ rq_finished (f s) = rq_finished s.

Lemma keeps_update f now :
  (∀ s ms, state_id (f s ms) = state_id s ∧ rq_finished (f s ms) = rq_finished s) →
  keeps (handle_update f now).
Proof. intros Hf s. unfold handle_update. destruct (rq_finished s) eqn:Hs; [done|]. by rewrite <- Hs. Qed.

Lemma record_content_keeps s ms phase :
  state_id (record_content s ms phase) = state_id s
  ∧ rq_finished (record_content s ms phase) = rq_finished s.
Proof.
  unfold record_content, state_id. destruct s as [st [] lc b lcb cb fin]. simpl.
  by destruct lc, (String.eqb phase "text"), (bool_decide _).
Qed.

Lemma observe_fields_id v e : pv_request_id (observe_fields v e) = pv_request_id e.
Proof. unfold observe_fields. destruct e. by repeat case_match. Qed.

Lemma observe_json_keeps v streaming s ms :
  state_id (observe_json v streaming s ms) = state_id s
  ∧ rq_finished (observe_json v streaming s ms) = rq_finished s.
Proof.
  unfold observe_json. set (s0 := s <| rq_event := observe_fields v (rq_event s) |>).
  assert (state_id s0 = state_id s ∧ rq_finished s0 = rq_finished s) as [<- <-].
  { unfold s0, state_id. destruct s. simpl. by rewrite observe_fields_id. }
  assert (∀ s, state_id (model_completed s ms) = state_id s
    ∧ rq_finished (model_completed s ms) = rq_finished s) as Hm by (by intros [? [] ? ? ? ? ?]).
  assert (∀ c, state_id (observe_content s0 ms c) = state_id s0
    ∧ rq_finished (observe_content s0 ms c) = rq_finished s0) as Hc.
  { intros c. unfold observe_content. destruct (content_phase c); [done|apply record_content_keeps|].
    by destruct s0 as [? [] ? ? ? ? ?]. }
  destruct streaming.
  - destruct (streamed_content v) as [c|]; case_match; rewrite ?(proj1 (Hm _)), ?(proj2 (Hm _)); auto.
  - case_match; [apply Hm|done].
Qed.

Lemma apply_op_keeps op s ms :
  state_id (apply_op op s ms) = state_id s ∧ rq_finished (apply_op op s ms) = rq_finished s.
Proof.
  destruct op; simpl; try (by destruct s as [? [] ? ? ? ? ?]); [|apply observe_json_keeps].
  case_match; [done|]. by destruct s as [? [] ? ? ? ? ?].
Qed.

Lemma response_status_keeps status s ms :
  state_id (response_status status s ms) = state_id s
  ∧ rq_finished (response_status status s ms) = rq_finished s.
Proof. unfold response_status. destruct s as [? [] ? ? ? ? ?]. simpl. by case_match. Qed.

Lemma finished_event_id aborted now utc s :
  pv_request_id (finished_event aborted now utc s) = state_id s.
Proof.
  unfold finished_event, snapshot, state_id. destruct s as [? [] lc ? ? ? ?]. simpl.
  by destruct lc.
Qed.

Lemma finish_keeps_id h (p : PerformanceService) f :
  pf_heap (handle_at p h f) = alter f h (pf_heap p).
Proof. by destruct p. Qed.

(** ** The states that are not finished *)

Definition live_ids (l : list RequestState) : list string :=
  state_id <$> filter (λ s, rq_finished s = false) l.

Lemma live_ids_app l1 l2 : live_ids (l1 ++ l2) = live_ids l1 ++ live_ids l2.
Proof. unfold live_ids. by rewrite filter_app, fmap_app. Qed.

Lemma live_ids_keeps f h l : keeps f → live_ids (alter f h l) = live_ids l.
Proof.
  intros Hf. revert h. induction l as [|s l IH]; intros h; [by destruct h|].
  destruct (Hf s) as [Hid Hfin]. destruct h as [|h]; simpl; unfold live_ids in *; rewrite !filter_cons.
  - rewrite Hfin. case_decide; [|done]. by rewrite !fmap_cons, Hid.
  - case_decide; [|apply IH]. rewrite !fmap_cons. f_equal. apply IH.
Qed.

Lemma live_ids_finish l h s s' :
  l !! h = Some s → rq_finished s = false → rq_finished s' = true →
  live_ids l ≡ₚ state_id s :: live_ids (<[h := s']> l).
Proof.
  intros Hl Hs Hs'. rewrite (insert_take_drop l h s') by by eapply lookup_lt_Some.
  rewrite <- (take_drop_middle l h s Hl) at 1. rewrite !live_ids_app. unfold live_ids.
  rewrite !filter_cons, decide_True by done. rewrite (decide_False (P := rq_finished s' = false)) by congruence.
  rewrite fmap_cons. by rewrite Permutation_middle.
Qed.

Lemma live_ids_lookup l h s : l !! h = Some s → rq_finished s = false → state_id s ∈ live_ids l.
Proof.
  intros Hl Hs. unfold live_ids. apply list_elem_of_fmap. exists s. split; [done|].
  apply list_elem_of_filter. split; [done|]. by eapply list_elem_of_lookup_2.
Qed.

(** Among different identifiers, one belongs to one state. *)
Lemma live_ids_inj l h1 h2 s1 s2 :
  NoDup (live_ids l) → l !! h1 = Some s1 → l !! h2 = Some s2 →
  rq_finished s1 = false → rq_finished s2 = false → state_id s1 = state_id s2 → h1 = h2.
Proof.
  intros Hnd H1 H2 Hf1 Hf2 Hid. destruct (decide (h1 = h2)) as [|Hne]; [done|]. exfalso.
  set (s1' := s1 <| rq_finished := true |>).
  assert (rq_finished s1' = true) as Hf by by destruct s1.
  pose proof (live_ids_finish l h1 s1 s1' H1 Hf1 Hf) as Hp.
  rewrite Hp in Hnd. apply NoDup_cons in Hnd as [Hin _]. apply Hin. rewrite Hid.
  apply (live_ids_lookup _ h2); [|done]. by rewrite list_lookup_insert_ne.
Qed.

(** ** What the operations do to the service *)

Definition lost (p : PerformanceService) : Z :=
  pc_expired (pf_counters p) + pc_dropped (pf_counters p).

(** A measurement ends: its state is finished, it is not active any more, and its event
    waits, expired or was dropped. *)
Definition ended (h : nat) (p p' : PerformanceService) : Prop :=
  ∃ s s' e, pf_heap p !! h = Some s ∧ rq_finished s = false ∧ rq_finished s' = true
    ∧ pv_request_id e = state_id s ∧ pf_heap p' = <[h := s']> (pf_heap p)
    ∧ pf_active p' = delete (state_id s) (pf_active p) ∧ pf_enabled p' = pf_enabled p
    ∧ pc_persisted (pf_counters p') = pc_persisted (pf_counters p)
    ∧ (pf_queue p' = pf_queue p ++ [e] ∧ lost p' = lost p
       ∨ pf_queue p' = pf_queue p ∧ ∃ k, lost p' = lost p + 1 + k * 2 ^ 64).

Lemma list_alter_const {A} h (l : list A) (f : A → A) s :
  l !! h = Some s → alter f h l = <[h := f s]> l.
Proof.
  intros Hl. apply list_eq. intros j. rewrite list_lookup_alter, list_lookup_insert.
  destruct (decide (h = j)) as [<-|]; [|rewrite decide_False; naive_solver].
  rewrite Hl, decide_True; [done|]. split; [done|by eapply lookup_lt_Some].
Qed.

Lemma enqueue_cases e c p :
  pf_heap (enqueue e c p) = pf_heap p ∧ pf_active (enqueue e c p) = pf_active p
  ∧ pf_enabled (enqueue e c p) = pf_enabled p
  ∧ pc_persisted (pf_counters (enqueue e c p)) = pc_persisted (pf_counters p)
  ∧ (pf_queue (enqueue e c p) = pf_queue p ++ [e] ∧ lost (enqueue e c p) = lost p
     ∨ pf_queue (enqueue e c p) = pf_queue p ∧ ∃ k, lost (enqueue e c p) = lost p + 1 + k * 2 ^ 64).
Proof.
  unfold enqueue, lost. destruct p as [en i si hp ac q cl [np nd nw na nq ne]].
  destruct (u64_add_mod ne 1) as (k1 & Hk1 & _), (u64_add_mod nd 1) as (k2 & Hk2 & _).
  case_match; [|case_match]; simpl; split_and!; try done; [right|right|left]; (split; [done|]).
  - exists k1. lia.
  - exists k2. lia.
  - done.
Qed.

Lemma guard_finish_ended aborted c h p s :
  pf_heap p !! h = Some s → rq_finished s = false →
  (guard_finish aborted c (mkGuard h false) p).1 = mkGuard h true
  ∧ ended h p (guard_finish aborted c (mkGuard h false) p).2.
Proof.
  intros Hl Hs. unfold guard_finish. cbn [pg_finished pg_handle upd]. simpl. rewrite Hl.
  set (e := finished_event _ _ _ _).
  pose proof (finished_event_id aborted (fc_now c) (fc_utc c) s : pv_request_id e = _) as Hid.
  split; [done|]. exists s, (s <| rq_finished := true |> <| rq_event := e |>), e.
  match goal with |- context [enqueue e c ?p1] => set (p' := p1) end. simpl.
  destruct (enqueue_cases e c p') as (-> & -> & -> & -> & Hq).
  assert (pf_queue p' = pf_queue p ∧ lost p' = lost p
    ∧ pc_persisted (pf_counters p') = pc_persisted (pf_counters p) ∧ pf_enabled p' = pf_enabled p
    ∧ pf_active p' = delete (pv_request_id e) (pf_active p)
    ∧ pf_heap p' = <[h := s <| rq_finished := true |> <| rq_event := e |>]> (pf_heap p))
    as (Hq' & Hlost & -> & -> & -> & ->).
  { clear Hq. rewrite <- (list_alter_const h (pf_heap p) (λ s, s <| rq_finished := true |> <| rq_event := e |>) s Hl). unfold p', lost.
    by destruct p as [en i si hp ac q cl []]; simpl in *; case_match. }
  rewrite Hq', Hlost, Hid in *. split_and!; try done. by destruct s.
Qed.

(** ** What a state keeps track of *)

Definition batch_of (st : PerfState) : list PerformanceEvent := default [] (fst <$> xp_batch st).

Definition row_ids (s : PerformanceStore) : list string := pw_request_id <$> pt_rows s.

(** The identifiers of the measurements that a state holds, wherever they are. *)
Definition ids_of (st : PerfState) : list string :=
  row_ids (xp_store st) ++ (pv_request_id <$> batch_of st)
  ++ (pv_request_id <$> pf_queue (xp_service st)) ++ live_ids (pf_heap (xp_service st)).

(** The invariant: [known] are the identifiers of the rows at the start, [n] of them, and
    of the measurements begun since. *)
Record tracked (n : nat) (known : list string) (st : PerfState) : Prop := mkTracked {
  tr_known : length known = (n + length (pf_heap (xp_service st)))%nat;
  tr_ids : ids_of st ⊆+ known;
  tr_open h o : xp_open st !! h = Some o →
    open_guard o = mkGuard h false
    ∧ ∃ s, pf_heap (xp_service st) !! h = Some s ∧ rq_finished s = false;
  tr_active id h : pf_active (xp_service st) !! id = Some h →
    is_Some (xp_open st !! h) ∧ ∃ s, pf_heap (xp_service st) !! h = Some s ∧ state_id s = id;
  tr_size : (size (pf_active (xp_service st)) ≤ length (pf_heap (xp_service st)))%nat;
  tr_listed h o s : Z.of_nat (length (pf_heap (xp_service st))) ≤ ACTIVE_LIMIT →
    xp_open st !! h = Some o → pf_heap (xp_service st) !! h = Some s →
    pf_active (xp_service st) !! state_id s = Some h;
  tr_count : ∃ k, Z.of_nat (length (pf_heap (xp_service st))) =
    Z.of_nat (size (xp_open st)) + Z.of_nat (length (pf_queue (xp_service st)))
    + Z.of_nat (length (batch_of st)) + pc_persisted (pf_counters (xp_service st))
    + lost (xp_service st) + k * 2 ^ 64;
}.

Lemma submseteq_NoDup {A} (l k : list A) : l ⊆+ k → NoDup k → NoDup l.
Proof. intros [k' ->]%submseteq_Permutation. by intros [? _]%NoDup_app. Qed.

Lemma tracked_live n known st :
  NoDup known → tracked n known st → NoDup (live_ids (pf_heap (xp_service st))).
Proof.
  intros Hnd Htr. pose proof (submseteq_NoDup _ _ (tr_ids _ _ _ Htr) Hnd) as H.
  unfold ids_of in H. do 3 apply NoDup_app in H as (_ & _ & H). done.
Qed.

Lemma tracked_touch n known st f h :
  keeps f → tracked n known st →
  tracked n known (st <| xp_service := handle_at (xp_service st) h f |>).
Proof.
  intros Hf [Hk Hi Ho Ha Hs Hl Hc]. destruct st as [p store batch opened], p as [en i si hp ac q cl k].
  unfold ids_of, batch_of in *. split; unfold ids_of, batch_of; simpl in *.
  - by rewrite length_alter.
  - by rewrite live_ids_keeps.
  - intros j o Hj. destruct (Ho j o Hj) as (Hg & s & Hs1 & Hfin). split; [done|].
    rewrite list_lookup_alter. case_decide; subst; rewrite Hs1; simpl; (eexists; split; [done|]);
      by rewrite ?(proj2 (Hf s)).
  - intros id j Hj. destruct (Ha id j Hj) as (Hg & s & Hs1 & Hid). split; [done|].
    rewrite list_lookup_alter. case_decide; subst; rewrite Hs1; simpl; (eexists; split; [done|]);
      by rewrite ?(proj1 (Hf s)).
  - by rewrite length_alter.
  - rewrite length_alter. intros j o s Hlen Hj. rewrite list_lookup_alter. case_decide; subst; [|by eauto].
    intros (s0 & Hs0 & ->)%fmap_Some. rewrite (proj1 (Hf s0)). by eauto.
  - by rewrite length_alter.
Qed.

Lemma size_delete_open {A} (m : gmap nat A) h o :
  m !! h = Some o → size m = S (size (delete h m)).
Proof.
  intros Hm. rewrite <- (insert_delete_id m h o Hm) at 1.
  by rewrite map_size_insert_None by apply lookup_delete_eq.
Qed.

Lemma tracked_end n known st h o p' :
  NoDup known → xp_open st !! h = Some o → ended h (xp_service st) p' → tracked n known st →
  tracked n known (st <| xp_service := p' |> <| xp_open := delete h (xp_open st) |>).
Proof.
  intros Hnd Hopen (s & s' & e & Hh & Hf & Hf' & He & Hheap & Hact & _ & Hper & Hq) Htr.
  pose proof (tracked_live _ _ _ Hnd Htr) as Hlive. destruct Htr as [Hk Hi Ho Ha Hs Hl Hc].
  destruct st as [p store batch opened]. unfold ids_of, batch_of in *. simpl in *.
  pose proof (live_ids_finish _ _ _ _ Hh Hf Hf') as Hp. rewrite <- Hheap in Hp.
  assert (length (pf_heap p') = length (pf_heap p)) as Hlen by by rewrite Hheap, length_insert.
  assert (∀ j t, j ≠ h → pf_heap p !! j = Some t → pf_heap p' !! j = Some t) as Hne.
  { intros j t Hj. by rewrite Hheap, list_lookup_insert_ne by done. }
  split; unfold ids_of, batch_of; simpl; rewrite ?Hlen; [done|..].
  - etrans; [|exact Hi]. rewrite Hp. destruct Hq as [[-> _]|[-> _]].
    + rewrite fmap_app. simpl. rewrite He. solve_submseteq.
    + solve_submseteq.
  - intros j o' [Hj Ho']%lookup_delete_Some. destruct (Ho j o' Ho') as (Hg & t & Ht & Hft).
    split; [done|]. exists t. auto.
  - rewrite Hact. intros id j [Hid Hj]%lookup_delete_Some. destruct (Ha id j Hj) as ([o' Ho'] & t & Ht & <-).
    assert (j ≠ h) as Hjh by congruence. rewrite lookup_delete_ne by done. split; [by eexists|]. exists t. auto.
  - rewrite Hact, map_size_delete. etrans; [|exact Hs]. case_match; [apply Nat.le_pred_l|done].
  - intros j o' t Hlt [Hj Ho']%lookup_delete_Some Ht.
    rewrite Hheap, list_lookup_insert_ne in Ht by done. rewrite Hact, lookup_delete_ne; [by eauto|].
    intros Hid. destruct (Ho j o' Ho') as (_ & t' & Ht' & Hft). simplify_eq.
    by destruct Hj; apply (live_ids_inj _ h j s t Hlive).
  - destruct Hc as [k Hc]. rewrite (size_delete_open _ _ _ Hopen) in Hc. rewrite Hper.
    destruct Hq as [[-> ->]|[-> (k1 & ->)]].
    + exists k. rewrite length_app. simpl. lia.
    + exists (k - k1). lia.
Qed.

(** The guard stays, in the handler or in the body. *)
Lemma tracked_reopen n known st h o :
  tracked n known st → xp_open st !! h = Some o →
  tracked n known (st <| xp_open := <[h := OR_Body (mkGuard h false)]> (xp_open st) |>).
Proof.
  intros [Hk Hi Ho Ha Hs Hl Hc] Hopen. destruct st as [p store batch opened].
  unfold ids_of, batch_of in *. simpl in *.
  destruct (Ho h o Hopen) as [_ Hh].
  split; unfold ids_of, batch_of; simpl; try done.
  - intros j o' [[<- <-]|[Hj Ho']]%lookup_insert_Some; [done|by eauto].
  - intros id j Hj. destruct (Ha id j Hj) as [[o' Ho'] Hs']. split; [|done].
    rewrite lookup_insert. case_decide; by eexists.
  - intros j o' s Hlt Hj. destruct (decide (h = j)) as [<-|Hne]; [by eauto|].
    rewrite lookup_insert_ne in Hj by done. by eauto.
  - destruct Hc as [k Hc]. exists k. by rewrite map_size_insert, Hopen.
Qed.

Section runs.
Context `{PerfText}.

Lemma tracked_begin n known st id utc now :
  NoDup (known ++ [id]) → pf_enabled (xp_service st) = true → tracked n known st →
  tracked n (known ++ [id]) (perf_step st (PS_Begin id utc now)).
Proof.
  intros Hnd Hen [Hk Hi Ho Ha Hs Hl Hc]. destruct st as [p store batch opened], p as [en i si hp ac q cl k].
  unfold ids_of, batch_of, lost in *. cbn [perf_step]. unfold perf_begin. simpl in *. subst en. simpl.
  set (s0 := request_new id i utc now).
  assert (state_id s0 = id ∧ rq_finished s0 = false) as [Hid0 Hf0] by done.
  set (h := length hp) in *.
  assert (opened !! h = None) as Hnone.
  { destruct (opened !! h) as [o|] eqn:Ho'; [|done]. destruct (Ho h o Ho') as (_ & s & Hs' & _).
    apply lookup_lt_Some in Hs'. lia. }
  assert (∀ j s, hp !! j = Some s → (hp ++ [s0]) !! j = Some s) as Happ.
  { intros j s Hj. by apply lookup_app_l_Some. }
  assert ((hp ++ [s0]) !! h = Some s0) as Hlast by by rewrite lookup_app_r, Nat.sub_diag by done.
  assert (∀ h', ac !! id = Some h' → False) as Hfresh.
  { intros h' Hh'. destruct (Ha id h' Hh') as ([o Ho'] & s & Hs' & Hid).
    destruct (Ho h' o Ho') as (_ & s' & Hs'' & Hf). simplify_eq. apply NoDup_app in Hnd as (_ & Hn & _).
    eapply (Hn (state_id s)); [|by apply list_elem_of_singleton].
    eapply elem_of_submseteq; [|exact Hi]. rewrite !elem_of_app. do 3 right. by eapply live_ids_lookup. }
  assert (∀ ac' k', (ac' = <[id := h]> ac ∨ ac' = ac ∧ ACTIVE_LIMIT ≤ Z.of_nat (size ac)) →
    pc_persisted k' = pc_persisted k → pc_expired k' = pc_expired k → pc_dropped k' = pc_dropped k →
    tracked n (known ++ [id]) (mkPerfState (mkPerf true i si (hp ++ [s0]) ac' q cl k') store batch
      (<[h := OR_Handler (mkGuard h false)]> opened))) as Hall.
  { intros ac' k' Hac Hp He Hd.
    assert (∀ id' j, ac' !! id' = Some j → (id' = id ∧ j = h) ∨ ac !! id' = Some j) as Hac'.
    { intros id' j. destruct Hac as [->|[-> _]]; [|by right].
      intros [[<- <-]|[_ ?]]%lookup_insert_Some; by auto. }
    split; unfold ids_of, batch_of, lost; simpl; rewrite ?Hp, ?He, ?Hd, ?length_app.
    - simpl. fold h. lia.
    - rewrite live_ids_app. change (live_ids [s0]) with [id]. rewrite !app_assoc.
      apply submseteq_skips_r. by rewrite <- !app_assoc.
    - intros j o [[<- <-]|[Hj Ho']]%lookup_insert_Some; [split; [done|by exists s0]|].
      destruct (Ho j o Ho') as (Hg & s & Hs' & Hf). split; [done|]. exists s. auto.
    - intros id' j [[-> ->]|Hj]%Hac'.
      + split; [rewrite lookup_insert_eq; by eexists|by exists s0].
      + destruct (Ha id' j Hj) as ([o Ho'] & s & Hs' & Hid). split; [|exists s; auto].
        rewrite lookup_insert. case_decide; by eexists.
    - simpl. destruct Hac as [->|[-> _]]; [|lia]. pose proof (map_size_insert id h ac) as Hz.
      destruct (ac !! id) eqn:Hid; [by edestruct Hfresh|]. rewrite Hz. fold h. lia.
    - simpl. intros j o s Hlt Hj Hs'. destruct Hac as [->|[-> Hge]]; [|fold h in Hlt; lia].
      apply lookup_insert_Some in Hj as [[<- _]|[Hj Ho']].
      + rewrite Hlast in Hs'. simplify_eq. by rewrite Hid0, lookup_insert_eq.
      + destruct (Ho j o Ho') as (_ & s' & Hs'' & Hf). rewrite (Happ _ _ Hs'') in Hs'.
        injection Hs' as <-. assert (ac !! state_id s' = Some j) as Hin by (apply (Hl j o s'); [lia|done|done]).
        rewrite lookup_insert_ne; [done|]. intros Heq. rewrite <- Heq in Hin. by eapply Hfresh.
    - destruct Hc as [z Hc]. exists z. rewrite map_size_insert_None by done. simpl. fold h. lia. }
  destruct (Z.of_nat (size ac) <? ACTIVE_LIMIT) eqn:Hlim; simpl; apply Hall; auto; try by destruct k.
  right. split; [done|lia].
Qed.

(** A batch without known identifiers is stored whole. *)
Lemma insert_rows_spec events rows n rows' :
  NoDup ((pw_request_id <$> rows) ++ (pv_request_id <$> events)) →
  insert_rows events rows = (Ok n, rows') →
  n = Z.of_nat (length events)
  ∧ pw_request_id <$> rows' = (pw_request_id <$> rows) ++ (pv_request_id <$> events).
Proof.
  revert rows n rows'. induction events as [|e events IH]; intros rows n rows' Hnd; cbn [insert_rows].
  { intros [= <- <-]. by rewrite app_nil_r. }
  destruct (event_to_str e) as [json|]; [|done].
  destruct (existsb _ rows) eqn:Hex.
  { exfalso. apply existsb_exists in Hex as (r & Hr & Hid%String.eqb_eq).
    apply NoDup_app in Hnd as (_ & Hn & _). apply (Hn (pv_request_id e)); [|by left].
    rewrite <- Hid. apply list_elem_of_fmap. exists r. split; [done|]. by apply list_elem_of_In. }
  destruct (insert_rows events _) as [r rows1] eqn:Hins. destruct r as [m|]; [|done].
  intros [= <- <-].
  assert (pw_request_id <$> rows ++ [row_of json e] = (pw_request_id <$> rows) ++ [pv_request_id e]) as Hf
    by by rewrite fmap_app.
  rewrite fmap_cons, cons_middle, app_assoc in Hnd.
  destruct (IH _ m rows1 ltac:(by rewrite Hf) Hins) as [-> ->].
  rewrite Hf, fmap_cons, <- app_assoc. simpl. split; [lia|done].
Qed.

Lemma perf_insert_batch_cases batch s :
  NoDup (row_ids s ++ (pv_request_id <$> batch)) →
  (∃ err s', perf_insert_batch batch s = (Err err, s') ∧ pt_rows s' = pt_rows s)
  ∨ ∃ s', perf_insert_batch batch s = (Ok (Z.of_nat (length batch)), s')
      ∧ row_ids s' = row_ids s ++ (pv_request_id <$> batch).
Proof.
  intros Hnd. unfold perf_insert_batch, statement, row_ids in *. destruct s as [rows fs]. simpl in *.
  destruct (insert_rows batch rows) as [r rows'] eqn:Hins.
  destruct fs as [|[m|] fs]; simpl; [|left; by eexists _, _|].
  all: destruct r as [n|err]; [right|left; by eexists _, _].
  all: destruct (insert_rows_spec _ _ _ _ Hnd Hins) as [-> Hrows]; by eexists.
Qed.

Lemma perf_delete_before_sublist min_day s :
  row_ids (perf_delete_before min_day s).2 `sublist_of` row_ids s.
Proof.
  unfold perf_delete_before, statement, row_ids. destruct s as [rows [|[m|] fs]]; simpl; try done.
  all: by apply fmap_sublist, sublist_filter.
Qed.

Lemma tracked_delete n known st min_day :
  tracked n known st → tracked n known (perf_step st (PS_Delete min_day)).
Proof.
  intros [Hk Hi Ho Ha Hs Hl Hc]. destruct st as [p store batch opened].
  split; try done. unfold ids_of, batch_of in *. simpl in *. etrans; [|exact Hi].
  apply submseteq_skips_r, sublist_submseteq, perf_delete_before_sublist.
Qed.

Lemma tracked_take n known st received now :
  tracked n known st → tracked n known (perf_step st (PS_Take received now)).
Proof.
  intros Htr. cbn [perf_step]. unfold perf_take.
  destruct (xp_batch st) eqn:Hb; [done|]. destruct (pf_queue (xp_service st)) as [|e0 q0] eqn:Hq; [done|].
  rewrite <- Hq. clear Hq e0 q0. set (m := Nat.min _ _). clearbody m. destruct Htr as [Hk Hi Ho Ha Hs Hl Hc].
  destruct st as [[en i si hp ac q cl [np nd nw na nf ne]] store batch opened].
  unfold ids_of, batch_of, lost in *. simpl in *. subst batch. simpl in *.
  set (kept := filter _ _).
  destruct (u64_add_mod ne (Z.of_nat (length (take m q)) - Z.of_nat (length kept))) as (k1 & Hu & _).
  rewrite <- (take_drop m q) in Hi, Hc. rewrite fmap_app in Hi. rewrite length_app in Hc.
  assert (kept `sublist_of` take m q) as Hsub by apply sublist_filter.
  case_bool_decide as Hkept; split; unfold ids_of, batch_of, lost; simpl; try done.
  - etrans; [|exact Hi]. solve_submseteq.
  - destruct Hc as [k Hc]. exists (k - k1). rewrite Hkept in *. simpl in *. lia.
  - etrans; [|exact Hi]. apply submseteq_skips_l. rewrite <- app_assoc. apply submseteq_skips_r.
    by apply sublist_submseteq, fmap_sublist.
  - destruct Hc as [k Hc]. exists (k - k1). lia.
Qed.

Lemma tracked_write n known st :
  NoDup known → tracked n known st → tracked n known (perf_step st PS_Write).
Proof.
  intros Hnd Htr. cbn [perf_step]. unfold perf_write.
  destruct (xp_batch st) as [[batch attempts]|] eqn:Hb; [|done]. destruct Htr as [Hk Hi Ho Ha Hs Hl Hc].
  pose proof (submseteq_NoDup _ _ Hi Hnd) as Hids.
  destruct st as [[en i si hp ac q cl [np nd nw na nf ne]] store b opened].
  unfold ids_of, batch_of, lost in *. simpl in *. subst b. simpl in *.
  destruct (perf_insert_batch_cases batch store) as [(err & s' & -> & Hrows)|(s' & -> & Hrows)].
  { rewrite app_assoc in Hids. by apply NoDup_app in Hids as [? _]. }
  - assert (row_ids s' = row_ids store) as Hrow by (unfold row_ids; by rewrite Hrows).
    destruct (u64_add_mod nd (Z.of_nat (length batch))) as (k1 & Hu & _), Hc as [k Hc].
    destruct attempts as [|[|a]]; split; unfold ids_of, batch_of, lost; simpl; rewrite ?Hrow; try done.
    all: first [by exists k|exists (k - k1); lia|etrans; [|exact Hi]; solve_submseteq].
  - destruct (u64_add_mod np (Z.of_nat (length batch))) as (k1 & Hu & _), Hc as [k Hc].
    split; unfold ids_of, batch_of, lost; simpl; rewrite ?Hrows; try done.
    + by rewrite <- app_assoc.
    + exists (k - k1). lia.
Qed.

Lemma tracked_finish n known st h o aborted c :
  NoDup known → xp_open st !! h = Some o → tracked n known st →
  tracked n known (st <| xp_service := (guard_finish aborted c (mkGuard h false) (xp_service st)).2 |>
                      <| xp_open := delete h (xp_open st) |>).
Proof.
  intros Hnd Hopen Htr. eapply tracked_end; [done..| |done].
  destruct (tr_open _ _ _ Htr h o Hopen) as (_ & s & Hs & Hf). by eapply guard_finish_ended.
Qed.

(** Dropping a finished guard does nothing. *)
Lemma guard_end_finish c h p s :
  pf_heap p !! h = Some s → rq_finished s = false →
  guard_end c (mkGuard h false) p = (guard_finish false c (mkGuard h false) p).2.
Proof.
  intros Hs Hf. unfold guard_end. destruct (guard_finish_ended false c h p s Hs Hf) as [Hg _].
  destruct (guard_finish false c (mkGuard h false) p) as [g p']. simpl in *. by subst g.
Qed.

Lemma tracked_guard_end n known st h o c :
  NoDup known → tracked n known st → xp_open st !! h = Some o →
  tracked n known (st <| xp_service := guard_end c (mkGuard h false) (xp_service st) |>
                      <| xp_open := delete h (xp_open st) |>).
Proof.
  intros Hnd Htr Hopen. destruct (tr_open _ _ _ Htr h o Hopen) as (_ & s & Hs & Hf).
  rewrite (guard_end_finish c h _ s Hs Hf). by eapply tracked_finish.
Qed.

Lemma handle_op_keeps op now : keeps (handle_update (apply_op op) now).
Proof. apply keeps_update. intros s ms. apply apply_op_keeps. Qed.

Lemma response_keeps status now : keeps (handle_update (response_status status) now).
Proof. apply keeps_update. intros s ms. apply response_status_keeps. Qed.

(** The measurements that a step begins. *)
Definition begun (enabled : bool) (steps : list PerfStep) : list string :=
  omap (λ step, match step with
                | PS_Begin id _ _ => if enabled then Some id else None
                | _ => None
                end) steps.

Lemma tracked_step n known st step :
  NoDup (known ++ begun (pf_enabled (xp_service st)) [step]) → tracked n known st →
  tracked n (known ++ begun (pf_enabled (xp_service st)) [step]) (perf_step st step).
Proof.
  intros Hnd Htr. destruct st as [p store batch opened]. cbn [xp_service] in *.
  destruct step as [id utc now|h op now|h status es now c|h poll now c|h c|r now| |d];
    cbn [begun omap list_omap] in *; rewrite ?app_nil_r in *.
  - destruct (pf_enabled p) eqn:Hen; [by apply tracked_begin|].
    rewrite app_nil_r. cbn [perf_step xp_service]. unfold perf_begin. by rewrite Hen.
  - apply tracked_touch; [apply handle_op_keeps|done].
  - cbn [perf_step xp_open]. destruct (opened !! h) as [[g|g]|] eqn:Ho; [|done..].
    destruct (tr_open _ _ _ Htr h _ Ho) as [Hg _]. simpl in Hg. subst g.
    pose proof (tracked_touch _ _ _ _ h (response_keeps status now) Htr) as Htr'.
    unfold guard_response. simpl in Htr'. destruct es.
    + exact (tracked_guard_end _ _ _ h _ c Hnd Htr' Ho).
    + exact (tracked_reopen _ _ _ h _ Htr' Ho).
  - cbn [perf_step xp_open]. destruct (opened !! h) as [[g|g]|] eqn:Ho; [done| |done].
    destruct (tr_open _ _ _ Htr h _ Ho) as [Hg _]. simpl in Hg. subst g.
    pose proof (tracked_touch _ _ _ _ h (handle_op_keeps (H_Failure PO_StreamError) now) Htr) as Htr'.
    destruct poll as [|[]| |]; cbn [perf_body_poll].
    1,3: exact (tracked_reopen _ _ _ h _ Htr Ho).
    2: exact (tracked_guard_end _ _ _ h _ c Hnd Htr' Ho).
    all: exact (tracked_guard_end _ _ _ h _ c Hnd Htr Ho).
  - cbn [perf_step xp_open]. destruct (opened !! h) as [o|] eqn:Ho; [|done].
    destruct (tr_open _ _ _ Htr h _ Ho) as [-> _]. by eapply tracked_finish.
  - by apply tracked_take.
  - by apply tracked_write.
  - by apply tracked_delete.
Qed.

Lemma guard_finish_enabled aborted c g p :
  pf_enabled (guard_finish aborted c g p).2 = pf_enabled p.
Proof.
  unfold guard_finish. destruct (pg_finished g); [done|]. destruct (pf_heap p !! _); [|done].
  cbn [snd]. match goal with |- context [enqueue ?e c ?q] => pose proof (enqueue_cases e c q) as (_ & _ & -> & _) end.
  destruct p. by case_match.
Qed.

Lemma guard_end_enabled c g p : pf_enabled (guard_end c g p) = pf_enabled p.
Proof.
  unfold guard_end. pose proof (guard_finish_enabled false c g p).
  destruct (guard_finish false c g p) as [g' p']. unfold guard_drop. by rewrite guard_finish_enabled.
Qed.

Lemma handle_at_enabled h f p : pf_enabled (handle_at p h f) = pf_enabled p.
Proof. by destruct p. Qed.

Lemma perf_step_enabled st step :
  pf_enabled (xp_service (perf_step st step)) = pf_enabled (xp_service st).
Proof.
  destruct st as [p store batch opened], step; cbn [perf_step xp_service xp_open].
  - unfold perf_begin. destruct (pf_enabled p) eqn:Hen; simpl; [|done].
    destruct p. simpl in *. by case_match.
  - apply handle_at_enabled.
  - destruct (opened !! h) as [[g|g]|]; [|done..]. unfold guard_response.
    destruct end_stream; simpl; by rewrite ?guard_end_enabled, handle_at_enabled.
  - destruct (opened !! h) as [[g|g]|]; [done| |done].
    destruct poll as [|[]| |]; simpl; rewrite ?guard_end_enabled; try done. apply handle_at_enabled.
  - destruct (opened !! h); [|done]. simpl. apply guard_finish_enabled.
  - unfold perf_take. simpl. destruct batch, (pf_queue p); try done. destruct p. by case_bool_decide.
  - unfold perf_write. simpl. destruct batch as [[b n]|]; [|done].
    destruct (perf_insert_batch b store) as [[|] s], n as [|[]]; try done; by destruct p.
  - done.
Qed.

Lemma tracked_run n known st steps :
  NoDup (known ++ begun (pf_enabled (xp_service st)) steps) → tracked n known st →
  tracked n (known ++ begun (pf_enabled (xp_service st)) steps) (perf_run st steps).
Proof.
  revert known st. induction steps as [|step steps IH]; intros known st Hnd Htr.
  { simpl. by rewrite app_nil_r. }
  assert (begun (pf_enabled (xp_service st)) (step :: steps)
          = begun (pf_enabled (xp_service st)) [step] ++ begun (pf_enabled (xp_service st)) steps) as Hb.
  { unfold begun. rewrite !omap_cons. case_match; simpl; [|done]. by case_match. }
  rewrite Hb, app_assoc in *. rewrite <- (perf_step_enabled st step) in Hnd at 2 |- * at 2.
  apply IH; [done|]. apply tracked_step; [|done]. by apply NoDup_app in Hnd as [? _].
Qed.

(** C22: Requests with different identifiers, none of which is in the table yet, are measured
    once each, however their handlers, answers and the background tasks interleave: modulo the
    width of the counters, each is still open, waits in the queue or in the writer's batch, was
    persisted, had expired, or was dropped; and the table, the batch, the queue and the
    unfinished states together hold no identifier twice. The list of active requests names open
    ones only, and all of them as long as at most 10000 have begun. *)
Theorem requests_measured_once instance_id utc enabled store steps :
  NoDup (row_ids store ++ begun enabled steps) →
  let st := perf_run (mkPerfState (perf_new instance_id utc enabled) store None ∅) steps in
  let p := xp_service st in
  wrap u64 (Z.of_nat (length (begun enabled steps))) =
    wrap u64 (Z.of_nat (size (xp_open st) + length (pf_queue p) + length (batch_of st))
              + pc_persisted (pf_counters p) + pc_expired (pf_counters p) + pc_dropped (pf_counters p))
  ∧ NoDup (ids_of st)
  ∧ (∀ id h, pf_active p !! id = Some h →
      is_Some (xp_open st !! h) ∧ ∃ s, pf_heap p !! h = Some s ∧ pv_request_id (rq_event s) = id)
  ∧ (Z.of_nat (length (begun enabled steps)) ≤ ACTIVE_LIMIT → ∀ h o, xp_open st !! h = Some o →
      ∃ s, pf_heap p !! h = Some s ∧ pf_active p !! pv_request_id (rq_event s) = Some h).
Proof.
  intros Hnd. set (st0 := mkPerfState _ _ _ _).
  assert (tracked (length (row_ids store)) (row_ids store) st0) as H0.
  { split; unfold ids_of, batch_of; simpl; try done.
    - change (live_ids []) with (@nil string). by rewrite app_nil_r.
    - by exists 0. }
  apply (tracked_run _ _ st0 steps Hnd) in H0. cbn zeta.
  change (pf_enabled (xp_service st0)) with enabled in H0.
  set (st := perf_run st0 steps) in *. pose proof (submseteq_NoDup _ _ (tr_ids _ _ _ H0) Hnd) as Hids.
  destruct H0 as [Hk _ Ho Ha _ Hl [k Hc]]. rewrite length_app in Hk.
  assert (length (begun enabled steps) = length (pf_heap (xp_service st))) as Hlen by lia.
  split_and!; [|done|exact Ha|].
  - rewrite Hlen, Hc. unfold lost, wrap. simpl. rewrite !Z.sub_0_r.
    change (18446744073709551615 + 1) with (2 ^ 64). by rewrite Z_mod_plus_full, !Nat2Z.inj_add, Z.add_assoc.
  - rewrite Hlen. intros Hlt h o Hop. destruct (Ho h o Hop) as (_ & s & Hs & _).
    exists s. split; [done|]. by apply (Hl h o s).
Qed.
End runs.
