(* ===== verification/PerformanceRequestFacts.v ===== *)
(** * PerformanceRequestFacts: what one measurement says, its retention, and the queries

    The times of a finished measurement are in order and within its duration, and its
    speed is computed from them; the deletion of old rows ends and deletes them all; a
    query that is accepted is within its bounds. *)

From S2P Require Import Prelude Text F64 Json Http Model UsageParse Usage UsageStore Performance.
From S2P Require Import PerformanceStore PerformanceTasks PerformanceFacts.

(** ** Times *)

Lemma millis_bounds a : 0 ≤ a → 0 ≤ millis a ≤ ity_max i64.
Proof.
  intros Ha. pose proof (Z.div_pos a 1000000 Ha ltac:(lia)).
  unfold millis, millis_i64, checked, fits. case_match; simpl in *; lia.
Qed.

Lemma millis_mono a b : 0 ≤ a ≤ b → millis a ≤ millis b.
Proof.
  intros Hab. pose proof (Z.div_le_mono a b 1000000 ltac:(lia) ltac:(lia)).
  pose proof (Z.div_pos a 1000000 ltac:(lia) ltac:(lia)).
  unfold millis, millis_i64, checked, fits. repeat case_match; simpl in *; lia.
Qed.

Definition since (s : RequestState) (now : Instant) : Z := millis (elapsed now (rq_start s)).

Lemma since_mono s t u : t ≤ u → since s t ≤ since s u.
Proof. intros Htu. apply millis_mono. unfold elapsed. lia. Qed.

Lemma since_bounds s t : 0 ≤ since s t ≤ ity_max i64.
Proof. apply millis_bounds. unfold elapsed. lia. Qed.

(** [o], if known, is between [lo] and [hi]. *)
Definition within (lo hi : Z) (o : option Z) : Prop := ∀ m, o = Some m → lo ≤ m ≤ hi.

(** The times observed up to [t] milliseconds after the start: of the first byte, of the end
    of the model's answer, of the last, the first and the first textual content, and the
    longest gap. *)
Record times_ok (t : Z) (byte fin last first text gap : option Z) : Prop := mkTimes {
  tl_byte : within 0 t byte;
  tl_fin : within 0 t fin;
  tl_last : within 0 t last;
  tl_first m : first = Some m → 0 ≤ m ∧ ∃ l, last = Some l ∧ m ≤ l;
  tl_none : first = None → last = None;
  tl_text m : text = Some m → m ≤ t ∧ ∃ c, first = Some c ∧ c ≤ m;
  tl_gap g : gap = Some g → ∃ c l, first = Some c ∧ last = Some l ∧ 0 ≤ g ≤ l - c;
}.

Definition timeline (t : Z) (s : RequestState) : Prop :=
  let e := rq_event s in
  times_ok t (pv_first_byte_ms e) (pv_model_completed_ms e) (rq_last_content s)
    (pv_first_content_ms e) (pv_first_text_ms e) (pv_max_content_gap_ms e)
  ∧ pv_duration_ms e = None ∧ pv_output_tokens_per_second e = None.

Lemma within_mono t u o : t ≤ u → within 0 t o → within 0 u o.
Proof. intros Htu Ho m Hm. specialize (Ho m Hm). lia. Qed.

Lemma within_now t : 0 ≤ t → within 0 t (Some t).
Proof. intros Ht m [= <-]. lia. Qed.

(** A first time is kept. *)
Lemma within_first t o : 0 ≤ t → within 0 t o → within 0 t (get_or_insert t o).
Proof. destruct o; [done|]. intros Ht _. by apply within_now. Qed.

Lemma times_mono t u byte fin last first text gap :
  t ≤ u → times_ok t byte fin last first text gap → times_ok u byte fin last first text gap.
Proof.
  intros Htu [Hb Hd Hl Hf Hn Ht Hg]. split; eauto using within_mono.
  intros m Hm. destruct (Ht m Hm). split; [lia|done].
Qed.

Lemma times_content ms byte fin last first text gap (is_text : bool) :
  0 ≤ ms → times_ok ms byte fin last first text gap →
  times_ok ms byte fin (Some ms) (get_or_insert ms first)
    (if is_text then get_or_insert ms text else text)
    (match last with Some l => max_gap gap (ms - l) | None => gap end).
Proof.
  intros Hms [Hb Hd Hl Hf Hn Ht Hg].
  assert (∃ c, get_or_insert ms first = Some c ∧ 0 ≤ c ≤ ms ∧ (first = None → c = ms)) as (c & Hc & Hcm & _).
  { destruct first as [c|]; [|exists ms; split; [done|lia]]. exists c.
    destruct (Hf c eq_refl) as (Hc & l & Hlast & Hcl). specialize (Hl l Hlast). split; [done|]. split; [lia|done]. }
  split; [done|done|by apply within_now|..]; rewrite ?Hc.
  - intros m [= <-]. split; [lia|]. exists ms. split; [done|lia].
  - done.
  - assert (∀ m, text = Some m → m ≤ ms ∧ ∃ c, get_or_insert ms first = Some c ∧ c ≤ m) as Hold.
    { intros m Hm. destruct (Ht m Hm) as (Hmt & c' & -> & Hcm'). split; [done|]. by exists c'. }
    rewrite Hc in Hold. destruct is_text, text as [m0|]; simpl; auto.
    intros m [= <-]. split; [lia|]. exists c. split; [done|lia].
  - intros g Hgap. exists c, ms. split_and!; [done|done|..].
    all: destruct last as [l|], first as [f|]; simpl in *.
    all: try (by specialize (Hn eq_refl)); try (destruct (Hf f eq_refl) as (_ & ? & [=] & _)).
    all: try (destruct (Hg g Hgap) as (? & ? & [=] & [=] & _)).
    all: destruct (Hf f eq_refl) as (_ & l' & [= <-] & Hfl); specialize (Hl l eq_refl).
    all: injection Hc as ->; injection Hgap as <-; destruct gap as [g0|]; simpl; try lia.
    all: destruct (Hg g0 eq_refl) as (? & ? & [= <-] & [= <-] & ?); lia.
Qed.

Lemma timeline_mono t u s : t ≤ u → timeline t s → timeline u s.
Proof. intros Htu [Ht Ho]. split; [by eapply times_mono|done]. Qed.

Lemma record_content_timeline s ms phase :
  0 ≤ ms → timeline ms s → timeline ms (record_content s ms phase).
Proof.
  intros Hms [Ht Ho]. unfold timeline, record_content.
  apply (times_content _ _ _ _ _ _ _ (String.eqb phase "text") Hms) in Ht.
  destruct s as [st [] lc b lcb cb fin]. simpl in *.
  destruct lc, (String.eqb phase "text"), (bool_decide _); simpl; unfold upd; simpl; (split; [exact Ht|exact Ho]).
Qed.

Lemma observe_fields_times v e :
  pv_first_byte_ms (observe_fields v e) = pv_first_byte_ms e
  ∧ pv_model_completed_ms (observe_fields v e) = pv_model_completed_ms e
  ∧ pv_first_content_ms (observe_fields v e) = pv_first_content_ms e
  ∧ pv_first_text_ms (observe_fields v e) = pv_first_text_ms e
  ∧ pv_max_content_gap_ms (observe_fields v e) = pv_max_content_gap_ms e
  ∧ pv_duration_ms (observe_fields v e) = pv_duration_ms e
  ∧ pv_output_tokens_per_second (observe_fields v e) = pv_output_tokens_per_second e.
Proof. unfold observe_fields. destruct e. by repeat case_match. Qed.

Lemma model_completed_timeline s ms : 0 ≤ ms → timeline ms s → timeline ms (model_completed s ms).
Proof.
  intros Hms [[Hb Hd Hl Hf Hn Ht Hg] Ho]. unfold timeline, model_completed.
  destruct s as [st [] lc b lcb cb fin]. simpl in *. split; [|done]. split; eauto using within_now.
Qed.

Lemma observe_json_timeline v streaming s ms :
  0 ≤ ms → timeline ms s → timeline ms (observe_json v streaming s ms).
Proof.
  intros Hms Htl. unfold observe_json. set (s0 := s <| rq_event := observe_fields v (rq_event s) |>).
  assert (timeline ms s0) as H0.
  { unfold s0, timeline in *. destruct s as [st e lc b lcb cb fin]. simpl in *.
    destruct (observe_fields_times v e) as (-> & -> & -> & -> & -> & -> & ->). done. }
  assert (∀ c, timeline ms (observe_content s0 ms c)) as Hc.
  { intros c. unfold observe_content. destruct (content_phase c); [done|by apply record_content_timeline|].
    clear -H0. unfold timeline in *. destruct s0 as [? [] ? ? ? ? ?]. done. }
  destruct streaming.
  - destruct (streamed_content v) as [c|]; case_match; eauto using model_completed_timeline.
  - case_match; eauto using model_completed_timeline.
Qed.

Lemma apply_op_timeline op s ms : 0 ≤ ms → timeline ms s → timeline ms (apply_op op s ms).
Proof.
  intros Hms Htl. destruct op; simpl; try (unfold timeline in *; by destruct s as [? [] ? ? ? ? ?]).
  - case_match; [done|]. unfold timeline in *. destruct Htl as [[Hb Hd Hl Hf Hn Ht Hg] Ho].
    destruct s as [st [] lc b lcb cb fin]. simpl in *. split; [|done]. split; eauto using within_first.
  - by apply observe_json_timeline.
Qed.

Lemma response_status_timeline status s ms : timeline ms s → timeline ms (response_status status s ms).
Proof.
  unfold timeline, response_status. destruct s as [st [] lc b lcb cb fin]. simpl.
  by destruct (negb _ && _).
Qed.

(** ** Requests from their start to their end *)

(** A call on the handle, or the status of the response, at a time. *)
Definition observe_call (c : (HandleOp + Z) * Instant) (s : RequestState) : RequestState :=
  handle_update (match c.1 with inl op => apply_op op | inr status => response_status status end) c.2 s.

Lemma observe_json_start v streaming s ms :
  rq_start (observe_json v streaming s ms) = rq_start s ∧ rq_finished (observe_json v streaming s ms) = rq_finished s.
Proof.
  unfold observe_json. set (s0 := s <| rq_event := observe_fields v (rq_event s) |>).
  assert (rq_start s0 = rq_start s ∧ rq_finished s0 = rq_finished s) as [<- <-] by by destruct s.
  assert (∀ s, rq_start (model_completed s ms) = rq_start s
    ∧ rq_finished (model_completed s ms) = rq_finished s) as Hm by (by intros []).
  assert (∀ c, rq_start (observe_content s0 ms c) = rq_start s0
    ∧ rq_finished (observe_content s0 ms c) = rq_finished s0) as Hc.
  { intros c. unfold observe_content, record_content. destruct s0.
    destruct (content_phase c); simpl; by repeat case_match. }
  destruct streaming.
  - destruct (streamed_content v) as [c|]; case_match; rewrite ?(proj1 (Hm _)), ?(proj2 (Hm _)); auto.
  - case_match; [apply Hm|done].
Qed.

Lemma observe_call_start c s :
  rq_start (observe_call c s) = rq_start s ∧ rq_finished (observe_call c s) = rq_finished s.
Proof.
  unfold observe_call, handle_update. destruct (rq_finished s) eqn:Hf; [done|]. rewrite <- Hf.
  destruct c as [[op|status] now]; simpl; [|by destruct s].
  destruct op; simpl; try (by destruct s); [|apply observe_json_start]. case_match; [done|]. by destruct s.
Qed.

Lemma observe_call_timeline c s t :
  rq_finished s = false → t ≤ since s c.2 → timeline t s → timeline (since s c.2) (observe_call c s).
Proof.
  intros Hf Ht Htl%(timeline_mono _ (since s c.2)); [|done]. pose proof (since_bounds s c.2).
  unfold observe_call, handle_update. rewrite Hf. fold (since s c.2).
  destruct c as [[op|status] now]; simpl in *.
  - apply apply_op_timeline; [lia|done].
  - by apply response_status_timeline.
Qed.

Lemma observe_calls_timeline calls s t now :
  rq_finished s = false → StronglySorted Z.le ((snd <$> calls) ++ [now]) →
  Forall (λ c, t ≤ since s c.2) calls → t ≤ since s now → timeline t s →
  let s' := foldl (λ s c, observe_call c s) s calls in
  timeline (since s now) s' ∧ rq_start s' = rq_start s.
Proof.
  revert s t. induction calls as [|c calls IH]; intros s t Hf Hs Hall Ht Htl; simpl.
  { split; [by eapply timeline_mono|done]. }
  apply Forall_cons in Hall as [Hc Hall]. apply StronglySorted_inv in Hs as [Hs Hle].
  destruct (observe_call_start c s) as [Hst Hfin].
  assert (∀ t, since (observe_call c s) t = since s t) as Hsince by (intros u; unfold since; by rewrite Hst).
  assert (Forall (λ u, c.2 ≤ u) ((snd <$> calls) ++ [now])) as Hle' by exact Hle.
  apply Forall_app in Hle' as [Hle1 [Hle2 _]%Forall_cons]. rewrite Forall_fmap in Hle1.
  rewrite <- (Hsince now), <- Hst. apply (IH _ (since s c.2)); [by rewrite Hfin|done|..].
  - eapply Forall_impl; [exact Hle1|]. intros c' Hc'. simpl in Hc'. rewrite Hsince. by apply since_mono.
  - rewrite Hsince. by apply since_mono.
  - by eapply observe_call_timeline.
Qed.

Lemma sat_sub_id a b : 0 ≤ a ≤ ity_max i64 → 0 ≤ b ≤ ity_max i64 → sat_sub a b = a - b.
Proof. intros Ha Hb. apply saturate_id. simpl in *. lia. Qed.

(** What the end of a measurement adds to its times. *)
Lemma finished_times aborted now utc s :
  timeline (since s now) s →
  let e := finished_event aborted now utc s in
  let d := since s now in
  pv_duration_ms e = Some d ∧ pv_completed_at_utc e = Some utc ∧ is_Some (pv_outcome e)
  ∧ within 0 d (pv_first_byte_ms e) ∧ within 0 d (pv_first_content_ms e)
  ∧ within 0 d (pv_model_completed_ms e) ∧ within 0 d (pv_max_content_gap_ms e)
  ∧ (∀ m, pv_first_text_ms e = Some m → m ≤ d ∧ ∃ c, pv_first_content_ms e = Some c ∧ c ≤ m).
Proof.
  intros [[Hb Hd Hl Hf Hn Ht Hg] [Ho _]]. pose proof (since_bounds s now) as Hs.
  unfold finished_event, snapshot. fold (since s now). generalize dependent (since s now). intros d.
  intros. destruct s as [st [] lc b lcb cb fin]. simpl in *. subst. simpl.
  assert (within 0 d pv_first_content_ms) as Hfc.
  { intros m Hm. destruct (Hf m Hm) as (? & l & -> & ?). specialize (Hl l eq_refl). lia. }
  destruct lc as [l|]; simpl; split_and!; try done; try (by eexists); auto.
  - intros g [= <-]. specialize (Hl l eq_refl).
    assert (0 ≤ default d pv_model_completed_ms ≤ d) as Hu.
    { destruct pv_model_completed_ms as [m|]; simpl; [by apply Hd|lia]. }
    rewrite sat_sub_id by (simpl; lia).
    destruct pv_max_content_gap_ms as [g0|]; simpl; [|lia].
    destruct (Hg g0 eq_refl) as (c & l' & Hc & [= <-] & ?). specialize (Hfc c Hc). lia.
  - intros g Hgap. by destruct (Hg g Hgap) as (? & ? & _ & ? & _).
Qed.

Lemma finished_speed aborted now utc s v :
  pv_output_tokens_per_second (rq_event s) = None →
  let e := finished_event aborted now utc s in
  pv_output_tokens_per_second e = Some v →
  pv_outcome e = Some PO_Success ∧ pv_is_stream e = true ∧ pv_observation_quality e = "observed"
  ∧ 1 < rq_content_batches s
  ∧ ∃ tokens first stop, pv_output_tokens e = Some tokens ∧ pv_first_content_ms e = Some first
    ∧ pv_model_completed_ms e = Some stop ∧ first < stop
    ∧ v = f_div (f_mul (f_of_Z tokens) (f_of_Z 1000)) (f_of_Z (stop - first)).
Proof.
  intros Ho. unfold finished_event, snapshot, output_speed. destruct s as [st [] lc b lcb cb fin].
  simpl in *. subst. destruct lc; simpl; (case_match eqn:Hc; [|done]); intros Hv.
  all: apply andb_true_iff in Hc as [[[Hc1%bool_decide_eq_true Hc2%String.eqb_eq]%andb_true_iff Hc3]%andb_true_iff Hc4].
  all: destruct pv_output_tokens as [tokens|], pv_first_content_ms as [first|], pv_model_completed_ms as [stop|]; try done.
  all: destruct (first <? stop) eqn:Hlt; [|done]; injection Hv as <-.
  all: split_and!; [by f_equal|done|done|lia|]; exists tokens, first, stop; (split_and!; [done..|lia|done]).
Qed.

(** C37: Whatever is observed of a request, at times that do not go back, the event of its
    measurement says when it ended, how long it took and how it ended; the times of the first
    byte, the first content and the end of the model's answer and the longest gap are between
    zero and the duration, text does not come before content, and a speed is given only for a
    streamed success that was observed in at least two pieces, as the tokens over the time from
    the first content to the end of the answer. *)
Theorem measurement_timeline request_id instance_id utc0 start calls aborted now utc :
  StronglySorted Z.le ((snd <$> calls) ++ [now]) →
  let s := foldl (λ s c, observe_call c s) (request_new request_id instance_id utc0 start) calls in
  let e := finished_event aborted now utc s in
  let d := millis (elapsed now start) in
  0 ≤ d ∧ pv_duration_ms e = Some d ∧ pv_completed_at_utc e = Some utc ∧ is_Some (pv_outcome e)
  ∧ within 0 d (pv_first_byte_ms e) ∧ within 0 d (pv_first_content_ms e)
  ∧ within 0 d (pv_model_completed_ms e) ∧ within 0 d (pv_max_content_gap_ms e)
  ∧ (∀ m, pv_first_text_ms e = Some m → m ≤ d ∧ ∃ c, pv_first_content_ms e = Some c ∧ c ≤ m)
  ∧ ∀ v, pv_output_tokens_per_second e = Some v →
      pv_outcome e = Some PO_Success ∧ pv_is_stream e = true ∧ pv_observation_quality e = "observed"
      ∧ 1 < rq_content_batches s
      ∧ ∃ tokens first stop, pv_output_tokens e = Some tokens ∧ pv_first_content_ms e = Some first
        ∧ pv_model_completed_ms e = Some stop ∧ first < stop
        ∧ v = f_div (f_mul (f_of_Z tokens) (f_of_Z 1000)) (f_of_Z (stop - first)).
Proof.
  intros Hs. set (s0 := request_new _ _ _ _).
  assert (timeline 0 s0) as H0 by by repeat split.
  pose proof (since_bounds s0) as Hb.
  destruct (observe_calls_timeline calls s0 0 now) as [Htl Hst]; [done|done| |by apply Hb|done|].
  { apply Forall_forall. intros c _. by apply Hb. }
  cbn zeta. set (s := foldl _ s0 calls) in *.
  assert (since s now = millis (elapsed now start)) as <- by (unfold since; by rewrite Hst).
  assert (since s0 now = since s now) as Heq by (unfold since; by rewrite Hst). rewrite Heq in Htl.
  pose proof (finished_times aborted now utc s Htl) as Hft. cbn zeta in Hft.
  split; [apply since_bounds|]. destruct Hft as (? & ? & ? & ? & ? & ? & ? & ?). split_and!; try done.
  intros v. apply finished_speed. apply Htl.
Qed.

(** ** Retention *)

Section retention.
Context `{PerfText}.

Definition old_rows (min_day : Z) (s : PerformanceStore) : list PerfRow :=
  filter (λ r, pw_sg_day r < min_day) (pt_rows s).

Lemma length_filter_split {A} (P : A → Prop) `{∀ x, Decision (P x)} (l : list A) :
  (length (filter P l) + length (filter (λ x, ¬ P x) l))%nat = length l.
Proof.
  induction l as [|x l IH]; [done|]. rewrite !filter_cons.
  destruct (decide (P x)), (decide (¬ P x)); try tauto; simpl; lia.
Qed.

(** One deletion: the number of deleted rows is that of the ids, each of which is old. *)
Lemma delete_rows_spec min_day rows :
  NoDup (pw_request_id <$> rows) →
  let rest := filter (λ r, pw_request_id r ∉ expired_ids min_day rows) rows in
  let old := filter (λ r, pw_sg_day r < min_day) rows in
  Z.of_nat (length rows) - Z.of_nat (length rest) = Z.min 1000 (Z.of_nat (length old))
  ∧ filter (λ r, ¬ pw_sg_day r < min_day) rest = filter (λ r, ¬ pw_sg_day r < min_day) rows
  ∧ Z.of_nat (length (filter (λ r, pw_sg_day r < min_day) rest))
    = Z.of_nat (length old) - Z.min 1000 (Z.of_nat (length old)).
Proof.
  intros Hnd rest old. set (ids := expired_ids min_day rows) in *.
  set (le := λ a b : PerfRow, pw_sg_day a <=? pw_sg_day b).
  assert (sort_by le old ≡ₚ old) as Hperm by apply sort_by_perm.
  assert (∀ r, r ∈ rows → pw_request_id r ∈ ids → r ∈ take 1000 (sort_by le old)) as Hin.
  { intros r Hr (r' & Hid & Hr')%list_elem_of_fmap. enough (r = r') as -> by done.
    assert (r' ∈ rows) as Hr2.
    { assert (r' ∈ old) as [_ ?]%list_elem_of_filter; [|done]. rewrite <- Hperm.
      rewrite <- (take_drop 1000 (sort_by le old)). apply elem_of_app. by left. }
    apply list_elem_of_lookup in Hr as [i Hi], Hr2 as [j Hj].
    assert (i = j) as <-; [|by simplify_eq]. eapply (NoDup_lookup _ i j _ Hnd); rewrite list_lookup_fmap.
    - by rewrite Hi.
    - rewrite Hj. simpl. by rewrite Hid. }
  assert (filter (λ r, pw_request_id r ∈ ids) rows ≡ₚ take 1000 (sort_by le old)) as Hdel.
  { apply NoDup_Permutation.
    - apply NoDup_filter. by eapply NoDup_fmap_1.
    - eapply (NoDup_app _ (drop 1000 (sort_by le old))). rewrite take_drop, Hperm. apply NoDup_filter.
      by eapply NoDup_fmap_1.
    - intros r. rewrite list_elem_of_filter. split; [intros [? ?]; by apply Hin|]. intros Hr.
      split; [by apply list_elem_of_fmap_2|].
      assert (r ∈ old) as [_ ?]%list_elem_of_filter; [|done]. rewrite <- Hperm.
      rewrite <- (take_drop 1000 (sort_by le old)). apply elem_of_app. by left. }
  assert (∀ r, r ∈ rows → pw_request_id r ∈ ids → pw_sg_day r < min_day) as Hold.
  { intros r Hr Hid. assert (r ∈ filter (λ r, pw_request_id r ∈ ids) rows) as Hr' by by apply list_elem_of_filter.
    rewrite Hdel in Hr'. assert (r ∈ old) as [? _]%list_elem_of_filter; [|done].
    rewrite <- Hperm. eapply subseteq_take; exact Hr'. }
  pose proof (length_filter_split (λ r, pw_request_id r ∈ ids) rows) as Hsplit.
  pose proof (length_filter_split (λ r, pw_request_id r ∈ ids) old) as Hsplit'.
  assert (filter (λ r, pw_request_id r ∈ ids) old = filter (λ r, pw_request_id r ∈ ids) rows) as Ho.
  { unfold old. rewrite list_filter_filter. apply filter_ext_in. naive_solver. }
  rewrite Ho in Hsplit'. rewrite Hdel, length_take, Hperm in Hsplit, Hsplit'.
  assert (filter (λ r, pw_request_id r ∉ ids) rows = rest) as Hrest by by apply filter_ext_in.
  rewrite Hrest in Hsplit. split_and!.
  - lia.
  - unfold rest. rewrite list_filter_filter. apply filter_ext_in. naive_solver.
  - assert (filter (λ r, pw_sg_day r < min_day) rest = filter (λ x, pw_request_id x ∉ ids) old) as ->; [|lia].
    unfold rest, old. rewrite !list_filter_filter. apply filter_ext_in. naive_solver.
Qed.

Lemma nil_length_filter {A} (P : A → Prop) `{∀ x, Decision (P x)} (l : list A) :
  length (filter P l) = 0%nat → filter (λ x, ¬ P x) l = l.
Proof.
  intros Hz%nil_length_inv. induction l as [|x l IH]; [done|]. rewrite filter_cons in Hz.
  destruct (decide (P x)) eqn:Hp; [done|]. rewrite filter_cons_True by done. by rewrite IH.
Qed.

Definition kept_rows (min_day : Z) (s : PerformanceStore) : list PerfRow :=
  filter (λ r, ¬ pw_sg_day r < min_day) (pt_rows s).

Lemma cleanup_turn min_day s :
  NoDup (pw_request_id <$> pt_rows s) →
  ∃ r s', perf_delete_before min_day s = (r, s')
    ∧ NoDup (pw_request_id <$> pt_rows s') ∧ kept_rows min_day s' = kept_rows min_day s
    ∧ (r = Ok 1000 → (length (old_rows min_day s') < length (old_rows min_day s))%nat)
    ∧ (Forall (λ f, f = None) (pt_faults s) →
        Forall (λ f, f = None) (pt_faults s')
        ∧ (r = Ok 1000 ∨ pt_rows s' = kept_rows min_day s ∧ ∃ m, r = Ok m)).
Proof.
  intros Hnd. destruct (delete_rows_spec min_day (pt_rows s) Hnd) as (Hcount & Hkept & Hrest).
  unfold perf_delete_before, statement, old_rows, kept_rows in *. destruct s as [rows faults]. simpl in *.
  set (rest := filter _ rows) in *. set (d := Z.of_nat (length rows) - Z.of_nat (length rest)) in *.
  assert (NoDup (pw_request_id <$> rest)) as Hnd'.
  { eapply sublist_NoDup; [exact Hnd|]. by apply fmap_sublist, sublist_filter. }
  assert (∀ fs, ∃ r s', (Ok d, mkPerfStore rest fs) = (r, s')
    ∧ NoDup (pw_request_id <$> pt_rows s')
    ∧ filter (λ r, ¬ pw_sg_day r < min_day) (pt_rows s') = filter (λ r, ¬ pw_sg_day r < min_day) rows
    ∧ (r = @Ok AppError _ 1000 → (length (filter (λ r, (pw_sg_day r < min_day)%Z) (pt_rows s'))
         < length (filter (λ r, (pw_sg_day r < min_day)%Z) rows))%nat)
    ∧ (r = Ok 1000 ∨ pt_rows s' = filter (λ r, ¬ pw_sg_day r < min_day) rows ∧ ∃ m, r = Ok m)) as Hok.
  { intros fs. eexists _, _. split; [done|]. simpl. split_and!; [done|done|intros [= Hd]; lia|].
    destruct (decide (d = 1000)) as [->|Hne]; [by left|right]. split; [|by eexists].
    rewrite <- Hkept, nil_length_filter; [done|lia]. }
  destruct faults as [|[m|] fs].
  - destruct (Hok []) as (r & s' & Heq & ? & ? & ? & ?). exists r, s'. injection Heq as <- <-. by split_and!.
  - eexists _, _. split; [done|]. simpl. split_and!; try done. by intros [[=] _]%Forall_cons.
  - destruct (Hok fs) as (r & s' & Heq & ? & ? & ? & ?). exists r, s'. injection Heq as <- <-.
    split_and!; [done..|]. by intros [_ ?]%Forall_cons.
Qed.

Lemma cleanup_loop_spec n min_day s :
  (length (old_rows min_day s) ≤ n)%nat → NoDup (pw_request_id <$> pt_rows s) →
  ∃ s', cleanup_loop (S n) min_day s = Some s'
    ∧ kept_rows min_day s' = kept_rows min_day s
    ∧ (Forall (λ f, f = None) (pt_faults s) → pt_rows s' = kept_rows min_day s).
Proof.
  revert s. induction n as [n IH] using lt_wf_ind. intros s Hle Hnd.
  destruct (cleanup_turn min_day s Hnd) as (r & s1 & Hdel & Hnd1 & Hkept & Hless & Hf).
  cbn [cleanup_loop]. rewrite Hdel.
  destruct r as [m|e]; [destruct (decide (m = 1000)) as [->|Hne]|].
  - specialize (Hless eq_refl). destruct n as [|n]; [lia|].
    destruct (IH n ltac:(lia) s1 ltac:(lia) Hnd1) as (s2 & Hs2 & Hk2 & Hf2).
    exists s2. rewrite <- Hkept. split_and!; [exact Hs2|done|]. intros Hall. apply Hf2. by apply Hf.
  - exists s1. split_and!; [by repeat case_match|done|].
    intros Hall. destruct (Hf Hall) as [_ [[= ?]|[? _]]]; done.
  - exists s1. split_and!; [done..|]. intros Hall. by destruct (Hf Hall) as [_ [?|[? _]]].
Qed.

(** The retention pass ends, within as many deletions as there are old rows and one more,
    and without a failure it has deleted all rows older than the given day and kept all
    others, in their order. *)
Theorem cleanup_deletes_old min_day s :
  NoDup (pw_request_id <$> pt_rows s) →
  ∃ s', cleanup_loop (S (length (old_rows min_day s))) min_day s = Some s'
    ∧ kept_rows min_day s' = kept_rows min_day s
    ∧ (Forall (λ f, f = None) (pt_faults s) → pt_rows s' = kept_rows min_day s).
Proof. intros Hnd. by apply cleanup_loop_spec. Qed.
End retention.

(** ** Queries *)

Lemma retention_day_spec now :
  0 ≤ timestamp_millis now ≤ 10 ^ 15 →
  retention_day now = (timestamp_millis now + 28800000) / 86400000 - 29.
Proof.
  intros Hn. unfold retention_day, sg_day.
  assert (0 ≤ (timestamp_millis now + 28800000) / 86400000 < 2 ^ 30).
  { split; [apply Z.div_pos; lia|apply Z.div_lt_upper_bound; lia]. }
  rewrite !wrap_id; simpl; rewrite ?wrap_id; simpl; lia.
Qed.

(** A query that is accepted is for a range of time that is not empty, begins within the
    last thirty calendar days of Singapore, ends at most a second after the present, and so
    spans at most thirty days and a second; its page has between 1 and 100 rows, its identifiers are
    positive, and a report on it has at most 288 buckets. *)
Theorem performance_query_bounds now day_now q f :
  timestamp_millis now ≤ timestamp_millis day_now → 0 ≤ timestamp_millis day_now ≤ 10 ^ 15 →
  validate_performance now day_now q = Ok f →
  ff_start_ms f < ff_end_ms f ≤ timestamp_millis now + 1000
  ∧ (timestamp_millis day_now + 28800000) / 86400000 - 29 ≤ (ff_start_ms f + 28800000) / 86400000
  ∧ ff_end_ms f - ff_start_ms f ≤ 30 * 86400000 + 1000
  ∧ 1 ≤ ff_page f ≤ 1000000 ∧ 1 ≤ ff_page_size f ≤ 100
  ∧ (∀ i, ff_account_id f = Some i → 0 < i) ∧ (∀ i, ff_api_token_id f = Some i → 0 < i)
  ∧ ff_model f ≠ Some "" ∧ ff_instance_id f ≠ Some ""
  ∧ bucket_count f (bucket_size f) ≤ 288.
Proof.
  intros Hnow Hday. unfold validate_performance, bad_range. rewrite retention_day_spec by done.
  set (stop := default _ (timestamp_millis <$> qq_end_at q)).
  set (start := default _ (timestamp_millis <$> qq_start_at q)).
  destruct (_ || _ || _) eqn:Hr; [done|]. destruct (bad_filter q) eqn:Hb; [done|].
  destruct (parse_sort _) as [desc|]; [|done]. intros [= <-]. cbn [mbind result_bind].
  apply orb_false_iff in Hr as [[Hr1 Hr2]%orb_false_iff Hr3].
  set (day := (timestamp_millis day_now + 28800000) / 86400000) in *.
  pose proof (Z.div_mod (timestamp_millis day_now + 28800000) 86400000 ltac:(lia)) as Hdiv. fold day in Hdiv.
  pose proof (Z.mod_pos_bound (timestamp_millis day_now + 28800000) 86400000 ltac:(lia)) as Hmod.
  unfold bad_filter in Hb. repeat (apply orb_false_iff in Hb as [Hb ?]).
  match goal with |- context [bucket_size ?f] => pose proof (bucket_size_spec f) as Hbs end. simpl in *.
  split_and!.
  1,2,4: lia.
  1: apply Z.div_le_lower_bound; lia.
  1-2: destruct (qq_page q); simpl in *; lia.
  1-2: destruct (qq_page_size q); simpl in *; lia.
  1: destruct (qq_account_id q); simpl in *; [intros ? [= <-]; lia|done].
  1: destruct (qq_api_token_id q); simpl in *; [intros ? [= <-]; lia|done].
  1: by destruct (qq_model q) as [[]|].
  1: by destruct (qq_instance_id q) as [[]|].
  apply Hbs. lia.
Qed.
