(* ===== verification/AccountStore.v ===== *)
(** * AccountStore: the account table and its cache (src/src/store/account_store.rs)

    The table is a finite map from ids to rows; each SQL statement is the
    function on rows that its text denotes. A statement may fail: the outcomes
    of the next statements are a list in the state, where [Some m] is a failure
    with that text and the end of the list means success. Times are stored to the second. *)

From S2P Require Import Prelude Text F64 Json Http Model Identity Limit.

Definition SCHEDULABLE_TTL : Duration := from_secs 30.

(** ** The store *)

Record AccountStore := mkAccountStore {
  as_rows : gmap Z Account;
  as_next_id : Z;
  as_faults : list (option string);
  as_cache : option (Instant * list Account);
}.

Definition account_store_new (rows : gmap Z Account) (next_id : Z) : AccountStore :=
  mkAccountStore rows next_id [] None.

Definition invalidate_schedulable_cache (s : AccountStore) : AccountStore := s <| as_cache := None |>.

(** The outcome of the next statement; [From<sqlx::Error>] for anything but a
    missing row. *)
Definition next_fault (s : AccountStore) : option AppError * AccountStore :=
  match as_faults s with
  | [] => (None, s)
  | f :: fs => (Internal <$> f, s <| as_faults := fs |>)
  end.

(** A statement, with its effect on the rows. *)
Definition exec (effect : gmap Z Account → gmap Z Account) (s : AccountStore)
    : result AppError unit * AccountStore :=
  let '(f, s) := next_fault s in
  match f with
  | Some e => (Err e, s)
  | None => (Ok tt, s <| as_rows := effect (as_rows s) |>)
  end.

(** A statement that succeeds also empties the cache. *)
Definition exec_invalidating (effect : gmap Z Account → gmap Z Account) (s : AccountStore)
    : result AppError unit * AccountStore :=
  let '(r, s) := exec effect s in
  (r, match r with Ok _ => invalidate_schedulable_cache s | Err _ => s end).

(** [UPDATE accounts SET ... WHERE id = ...]. *)
Definition update_row (id : Z) (f : Account → Account) (rows : gmap Z Account) : gmap Z Account :=
  alter f id rows.

(** [fmt_time]: the seconds. *)
Definition fmt_time (t : DateTime) : DateTime := t / 1000000000 * 1000000000.

(** [row_to_account]: the row, with its environment normalized. *)
Definition row_to_account (a : Account) : Account :=
  a <| acc_canonical_env := normalize_canonical_env_json (acc_canonical_env a) |>.

(** *** Reads *)

(** [SCHEDULABLE_TTL] after it was filled, the cache is stale. *)
Definition cached_accounts (now : Instant) (s : AccountStore) : option (list Account) :=
  match as_cache s with
  | Some (at', v) => if elapsed now at' <? SCHEDULABLE_TTL then Some v else None
  | None => None
  end.

Definition get_schedulable_cached (id : Z) (now : Instant) (s : AccountStore) : option Account :=
  v ← cached_accounts now s;
  snd <$> list_find (λ a, acc_id a = id) v.

Definition get_by_id (id : Z) (s : AccountStore) : result AppError Account * AccountStore :=
  let '(f, s) := next_fault s in
  (match f with
   | Some e => Err e
   | None => row_to_account <$> ok_or (as_rows s !! id) NotFound
   end, s).

(** [ORDER BY priority ASC, id ASC]. *)
Definition row_before (a b : Account) : bool :=
  (acc_priority a <? acc_priority b)
  || ((acc_priority a =? acc_priority b) && (acc_id a <=? acc_id b)).

Fixpoint insert_row (a : Account) (l : list Account) : list Account :=
  match l with
  | [] => [a]
  | b :: r => if row_before a b then a :: l else b :: insert_row a r
  end.

Definition ordered_rows (rows : gmap Z Account) : list Account :=
  foldr insert_row [] (snd <$> map_to_list rows).

Definition list_all (s : AccountStore) : result AppError (list Account) * AccountStore :=
  let '(f, s) := next_fault s in
  (match f with
   | Some e => Err e
   | None => Ok (row_to_account <$> ordered_rows (as_rows s))
   end, s).

(** A failed count is 0. *)
Definition count (s : AccountStore) : result AppError Z * AccountStore :=
  let '(f, s) := next_fault s in
  (Ok match f with Some _ => 0 | None => Z.of_nat (size (as_rows s)) end, s).

(** [(page - 1) * page_size] wraps in a release build; SQLite reads a negative
    offset as 0 and a negative limit as none. *)
Definition list_paged (page page_size : Z) (s : AccountStore)
    : result AppError (list Account) * AccountStore :=
  let offset := wrap i64 (wrap i64 (page - 1) * page_size) in
  let '(f, s) := next_fault s in
  (match f with
   | Some e => Err e
   | None =>
       let rows := drop (Z.to_nat offset) (row_to_account <$> ordered_rows (as_rows s)) in
       Ok (if page_size <? 0 then rows else take (Z.to_nat page_size) rows)
   end, s).

(** The rows with [status = 'active']: the query, and the new cache entry that
    is written, with its own clock reading, after the query. *)
Definition schedulable_query (s : AccountStore) : result AppError (list Account) * AccountStore :=
  let '(f, s) := next_fault s in
  (match f with
   | Some e => Err e
   | None =>
       Ok (row_to_account <$> filter (λ a, acc_status a = AS_Active) (ordered_rows (as_rows s)))
   end, s).

Definition fill_schedulable (filled : Instant) (v : list Account) (s : AccountStore)
    : AccountStore := s <| as_cache := Some (filled, v) |>.

(** From the cache while it is fresh. *)
Definition list_schedulable (now filled : Instant) (s : AccountStore)
    : result AppError (list Account) * AccountStore :=
  match cached_accounts now s with
  | Some v => (Ok v, s)
  | None =>
      let '(r, s) := schedulable_query s in
      (r, match r with Ok v => fill_schedulable filled v s | Err _ => s end)
  end.

(** *** Writes *)

Definition create (a : Account) (now : DateTime) (s : AccountStore)
    : result AppError Account * AccountStore :=
  let a := row_to_account a in
  let '(f, s) := next_fault s in
  let taken := match f with
               | Some _ => false
               | None => existsb (λ b, String.eqb (acc_email b) (acc_email a))
                           (snd <$> map_to_list (as_rows s))
               end in
  if taken then (Err (BadRequest ("email " +:+ acc_email a +:+ " already exists")), s)
  else
    let '(f, s) := next_fault s in
    match f with
    | Some e => (Err e, s)
    | None =>
        let stored := a <| acc_id := as_next_id s |>
                        <| acc_expires_at := fmt_time <$> acc_expires_at a |>
                        <| acc_oauth_refreshed_at := fmt_time <$> acc_oauth_refreshed_at a |>
                        <| acc_created_at := fmt_time now |>
                        <| acc_updated_at := fmt_time now |>
                        <| acc_rate_limited_at := None |>
                        <| acc_rate_limit_reset_at := None |>
                        <| acc_disable_reason := "" |>
                        <| acc_telemetry_count := 0 |>
                        <| acc_usage_data := VObject ∅ |>
                        <| acc_usage_fetched_at := None |> in
        (Ok (a <| acc_id := as_next_id s |> <| acc_created_at := fmt_time now |>
               <| acc_updated_at := fmt_time now |>),
         invalidate_schedulable_cache
           (s <| as_rows := <[as_next_id s := stored]> (as_rows s) |>
              <| as_next_id := as_next_id s + 1 |>))
    end.

(** The columns that [UPDATE] writes; the others keep their value. *)
Definition update (a : Account) (now : DateTime) (s : AccountStore)
    : result AppError unit * AccountStore :=
  exec_invalidating (update_row (acc_id a) (λ row,
    row <| acc_name := acc_name a |> <| acc_email := acc_email a |>
        <| acc_status := acc_status a |> <| acc_setup_token := acc_setup_token a |>
        <| acc_auth_type := acc_auth_type a |> <| acc_access_token := acc_access_token a |>
        <| acc_refresh_token := acc_refresh_token a |>
        <| acc_expires_at := fmt_time <$> acc_expires_at a |>
        <| acc_oauth_refreshed_at := fmt_time <$> acc_oauth_refreshed_at a |>
        <| acc_auth_error := acc_auth_error a |> <| acc_proxy_url := acc_proxy_url a |>
        <| acc_billing_mode := acc_billing_mode a |> <| acc_account_uuid := acc_account_uuid a |>
        <| acc_organization_uuid := acc_organization_uuid a |>
        <| acc_subscription_type := acc_subscription_type a |>
        <| acc_concurrency := acc_concurrency a |> <| acc_priority := acc_priority a |>
        <| acc_auto_telemetry := acc_auto_telemetry a |>
        <| acc_canonical_prompt := acc_canonical_prompt a |>
        <| acc_canonical_env := normalize_canonical_env_json (acc_canonical_env a) |>
        <| acc_updated_at := fmt_time now |>)) s.

Definition update_oauth_tokens (id : Z) (access_token refresh_token : string)
    (expires_at now : DateTime) (s : AccountStore) : result AppError unit * AccountStore :=
  exec_invalidating (update_row id (λ row,
    row <| acc_access_token := access_token |> <| acc_refresh_token := refresh_token |>
        <| acc_expires_at := Some (fmt_time expires_at) |>
        <| acc_oauth_refreshed_at := Some (fmt_time now) |>
        <| acc_auth_error := "" |> <| acc_updated_at := fmt_time now |>)) s.

Definition update_auth_error (id : Z) (auth_error : string) (now : DateTime) (s : AccountStore)
    : result AppError unit * AccountStore :=
  exec (update_row id (λ row,
    row <| acc_auth_error := auth_error |> <| acc_updated_at := fmt_time now |>)) s.

Definition update_status (id : Z) (status : AccountStatus) (now : DateTime) (s : AccountStore)
    : result AppError unit * AccountStore :=
  exec_invalidating (update_row id (λ row,
    row <| acc_status := status |> <| acc_updated_at := fmt_time now |>)) s.

Definition store_set_rate_limit (id : Z) (reset_at now : DateTime) (s : AccountStore)
    : result AppError unit * AccountStore :=
  exec (update_row id (λ row,
    row <| acc_rate_limited_at := Some (fmt_time now) |>
        <| acc_rate_limit_reset_at := Some (fmt_time reset_at) |>
        <| acc_updated_at := fmt_time now |>)) s.

Definition disable_account (id : Z) (status : AccountStatus) (reason : string)
    (rate_limit_reset_at : option DateTime) (now : DateTime) (s : AccountStore)
    : result AppError unit * AccountStore :=
  exec_invalidating (update_row id (λ row,
    row <| acc_status := status |> <| acc_disable_reason := reason |>
        <| acc_rate_limited_at := (λ _, fmt_time now) <$> rate_limit_reset_at |>
        <| acc_rate_limit_reset_at := fmt_time <$> rate_limit_reset_at |>
        <| acc_updated_at := fmt_time now |>)) s.

Definition enable_account (id : Z) (now : DateTime) (s : AccountStore)
    : result AppError unit * AccountStore :=
  exec_invalidating (update_row id (λ row,
    row <| acc_status := AS_Active |> <| acc_disable_reason := "" |>
        <| acc_rate_limited_at := None |> <| acc_rate_limit_reset_at := None |>
        <| acc_updated_at := fmt_time now |>)) s.

Definition store_clear_rate_limit (id : Z) (now : DateTime) (s : AccountStore)
    : result AppError unit * AccountStore :=
  exec (update_row id (λ row,
    row <| acc_rate_limited_at := None |> <| acc_rate_limit_reset_at := None |>
        <| acc_updated_at := fmt_time now |>)) s.

Definition clear_stale_rate_limit_fields (now : DateTime) (s : AccountStore)
    : result AppError Z * AccountStore :=
  let stale a := bool_decide (acc_status a = AS_Active) && opt_is_some (acc_rate_limited_at a) in
  let '(f, s) := next_fault s in
  match f with
  | Some e => (Err e, s)
  | None =>
      (Ok (Z.of_nat (length (filter (λ e, stale e.2 = true) (map_to_list (as_rows s))))),
       s <| as_rows := (λ row,
              if stale row
              then row <| acc_rate_limited_at := None |> <| acc_rate_limit_reset_at := None |>
                       <| acc_disable_reason := "" |> <| acc_updated_at := fmt_time now |>
              else row) <$> as_rows s |>)
  end.

Definition store_delete (id : Z) (s : AccountStore) : result AppError unit * AccountStore :=
  exec_invalidating (delete id) s.

(** The value that is stored and read back; text that is not JSON reads as an
    empty object. *)
Definition store_update_usage `{JsonText} (id : Z) (usage_data : string) (now : DateTime)
    (s : AccountStore) : result AppError unit * AccountStore :=
  exec (update_row id (λ row,
    row <| acc_usage_data := default (VObject ∅) (res_ok (json_from_str usage_data)) |>
        <| acc_usage_fetched_at := Some (fmt_time now) |>
        <| acc_updated_at := fmt_time now |>)) s.

(** SQLite and Postgres integers overflow into a float or an error; within
    range it is the sum. *)
Definition increment_telemetry_count (id delta : Z) (now : DateTime) (s : AccountStore)
    : result AppError unit * AccountStore :=
  exec (update_row id (λ row,
    row <| acc_telemetry_count := acc_telemetry_count row + delta |>
        <| acc_updated_at := fmt_time now |>)) s.

(** What the limit store needs of the table. *)
Definition account_limits `{JsonText} (now : DateTime) : AccountLimits AccountStore := {|
  Limit.update_usage id json := store_update_usage id json now;
  set_rate_limit id until := store_set_rate_limit id until now;
  clear_rate_limit id := store_clear_rate_limit id now;
|}.
