(* ===== verification/Account.v ===== *)
(** * Account: choosing an account and its credentials (src/src/service/account.rs)

    The service joins the account table, the sticky-session cache, the limit
    store and the cooldown of usage queries. The cache is any [CacheStore].
    Clock readings, random choices and what upstream answers are arguments. *)

From S2P Require Import Prelude Text F64 Json Http Model Cache Limit AccountStore.

Definition STICKY_SESSION_TTL : Duration := from_secs (24 * 60 * 60).
Definition OAUTH_REFRESH_BUFFER_SECONDS : Z := 5 * 60.
Definition OAUTH_LOCK_TTL : Duration := from_secs 30.
Definition OAUTH_WAIT_ATTEMPTS : nat := 20.
Definition USAGE_FRESH_TTL : Duration := from_secs 60.
Definition USAGE_429_COOLDOWN : Duration := from_secs 60.

Inductive ClientType := CT_ClaudeCode | CT_API.

#[export] Instance ClientType_eq_dec : EqDecision ClientType.
Proof. solve_decision. Defined.

(** The state that the service reaches. *)
Record AccountService (C : Type) := mkAccountService {
  sa_store : AccountStore;
  sa_cache : C;
  sa_limits : LimitStore;
  sa_usage_cooldown : gmap Z Instant;
}.
Arguments mkAccountService {_}.
Arguments sa_store {_}.
Arguments sa_cache {_}.
Arguments sa_limits {_}.
Arguments sa_usage_cooldown {_}.

(** ** Choice *)

(** The least priority number. *)
Fixpoint min_priority (best : Z) (accounts : list Account) : Z :=
  match accounts with [] => best | a :: r => min_priority (Z.min best (acc_priority a)) r end.

(** [draw]: the random index into the accounts of the best priority. An empty
    list has no first element to return. *)
Definition select_by_priority (accounts : list Account) (draw : nat → nat) : outcome Account :=
  match accounts with
  | [] => Panic
  | [a] => Done a
  | a :: r =>
      let best_priority := min_priority (acc_priority a) r in
      let best := filter (λ a, acc_priority a = best_priority) accounts in
      match best !! draw (length best) with Some a => Done a | None => Panic end
  end.

Definition id_permitted (exclude_ids allowed_ids : list Z) (id : Z) : bool :=
  negb (bool_decide (id ∈ exclude_ids))
  && (bool_decide (allowed_ids = []) || bool_decide (id ∈ allowed_ids)).

(** The clock readings of one selection. *)
Record SelectClock := mkSelectClock {
  sk_session : Instant;
  sk_cached : Instant;
  sk_sticky : nat → DateTime;
  sk_list : Instant;
  sk_filled : Instant;
  sk_limits : Z → nat → DateTime;
  sk_bind : Instant;
}.

Record RefreshedOAuthTokens := mkRefreshed {
  ro_access_token : string;
  ro_refresh_token : string;
  ro_expires_at : DateTime;
}.

(** What the token endpoint answers to a refresh token and a proxy. *)
Abbreviation TokenEndpoint := (string → string → result AppError RefreshedOAuthTokens).

Section account.
Context {C : Type} `{CacheStore C} `{Chrono} `{UnicodeCase} `{JsonText} `{Digest}.
Abbreviation Service := (AccountService C).

(** The account a session is bound to, from the cached list or the table. *)
Definition sticky_lookup (s : Service) (account_id : Z) (c : SelectClock)
    : option Account * Service :=
  match get_schedulable_cached account_id (sk_cached c) (sa_store s) with
  | Some a => (Some a, s)
  | None =>
      let '(r, store) := get_by_id account_id (sa_store s) in
      (res_ok r, s <| sa_store := store |>)
  end.

(** Whether the bound account may serve the request. *)
Definition sticky_usable (s : Service) (account : Account) (account_id : Z)
    (exclude_ids allowed_ids : list Z) (model_class : ModelClass) (c : SelectClock)
    : outcome bool :=
  a ← availability (sa_limits s) account_id model_class (sk_sticky c);
  Done (is_schedulable account && id_permitted exclude_ids allowed_ids account_id
        && is_available a).

(** The first part of [select_account]: [Some] is an early return; an unusable
    binding is deleted. *)
Definition select_sticky (s : Service) (session_hash : string) (exclude_ids allowed_ids : list Z)
    (model_class : ModelClass) (c : SelectClock) : outcome (option Account * Service) :=
  if is_empty session_hash then Done (None, s)
  else
    let '(bound, cache) := get_session_account_id session_hash (sk_session c) (sa_cache s) in
    let s := s <| sa_cache := cache |> in
    match bound with
    | Ok (Some account_id) =>
        if 0 <? account_id then
          let '(account_opt, s) := sticky_lookup s account_id c in
          let unbind (s : Service) : outcome (option Account * Service) :=
            Done (None, s <| sa_cache := (delete_session session_hash (sa_cache s)).2 |>) in
          match account_opt with
          | Some account =>
              usable ← sticky_usable s account account_id exclude_ids allowed_ids model_class c;
              match usable with true => Done (Some account, s) | false => unbind s end
          | None => unbind s
          end
        else Done (None, s)
    | _ => Done (None, s)
    end.

(** The candidates of the schedulable list, in order. The limit state is only
    consulted for a permitted account. *)
Fixpoint select_candidates (limits : LimitStore) (exclude_ids allowed_ids : list Z)
    (model_class : ModelClass) (clk : Z → nat → DateTime) (accounts : list Account)
    : outcome (list Account) :=
  match accounts with
  | [] => Done []
  | a :: r =>
      if id_permitted exclude_ids allowed_ids (acc_id a) then
        av ← availability limits (acc_id a) model_class (clk (acc_id a));
        rest ← select_candidates limits exclude_ids allowed_ids model_class clk r;
        Done (if is_available av then a :: rest else rest)
      else select_candidates limits exclude_ids allowed_ids model_class clk r
  end.

Definition select_account (s : Service) (session_hash : string) (exclude_ids allowed_ids : list Z)
    (model_class : ModelClass) (draw : nat → nat) (c : SelectClock)
    : outcome (result AppError Account * Service) :=
  '(sticky, s) ← select_sticky s session_hash exclude_ids allowed_ids model_class c;
  match sticky with
  | Some account => Done (Ok account, s)
  | None =>
      let '(accounts, store) := list_schedulable (sk_list c) (sk_filled c) (sa_store s) in
      let s := s <| sa_store := store |> in
      match accounts with
      | Err e => Done (Err e, s)
      | Ok accounts =>
          candidates ←
            select_candidates (sa_limits s) exclude_ids allowed_ids model_class (sk_limits c)
              accounts;
          match candidates with
          | [] => Done (Err (ServiceUnavailable "no available accounts"), s)
          | _ :: _ =>
              selected ← select_by_priority candidates draw;
              let s :=
                if is_empty session_hash then s
                else s <| sa_cache :=
                       (set_session_account_id session_hash (acc_id selected) STICKY_SESSION_TTL
                          (sk_bind c) (sa_cache s)).2 |> in
              Done (Ok selected, s)
          end
      end
  end.

(** ** Slots *)

Definition slot_key (account_id : Z) : string :=
  "concurrency:account:" +:+ int_to_string account_id.

Definition account_acquire_slot (s : Service) (account_id max : Z) : result AppError bool * Service :=
  let '(r, cache) := acquire_slot (slot_key account_id) max (from_secs 300) (sa_cache s) in
  (r, s <| sa_cache := cache |>).

Definition account_release_slot (s : Service) (account_id : Z) : Service :=
  s <| sa_cache := release_slot (slot_key account_id) (sa_cache s) |>.

(** ** Credentials *)

Definition normalize_account_auth (a : Account) : result AppError Account :=
  match acc_auth_type a with
  | AT_SetupToken =>
      if is_empty (trim (acc_setup_token a)) then Err (BadRequest "setup_token is required")
      else Ok (a <| acc_access_token := "" |> <| acc_refresh_token := "" |>
                 <| acc_expires_at := None |> <| acc_oauth_refreshed_at := None |>
                 <| acc_auth_error := "" |>)
  | AT_Oauth =>
      if is_empty (trim (acc_refresh_token a)) then Err (BadRequest "refresh_token is required")
      else
        let a := a <| acc_setup_token := "" |> <| acc_auth_error := "" |> in
        Ok (if is_empty (trim (acc_access_token a))
            then a <| acc_access_token := "" |> <| acc_expires_at := None |> else a)
  end.

(** The identity that [generate_canonical_identity] drew, and the defaults. *)
Definition create_account (s : Service) (a : Account) (identity : string * Value * Value * Value)
    (now : DateTime) : result AppError Account * Service :=
  let '(device_id, env, prompt, process) := identity in
  let a := a <| acc_device_id := device_id |> <| acc_canonical_env := env |>
             <| acc_canonical_prompt := prompt |> <| acc_canonical_process := process |> in
  let a := if acc_concurrency a =? 0 then a <| acc_concurrency := 3 |> else a in
  let a := if acc_priority a =? 0 then a <| acc_priority := 50 |> else a in
  match normalize_account_auth a with
  | Err e => (Err e, s)
  | Ok a => let '(r, store) := create a now (sa_store s) in (r, s <| sa_store := store |>)
  end.

Definition update_account (s : Service) (a : Account) (now : DateTime)
    : result AppError unit * Service :=
  match normalize_account_auth a with
  | Err e => (Err e, s)
  | Ok a => let '(r, store) := update a now (sa_store s) in (r, s <| sa_store := store |>)
  end.

Definition refresh_oauth_access_token (endpoint : TokenEndpoint) (s : Service) (id : Z)
    (now later : DateTime) : result AppError string * Service :=
  let '(latest, store) := get_by_id id (sa_store s) in
  match latest with
  | Err e => (Err e, s <| sa_store := store |>)
  | Ok latest =>
      if has_valid_oauth_access_token now latest OAUTH_REFRESH_BUFFER_SECONDS
      then (Ok (acc_access_token latest), s <| sa_store := store |>)
      else if is_empty (acc_refresh_token latest) then
        let '(_, store) := update_auth_error id "missing refresh token" now store in
        (Err (ServiceUnavailable "oauth refresh token is empty"), s <| sa_store := store |>)
      else
        let fallback_is_still_valid := is_some_and (acc_expires_at latest) (λ e, later <? e) in
        match endpoint (acc_refresh_token latest) (acc_proxy_url latest) with
        | Ok tokens =>
            let '(r, store) :=
              update_oauth_tokens id (ro_access_token tokens) (ro_refresh_token tokens)
                (ro_expires_at tokens) now store in
            (match r with Ok _ => Ok (ro_access_token tokens) | Err e => Err e end,
             s <| sa_store := store |>)
        | Err err =>
            let msg := app_error_to_string err in
            let '(_, store) := update_auth_error id msg now store in
            (if fallback_is_still_valid && negb (is_empty (acc_access_token latest))
             then Ok (acc_access_token latest)
             else Err (ServiceUnavailable ("oauth refresh failed: " +:+ msg)),
             s <| sa_store := store |>)
        end
  end.

(** The polling loop: each round reads the table as it then is ([others] is
    what other tasks did to it in the meantime). *)
Fixpoint wait_for_token (attempts : nat) (others : nat → AccountStore → AccountStore) (s : Service)
    (id : Z) (now : nat → DateTime) : result AppError string * Service :=
  match attempts with
  | O => (Err (ServiceUnavailable "oauth token refresh timeout"), s)
  | S attempts =>
      let s := s <| sa_store := others attempts (sa_store s) |> in
      let '(latest, store) := get_by_id id (sa_store s) in
      let s := s <| sa_store := store |> in
      match latest with
      | Err e => (Err e, s)
      | Ok latest =>
          if has_valid_oauth_access_token (now attempts) latest OAUTH_REFRESH_BUFFER_SECONDS
          then (Ok (acc_access_token latest), s)
          else wait_for_token attempts others s id now
      end
  end.

Definition oauth_lock_key (id : Z) : string := "oauth:refresh:account:" +:+ int_to_string id.

(** The clocks, the fresh lock owner and the environment of one resolution. *)
Record ResolveEnv := mkResolveEnv {
  re_now : DateTime;
  re_later : DateTime;
  re_lock : Instant;
  re_owner : string;
  re_wait : nat → DateTime;
  re_others : nat → AccountStore → AccountStore;
}.

Definition resolve_oauth_access_token (endpoint : TokenEndpoint) (s : Service) (account : Account)
    (e : ResolveEnv) : result AppError string * Service :=
  if has_valid_oauth_access_token (re_now e) account OAUTH_REFRESH_BUFFER_SECONDS
  then (Ok (acc_access_token account), s)
  else if is_empty (acc_refresh_token account) then
    let '(_, store) :=
      update_auth_error (acc_id account) "missing refresh token" (re_now e) (sa_store s) in
    (Err (ServiceUnavailable "oauth refresh token is empty"), s <| sa_store := store |>)
  else
    let lock_key := oauth_lock_key (acc_id account) in
    let '(acquired, cache) :=
      acquire_lock lock_key (re_owner e) OAUTH_LOCK_TTL (re_lock e) (sa_cache s) in
    let s := s <| sa_cache := cache |> in
    match acquired with
    | Err err => (Err err, s)
    | Ok true =>
        let '(r, s) := refresh_oauth_access_token endpoint s (acc_id account) (re_now e) (re_later e) in
        (r, s <| sa_cache := release_lock lock_key (re_owner e) (sa_cache s) |>)
    | Ok false =>
        wait_for_token OAUTH_WAIT_ATTEMPTS (re_others e) s (acc_id account) (re_wait e)
    end.

Definition resolve_upstream_token_with (endpoint : TokenEndpoint) (s : Service) (account : Account)
    (e : ResolveEnv) : result AppError string * Service :=
  match acc_auth_type account with
  | AT_SetupToken =>
      if is_empty (acc_setup_token account)
      then (Err (ServiceUnavailable "setup token is empty"), s)
      else (Ok (acc_setup_token account), s)
  | AT_Oauth => resolve_oauth_access_token endpoint s account e
  end.

(** ** Usage queries *)

Definition usage_in_cooldown (s : Service) (id : Z) (now : Instant) : bool * Service :=
  match sa_usage_cooldown s !! id with
  | Some until =>
      if now <? until then (true, s)
      else (false, s <| sa_usage_cooldown := delete id (sa_usage_cooldown s) |>)
  | None => (false, s)
  end.

Definition mark_usage_cooldown (s : Service) (id : Z) (now : Instant) : Service :=
  s <| sa_usage_cooldown := <[id := now + USAGE_429_COOLDOWN]> (sa_usage_cooldown s) |>.

(** A successful query younger than [USAGE_FRESH_TTL]: a whole number of
    seconds that is not negative, and a non-negative age under the limit. *)
Definition usage_fresh (now : DateTime) (a : Account) : bool :=
  is_some_and (acc_usage_fetched_at a) (λ fetched_at,
    let age := now - fetched_at in (0 <=? age) && (age <? USAGE_FRESH_TTL)).

(** [fetch]: what the usage endpoint answers to a token; the trace is [true]
    when it was asked. *)
Definition refresh_usage (endpoint : TokenEndpoint) (fetch : string → string → result AppError Value)
    (s : Service) (id : Z) (utc : DateTime) (now : Instant) (e : ResolveEnv)
    : outcome (result AppError Value * bool * Service) :=
  let '(account, store) := get_by_id id (sa_store s) in
  let s := s <| sa_store := store |> in
  match account with
  | Err err => Done (Err err, false, s)
  | Ok account =>
      if bool_decide (acc_auth_type account ≠ AT_Oauth)
      then Done (Err (BadRequest "长效 Token 账号不支持查询用量（仅 OAuth 账号可用）"), false, s)
      else if usage_fresh utc account then Done (Ok (acc_usage_data account), false, s)
      else
        let '(cooling, s) := usage_in_cooldown s id now in
        if cooling
        then Done (Err (TooManyRequests "usage query in 60s local cooldown after recent 429"), false, s)
        else
          let '(token, s) := resolve_oauth_access_token endpoint s account e in
          match token with
          | Err err => Done (Err err, false, s)
          | Ok token =>
              match fetch token (acc_proxy_url account) with
              | Ok usage =>
                  let usage_str := default "{}" (res_ok (json_to_string usage)) in
                  let '(r, store) := store_update_usage id usage_str utc (sa_store s) in
                  let s := s <| sa_store := store |> in
                  match r with
                  | Err err => Done (Err err, true, s)
                  | Ok _ =>
                      let '(o, limits) := ingest_usage_json (sa_limits s) id usage now in
                      _ ← o;
                      Done (Ok usage, true, s <| sa_limits := limits |>)
                  end
              | Err err =>
                  Done (Err err, true,
                        match err with TooManyRequests _ => mark_usage_cooldown s id now | _ => s end)
              end
          end
  end.

(** ** Session hashes *)

(** [str::rfind] of a text: what follows its last occurrence. *)
Fixpoint after_last (needle s : string) : option string :=
  let here := strip_prefix needle s in
  match s with
  | EmptyString => here
  | String _ r => opt_or (after_last needle r) here
  end.

Definition metadata_session (body : Value) : option string :=
  user_id_str ← (vget body "metadata" ≫= as_object) ≫= (λ m, m !! "user_id" ≫= as_str);
  let sid :=
    opt_filter (λ sid, negb (is_empty sid))
      (res_ok (json_from_str user_id_str) ≫= λ uid, get_str uid "session_id") in
  opt_or sid (after_last "_session_" user_id_str).

(** The text of a string, or the first text of a list of blocks. *)
Fixpoint first_text (items : list Value) : string :=
  match items with
  | [] => ""
  | item :: r => match get_str item "text" with Some text => text | None => first_text r end
  end.

Definition content_text (v : option Value) : string :=
  match v with
  | Some (VString text) => text
  | Some (VArray items) => first_text items
  | _ => ""
  end.

Definition first_message_text (body : Value) : string :=
  match vget body "messages" ≫= as_array with
  | Some (msg :: _) =>
      match as_object msg with Some m => content_text (m !! "content") | None => "" end
  | _ => ""
  end.

Definition generate_session_hash (user_agent : string) (body : Value) (client_type : ClientType)
    : string :=
  let from_metadata :=
    if bool_decide (client_type = CT_ClaudeCode) then metadata_session body else None in
  match from_metadata with
  | Some session => session
  | None =>
      let content := content_text (vget body "system") in
      let content := if is_empty content then first_message_text body else content in
      let raw := user_agent +:+ "|" +:+ content in
      hex_encode (String.substring 0 16 (sha256 raw))
  end.
End account.
