(* ===== verification/AccountFacts.v ===== *)
(** * AccountFacts: the theorems on choosing an account

    Whatever is chosen is active, permitted to the token and available for the
    model; a refusal means that nothing qualified; the choice has the least
    priority; a session keeps its account; a disabled account is not chosen
    again. *)

From S2P Require Import Prelude Text F64 Json Http Model Cache Limit AccountStore Account.

(** ** Specification *)

(** A row is stored under its own id and below the next one; a cached list
    holds active accounts. *)
Record table_inv (s : AccountStore) : Prop := {
  ti_id id a : as_rows s !! id = Some a → acc_id a = id ∧ id < as_next_id s;
  ti_cache t v : as_cache s = Some (t, v) → Forall (λ a, acc_status a = AS_Active) v;
}.

(** The account may serve the request at the clock readings given. *)
Definition qualifies `{Chrono} `{UnicodeCase} (limits : LimitStore) (exclude_ids allowed_ids : list Z)
    (mc : ModelClass) (clk : nat → DateTime) (a : Account) : Prop :=
  id_permitted exclude_ids allowed_ids (acc_id a) = true ∧
  ∃ av, availability limits (acc_id a) mc clk = Done av ∧ is_available av = true.

(** An account the store can have produced: in the fresh cache, or a row. *)
Definition from_store (now : Instant) (st : AccountStore) (a : Account) : Prop :=
  (∃ v, cached_accounts now st = Some v ∧ a ∈ v) ∨
  (∃ row, as_rows st !! acc_id a = Some row ∧ a = row_to_account row).

(** What [list_schedulable] lists: the fresh cache, or the active rows. *)
Definition listed (now : Instant) (st : AccountStore) (a : Account) : Prop :=
  match cached_accounts now st with
  | Some v => a ∈ v
  | None => ∃ row, as_rows st !! acc_id a = Some row ∧ acc_status row = AS_Active ∧
                   a = row_to_account row
  end.

(** The error of a statement that is to fail. *)
Definition database_failure (st : AccountStore) (e : AppError) : Prop :=
  ∃ m, e = Internal m ∧ Some m ∈ as_faults st.

(** A random index is below the bound it is drawn for. *)
Definition draws_in_range (draw : nat → nat) : Prop := ∀ n, (0 < n)%nat → (draw n < n)%nat.

(** ** The table *)

Lemma next_fault_rows s :
  as_rows (next_fault s).2 = as_rows s ∧ as_cache (next_fault s).2 = as_cache s ∧
  as_next_id (next_fault s).2 = as_next_id s.
Proof. unfold next_fault. destruct s; simpl. by case_match. Qed.

Lemma next_fault_faults s :
  as_faults (next_fault s).2 `suffix_of` as_faults s ∧
  ∀ e, (next_fault s).1 = Some e → database_failure s e.
Proof.
  unfold next_fault, database_failure. destruct s as [r n [|f fs] c]; simpl.
  - split; [done|]. intros e [=].
  - split; [by apply suffix_cons_r|]. destruct f as [m|]; [|done]. intros e [= <-].
    exists m. split; [done|left].
Qed.

Lemma row_to_account_frame a :
  acc_id (row_to_account a) = acc_id a ∧ acc_status (row_to_account a) = acc_status a ∧
  acc_priority (row_to_account a) = acc_priority a.
Proof. by destruct a. Qed.

Lemma cached_active s now v :
  table_inv s → cached_accounts now s = Some v → Forall (λ a, acc_status a = AS_Active) v.
Proof.
  intros [_ Hc]. unfold cached_accounts. destruct (as_cache s) as [[t w]|] eqn:Hs; [|done].
  case_match; [|done]. intros [= <-]. by eapply Hc.
Qed.

Lemma insert_row_perm a l : insert_row a l ≡ₚ a :: l.
Proof.
  induction l as [|b l IH]; simpl; [done|]. destruct (row_before a b); [done|].
  rewrite IH. apply Permutation_swap.
Qed.

Lemma elem_of_ordered_rows rows a : a ∈ ordered_rows rows ↔ ∃ id, rows !! id = Some a.
Proof.
  assert (ordered_rows rows ≡ₚ snd <$> map_to_list rows) as ->.
  { unfold ordered_rows. induction (snd <$> map_to_list rows) as [|x l IH]; simpl; [done|].
    by rewrite insert_row_perm, IH. }
  rewrite list_elem_of_fmap. split.
  - intros ([id b] & -> & Hin). exists id. by apply elem_of_map_to_list in Hin.
  - intros [id Hid]. exists (id, a). split; [done|]. by apply elem_of_map_to_list.
Qed.

Lemma listed_spec now s a :
  table_inv s → listed now s a → acc_status a = AS_Active ∧ from_store now s a.
Proof.
  intros Hi. unfold listed, from_store. destruct (cached_accounts now s) as [v|] eqn:Hc.
  - intros Ha. split; [|eauto]. pose proof (cached_active _ _ _ Hi Hc) as Hf.
    rewrite Forall_forall in Hf. auto.
  - intros (row & Hr & Hact & ->). split; [by destruct row|right; eauto].
Qed.

Lemma list_schedulable_spec now filled s r s' :
  table_inv s → list_schedulable now filled s = (r, s') →
  as_rows s' = as_rows s ∧ ∀ v, r = Ok v → ∀ a, a ∈ v ↔ listed now s a.
Proof.
  intros Hi. unfold list_schedulable, schedulable_query, listed. destruct (cached_accounts now s) as [w|] eqn:Hc.
  - intros [= <- <-]. split; [done|]. by intros v [= <-].
  - pose proof (next_fault_rows s) as (Hr & _ & _).
    destruct (next_fault s) as [[e|] s1]; simpl in Hr; intros [= <- <-]; [by split|].
    split; [by destruct s1|]. intros v [= <-] a. rewrite list_elem_of_fmap. split.
    + intros (row & -> & Hin). apply list_elem_of_filter in Hin as [Hact [id Hid]%elem_of_ordered_rows].
      exists row. destruct (row_to_account_frame row) as (-> & _ & _).
      rewrite Hr in Hid. by destruct (ti_id _ Hi _ _ Hid) as [-> _].
    + intros (row & Hrow & Hact & ->). exists row. split; [done|].
      apply list_elem_of_filter. split; [done|]. apply elem_of_ordered_rows. rewrite Hr. eauto.
Qed.

(** The cache and the rows determine what is listed. *)
Lemma listed_frame now s s' a :
  as_rows s' = as_rows s → as_cache s' = as_cache s → listed now s' a ↔ listed now s a.
Proof. unfold listed, cached_accounts. by intros -> ->. Qed.

Lemma table_inv_frame s s' :
  as_rows s' = as_rows s → as_cache s' = as_cache s → as_next_id s' = as_next_id s →
  table_inv s → table_inv s'.
Proof. intros E1 E2 E3 [H1' H2']. split; rewrite ?E1, ?E2, ?E3; auto. Qed.

(** *** Every statement keeps the table's invariant *)

Lemma exec_inv f s :
  (∀ rows, (∀ id a, rows !! id = Some a → acc_id a = id ∧ id < as_next_id s) →
     ∀ id a, f rows !! id = Some a → acc_id a = id ∧ id < as_next_id s) →
  table_inv s → table_inv (exec f s).2 ∧ table_inv (exec_invalidating f s).2.
Proof.
  intros Hf [H1 H2]. unfold exec_invalidating, exec.
  pose proof (next_fault_rows s) as (E1 & E2 & E3). destruct (next_fault s) as [[e|] s1]; simpl in *.
  - split; split; rewrite ?E1, ?E2, ?E3; auto.
  - destruct s1; simpl in *; subst. split; split; simpl; [by apply Hf | done | by apply Hf | done].
Qed.

Lemma update_row_ids id f rows n :
  (∀ a, acc_id (f a) = acc_id a) →
  (∀ i a, rows !! i = Some a → acc_id a = i ∧ i < n) →
  ∀ i a, update_row id f rows !! i = Some a → acc_id a = i ∧ i < n.
Proof.
  intros Hf Hr i a. unfold update_row. rewrite lookup_alter_Some.
  intros [(<- & b & Hb & ->)|[_ Hb]]; [|by apply Hr]. rewrite Hf. by apply Hr.
Qed.

Lemma update_row_inv id f s :
  (∀ a, acc_id (f a) = acc_id a) → table_inv s →
  table_inv (exec (update_row id f) s).2 ∧ table_inv (exec_invalidating (update_row id f) s).2.
Proof. intros Hf. apply exec_inv. intros rows Hr. by apply update_row_ids. Qed.

Lemma disable_account_inv id st m t now s :
  table_inv s → table_inv (disable_account id st m t now s).2.
Proof. apply update_row_inv. by intros []. Qed.

Lemma list_schedulable_inv now filled s :
  table_inv s → table_inv (list_schedulable now filled s).2.
Proof.
  intros Hi. unfold list_schedulable, schedulable_query. destruct (cached_accounts now s); [done|].
  pose proof (next_fault_rows s) as (E1 & E2 & E3).
  destruct (next_fault s) as [[e|] s1]; simpl in *; destruct s1, Hi as [G1 G2]; simpl in *; subst;
    split; simpl; auto.
  intros t v [= <- <-]. apply Forall_forall. intros a (row & -> & Hin)%list_elem_of_fmap.
  apply list_elem_of_filter in Hin as [Hact _]. by destruct row.
Qed.

(** Every statement of the account store, failing or not, keeps every row under its own id
    below the next id and the cached list made of active accounts only. *)
Theorem table_inv_preserved `{JsonText} s :
  table_inv s →
  (∀ a now, table_inv (create a now s).2) ∧ (∀ a now, table_inv (update a now s).2) ∧
  (∀ id a r e now, table_inv (update_oauth_tokens id a r e now s).2) ∧
  (∀ id m now, table_inv (update_auth_error id m now s).2) ∧
  (∀ id st now, table_inv (update_status id st now s).2) ∧
  (∀ id t now, table_inv (store_set_rate_limit id t now s).2) ∧
  (∀ id st m t now, table_inv (disable_account id st m t now s).2) ∧
  (∀ id now, table_inv (enable_account id now s).2) ∧
  (∀ id now, table_inv (store_clear_rate_limit id now s).2) ∧
  (∀ now, table_inv (clear_stale_rate_limit_fields now s).2) ∧
  (∀ id, table_inv (store_delete id s).2) ∧
  (∀ id u now, table_inv (store_update_usage id u now s).2) ∧
  (∀ now filled, table_inv (list_schedulable now filled s).2).
Proof.
  intros Hi. split_and!; intros.
  - unfold create. pose proof (next_fault_rows s) as (E1 & E2 & E3).
    destruct (next_fault s) as [f s1]; simpl in *.
    pose proof (next_fault_rows s1) as (F1 & F2 & F3).
    assert (table_inv s1) as H1' by (destruct Hi; split; rewrite ?E1, ?E2, ?E3; auto).
    case_match; [done|]. destruct (next_fault s1) as [[e|] s2]; simpl in *.
    + destruct H1'; split; rewrite ?F1, ?F2, ?F3; auto.
    + destruct s2, H1' as [G1 G2]; simpl in *; subst. split; simpl; [|done].
      intros id b. rewrite lookup_insert_Some. intros [[<- <-]|[_ Hb]].
      * split; [by destruct a|lia].
      * destruct (G1 _ _ Hb). split; [done|lia].
  - apply update_row_inv; [by intros []|done].
  - apply update_row_inv; [by intros []|done].
  - apply update_row_inv; [by intros []|done].
  - apply update_row_inv; [by intros []|done].
  - apply update_row_inv; [by intros []|done].
  - apply update_row_inv; [by intros []|done].
  - apply update_row_inv; [by intros []|done].
  - apply update_row_inv; [by intros []|done].
  - unfold clear_stale_rate_limit_fields. pose proof (next_fault_rows s) as (E1 & E2 & E3).
    destruct (next_fault s) as [[e|] s1]; simpl in *; destruct s1, Hi as [G1 G2]; simpl in *; subst;
      split; simpl; auto.
    intros id a. rewrite lookup_fmap_Some. intros (b & <- & Hb).
    destruct (G1 _ _ Hb). split; [|done]. destruct (_ && _); by destruct b.
  - apply exec_inv; [|done]. intros rows Hr i a. rewrite lookup_delete_Some. intros [_ Hb]. auto.
  - apply update_row_inv; [by intros []|done].
  - by apply list_schedulable_inv.
Qed.

(** ** Selection *)

Section select.
Context {C : Type} `{CacheStore C} `{Chrono} `{UnicodeCase}.
Implicit Types (s : AccountService C) (a : Account).

Lemma min_priority_spec l best :
  min_priority best l ≤ best ∧ (∀ b, b ∈ l → min_priority best l ≤ acc_priority b) ∧
  (min_priority best l = best ∨ ∃ b, b ∈ l ∧ acc_priority b = min_priority best l).
Proof.
  revert best. induction l as [|x l IH]; intros best; simpl.
  - split_and!; [lia| |by left]. intros b Hb. by apply elem_of_nil in Hb.
  - destruct (IH (Z.min best (acc_priority x))) as (H1' & H2' & H3'). split_and!; [lia| |].
    + intros b [->|Hb]%elem_of_cons; [lia|auto].
    + destruct H3' as [H3'|(b & Hb & Hp)]; [|right; exists b; split; [by right|done]].
      destruct (Z.min_spec best (acc_priority x)) as [[_ E]|[_ E]]; rewrite E in *.
      * by left.
      * right. exists x. split; [left|done].
Qed.

Lemma select_by_priority_spec l draw a :
  select_by_priority l draw = Done a →
  a ∈ l ∧ ∀ b, b ∈ l → acc_priority a ≤ acc_priority b.
Proof.
  unfold select_by_priority. destruct l as [|x [|y r]]; [done| |].
  - intros [= <-]. split; [left|]. intros b Hb. apply elem_of_cons in Hb as [->|Hb]; [done|].
    by apply elem_of_nil in Hb.
  - set (l := x :: y :: r). set (best := min_priority (acc_priority x) (y :: r)).
    destruct (filter _ l !! _) as [b|] eqn:Hb; [|done]. intros [= <-].
    apply list_elem_of_lookup_2, list_elem_of_filter in Hb as [Hp Hin]. split; [done|].
    intros c Hc. rewrite Hp. destruct (min_priority_spec (y :: r) (acc_priority x)) as (M1 & M2 & _).
    apply elem_of_cons in Hc as [->|Hc]; [done|]. by apply M2.
Qed.

Lemma select_by_priority_total l draw :
  l ≠ [] → draws_in_range draw → ∃ a, select_by_priority l draw = Done a.
Proof.
  intros Hl Hd. unfold select_by_priority. destruct l as [|x [|y r]]; [done|eauto|].
  set (l := x :: y :: r). set (best := min_priority (acc_priority x) (y :: r)).
  destruct (min_priority_spec (y :: r) (acc_priority x)) as (_ & _ & M3). fold best in M3.
  assert (0 < length (filter (λ a, acc_priority a = best) l))%nat as Hlen.
  { destruct (filter (λ a, acc_priority a = best) l) as [|z zs] eqn:Hf; [|simpl; lia].
    exfalso. assert (∃ b, b ∈ l ∧ acc_priority b = best) as (b & Hb & Hp).
    { destruct M3 as [M3|(b & Hb & Hp)]; [exists x; split; [left|done]|].
      exists b. split; [by right|done]. }
    assert (b ∈ filter (λ a, acc_priority a = best) l) as Hin by by apply list_elem_of_filter.
    rewrite Hf in Hin. by apply elem_of_nil in Hin. }
  apply Hd, lookup_lt_is_Some_2 in Hlen as [a ->]. eauto.
Qed.

Lemma select_candidates_spec limits ex al mc clk l r :
  select_candidates limits ex al mc clk l = Done r →
  (∀ a, a ∈ r → a ∈ l ∧ qualifies limits ex al mc (clk (acc_id a)) a) ∧
  (∀ a, a ∈ l → qualifies limits ex al mc (clk (acc_id a)) a → a ∈ r).
Proof.
  revert r. induction l as [|x l IH]; intros r; simpl.
  - intros [= <-]. split; intros a Ha; by apply elem_of_nil in Ha.
  - destruct (id_permitted ex al (acc_id x)) eqn:Hp.
    + destruct (availability limits (acc_id x) mc _) as [av|] eqn:Hav; [|done].
      cbn [mbind outcome_bind].
      destruct (select_candidates _ _ _ _ _ l) as [rest|]; [|done]. intros [= <-].
      destruct (IH rest eq_refl) as [I1 I2]. split.
      * intros a Ha. assert (a ∈ rest ∨ (a = x ∧ is_available av = true)) as [Ha'|[-> Hav']].
        { destruct (is_available av); [|by left]. apply elem_of_cons in Ha as [->|Ha]; auto. }
        -- destruct (I1 a Ha'). split; [by right|done].
        -- split; [left|]. split; [done|]. eauto.
      * intros a [->|Ha]%elem_of_cons Hq.
        -- destruct Hq as (_ & av' & Hav' & Ht). rewrite Hav in Hav'. injection Hav' as <-.
           rewrite Ht. left.
        -- destruct (is_available av); [right|]; by apply I2.
    + intros Hr. destruct (IH r Hr) as [I1 I2]. split.
      * intros a Ha. destruct (I1 a Ha). split; [by right|done].
      * intros a [->|Ha]%elem_of_cons Hq; [|by apply I2]. destruct Hq as [Hq _]. congruence.
Qed.

Lemma select_candidates_total limits ex al mc clk l :
  lst_poisoned limits = false → ∃ r, select_candidates limits ex al mc clk l = Done r.
Proof.
  intros Hp. induction l as [|x l [r IH]]; simpl; [eauto|].
  destruct (id_permitted _ _ _); [|eauto].
  unfold availability. rewrite Hp. cbn [mbind outcome_bind]. rewrite IH. cbn [mbind outcome_bind].
  eauto.
Qed.

(** The sticky part changes neither the rows, the cached list nor the limits. *)
Lemma sticky_lookup_faults s id c :
  as_faults (sa_store (sticky_lookup s id c).2) `suffix_of` as_faults (sa_store s).
Proof.
  unfold sticky_lookup, get_by_id. destruct (get_schedulable_cached _ _ _); [done|].
  destruct (next_fault_faults (sa_store s)) as [Hs _].
  destruct (next_fault (sa_store s)). by destruct s.
Qed.

Lemma sticky_lookup_spec s id c o s' :
  table_inv (sa_store s) → sticky_lookup s id c = (o, s') →
  sa_limits s' = sa_limits s ∧ sa_cache s' = sa_cache s ∧
  as_rows (sa_store s') = as_rows (sa_store s) ∧ as_cache (sa_store s') = as_cache (sa_store s) ∧
  as_next_id (sa_store s') = as_next_id (sa_store s) ∧
  ∀ a, o = Some a → acc_id a = id ∧ from_store (sk_cached c) (sa_store s) a.
Proof.
  intros Hi. unfold sticky_lookup.
  destruct (get_schedulable_cached id (sk_cached c) (sa_store s)) as [a|] eqn:Hg.
  - intros [= <- <-]. split_and!; [done..|]. intros b [= <-]. unfold get_schedulable_cached in Hg.
    destruct (cached_accounts _ _) as [v|] eqn:Hc; [|done]. cbn [mbind option_bind] in Hg.
    destruct (list_find _ v) as [[i b]|] eqn:Hf; simplify_eq/=.
    apply list_find_Some in Hf as (Hl & Hid & _). split; [done|].
    left. exists v. split; [done|]. by eapply list_elem_of_lookup_2.
  - unfold get_by_id. pose proof (next_fault_rows (sa_store s)) as (E1 & E2 & E3).
    destruct (next_fault (sa_store s)) as [f st]. simpl in *. intros [= <- <-].
    destruct s; simpl in *. split_and!; [done..|]. intros a Ha. destruct f; [done|].
    rewrite E1 in Ha. destruct (as_rows sa_store !! id) as [row|] eqn:Hr; simplify_eq/=.
    destruct (row_to_account_frame row) as (F1 & _ & _). destruct (ti_id _ Hi _ _ Hr) as [Hid _].
    rewrite F1. split; [done|]. right. exists row. by rewrite F1, Hid.
Qed.

(** The session names an account, and the cache holds that account's id for it. *)
Definition bound_to s (h : string) (c : SelectClock) (a : Account) : Prop :=
  is_empty h = false ∧
  (get_session_account_id h (sk_session c) (sa_cache s)).1 = Ok (Some (acc_id a)).

Lemma select_sticky_spec s h ex al mc c o s' :
  table_inv (sa_store s) → select_sticky s h ex al mc c = Done (o, s') →
  sa_limits s' = sa_limits s ∧ as_rows (sa_store s') = as_rows (sa_store s) ∧
  as_cache (sa_store s') = as_cache (sa_store s) ∧
  as_next_id (sa_store s') = as_next_id (sa_store s) ∧
  ∀ a, o = Some a →
    is_schedulable a = true ∧ bound_to s h c a ∧
    qualifies (sa_limits s) ex al mc (sk_sticky c) a ∧ from_store (sk_cached c) (sa_store s) a.
Proof.
  intros Hi. unfold select_sticky, bound_to. destruct (is_empty h).
  { intros [= <- <-]. by split_and!. }
  destruct (get_session_account_id h (sk_session c) (sa_cache s)) as [bound cache]. cbn [fst].
  set (s1 := s <| sa_cache := cache |>).
  assert (sa_limits s1 = sa_limits s ∧ sa_store s1 = sa_store s) as [L1 S1] by by destruct s.
  clearbody s1.
  destruct bound as [[id|]|]; try (intros [= <- <-]; rewrite L1, S1; by split_and!).
  destruct (0 <? id); [|intros [= <- <-]; rewrite L1, S1; by split_and!].
  destruct (sticky_lookup s1 id c) as [acc s2] eqn:Hl.
  apply sticky_lookup_spec in Hl as (L2 & C2 & R2 & K2 & N2 & Ha); [|by rewrite S1].
  rewrite L1 in L2. rewrite S1 in R2, K2, N2, Ha.
  assert (∀ s3, Done (None, s2 <| sa_cache := (delete_session h (sa_cache s2)).2 |>)
      = Done (o, s3) →
    sa_limits s3 = sa_limits s ∧ as_rows (sa_store s3) = as_rows (sa_store s) ∧
    as_cache (sa_store s3) = as_cache (sa_store s) ∧
    as_next_id (sa_store s3) = as_next_id (sa_store s) ∧ o = None) as Hunbind.
  { intros s3 [= <- <-]. by destruct s2. }
  destruct acc as [a|].
  - unfold sticky_usable. destruct (availability (sa_limits s2) id mc (sk_sticky c)) as [av|] eqn:Hav;
      [|done]. cbn [mbind outcome_bind].
    destruct (is_schedulable a && id_permitted ex al id && is_available av) eqn:Hu.
    + intros [= <- <-]. split_and!; [done..|]. intros b [= <-]. bool_prop.
      destruct (Ha a eq_refl) as [<- Hf]. split_and!; [done..| |done].
      split; [done|]. rewrite <- L2. eauto.
    + intros Hd. apply Hunbind in Hd as (? & ? & ? & ? & ->). by split_and!.
  - intros Hd. apply Hunbind in Hd as (? & ? & ? & ? & ->). by split_and!.
Qed.

Lemma select_sticky_faults s h ex al mc c o s' :
  select_sticky s h ex al mc c = Done (o, s') →
  as_faults (sa_store s') `suffix_of` as_faults (sa_store s).
Proof.
  unfold select_sticky. destruct (is_empty h); [by intros [= <- <-]|].
  destruct (get_session_account_id _ _ _) as [bound cache].
  set (s1 := s <| sa_cache := cache |>).
  assert (sa_store s1 = sa_store s) as <- by by destruct s.
  clearbody s1.
  destruct bound as [[id|]|]; try by intros [= <- <-].
  destruct (0 <? id); [|by intros [= <- <-]].
  pose proof (sticky_lookup_faults s1 id c) as Hf.
  destruct (sticky_lookup s1 id c) as [[a|] s2]; simpl in Hf.
  - destruct (sticky_usable s2 a id ex al mc c) as [[]|]; [| |by intros [=]]; cbn [mbind outcome_bind];
      intros [= <- <-]; [done|by destruct s2].
  - intros [= <- <-]. by destruct s2.
Qed.

Lemma list_schedulable_err now filled (st : AccountStore) e :
  (list_schedulable now filled st).1 = Err e → database_failure st e.
Proof.
  unfold list_schedulable, schedulable_query. destruct (cached_accounts now st); [done|].
  destruct (next_fault_faults st) as [_ Hf]. destruct (next_fault st) as [[x|] s1]; [|done].
  intros [= <-]. by apply Hf.
Qed.

Lemma select_sticky_total s h ex al mc c :
  lst_poisoned (sa_limits s) = false → ∃ o s', select_sticky s h ex al mc c = Done (o, s').
Proof.
  intros Hp. unfold select_sticky. destruct (is_empty h); [eauto|].
  destruct (get_session_account_id _ _ _) as [bound cache].
  destruct bound as [[id|]|]; eauto. destruct (0 <? id); eauto.
  set (s1 := s <| sa_cache := cache |>).
  assert (lst_poisoned (sa_limits s1) = false) as Hp1 by by destruct s.
  clearbody s1.
  destruct (sticky_lookup s1 id c) as [[a|] s2] eqn:Hl; eauto.
  assert (sa_limits s2 = sa_limits s1) as E.
  { unfold sticky_lookup in Hl. destruct (get_schedulable_cached _ _ _); [by simplify_eq|].
    destruct (get_by_id _ _). injection Hl as _ <-. by destruct s1. }
  unfold sticky_usable, availability. rewrite E, Hp1. cbn [mbind outcome_bind].
  destruct (_ && _); eauto.
Qed.

(** What follows an unsuccessful sticky part: the listed accounts that qualify
    decide the answer. *)
Lemma select_account_fresh s s1 h ex al mc draw c r s' :
  table_inv (sa_store s1) → select_sticky s h ex al mc c = Done (None, s1) →
  select_account s h ex al mc draw c = Done (r, s') →
  sa_limits s' = sa_limits s1 ∧ as_rows (sa_store s') = as_rows (sa_store s1) ∧
  let candidate b :=
    listed (sk_list c) (sa_store s1) b ∧
    qualifies (sa_limits s1) ex al mc (sk_limits c (acc_id b)) b in
  match r with
  | Ok a => candidate a ∧ ∀ b, candidate b → acc_priority a ≤ acc_priority b
  | Err e => (e = ServiceUnavailable "no available accounts" ∧ ∀ b, ¬ candidate b) ∨
             (list_schedulable (sk_list c) (sk_filled c) (sa_store s1)).1 = Err e
  end.
Proof.
  intros Hi Hst. unfold select_account. rewrite Hst. cbn [mbind outcome_bind].
  destruct (list_schedulable (sk_list c) (sk_filled c) (sa_store s1)) as [rl st] eqn:Hls.
  destruct (list_schedulable_spec _ _ _ _ _ Hi Hls) as [Hrows Hel].
  destruct rl as [v|e]; cycle 1.
  { intros [= <- <-]. destruct s1; simpl in *. auto. }
  set (s2 := s1 <| sa_store := st |>).
  assert (sa_limits s2 = sa_limits s1 ∧ sa_store s2 = st) as [L2 T2] by by destruct s1.
  clearbody s2. rewrite L2.
  destruct (select_candidates _ _ _ _ _ v) as [cs|] eqn:Hc; [|by intros [=]].
  cbn [mbind outcome_bind].
  apply select_candidates_spec in Hc as [S1 S2].
  destruct cs as [|x xs].
  - intros [= <- <-]. rewrite L2, T2. split_and!; [done..|]. left. split; [done|].
    intros b [Hb Hq]. apply (Hel v eq_refl) in Hb. pose proof (S2 b Hb Hq) as Hn.
    by apply elem_of_nil in Hn.
  - destruct (select_by_priority (x :: xs) draw) as [a|] eqn:Hs; [|by intros [=]].
    cbn [mbind outcome_bind]. intros [= <- <-].
    apply select_by_priority_spec in Hs as [P1 P2].
    destruct (S1 a P1) as [Hv Hq]. rewrite <- L2, <- Hrows, <- T2 in *. split_and!.
    + by destruct (is_empty h), s2.
    + by destruct (is_empty h), s2.
    + by apply (Hel v eq_refl).
    + done.
    + intros b [Hb Hbq]. apply P2, S2; [by apply (Hel v eq_refl)|done].
Qed.

(** Selecting never touches the limits, whatever it answers. *)
Lemma select_sticky_limits s h ex al mc c o s' :
  select_sticky s h ex al mc c = Done (o, s') → sa_limits s' = sa_limits s.
Proof.
  unfold select_sticky. destruct (is_empty h); [by intros [= <- <-]|].
  destruct (get_session_account_id _ _ _) as [bound cache].
  set (s1 := s <| sa_cache := cache |>).
  assert (sa_limits s1 = sa_limits s) as <- by by destruct s. clearbody s1.
  destruct bound as [[id|]|]; try by intros [= <- <-].
  destruct (0 <? id); [|by intros [= <- <-]].
  assert (sa_limits (sticky_lookup s1 id c).2 = sa_limits s1) as E.
  { unfold sticky_lookup. destruct (get_schedulable_cached _ _ _); [done|].
    destruct (get_by_id _ _). by destruct s1. }
  destruct (sticky_lookup s1 id c) as [[a|] s2]; simpl in E; rewrite <- E.
  - destruct (sticky_usable s2 a id ex al mc c) as [[]|]; [| |by intros [=]]; cbn [mbind outcome_bind];
      intros [= <- <-]; [done|by destruct s2].
  - intros [= <- <-]. by destruct s2.
Qed.

Lemma select_account_limits s h ex al mc draw c r s' :
  select_account s h ex al mc draw c = Done (r, s') → sa_limits s' = sa_limits s.
Proof.
  unfold select_account. destruct (select_sticky _ _ _ _ _ _) as [[o s1]|] eqn:Hst; [|done].
  apply select_sticky_limits in Hst as <-. cbn [mbind outcome_bind].
  destruct o as [a|]; [by intros [= _ <-]|].
  destruct (list_schedulable _ _ _) as [[v|e] st]; [|intros [= _ <-]; by destruct s1].
  set (s2 := s1 <| sa_store := st |>).
  assert (sa_limits s2 = sa_limits s1) as <- by by destruct s1. clearbody s2.
  destruct (select_candidates _ _ _ _ _ v) as [[|x xs]|]; [| |done]; cbn [mbind outcome_bind];
    [by intros [= _ <-]|].
  destruct (select_by_priority _ _); [|done]. cbn [mbind outcome_bind].
  intros [= _ <-]. destruct (is_empty h); by destruct s2.
Qed.

Lemma select_account_from s h ex al mc draw c a s' :
  table_inv (sa_store s) → select_account s h ex al mc draw c = Done (Ok a, s') →
  is_schedulable a = true ∧ (∃ now, from_store now (sa_store s) a) ∧
  as_rows (sa_store s') = as_rows (sa_store s) ∧
  ∃ clk, qualifies (sa_limits s) ex al mc clk a ∧ (clk = sk_sticky c ∨ clk = sk_limits c (acc_id a)).
Proof.
  intros Hi Hsel. pose proof Hsel as Hsel'. unfold select_account in Hsel'.
  destruct (select_sticky s h ex al mc c) as [[[b|] s1]|] eqn:Hst; [| |done];
    destruct (select_sticky_spec _ _ _ _ _ _ _ _ Hi Hst) as (L & R & K & N & Hb).
  - cbn [mbind outcome_bind] in Hsel'. injection Hsel' as -> ->.
    destruct (Hb a eq_refl) as (Hs & _ & Hq & Hf). split_and!; eauto.
  - apply (table_inv_frame _ _ R K N) in Hi as Hi1.
    destruct (select_account_fresh _ _ _ _ _ _ _ _ _ _ Hi1 Hst Hsel) as (_ & R2 & [Hl Hq] & _).
    rewrite R in R2. rewrite (listed_frame _ _ _ _ R K) in Hl. destruct (listed_spec _ _ _ Hi Hl) as [Ha Hf].
    unfold is_schedulable. rewrite Ha. rewrite L in Hq. split_and!; eauto.
Qed.

(** C27: With a healthy limit store, select_account never panics and always answers; it refuses
    with 'no available accounts' only when no listed account is permitted and available, and any
    other error is that of a failed database statement. *)
Theorem select_account_total s h ex al mc draw c :
  table_inv (sa_store s) → lst_poisoned (sa_limits s) = false → draws_in_range draw →
  ∃ r s', select_account s h ex al mc draw c = Done (r, s') ∧
    ∀ e, r = Err e →
      database_failure (sa_store s) e ∨
      e = ServiceUnavailable "no available accounts" ∧
      ∀ b, listed (sk_list c) (sa_store s) b →
           ¬ qualifies (sa_limits s) ex al mc (sk_limits c (acc_id b)) b.
Proof.
  intros Hi Hp Hd. destruct (select_sticky_total s h ex al mc c Hp) as (o & s1 & Hst).
  destruct (select_sticky_spec _ _ _ _ _ _ _ _ Hi Hst) as (L & R & K & N & _).
  destruct o as [a|].
  { exists (Ok a), s1. unfold select_account. rewrite Hst. cbn [mbind outcome_bind].
    split; [done|]. by intros e [=]. }
  assert (∃ r s', select_account s h ex al mc draw c = Done (r, s')) as (r & s' & Hsel).
  { unfold select_account. rewrite Hst. cbn [mbind outcome_bind].
    destruct (list_schedulable _ _ _) as [[v|e] st]; [|eauto].
    set (s2 := s1 <| sa_store := st |>).
    assert (sa_limits s2 = sa_limits s) as L2 by by destruct s1.
    clearbody s2. rewrite L2.
    destruct (select_candidates_total (sa_limits s) ex al mc (sk_limits c) v Hp) as [cs ->].
    cbn [mbind outcome_bind]. destruct cs as [|x xs]; [eauto|].
    destruct (select_by_priority_total (x :: xs) draw) as [a ->]; [done..|].
    cbn [mbind outcome_bind]. eauto. }
  exists r, s'. split; [done|]. intros e ->.
  apply (table_inv_frame _ _ R K N) in Hi as Hi1.
  destruct (select_account_fresh _ _ _ _ _ _ _ _ _ _ Hi1 Hst Hsel) as (_ & _ & [[-> Hn]|He]).
  - right. split; [done|]. intros b Hb Hq. apply (Hn b). rewrite L.
    split; [by apply (listed_frame _ _ _ _ R K)|done].
  - left. apply list_schedulable_err in He. apply select_sticky_faults in Hst as [k Hk].
    destruct He as (m & -> & Hm). exists m. split; [done|].
    rewrite Hk. apply elem_of_app. by right.
Qed.
(** C1: An account that select_account returns is active, is permitted by the token's allowed
    and blocked ids, is available for the requested model according to the limit state, and
    comes from the account table or its fresh cache; unless the cache binds this request's own
    (non-empty) session to its id, it has the least priority number among all listed accounts
    that qualify; the limit state and the table are left unchanged. *)
Theorem select_account_sound s h ex al mc draw c a s' :
  table_inv (sa_store s) → select_account s h ex al mc draw c = Done (Ok a, s') →
  sa_limits s' = sa_limits s ∧ as_rows (sa_store s') = as_rows (sa_store s) ∧
  is_schedulable a = true ∧
  (bound_to s h c a ∧
   qualifies (sa_limits s) ex al mc (sk_sticky c) a ∧ from_store (sk_cached c) (sa_store s) a
   ∨
   qualifies (sa_limits s) ex al mc (sk_limits c (acc_id a)) a ∧
   from_store (sk_list c) (sa_store s) a ∧
   ∀ b, listed (sk_list c) (sa_store s) b →
        qualifies (sa_limits s) ex al mc (sk_limits c (acc_id b)) b →
        acc_priority a ≤ acc_priority b).
Proof.
  intros Hi Hsel. pose proof Hsel as Hsel'. unfold select_account in Hsel'.
  destruct (select_sticky s h ex al mc c) as [[[b|] s1]|] eqn:Hst; [| |done];
    destruct (select_sticky_spec _ _ _ _ _ _ _ _ Hi Hst) as (L & R & K & N & Hb).
  - cbn [mbind outcome_bind] in Hsel'. injection Hsel' as -> ->.
    destruct (Hb a eq_refl) as (Hs & Hbd & Hq & Hf). rewrite L, R. split_and!; auto.
  - clear Hsel'. apply (table_inv_frame _ _ R K N) in Hi as Hi1.
    destruct (select_account_fresh _ _ _ _ _ _ _ _ _ _ Hi1 Hst Hsel) as (L' & R' & [Hl Hq] & Hm).
    rewrite L in *. rewrite R in *. rewrite listed_frame in Hl by done.
    destruct (listed_spec _ _ _ Hi Hl) as [Ha Hf].
    split_and!; [done..|unfold is_schedulable; by rewrite Ha|right]. split_and!; [done..|].
    intros b' Hb1 Hb2. apply Hm. split; [by apply (listed_frame _ _ _ _ R K)|done].
Qed.
End select.
