(* ===== verification/AccountRuns.v ===== *)
(** * AccountRuns: sessions, disabling and the cached list over sequences of calls

    The first part runs selections after an account was disabled, one after the
    other and interleaved at their awaits; the second interleaves the query of the
    schedulable list with a statement of another task; the third follows one
    session in the in-memory cache. *)

From S2P Require Import Prelude Text F64 Json Http Model Cache Limit AccountStore Account.
From S2P Require Import AccountFacts.

(** One call of [select_account]. *)
Record SelectCall := mkSelectCall {
  sc_hash : string;
  sc_exclude : list Z;
  sc_allowed : list Z;
  sc_model : ModelClass;
  sc_draw : nat → nat;
  sc_clock : SelectClock;
}.

Section runs.
Context {C : Type} `{CacheStore C} `{Chrono} `{UnicodeCase}.

Definition select_call (s : AccountService C) (q : SelectCall)
    : outcome (result AppError Account * AccountService C) :=
  select_account s (sc_hash q) (sc_exclude q) (sc_allowed q) (sc_model q) (sc_draw q) (sc_clock q).

(** The accounts that consecutive calls chose, until one panics. *)
Fixpoint select_run (s : AccountService C) (qs : list SelectCall) : list (result AppError Account) :=
  match qs with
  | [] => []
  | q :: qs =>
      match select_call s q with
      | Done (r, s') => r :: select_run s' qs
      | Panic => []
      end
  end.
End runs.

(** The account is out of rotation: its row is not active and the cached list
    does not hold it. *)
Record barred (id : Z) (st : AccountStore) : Prop := {
  ba_row row : as_rows st !! id = Some row → acc_status row ≠ AS_Active;
  ba_cache t v : as_cache st = Some (t, v) → ∀ a, a ∈ v → acc_id a ≠ id;
}.

(** ** Disabling *)

Section facts.
Context {C : Type} `{CacheStore C} `{Chrono} `{UnicodeCase}.
Implicit Types (s : AccountService C).

Lemma disable_bars id status reason reset now st st' :
  status ≠ AS_Active → disable_account id status reason reset now st = (Ok tt, st') →
  barred id st'.
Proof.
  intros Hs. unfold disable_account, exec_invalidating, exec.
  pose proof (next_fault_rows st) as (E1 & _ & _). destruct (next_fault st) as [[e|] s1]; [done|].
  intros [= <-]. destruct s1; simpl in *. split; simpl; [|done].
  intros row. unfold update_row. rewrite lookup_alter_Some.
  intros [(_ & b & _ & ->)|[? _]]; [|done]. by destruct b.
Qed.

Lemma barred_frame id st st' :
  as_rows st' = as_rows st → as_cache st' = as_cache st → barred id st → barred id st'.
Proof. intros E1 E2 [B1 B2]. split; rewrite ?E1, ?E2; auto. Qed.

Lemma barred_not_listed id now st a :
  table_inv st → barred id st → listed now st a → acc_id a ≠ id.
Proof.
  intros Hi [B1 B2]. unfold listed, cached_accounts.
  destruct (as_cache st) as [[t v]|] eqn:Hc.
  - destruct (_ <? _); [by intros Ha; eapply B2|].
    intros (row & Hr & Hact & ->) Hid. rewrite Hid in Hr. by apply B1 in Hr.
  - intros (row & Hr & Hact & ->) Hid. rewrite Hid in Hr. by apply B1 in Hr.
Qed.

Lemma barred_not_from_store id now st a :
  barred id st → is_schedulable a = true → from_store now st a → acc_id a ≠ id.
Proof.
  intros [B1 B2] Ha [(v & Hc & Hin)|(row & Hr & ->)] Hid.
  - unfold cached_accounts in Hc. destruct (as_cache st) as [[t w]|] eqn:Hcc; [|done].
    case_match; simplify_eq. by eapply B2.
  - rewrite Hid in Hr. apply B1 in Hr. apply bool_decide_eq_true_1 in Ha.
    by destruct row.
Qed.

Lemma list_schedulable_barred id now filled st :
  table_inv st → barred id st → barred id (list_schedulable now filled st).2.
Proof.
  intros Hi Hb. destruct (list_schedulable now filled st) as [r st'] eqn:Hl.
  destruct (list_schedulable_spec _ _ _ _ _ Hi Hl) as [Hr Hv].
  split; simpl.
  - rewrite Hr. apply Hb.
  - intros t v Hc a Ha. unfold list_schedulable in Hl.
    destruct (cached_accounts now st) as [w|] eqn:Hw.
    + simplify_eq. by eapply (ba_cache _ _ Hb).
    + destruct (next_fault_rows st) as (E1 & E2 & _). unfold schedulable_query in Hl.
      destruct (next_fault st) as [[e|] s1]; simpl in *; simplify_eq/=.
      * rewrite E2 in Hc. by eapply (ba_cache _ _ Hb).
      * destruct s1. simplify_eq/=.
        apply (barred_not_listed id now st); [done..|]. by apply (Hv _ eq_refl).
Qed.

(** One call leaves the store as the listing left it. *)
Lemma select_account_store s h ex al mc draw c r s' :
  table_inv (sa_store s) → select_account s h ex al mc draw c = Done (r, s') →
  ∃ st, as_rows st = as_rows (sa_store s) ∧ as_cache st = as_cache (sa_store s) ∧
    as_next_id st = as_next_id (sa_store s) ∧
    (sa_store s' = st ∨ sa_store s' = (list_schedulable (sk_list c) (sk_filled c) st).2).
Proof.
  intros Hi. unfold select_account.
  destruct (select_sticky s h ex al mc c) as [[[a|] s1]|] eqn:Hst; [| |by intros [=]];
    destruct (select_sticky_spec _ _ _ _ _ _ _ _ Hi Hst) as (_ & R & K & N & _);
    cbn [mbind outcome_bind].
  - intros [= <- <-]. exists (sa_store s1). by split_and!; auto.
  - intros Hd. exists (sa_store s1). split_and!; [done..|right].
    destruct (list_schedulable _ _ _) as [[v|e] st]; cycle 1.
    { simplify_eq. by destruct s1. }
    set (s2 := s1 <| sa_store := st |>) in *.
    assert (sa_store s2 = st) as E by by destruct s1. clearbody s2.
    destruct (select_candidates _ _ _ _ _ v) as [[|x xs]|]; [| |done];
      cbn [mbind outcome_bind] in Hd; [by simplify_eq|].
    destruct (select_by_priority _ _); [|done]. cbn [mbind outcome_bind] in Hd. simplify_eq/=.
    by destruct (is_empty h), s2.
Qed.

Lemma select_account_barred id s h ex al mc draw c r s' :
  table_inv (sa_store s) → barred id (sa_store s) →
  select_account s h ex al mc draw c = Done (r, s') →
  table_inv (sa_store s') ∧ barred id (sa_store s').
Proof.
  intros Hi Hb Hsel. destruct (select_account_store _ _ _ _ _ _ _ _ _ Hi Hsel)
    as (st & R & K & N & Hst).
  apply (table_inv_frame _ _ R K N) in Hi. apply (barred_frame _ _ _ R K) in Hb.
  destruct Hst as [->| ->]; [done|]. split; [by apply list_schedulable_inv|].
  by apply list_schedulable_barred.
Qed.

Lemma select_account_not_barred id s h ex al mc draw c a s' :
  table_inv (sa_store s) → barred id (sa_store s) →
  select_account s h ex al mc draw c = Done (Ok a, s') → acc_id a ≠ id.
Proof.
  intros Hi Hb Hsel. destruct (select_account_from _ _ _ _ _ _ _ _ _ Hi Hsel) as (Hs & (now & Hf) & _).
  by eapply barred_not_from_store.
Qed.

Lemma select_run_barred id s qs :
  table_inv (sa_store s) → barred id (sa_store s) →
  Forall (λ r, ∀ a, r = Ok a → acc_id a ≠ id) (select_run s qs).
Proof.
  revert s. induction qs as [|q qs IH]; intros s Hi Hb; simpl; [constructor|].
  destruct (select_call s q) as [[r s2]|] eqn:Hq; [|constructor].
  destruct (select_account_barred id _ _ _ _ _ _ _ _ _ Hi Hb Hq) as [Hi2 Hb2].
  constructor; [|by apply IH]. intros a ->.
  exact (select_account_not_barred _ _ _ _ _ _ _ _ _ _ Hi Hb Hq).
Qed.

(** *** Selections that run at the same time

    The awaits of a selection let other tasks in: after the session's account was looked up,
    after the list was read or queried, and before the queried list is cached. What a selection
    has read and not yet used is in flight. *)

Inductive InFlight := IF_Row (a : Account) | IF_List (v : list Account).

Record Selections := mkSelections {
  se_service : AccountService C;
  se_flight : list InFlight;
  se_chosen : list Account;
}.

(** A statement on the table that does not activate the account [id]. *)
Inductive statement `{JsonText} (id : Z) (st : AccountStore) : AccountStore → Prop :=
  | ST_create a now : statement id st (create a now st).2
  | ST_update a now :
      (acc_id a = id → acc_status a ≠ AS_Active) → statement id st (update a now st).2
  | ST_tokens i at' rt e now : statement id st (update_oauth_tokens i at' rt e now st).2
  | ST_auth_error i m now : statement id st (update_auth_error i m now st).2
  | ST_status i x now :
      (i = id → x ≠ AS_Active) → statement id st (update_status i x now st).2
  | ST_rate_limit i t now : statement id st (store_set_rate_limit i t now st).2
  | ST_disable i x m t now :
      (i = id → x ≠ AS_Active) → statement id st (disable_account i x m t now st).2
  | ST_enable i now : i ≠ id → statement id st (enable_account i now st).2
  | ST_clear i now : statement id st (store_clear_rate_limit i now st).2
  | ST_clear_stale now : statement id st (clear_stale_rate_limit_fields now st).2
  | ST_delete i : statement id st (store_delete i st).2
  | ST_usage i u now : statement id st (store_update_usage i u now st).2
  | ST_telemetry i delta now : statement id st (increment_telemetry_count i delta now st).2.

Inductive select_step `{JsonText} (id : Z) : Selections → Selections → Prop :=
  | SE_row_cached s fl ch i now a :
      get_schedulable_cached i now (sa_store s) = Some a →
      select_step id (mkSelections s fl ch) (mkSelections s (IF_Row a :: fl) ch)
  | SE_row_read s fl ch i r st :
      get_by_id i (sa_store s) = (r, st) →
      select_step id (mkSelections s fl ch)
        (mkSelections (s <| sa_store := st |>)
           (match r with Ok a => IF_Row a :: fl | Err _ => fl end) ch)
  | SE_row_used s fl ch a i ex al mc c :
      IF_Row a ∈ fl → sticky_usable s a i ex al mc c = Done true →
      select_step id (mkSelections s fl ch) (mkSelections s fl (a :: ch))
  | SE_list_cached s fl ch now v :
      cached_accounts now (sa_store s) = Some v →
      select_step id (mkSelections s fl ch) (mkSelections s (IF_List v :: fl) ch)
  | SE_list_queried s fl ch r st :
      schedulable_query (sa_store s) = (r, st) →
      select_step id (mkSelections s fl ch)
        (mkSelections (s <| sa_store := st |>)
           (match r with Ok v => IF_List v :: fl | Err _ => fl end) ch)
  | SE_list_filled s fl ch filled v :
      IF_List v ∈ fl →
      select_step id (mkSelections s fl ch)
        (mkSelections (s <| sa_store := fill_schedulable filled v (sa_store s) |>) fl ch)
  | SE_list_used s fl ch v ex al mc clk draw cs a :
      IF_List v ∈ fl → select_candidates (sa_limits s) ex al mc clk v = Done cs →
      select_by_priority cs draw = Done a →
      select_step id (mkSelections s fl ch) (mkSelections s fl (a :: ch))
  | SE_statement s fl ch st :
      statement id (sa_store s) st →
      select_step id (mkSelections s fl ch) (mkSelections (s <| sa_store := st |>) fl ch)
  | SE_elsewhere s fl ch s' :
      sa_store s' = sa_store s → select_step id (mkSelections s fl ch) (mkSelections s' fl ch).

(** What is in flight does not offer the account. *)
Definition offers_not (id : Z) (x : InFlight) : Prop :=
  match x with
  | IF_Row a => acc_id a = id → is_schedulable a = false
  | IF_List v => ∀ a, a ∈ v → acc_status a = AS_Active ∧ acc_id a ≠ id
  end.

(** The account is out, and no later row can take its id. *)
Definition out (id : Z) (st : AccountStore) : Prop :=
  table_inv st ∧ barred id st ∧ id < as_next_id st.

Lemma out_frame id st st' :
  as_rows st' = as_rows st → as_cache st' = as_cache st → as_next_id st' = as_next_id st →
  out id st → out id st'.
Proof.
  intros E1 E2 E3 (Hi & Hb & Hn). split_and!; [|by eapply barred_frame|by rewrite E3].
  by eapply table_inv_frame.
Qed.

Lemma exec_barred id f st :
  barred id st →
  (∀ row, f (as_rows st) !! id = Some row → acc_status row ≠ AS_Active) →
  (barred id (exec f st).2 ∧ as_next_id (exec f st).2 = as_next_id st) ∧
  barred id (exec_invalidating f st).2 ∧ as_next_id (exec_invalidating f st).2 = as_next_id st.
Proof.
  intros [B1 B2] Hf. unfold exec_invalidating, exec.
  pose proof (next_fault_rows st) as (E1 & E2 & E3). destruct (next_fault st) as [[e|] s1]; simpl in *.
  - split_and!; [|done| |done]; by apply (barred_frame id st).
  - destruct s1; simpl in *; subst. by split_and!.
Qed.

Lemma update_row_barred id i f st :
  barred id st → (∀ row, i = id → acc_status (f row) = AS_Active → acc_status row = AS_Active) →
  (barred id (exec (update_row i f) st).2 ∧ as_next_id (exec (update_row i f) st).2 = as_next_id st) ∧
  barred id (exec_invalidating (update_row i f) st).2 ∧
  as_next_id (exec_invalidating (update_row i f) st).2 = as_next_id st.
Proof.
  intros Hb Hf. apply exec_barred; [done|]. intros row. unfold update_row.
  rewrite lookup_alter_Some. intros [(-> & b & Hrow & ->)|[_ Hrow]].
  - intros Ha. apply (ba_row _ _ Hb _ Hrow). by apply Hf.
  - by apply (ba_row _ _ Hb).
Qed.

Lemma create_barred id a now st :
  out id st → barred id (create a now st).2 ∧ id < as_next_id (create a now st).2.
Proof.
  intros (Hi & Hb & Hn). unfold create. pose proof (next_fault_rows st) as (E1 & E2 & E3).
  destruct (next_fault st) as [f s1]; simpl in *.
  pose proof (next_fault_rows s1) as (F1 & F2 & F3).
  assert (barred id s1) as Hb1 by by apply (barred_frame id st).
  case_match; [split; [done|]; simpl; lia|]. destruct (next_fault s1) as [[e|] s2]; simpl in *.
  - split; [by apply (barred_frame id s1)|]. lia.
  - destruct s2; simpl in *; subst. split; [|lia]. split; simpl; [|done].
    intros row. rewrite lookup_insert_ne by lia. apply (ba_row _ _ Hb1).
Qed.

Lemma statement_out `{JsonText} id st st' : statement id st st' → out id st → out id st'.
Proof.
  intros Hst Hout. pose proof Hout as (Hi & Hb & Hn).
  pose proof (table_inv_preserved st Hi) as (T1 & T2 & T3 & T4 & T5 & T6 & T7 & T8 & T9 & T10 & T11 & T12 & _).
  assert (∀ i f, (∀ row, i = id → acc_status (f row) = AS_Active → acc_status row = AS_Active) →
    (barred id (exec (update_row i f) st).2 ∧ id < as_next_id (exec (update_row i f) st).2) ∧
    barred id (exec_invalidating (update_row i f) st).2 ∧
    id < as_next_id (exec_invalidating (update_row i f) st).2) as Hup.
  { intros i f Hf. destruct (update_row_barred id i f st Hb Hf) as ([? ->] & ? & ->). by split_and!. }
  destruct Hst as [a now|a now Hs|i at' rt e now|i m now|i x now Hs|i t now|i x m t now Hs|i now Hne|
    i now|now|i|i u now|i delta now];
    (split; [by (auto || (apply update_row_inv; [by intros []|done]))|]);
    try (apply Hup; by intros []).
  - by apply create_barred.
  - apply Hup. intros row Hid Ha. destruct row. by destruct (Hs Hid).
  - apply Hup. intros row Hid Ha. destruct row. by destruct (Hs Hid).
  - apply Hup. intros row Hid Ha. destruct row. by destruct (Hs Hid).
  - unfold clear_stale_rate_limit_fields. pose proof (next_fault_rows st) as (E1 & E2 & E3).
    destruct (next_fault st) as [[e|] s1]; simpl in *; [split; [by apply (barred_frame id st)|lia]|].
    destruct s1; simpl in *; subst. split; [|done]. split; simpl; [|apply Hb].
    intros row. rewrite lookup_fmap_Some. intros (b & <- & Hrow) Ha.
    apply (ba_row _ _ Hb _ Hrow). destruct (_ && _); by destruct b.
  - unfold store_delete. destruct (exec_barred id (delete i) st Hb) as (_ & ? & ->); [|done].
    intros row. rewrite lookup_delete_Some. intros [_ Hrow]. by apply (ba_row _ _ Hb).
Qed.

Lemma select_step_out `{JsonText} id p p' :
  select_step id p p' →
  out id (sa_store (se_service p)) → (∀ x, x ∈ se_flight p → offers_not id x) →
  (∀ a, a ∈ se_chosen p → acc_id a ≠ id) →
  out id (sa_store (se_service p')) ∧ (∀ x, x ∈ se_flight p' → offers_not id x) ∧
  (∀ a, a ∈ se_chosen p' → acc_id a ≠ id).
Proof.
  intros Hst Hout Hfl Hch. pose proof Hout as (Hi & Hb & Hn).
  assert (∀ x fl, (∀ y, y ∈ fl → offers_not id y) → offers_not id x →
    ∀ y, y ∈ x :: fl → offers_not id y) as Hcons by (intros x fl ? ? y [->|?]%elem_of_cons; auto).
  destruct Hst as [s fl ch i now a Hg|s fl ch i r st Hg|s fl ch a i ex al mc c Hin Hu|s fl ch now v Hc|
    s fl ch r st Hq|s fl ch filled v Hin|s fl ch v ex al mc clk draw cs a Hin Hcs Ha|s fl ch st Hst|s fl ch s' E];
    cbn [se_service se_flight se_chosen] in *.
  - split_and!; [done| |done]. apply Hcons; [done|]. intros Hid. exfalso.
    unfold get_schedulable_cached in Hg. destruct (cached_accounts _ _) as [v|] eqn:Hc; [|done].
    cbn [mbind option_bind] in Hg. destruct (list_find _ v) as [[k b]|] eqn:Hf; simplify_eq/=.
    apply list_find_Some in Hf as (Hl%list_elem_of_lookup_2 & _ & _).
    unfold cached_accounts in Hc. destruct (as_cache _) as [[t w]|] eqn:Hcc; [|done].
    case_match; simplify_eq. by eapply (ba_cache _ _ Hb).
  - unfold get_by_id in Hg. destruct (next_fault_rows (sa_store s)) as (R & K & N).
    destruct (next_fault (sa_store s)) as [f st1]; simpl in *. injection Hg as <- <-.
    split_and!; [destruct s; by eapply out_frame| |done].
    destruct f; [done|]. rewrite R. destruct (as_rows (sa_store s) !! i) as [row|] eqn:Hrow; [|done].
    apply Hcons; [done|]. simpl. destruct (row_to_account_frame row) as (-> & _ & _). intros Hid.
    destruct (ti_id _ Hi _ _ Hrow) as [Hid2 _]. assert (i = id) as -> by congruence.
    pose proof (ba_row _ _ Hb _ Hrow) as Hne. unfold is_schedulable.
    apply bool_decide_eq_false. by destruct row.
  - split_and!; [done..|]. intros b [->|Hb2]%elem_of_cons; [|auto]. intros Hid.
    apply Hfl in Hin. simpl in Hin. unfold sticky_usable in Hu.
    destruct (availability _ _ _ _); [|done]. injection Hu as Hu. rewrite (Hin Hid) in Hu. done.
  - split_and!; [done| |done]. apply Hcons; [done|]. intros a Ha.
    unfold cached_accounts in Hc. destruct (as_cache _) as [[t w]|] eqn:Hcc; [|done].
    case_match; simplify_eq. split; [|by eapply (ba_cache _ _ Hb)].
    apply (ti_cache _ Hi), Forall_forall with (x := a) in Hcc; done.
  - unfold schedulable_query in Hq. destruct (next_fault_rows (sa_store s)) as (R & K & N).
    destruct (next_fault (sa_store s)) as [f st1]; simpl in *. injection Hq as <- <-.
    split_and!; [destruct s; by eapply out_frame| |done].
    destruct f; [done|]. apply Hcons; [done|]. intros a Ha.
    apply list_elem_of_fmap in Ha as (row & -> & Ha).
    apply list_elem_of_filter in Ha as [Hact [k Hk]%elem_of_ordered_rows]. rewrite R in Hk.
    destruct (row_to_account_frame row) as (-> & _ & _). split; [by destruct row|]. intros Hid.
    destruct (ti_id _ Hi _ _ Hk) as [Hid2 _]. assert (k = id) as -> by congruence.
    by apply (ba_row _ _ Hb _ Hk).
  - split_and!; [|done..]. apply Hfl in Hin. simpl in Hin.
    destruct Hi as [I1 I2], Hb as [B1 B2], s as [[] ? ? ?]; simpl in *.
    split_and!; [split|split|]; simpl; try done; intros t w [= <- <-].
    + apply Forall_forall. intros a Ha. by destruct (Hin a Ha).
    + intros a Ha. by destruct (Hin a Ha).
  - split_and!; [done..|]. intros b [->|Hb2]%elem_of_cons; [|auto].
    apply select_by_priority_spec in Ha as [Ha _]. apply select_candidates_spec in Hcs as [Hcs _].
    apply Hcs in Ha as [Ha _]. apply Hfl in Hin. by apply Hin.
  - split_and!; [|done..]. destruct s. by eapply statement_out.
  - by rewrite E.
Qed.

(** A selection that nothing interrupts is a sequence of these steps. *)
Lemma sticky_lookup_steps `{JsonText} id s i c o s' fl ch :
  sticky_lookup s i c = (o, s') →
  select_step id (mkSelections s fl ch)
    (mkSelections s' (match o with Some a => IF_Row a :: fl | None => fl end) ch).
Proof.
  unfold sticky_lookup. destruct (get_schedulable_cached i _ _) as [a|] eqn:Hg.
  - intros [= <- <-]. by eapply SE_row_cached.
  - destruct (get_by_id i (sa_store s)) as [r st] eqn:Hr. intros [= <- <-].
    pose proof (SE_row_read id s fl ch i r st Hr) as Hst. by destruct r.
Qed.

Lemma select_sticky_steps `{JsonText} id s h ex al mc c o s' fl ch :
  select_sticky s h ex al mc c = Done (o, s') →
  ∃ fl', rtc (select_step id) (mkSelections s fl ch)
           (mkSelections s' fl' (match o with Some a => a :: ch | None => ch end)).
Proof.
  unfold select_sticky. destruct (is_empty h); [intros [= <- <-]; by exists fl|].
  destruct (get_session_account_id _ _ _) as [bound cache].
  set (s1 := s <| sa_cache := cache |>).
  assert (rtc (select_step id) (mkSelections s fl ch) (mkSelections s1 fl ch)) as Hs1.
  { apply rtc_once, SE_elsewhere. by destruct s. }
  clearbody s1. destruct bound as [[i|]|]; try (intros [= <- <-]; by exists fl).
  destruct (0 <? i); [|intros [= <- <-]; by exists fl].
  destruct (sticky_lookup s1 i c) as [acc s2] eqn:Hl.
  apply (sticky_lookup_steps id _ _ _ _ _ fl ch) in Hl.
  set (fl2 := match acc with Some a => IF_Row a :: fl | None => fl end) in Hl.
  assert (rtc (select_step id) (mkSelections s fl ch) (mkSelections s2 fl2 ch)) as Hs2
    by by eapply rtc_r.
  assert (∀ s3, Done (None, s2 <| sa_cache := (delete_session h (sa_cache s2)).2 |>) = Done (o, s3) →
    ∃ fl', rtc (select_step id) (mkSelections s fl ch)
             (mkSelections s3 fl' (match o with Some a => a :: ch | None => ch end))) as Hun.
  { intros s3 [= <- <-]. exists fl2. eapply rtc_r; [done|]. apply SE_elsewhere. by destruct s2. }
  destruct acc as [a|]; [|apply Hun].
  destruct (sticky_usable s2 a i ex al mc c) as [[]|] eqn:Hu; [|apply Hun|done].
  intros [= <- <-]. exists fl2. eapply rtc_r; [done|]. eapply SE_row_used; [left|done].
Qed.

Lemma list_schedulable_steps `{JsonText} id s now filled v st fl ch :
  list_schedulable now filled (sa_store s) = (Ok v, st) →
  rtc (select_step id) (mkSelections s fl ch) (mkSelections (s <| sa_store := st |>) (IF_List v :: fl) ch).
Proof.
  unfold list_schedulable. destruct (cached_accounts now (sa_store s)) as [w|] eqn:Hc.
  - intros [= <- <-]. eapply rtc_l; [by eapply SE_list_cached|].
    apply rtc_once, SE_elsewhere. by destruct s.
  - destruct (schedulable_query (sa_store s)) as [r s1] eqn:Hq. destruct r as [w|]; [|done].
    intros [= <- <-]. eapply rtc_l; [by eapply SE_list_queried|].
    apply rtc_once. pose proof (SE_list_filled id (s <| sa_store := s1 |>) (IF_List w :: fl) ch filled w) as Hf.
    destruct s. apply Hf. left.
Qed.

Lemma select_account_steps `{JsonText} id s h ex al mc draw c a s' ch :
  select_account s h ex al mc draw c = Done (Ok a, s') →
  ∃ fl', rtc (select_step id) (mkSelections s [] ch) (mkSelections s' fl' (a :: ch)).
Proof.
  unfold select_account. destruct (select_sticky _ _ _ _ _ _) as [[o s1]|] eqn:Hst; [|done].
  apply (select_sticky_steps id _ _ _ _ _ _ _ _ [] ch) in Hst as [fl Hst]. cbn [mbind outcome_bind].
  destruct o as [b|]; [intros [= -> <-]; by exists fl|].
  destruct (list_schedulable _ _ _) as [[v|e] st] eqn:Hl; [|done].
  apply (list_schedulable_steps id _ _ _ _ _ fl ch) in Hl.
  set (s2 := s1 <| sa_store := st |>) in *. clearbody s2.
  destruct (select_candidates _ _ _ _ _ v) as [cs|] eqn:Hcs; [|done]. cbn [mbind outcome_bind].
  destruct cs as [|x xs]; [done|].
  destruct (select_by_priority (x :: xs) draw) as [b|] eqn:Hb; [|done]. cbn [mbind outcome_bind].
  intros [= -> <-]. exists (IF_List v :: fl). etrans; [exact Hst|]. etrans; [exact Hl|].
  eapply rtc_l; [eapply SE_list_used; [left|done..]|].
  apply rtc_once, SE_elsewhere. destruct (is_empty h); by destruct s2.
Qed.

(** C29: After disable_account succeeded for a stored account, no selection returns that
    account, however the steps of any selections (looking up the session's account, reading or
    querying the list, caching it, choosing from it), the statements of other tasks and changes
    of the cache and the limits interleave, as long as no statement activates the account again
    and no selection in flight still holds an answer that offers it, read before the account was
    disabled (what that does is the finding at account_store.rs:573). *)
Theorem disabled_never_selected `{JsonText} id status reason reset now s st row fl p :
  table_inv (sa_store s) → as_rows (sa_store s) !! id = Some row → status ≠ AS_Active →
  disable_account id status reason reset now (sa_store s) = (Ok tt, st) →
  (∀ x, x ∈ fl → offers_not id x) →
  rtc (select_step id) (mkSelections (s <| sa_store := st |>) fl []) p →
  ∀ a, a ∈ se_chosen p → acc_id a ≠ id.
Proof.
  intros Hi Hrow Hs Hd Hfl Hp. pose proof (disable_account_inv id status reason reset now _ Hi) as Hi'.
  rewrite Hd in Hi'.
  assert (out id st) as Hout.
  { split_and!; [done|by eapply disable_bars|]. destruct (ti_id _ Hi _ _ Hrow) as [_ Hn].
    unfold disable_account, exec_invalidating, exec in Hd.
    destruct (next_fault_rows (sa_store s)) as (_ & _ & E). destruct (next_fault _) as [[e|] s1]; [done|].
    injection Hd as <-. destruct s1. simpl in *. lia. }
  assert (out id (sa_store (s <| sa_store := st |>))) as Hout2 by by destruct s.
  assert (∀ p0, rtc (select_step id) p0 p → out id (sa_store (se_service p0)) →
    (∀ x, x ∈ se_flight p0 → offers_not id x) → (∀ a, a ∈ se_chosen p0 → acc_id a ≠ id) →
    ∀ a, a ∈ se_chosen p → acc_id a ≠ id) as Hrun.
  { induction 1 as [|p1 p2 p3 Hst _ IH]; [done|]. intros Ho Hf Hc.
    destruct (select_step_out _ _ _ Hst Ho Hf Hc) as (? & ? & ?). by apply IH. }
  apply (Hrun _ Hp); [done|done|]. intros a Ha. by apply elem_of_nil in Ha.
Qed.
End facts.

(** ** The list and a statement of another task *)

(** The query of one task, the disabling by another, and only then the first
    task's write of the cache. *)
(** When the query of the schedulable list runs before another task disables an account but
    its result is cached after, the disabled account is listed as active again for exactly the
    30 seconds that the cache lives. *)
Theorem stale_list_outlives_disable id row status reason reset t0 filled v st st1 st2 :
  table_inv st → as_rows st !! id = Some row → acc_status row = AS_Active → status ≠ AS_Active →
  schedulable_query st = (Ok v, st1) →
  disable_account id status reason reset t0 st1 = (Ok tt, st2) →
  let st3 := fill_schedulable filled v st2 in
  (∃ row', as_rows st3 !! id = Some row' ∧ acc_status row' = status) ∧
  ∀ now, (∃ a, listed now st3 a ∧ acc_id a = id) ↔ elapsed now filled < SCHEDULABLE_TTL.
Proof.
  intros Hi Hrow Hact Hs Hq Hd st3.
  assert (as_rows st1 = as_rows st) as R1.
  { unfold schedulable_query in Hq. destruct (next_fault_rows st) as (E1 & _).
    destruct (next_fault st) as [[e|] s1]; [done|]. by injection Hq as _ <-. }
  assert (∃ a, a ∈ v ∧ acc_id a = id) as (a & Ha & Hid).
  { unfold schedulable_query in Hq. destruct (next_fault_rows st) as (E1 & _).
    destruct (next_fault st) as [[e|] s1]; [done|]. simpl in *. injection Hq as <- <-.
    exists (row_to_account row). destruct (row_to_account_frame row) as (-> & _ & _).
    split; [|by apply (ti_id _ Hi)]. apply list_elem_of_fmap. exists row. split; [done|].
    apply list_elem_of_filter. split; [done|]. apply elem_of_ordered_rows. rewrite E1. eauto. }
  assert (∃ row', as_rows st2 !! id = Some row' ∧ acc_status row' = status) as (row' & Hr' & Hst').
  { unfold disable_account, exec_invalidating, exec in Hd.
    destruct (next_fault_rows st1) as (E1 & _). destruct (next_fault st1) as [[e|] s1]; [done|].
    simpl in *. injection Hd as <-. destruct s1; simpl in *. subst as_rows.
    unfold update_row. rewrite R1, lookup_alter_eq, Hrow. eexists. split; [done|].
    by destruct row. }
  assert (as_rows st3 = as_rows st2 ∧ as_cache st3 = Some (filled, v)) as [R3 C3] by by destruct st2.
  clearbody st3. split; [rewrite R3; eauto|].
  intros now. unfold listed, cached_accounts. rewrite C3, R3.
  destruct (Z.ltb_spec (elapsed now filled) SCHEDULABLE_TTL) as [Hlt|Hge].
  - split; [done|]. intros _. eauto.
  - split; [|lia]. intros (b & (rowb & Hb & Hbact & ->) & Hbid).
    rewrite Hbid, Hr' in Hb. simplify_eq.
Qed.

(** ** Sessions in the in-memory cache *)

Section memory.
Context `{Chrono} `{UnicodeCase}.
Implicit Types s : AccountService MemoryStore.

(** A first choice binds the session. *)
Lemma fresh_choice_binds s h ex al mc draw c a s1 :
  is_empty h = false →
  (Memory.get_session_account_id h (sk_session c) (sa_cache s)).1 = Ok None →
  select_account s h ex al mc draw c = Done (Ok a, s1) →
  ms_sessions (sa_cache s1) !! Memory.session_key h
    = Some (mkSessionEntry (acc_id a) (sk_bind c + STICKY_SESSION_TTL)).
Proof.
  intros Hh Hg. unfold select_account, select_sticky. rewrite Hh. cbn [get_session_account_id memory_cache_store].
  destruct (Memory.get_session_account_id _ _ _) as [bound cache]. simpl in Hg. subst bound.
  cbn [mbind outcome_bind].
  destruct (list_schedulable _ _ _) as [[v|e] st]; [|by intros [=]].
  destruct (select_candidates _ _ _ _ _ v) as [[|x xs]|]; [by intros [=]| |by intros [=]].
  cbn [mbind outcome_bind]. destruct (select_by_priority _ _) as [b|]; [|by intros [=]].
  cbn [mbind outcome_bind set_session_account_id memory_cache_store]. intros [= -> <-].
  unfold Memory.set_session_account_id. destruct s. simpl. destruct cache; simpl.
  apply lookup_insert_eq.
Qed.

(** A bound and usable account is returned, whatever else could be chosen. *)
Lemma bound_choice s h e ex al mc draw c b s' :
  is_empty h = false →
  ms_sessions (sa_cache s) !! Memory.session_key h = Some e →
  sk_session c ≤ se_expires_at e → 0 < se_account_id e →
  sticky_lookup s (se_account_id e) c = (Some b, s') →
  sticky_usable s' b (se_account_id e) ex al mc c = Done true →
  select_account s h ex al mc draw c = Done (Ok b, s').
Proof.
  intros Hh He Ht Hpos Hl Hu. unfold select_account, select_sticky. rewrite Hh.
  cbn [get_session_account_id memory_cache_store]. unfold Memory.get_session_account_id.
  rewrite He. destruct (Z.ltb_spec (se_expires_at e) (sk_session c)); [lia|].
  set (s1 := s <| sa_cache := sa_cache s |>). assert (s1 = s) as -> by by destruct s.
  destruct (Z.ltb_spec 0 (se_account_id e)); [|lia].
  rewrite Hl, Hu. done.
Qed.

(** C31: With the in-memory cache, a session that was bound by a first selection keeps its
    account for 24 hours: a later selection returns the bound account whenever it is still
    usable, whatever other sessions, slots and locks did in between. *)
Theorem session_affinity s s1 s2 s3 h ex al mc draw c a ops ex' al' mc' draw' c' b :
  is_empty h = false →
  (get_session_account_id h (sk_session c) (sa_cache s)).1 = Ok None →
  select_account s h ex al mc draw c = Done (Ok a, s1) → 0 < acc_id a →
  (* other tasks use the cache, but not this session's entry *)
  sa_cache s2 = Memory.run (sa_cache s1) ops →
  forallb (Memory.keeps_session h (sk_session c')) ops = true →
  sk_session c' ≤ sk_bind c + STICKY_SESSION_TTL →
  (* the account is still usable for the new request *)
  sticky_lookup s2 (acc_id a) c' = (Some b, s3) →
  sticky_usable s3 b (acc_id a) ex' al' mc' c' = Done true →
  select_account s2 h ex' al' mc' draw' c' = Done (Ok b, s3).
Proof.
  intros Hh Hg Hsel Hpos Hc Hk Ht Hl Hu.
  apply (bound_choice _ _ (mkSessionEntry (acc_id a) (sk_bind c + STICKY_SESSION_TTL)));
    [done| |done..].
  rewrite Hc. apply (MemoryFacts.run_keeps_session h (sk_session c')); [done| |done].
  by eapply fresh_choice_binds.
Qed.
End memory.
