(* ===== verification/AccountAuthFacts.v ===== *)
(** * AccountAuthFacts: credentials and usage queries

    A stored account holds the credentials of its own kind only; a token that
    is handed out is never one known to have expired; one task at a time asks
    the token endpoint; usage is queried at most once a minute. *)

From S2P Require Import Prelude Text F64 Json Http Model Cache Limit AccountStore Account.
From S2P Require Import AccountFacts.

(** ** Specification *)

(** The credentials of the other kind are gone. *)
Definition credentials_exclusive (a : Account) : Prop :=
  acc_auth_error a = "" ∧
  match acc_auth_type a with
  | AT_SetupToken =>
      is_empty (trim (acc_setup_token a)) = false ∧ acc_access_token a = "" ∧
      acc_refresh_token a = "" ∧ acc_expires_at a = None ∧ acc_oauth_refreshed_at a = None
  | AT_Oauth => acc_setup_token a = "" ∧ is_empty (trim (acc_refresh_token a)) = false
  end.

(** The row's own token, not empty and not expired at [now]. *)
Definition unexpired_token (now : DateTime) (row : Account) (t : string) : Prop :=
  t = acc_access_token row ∧ is_empty t = false ∧ ∃ e, acc_expires_at row = Some e ∧ now < e.

(** The clock readings that a resolution compares an expiry with. *)
Definition reads_clock (e : ResolveEnv) (now : DateTime) : Prop :=
  now = re_now e ∨ now = re_later e ∨ ∃ n, now = re_wait e n.

(** The row now holds the tokens that the endpoint gave for the refresh token it
    held before. *)
Definition tokens_stored (endpoint : TokenEndpoint) (id : Z) (st st' : AccountStore) (t : string)
    : Prop :=
  ∃ row tokens row', as_rows st !! id = Some row ∧
    endpoint (acc_refresh_token row) (acc_proxy_url row) = Ok tokens ∧
    t = ro_access_token tokens ∧ as_rows st' !! id = Some row' ∧
    acc_access_token row' = ro_access_token tokens ∧
    acc_refresh_token row' = ro_refresh_token tokens ∧ acc_auth_error row' = "" ∧
    as_cache st' = None.

(** The account table at some moment of a resolution: as it was, read, or changed by what
    other tasks do in the meantime. *)
Inductive later_table (others : nat → AccountStore → AccountStore) (st : AccountStore)
    : AccountStore → Prop :=
  | LT_now : later_table others st st
  | LT_read st1 st2 :
      later_table others st st1 → as_rows st2 = as_rows st1 → later_table others st st2
  | LT_others n st1 : later_table others st st1 → later_table others st (others n st1).

(** A token of the account [a] itself: its setup token; or its OAuth token, or that of its row in
    the table, not expired; or what the endpoint gave for the refresh token of its row. *)
Definition own_token (endpoint : TokenEndpoint) (st : AccountStore) (a : Account) (e : ResolveEnv)
    (t : string) : Prop :=
  match acc_auth_type a with
  | AT_SetupToken => t = acc_setup_token a ∧ is_empty t = false
  | AT_Oauth =>
      unexpired_token (re_now e) a t ∨
      ∃ st' row, later_table (re_others e) st st' ∧ as_rows st' !! acc_id a = Some row ∧
        ((∃ now, reads_clock e now ∧ unexpired_token now (row_to_account row) t) ∨
         ∃ tokens, endpoint (acc_refresh_token row) (acc_proxy_url row) = Ok tokens ∧
           t = ro_access_token tokens)
  end.

(** ** Credentials *)

Lemma is_empty_spec s : is_empty s = true ↔ s = "".
Proof. by destruct s. Qed.

(** normalize_account_auth keeps the credentials of the account's own kind and clears those
    of the other kind and the last error, is idempotent, and fails exactly when the required
    credential is blank, naming it. *)
Theorem normalized_credentials a :
  match normalize_account_auth a with
  | Ok b => credentials_exclusive b ∧ acc_auth_type b = acc_auth_type a ∧ acc_id b = acc_id a ∧
            normalize_account_auth b = Ok b
  | Err e => ∃ field, e = BadRequest (field +:+ " is required") ∧
      match acc_auth_type a with
      | AT_SetupToken => field = "setup_token" ∧ is_empty (trim (acc_setup_token a)) = true
      | AT_Oauth => field = "refresh_token" ∧ is_empty (trim (acc_refresh_token a)) = true
      end
  end.
Proof.
  destruct a. unfold normalize_account_auth, credentials_exclusive. simpl.
  destruct acc_auth_type; simpl.
  - destruct (is_empty (trim acc_setup_token)) eqn:He; simpl.
    + by exists "setup_token".
    + rewrite He. by split_and!.
  - destruct (is_empty (trim acc_refresh_token)) eqn:He; simpl.
    + by exists "refresh_token".
    + destruct (is_empty (trim acc_access_token)) eqn:Ha; simpl; rewrite He; simpl.
      * by split_and!.
      * rewrite Ha. by split_and!.
Qed.

Lemma has_valid_unexpired now a :
  has_valid_oauth_access_token now a OAUTH_REFRESH_BUFFER_SECONDS = true →
  unexpired_token now a (acc_access_token a).
Proof.
  unfold has_valid_oauth_access_token, unexpired_token.
  destruct (bool_decide _ || is_empty (acc_access_token a)) eqn:He; [done|].
  apply orb_false_elim in He as [_ He].
  destruct (acc_expires_at a) as [e|]; [|done]. intros Hlt. split_and!; [done..|].
  exists e. split; [done|]. unfold from_secs, OAUTH_REFRESH_BUFFER_SECONDS in Hlt. bool_prop. lia.
Qed.

Lemma get_by_id_spec id st r st' :
  get_by_id id st = (r, st') →
  as_rows st' = as_rows st ∧ as_cache st' = as_cache st ∧
  ∀ a, r = Ok a → ∃ row, as_rows st !! id = Some row ∧ a = row_to_account row.
Proof.
  unfold get_by_id. destruct (next_fault_rows st) as (R & K & _).
  destruct (next_fault st) as [[e|] st1]; simpl in *; intros [= <- <-]; [by split_and!|].
  split_and!; [done..|]. rewrite R. destruct (as_rows st !! id) as [row|]; [|done].
  intros a [= <-]. eauto.
Qed.

Lemma later_table_trans others st st1 st2 :
  later_table others st st1 → later_table others st1 st2 → later_table others st st2.
Proof.
  intros H1. induction 1 as [|st2 st3 ? IH E|n st2 ? IH]; [done| |by constructor].
  by apply (LT_read _ _ st2).
Qed.

Section auth.
Context {C : Type} `{CacheStore C}.
Implicit Types (s : AccountService C).

Lemma wait_for_token_spec n others s id now r s' :
  wait_for_token n others s id now = (r, s') →
  sa_cache s' = sa_cache s ∧
  ∀ t, r = Ok t → ∃ k st' row, later_table others (sa_store s) st' ∧
    as_rows st' !! id = Some row ∧ unexpired_token (now k) (row_to_account row) t.
Proof.
  revert s. induction n as [|n IH]; intros s; cbn [wait_for_token]; [by intros [= <- <-]|].
  assert (later_table others (sa_store s) (others n (sa_store s))) as L1 by by constructor 3; apply LT_now.
  set (s1 := s <| sa_store := others n (sa_store s) |>).
  assert (sa_cache s1 = sa_cache s ∧ sa_store s1 = others n (sa_store s)) as [<- E1] by by destruct s.
  rewrite <- E1 in L1. clearbody s1.
  destruct (get_by_id id (sa_store s1)) as [latest st] eqn:Hg.
  apply get_by_id_spec in Hg as (R & _ & Hrow).
  apply (LT_read _ _ _ st L1) in R as L2.
  set (s2 := s1 <| sa_store := st |>).
  assert (sa_cache s2 = sa_cache s1 ∧ sa_store s2 = st) as [<- E2] by by destruct s1.
  rewrite <- E2 in L2. clearbody s2.
  destruct latest as [latest|e]; [|by intros [= <- <-]].
  destruct (has_valid_oauth_access_token (now n) latest _) eqn:Hv.
  - intros [= <- <-]. split; [done|]. intros t [= <-].
    destruct (Hrow latest eq_refl) as (row & Hr & ->).
    exists n, (sa_store s1), row. split_and!; [done..|]. by apply has_valid_unexpired.
  - intros Hw. apply IH in Hw as [Hc Hw]. split; [done|]. intros t Ht.
    destruct (Hw t Ht) as (k & st' & row & L3 & Hr). exists k, st', row.
    split; [by eapply later_table_trans|done].
Qed.

Lemma refresh_oauth_spec endpoint s id now later r s' :
  refresh_oauth_access_token endpoint s id now later = (r, s') →
  sa_cache s' = sa_cache s ∧
  ∀ t, r = Ok t →
    (∃ row, as_rows (sa_store s) !! id = Some row ∧
       (unexpired_token now (row_to_account row) t ∨ unexpired_token later (row_to_account row) t)) ∨
    tokens_stored endpoint id (sa_store s) (sa_store s') t.
Proof.
  unfold refresh_oauth_access_token. destruct s as [st0 ca li cd]. cbn [sa_store sa_cache upd].
  destruct (get_by_id id st0) as [latest st] eqn:Hg.
  apply get_by_id_spec in Hg as (R & _ & Hrow).
  destruct latest as [latest|e]; [|by intros [= <- <-]].
  destruct (Hrow latest eq_refl) as (row & Hr & ->). clear Hrow.
  destruct (has_valid_oauth_access_token now (row_to_account row) _) eqn:Hv.
  { intros [= <- <-]. split; [done|]. intros t [= <-]. left.
    exists row. split; [done|]. left. by apply has_valid_unexpired. }
  destruct (is_empty _).
  { destruct (update_auth_error _ _ _ st) as [_r st2]. by intros [= <- <-]. }
  set (fallback := is_some_and _ _).
  destruct (endpoint _ _) as [tokens|err] eqn:Hep.
  - destruct (update_oauth_tokens _ _ _ _ _ st) as [ro st2] eqn:Hu. intros [= <- <-]. split; [done|]. intros t Ht. right.
    destruct ro as [[]|]; [|done]. injection Ht as <-.
    unfold update_oauth_tokens, exec_invalidating, exec in Hu.
    destruct (next_fault_rows st) as (E1 & _). destruct (next_fault st) as [[x|] st1]; [done|].
    apply pair_equal_spec in Hu as [_ <-]. destruct st1. simpl in *. subst.
    exists row, tokens. destruct row; simpl in *. eexists. split_and!; [done..| | | | |done].
    + unfold update_row. by rewrite R, lookup_alter_eq, Hr.
    + done.
    + done.
    + done.
  - destruct (update_auth_error _ _ _ st) as [_r st2]. intros [= <- <-]. split; [done|]. intros t Ht.
    destruct (fallback && negb (is_empty (acc_access_token (row_to_account row)))) eqn:Hf; [|done].
    injection Ht as <-. left. exists row. split; [done|]. right. unfold unexpired_token.
    apply andb_true_iff in Hf as [Hf1 Hf2]. unfold fallback in Hf1. bool_prop.
    split_and!; [done..|]. destruct (acc_expires_at (row_to_account row)) as [x|]; [|done].
    simpl in Hf1. bool_prop. eauto.
Qed.

(** A token that resolve_oauth_access_token hands out is either an unexpired, non-empty
    stored token at one of the clock readings of the resolution, or one that the endpoint just
    gave for the stored refresh token and that is now stored, together with its new refresh
    token, with the error cleared and the cached list dropped. *)
Theorem resolved_token_usable endpoint s account e t s' :
  resolve_oauth_access_token endpoint s account e = (Ok t, s') →
  (∃ now row, reads_clock e now ∧ unexpired_token now row t) ∨
  tokens_stored endpoint (acc_id account) (sa_store s) (sa_store s') t.
Proof.
  unfold resolve_oauth_access_token.
  destruct (has_valid_oauth_access_token (re_now e) account _) eqn:Hv.
  { intros [= <- <-]. left. exists (re_now e), account. split; [by left|].
    by apply has_valid_unexpired. }
  destruct (is_empty _). { by destruct (update_auth_error _ _ _ _). }
  destruct (acquire_lock _ _ _ _ _) as [acquired ca'].
  set (s1 := s <| sa_cache := ca' |>).
  assert (sa_store s1 = sa_store s) as <- by by destruct s. clearbody s1.
  destruct acquired as [[]|]; [| |by intros [=]].
  - destruct (refresh_oauth_access_token _ _ _ _ _) as [r s2] eqn:Hr.
    apply refresh_oauth_spec in Hr as [_ Hr]. intros [= -> <-].
    destruct (Hr t eq_refl) as [(row & _ & [Hu|Hu])|Hs]; [| |right; by destruct s2];
      left; (eexists _, _; split; [|exact Hu]); unfold reads_clock; auto.
  - intros Hw. apply wait_for_token_spec in Hw as [_ Hw].
    destruct (Hw t eq_refl) as (k & st' & row & _ & _ & Hu). left. eexists _, _. split; [|exact Hu].
    unfold reads_clock. eauto.
Qed.

(** Resolving a token never touches the limits. *)
Lemma wait_for_token_limits n others s id now r s' :
  wait_for_token n others s id now = (r, s') → sa_limits s' = sa_limits s.
Proof.
  revert s. induction n as [|n IH]; intros s; cbn [wait_for_token]; [by intros [= _ <-]|].
  destruct (get_by_id id _) as [latest st].
  destruct latest as [latest|]; [|intros [= _ <-]; by destruct s].
  destruct (has_valid_oauth_access_token _ _ _); [intros [= _ <-]; by destruct s|].
  intros ->%IH. by destruct s.
Qed.

Lemma refresh_oauth_limits endpoint s id now later r s' :
  refresh_oauth_access_token endpoint s id now later = (r, s') → sa_limits s' = sa_limits s.
Proof.
  unfold refresh_oauth_access_token. destruct (get_by_id id _) as [latest st].
  destruct latest as [latest|]; [|intros [= _ <-]; by destruct s].
  destruct (has_valid_oauth_access_token _ _ _); [intros [= _ <-]; by destruct s|].
  destruct (is_empty _); [destruct (update_auth_error _ _ _ _); intros [= _ <-]; by destruct s|].
  destruct (endpoint _ _); [destruct (update_oauth_tokens _ _ _ _ _ _)|destruct (update_auth_error _ _ _ _)];
    intros [= _ <-]; by destruct s.
Qed.

Lemma resolve_token_limits endpoint s a e r s' :
  resolve_upstream_token_with endpoint s a e = (r, s') → sa_limits s' = sa_limits s.
Proof.
  unfold resolve_upstream_token_with, resolve_oauth_access_token.
  destruct (acc_auth_type a); [destruct (is_empty _); by intros [= _ <-]|].
  destruct (has_valid_oauth_access_token _ _ _); [by intros [= _ <-]|].
  destruct (is_empty _); [destruct (update_auth_error _ _ _ _); intros [= _ <-]; by destruct s|].
  destruct (acquire_lock _ _ _ _ _) as [acquired ca].
  set (s1 := s <| sa_cache := ca |>).
  assert (sa_limits s1 = sa_limits s) as <- by by destruct s. clearbody s1.
  destruct acquired as [[]|]; [| |by intros [= _ <-]].
  - destruct (refresh_oauth_access_token _ _ _ _ _) as [r2 s2] eqn:Hr.
    apply refresh_oauth_limits in Hr as <-. intros [= _ <-]. by destruct s2.
  - apply wait_for_token_limits.
Qed.

(** A token that is resolved for an account is that account's own. *)
Lemma resolve_own_token endpoint s a e t s' :
  resolve_upstream_token_with endpoint s a e = (Ok t, s') → own_token endpoint (sa_store s) a e t.
Proof.
  unfold resolve_upstream_token_with, own_token. destruct (acc_auth_type a).
  { destruct (is_empty (acc_setup_token a)) eqn:He; [done|]. by intros [= <- <-]. }
  unfold resolve_oauth_access_token.
  destruct (has_valid_oauth_access_token (re_now e) a _) eqn:Hv.
  { intros [= <- <-]. left. by apply has_valid_unexpired. }
  destruct (is_empty _). { by destruct (update_auth_error _ _ _ _). }
  destruct (acquire_lock _ _ _ _ _) as [acquired ca'].
  set (s1 := s <| sa_cache := ca' |>).
  assert (sa_store s1 = sa_store s) as <- by by destruct s. clearbody s1.
  destruct acquired as [[]|]; [| |by intros [=]]; intros Hd; right.
  - destruct (refresh_oauth_access_token _ _ _ _ _) as [r s2] eqn:Hr.
    apply refresh_oauth_spec in Hr as [_ Hr]. injection Hd as -> <-.
    destruct (Hr t eq_refl) as [(row & Hrow & Hu)|(row & tokens & row' & Hrow & Ht)].
    + exists (sa_store s1), row. split_and!; [apply LT_now|done|]. left. unfold reads_clock.
      destruct Hu as [Hu|Hu]; eauto.
    + exists (sa_store s1), row. split_and!; [apply LT_now|done|]. right. exists tokens. naive_solver.
  - apply wait_for_token_spec in Hd as [_ Hw].
    destruct (Hw t eq_refl) as (k & st' & row & Hl & Hrow & Hu). exists st', row.
    split_and!; [done..|]. left. unfold reads_clock. eauto 6.
Qed.
End auth.

(** ** One refresh at a time, over the in-memory locks *)

(** C40: Over the in-memory locks, one task at a time refreshes an account's OAuth token: while
    another owner's lock has not expired, resolving a token neither asks the token endpoint nor
    touches the lock, and a task that found the lock free has released it when it returns, on
    every path. *)
Theorem refresh_single_flight (s : AccountService MemoryStore) account e :
  let key := oauth_lock_key (acc_id account) in
  let result endpoint := resolve_oauth_access_token endpoint s account e in
  match ms_locks (sa_cache s) !! key with
  | None =>
      (* the lock is free again afterwards *)
      ∀ endpoint, ms_locks (sa_cache (result endpoint).2) !! key = None
  | Some l =>
      (* another owner holds it: the endpoint is not asked and the lock stays *)
      re_lock e ≤ le_expires_at l →
      ∀ endpoint, result endpoint = result (λ _ _, Err NotFound) ∧
        sa_cache (result endpoint).2 = sa_cache s
  end.
Proof.
  intros key result. unfold result, resolve_oauth_access_token. fold key.
  cbn [acquire_lock release_lock memory_cache_store].
  unfold Memory.acquire_lock. destruct (ms_locks (sa_cache s) !! key) as [l|] eqn:Hl.
  - intros Ht endpoint. destruct (has_valid_oauth_access_token _ _ _); [done|].
    destruct (is_empty _).
    { destruct (update_auth_error _ _ _ _). by destruct s. }
    destruct (Z.leb_spec (re_lock e) (le_expires_at l)); [|lia]. split; [done|].
    destruct (wait_for_token _ _ _ _ _) as [r s'] eqn:Hw.
    apply wait_for_token_spec in Hw as [Hw _]. cbn [snd]. rewrite Hw. by destruct s.
  - intros endpoint. destruct (has_valid_oauth_access_token _ _ _); [done|].
    destruct (is_empty _).
    { destruct (update_auth_error _ _ _ _). by destruct s. }
    set (ca := (sa_cache s) <| ms_locks := _ |>).
    set (s1 := s <| sa_cache := ca |>).
    assert (sa_cache s1 = ca) as Hc by by destruct s. clearbody s1.
    destruct (refresh_oauth_access_token _ _ _ _ _) as [r s2] eqn:Hr.
    apply refresh_oauth_spec in Hr as [Hr _]. rewrite Hc in Hr.
    assert (ms_locks (Memory.release_lock key (re_owner e) (sa_cache s2)) !! key = None) as Hn.
    { rewrite Hr. unfold Memory.release_lock, ca. destruct s, sa_cache. simpl.
      rewrite lookup_insert_eq. simpl. rewrite String.eqb_refl. simpl. apply lookup_delete_eq. }
    by destruct s2.
Qed.

(** ** Usage queries *)

Section usage.
Context {C : Type} `{CacheStore C} `{Chrono} `{UnicodeCase} `{JsonText}.
Implicit Types (s : AccountService C).

(** While a cooldown runs, or a fresh result is stored, nothing is asked. *)
Lemma refresh_usage_cooling endpoint fetch s id utc now e until :
  sa_usage_cooldown s !! id = Some until → now < until →
  ∃ r s', refresh_usage endpoint fetch s id utc now e = Done (r, false, s').
Proof.
  intros Hc Hlt. unfold refresh_usage. destruct (get_by_id id (sa_store s)) as [r st].
  set (s1 := s <| sa_store := st |>).
  assert (sa_usage_cooldown s1 = sa_usage_cooldown s) as E by by destruct s. clearbody s1.
  destruct r as [a|]; [|eauto]. destruct (bool_decide _); [eauto|].
  destruct (usage_fresh utc a); [eauto|]. unfold usage_in_cooldown. rewrite E, Hc.
  destruct (Z.ltb_spec now until); [|lia]. eauto.
Qed.

Lemma refresh_usage_fresh endpoint fetch s id utc now e at' :
  (∀ row, as_rows (sa_store s) !! id = Some row → acc_usage_fetched_at row = Some at') →
  at' ≤ utc < at' + USAGE_FRESH_TTL →
  ∃ r s', refresh_usage endpoint fetch s id utc now e = Done (r, false, s').
Proof.
  intros Hrow Ht. unfold refresh_usage.
  destruct (get_by_id id (sa_store s)) as [r st] eqn:Hg. apply get_by_id_spec in Hg as (_ & _ & Hg).
  destruct r as [a|]; [|eauto]. destruct (Hg a eq_refl) as (row & Hr & ->).
  destruct (bool_decide _); [eauto|]. unfold usage_fresh.
  assert (acc_usage_fetched_at (row_to_account row) = Some at') as ->
    by (apply Hrow in Hr; by destruct row).
  simpl. destruct (Z.leb_spec 0 (utc - at')), (Z.ltb_spec (utc - at') USAGE_FRESH_TTL);
    try lia. eauto.
Qed.

Lemma store_update_usage_fetched id u now st st' :
  store_update_usage id u now st = (Ok tt, st') →
  ∀ row, as_rows st' !! id = Some row → acc_usage_fetched_at row = Some (fmt_time now).
Proof.
  unfold store_update_usage, exec. destruct (next_fault st) as [[x|] st1]; [done|].
  intros [= <-] row. destruct st1. simpl. unfold update_row. rewrite lookup_alter_eq.
  destruct (as_rows !! id) as [b|]; [|done]. intros [= <-]. by destruct b.
Qed.

Lemma store_update_usage_err id u now st err st' :
  store_update_usage id u now st = (Err err, st') → ∃ m, err = Internal m.
Proof.
  unfold store_update_usage, exec. destruct (next_fault_faults st) as [_ Hf].
  destruct (next_fault st) as [[x|] st1]; [|done]. intros [= <- _].
  destruct (Hf x eq_refl) as (m & -> & _). eauto.
Qed.

(** After the usage endpoint was asked, it is not asked again for a minute: for 60 seconds
    after a 429 whatever happens to the table, and for 60 seconds after a stored success while
    the row keeps it. *)
Theorem usage_asked_once_a_minute endpoint fetch s id utc now e r s1 :
  refresh_usage endpoint fetch s id utc now e = Done (r, true, s1) →
  match r with
  | Err (TooManyRequests _) =>
      (* answered 429: a minute of silence, whatever happens to the table *)
      ∀ s2 endpoint' fetch' utc' now' e',
        sa_usage_cooldown s2 = sa_usage_cooldown s1 → now' < now + USAGE_429_COOLDOWN →
        ∃ r' s3, refresh_usage endpoint' fetch' s2 id utc' now' e' = Done (r', false, s3)
  | Ok _ =>
      (* answered: a minute of the stored result, while the row keeps it *)
      ∀ s2 endpoint' fetch' utc' now' e',
        as_rows (sa_store s2) = as_rows (sa_store s1) → fmt_time utc ≤ utc' →
        utc' < fmt_time utc + USAGE_FRESH_TTL →
        ∃ r' s3, refresh_usage endpoint' fetch' s2 id utc' now' e' = Done (r', false, s3)
  | Err _ => True
  end.
Proof.
  unfold refresh_usage at 1. destruct (get_by_id id (sa_store s)) as [ra st].
  destruct ra as [a|]; [|by intros [=]]. destruct (bool_decide _); [by intros [=]|].
  destruct (usage_fresh utc a); [by intros [=]|].
  destruct (usage_in_cooldown _ id now) as [[] s2]; [by intros [=]|].
  destruct (resolve_oauth_access_token _ _ _ _) as [[t|] s3]; [|by intros [=]].
  destruct (fetch t (acc_proxy_url a)) as [usage|err].
  - destruct (store_update_usage id _ utc (sa_store s3)) as [[[]|err] st4] eqn:Hu.
    + set (s4 := s3 <| sa_store := st4 |>).
      assert (sa_store s4 = st4) as E by by destruct s3. clearbody s4.
      destruct (ingest_usage_json _ id usage now) as [[o|] limits]; cbn [mbind outcome_bind];
        [|by intros [=]]. intros [= <- <-]. intros s5 ep ft utc' now' e' Hr Hlo Hhi.
      apply refresh_usage_fresh with (at' := fmt_time utc); [|lia].
      intros row. rewrite Hr. destruct s4. simpl in *. subst.
      by apply (store_update_usage_fetched _ _ _ _ _ Hu).
    + intros [= <- <-]. apply store_update_usage_err in Hu as [m ->]. done.
  - intros [= <- <-]. destruct err; try done. intros s5 ep ft utc' now' e' Hc Hlt.
    apply refresh_usage_cooling with (until := now + USAGE_429_COOLDOWN); [|done].
    rewrite Hc. unfold mark_usage_cooldown. destruct s3. simpl. apply lookup_insert_eq.
Qed.
End usage.
