(* ===== verification/GatewayHeaders.v ===== *)
(** * GatewayHeaders: the pure parts of the gateway (src/src/service/gateway.rs)

    The upstream URL, what is read out of request and response headers, the
    headers that are kept from the client, and the generic error responses.
    Of src/src/service/rewriter.rs: the classification of paths and clients. *)

From S2P Require Import Prelude Text F64 Json Http Model UsageParse Account.

Definition UPSTREAM_BASE : string := "https://api.anthropic.com".

(** ** src/src/service/rewriter.rs *)

Inductive MessageEndpoint := ME_Inference | ME_CountTokens | ME_Other.

#[export] Instance MessageEndpoint_eq_dec : EqDecision MessageEndpoint.
Proof. solve_decision. Defined.

Definition classify_message_endpoint (path : string) : MessageEndpoint :=
  if String.eqb path "/v1/messages" then ME_Inference
  else if String.eqb path "/v1/messages/count_tokens" then ME_CountTokens
  else ME_Other.

Definition is_event_batch_path (path : string) : bool :=
  String.eqb path "/api/event_logging/batch" || String.eqb path "/api/event_logging/v2/batch".

(** A user agent that was read from a header is ASCII, on which the Unicode
    lower case is the ASCII one. *)
Definition detect_client_type (user_agent : string) (body : Value) : ClientType :=
  let ua_lower := to_ascii_lowercase user_agent in
  if starts_with "claude-code/" ua_lower || starts_with "claude-cli/" ua_lower then CT_ClaudeCode
  else
    match vget body "metadata" ≫= as_object with
    | Some metadata => if opt_is_some (metadata !! "user_id") then CT_ClaudeCode else CT_API
    | None => CT_API
    end.

Definition clean_session_id_from_body (body : Value) : Value :=
  match body with
  | VObject m =>
      match m !! "metadata" ≫= as_object with
      | Some metadata => VObject (<["metadata" := VObject (delete "_session_id" metadata)]> m)
      | None => body
      end
  | _ => body
  end.

(** ** src/src/service/telemetry.rs *)

Definition is_telemetry_path (path : string) : bool :=
  is_event_batch_path path || starts_with "/api/eval/" path
  || starts_with "/api/claude_code/metrics" path
  || starts_with "/api/claude_code/organizations/metrics_enabled" path.

Definition fake_metrics_enabled_response : Value :=
  VObject {["metrics_logging_enabled" := VBool true]}.

Definition fake_telemetry_response : Value := VObject ∅.

(** ** Requests *)

Definition target_url (path query : string) : string :=
  let url := UPSTREAM_BASE +:+ path in
  if negb (is_empty query) then
    let q := if contains "beta=true" query then query else query +:+ "&beta=true" in
    url +:+ "?" +:+ q
  else url +:+ "?beta=true".

(** The headers whose value is text; of several under one name, the last. *)
Definition extract_headers (headers : HeaderMap) : gmap string string :=
  foldl (λ map '(k, v), match to_str v with Some val => <[k := val]> map | None => map end)
    ∅ headers.

(** The method of the upstream request. *)
Definition upstream_method (method : string) : string :=
  if existsb (String.eqb method) ["GET"; "POST"; "PUT"; "DELETE"; "PATCH"] then method else "POST".

(** ** Responses *)

Definition upstream_request_id (headers : HeaderMap) : option string :=
  opt_filter (λ value, negb (is_empty value))
    (trim <$> (opt_or (hget headers "request-id") (hget headers "x-request-id") ≫= to_str)).

Definition usage_response_is_stream (headers : HeaderMap) (request_is_stream : bool) : bool :=
  match hget headers "content-type" ≫= to_str with
  | Some content_type =>
      match split_on ";" content_type with
      | value :: _ => String.eqb (to_ascii_lowercase (trim value)) "text/event-stream"
      | [] => false
      end
  | None => request_is_stream
  end.

Definition usage_content_encoding (headers : HeaderMap) : UsageContentEncoding :=
  match hget_all headers "content-encoding" with
  | [] => CE_Identity
  | [value] =>
      match to_str value with
      | Some value => content_encoding_parse (Some value)
      | None => CE_Unsupported
      end
  | _ :: _ :: _ => CE_Unsupported
  end.

Definition GATEWAY_HEADER_PREFIXES : list string :=
  ["x-litellm-"; "helicone-"; "x-portkey-"; "cf-aig-"; "x-kong-"; "x-bt-"].

Definition is_gateway_fingerprint_header (name : string) : bool :=
  let lower := to_ascii_lowercase name in
  existsb (λ p, starts_with p lower) GATEWAY_HEADER_PREFIXES.

(** The headers that go on to the client, in order. *)
Definition forwarded_headers (headers : HeaderMap) : HeaderMap :=
  filter (λ kv, is_gateway_fingerprint_header kv.1 = false) headers.

(** ** Generic errors *)

Definition dq : string := String "034" "".

(** An Anthropic error body. *)
Definition error_text (kind message : string) : string :=
  let quoted s := dq +:+ s +:+ dq in
  "{" +:+ quoted "type" +:+ ":" +:+ quoted "error" +:+ "," +:+ quoted "error" +:+ ":{"
  +:+ quoted "type" +:+ ":" +:+ quoted kind +:+ "," +:+ quoted "message" +:+ ":"
  +:+ quoted message +:+ "}}".

Definition GENERIC_429_BODY : string :=
  error_text "rate_limit_error" "Rate limit reached, please retry shortly.".

Definition GENERIC_5XX_BODY : string :=
  error_text "api_error" "Upstream error, please retry shortly.".

(** What described the old body. *)
Definition is_body_header (name : string) : bool :=
  existsb (String.eqb name) ["content-length"; "content-type"; "content-encoding"].

Definition is_trace_header (name : string) : bool :=
  existsb (String.eqb name) ["x-request-id"; "request-id"; "cf-ray"; "server"; "via"].

Definition wrap_429_headers (headers : HeaderMap) : HeaderMap :=
  filter (λ kv, is_body_header kv.1 = false) headers ++ [("content-type", "application/json")].

Definition wrap_5xx_headers (headers : HeaderMap) : HeaderMap :=
  filter (λ kv, is_body_header (to_ascii_lowercase kv.1)
                || is_trace_header (to_ascii_lowercase kv.1) = false) headers
  ++ [("content-type", "application/json")].

(** ** src/src/middleware/auth.rs *)

(** The key of a request: [x-api-key], or a bearer token. *)
Definition extract_key (headers : HeaderMap) : string :=
  default ""
    (opt_or (hget headers "x-api-key" ≫= to_str)
            ((hget headers "Authorization" ≫= to_str) ≫= strip_prefix "Bearer ")).
