(* ===== verification/Rewriter.v ===== *)
(** * Rewriter: rewriting request headers (src/src/service/rewriter.rs)

    A request is made to look like one of the official client at the account's
    canonical environment: which beta tokens it names, which of the client's
    headers go on, how they are spelled and which values are replaced. The
    bodies are in RewriteBody.v. Random bytes are arguments. *)

From S2P Require Import Prelude Text F64 Json Http Model Identity Account GatewayHeaders.

(** ** Header spelling *)

Definition HEADER_WIRE_CASING : gmap string string :=
  list_to_map
    [("accept", "Accept"); ("user-agent", "User-Agent");
     ("x-stainless-retry-count", "X-Stainless-Retry-Count");
     ("x-stainless-timeout", "X-Stainless-Timeout"); ("x-stainless-lang", "X-Stainless-Lang");
     ("x-stainless-package-version", "X-Stainless-Package-Version");
     ("x-stainless-os", "X-Stainless-OS"); ("x-stainless-arch", "X-Stainless-Arch");
     ("x-stainless-runtime", "X-Stainless-Runtime");
     ("x-stainless-runtime-version", "X-Stainless-Runtime-Version");
     ("x-stainless-helper-method", "x-stainless-helper-method");
     ("anthropic-dangerous-direct-browser-access", "anthropic-dangerous-direct-browser-access");
     ("anthropic-version", "anthropic-version"); ("anthropic-beta", "anthropic-beta");
     ("x-app", "x-app"); ("content-type", "content-type");
     ("accept-language", "accept-language"); ("sec-fetch-mode", "sec-fetch-mode");
     ("accept-encoding", "accept-encoding"); ("authorization", "authorization");
     ("x-claude-code-session-id", "X-Claude-Code-Session-Id");
     ("x-client-request-id", "x-client-request-id"); ("content-length", "content-length")].

(** A header name is ASCII, on which the Unicode lower case is the ASCII one. *)
Definition resolve_wire_casing (key : string) : string :=
  default key (HEADER_WIRE_CASING !! to_ascii_lowercase key).

(** ** Beta tokens *)

(** The trimmed tokens of the sources that are not empty, each once. *)
Fixpoint fresh_tokens (seen l : list string) : list string :=
  match l with
  | [] => []
  | token :: l =>
      let token := trim token in
      if negb (is_empty token) && negb (bool_decide (token ∈ seen))
      then token :: fresh_tokens (token :: seen) l else fresh_tokens seen l
  end.

Definition merge_anthropic_beta (required incoming : string) : string :=
  join "," (fresh_tokens [] (split_on "," incoming ++ split_on "," required)).

Definition strip_suffix (p s : string) : option string :=
  String.rev <$> strip_prefix (String.rev p) (String.rev s).

Definition strip_1m_suffix (model_id : string) : string * bool :=
  match strip_suffix "[1m]" model_id with
  | Some stripped => (stripped, true)
  | None => (model_id, false)
  end.

Definition request_has_active_thinking (body : Value) : bool :=
  is_some_and ((vget body "thinking" ≫= λ v, vget v "type") ≫= as_str)
    (λ kind, negb (String.eqb kind "disabled")).

Definition request_has_effort (body : Value) : bool :=
  opt_is_some ((vget body "output_config" ≫= λ v, vget v "effort") ≫= as_str)
  || opt_is_some (get_str body "effort").

(** [if b { out.push(x) }]. *)
Definition push_if (b : bool) (x : string) : list string := if b then [x] else [].

Definition compute_betas_for_request (model_id : string) (body : Value) : list string :=
  let '(base, needs_1m) := strip_1m_suffix model_id in
  let lower := to_ascii_lowercase base in
  let is_haiku := contains "haiku" lower in
  let is_claude3 := contains "claude-3-" lower in
  let supports_context_management :=
    negb is_claude3
    && (contains "claude-opus-4" lower || contains "claude-opus-5" lower
        || contains "claude-sonnet-4" lower || contains "claude-sonnet-5" lower
        || contains "claude-haiku-4" lower || contains "claude-fable-5" lower) in
  let has_thinking := request_has_active_thinking body in
  let has_effort := request_has_effort body in
  push_if (negb is_haiku) "claude-code-20250219"
  ++ ["oauth-2025-04-20"]
  ++ push_if (negb is_claude3) "interleaved-thinking-2025-05-14"
  ++ push_if needs_1m "context-1m-2025-08-07"
  ++ push_if has_thinking "thinking-token-count-2026-05-13"
  ++ push_if supports_context_management "context-management-2025-06-27"
  ++ ["prompt-caching-scope-2026-01-05"]
  ++ push_if (is_haiku && supports_context_management) "claude-code-20250219"
  ++ push_if (has_effort && negb is_haiku) "mid-conversation-system-2026-04-07"
  ++ push_if (has_effort && negb is_haiku) "effort-2025-11-24"
  ++ ["cache-diagnosis-2026-04-07"].

Definition compute_betas_for_model (model_id : string) : list string :=
  compute_betas_for_request model_id (VObject ∅).

Definition beta_header_for_request (model_id : string) (body : Value) : string :=
  join "," (compute_betas_for_request model_id body).

(** ** The user agent *)

(** The text from its first white space on. *)
Fixpoint from_white_space (s : string) : string :=
  match s with
  | EmptyString => EmptyString
  | String a s1 =>
      if ws1 a then s
      else match s1 with
           | String b s2 =>
               if ws2 a b then s
               else match s2 with
                    | String c _ => if ws3 a b c then s else from_white_space s1
                    | EmptyString => from_white_space s1
                    end
           | EmptyString => EmptyString
           end
  end.

Definition cli_user_agent (version : string) : string :=
  "claude-cli/" +:+ version +:+ " (external, cli)".

Definition rewrite_claude_user_agent (incoming version : string) : string :=
  match strip_prefix "claude-cli/" incoming with
  | Some rest => "claude-cli/" +:+ version +:+ from_white_space rest
  | None =>
      match strip_prefix "claude-code/" incoming with
      | Some rest => "claude-code/" +:+ version +:+ from_white_space rest
      | None => cli_user_agent version
      end
  end.

(** ** Identifiers *)

Definition bytes_to_string (l : list Z) : string :=
  foldr (λ b s, String (ascii_of_N (Z.to_N b)) s) "" l.

(** [hex::encode(&b[from..to])] of the five groups of a UUID. *)
Definition uuid_text `{Digest} (b : string) : string :=
  join "-" (map (λ p : nat * nat, hex_encode (String.substring p.1 p.2 b))
    [(0, 4); (4, 2); (6, 2); (8, 2); (10, 6)]%nat).

(** [b]: the 16 random bytes. *)
Definition generate_session_uuid `{Digest} (b : list Z) : string :=
  let b := alter (λ x, Z.lor (Z.land x 15) 64) 6%nat b in
  let b := alter (λ x, Z.lor (Z.land x 63) 128) 8%nat b in
  uuid_text (bytes_to_string b).

Definition derive_account_uuid `{Digest} (account : Account) : string :=
  let seed :=
    if is_empty (acc_email account) then "account-" +:+ int_to_string (acc_id account)
    else acc_email account in
  uuid_text (sha256 seed).

Definition extract_session_id_from_body (body : Value) : option string :=
  (vget body "metadata" ≫= λ m, vget m "_session_id") ≫= as_str.

Definition stainless_os_from_platform (platform : string) : string :=
  if String.eqb platform "darwin" then "MacOS"
  else if String.eqb platform "win32" then "Windows" else "Linux".

(** ** [rewrite_headers] *)

Definition ALLOWED_HEADERS : list string :=
  ["accept"; "user-agent"; "content-type"; "accept-encoding"; "accept-language";
   "anthropic-beta"; "anthropic-version"; "anthropic-dangerous-direct-browser-access"; "x-app";
   "sec-fetch-mode"; "x-stainless-retry-count"; "x-stainless-timeout"; "x-stainless-lang";
   "x-stainless-package-version"; "x-stainless-os"; "x-stainless-arch"; "x-stainless-runtime";
   "x-stainless-runtime-version"; "x-stainless-helper-method"; "x-claude-code-session-id";
   "x-client-request-id"].

Definition is_allowed_header (lower : string) : bool := existsb (String.eqb lower) ALLOWED_HEADERS.

(** [entry(k).or_insert(v)]. *)
Definition or_insert (k v : string) (m : gmap string string) : gmap string string :=
  match m !! k with Some _ => m | None => <[k := v]> m end.

(** The random bytes of the two identifiers that a request may need. *)
Record HeaderDraws := mkHeaderDraws { hd_session : list Z; hd_request : list Z }.

Definition ACCEPT_ENCODINGS : string := "gzip, deflate, br, zstd".

Definition api_headers `{Digest} (env : CanonicalEnvData) (required_betas : string)
    (body_map : Value) (d : HeaderDraws) : gmap string string :=
  let out := <["Accept" := "application/json"]> ∅ in
  let out := <["User-Agent" := cli_user_agent (ce_version env)]> out in
  let out := <["anthropic-beta" := required_betas]> out in
  let out := <["anthropic-version" := "2023-06-01"]> out in
  let out := <["anthropic-dangerous-direct-browser-access" := "true"]> out in
  let out := <["x-app" := "cli"]> out in
  let out := <["content-type" := "application/json"]> out in
  let out := <["accept-encoding" := ACCEPT_ENCODINGS]> out in
  let out := <["X-Stainless-Lang" := "js"]> out in
  let out := <["X-Stainless-Package-Version" := CLAUDE_CODE_STAINLESS_VERSION]> out in
  let out := <["X-Stainless-OS" := stainless_os_from_platform (ce_platform env)]> out in
  let out := <["X-Stainless-Arch" := ce_arch env]> out in
  let out := <["X-Stainless-Runtime" := "node"]> out in
  let out := <["X-Stainless-Runtime-Version" := ce_node_version env]> out in
  let out := <["X-Stainless-Retry-Count" := "0"]> out in
  let out := <["X-Stainless-Timeout" := "600"]> out in
  let session_id :=
    default (generate_session_uuid (hd_session d)) (extract_session_id_from_body body_map) in
  let out := <["X-Claude-Code-Session-Id" := session_id]> out in
  <["x-client-request-id" := generate_session_uuid (hd_request d)]> out.

(** What an allowed header of the client becomes. *)
Definition client_header (env : CanonicalEnvData) (lower v : string) : string :=
  if String.eqb lower "user-agent" then rewrite_claude_user_agent v (ce_version env)
  else if String.eqb lower "x-stainless-os" then stainless_os_from_platform (ce_platform env)
  else if String.eqb lower "x-stainless-package-version" then CLAUDE_CODE_STAINLESS_VERSION
  else if String.eqb lower "x-stainless-arch" then ce_arch env
  else if String.eqb lower "x-stainless-runtime-version" then ce_node_version env
  else v.

Definition copy_header (env : CanonicalEnvData) (out : gmap string string)
    (kv : string * string) : gmap string string :=
  let lower := to_ascii_lowercase kv.1 in
  if is_allowed_header lower
  then <[resolve_wire_casing kv.1 := client_header env lower kv.2]> out else out.

Definition client_headers `{Digest} (headers : list (string * string)) (env : CanonicalEnvData)
    (required_betas : string) (body_map : Value) (d : HeaderDraws) : gmap string string :=
  let out := foldl (copy_header env) ∅ headers in
  let out := or_insert "Accept" "application/json" out in
  let out := or_insert "content-type" "application/json" out in
  let out := or_insert "accept-encoding" ACCEPT_ENCODINGS out in
  let out := or_insert "anthropic-version" "2023-06-01" out in
  let out := or_insert "anthropic-dangerous-direct-browser-access" "true" out in
  let out := or_insert "x-app" "cli" out in
  let out := or_insert "X-Stainless-Lang" "js" out in
  let out := <["X-Stainless-Package-Version" := CLAUDE_CODE_STAINLESS_VERSION]> out in
  let out := <["X-Stainless-OS" := stainless_os_from_platform (ce_platform env)]> out in
  let out := <["X-Stainless-Arch" := ce_arch env]> out in
  let out := or_insert "X-Stainless-Runtime" "node" out in
  let out := <["X-Stainless-Runtime-Version" := ce_node_version env]> out in
  let out := or_insert "X-Stainless-Retry-Count" "0" out in
  let out := or_insert "X-Stainless-Timeout" "600" out in
  let out := or_insert "User-Agent" (cli_user_agent (ce_version env)) out in
  let session_id :=
    default (generate_session_uuid (hd_session d)) (extract_session_id_from_body body_map) in
  let out := or_insert "X-Claude-Code-Session-Id" session_id out in
  let out := or_insert "x-client-request-id" (generate_session_uuid (hd_request d)) out in
  let existing_beta := default "" (out !! "anthropic-beta") in
  <["anthropic-beta" := merge_anthropic_beta required_betas existing_beta]> out.

(** The client's headers come in the order of its [HashMap], which is any. *)
Definition rewrite_headers `{Digest} (headers : gmap string string) (account : Account)
    (client_type : ClientType) (model_id : string) (body_map : Value) (d : HeaderDraws)
    : gmap string string :=
  let env := parse_canonical_env (acc_canonical_env account) in
  let required_betas := beta_header_for_request model_id body_map in
  if bool_decide (client_type = CT_API) then api_headers env required_betas body_map d
  else client_headers (map_to_list headers) env required_betas body_map d.
