(* ===== verification/RewriteBody.v ===== *)
(** * RewriteBody: rewriting request bodies (src/src/service/rewriter.rs)

    Message requests, event batches, feature-flag queries and everything else,
    each with the account's identity in place of the client's; the billing
    fingerprint and the attestation over the serialized body. The regular
    expression engine, base64 and xxHash are interfaces; the patterns are those
    of the code. *)

From S2P Require Import Prelude Text F64 Json Http Model Identity Account GatewayHeaders Rewriter.

(** ** Interfaces *)

(** A match: where it is, and the text of its first group. *)
Record Captures := mkCaptures { cap_start : nat; cap_end : nat; cap_group1 : string }.

(** The [regex] crate: the matches of a pattern, and the text that a replacement
    template stands for. *)
Class RegexEngine := {
  captures_iter : string → string → list Captures;
  regex_expand : string → Captures → string → string;
}.

(** What the crate documents of the matches: in order, apart, inside the text. *)
Fixpoint spans_from (n : nat) (text : string) (l : list Captures) : Prop :=
  match l with
  | [] => True
  | c :: l =>
      (n ≤ cap_start c ≤ cap_end c)%nat ∧ (cap_end c ≤ String.length text)%nat
      ∧ spans_from (cap_end c) text l
  end.

Class RegexLaws `{RegexEngine} : Prop :=
  captures_spans pattern text : spans_from 0 text (captures_iter pattern text).

(** The standard alphabet of the [base64] crate, and xxHash64 with a seed. *)
Class BodyCodecs := {
  base64_decode : string → option string;
  base64_encode : string → string;
  xxh64 : string → Z → Z;
}.

Section regex.
Context `{RegexEngine}.

Definition cap_text (text : string) (c : Captures) : string :=
  String.substring (cap_start c) (cap_end c - cap_start c) text.

(** The text from [n] on, with its matches replaced. *)
Fixpoint splice (f : Captures → string) (n : nat) (text : string) (l : list Captures) : string :=
  match l with
  | [] => String.substring n (String.length text - n) text
  | c :: l =>
      String.substring n (cap_start c - n) text +:+ f c +:+ splice f (cap_end c) text l
  end.

(** [Regex::replace_all] with a closure and with a template, [is_match], [find]. *)
Definition replace_all_with (pattern text : string) (f : Captures → string) : string :=
  splice f 0 text (captures_iter pattern text).

Definition replace_all (pattern text template : string) : string :=
  replace_all_with pattern text (λ c, regex_expand text c template).

Definition regex_is_match (pattern text : string) : bool :=
  match captures_iter pattern text with [] => false | _ => true end.

Definition regex_find (pattern text : string) : option string :=
  cap_text text <$> head (captures_iter pattern text).
End regex.

(** ** The patterns *)

Definition PLATFORM_REGEX : string := "Platform:\s*\S+".
Definition SHELL_REGEX : string := "Shell:\s*[^\n<]+".
Definition OS_VERSION_REGEX : string := "OS Version:\s*[^\n<]+".
Definition WORKING_DIR_REGEX : string := "((?:Primary )?[Ww]orking directory:\s*)/\S+".
Definition PROMPT_HOME_PREFIX_REGEX : string := "^/(?:Users|home)/[^/\s]+/".
Definition HOME_PATH_REGEX : string := "/(?:Users|home)/[^/\s]+/".
Definition BILLING_LINE_REGEX : string := "(?m)^\s*x-anthropic-billing-header:[^\n]*\n?".
Definition BILLING_REGEX : string := "cc_version=[\d.]+\.[a-f0-9]{3};[^;]*;?".
Definition BILLING_VERSION_REGEX : string := "cc_version=[\d.]+\.[a-f0-9]{3}".
Definition CCH_VALUE_REGEX : string := "cch=[a-f0-9]{5}".
Definition GIT_USER_REGEX : string := "Git user:\s*[^\n]+".
Definition SYSTEM_REMINDER_REGEX : string := "(?s)<system-reminder>(.*?)</system-reminder>".

(** ** Text helpers of the standard library *)

(** [format!("{:x}")] of a non-negative number below 2^64. *)
Definition hex_char (d : Z) : ascii :=
  ascii_of_N (Z.to_N (if d <? 10 then 48 + d else 87 + d)).

Fixpoint hex_digits (fuel : nat) (z : Z) (acc : string) : string :=
  match fuel with
  | O => acc
  | S fuel =>
      let acc := String (hex_char (z mod 16)) acc in
      if z / 16 =? 0 then acc else hex_digits fuel (z / 16) acc
  end.

Definition lower_hex (z : Z) : string := hex_digits 16 z "".

(** [format!("{:05x}")]. *)
Definition lower_hex5 (z : Z) : string :=
  let s := lower_hex z in pad_left (5 - String.length s) s.

(** [&s[..n]] of ASCII text. *)
Definition slice_to (n : nat) (s : string) : outcome string :=
  if (n <=? String.length s)%nat then Done (String.substring 0 n s) else Panic.

(** [&s[n..]]. *)
Definition slice_from (n : nat) (s : string) : string :=
  String.substring n (String.length s - n) s.

(** [str::find], and the first window of bytes. *)
Fixpoint find_str (needle s : string) : option nat :=
  if starts_with needle s then Some O
  else match s with EmptyString => None | String _ r => S <$> find_str needle r end.

(** [String::from_utf8_lossy]: the length of the character that a first byte
    opens and the range of its second byte. *)
Definition utf8_lead (a : Z) : option (nat * Z * Z) :=
  if a <? 128 then Some (1%nat, 0, 0)
  else if (194 <=? a) && (a <=? 223) then Some (2%nat, 128, 191)
  else if a =? 224 then Some (3%nat, 160, 191)
  else if a =? 237 then Some (3%nat, 128, 159)
  else if (225 <=? a) && (a <=? 239) then Some (3%nat, 128, 191)
  else if a =? 240 then Some (4%nat, 144, 191)
  else if (241 <=? a) && (a <=? 243) then Some (4%nat, 128, 191)
  else if a =? 244 then Some (4%nat, 128, 143)
  else None.

(** The continuation bytes of a character: how many of [n] are there. *)
Fixpoint utf8_tail (n : nat) (lo hi : Z) (s : string) : nat :=
  match n, s with
  | S n, String c s =>
      if (lo <=? byte_val c) && (byte_val c <=? hi) then S (utf8_tail n 128 191 s) else O
  | _, _ => O
  end.

Definition REPLACEMENT_CHARACTER : string := bytes_to_string [239; 191; 189].

Fixpoint utf8_lossy (fuel : nat) (s : string) : string :=
  match fuel, s with
  | S fuel, String c r =>
      match utf8_lead (byte_val c) with
      | None => REPLACEMENT_CHARACTER +:+ utf8_lossy fuel r
      | Some (n, lo, hi) =>
          let k := utf8_tail (n - 1) lo hi r in
          if (k =? n - 1)%nat
          then String.substring 0 n s +:+ utf8_lossy fuel (slice_from k r)
          else REPLACEMENT_CHARACTER +:+ utf8_lossy fuel (slice_from k r)
      end
  | _, _ => ""
  end.

Definition from_utf8_lossy (s : string) : string := utf8_lossy (String.length s) s.

(** ** Objects *)

(** [if let Some(m) = v.as_object_mut() { .. }]. *)
Definition on_object (f : gmap string Value → gmap string Value) (v : Value) : Value :=
  match v with VObject m => VObject (f m) | _ => v end.

(** The field's value, changed in place where it is there. *)
Definition on_field (k : string) (f : Value → Value) : gmap string Value → gmap string Value :=
  alter f k.

(** [if let Some(l) = v.as_array_mut() { .. }]. *)
Definition on_array (f : list Value → list Value) (v : Value) : Value :=
  match v with VArray l => VArray (f l) | _ => v end.

(** [if m.contains_key(k) { m.insert(k, v) }]. *)
Definition replace_key (k : string) (v : Value) (m : gmap string Value) : gmap string Value :=
  match m !! k with Some _ => <[k := v]> m | None => m end.

(** The text of a content block, rewritten. *)
Definition rewrite_text (f : string → string) (item : Value) : Value :=
  match get_str item "text" with
  | Some text => on_object <["text" := VString (f text)]> item
  | None => item
  end.

(** ** Empty text blocks *)

Definition is_empty_block (item : Value) : bool :=
  match as_object item with
  | Some block =>
      bool_decide (block !! "type" ≫= as_str = Some "text")
      && is_empty (default "" (block !! "text" ≫= as_str))
  | None => false
  end.

Definition is_tool_result (block : gmap string Value) : bool :=
  bool_decide (block !! "type" ≫= as_str = Some "tool_result").

(** An item that was kept: the content of a tool result is filtered again.
    [contents] holds what becomes of each field, if it is the content. *)
Fixpoint filter_item (item : Value) : Value :=
  match item with
  | VObject block =>
      let contents :=
        (λ v, match v with
              | VArray l =>
                  VArray ((fix filter_blocks (l : list Value) : list Value :=
                             match l with
                             | [] => []
                             | x :: l =>
                                 if is_empty_block x then filter_blocks l
                                 else filter_item x :: filter_blocks l
                             end) l)
              | _ => v
              end) <$> block in
      if is_tool_result block then VObject (insert_opt "content" id (contents !! "content") block)
      else item
  | _ => item
  end.

Definition filter_blocks : list Value → list Value :=
  fix filter_blocks (l : list Value) : list Value :=
    match l with
    | [] => []
    | x :: l => if is_empty_block x then filter_blocks l else filter_item x :: filter_blocks l
    end.

(** Every message's content array. *)
Definition on_contents (f : list Value → list Value) : list Value → list Value :=
  map (on_object (on_field "content" (on_array f))).

Definition strip_empty_text_blocks : Value → Value :=
  on_object (λ body,
    on_field "messages" (on_array (on_contents filter_blocks))
      (on_field "system" (on_array filter_blocks) body)).

Definition strip_cache_control : Value → Value :=
  let strip := map (on_object (delete "cache_control")) in
  on_object (λ body,
    on_field "messages" (on_array (on_contents strip)) (on_field "system" (on_array strip) body)).

Section body.
Context `{JsonText} `{Digest} `{RegexEngine} `{BodyCodecs}.

(** [serde_json::to_string(v).unwrap_or_default()]. *)
Definition to_text (v : Value) : string := default "" (res_ok (json_to_string v)).

(** The random choices of one body: the bytes of an identifier, two bytes for
    the billing fingerprint, and [gen_range] by event and field. *)
Record BodyDraws := mkBodyDraws {
  bd_session : list Z;
  bd_cch : Z * Z;
  bd_range : nat → nat → Z → Z → Z;
}.

(** ** The user id *)

Definition set_metadata (k : string) (v : Value) : Value → Value :=
  on_object (on_field "metadata" (on_object <[k := v]>)).

Definition rewrite_metadata_user_id (body : Value) (account : Account) : Value :=
  match (vget body "metadata" ≫= as_object) ≫= λ m, m !! "user_id" ≫= as_str with
  | None => body
  | Some user_id_str =>
      if is_empty user_id_str then body
      else
        match res_ok (json_from_str user_id_str) ≫= as_object with
        | Some obj =>
            let uid := VObject (<["device_id" := VString (acc_device_id account)]> obj) in
            set_metadata "user_id" (VString (to_text uid)) body
        | None =>
            match find_str "_account_" user_id_str with
            | Some idx =>
                let new_val := "user_" +:+ acc_device_id account +:+ "_account_"
                                 +:+ slice_from (idx + 9) user_id_str in
                set_metadata "user_id" (VString new_val) body
            | None => body
            end
        end
  end.

(** A body that is no object panics at its [unwrap]. *)
Definition inject_metadata_user_id (body : Value) (account : Account) (bytes : list Z)
    : outcome (Value * option string) :=
  match body with
  | VObject m =>
      let m := match m !! "metadata" with
               | None => <["metadata" := VObject ∅]> m
               | Some _ => m
               end in
      match m !! "metadata" ≫= λ v, vget v "user_id" with
      | Some _ => Done (rewrite_metadata_user_id (VObject m) account, None)
      | None =>
          let session_id := generate_session_uuid bytes in
          let uid := VObject (list_to_map
            [("device_id", VString (acc_device_id account));
             ("account_uuid", VString (default "" (acc_account_uuid account)));
             ("session_id", VString session_id)]) in
          Done (set_metadata "user_id" (VString (to_text uid)) (VObject m), Some session_id)
      end
  | _ => Panic
  end.

(** ** The system prompt *)

Definition CLAUDE_CODE_SYSTEM_PROMPT : string :=
  "You are Claude Code, Anthropic's official CLI for Claude.".

Definition banner_block : Value :=
  VObject (list_to_map
    [("type", VString "text"); ("text", VString CLAUDE_CODE_SYSTEM_PROMPT);
     ("cache_control", VObject {["type" := VString "ephemeral"]})]).

Definition inject_system_prompt (body : Value) : outcome Value :=
  let put blocks := Done (on_object <["system" := VArray blocks]> body) in
  match vget body "system" with
  | None => match body with VObject _ => put [banner_block] | _ => Panic end
  | Some (VString sys) =>
      if starts_with CLAUDE_CODE_SYSTEM_PROMPT sys then Done body
      else put [banner_block;
                VObject (list_to_map [("type", VString "text"); ("text", VString sys)])]
  | Some (VArray arr) =>
      if is_some_and (head arr ≫= λ first, get_str first "text")
           (starts_with CLAUDE_CODE_SYSTEM_PROMPT)
      then Done body else put (banner_block :: arr)
  | Some _ => Done body
  end.

Definition CCH_SALT : string := "59cf53e54c78".

Definition compute_cch (first_user_message_text version : string) : string :=
  let chars :=
    foldr String ""
      (map (λ pos, default "0"%char (String.get pos first_user_message_text)) [4; 7; 20]%nat) in
  String.substring 0 3
    (hex_encode (sha256 (CCH_SALT +:+ from_utf8_lossy chars +:+ version))).

(** The text of a user message: the first that there is. *)
Definition message_text (msg : Value) : option string :=
  m ← as_object msg;
  if bool_decide (m !! "role" ≫= as_str = Some "user") then
    match m !! "content" with
    | Some (VString c) => Some c
    | Some (VArray arr) => head (omap (λ item, get_str item "text") arr)
    | _ => None
    end
  else None.

Definition extract_first_user_message (body : Value) : string :=
  default "" (head (omap message_text (default [] (vget body "messages" ≫= as_array)))).

(** The closure [rewrite] of [rewrite_system_prompt]. *)
Definition rewrite_prompt_text (pe : CanonicalPromptEnvData) (version cch_hash : string)
    (billing_mode : BillingMode) (text : string) : string :=
  let text :=
    match billing_mode with
    | BM_Rewrite =>
        let text := replace_all BILLING_VERSION_REGEX text
                      ("cc_version=" +:+ version +:+ "." +:+ cch_hash) in
        replace_all CCH_VALUE_REGEX text "cch=00000"
    | BM_Strip =>
        let text := replace_all BILLING_LINE_REGEX text "" in
        replace_all BILLING_REGEX text ""
    end in
  let text := replace_all PLATFORM_REGEX text ("Platform: " +:+ cp_platform pe) in
  let text := replace_all SHELL_REGEX text ("Shell: " +:+ cp_shell pe) in
  let text := replace_all OS_VERSION_REGEX text ("OS Version: " +:+ cp_os_version pe) in
  let text := replace_all_with WORKING_DIR_REGEX text
                (λ caps, cap_group1 caps +:+ cp_working_dir pe) in
  match regex_find PROMPT_HOME_PREFIX_REGEX (cp_working_dir pe) with
  | Some replacement => replace_all_with HOME_PATH_REGEX text (λ _, replacement)
  | None => text
  end.

Definition rewrite_in_reminders (rewrite : string → string) (text : string) : string :=
  replace_all_with SYSTEM_REMINDER_REGEX text (λ caps, rewrite (cap_text text caps)).

(** A system block that only holds the billing line. *)
Definition is_billing_block (item : Value) : bool :=
  match get_str item "text" with
  | Some text =>
      regex_is_match BILLING_LINE_REGEX text
      && is_empty (trim (replace_all BILLING_LINE_REGEX text ""))
  | None => false
  end.

Definition rewrite_message_content (rewrite_fn : string → string) (msg : Value) : Value :=
  match vget msg "content" with
  | Some (VString s) => on_object <["content" := VString (rewrite_fn s)]> msg
  | Some (VArray arr) => on_object <["content" := VArray (map (rewrite_text rewrite_fn) arr)]> msg
  | _ => msg
  end.

(** Two random bytes as three hexadecimal digits, when no message gives them. *)
Definition cch_hash_of (body : Value) (version : string) (billing_mode : BillingMode)
    (random : Z * Z) : outcome string :=
  match billing_mode with
  | BM_Rewrite =>
      let first_msg := extract_first_user_message body in
      if negb (is_empty first_msg) then Done (compute_cch first_msg version)
      else slice_to 3 (lower_hex (random.1 * 256 + random.2))
  | BM_Strip => Done ""
  end.

Definition rewrite_system_blocks (rewrite : string → string) (billing_mode : BillingMode)
    (sys : Value) : Value :=
  match sys with
  | VString s => VString (rewrite s)
  | VArray l =>
      let filtered :=
        match billing_mode with
        | BM_Strip => filter (λ item, is_billing_block item = false) l
        | BM_Rewrite => l
        end in
      VArray (map (rewrite_text rewrite) filtered)
  | _ => sys
  end.

Definition rewrite_system_prompt (body : Value) (pe : CanonicalPromptEnvData) (version : string)
    (billing_mode : BillingMode) (random : Z * Z) : outcome Value :=
  let version := if is_empty version then CLAUDE_CODE_VERSION else version in
  cch_hash ← cch_hash_of body version billing_mode random;
  let rewrite := rewrite_prompt_text pe version cch_hash billing_mode in
  Done (on_object (λ body,
    on_field "messages"
      (on_array (map (rewrite_message_content (rewrite_in_reminders rewrite))))
      (on_field "system" (rewrite_system_blocks rewrite billing_mode) body)) body).

(** Only the [system] field; the closure [scrub] works inside reminders. *)
Definition scrub_git_user_in_reminders (replacement_name : string) : Value → Value :=
  let replacement := "Git user: " +:+ replacement_name in
  let scrub text :=
    replace_all_with SYSTEM_REMINDER_REGEX text
      (λ caps, replace_all GIT_USER_REGEX (cap_text text caps) replacement) in
  on_object (on_field "system" (λ system,
    match system with
    | VString s => VString (scrub s)
    | VArray arr => VArray (map (rewrite_text scrub) arr)
    | _ => system
    end)).

(** ** Messages *)

Definition strip_model_suffix : Value → Value :=
  on_object (λ body,
    match body !! "model" ≫= as_str with
    | Some m =>
        match strip_suffix "[1m]" m with
        | Some stripped => <["model" := VString stripped]> body
        | None => body
        end
    | None => body
    end).

(** The fields that the official client does not send, and those it always does. *)
Definition shape_request : Value → Value :=
  on_object (λ obj,
    let obj := delete "temperature" obj in
    let obj := delete "top_k" obj in
    let obj := delete "top_p" obj in
    let obj := delete "stop_sequences" obj in
    let obj := delete "tool_choice" obj in
    let obj := match obj !! "tools" with Some _ => obj | None => <["tools" := VArray []]> obj end in
    <["stream" := VBool true]> obj).

Definition limit_max_tokens (body : Value) : Value :=
  match vget body "max_tokens" ≫= as_f64 with
  | Some max_tokens =>
      if f_lt (f_of_Z 32768) max_tokens
      then on_object <["max_tokens" := of_i64 16384]> body else body
  | None => body
  end.

Definition parse_prompt_env (account : Account) : CanonicalPromptEnvData :=
  default prompt_default (prompt_from_value (acc_canonical_prompt account)).

Definition parse_process (account : Account) : CanonicalProcessData :=
  default process_default (process_from_value (acc_canonical_process account)).

Definition rewrite_messages (body : Value) (account : Account) (client_type : ClientType)
    (d : BodyDraws) : outcome Value :=
  let env := parse_canonical_env (acc_canonical_env account) in
  let prompt_env := parse_prompt_env account in
  let body := strip_model_suffix body in
  match client_type with
  | CT_ClaudeCode =>
      let body := rewrite_metadata_user_id body account in
      body ← rewrite_system_prompt body prompt_env (ce_version env) (acc_billing_mode account)
               (bd_cch d);
      Done (scrub_git_user_in_reminders (acc_name account) body)
  | CT_API =>
      '(body, session_id) ← inject_metadata_user_id body account (bd_session d);
      let body := match session_id with
                  | Some sid => set_metadata "_session_id" (VString sid) body
                  | None => body
                  end in
      inject_system_prompt (limit_max_tokens (strip_cache_control (shape_request body)))
  end.
(** ** Event batches *)

Definition account_uuid_or_derived (account : Account) : string :=
  default (derive_account_uuid account) (acc_account_uuid account).

(** The organization of the account, or no such field. *)
Definition set_organization (k : string) (account : Account) (m : gmap string Value)
    : gmap string Value :=
  match acc_organization_uuid account with
  | Some org => <[k := VString org]> m
  | None => delete k m
  end.

Definition replace_organization (account : Account) (m : gmap string Value)
    : gmap string Value :=
  match m !! "organization_uuid" with
  | Some _ => set_organization "organization_uuid" account m
  | None => m
  end.

Definition replace_uuids (account : Account) (m : gmap string Value) : gmap string Value :=
  replace_organization account
    (replace_key "account_uuid" (VString (account_uuid_or_derived account)) m).

Definition random_in_range (min max : Z) (draw : Z → Z → Z) : Z :=
  if max <=? min then min else draw min max.

Definition rewrite_process_fields (proc : CanonicalProcessData) (draw : nat → Z → Z → Z)
    (map : gmap string Value) : gmap string Value :=
  let random (range : Z * Z) i := of_i64 (random_in_range range.1 range.2 (draw i)) in
  let map := <["constrainedMemory" := of_i64 (pr_constrained_memory proc)]> map in
  let map := <["rss" := random (pr_rss_range proc) 0%nat]> map in
  let map := <["heapTotal" := random (pr_heap_total_range proc) 1%nat]> map in
  let map := <["heapUsed" := random (pr_heap_used_range proc) 2%nat]> map in
  let map := <["external" := random (pr_external_range proc) 3%nat]> map in
  <["arrayBuffers" := random (pr_array_buffers_range proc) 4%nat]> map.

(** JSON in base64: what is neither is left as it is. *)
Definition on_encoded (f : gmap string Value → gmap string Value) (encoded : string) : string :=
  match base64_decode encoded with
  | None => encoded
  | Some decoded =>
      match json_from_str decoded with
      | Err _ => encoded
      | Ok obj => base64_encode (to_text (on_object f obj))
      end
  end.

Definition rewrite_process (original : Value) (proc : CanonicalProcessData)
    (draw : nat → Z → Z → Z) : Value :=
  match original with
  | VString s => VString (on_encoded (rewrite_process_fields proc draw) s)
  | _ => on_object (rewrite_process_fields proc draw) original
  end.

(** The fields that would show the gateway. *)
Definition remove_gateway_fields (m : gmap string Value) : gmap string Value :=
  delete "gateway" (delete "base_url" (delete "baseUrl" m)).

Definition rewrite_additional_metadata : string → string := on_encoded remove_gateway_fields.

Definition rewrite_attributes (account : Account) (map : gmap string Value)
    : gmap string Value :=
  let map := replace_key "id" (VString (acc_device_id account)) map in
  let map := replace_key "deviceID" (VString (acc_device_id account)) map in
  let map := replace_key "email" (VString (acc_email account)) map in
  let map := replace_key "accountUUID" (VString (account_uuid_or_derived account)) map in
  let map := set_organization "organizationUUID" account map in
  let map := insert_opt "subscriptionType" VString (acc_subscription_type account) map in
  delete "apiBaseUrlHost" map.

Definition rewrite_user_attributes_json (json_str : string) (account : Account) : string :=
  match json_from_str json_str with
  | Err _ => json_str
  | Ok obj =>
      default json_str (res_ok (json_to_string (on_object (rewrite_attributes account) obj)))
  end.

(** A text field, rewritten where it is one. *)
Definition on_text (k : string) (f : string → string) (m : gmap string Value)
    : gmap string Value :=
  match m !! k ≫= as_str with Some s => <[k := VString (f s)]> m | None => m end.

(** The fields of one event. *)
Definition rewrite_event_fields (account : Account) (canonical_env : Value)
    (proc : CanonicalProcessData) (draw : nat → Z → Z → Z) (e : gmap string Value)
    : gmap string Value :=
  let e := replace_key "device_id" (VString (acc_device_id account)) e in
  let e := replace_key "email" (VString (acc_email account)) e in
  let e := remove_gateway_fields e in
  let e := replace_uuids account e in
  let e := on_field "auth" (on_object (replace_uuids account)) e in
  let e := replace_key "env" canonical_env e in
  let e := on_field "process" (λ p, rewrite_process p proc draw) e in
  let e := on_text "additional_metadata" rewrite_additional_metadata e in
  on_text "user_attributes" (λ s, rewrite_user_attributes_json s account) e.

(** An event holds its fields itself or under [event_data]. *)
Definition rewrite_event (account : Account) (canonical_env : Value)
    (proc : CanonicalProcessData) (draw : nat → Z → Z → Z) : Value → Value :=
  let fields := rewrite_event_fields account canonical_env proc draw in
  on_object (λ e,
    match e !! "event_data" with
    | Some _ => on_field "event_data" (on_object fields) e
    | None => fields e
    end).

Definition rewrite_event_batch (account : Account) (d : BodyDraws) : Value → Value :=
  let env := parse_canonical_env (acc_canonical_env account) in
  let proc := parse_process account in
  let canonical_env := build_full_env_json env in
  on_object (on_field "events" (on_array
    (imap (λ i, rewrite_event account canonical_env proc (bd_range d i))))).

(** ** Feature flags and other bodies *)

Definition rewrite_eval_attributes (account : Account) (env : CanonicalEnvData)
    (attrs : gmap string Value) : gmap string Value :=
  let attrs := <["id" := VString (acc_device_id account)]> attrs in
  let attrs := <["deviceID" := VString (acc_device_id account)]> attrs in
  let attrs := replace_key "email" (VString (acc_email account)) attrs in
  let attrs := replace_key "accountUUID" (VString (account_uuid_or_derived account)) attrs in
  let attrs := set_organization "organizationUUID" account attrs in
  let attrs := insert_opt "subscriptionType" VString (acc_subscription_type account) attrs in
  let attrs := delete "apiBaseUrlHost" attrs in
  let attrs := <["platform" := VString (ce_platform env)]> attrs in
  replace_key "appVersion" (VString (ce_version env)) attrs.

Definition rewrite_growthbook_eval (account : Account) : Value → Value :=
  let env := parse_canonical_env (acc_canonical_env account) in
  on_object (on_field "attributes" (on_object (rewrite_eval_attributes account env))).

Definition rewrite_generic_identity (account : Account) : Value → Value :=
  on_object (λ obj,
    replace_key "email" (VString (acc_email account))
      (replace_key "device_id" (VString (acc_device_id account)) obj)).

(** ** The attestation *)

Definition CCH_ATTESTATION_SEED : Z := 7949543194721944350.
Definition CCH_PLACEHOLDER : string := "cch=00000".

Definition compute_cch_attestation (body : string) : string :=
  match find_str CCH_PLACEHOLDER body with
  | Some pos =>
      let hash := xxh64 body CCH_ATTESTATION_SEED in
      let cch := lower_hex5 (Z.land hash 1048575) in
      String.substring 0 (pos + 4) body +:+ cch +:+ slice_from (pos + 9) body
  | None => body
  end.

(** ** [rewrite_body] *)

Definition rewrite_body (body path : string) (account : Account) (client_type : ClientType)
    (d : BodyDraws) : outcome string :=
  if is_empty body then Done body
  else
    match json_from_str body with
    | Err _ => Done body
    | Ok parsed =>
        parsed ←
          (if starts_with "/v1/messages" path
           then rewrite_messages (strip_empty_text_blocks parsed) account client_type d
           else if is_event_batch_path path then Done (rewrite_event_batch account d parsed)
           else if starts_with "/api/eval/" path then Done (rewrite_growthbook_eval account parsed)
           else Done (rewrite_generic_identity account parsed));
        let output := default body (res_ok (json_to_string parsed)) in
        Done (if bool_decide (classify_message_endpoint path = ME_Inference)
                 && bool_decide (acc_billing_mode account = BM_Rewrite)
              then compute_cch_attestation output else output)
    end.
End body.

(** ** The interface of the gateway *)

Class Rewriter := {
  rewriter_body : string → string → Account → ClientType → BodyDraws → outcome string;
  rewriter_headers :
    gmap string string → Account → ClientType → string → Value → HeaderDraws →
    gmap string string;
}.

(** What the gateway is promised: no header but those of the whitelist. *)
Class RewriterLaws `{Rewriter} : Prop :=
  rewriter_headers_allowed headers account client_type model_id body_map d k v :
    rewriter_headers headers account client_type model_id body_map d !! k = Some v →
    is_allowed_header (to_ascii_lowercase k) = true.

#[export] Instance rewriter_service
    `{JsonText} `{Digest} `{RegexEngine} `{BodyCodecs} : Rewriter := {
  rewriter_body := rewrite_body;
  rewriter_headers := rewrite_headers;
}.
