(* ===== verification/RewriterFacts.v ===== *)
(** * RewriterFacts: the theorems on rewritten headers

    Which headers leave the gateway and how they are spelled, the profile that
    they show, and the merged list of beta tokens. *)

From S2P Require Import Prelude Text F64 Json Http Model Identity Account GatewayHeaders Rewriter.
From S2P Require Import RewriteBody.

(** ** Spelling *)

(** An allowed header in the spelling of the official client. *)
Definition wire_header (k : string) : Prop :=
  is_allowed_header (to_ascii_lowercase k) = true ∧ resolve_wire_casing k = k.

Lemma wire_of_allowed n :
  is_allowed_header n = true →
  ∃ w, HEADER_WIRE_CASING !! n = Some w ∧ to_ascii_lowercase w = n.
Proof.
  unfold is_allowed_header. intros (x & Hin & ->%String.eqb_eq)%existsb_exists.
  apply list_elem_of_In in Hin.
  repeat (apply elem_of_cons in Hin as [->|Hin]; [eexists; split; [vm_compute|]; reflexivity|]).
  set_solver.
Qed.

Lemma resolve_to k w : HEADER_WIRE_CASING !! to_ascii_lowercase k = Some w → resolve_wire_casing k = w.
Proof. unfold resolve_wire_casing. by intros ->. Qed.

Lemma resolve_wire k :
  is_allowed_header (to_ascii_lowercase k) = true →
  wire_header (resolve_wire_casing k)
  ∧ to_ascii_lowercase (resolve_wire_casing k) = to_ascii_lowercase k.
Proof.
  intros Hk. destruct (wire_of_allowed _ Hk) as (w & Hw & Hl). pose proof (resolve_to _ _ Hw) as ->.
  split; [|done]. split; [by rewrite Hl|]. apply resolve_to. by rewrite Hl.
Qed.

(** Every header is one, and the one of the agent names the release. *)
Definition cli_agent (version v : string) : Prop :=
  ∃ rest, v = "claude-cli/" +:+ version +:+ rest ∨ v = "claude-code/" +:+ version +:+ rest.

Definition good_header (version k v : string) : Prop :=
  wire_header k ∧ (k = "User-Agent" → cli_agent version v).

Definition good_headers (version : string) (m : gmap string string) : Prop :=
  map_Forall (good_header version) m.

Lemma rewrite_agent_cli v version : cli_agent version (rewrite_claude_user_agent v version).
Proof.
  unfold rewrite_claude_user_agent, cli_user_agent, cli_agent.
  destruct (strip_prefix "claude-cli/" v); [eauto|]. destruct (strip_prefix "claude-code/" v); eauto.
Qed.

Lemma good_insert version k v m :
  good_header version k v → good_headers version m → good_headers version (<[k := v]> m).
Proof. apply map_Forall_insert_2. Qed.

Lemma good_or_insert version k v m :
  good_header version k v → good_headers version m → good_headers version (or_insert k v m).
Proof. unfold or_insert. destruct (m !! k); [done|]. apply good_insert. Qed.

Lemma good_copy version env m kv :
  ce_version env = version → good_headers version m → good_headers version (copy_header env m kv).
Proof.
  intros <- Hm. unfold copy_header. destruct (is_allowed_header _) eqn:Ha; [|done].
  apply good_insert; [|done]. destruct (resolve_wire _ Ha) as [Hw Hl]. split; [done|]. intros Hk.
  rewrite <- Hl, Hk. apply rewrite_agent_cli.
Qed.

Lemma good_copies version env l m :
  ce_version env = version → good_headers version m →
  good_headers version (foldl (copy_header env) m l).
Proof. intros Hv. revert m. induction l as [|kv l IH]; simpl; intros m Hm; [done|]. by apply IH, good_copy. Qed.

(** A fixed header: it is not the agent, or the agent remains to be shown. *)
Lemma good_fixed version k v :
  is_allowed_header (to_ascii_lowercase k) && String.eqb (resolve_wire_casing k) k = true →
  (String.eqb k "User-Agent" = true → cli_agent version v) → good_header version k v.
Proof.
  intros [Ha Hw%String.eqb_eq]%andb_true_iff Hv. split; [by split|]. intros ->. auto.
Qed.

Ltac good :=
  repeat lazymatch goal with
  | |- good_headers _ (<[_ := _]> _) => apply good_insert
  | |- good_headers _ (or_insert _ _ _) => apply good_or_insert
  | |- good_headers _ ∅ => apply map_Forall_empty
  | |- good_header _ _ _ => apply good_fixed; [vm_compute; reflexivity|try (intros [=]; fail)]
  end.

Lemma or_insert_ne k k' v m : k ≠ k' → or_insert k v m !! k' = m !! k'.
Proof. intros Hk. unfold or_insert. destruct (m !! k); [done|]. by apply lookup_insert_ne. Qed.

Lemma or_insert_some k v m : is_Some (or_insert k v m !! k).
Proof. unfold or_insert. destruct (m !! k) eqn:Hm; [by eexists|]. by rewrite lookup_insert_eq. Qed.

(** Looks a fixed name up through the later insertions. *)
Ltac find_header :=
  repeat first [rewrite lookup_insert_ne by (intros [=]) | rewrite or_insert_ne by (intros [=])];
  try apply lookup_insert_eq.

Section headers.
Context `{Digest}.

Lemma cli_user_agent_cli version : cli_agent version (cli_user_agent version).
Proof. exists " (external, cli)". by left. Qed.

Lemma api_headers_good env betas body_map d :
  good_headers (ce_version env) (api_headers env betas body_map d).
Proof. unfold api_headers. good. intros _. apply cli_user_agent_cli. Qed.

Lemma client_headers_good headers env betas body_map d :
  good_headers (ce_version env) (client_headers headers env betas body_map d).
Proof.
  unfold client_headers. good; [intros _; apply cli_user_agent_cli|].
  apply good_copies; [done|apply map_Forall_empty].
Qed.

Lemma rewrite_headers_good headers account ct model_id body_map d :
  good_headers (ce_version (parse_canonical_env (acc_canonical_env account)))
    (rewrite_headers headers account ct model_id body_map d).
Proof.
  unfold rewrite_headers. destruct (bool_decide _); [apply api_headers_good|apply client_headers_good].
Qed.

(** C7: Whatever a client sends, each header that is sent on is one of the whitelist, in the
    spelling of the official client, so that no other spelling of a replaced header and no
    credential of the client goes upstream. *)
Theorem headers_whitelisted headers account ct model_id body_map d k v :
  rewrite_headers headers account ct model_id body_map d !! k = Some v →
  is_allowed_header (to_ascii_lowercase k) = true ∧ resolve_wire_casing k = k
  ∧ to_ascii_lowercase k ∉ ["authorization"; "x-api-key"; "cookie"; "proxy-authorization"; "host"].
Proof.
  intros Hk. destruct (rewrite_headers_good headers account ct model_id body_map d k v Hk) as [[Ha Hw] _].
  split; [done|]. split; [done|]. intros Hin.
  assert (existsb is_allowed_header
    ["authorization"; "x-api-key"; "cookie"; "proxy-authorization"; "host"] = false) as Hf
    by (vm_compute; reflexivity).
  apply not_true_iff_false in Hf. apply Hf, existsb_exists. eexists.
  split; [by apply list_elem_of_In|done].
Qed.

(** ** The profile *)

(** The headers that tell one installation from another. *)
Definition shows_profile (env : CanonicalEnvData) (out : gmap string string) : Prop :=
  out !! "X-Stainless-Package-Version" = Some CLAUDE_CODE_STAINLESS_VERSION
  ∧ out !! "X-Stainless-OS" = Some (stainless_os_from_platform (ce_platform env))
  ∧ out !! "X-Stainless-Arch" = Some (ce_arch env)
  ∧ out !! "X-Stainless-Runtime-Version" = Some (ce_node_version env)
  ∧ ∃ agent, out !! "User-Agent" = Some agent ∧ cli_agent (ce_version env) agent.

Lemma api_headers_profile env betas body_map d :
  shows_profile env (api_headers env betas body_map d).
Proof.
  unfold shows_profile, api_headers.
  split_and!; [find_header..|]. exists (cli_user_agent (ce_version env)).
  split; [find_header|apply cli_user_agent_cli].
Qed.

Lemma client_headers_profile headers env betas body_map d :
  shows_profile env (client_headers headers env betas body_map d).
Proof.
  pose proof (client_headers_good headers env betas body_map d) as Hg.
  assert (is_Some (client_headers headers env betas body_map d !! "User-Agent")) as [agent Ha].
  { unfold client_headers. find_header. apply or_insert_some. }
  unfold shows_profile. split_and!; [unfold client_headers; find_header..|].
  exists agent. split; [done|]. by destruct (Hg _ _ Ha) as [_ Hv]; apply Hv.
Qed.

(** C8: Whatever a client says of its installation, the headers that go upstream show the
    operating system, architecture, runtime and client release of the account's stored
    environment. *)
Theorem headers_show_profile headers account ct model_id body_map d :
  shows_profile (parse_canonical_env (acc_canonical_env account))
    (rewrite_headers headers account ct model_id body_map d).
Proof.
  unfold rewrite_headers.
  destruct (bool_decide _); [apply api_headers_profile|apply client_headers_profile].
Qed.
End headers.

#[export] Instance rewriter_service_laws
    `{JsonText} `{Digest} `{RegexEngine} `{BodyCodecs} : RewriterLaws.
Proof.
  intros headers account ct model_id body_map d k v Hk.
  by destruct (rewrite_headers_good headers account ct model_id body_map d k v Hk) as [[Ha _] _].
Qed.

(** ** Beta tokens *)

Lemma elem_of_fresh_tokens seen l t :
  t ∈ fresh_tokens seen l ↔ t ≠ "" ∧ (t ∉ seen) ∧ t ∈ (trim <$> l).
Proof.
  revert seen. induction l as [|x l IH]; intros seen; simpl; [set_solver|].
  destruct (is_empty (trim x)) eqn:He; simpl.
  { rewrite IH. destruct (trim x) eqn:Hx; [|done]. rewrite elem_of_cons. naive_solver. }
  assert (trim x ≠ "") as Hne by by intros Hx; rewrite Hx in He.
  destruct (bool_decide_reflect (trim x ∈ seen)) as [Hs|Hs]; simpl.
  - rewrite IH, elem_of_cons. naive_solver.
  - rewrite elem_of_cons, IH, !elem_of_cons. destruct (decide (t = trim x)); naive_solver.
Qed.

Lemma fresh_tokens_nodup seen l : NoDup (fresh_tokens seen l).
Proof.
  revert seen. induction l as [|x l IH]; intros seen; simpl; [constructor|].
  destruct (negb _ && _); [|done]. constructor; [|done]. rewrite elem_of_fresh_tokens. set_solver.
Qed.

Lemma fresh_tokens_app seen l1 l2 : fresh_tokens seen l1 `prefix_of` fresh_tokens seen (l1 ++ l2).
Proof.
  revert seen. induction l1 as [|x l1 IH]; intros seen; simpl; [apply prefix_nil|].
  destruct (negb _ && _); [|done]. by apply prefix_cons.
Qed.

Lemma fresh_tokens_lack c seen l :
  plain c = true → Forall (λ x, lacks c x = true) l →
  Forall (λ x, lacks c x = true) (fresh_tokens seen l).
Proof.
  intros Hc. rewrite !Forall_forall. intros Hl x (_ & _ & (y & -> & Hy)%list_elem_of_fmap)%elem_of_fresh_tokens.
  rewrite trim_lacks by done. auto.
Qed.

Lemma merged_tokens required incoming :
  fresh_tokens [] (split_on "," incoming ++ split_on "," required) ≠ [] →
  split_on "," (merge_anthropic_beta required incoming)
  = fresh_tokens [] (split_on "," incoming ++ split_on "," required).
Proof.
  intros Hne. apply split_on_join; [done|]. apply fresh_tokens_lack; [done|].
  apply Forall_app. rewrite !Forall_forall. split; apply split_on_lacks.
Qed.

(** Merging two lists of beta tokens gives the list, without repetition, of
    exactly the tokens that either names, those of the client first and in its
    order; nothing is named only when neither names anything. *)
Theorem merged_betas required incoming :
  let named := trim <$> (split_on "," incoming ++ split_on "," required) in
  let tokens := split_on "," (merge_anthropic_beta required incoming) in
  (NoDup tokens
   ∧ (∀ t, t ≠ "" → t ∈ tokens ↔ t ∈ named)
   ∧ (∀ t, t ≠ "" → t ∈ fresh_tokens [] (split_on "," incoming) → t ∈ tokens)
   ∧ (tokens = [""] ∨ fresh_tokens [] (split_on "," incoming) `prefix_of` tokens))
  ∧ (tokens = [""] ↔ ∀ t, t ∈ named → t = "").
Proof.
  intros named tokens. set (l := split_on "," incoming ++ split_on "," required) in *.
  assert (∀ t, t ∈ fresh_tokens [] l ↔ t ≠ "" ∧ t ∈ named) as Hin.
  { intros t. rewrite elem_of_fresh_tokens. set_solver. }
  destruct (decide (fresh_tokens [] l = [])) as [He|He].
  - assert (tokens = [""]) as Ht.
    { unfold tokens, merge_anthropic_beta. fold l. by rewrite He. }
    rewrite He in Hin. rewrite Ht. pose proof (fresh_tokens_app [] (split_on "," incoming) (split_on "," required)) as Hp.
    fold l in Hp. rewrite He in Hp. apply prefix_nil_inv in Hp. rewrite Hp.
    split; [|split; [intros _ t Hn|done]].
    + split_and!; [apply NoDup_singleton| |set_solver|by left].
      intros t Hne. specialize (Hin t). set_solver.
    + destruct (decide (t = "")); [done|]. specialize (Hin t). set_solver.
  - assert (tokens = fresh_tokens [] l) as -> by by apply merged_tokens.
    split; [split_and!|].
    + apply fresh_tokens_nodup.
    + intros t Hne. rewrite Hin. naive_solver.
    + intros t _ Ht. destruct (fresh_tokens_app [] (split_on "," incoming) (split_on "," required)) as [k Hk].
      unfold l. rewrite Hk. set_solver.
    + right. apply fresh_tokens_app.
    + split; [intros Hf|intros Hall].
      * assert ("" ∈ fresh_tokens [] l) as Hc by (rewrite Hf; set_solver). by apply Hin in Hc as [].
      * destruct (fresh_tokens [] l) as [|t ts] eqn:Hf; [done|].
        assert (t ≠ "" ∧ t ∈ named) as [Hne Ht] by (apply Hin; set_solver). by apply Hall in Ht.
Qed.

(** The tokens that the gateway may require. *)
Definition KNOWN_BETAS : list string :=
  ["claude-code-20250219"; "oauth-2025-04-20"; "interleaved-thinking-2025-05-14";
   "context-1m-2025-08-07"; "thinking-token-count-2026-05-13"; "context-management-2025-06-27";
   "prompt-caching-scope-2026-01-05"; "mid-conversation-system-2026-04-07"; "effort-2025-11-24";
   "cache-diagnosis-2026-04-07"].

Lemma push_if_forall (P : string → Prop) b x : P x → Forall P (push_if b x).
Proof. destruct b; simpl; auto. Qed.

Lemma betas_known model_id body x : x ∈ compute_betas_for_request model_id body → x ∈ KNOWN_BETAS.
Proof.
  revert x. apply Forall_forall. unfold compute_betas_for_request.
  destruct (strip_1m_suffix model_id) as [base m]. rewrite !Forall_app.
  split_and!; first [apply push_if_forall | apply Forall_singleton]; unfold KNOWN_BETAS; set_solver.
Qed.

Lemma betas_split model_id body :
  split_on "," (beta_header_for_request model_id body) = compute_betas_for_request model_id body.
Proof.
  apply split_on_join.
  - unfold compute_betas_for_request. destruct (strip_1m_suffix model_id).
    intros [_ [=]]%app_eq_nil.
  - apply Forall_forall. intros x Hx%betas_known.
    assert (forallb (lacks ",") KNOWN_BETAS = true) as Hf by (vm_compute; reflexivity).
    rewrite forallb_forall in Hf. by apply Hf, list_elem_of_In.
Qed.

Lemma betas_trimmed model_id body t :
  t ∈ compute_betas_for_request model_id body → trim t = t ∧ t ≠ "".
Proof.
  intros Ht%betas_known%list_elem_of_In.
  assert (forallb (λ x, String.eqb (trim x) x && negb (is_empty x)) KNOWN_BETAS = true) as Hf
    by (vm_compute; reflexivity).
  rewrite forallb_forall in Hf. apply Hf in Ht. bool_prop.
  split; [by apply String.eqb_eq|by intros ->].
Qed.

Lemma merged_keeps_required model_id body incoming t :
  t ∈ compute_betas_for_request model_id body →
  t ∈ split_on "," (merge_anthropic_beta (beta_header_for_request model_id body) incoming).
Proof.
  intros Ht. destruct (betas_trimmed _ _ _ Ht) as [Htr Hne].
  assert (t ∈ fresh_tokens [] (split_on "," incoming
             ++ split_on "," (beta_header_for_request model_id body))) as Hin.
  { apply elem_of_fresh_tokens. split; [done|]. split; [set_solver|].
    rewrite fmap_app, betas_split. apply elem_of_app. right. rewrite <- Htr.
    by apply list_elem_of_fmap_2. }
  rewrite merged_tokens; [done|]. intros He. rewrite He in Hin. set_solver.
Qed.

(** The beta header that goes upstream names every token that the model and the request
    call for, whichever kind of client sent it and whatever tokens the client named itself. *)
Theorem required_betas_sent `{Digest} headers account ct model_id body_map d :
  ∃ v, rewrite_headers headers account ct model_id body_map d !! "anthropic-beta" = Some v
       ∧ ∀ t, t ∈ compute_betas_for_request model_id body_map → t ∈ split_on "," v.
Proof.
  unfold rewrite_headers. destruct (bool_decide _).
  - exists (beta_header_for_request model_id body_map).
    split; [unfold api_headers; find_header|]. intros t Ht. by rewrite betas_split.
  - unfold client_headers. eexists. split; [apply lookup_insert_eq|]. intros t Ht.
    by apply merged_keeps_required.
Qed.
