(* ===== verification/RewriteBodyFacts.v ===== *)
(** * RewriteBodyFacts: the theorems on rewritten message requests

    What a message request looks like once it is rewritten, for both kinds of
    clients, when rewriting panics, and which blocks are dropped. The relations between a
    field and what becomes of it are here; RewriteTextFacts uses them too. *)

From S2P Require Import Prelude Text F64 Json Http Model Identity Account GatewayHeaders Rewriter.
From S2P Require Import RewriteBody.

(** ** Texts *)

Lemma substring_split n a b s :
  String.substring n (a + b) s = String.substring n a s +:+ String.substring (n + a) b s.
Proof.
  revert n a. induction s as [|c s IH]; intros n a.
  - by destruct n, a, b.
  - destruct n as [|n]; simpl; [|apply IH].
    destruct a as [|a]; simpl; [by destruct b|]. rewrite str_cons_app. f_equal. apply (IH 0%nat).
Qed.

Lemma substring_whole s : String.substring 0 (String.length s) s = s.
Proof. induction s as [|c s IH]; simpl; [done|by rewrite IH]. Qed.

Lemma substring_length n m s :
  (n + m ≤ String.length s)%nat → String.length (String.substring n m s) = m.
Proof.
  revert n m. induction s as [|c s IH]; intros n m Hn; simpl in Hn.
  - by destruct n, m; simpl in *; try lia.
  - destruct n as [|n]; simpl; [|by apply IH; lia]. destruct m as [|m]; simpl; [done|].
    f_equal. apply (IH 0%nat). lia.
Qed.

Lemma str_take_drop k s :
  (k ≤ String.length s)%nat → s = String.substring 0 k s +:+ slice_from k s.
Proof.
  intros Hk. unfold slice_from. rewrite <- (substring_split 0 k).
  replace (k + (String.length s - k))%nat with (String.length s) by lia. by rewrite substring_whole.
Qed.

Lemma starts_with_app p a b : starts_with p a = true → starts_with p (a +:+ b) = true.
Proof. rewrite !starts_with_true. intros [r ->]. exists (r +:+ b). by rewrite str_app_assoc. Qed.

Lemma find_str_spec p s i :
  find_str p s = Some i →
  ∃ pre post, s = pre +:+ p +:+ post ∧ String.length pre = i
    ∧ ∀ pre' post', s = pre' +:+ p +:+ post' → (i ≤ String.length pre')%nat.
Proof.
  revert i. induction s as [|c s IH]; intros i; simpl.
  - destruct p; simpl; [|done]. intros [= <-]. exists "", "". split_and!; [done..|]. intros. lia.
  - destruct (starts_with p (String c s)) eqn:Hs.
    { intros [= <-]. apply starts_with_true in Hs as [r Hr]. exists "", r.
      split_and!; [done..|]. intros. lia. }
    destruct (find_str p s) as [j|] eqn:Hf; [|done]. intros [= <-].
    destruct (IH j eq_refl) as (pre & post & -> & <- & Hmin). exists (String c pre), post.
    split_and!; [done..|]. intros [|c' pre'] post' He.
    + exfalso. assert (starts_with p (String c (pre +:+ p +:+ post)) = true); [|congruence].
      rewrite He. apply starts_with_true. by exists post'.
    + simpl in He. injection He as _ He. simpl. apply Hmin in He. lia.
Qed.

Lemma length_append a b : String.length (a +:+ b) = (String.length a + String.length b)%nat.
Proof. induction a as [|c a IH]; simpl; [done|by rewrite IH]. Qed.

Lemma take_append a b : String.substring 0 (String.length a) (a +:+ b) = a.
Proof. induction a as [|c a IH]; simpl; [by destruct b|by rewrite IH]. Qed.

Lemma slice_append a b : slice_from (String.length a) (a +:+ b) = b.
Proof.
  unfold slice_from. rewrite length_append.
  replace (String.length a + String.length b - String.length a)%nat with (String.length b) by lia.
  induction a as [|c a IH]; simpl; [apply substring_whole|done].
Qed.

Lemma rev_app_spec a b : String.rev_app a b = String.rev a +:+ b.
Proof.
  unfold String.rev. revert b. induction a as [|c a IH]; intros b; simpl; [done|].
  by rewrite (IH (String c b)), (IH (String c "")), <- str_app_assoc.
Qed.
Lemma rev_append a b : String.rev (a +:+ b) = String.rev b +:+ String.rev a.
Proof.
  unfold String.rev at 1. induction a as [|c a IH]; simpl.
  - rewrite rev_app_spec. done.
  - rewrite rev_app_spec. unfold String.rev at 3. simpl. rewrite rev_app_spec, str_app_assoc. f_equal. exact IH.
Qed.
Lemma rev_twice s : String.rev (String.rev s) = s.
Proof.
  induction s as [|c s IH]; [done|]. unfold String.rev at 2. simpl. rewrite rev_app_spec, rev_append. by rewrite IH.
Qed.

Lemma strip_suffix_spec p s r : strip_suffix p s = Some r ↔ s = r +:+ p.
Proof.
  unfold strip_suffix. split.
  - destruct (strip_prefix _ _) as [q|] eqn:Hq; [|done]. intros [= <-]. apply strip_prefix_Some in Hq.
    rewrite <- (rev_twice s), Hq, rev_append, rev_twice. done.
  - intros ->. rewrite rev_append. assert (strip_prefix (String.rev p) (String.rev p +:+ String.rev r) = Some (String.rev r))
      as -> by by apply strip_prefix_Some. simpl. by rewrite rev_twice.
Qed.

(** ** Objects *)

Definition is_object (v : Value) : bool := opt_is_some (as_object v).

Lemma on_object_is_object f v : is_object (on_object f v) = is_object v.
Proof. by destruct v. Qed.

Lemma vget_on_object f v k :
  vget (on_object f v) k = match v with VObject m => f m !! k | _ => None end.
Proof. by destruct v. Qed.

Lemma on_field_ne k k' f m : k ≠ k' → on_field k f m !! k' = m !! k'.
Proof. intros. by apply lookup_alter_ne. Qed.

Lemma on_field_eq k f m : on_field k f m !! k = f <$> m !! k.
Proof. apply lookup_alter_eq. Qed.

Lemma set_metadata_is_object k v body : is_object (set_metadata k v body) = is_object body.
Proof. apply on_object_is_object. Qed.

Lemma set_metadata_get k v body k' : k' ≠ "metadata" → vget (set_metadata k v body) k' = vget body k'.
Proof. intros. unfold set_metadata. rewrite vget_on_object. destruct body; try done. by apply on_field_ne. Qed.

Section facts.
Context `{JsonText} `{Digest} `{RegexEngine} `{BodyCodecs}.

Lemma metadata_user_id_is_object body a :
  is_object (rewrite_metadata_user_id body a) = is_object body.
Proof.
  unfold rewrite_metadata_user_id. repeat case_match; try done; apply set_metadata_is_object.
Qed.

Lemma metadata_user_id_get body a k :
  k ≠ "metadata" → vget (rewrite_metadata_user_id body a) k = vget body k.
Proof.
  intros. unfold rewrite_metadata_user_id. repeat case_match; try done; by apply set_metadata_get.
Qed.

Lemma strip_model_get body k : k ≠ "model" → vget (strip_model_suffix body) k = vget body k.
Proof.
  intros Hk. unfold strip_model_suffix. rewrite vget_on_object. destruct body; try done.
  simpl. destruct (m !! "model" ≫= as_str); [|done]. destruct (strip_suffix "[1m]" s); [|done].
  by rewrite lookup_insert_ne.
Qed.

Lemma first_message_get b b' :
  vget b "messages" = vget b' "messages" → extract_first_user_message b = extract_first_user_message b'.
Proof. unfold extract_first_user_message. by intros ->. Qed.

(** ** The model and the metadata *)

(** A model loses its mark for the long context. *)
Definition model_forwarded (o o' : option Value) : Prop :=
  (∃ s, o = Some (VString (s +:+ "[1m]")) ∧ o' = Some (VString s))
  ∨ (o' = o ∧ ∀ s, o ≠ Some (VString (s +:+ "[1m]"))).

Lemma strip_model_forwarded body :
  model_forwarded (vget body "model") (vget (strip_model_suffix body) "model").
Proof.
  unfold strip_model_suffix, model_forwarded. rewrite vget_on_object.
  destruct body as [| | | | |m]; try (by right). simpl.
  destruct (m !! "model") as [[| | |s| |]|] eqn:Hm; simpl; try (by right).
  destruct (strip_suffix "[1m]" s) as [r|] eqn:Hs.
  - apply strip_suffix_spec in Hs as ->. left. exists r. by rewrite lookup_insert_eq.
  - right. rewrite Hm. split; [done|]. intros r [= ->].
    assert (strip_suffix "[1m]" (r +:+ "[1m]") = Some r) by (by apply strip_suffix_spec). congruence.
Qed.

(** The user id [u] of a client with the device of the account: in an object, or in the text
    of older clients, of which what comes after the first "_account_" is kept. *)
Inductive user_id_rewritten (a : Account) (u : string) : string → Prop :=
  | UID_Object obj :
      u ≠ "" → json_from_str u = Ok (VObject obj) →
      user_id_rewritten a u (to_text (VObject (<["device_id" := VString (acc_device_id a)]> obj)))
  | UID_Text pre rest :
      (∀ obj, json_from_str u ≠ Ok (VObject obj)) → u = pre +:+ "_account_" +:+ rest →
      (∀ pre' rest', u = pre' +:+ "_account_" +:+ rest' → (String.length pre ≤ String.length pre')%nat) →
      user_id_rewritten a u ("user_" +:+ acc_device_id a +:+ "_account_" +:+ rest)
  | UID_Other :
      u = "" ∨ ((∀ obj, json_from_str u ≠ Ok (VObject obj)) ∧
                ∀ pre rest, u ≠ pre +:+ "_account_" +:+ rest) →
      user_id_rewritten a u u.

(** Of the metadata, only a user id that is a text is changed. *)
Definition metadata_forwarded (a : Account) (o o' : option Value) : Prop :=
  match o with
  | Some (VObject m) =>
      ∃ m', o' = Some (VObject m') ∧ (∀ k, k ≠ "user_id" → m' !! k = m !! k) ∧
        match m !! "user_id" with
        | Some (VString u) => ∃ u', user_id_rewritten a u u' ∧ m' !! "user_id" = Some (VString u')
        | other => m' !! "user_id" = other
        end
  | _ => o' = o
  end.

#[local] Arguments metadata_forwarded : simpl never.

Lemma find_str_none p s : find_str p s = None → ∀ pre post, s ≠ pre +:+ p +:+ post.
Proof.
  induction s as [|c s IH]; simpl; destruct (starts_with p _) eqn:Hs; try done;
    intros Hf [|c' pre] post He.
  - assert (starts_with p "" = true); [|congruence]. apply starts_with_true. by exists post.
  - done.
  - assert (starts_with p (String c s) = true); [|congruence]. apply starts_with_true. by exists post.
  - injection He as _ He. apply (IH ltac:(by destruct (find_str p s)) pre post He).
Qed.

Lemma set_user_id m u u' a body :
  vget body "metadata" = Some (VObject m) → m !! "user_id" = Some (VString u) →
  user_id_rewritten a u u' →
  metadata_forwarded a (Some (VObject m)) (vget (set_metadata "user_id" (VString u') body) "metadata").
Proof.
  intros Hm Hu Hr. destruct body as [| | | | |b]; try done. simpl in *. rewrite on_field_eq, Hm. simpl.
  eexists. split; [done|]. split; [intros k Hk; by rewrite lookup_insert_ne|].
  rewrite Hu, lookup_insert_eq. by exists u'.
Qed.

Lemma metadata_user_id_forwarded body a :
  metadata_forwarded a (vget body "metadata") (vget (rewrite_metadata_user_id body a) "metadata").
Proof.
  assert (∀ m u, m !! "user_id" = Some (VString u) → user_id_rewritten a u u →
    metadata_forwarded a (Some (VObject m)) (Some (VObject m))) as Hsame.
  { intros m u Hu Hr. exists m. rewrite Hu. split_and!; [done..|by exists u]. }
  unfold rewrite_metadata_user_id.
  destruct (vget body "metadata") as [[| | | | |m]|] eqn:Hm; simpl; rewrite ?Hm; try done.
  destruct (m !! "user_id") as [[| | |u| |]|] eqn:Hu; simpl;
    try (rewrite Hm; exists m; rewrite Hu; by split_and!).
  destruct u as [|c u]; [simpl; rewrite Hm; eapply Hsame; [done|apply UID_Other; by left]|].
  set (s := String c u) in *. assert (s ≠ "") as Hne by done. clearbody s.
  destruct (is_empty s) eqn:He; [by destruct s|].
  destruct (res_ok (json_from_str s) ≫= as_object) as [obj|] eqn:Hobj.
  - eapply set_user_id; [done..|]. apply UID_Object; [done|].
    by destruct (json_from_str s) as [[| | | | |]|]; simplify_eq/=.
  - assert (∀ obj, json_from_str s ≠ Ok (VObject obj)) as Hno by (intros obj Ho; by rewrite Ho in Hobj).
    destruct (find_str "_account_" s) as [i|] eqn:Hf.
    + apply find_str_spec in Hf as (pre & rest & Hs & Hi & Hmin).
      eapply set_user_id; [done..|].
      assert (slice_from (i + 9) s = rest) as ->; [|eapply UID_Text; [done|exact Hs|by subst i]].
      rewrite Hs, str_app_assoc, <- Hi.
      replace (String.length pre + 9)%nat with (String.length (pre +:+ "_account_")) by (by rewrite length_append).
      apply slice_append.
    + rewrite Hm. eapply Hsame; [done|]. apply UID_Other. right. split; [done|]. by apply find_str_none.
Qed.

(** ** Panics *)

Lemma slice_to_short n s : slice_to n s = Panic ↔ (String.length s < n)%nat.
Proof.
  unfold slice_to. destruct (n <=? String.length s)%nat eqn:Hn; [|apply Nat.leb_gt in Hn; split; done].
  apply Nat.leb_le in Hn. split; [done|lia].
Qed.

Lemma hex_digits_S n z acc :
  hex_digits (S n) z acc =
    if z / 16 =? 0 then String (hex_char (z mod 16)) acc
    else hex_digits n (z / 16) (String (hex_char (z mod 16)) acc).
Proof. done. Qed.

Lemma hex_digits_grows n z acc : (String.length acc ≤ String.length (hex_digits n z acc))%nat.
Proof.
  revert z acc. induction n as [|n IH]; intros z acc; [done|]. rewrite hex_digits_S.
  destruct (_ =? 0); [simpl; lia|]. etransitivity; [|apply IH]. simpl. lia.
Qed.

Lemma lower_hex_short z : 0 ≤ z < 65536 → (String.length (lower_hex z) < 3)%nat ↔ z < 256.
Proof.
  intros Hz. unfold lower_hex.
  assert (z / 16 / 16 = 0 ↔ z < 256) as Hs.
  { rewrite Z.div_div by lia. change (16 * 16) with 256. split; intros.
    - match goal with E : _ = 0 |- _ => apply Z.div_small_iff in E end; lia.
    - apply Z.div_small; lia. }
  rewrite hex_digits_S. destruct (Z.eqb_spec (z / 16) 0) as [E1|E1].
  { rewrite E1 in Hs. simpl. split; [intros _; by apply Hs|lia]. }
  rewrite hex_digits_S. destruct (Z.eqb_spec (z / 16 / 16) 0) as [E2|E2].
  { simpl. split; [intros _; by apply Hs|lia]. }
  split; [|naive_solver]. rewrite hex_digits_S.
  destruct (_ =? 0); [simpl; lia|].
  match goal with |- context [hex_digits 13 ?y ?acc] => pose proof (hex_digits_grows 13 y acc) as Hg end.
  simpl String.length in Hg at 1. lia.
Qed.

Lemma inject_user_id_panics body a bytes :
  inject_metadata_user_id body a bytes = Panic ↔ is_object body = false.
Proof.
  unfold inject_metadata_user_id. destruct body; try done. simpl. split; [|done].
  by destruct (m !! "metadata"); destruct (_ ≫= _).
Qed.

Lemma inject_user_id_object body a bytes body' sid :
  inject_metadata_user_id body a bytes = Done (body', sid) → is_object body' = true.
Proof.
  unfold inject_metadata_user_id. destruct body; try done. 
  destruct (m !! "metadata"); destruct (_ ≫= _); intros [= <- _];
    by rewrite ?metadata_user_id_is_object, ?set_metadata_is_object.
Qed.

Lemma limit_max_tokens_is_object body : is_object (limit_max_tokens body) = is_object body.
Proof. unfold limit_max_tokens. repeat case_match; try done. apply on_object_is_object. Qed.

Lemma inject_system_done body : is_object body = true → ∃ v, inject_system_prompt body = Done v.
Proof.
  unfold inject_system_prompt. intros Ho. destruct (vget body "system") as [[| | | | |]|]; eauto.
  - destruct (starts_with _ _); eauto.
  - destruct (is_some_and _ _); eauto.
  - destruct body; try done. eauto.
Qed.

Lemma cch_hash_panics body version mode random :
  cch_hash_of body version mode random = Panic ↔
  mode = BM_Rewrite ∧ extract_first_user_message body = ""
  ∧ (String.length (lower_hex (random.1 * 256 + random.2)) < 3)%nat.
Proof.
  unfold cch_hash_of. destruct mode; [by split; [|intros [[=] _]]|].
  destruct (extract_first_user_message body) as [|c s] eqn:He; cbn [is_empty negb].
  - rewrite slice_to_short. naive_solver.
  - split; [intros [=]|intros (_ & [=] & _)].
Qed.

(** C35: Rewriting a message request panics in exactly two cases: the client is not Claude Code
    and the body is JSON but no object, or the account rewrites billing lines, no message of the
    user gives a text, and the two random bytes that stand in for it are a number below 256, of
    which three hexadecimal digits are cut. *)
Theorem messages_panic_iff body account ct d :
  0 ≤ (bd_cch d).1 < 256 → 0 ≤ (bd_cch d).2 < 256 →
  rewrite_messages body account ct d = Panic ↔
  match ct with
  | CT_API => is_object body = false
  | CT_ClaudeCode =>
      acc_billing_mode account = BM_Rewrite ∧ extract_first_user_message body = ""
      ∧ (bd_cch d).1 = 0
  end.
Proof.
  intros Hb1 Hb2. unfold rewrite_messages. destruct ct.
  - unfold rewrite_system_prompt. set (v := if is_empty _ then _ else _).
    rewrite <- (first_message_get (rewrite_metadata_user_id (strip_model_suffix body) account) body)
      by by rewrite metadata_user_id_get, strip_model_get.
    set (b := rewrite_metadata_user_id _ _).
    assert ((bd_cch d).1 = 0 ↔ (bd_cch d).1 * 256 + (bd_cch d).2 < 256) as -> by lia.
    rewrite <- lower_hex_short, <- cch_hash_panics with (version := v) by lia.
    cbn [mbind outcome_bind]. destruct (cch_hash_of b v _ _); split; intros [=]; done.
  - rewrite <- (on_object_is_object (λ body, body) body).
    assert (is_object (strip_model_suffix body) = is_object (on_object (λ body, body) body)) as <-
      by by destruct body.
    rewrite <- inject_user_id_panics with (a := account) (bytes := bd_session d).
    cbn [mbind outcome_bind].
    destruct (inject_metadata_user_id _ _ _) as [[b sid]|] eqn:Hi; [|done].
    apply inject_user_id_object in Hi. cbn [mbind outcome_bind]. split; [|intros [=]].
    match goal with |- inject_system_prompt ?x = _ → _ => destruct (inject_system_done x) as [w ->]; [|intros [=]] end.
    rewrite limit_max_tokens_is_object. unfold strip_cache_control, shape_request.
    rewrite !on_object_is_object. destruct sid; [by rewrite set_metadata_is_object|done].
Qed.

(** ** Requests of other clients *)

(** The system prompt opens with the banner of the official client. *)
Definition banner_first (v : Value) : Prop :=
  match v with
  | VString s => starts_with CLAUDE_CODE_SYSTEM_PROMPT s = true
  | VArray (b :: _) => is_some_and (get_str b "text") (starts_with CLAUDE_CODE_SYSTEM_PROMPT) = true
  | _ => False
  end.

Definition REMOVED_FIELDS : list string :=
  ["temperature"; "top_k"; "top_p"; "stop_sequences"; "tool_choice"].

(** The fields that rewriting may touch. *)
Definition API_FIELDS : list string :=
  REMOVED_FIELDS
  ++ ["model"; "metadata"; "tools"; "stream"; "system"; "messages"; "max_tokens"].

Lemma inject_user_id_get body a bytes body' sid k :
  k ≠ "metadata" → inject_metadata_user_id body a bytes = Done (body', sid) →
  vget body' k = vget body k.
Proof.
  intros Hk. unfold inject_metadata_user_id. destruct body; try done.
  set (m' := match m !! "metadata" with Some _ => m | None => _ end).
  assert (vget (VObject m') k = vget (VObject m) k) as <-.
  { unfold m'. simpl. destruct (m !! "metadata"); [done|]. by rewrite lookup_insert_ne. }
  clearbody m'. destruct (_ ≫= _); intros [= <- _];
    [by apply metadata_user_id_get|exact (set_metadata_get _ _ (VObject m') k Hk)].
Qed.

Lemma strip_cache_get body k :
  k ≠ "system" → k ≠ "messages" → vget (strip_cache_control body) k = vget body k.
Proof.
  intros. unfold strip_cache_control. rewrite vget_on_object. destruct body; try done.
  by rewrite !on_field_ne.
Qed.

Lemma limit_get body k : k ≠ "max_tokens" → vget (limit_max_tokens body) k = vget body k.
Proof.
  intros. unfold limit_max_tokens. repeat case_match; try done.
  rewrite vget_on_object. destruct body; try done. by rewrite lookup_insert_ne.
Qed.

Lemma limit_max_tokens_get body :
  vget (limit_max_tokens body) "max_tokens" =
    match vget body "max_tokens" ≫= as_f64 with
    | Some x => if f_lt (f_of_Z 32768) x then Some (of_i64 16384) else vget body "max_tokens"
    | None => vget body "max_tokens"
    end.
Proof.
  unfold limit_max_tokens. destruct (vget body "max_tokens" ≫= as_f64) as [y|] eqn:Hy; [|done].
  destruct (f_lt _ y) eqn:Hf; [|done]. destruct body; try done. simpl. by rewrite lookup_insert_eq.
Qed.

Lemma strip_cache_system body :
  vget (strip_cache_control body) "system" =
    on_array (map (on_object (delete "cache_control"))) <$> vget body "system".
Proof.
  unfold strip_cache_control. rewrite vget_on_object. destruct body; try done.
  by rewrite on_field_ne, on_field_eq.
Qed.

Lemma strip_cache_messages body :
  vget (strip_cache_control body) "messages" =
    on_array (on_contents (map (on_object (delete "cache_control")))) <$> vget body "messages".
Proof.
  unfold strip_cache_control. rewrite vget_on_object. destruct body; try done.
  by rewrite on_field_eq, on_field_ne.
Qed.

Lemma shape_get body k :
  k ∉ REMOVED_FIELDS → k ≠ "tools" → k ≠ "stream" → vget (shape_request body) k = vget body k.
Proof.
  intros Hk Ht Hs. unfold REMOVED_FIELDS in Hk. unfold shape_request. rewrite vget_on_object.
  destruct body as [| | | | |m]; try done. rewrite lookup_insert_ne by done.
  assert (∀ m' : gmap string Value, match m' !! "tools" with Some _ => m'
    | None => <["tools" := VArray []]> m' end !! k = m' !! k) as ->.
  { intros m'. destruct (m' !! "tools"); [done|]. by rewrite lookup_insert_ne. }
  by rewrite !lookup_delete_ne by set_solver.
Qed.

Lemma shape_fixed body :
  is_object body = true →
  vget (shape_request body) "stream" = Some (VBool true)
  ∧ vget (shape_request body) "tools" = Some (default (VArray []) (vget body "tools"))
  ∧ ∀ k, k ∈ REMOVED_FIELDS → vget (shape_request body) k = None.
Proof.
  intros Ho. unfold shape_request. destruct body as [| | | | |m]; try done. simpl.
  set (m' := delete "tool_choice" _).
  split; [by rewrite lookup_insert_eq|]. split.
  - rewrite lookup_insert_ne by done.
    assert (m' !! "tools" = m !! "tools") as <- by (unfold m'; by rewrite !lookup_delete_ne by done).
    destruct (m' !! "tools") eqn:Ht; [done|]. by rewrite lookup_insert_eq.
  - intros k Hk. assert (k ≠ "stream" ∧ k ≠ "tools") as [Hs Ht]
      by (unfold REMOVED_FIELDS in Hk; set_solver).
    rewrite lookup_insert_ne by done.
    assert (m' !! k = None) as Hm.
    { unfold m', REMOVED_FIELDS in *.
      repeat (apply elem_of_cons in Hk as [->|Hk];
              [repeat (rewrite lookup_delete_eq || rewrite lookup_delete_ne by done); done|]).
      set_solver. }
    destruct (m' !! "tools"); [done|]. by rewrite lookup_insert_ne.
Qed.

Definition text_block (s : string) : Value :=
  VObject (list_to_map [("type", VString "text"); ("text", VString s)]).

Lemma inject_system_spec body v :
  is_object body = true → inject_system_prompt body = Done v →
  is_object v = true
  ∧ (∀ k, k ≠ "system" → vget v k = vget body k)
  ∧ vget v "system" =
      match vget body "system" with
      | None => Some (VArray [banner_block])
      | Some (VString s) =>
          Some (if starts_with CLAUDE_CODE_SYSTEM_PROMPT s then VString s
                else VArray [banner_block; text_block s])
      | Some (VArray l) =>
          Some (VArray (if is_some_and (head l ≫= λ first, get_str first "text")
                             (starts_with CLAUDE_CODE_SYSTEM_PROMPT) then l else banner_block :: l))
      | other => other
      end.
Proof.
  intros Ho. unfold inject_system_prompt.
  assert (∀ blocks, is_object (on_object <["system" := VArray blocks]> body) = true
    ∧ (∀ k, k ≠ "system" → vget (on_object <["system" := VArray blocks]> body) k = vget body k)
    ∧ vget (on_object <["system" := VArray blocks]> body) "system" = Some (VArray blocks)) as Hput.
  { intros blocks. rewrite on_object_is_object. split; [done|]. destruct body; try done. simpl.
    split; [intros k Hk; by rewrite lookup_insert_ne|by rewrite lookup_insert_eq]. }
  destruct (vget body "system") as [[| | |sys|arr|]|] eqn:Hs; try (intros [= <-]; by rewrite Hs).
  - destruct (starts_with _ sys) eqn:Hb; intros [= <-]; [by rewrite Hs|by apply Hput].
  - destruct (is_some_and _ _) eqn:Hb; intros [= <-]; [by rewrite Hs|by apply Hput].
  - destruct body; try done. intros [= <-]. by apply Hput.
Qed.

(** A block without its mark for the cache. *)
Definition uncached (x x' : Value) : Prop :=
  match x with VObject m => x' = VObject (delete "cache_control" m) | _ => x' = x end.

Lemma strip_uncached l : Forall2 uncached l (map (on_object (delete "cache_control")) l).
Proof. apply Forall2_fmap_r, Forall_Forall2_diag, Forall_true. by intros []. Qed.

Definition message_uncached (msg msg' : Value) : Prop :=
  (∀ k, k ≠ "content" → vget msg' k = vget msg k)
  ∧ match vget msg "content" with
    | Some (VArray l) => ∃ l', vget msg' "content" = Some (VArray l') ∧ Forall2 uncached l l'
    | _ => msg' = msg
    end.

(** Every message of a list is in its place. *)
Definition messages_by (P : Value → Value → Prop) (o o' : option Value) : Prop :=
  match o with
  | Some (VArray l) => ∃ l', o' = Some (VArray l') ∧ Forall2 P l l'
  | _ => o' = o
  end.

Lemma on_messages_by (P : Value → Value → Prop) f o :
  (∀ x, P x (f x)) → messages_by P o (on_array (map f) <$> o).
Proof.
  intros Hf. destruct o as [[| | | |l|]|]; try done. simpl. eexists. split; [done|].
  apply Forall2_fmap_r, Forall_Forall2_diag, Forall_true. auto.
Qed.

(** The value is the one before, or a map without the fields that are alike. *)
Lemma content_uncached msg :
  message_uncached msg (on_object (on_field "content" (on_array (map (on_object (delete "cache_control"))))) msg).
Proof.
  unfold message_uncached. destruct msg as [| | | | |m]; try done. simpl. split.
  { intros k Hk. by rewrite on_field_ne. }
  destruct (m !! "content") as [[| | | |l|]|] eqn:Hc;
    try (f_equal; unfold on_field; apply map_eq; intros k; destruct (decide (k = "content")) as [->|];
         [rewrite lookup_alter_eq, Hc|rewrite lookup_alter_ne]; done).
  rewrite on_field_eq, Hc. simpl. eexists. split; [done|apply strip_uncached].
Qed.

(** The prompt of the client after the banner, which may already be its start. *)
Definition prompt_opened (o o' : option Value) : Prop :=
  match o with
  | None => o' = Some (VArray [banner_block])
  | Some (VString s) =>
      o' = Some (if starts_with CLAUDE_CODE_SYSTEM_PROMPT s then VString s
                 else VArray [banner_block; text_block s])
  | Some (VArray l) =>
      ∃ l', Forall2 uncached l l' ∧
        (banner_first (VArray l) ∧ o' = Some (VArray l') ∨
         ¬ banner_first (VArray l) ∧ o' = Some (VArray (banner_block :: l')))
  | _ => o' = o
  end.

Lemma banner_block_first rest : banner_first (VArray (banner_block :: rest)).
Proof. vm_compute. reflexivity. Qed.

Lemma uncached_banner l l' : Forall2 uncached l l' → banner_first (VArray l') ↔ banner_first (VArray l).
Proof.
  intros [|x x' r r' Hx _]; [done|]. simpl. unfold get_str, uncached in *.
  destruct x as [| | | | |m]; subst x'; try done. simpl. by rewrite lookup_delete_ne.
Qed.

#[local] Arguments starts_with : simpl never.

Lemma prompt_banner o o' :
  prompt_opened o o' →
  ∃ s, o' = Some s ∧ (banner_first s ∨ o = Some s ∧ as_str s = None ∧ as_array s = None).
Proof.
  destruct o as [[| | |s|l|]|]; simpl; try (intros ->; eexists; split; [done|by right]).
  - intros ->. destruct (starts_with _ s) eqn:Hs; (eexists; split; [done|left]); [done|apply banner_block_first].
  - intros (l' & Hl & [[Hb ->]|[Hb ->]]); (eexists; split; [done|left]);
      [by apply (uncached_banner _ _ Hl)|apply banner_block_first].
  - intros ->. eexists. split; [done|left]. apply banner_block_first.
Qed.

Lemma banner_head l :
  is_some_and (head l ≫= λ first, get_str first "text") (starts_with CLAUDE_CODE_SYSTEM_PROMPT) = true ↔
  banner_first (VArray l).
Proof. by destruct l. Qed.

Lemma prompt_injected o o' :
  o' = match on_array (map (on_object (delete "cache_control"))) <$> o with
       | None => Some (VArray [banner_block])
       | Some (VString s) =>
           Some (if starts_with CLAUDE_CODE_SYSTEM_PROMPT s then VString s
                 else VArray [banner_block; text_block s])
       | Some (VArray l) =>
           Some (VArray (if is_some_and (head l ≫= λ first, get_str first "text")
                              (starts_with CLAUDE_CODE_SYSTEM_PROMPT) then l else banner_block :: l))
       | other => other
       end → prompt_opened o o'.
Proof.
  intros ->. destruct o as [[| | | |l|]|]; try done. cbn [fmap option_fmap option_map on_array prompt_opened].
  set (l' := map _ l). assert (Forall2 uncached l l') as Hl by apply strip_uncached. exists l'. split; [done|].
  rewrite <- (uncached_banner _ _ Hl), <- banner_head. destruct (is_some_and _ _); [by left|by right].
Qed.

(** The metadata with a user id: the client's, with the device of the account, or a new one
    with a new session, which is noted beside it. *)
Definition metadata_identified (a : Account) (bytes : list Z) (o o' : option Value) : Prop :=
  match default (VObject ∅) o with
  | VObject m =>
      match m !! "user_id" with
      | Some _ => metadata_forwarded a (Some (VObject m)) o'
      | None =>
          ∃ m', o' = Some (VObject m') ∧ (∀ k, k ∉ ["user_id"; "_session_id"] → m' !! k = m !! k)
            ∧ m' !! "_session_id" = Some (VString (generate_session_uuid bytes))
            ∧ m' !! "user_id" = Some (VString (to_text (VObject (list_to_map
                [("device_id", VString (acc_device_id a));
                 ("account_uuid", VString (default "" (acc_account_uuid a)));
                 ("session_id", VString (generate_session_uuid bytes))]))))
      end
  | _ => o' = o
  end.

Definition note_session (sid : option string) (body : Value) : Value :=
  match sid with Some sid => set_metadata "_session_id" (VString sid) body | None => body end.

Lemma inject_user_id_metadata body a bytes b sid :
  inject_metadata_user_id body a bytes = Done (b, sid) →
  metadata_identified a bytes (vget body "metadata") (vget (note_session sid b) "metadata").
Proof.
  unfold inject_metadata_user_id. destruct body as [| | | | |m0]; try done.
  set (m := match m0 !! "metadata" with None => _ | Some _ => m0 end).
  assert (m !! "metadata" = Some (default (VObject ∅) (m0 !! "metadata"))) as Hm.
  { unfold m. destruct (m0 !! "metadata") eqn:Hx; simpl; [done|by rewrite lookup_insert_eq]. }
  change (vget (VObject m0) "metadata") with (m0 !! "metadata"). unfold metadata_identified.
  rewrite Hm. cbn [mbind option_bind]. set (o := m0 !! "metadata") in *.
  assert (∀ w, default (VObject ∅) o = w → (∀ l, w ≠ VObject l) → o = Some w) as Hsame.
  { intros w Hw Hno. destruct o; [by subst w|]. subst w. by destruct (Hno ∅). }
  destruct (default (VObject ∅) o) as [| | | | |meta]; cbn [vget].
  1-5: intros [= <- <-]; simpl; rewrite !on_field_eq, Hm; simpl; symmetry; by apply Hsame.
  destruct (meta !! "user_id") as [u|] eqn:Hu; intros [= <- <-].
  - pose proof (metadata_user_id_forwarded (VObject m) a) as Hf.
    change (vget (VObject m) "metadata") with (m !! "metadata") in Hf. by rewrite Hm in Hf.
  - simpl. rewrite !on_field_eq, Hm. simpl. eexists. split; [done|]. split_and!.
    + intros k Hk. rewrite !lookup_insert_ne by set_solver. done.
    + by rewrite lookup_insert_eq.
    + by rewrite lookup_insert_ne, lookup_insert_eq.
Qed.

End facts.

(** ** Empty text blocks *)

Lemma filter_item_object block :
  filter_item (VObject block) =
    if is_tool_result block
    then VObject (insert_opt "content" id (on_array filter_blocks <$> block !! "content") block)
    else VObject block.
Proof.
  simpl. rewrite lookup_fmap. destruct (is_tool_result block); [|done].
  by destruct (block !! "content") as [[]|].
Qed.

Lemma filter_blocks_cons x l :
  filter_blocks (x :: l) =
    if is_empty_block x then filter_blocks l else filter_item x :: filter_blocks l.
Proof. done. Qed.

(** The blocks of a list, those inside tool results included. *)
Inductive block_of (l : list Value) (x : Value) : Prop :=
  | block_here : x ∈ l → block_of l x
  | block_inside block l' :
      VObject block ∈ l → is_tool_result block = true → block !! "content" = Some (VArray l') →
      block_of l' x → block_of l x.

Lemma filter_blocks_elem l x :
  x ∈ filter_blocks l ↔ ∃ y, y ∈ l ∧ is_empty_block y = false ∧ x = filter_item y.
Proof.
  induction l as [|y l IH]; [set_solver|]. rewrite filter_blocks_cons. setoid_rewrite elem_of_cons.
  destruct (is_empty_block y) eqn:Hy; rewrite ?elem_of_cons, IH; split.
  - intros (z & Hz & Hez & ->). eauto.
  - intros (z & [->|Hz] & Hez & ->); [congruence|eauto].
  - intros [->|(z & Hz & Hez & ->)]; eauto.
  - intros (z & [->|Hz] & Hez & ->); [by left|eauto].
Qed.

(** The type of a block stays. *)
Lemma filter_item_type block block' k :
  filter_item (VObject block) = VObject block' → k ≠ "content" → block' !! k = block !! k.
Proof.
  rewrite filter_item_object. intros Hf Hk. destruct (is_tool_result block); injection Hf as <-; [|done].
  by apply lookup_insert_opt_ne.
Qed.

Lemma filter_item_nonempty y : is_empty_block y = false → is_empty_block (filter_item y) = false.
Proof.
  destruct y as [| | | | |block]; try done. intros Hy. destruct (filter_item (VObject block)) eqn:Hf;
    try (rewrite filter_item_object in Hf; destruct (is_tool_result block); done).
  unfold is_empty_block in *. simpl in *.
  by rewrite !(filter_item_type _ _ _ Hf) by done.
Qed.

(** No block that is left in a rewritten list, at whatever depth of nested tool results, is
    an empty text; what is dropped is empty, and what is kept keeps its order. *)
Theorem no_empty_text_left l :
  (∀ x, block_of (filter_blocks l) x → is_empty_block x = false)
  ∧ filter_blocks l = filter_item <$> filter (λ x, is_empty_block x = false) l.
Proof.
  split.
  - intros x Hx. remember (filter_blocks l) as k eqn:Hk. revert l Hk.
    induction Hx as [k x Hx|k x block l' Hb Ht Hc Hx IH]; intros l ->.
    + apply filter_blocks_elem in Hx as (y & _ & Hy & ->). by apply filter_item_nonempty.
    + apply filter_blocks_elem in Hb as (y & _ & _ & Hy).
      destruct y as [| | | | |block0]; try done. symmetry in Hy.
      assert (is_tool_result block0 = true) as Ht0.
      { unfold is_tool_result in *. by rewrite <- (filter_item_type _ _ "type" Hy). }
      rewrite filter_item_object, Ht0 in Hy. injection Hy as <-.
      rewrite lookup_insert_opt in Hc.
      destruct (block0 !! "content") as [[]|] eqn:Hc0; simpl in Hc; try congruence.
      injection Hc as <-. eauto.
  - induction l as [|y l IH]; [done|]. rewrite filter_blocks_cons.
    destruct (is_empty_block y) eqn:Hy.
    + rewrite filter_cons_False by congruence. done.
    + rewrite filter_cons_True by done. rewrite fmap_cons. by f_equal.
Qed.

(** *** Lists that lose their empty texts *)

Fixpoint value_size (v : Value) : nat :=
  match v with
  | VArray l => S ((fix size (l : list Value) := match l with [] => 0 | x :: l => value_size x + size l end) l)
  | VObject m => S (map_fold (λ _ x n, value_size x + n) 0 m)
  | _ => 1
  end%nat.

Lemma value_size_array x l : value_size (VArray (x :: l)) = (value_size x + value_size (VArray l))%nat.
Proof. simpl. lia. Qed.

Lemma value_size_pos v : (0 < value_size v)%nat.
Proof. destruct v; simpl; lia. Qed.

Lemma value_size_field m k v : m !! k = Some v → (value_size v < value_size (VObject m))%nat.
Proof.
  intros Hk. simpl. rewrite (map_fold_delete_L _ _ k v m); [lia| |done]. intros. lia.
Qed.

(** A text block without text. *)
Definition empty_text (x : Value) : Prop :=
  ∃ m, x = VObject m ∧ m !! "type" = Some (VString "text") ∧ ∀ s, m !! "text" = Some (VString s) → s = "".

Lemma is_empty_block_true x : is_empty_block x = true ↔ empty_text x.
Proof.
  unfold is_empty_block, empty_text. destruct x as [| | | | |m]; try (split; [done|by intros (? & ? & _)]).
  simpl. rewrite andb_true_iff, bool_decide_eq_true. split.
  - intros [Ht Hs]. exists m. split; [done|].
    destruct (m !! "type") as [[]|]; simplify_eq/=. split; [done|]. intros s Hm. rewrite Hm in Hs. by destruct s.
  - intros (m' & [= <-] & -> & Hs). split; [done|]. destruct (m !! "text") as [[| | |s| |]|]; try done.
    simpl. by rewrite (Hs s eq_refl).
Qed.

(** [trimmed l l']: [l'] is [l] without its empty texts, also inside the results of tools. *)
Inductive trimmed : list Value → list Value → Prop :=
  | trimmed_nil : trimmed [] []
  | trimmed_empty x l l' : empty_text x → trimmed l l' → trimmed (x :: l) l'
  | trimmed_result m inner inner' l l' :
      m !! "type" = Some (VString "tool_result") → m !! "content" = Some (VArray inner) →
      trimmed inner inner' → trimmed l l' →
      trimmed (VObject m :: l) (VObject (<["content" := VArray inner']> m) :: l')
  | trimmed_other x l l' :
      ¬ empty_text x →
      (∀ m inner, x = VObject m → m !! "type" = Some (VString "tool_result") →
         m !! "content" ≠ Some (VArray inner)) →
      trimmed l l' → trimmed (x :: l) (x :: l').

Lemma is_tool_result_true m : is_tool_result m = true ↔ m !! "type" = Some (VString "tool_result").
Proof.
  unfold is_tool_result. rewrite bool_decide_eq_true. destruct (m !! "type") as [[]|]; naive_solver.
Qed.

Lemma filter_blocks_trimmed l : trimmed l (filter_blocks l).
Proof.
  remember (value_size (VArray l)) as n eqn:Hn. revert l Hn.
  induction n as [n IHn] using lt_wf_ind. intros [|x l] ->; [constructor|].
  pose proof (value_size_pos x) as Hx. rewrite value_size_array in IHn.
  assert (trimmed l (filter_blocks l)) as Hl by (eapply (IHn (value_size (VArray l))); [lia|done]).
  rewrite filter_blocks_cons. destruct (is_empty_block x) eqn:He.
  { apply is_empty_block_true in He. by apply trimmed_empty. }
  assert (¬ empty_text x) as Hne by (rewrite <- is_empty_block_true; by rewrite He).
  destruct x as [| | | | |m]; try by apply trimmed_other. rewrite filter_item_object.
  destruct (is_tool_result m) eqn:Ht.
  2:{ apply trimmed_other; [done| |done]. intros m' inner [= <-] Hty%is_tool_result_true. congruence. }
  apply is_tool_result_true in Ht.
  destruct (m !! "content") as [[| | | |inner|]|] eqn:Hc; cbn [fmap option_fmap option_map insert_opt on_array id].
  5:{ eapply trimmed_result; [done..| |done]. eapply (IHn (value_size (VArray inner))); [|done].
      apply value_size_field in Hc. lia. }
  all: rewrite ?(insert_id _ _ _ Hc); (apply trimmed_other; [done| |done]); intros m' inner' [= <-] _; congruence.
Qed.
