(* ===== verification/RewriteTextFacts.v ===== *)
(** * RewriteTextFacts: the theorems on rewritten text and events

    Outside the reminders the text of a message stays; the attestation changes
    five digits; events and feature-flag queries carry the account's identity and
    nothing that shows the gateway. *)

From S2P Require Import Prelude Text F64 Json Http Model Identity Account GatewayHeaders Rewriter.
From S2P Require Import RewriteBody RewriteBodyFacts.

(** ** Replacements *)

(** The pieces around the matches, and text put together from pieces and what
    stands between them. *)
Fixpoint outside (n : nat) (text : string) (l : list Captures) : list string :=
  match l with
  | [] => [String.substring n (String.length text - n) text]
  | c :: l => String.substring n (cap_start c - n) text :: outside (cap_end c) text l
  end.

Fixpoint weave (pieces fills : list string) : string :=
  match pieces, fills with
  | piece :: pieces, fill :: fills => piece +:+ fill +:+ weave pieces fills
  | piece :: _, [] => piece
  | [], _ => ""
  end.

Lemma splice_weave f n text l : splice f n text l = weave (outside n text l) (f <$> l).
Proof. revert n. induction l as [|c l IH]; intros n; simpl; [done|]. by rewrite IH. Qed.

Section text.
Context `{JsonText} `{Digest} `{RegexEngine} `{BodyCodecs} `{!RegexLaws}.

Lemma splice_self text l n :
  spans_from n text l → (n ≤ String.length text)%nat →
  splice (cap_text text) n text l = String.substring n (String.length text - n) text.
Proof.
  revert n. induction l as [|c l IH]; intros n Hs Hn; [done|]. destruct Hs as (Hc & He & Hs).
  simpl. rewrite IH by done. unfold cap_text.
  replace (String.length text - n)%nat
    with (cap_start c - n + (cap_end c - cap_start c + (String.length text - cap_end c)))%nat by lia.
  rewrite !substring_split.
  replace (n + (cap_start c - n))%nat with (cap_start c) by lia.
  by replace (cap_start c + (cap_end c - cap_start c))%nat with (cap_end c) by lia.
Qed.

(** [t'] differs from [t] at most inside the matches of a pattern. *)
Definition keeps_outside (pattern t t' : string) : Prop :=
  let caps := captures_iter pattern t in
  let pieces := outside 0 t caps in
  t = weave pieces (cap_text t <$> caps)
  ∧ ∃ fills, length fills = length caps ∧ t' = weave pieces fills.

Lemma replace_keeps_outside pattern t f : keeps_outside pattern t (replace_all_with pattern t f).
Proof.
  unfold keeps_outside, replace_all_with. split.
  - rewrite <- splice_weave, splice_self, Nat.sub_0_r by (apply captures_spans || lia).
    by rewrite substring_whole.
  - exists (f <$> captures_iter pattern t). split; [apply length_fmap|apply splice_weave].
Qed.

(** ** Messages of the official client *)

Lemma not_among_four (a b c e k : string) :
  k ∉ [a; b; c; e] → k ≠ a ∧ k ≠ b ∧ k ≠ c ∧ k ≠ e ∧ True.
Proof. rewrite !not_elem_of_cons. naive_solver. Qed.

Definition item_kept (item item' : Value) : Prop :=
  (∀ k, k ≠ "text" → vget item' k = vget item k)
  ∧ match get_str item "text" with
    | Some t => ∃ t', get_str item' "text" = Some t' ∧ keeps_outside SYSTEM_REMINDER_REGEX t t'
    | None => item' = item
    end.

Definition message_kept (msg msg' : Value) : Prop :=
  (∀ k, k ≠ "content" → vget msg' k = vget msg k)
  ∧ match vget msg "content" with
    | Some (VString s) =>
        ∃ s', vget msg' "content" = Some (VString s') ∧ keeps_outside SYSTEM_REMINDER_REGEX s s'
    | Some (VArray l) => ∃ l', vget msg' "content" = Some (VArray l') ∧ Forall2 item_kept l l'
    | _ => msg' = msg
    end.

Lemma rewrite_text_kept f item : item_kept item (rewrite_text (rewrite_in_reminders f) item).
Proof.
  unfold item_kept, rewrite_text, get_str. destruct item as [| | | | |m]; try done. simpl.
  destruct (m !! "text" ≫= as_str) as [t|] eqn:Ht; [|done]. simpl. split.
  - intros k Hk. by rewrite lookup_insert_ne.
  - rewrite lookup_insert_eq. eexists. split; [done|apply replace_keeps_outside].
Qed.

Lemma message_content_kept f msg :
  message_kept msg (rewrite_message_content (rewrite_in_reminders f) msg).
Proof.
  unfold message_kept, rewrite_message_content. destruct msg as [| | | | |m]; try done. simpl.
  destruct (m !! "content") as [[| | |s|l|]|]; try done; simpl; split;
    try (intros k Hk; by rewrite lookup_insert_ne).
  - rewrite lookup_insert_eq. eexists. split; [done|apply replace_keeps_outside].
  - rewrite lookup_insert_eq. eexists. split; [done|].
    apply Forall2_fmap_r, Forall_Forall2_diag, Forall_true. intros. apply rewrite_text_kept.
Qed.

(** A message of the client as it goes on: empty texts are dropped, and other texts are kept
    outside of their reminders. *)
Definition message_forwarded (msg msg' : Value) : Prop :=
  (∀ k, k ≠ "content" → vget msg' k = vget msg k)
  ∧ match vget msg "content" with
    | Some (VString s) =>
        ∃ s', vget msg' "content" = Some (VString s') ∧ keeps_outside SYSTEM_REMINDER_REGEX s s'
    | Some (VArray l) =>
        ∃ rest l', trimmed l rest ∧ Forall2 item_kept rest l' ∧ vget msg' "content" = Some (VArray l')
    | _ => msg' = msg
    end.

Lemma filtered_message msg :
  let msg1 := on_object (on_field "content" (on_array filter_blocks)) msg in
  (∀ k, k ≠ "content" → vget msg1 k = vget msg k)
  ∧ match vget msg "content" with
    | Some (VArray l) => vget msg1 "content" = Some (VArray (filter_blocks l))
    | _ => msg1 = msg
    end.
Proof.
  destruct msg as [| | | | |m]; try done. cbn [on_object vget]. split.
  { intros k Hk. by rewrite on_field_ne. }
  destruct (m !! "content") as [x|] eqn:Hc.
  - destruct x as [| | | |l|]; rewrite ?on_field_eq, ?Hc; try done; unfold on_field;
      f_equal; apply map_eq; intros k; destruct (decide (k = "content")) as [->|];
      by rewrite ?lookup_alter_eq, ?lookup_alter_ne, ?Hc.
  - unfold on_field. f_equal. apply map_eq. intros k. destruct (decide (k = "content")) as [->|];
      by rewrite ?lookup_alter_eq, ?lookup_alter_ne, ?Hc.
Qed.

Lemma message_rewritten f msg :
  message_forwarded msg (rewrite_message_content (rewrite_in_reminders f)
    (on_object (on_field "content" (on_array filter_blocks)) msg)).
Proof.
  destruct (filtered_message msg) as [Hk Hc]. cbv zeta in *. set (msg1 := on_object _ msg) in *.
  destruct (message_content_kept f msg1) as [Hk' Hc']. set (msg2 := rewrite_message_content _ _) in *.
  clearbody msg1 msg2. split; [intros k Hn; by rewrite Hk', Hk|].
  destruct (vget msg "content") as [x|] eqn:Hx; [destruct x as [| | |s|l|]|];
    try (subst msg1; rewrite Hx in Hc'; done).
  rewrite Hc in Hc'. destruct Hc' as (l' & Hl' & Hf). exists (filter_blocks l), l'.
  split_and!; [apply filter_blocks_trimmed|done|done].
Qed.

Lemma messages_rewritten f o :
  messages_by message_forwarded o
    (on_array (map (rewrite_message_content (rewrite_in_reminders f))) <$>
      (on_array (on_contents filter_blocks) <$> o)).
Proof.
  replace (_ <$> (_ <$> o)) with (on_array (map (λ msg, rewrite_message_content (rewrite_in_reminders f)
    (on_object (on_field "content" (on_array filter_blocks)) msg))) <$> o).
  { apply on_messages_by. intros msg. apply message_rewritten. }
  destruct o as [[| | | |l|]|]; try done. simpl. unfold on_contents. by rewrite map_map.
Qed.

(** The parts of a request of the official client. *)
Record client_forwarded (a : Account) (p v : Value) : Prop := {
  cf_messages : messages_by message_forwarded (vget p "messages") (vget v "messages");
  cf_model : model_forwarded (vget p "model") (vget v "model");
  cf_metadata : metadata_forwarded a (vget p "metadata") (vget v "metadata");
  cf_others : ∀ k, k ∉ ["model"; "metadata"; "system"; "messages"] → vget v k = vget p k;
}.

Lemma strip_empty_get p k :
  vget (strip_empty_text_blocks p) k =
    if decide (k = "messages") then on_array (on_contents filter_blocks) <$> vget p k
    else if decide (k = "system") then on_array filter_blocks <$> vget p k else vget p k.
Proof.
  unfold strip_empty_text_blocks. rewrite vget_on_object. destruct p; try by repeat case_decide.
  repeat case_decide; subst; simpl.
  - by rewrite on_field_eq, on_field_ne.
  - by rewrite on_field_ne, on_field_eq.
  - by rewrite !on_field_ne.
Qed.

Lemma rewritten_forwarded p account d v :
  rewrite_messages (strip_empty_text_blocks p) account CT_ClaudeCode d = Done v →
  client_forwarded account p v.
Proof.
  unfold rewrite_messages. set (q := strip_empty_text_blocks p).
  assert (∀ k, k ≠ "messages" → k ≠ "system" → vget q k = vget p k) as Hq.
  { intros k Hm Hs. unfold q. rewrite strip_empty_get. by rewrite !decide_False. }
  assert (vget q "messages" = on_array (on_contents filter_blocks) <$> vget p "messages") as Hqm.
  { unfold q. rewrite strip_empty_get. by rewrite decide_True. }
  clearbody q. set (b := rewrite_metadata_user_id _ _).
  assert (∀ k, k ≠ "metadata" → vget b k = vget (strip_model_suffix q) k) as Hb
    by (intros k Hk; unfold b; by rewrite metadata_user_id_get).
  assert (metadata_forwarded account (vget p "metadata") (vget b "metadata")) as Hmeta.
  { rewrite <- Hq, <- (strip_model_get q) by done. apply metadata_user_id_forwarded. }
  clearbody b. unfold rewrite_system_prompt.
  destruct (cch_hash_of b _ _ _) as [h|]; [|by intros [=]].
  cbn [mbind outcome_bind]. set (f := rewrite_prompt_text _ _ _ _).
  intros <-%Done_inj. unfold scrub_git_user_in_reminders.
  match goal with |- client_forwarded _ _ ?x => set (v := x) end.
  assert (∀ k, k ≠ "system" → k ≠ "messages" → vget v k = vget b k) as Hv.
  { intros k Hs Hm. unfold v. destruct b as [| | | | |m]; try done. cbn [on_object vget].
    by rewrite !on_field_ne. }
  assert (vget v "messages" =
    on_array (map (rewrite_message_content (rewrite_in_reminders f))) <$> vget b "messages") as Hvm.
  { unfold v. destruct b as [| | | | |m]; try done. cbn [on_object vget].
    by rewrite on_field_ne, on_field_eq, on_field_ne. }
  clearbody v. split.
  - rewrite Hvm, Hb, strip_model_get, Hqm by done. apply messages_rewritten.
  - rewrite Hv, Hb, <- Hq by done. apply strip_model_forwarded.
  - by rewrite Hv.
  - intros k (Hmo & Hme & Hsy & Hms & _)%not_among_four. by rewrite Hv, Hb, strip_model_get, Hq.
Qed.
End text.

(** ** The attestation *)

Lemma pad_left_length n s : String.length (pad_left n s) = (n + String.length s)%nat.
Proof. induction n as [|n IH]; simpl; [done|by rewrite IH]. Qed.

Lemma hex_digits_length n z acc k :
  0 ≤ z < 16 ^ Z.of_nat k → (0 < k)%nat →
  (String.length (hex_digits n z acc) ≤ String.length acc + k)%nat.
Proof.
  revert n z acc. induction k as [|k IH]; intros n z acc Hz Hk; [lia|].
  destruct n as [|n]; [simpl; lia|]. rewrite hex_digits_S.
  destruct (Z.eqb_spec (z / 16) 0) as [E|E]; [simpl; lia|].
  assert (0 ≤ z / 16 < 16 ^ Z.of_nat k) as Hd.
  { split; [apply Z.div_pos; lia|]. apply Z.div_lt_upper_bound; [lia|].
    rewrite Nat2Z.inj_succ, Z.pow_succ_r in Hz by lia. lia. }
  destruct k as [|k]; [simpl in Hd; lia|].
  specialize (IH n (z / 16) (String (hex_char (z mod 16)) acc) Hd ltac:(lia)). simpl in *. lia.
Qed.

Lemma lower_hex5_length z : 0 ≤ z < 1048576 → String.length (lower_hex5 z) = 5%nat.
Proof.
  intros Hz. unfold lower_hex5. rewrite pad_left_length.
  pose proof (hex_digits_length 16 z "" 5 Hz ltac:(lia)) as Hl. fold (lower_hex z) in Hl.
  change (String.length "") with 0%nat in Hl. lia.
Qed.

(** The attestation replaces the five zeros of the first placeholder in the serialized body
    by the low twenty bits of the hash of the whole body, zeros included; it changes nothing
    else, so that putting the zeros back gives the body that was hashed. A later placeholder
    stays. *)
Theorem attestation_spec `{BodyCodecs} body :
  match find_str CCH_PLACEHOLDER body with
  | Some i =>
      ∃ pre post digits,
        String.length pre = i ∧ String.length digits = 5%nat
        ∧ digits = lower_hex5 (Z.land (xxh64 body CCH_ATTESTATION_SEED) 1048575)
        ∧ body = pre +:+ "cch=" +:+ "00000" +:+ post
        ∧ compute_cch_attestation body = pre +:+ "cch=" +:+ digits +:+ post
        ∧ ∀ pre' post', body = pre' +:+ CCH_PLACEHOLDER +:+ post' → (i ≤ String.length pre')%nat
  | None => compute_cch_attestation body = body
  end.
Proof.
  unfold compute_cch_attestation. destruct (find_str CCH_PLACEHOLDER body) as [i|] eqn:Hf; [|done].
  apply find_str_spec in Hf as (pre & post & Hb & Hi & Hmin).
  set (digits := lower_hex5 _). exists pre, post, digits.
  split_and!; [done| |done|by rewrite Hb| |done].
  - apply lower_hex5_length. change 1048575 with (Z.ones 20). rewrite Z.land_ones by lia.
    apply Z.mod_pos_bound. lia.
  - clearbody digits. clear Hmin. subst i. rewrite Hb.
    assert (pre +:+ CCH_PLACEHOLDER +:+ post = (pre +:+ "cch=") +:+ "00000" +:+ post) as ->
      by by rewrite <- str_app_assoc.
    assert ((pre +:+ "cch=") +:+ "00000" +:+ post = ((pre +:+ "cch=") +:+ "00000") +:+ post) as Hs
      by by rewrite !str_app_assoc.
    replace (String.length pre + 4)%nat with (String.length (pre +:+ "cch=")) by by rewrite length_append.
    rewrite take_append, Hs.
    replace (String.length pre + 9)%nat with (String.length ((pre +:+ "cch=") +:+ "00000"))
      by (rewrite !length_append; simpl; lia).
    rewrite slice_append. by rewrite <- str_app_assoc.
Qed.

(** The printed body as it is sent: at most the five zeros of its first placeholder differ. *)
Definition attested (text out : string) : Prop :=
  (out = text ∧ ∀ pre post, text ≠ pre +:+ CCH_PLACEHOLDER +:+ post) ∨
  ∃ pre post digits, String.length digits = 5%nat
    ∧ text = pre +:+ "cch=" +:+ "00000" +:+ post ∧ out = pre +:+ "cch=" +:+ digits +:+ post
    ∧ ∀ pre' post', text = pre' +:+ CCH_PLACEHOLDER +:+ post' → (String.length pre ≤ String.length pre')%nat.

Lemma compute_attested `{BodyCodecs} text : attested text (compute_cch_attestation text).
Proof.
  pose proof (attestation_spec text) as Hs. destruct (find_str CCH_PLACEHOLDER text) eqn:Hf.
  - right. destruct Hs as (pre & post & digits & <- & Hd & _ & Ht & Ho & Hmin). by exists pre, post, digits.
  - left. split; [done|]. by apply find_str_none.
Qed.

(** C9: What rewrite_body makes of a message request of the official client (a body that is
    JSON) is the printed text of a body in which, against the client's: every message is in its
    place with all its fields but the content, a content that is text differs at most inside
    system reminders, and a list of blocks has lost its empty texts, also those inside tool
    results at any depth, while each other block is in order with every field but text, which
    differs at most inside system reminders; the model has at most lost its suffix [1m]; of the
    metadata only a user id that is text is changed, to the device of the account; and every
    other field but the system prompt, which is rewritten, is the client's. In the printed text
    the five zeros of the first 'cch=00000', wherever it stands, also in a user's message,
    become five other digits where a conversation is billed by rewriting, and nothing else is
    changed. *)
Theorem client_messages_kept `{JsonText} `{Digest} `{RegexEngine} `{BodyCodecs} `{!RegexLaws}
    body path account d p out :
  starts_with "/v1/messages" path = true → body ≠ "" → json_from_str body = Ok p →
  rewrite_body body path account CT_ClaudeCode d = Done out →
  ∃ v, client_forwarded account p v ∧
    let text := default body (res_ok (json_to_string v)) in
    if decide (classify_message_endpoint path = ME_Inference ∧ acc_billing_mode account = BM_Rewrite)
    then attested text out else out = text.
Proof.
  intros Hpath Hbody Hp. unfold rewrite_body.
  destruct (is_empty body) eqn:He; [by destruct body|]. rewrite Hp, Hpath. cbn [mbind outcome_bind].
  destruct (rewrite_messages _ _ _ _) as [v|] eqn:Hv; [|by intros [=]]. cbn [mbind outcome_bind].
  intros <-%Done_inj. exists v. split; [by eapply rewritten_forwarded|]. cbv zeta.
  case_decide as Hd.
  - rewrite !bool_decide_true by apply Hd. apply compute_attested.
  - destruct (bool_decide _ && bool_decide _) eqn:Hb; [|done].
    apply andb_true_iff in Hb as [Hi%bool_decide_eq_true Hm%bool_decide_eq_true]. by destruct Hd.
Qed.

(** ** Events *)

Lemma replace_key_get k v m k' :
  replace_key k v m !! k' = if decide (k = k') then (λ _, v) <$> m !! k' else m !! k'.
Proof.
  unfold replace_key. destruct (decide (k = k')) as [<-|Hk].
  - destruct (m !! k) eqn:Hm; [by rewrite lookup_insert_eq|by rewrite Hm].
  - destruct (m !! k); [|done]. by rewrite lookup_insert_ne.
Qed.

Lemma set_organization_get k a m k' :
  set_organization k a m !! k' =
    if decide (k = k') then VString <$> acc_organization_uuid a else m !! k'.
Proof.
  unfold set_organization. destruct (acc_organization_uuid a), (decide (k = k')) as [<-|Hk]; simpl;
    by rewrite ?lookup_insert_eq, ?lookup_delete_eq, ?lookup_insert_ne, ?lookup_delete_ne by done.
Qed.

Lemma replace_organization_get a m k :
  replace_organization a m !! k =
    if decide ("organization_uuid" = k)
    then m !! k ≫= λ _, VString <$> acc_organization_uuid a else m !! k.
Proof.
  unfold replace_organization. destruct (m !! "organization_uuid") eqn:Hm.
  - rewrite set_organization_get. destruct (decide _) as [<-|]; [|done]. by rewrite Hm.
  - destruct (decide _) as [<-|]; [|done]. by rewrite Hm.
Qed.

Lemma replace_uuids_get `{Digest} a m k :
  replace_uuids a m !! k =
    if decide ("organization_uuid" = k)
    then m !! k ≫= λ _, VString <$> acc_organization_uuid a
    else if decide ("account_uuid" = k)
    then (λ _, VString (account_uuid_or_derived a)) <$> m !! k else m !! k.
Proof.
  unfold replace_uuids. rewrite replace_organization_get, replace_key_get.
  destruct (decide ("organization_uuid" = k)) as [<-|]; [|done].
  by destruct (decide ("account_uuid" = _)).
Qed.

Lemma remove_gateway_get m k :
  remove_gateway_fields m !! k =
    if bool_decide (k ∈ ["gateway"; "base_url"; "baseUrl"]) then None else m !! k.
Proof.
  unfold remove_gateway_fields. case_bool_decide as Hk.
  - repeat (apply elem_of_cons in Hk as [->|Hk];
      [repeat first [rewrite lookup_delete_eq | rewrite lookup_delete_ne by done]; done|]).
    by apply not_elem_of_nil in Hk.
  - rewrite !not_elem_of_cons in Hk. destruct Hk as (Hg & Hb & Hu & _).
    by rewrite !lookup_delete_ne.
Qed.

Lemma on_text_ne k k' f m : k ≠ k' → on_text k f m !! k' = m !! k'.
Proof. intros. unfold on_text. destruct (_ ≫= _); [|done]. by rewrite lookup_insert_ne. Qed.

Section events.
Context `{JsonText} `{Digest} `{RegexEngine} `{BodyCodecs}.

(** What an event of another installation becomes as one of this account. *)
Record event_of (a : Account) (e e' : gmap string Value) : Prop := {
  ev_hidden k : k ∈ ["gateway"; "base_url"; "baseUrl"] → e' !! k = None;
  ev_device : e' !! "device_id" = (λ _, VString (acc_device_id a)) <$> e !! "device_id";
  ev_email : e' !! "email" = (λ _, VString (acc_email a)) <$> e !! "email";
  ev_account :
    e' !! "account_uuid" = (λ _, VString (account_uuid_or_derived a)) <$> e !! "account_uuid";
  ev_organization :
    e' !! "organization_uuid" = e !! "organization_uuid" ≫= λ _, VString <$> acc_organization_uuid a;
  ev_auth auth : e !! "auth" = Some (VObject auth) →
    ∃ auth', e' !! "auth" = Some (VObject auth')
      ∧ auth' !! "account_uuid"
        = (λ _, VString (account_uuid_or_derived a)) <$> auth !! "account_uuid"
      ∧ auth' !! "organization_uuid"
        = auth !! "organization_uuid" ≫= λ _, VString <$> acc_organization_uuid a;
  ev_env : e' !! "env" =
    (λ _, build_full_env_json (parse_canonical_env (acc_canonical_env a))) <$> e !! "env";
  ev_kept k :
    k ∉ ["gateway"; "base_url"; "baseUrl"; "device_id"; "email"; "account_uuid";
         "organization_uuid"; "auth"; "env"; "process"; "additional_metadata"; "user_attributes"] →
    e' !! k = e !! k;
}.

Ltac event_get :=
  repeat first
    [ rewrite on_text_ne by done | rewrite on_field_ne by done | rewrite replace_key_get
    | rewrite replace_uuids_get | rewrite remove_gateway_get | rewrite on_field_eq
    | rewrite decide_False by done | rewrite decide_True by done
    | rewrite bool_decide_eq_false_2 by done ].

Lemma rewrite_event_fields_spec a proc draw e :
  event_of a e
    (rewrite_event_fields a (build_full_env_json (parse_canonical_env (acc_canonical_env a)))
       proc draw e).
Proof.
  unfold rewrite_event_fields. split.
  - intros k Hk. repeat (apply elem_of_cons in Hk as [->|Hk]; [by event_get|]).
    by apply not_elem_of_nil in Hk.
  - by event_get.
  - by event_get.
  - by event_get.
  - by event_get.
  - intros auth Ha. eexists. split; [event_get; rewrite Ha; reflexivity|].
    rewrite !replace_uuids_get. done.
  - by event_get.
  - intros k Hk. rewrite !not_elem_of_cons in Hk.
    destruct Hk as (? & ? & ? & ? & ? & ? & ? & ? & ? & ? & ? & ? & _).
    rewrite !on_text_ne, on_field_ne, replace_key_get, decide_False, on_field_ne, replace_uuids_get,
      !decide_False, remove_gateway_get, bool_decide_eq_false_2, !replace_key_get, !decide_False
      by (assumption || (apply not_eq_sym; assumption)
          || (rewrite !not_elem_of_cons; repeat split; assumption || apply not_elem_of_nil)).
    done.
Qed.
(** An element of a batch holds its fields itself or under [event_data]. *)
Definition event_rewritten (a : Account) (ev ev' : Value) : Prop :=
  match ev with
  | VObject e =>
      match e !! "event_data" with
      | Some (VObject data) =>
          ∃ data', ev' = VObject (<["event_data" := VObject data']> e) ∧ event_of a data data'
      | Some _ => ev' = ev
      | None => ∃ e', ev' = VObject e' ∧ event_of a e e'
      end
  | _ => ev' = ev
  end.

Lemma rewrite_event_spec a proc draw ev :
  event_rewritten a ev
    (rewrite_event a (build_full_env_json (parse_canonical_env (acc_canonical_env a))) proc draw ev).
Proof.
  destruct ev as [| | | | |e]; try done. simpl.
  destruct (e !! "event_data") as [data|] eqn:Hd.
  - assert (∀ f, on_field "event_data" f e = <["event_data" := f data]> e) as Hf.
    { intros f. apply map_eq. intros k. destruct (decide (k = "event_data")) as [->|Hk].
      - by rewrite on_field_eq, Hd, lookup_insert_eq.
      - by rewrite on_field_ne, lookup_insert_ne by done. }
    rewrite Hf. destruct data; simpl; try (by rewrite insert_id). eexists.
    split; [done|apply rewrite_event_fields_spec].
  - eexists. split; [done|apply rewrite_event_fields_spec].
Qed.

(** C36: In a batch of events every event, wrapped or not, in its place, carries the account's
    device, mail address, account, organization and environment wherever it named one, no field
    that would show the gateway, and is otherwise unchanged but for its encoded fields; the rest
    of the body stays. *)
Theorem event_batch_identity a d body l :
  vget body "events" = Some (VArray l) →
  ∃ l', vget (rewrite_event_batch a d body) "events" = Some (VArray l')
        ∧ Forall2 (event_rewritten a) l l'
        ∧ ∀ k, k ≠ "events" → vget (rewrite_event_batch a d body) k = vget body k.
Proof.
  destruct body as [| | | | |m]; try done. simpl. intros Hl.
  eexists. split; [by rewrite on_field_eq, Hl|]. split.
  - apply Forall2_same_length_lookup. split; [by rewrite length_imap|].
    intros i x y Hx Hy. rewrite list_lookup_imap, Hx in Hy. injection Hy as <-.
    apply rewrite_event_spec.
  - intros k Hk. by apply on_field_ne.
Qed.

(** The attributes of a feature-flag query. *)
Lemma eval_attributes_identity a env attrs :
  let attrs' := rewrite_eval_attributes a env attrs in
  attrs' !! "id" = Some (VString (acc_device_id a))
  ∧ attrs' !! "deviceID" = Some (VString (acc_device_id a))
  ∧ attrs' !! "organizationUUID" = VString <$> acc_organization_uuid a
  ∧ attrs' !! "platform" = Some (VString (ce_platform env))
  ∧ attrs' !! "apiBaseUrlHost" = None.
Proof.
  unfold rewrite_eval_attributes.
  assert (∀ m k, k ≠ "subscriptionType" →
    insert_opt "subscriptionType" VString (acc_subscription_type a) m !! k = m !! k) as Hsub
    by (intros; by apply lookup_insert_opt_ne).
  split_and!;
    repeat first
      [ rewrite lookup_insert_eq | rewrite lookup_delete_eq | rewrite lookup_insert_ne by done
      | rewrite lookup_delete_ne by done | rewrite replace_key_get | rewrite Hsub by done
      | rewrite set_organization_get | rewrite decide_False by done | rewrite decide_True by done ];
    done.
Qed.
End events.
