(* ===== verification/Fingerprint.v ===== *)
(** * Fingerprint: the audit of fingerprints (src/src/service/fingerprint_audit.rs, and the
    observation of a request in src/src/service/gateway.rs)

    What is observed of a request, the bounded queue of observations, the guard of a
    request, and the worker that counts and writes records. A record is a value of
    [AuditRecord]; its text and the rolling file are not modelled. *)

From S2P Require Import Prelude Text F64 Json Http Model Identity Account UsageParse Usage.
From S2P Require Import GatewayHeaders Rewriter.

Definition AUDIT_SCHEMA_VERSION : Z := 3.
Definition AUDIT_QUEUE_CAPACITY : Z := 1024.

(** ** Data *)

Record AuditProfile := mkAuditProfile {
  ap_claude_version : string;
  ap_build_time : string;
  ap_stainless_package : string;
  ap_platform : string;
  ap_arch : string;
  ap_stainless_os : string;
  ap_runtime : string;
  ap_runtime_version : string;
  ap_is_running_with_bun : bool;
}.

#[export] Instance AuditProfile_eq_dec : EqDecision AuditProfile.
Proof. solve_decision. Defined.

(** The value itself when it is one of the list. *)
Definition among (l : list string) (other value : string) : string :=
  if existsb (String.eqb value) l then value else other.

Definition profile_from_env (env : CanonicalEnvData) : AuditProfile :=
  let platform := among ["darwin"; "linux"; "win32"] "other" (ce_platform env) in
  let arch := among ["arm64"; "x64"; "arm"; "x32"] "other" (ce_arch env) in
  let stainless_os :=
    if String.eqb platform "darwin" then "MacOS"
    else if String.eqb platform "win32" then "Windows"
    else if String.eqb platform "linux" then "Linux" else "Unknown" in
  mkAuditProfile CLAUDE_CODE_VERSION CLAUDE_CODE_BUILD_TIME CLAUDE_CODE_STAINLESS_VERSION
    platform arch stainless_os "node" (ce_node_version env) (ce_is_running_with_bun env).

Inductive FingerprintMismatch :=
  | FM_Version | FM_BuildTime | FM_StainlessPackage | FM_StainlessOs | FM_RuntimeVersion
  | FM_UaEntrypoint | FM_Beta | FM_Thinking | FM_MissingSessionId | FM_MissingClientRequestId.

#[export] Instance FingerprintMismatch_eq_dec : EqDecision FingerprintMismatch.
Proof. solve_decision. Defined.

Definition all_mismatches : list FingerprintMismatch :=
  [FM_Version; FM_BuildTime; FM_StainlessPackage; FM_StainlessOs; FM_RuntimeVersion;
   FM_UaEntrypoint; FM_Beta; FM_Thinking; FM_MissingSessionId; FM_MissingClientRequestId].

Definition mismatch_index (k : FingerprintMismatch) : nat :=
  match list_find (λ x, x = k) all_mismatches with Some (i, _) => i | None => 0 end.

#[export] Instance FingerprintMismatch_countable : Countable FingerprintMismatch.
Proof.
  refine (inj_countable mismatch_index (λ i, all_mismatches !! i) _). by intros [].
Defined.

Record AuditRequestObservation := mkAuditObservation {
  ao_account_id : Z;
  ao_auth_type : string;
  ao_auto_telemetry : bool;
  ao_profile : AuditProfile;
  ao_client_type : string;
  ao_entrypoint : string;
  ao_model : string;
  ao_stream : bool;
  ao_thinking : option string;
  ao_effort : option string;
  ao_betas : list string;
  ao_session_id_present : bool;
  ao_client_request_id_present : bool;
  ao_mismatches : list FingerprintMismatch;
}.

Inductive AuditMessage :=
  | AM_Request (observation : AuditRequestObservation)
  | AM_Response (account_id status : Z)
  | AM_CountTokens (account_id : Z)
  | AM_SendFailed (account_id : Z)
  | AM_CancelledBeforeResponse (account_id : Z)
  | AM_Telemetry (account_id : Z) (event_name : string) (success : bool)
  | AM_Session (account_id : Z) (state : string) (profile : AuditProfile).

Record AccountCounters := mkAccountCounters {
  ac_auth_type : string;
  ac_auto_telemetry : bool;
  ac_profile : option AuditProfile;
  ac_requests : Z;
  ac_count_token_requests : Z;
  ac_stream_requests : Z;
  ac_status_2xx : Z;
  ac_status_3xx : Z;
  ac_status_403 : Z;
  ac_status_429 : Z;
  ac_status_4xx_other : Z;
  ac_status_5xx : Z;
  ac_send_failed : Z;
  ac_cancelled_before_response : Z;
  ac_thinking_requests : Z;
  ac_effort_requests : Z;
  ac_session_id_present : Z;
  ac_client_request_id_present : Z;
  ac_models : gmap string Z;
  ac_entrypoints : gmap string Z;
  ac_client_types : gmap string Z;
  ac_betas : gmap string Z;
  ac_telemetry_events : gmap string Z;
  ac_telemetry_failed : Z;
  ac_telemetry_send_failed : Z;
  ac_telemetry_pending_timed_out : Z;
  ac_telemetry_observation_dropped : Z;
  ac_mismatches : gmap FingerprintMismatch Z;
}.

Definition counters_default : AccountCounters :=
  mkAccountCounters "" false None 0 0 0 0 0 0 0 0 0 0 0 0 0 0 0 ∅ ∅ ∅ ∅ ∅ 0 0 0 0 ∅.

(** The four kinds of records; each carries the schema version, its name and a time. *)
Inductive AuditRecord :=
  | RC_ProfileSnapshot (timestamp : DateTime) (account_id : Z) (auth_type : string)
      (auto_telemetry : bool) (profile : AuditProfile)
  | RC_Anomaly (timestamp : DateTime) (account_id : Z) (kind : FingerprintMismatch)
      (profile : AuditProfile)
  | RC_Session (timestamp : DateTime) (account_id : Z) (state : string) (profile : AuditProfile)
  | RC_HourlySummary (timestamp : DateTime) (account_id : Z) (counter : AccountCounters)
      (dropped_audit_observations in_flight_at_end : Z).

(** ** The queue and the guard *)

(** [fa_enabled]: whether there is a sender; the queue of its channel and its capacity. *)
Record FingerprintAudit := mkFingerprintAudit {
  fa_enabled : bool;
  fa_capacity : Z;
  fa_queue : list AuditMessage;
  fa_dropped : Z;
}.

Definition audit_start (enabled : bool) : FingerprintAudit :=
  mkFingerprintAudit enabled AUDIT_QUEUE_CAPACITY [] 0.

Definition audit_try_send (a : FingerprintAudit) (message : AuditMessage) : bool * FingerprintAudit :=
  if negb (fa_enabled a) then (false, a)
  else if Z.of_nat (length (fa_queue a)) <? fa_capacity a
  then (true, a <| fa_queue := fa_queue a ++ [message] |>)
  else (false, a <| fa_dropped := u64_add (fa_dropped a) 1 |>).

Record AuditRequestGuard := mkAuditGuard { ag_account_id : Z; ag_active : bool }.

Definition begin_request (a : FingerprintAudit) (observation : AuditRequestObservation)
    : AuditRequestGuard * FingerprintAudit :=
  let '(active, a) := audit_try_send a (AM_Request observation) in
  (mkAuditGuard (ao_account_id observation) active, a).

Definition audit_guard_finish (g : AuditRequestGuard) (message : AuditMessage) (a : FingerprintAudit)
    : AuditRequestGuard * FingerprintAudit :=
  if ag_active g then (g <| ag_active := false |>, (audit_try_send a message).2) else (g, a).

(** The guard is dropped at the end of each of these. *)
Definition audit_guard_drop (g : AuditRequestGuard) (a : FingerprintAudit) : FingerprintAudit :=
  (audit_guard_finish g (AM_CancelledBeforeResponse (ag_account_id g)) a).2.

Definition audit_guard_response (g : AuditRequestGuard) (status : Z) (a : FingerprintAudit)
    : FingerprintAudit :=
  let '(g, a) := audit_guard_finish g (AM_Response (ag_account_id g) status) a in audit_guard_drop g a.

Definition audit_guard_send_failed (g : AuditRequestGuard) (a : FingerprintAudit) : FingerprintAudit :=
  let '(g, a) := audit_guard_finish g (AM_SendFailed (ag_account_id g)) a in audit_guard_drop g a.

Definition observe_count_tokens (account_id : Z) (a : FingerprintAudit) : FingerprintAudit :=
  (audit_try_send a (AM_CountTokens account_id)).2.

Definition observe_telemetry (account_id : Z) (event_name : string) (success : bool)
    (a : FingerprintAudit) : FingerprintAudit :=
  (audit_try_send a (AM_Telemetry account_id event_name success)).2.

Definition observe_session (account : Account) (state : string) (a : FingerprintAudit)
    : FingerprintAudit :=
  (audit_try_send a (AM_Session (acc_id account) state
     (profile_from_env (parse_canonical_env (acc_canonical_env account))))).2.

(** ** The worker *)

Record AuditWorker := mkAuditWorker {
  aw_appender : bool;
  aw_records : list AuditRecord;
  aw_counters : gmap Z AccountCounters;
  aw_last_profiles : gmap Z AuditProfile;
  aw_in_flight : gmap Z Z;
}.

(** [appender]: whether the file could be opened. *)
Definition audit_worker_new (appender : bool) : AuditWorker := mkAuditWorker appender [] ∅ ∅ ∅.

(** A record that cannot be written is only logged. *)
Definition write_record (record : AuditRecord) (w : AuditWorker) : AuditWorker :=
  if aw_appender w then w <| aw_records := aw_records w ++ [record] |> else w.

(** [*map.entry(k).or_default() += 1]. *)
Definition bump `{Countable K} (k : K) (m : gmap K Z) : gmap K Z := <[k := u64_add (default 0 (m !! k)) 1]> m.

(** [counter += u64::from(b)]. *)
Definition add_flag (b : bool) (n : Z) : Z := u64_add n (if b then 1 else 0).

Definition on_counter (account_id : Z) (f : AccountCounters → AccountCounters) (w : AuditWorker)
    : AuditWorker :=
  w <| aw_counters :=
    <[account_id := f (default counters_default (aw_counters w !! account_id))]> (aw_counters w) |>.

Definition in_flight_begin (account_id : Z) (w : AuditWorker) : AuditWorker :=
  w <| aw_in_flight := bump account_id (aw_in_flight w) |>.

(** [saturating_sub(1)]. *)
Definition in_flight_end (account_id : Z) (w : AuditWorker) : AuditWorker :=
  w <| aw_in_flight :=
    <[account_id := Z.max 0 (default 0 (aw_in_flight w !! account_id) - 1)]> (aw_in_flight w) |>.

Definition count_request (o : AuditRequestObservation) (c : AccountCounters) : AccountCounters :=
  let c := c <| ac_auth_type := ao_auth_type o |> <| ac_auto_telemetry := ao_auto_telemetry o |>
             <| ac_requests := u64_add (ac_requests c) 1 |>
             <| ac_stream_requests := add_flag (ao_stream o) (ac_stream_requests c) |>
             <| ac_thinking_requests := add_flag (opt_is_some (ao_thinking o)) (ac_thinking_requests c) |>
             <| ac_effort_requests := add_flag (opt_is_some (ao_effort o)) (ac_effort_requests c) |>
             <| ac_session_id_present := add_flag (ao_session_id_present o) (ac_session_id_present c) |>
             <| ac_client_request_id_present :=
                  add_flag (ao_client_request_id_present o) (ac_client_request_id_present c) |> in
  c <| ac_models := bump (ao_model o) (ac_models c) |>
    <| ac_entrypoints := bump (ao_entrypoint o) (ac_entrypoints c) |>
    <| ac_client_types := bump (ao_client_type o) (ac_client_types c) |>
    <| ac_betas := foldl (λ m beta, bump beta m) (ac_betas c) (ao_betas o) |>
    <| ac_profile := Some (ao_profile o) |>.

Definition count_response (status : Z) (c : AccountCounters) : AccountCounters :=
  if (200 <=? status) && (status <=? 299) then c <| ac_status_2xx := u64_add (ac_status_2xx c) 1 |>
  else if (300 <=? status) && (status <=? 399) then c <| ac_status_3xx := u64_add (ac_status_3xx c) 1 |>
  else if status =? 403 then c <| ac_status_403 := u64_add (ac_status_403 c) 1 |>
  else if status =? 429 then c <| ac_status_429 := u64_add (ac_status_429 c) 1 |>
  else if (400 <=? status) && (status <=? 499) then
    c <| ac_status_4xx_other := u64_add (ac_status_4xx_other c) 1 |>
  else if (500 <=? status) && (status <=? 599) then c <| ac_status_5xx := u64_add (ac_status_5xx c) 1 |>
  else c.

Definition count_telemetry (event_name : string) (success : bool) (c : AccountCounters)
    : AccountCounters :=
  let c := c <| ac_telemetry_events := bump event_name (ac_telemetry_events c) |> in
  if success then c
  else
    let c := c <| ac_telemetry_failed := u64_add (ac_telemetry_failed c) 1 |> in
    if existsb (String.eqb event_name) ["event_batch"; "growthbook_eval"; "metrics"] then
      c <| ac_telemetry_send_failed := u64_add (ac_telemetry_send_failed c) 1 |>
    else if String.eqb event_name "pending_timed_out" then
      c <| ac_telemetry_pending_timed_out := u64_add (ac_telemetry_pending_timed_out c) 1 |>
    else if String.eqb event_name "observation_dropped" then
      c <| ac_telemetry_observation_dropped := u64_add (ac_telemetry_observation_dropped c) 1 |>
    else c.

(** [utc]: the readings of the clock for the records of one message; the profile has the
    first one. *)
Definition apply_anomaly (utc : nat → DateTime) (o : AuditRequestObservation) (w : AuditWorker)
    (found : nat * FingerprintMismatch) : AuditWorker :=
  let '(i, mismatch) := found in
  let w := on_counter (ao_account_id o)
             (λ c, c <| ac_mismatches := bump mismatch (ac_mismatches c) |>) w in
  write_record (RC_Anomaly (utc (S i)) (ao_account_id o) mismatch (ao_profile o)) w.

Definition apply_request (utc : nat → DateTime) (o : AuditRequestObservation) (w : AuditWorker) : AuditWorker :=
  let id := ao_account_id o in
  let profile_changed := negb (bool_decide (aw_last_profiles w !! id = Some (ao_profile o))) in
  let w := in_flight_begin id (on_counter id (count_request o) w) in
  let w :=
    if profile_changed then
      write_record (RC_ProfileSnapshot (utc 0%nat) id (ao_auth_type o) (ao_auto_telemetry o) (ao_profile o))
        (w <| aw_last_profiles := <[id := ao_profile o]> (aw_last_profiles w) |>)
    else w in
  foldl (apply_anomaly utc o) w (imap pair (ao_mismatches o)).

Definition apply_message (utc : nat → DateTime) (message : AuditMessage) (w : AuditWorker) : AuditWorker :=
  match message with
  | AM_Request o => apply_request utc o w
  | AM_Response id status => in_flight_end id (on_counter id (count_response status) w)
  | AM_CountTokens id =>
      on_counter id (λ c, c <| ac_count_token_requests := u64_add (ac_count_token_requests c) 1 |>) w
  | AM_SendFailed id =>
      in_flight_end id (on_counter id (λ c, c <| ac_send_failed := u64_add (ac_send_failed c) 1 |>) w)
  | AM_CancelledBeforeResponse id =>
      in_flight_end id (on_counter id
        (λ c, c <| ac_cancelled_before_response := u64_add (ac_cancelled_before_response c) 1 |>) w)
  | AM_Telemetry id event_name success => on_counter id (count_telemetry event_name success) w
  | AM_Session id state profile => write_record (RC_Session (utc 0%nat) id state profile) w
  end.

(** The summaries come in the order of the map, which is any. *)
Definition flush_summaries (utc : DateTime) (dropped : Z) (w : AuditWorker) : AuditWorker :=
  let records := (λ kv : Z * AccountCounters,
    RC_HourlySummary utc kv.1 kv.2 dropped (default 0 (aw_in_flight w !! kv.1)))
      <$> map_to_list (aw_counters w) in
  (foldl (λ w r, write_record r w) w records) <| aw_counters := ∅ |>.

(** One turn of [audit_worker]: a message is received, or the interval has passed. *)
Definition audit_receive (utc : nat → DateTime) (a : FingerprintAudit) (w : AuditWorker)
    : FingerprintAudit * AuditWorker :=
  match fa_queue a with
  | [] => (a, w)
  | message :: queue => (a <| fa_queue := queue |>, apply_message utc message w)
  end.

Definition audit_flush (utc : DateTime) (a : FingerprintAudit) (w : AuditWorker)
    : FingerprintAudit * AuditWorker :=
  (a <| fa_dropped := 0 |>, flush_summaries utc (fa_dropped a) w).

(** ** What is observed of a request *)

Definition safe_byte (c : ascii) : bool :=
  is_alphanumeric c || existsb (Ascii.eqb c) (String.list_ascii_of_string "._:-[]").

Definition safe_token (value : string) : string :=
  if negb (is_empty value) && (str_len value <=? 100) && str_all safe_byte value then value else "other".

Definition SAFE_ENTRYPOINTS : list string :=
  ["cli"; "sdk-cli"; "sdk-ts"; "sdk-py"; "claude-vscode"; "remote"; "remote_baku"; "remote_cowork";
   "remote_desktop"; "remote_mobile"; "mcp"; "local-agent"; "claude-code-github-action";
   "claude_in_slack"; "claude-in-slack"].

Definition safe_entrypoint : string → string := among SAFE_ENTRYPOINTS "other".

Definition safe_optional_feature (value : option string) (allowed : list string) : option string :=
  among allowed "other" <$> value.

Definition request_observation (account : Account) (client_type entrypoint model : string)
    (stream : bool) (thinking effort : option string) (betas : list string)
    (session_id_present client_request_id_present : bool) (mismatches : list FingerprintMismatch)
    : AuditRequestObservation :=
  let env := parse_canonical_env (acc_canonical_env account) in
  mkAuditObservation (acc_id account) (auth_type_to_string (acc_auth_type account))
    (acc_auto_telemetry account) (profile_from_env env)
    (among ["claude_code"; "api"] "other" client_type) (safe_entrypoint entrypoint) (safe_token model)
    stream (safe_optional_feature thinking ["adaptive"; "enabled"])
    (safe_optional_feature effort ["low"; "medium"; "high"; "xhigh"; "max"]) (map safe_token betas)
    session_id_present client_request_id_present mismatches.

(** ** The observation of a request (src/src/service/gateway.rs) *)

(** The first entry under a name, in the order in which the map gives its entries. *)
Definition map_header (headers : list (string * string)) (name : string) : option string :=
  snd <$> find (λ kv, String.eqb (to_ascii_lowercase kv.1) (to_ascii_lowercase name)) headers.

(** [split_once] and [trim_end_matches] with a text and with a byte. *)
Fixpoint split_once_str (sep s : string) : option (string * string) :=
  match strip_prefix sep s with
  | Some r => Some ("", r)
  | None =>
      match s with
      | EmptyString => None
      | String c r => (λ p : string * string, (String c p.1, p.2)) <$> split_once_str sep r
      end
  end.

Fixpoint skip_byte (c : ascii) (s : string) : string :=
  match s with
  | String x r => if Ascii.eqb x c then skip_byte c r else s
  | EmptyString => EmptyString
  end.

Definition trim_end_matches (c : ascii) (s : string) : string :=
  String.rev (skip_byte c (String.rev s)).

Definition user_agent_entrypoint (user_agent : string) : string :=
  match split_once_str "(external, " user_agent with
  | None => "cli"
  | Some (_, suffix) =>
      default "cli" (opt_filter (λ v, negb (is_empty v))
        (trim <$> head (split_on "," (trim_end_matches ")" suffix))))
  end.

Definition request_thinking_type (body : Value) : option string :=
  opt_filter (λ v, negb (String.eqb v "disabled"))
    ((vget body "thinking" ≫= λ v, vget v "type") ≫= as_str).

Definition request_effort (body : Value) : option string :=
  opt_or ((vget body "output_config" ≫= λ v, vget v "effort") ≫= as_str) (get_str body "effort").

(** [if b { mismatches.push(k) }]. *)
Definition flag_if (b : bool) (k : FingerprintMismatch) : list FingerprintMismatch := if b then [k] else [].

Definition opt_neq (o : option string) (s : string) : bool := negb (bool_decide (o = Some s)).

Definition beta_tokens (headers : list (string * string)) : list string :=
  filter (λ v, negb (is_empty v)) (map trim (split_on "," (default "" (map_header headers "anthropic-beta")))).

Definition build_fingerprint_observation (account : Account) (client_type : ClientType)
    (incoming_user_agent : string) (outgoing_headers : list (string * string)) (body : Value)
    (model : string) (stream : bool) : AuditRequestObservation :=
  let env := parse_canonical_env (acc_canonical_env account) in
  let outgoing_user_agent := default "" (map_header outgoing_headers "user-agent") in
  let incoming_entrypoint := user_agent_entrypoint incoming_user_agent in
  let outgoing_entrypoint := user_agent_entrypoint outgoing_user_agent in
  let betas := beta_tokens outgoing_headers in
  let required := compute_betas_for_request model body in
  let expected_os := stainless_os_from_platform (ce_platform env) in
  let thinking := request_thinking_type body in
  let session_id_present := opt_is_some (map_header outgoing_headers "x-claude-code-session-id") in
  let client_request_id_present := opt_is_some (map_header outgoing_headers "x-client-request-id") in
  let mismatches :=
    flag_if (negb (String.eqb (ce_version env) CLAUDE_CODE_VERSION)
             || negb (contains CLAUDE_CODE_VERSION outgoing_user_agent)) FM_Version
    ++ flag_if (negb (String.eqb (ce_build_time env) CLAUDE_CODE_BUILD_TIME)) FM_BuildTime
    ++ flag_if (opt_neq (map_header outgoing_headers "x-stainless-package-version")
                  CLAUDE_CODE_STAINLESS_VERSION) FM_StainlessPackage
    ++ flag_if (opt_neq (map_header outgoing_headers "x-stainless-os") expected_os) FM_StainlessOs
    ++ flag_if (opt_neq (map_header outgoing_headers "x-stainless-runtime-version")
                  (ce_node_version env)) FM_RuntimeVersion
    ++ flag_if (bool_decide (client_type = CT_ClaudeCode)
                && negb (String.eqb incoming_entrypoint outgoing_entrypoint)) FM_UaEntrypoint
    ++ flag_if (existsb (λ r, negb (existsb (λ b, String.eqb b r) betas)) required
                || negb (bool_decide (NoDup betas))) FM_Beta
    ++ flag_if (opt_is_some thinking
                && negb (existsb (λ b, String.eqb b "thinking-token-count-2026-05-13") betas)) FM_Thinking
    ++ flag_if (negb session_id_present) FM_MissingSessionId
    ++ flag_if (negb client_request_id_present) FM_MissingClientRequestId in
  request_observation account
    match client_type with CT_ClaudeCode => "claude_code" | CT_API => "api" end
    outgoing_entrypoint model stream thinking (request_effort body) betas session_id_present
    client_request_id_present mismatches.
