(* ===== verification/FingerprintFacts.v ===== *)
(** * FingerprintFacts: the theorems on the audit of fingerprints

    What the counters account for, which texts a record can hold, and that a
    rewritten request raises no anomaly. *)

From S2P Require Import Prelude Text F64 Json Http Model Identity Account UsageParse Usage.
From S2P Require Import GatewayHeaders Rewriter RewriterFacts Fingerprint.

(** ** Sums over lists *)

Definition total {A} (w : A → Z) (l : list A) : Z := foldr (λ x n, w x + n) 0 l.

Lemma total_app {A} (w : A → Z) l1 l2 : total w (l1 ++ l2) = total w l1 + total w l2.
Proof. unfold total. induction l1 as [|x l1 IH]; simpl in *; lia. Qed.

Lemma total_nonneg {A} (w : A → Z) l : (∀ x, 0 ≤ w x) → 0 ≤ total w l.
Proof. unfold total. intros Hw. induction l as [|x l IH]; simpl; [lia|]. specialize (Hw x). lia. Qed.

Lemma total_delete {A} (w : A → Z) l i x :
  l !! i = Some x → total w l = w x + total w (delete i l).
Proof.
  intros Hx. rewrite delete_take_drop, total_app. rewrite <- (take_drop_middle l i x Hx) at 1.
  rewrite total_app. simpl. lia.
Qed.

Definition one_if (b : bool) : Z := if b then 1 else 0.

Lemma one_if_bounds b : 0 ≤ one_if b ≤ 1.
Proof. by destruct b. Qed.

(** ** Every interleaving of requests, other observations and the worker *)

(** [ax_begun], [ax_lost]: the accounts of the requests that the queue took, and of the ends
    of such requests that it refused. *)
Record AuditSystem := mkAuditSystem {
  ax_audit : FingerprintAudit;
  ax_worker : AuditWorker;
  ax_guards : list AuditRequestGuard;
  ax_begun : list Z;
  ax_lost : list Z;
}.

Definition audit_system (enabled appender : bool) : AuditSystem :=
  mkAuditSystem (audit_start enabled) (audit_worker_new appender) [] [] [].

Inductive AuditStep :=
  | AT_Begin (o : AuditRequestObservation)
  | AT_Response (i : nat) (status : Z)
  | AT_SendFailed (i : nat)
  | AT_Drop (i : nat)
  | AT_CountTokens (account_id : Z)
  | AT_Telemetry (account_id : Z) (event_name : string) (success : bool)
  | AT_Session (account : Account) (state : string)
  | AT_Receive (utc : nat → DateTime)
  | AT_Flush (utc : DateTime).

(** The end of the [i]-th open request by [f]. *)
Definition audit_end (i : nat) (f : AuditRequestGuard → FingerprintAudit → FingerprintAudit)
    (s : AuditSystem) : AuditSystem :=
  match ax_guards s !! i with
  | None => s
  | Some g =>
      let a := f g (ax_audit s) in
      let refused := ag_active g && (Z.of_nat (length (fa_queue a)) =? Z.of_nat (length (fa_queue (ax_audit s)))) in
      s <| ax_audit := a |> <| ax_guards := delete i (ax_guards s) |>
        <| ax_lost := (if refused then [ag_account_id g] else []) ++ ax_lost s |>
  end.

Definition audit_observe (f : FingerprintAudit → FingerprintAudit) (s : AuditSystem) : AuditSystem :=
  s <| ax_audit := f (ax_audit s) |>.

Definition audit_work (f : FingerprintAudit → AuditWorker → FingerprintAudit * AuditWorker)
    (s : AuditSystem) : AuditSystem :=
  let '(a, w) := f (ax_audit s) (ax_worker s) in s <| ax_audit := a |> <| ax_worker := w |>.

Definition audit_step (s : AuditSystem) (step : AuditStep) : AuditSystem :=
  match step with
  | AT_Begin o =>
      let '(g, a) := begin_request (ax_audit s) o in
      s <| ax_audit := a |> <| ax_guards := ax_guards s ++ [g] |>
        <| ax_begun := (if ag_active g then [ao_account_id o] else []) ++ ax_begun s |>
  | AT_Response i status => audit_end i (λ g, audit_guard_response g status) s
  | AT_SendFailed i => audit_end i audit_guard_send_failed s
  | AT_Drop i => audit_end i audit_guard_drop s
  | AT_CountTokens id => audit_observe (observe_count_tokens id) s
  | AT_Telemetry id name success => audit_observe (observe_telemetry id name success) s
  | AT_Session account state => audit_observe (observe_session account state) s
  | AT_Receive utc => audit_work (audit_receive utc) s
  | AT_Flush utc => audit_work (audit_flush utc) s
  end.

Definition audit_run (s : AuditSystem) (steps : list AuditStep) : AuditSystem := foldl audit_step s steps.

(** ** What is counted for one account *)

Section account.
Context (id : Z).

Definition is_begin (m : AuditMessage) : bool :=
  match m with AM_Request o => ao_account_id o =? id | _ => false end.

Definition is_end (m : AuditMessage) : bool :=
  match m with
  | AM_Response i _ | AM_SendFailed i | AM_CancelledBeforeResponse i => i =? id
  | _ => false
  end.

Definition begins_in (q : list AuditMessage) : Z := total (λ m, one_if (is_begin m)) q.
Definition ends_in (q : list AuditMessage) : Z := total (λ m, one_if (is_end m)) q.

Definition open_of (gs : list AuditRequestGuard) : Z :=
  total (λ g, one_if (ag_active g && (ag_account_id g =? id))) gs.

Definition times_in (l : list Z) : Z := total (λ i, one_if (i =? id)) l.

Definition flight_of (w : AuditWorker) : Z := default 0 (aw_in_flight w !! id).

(** The requests that the summaries of the account report. *)
Definition reported_in (records : list AuditRecord) : Z :=
  total (λ r, match r with
              | RC_HourlySummary _ i c _ _ => if i =? id then ac_requests c else 0
              | _ => 0
              end) records.

Definition counted_of (w : AuditWorker) : Z := default 0 (ac_requests <$> aw_counters w !! id).

(** ** What a message does to them *)

Lemma write_record_keeps r w :
  aw_counters (write_record r w) = aw_counters w ∧ aw_in_flight (write_record r w) = aw_in_flight w
  ∧ aw_appender (write_record r w) = aw_appender w
  ∧ aw_records (write_record r w) = aw_records w ++ (if aw_appender w then [r] else []).
Proof. unfold write_record. destruct w as [[] rs cs lp fl]; simpl; by rewrite ?app_nil_r. Qed.

Lemma on_counter_counted i f w :
  (∀ c, ac_requests (f c) = ac_requests c) → counted_of (on_counter i f w) = counted_of w
  ∧ flight_of (on_counter i f w) = flight_of w ∧ aw_records (on_counter i f w) = aw_records w
  ∧ aw_appender (on_counter i f w) = aw_appender w.
Proof.
  intros Hf. unfold counted_of, flight_of, on_counter. destruct w as [ap rs cs lp fl]; simpl.
  split_and!; try done. destruct (decide (i = id)) as [->|Hi]; [|by rewrite lookup_insert_ne].
  rewrite lookup_insert_eq. simpl. rewrite Hf. by destruct (cs !! id).
Qed.

Lemma in_flight_end_flight i w :
  counted_of (in_flight_end i w) = counted_of w ∧ aw_records (in_flight_end i w) = aw_records w
  ∧ aw_appender (in_flight_end i w) = aw_appender w
  ∧ flight_of (in_flight_end i w) = if i =? id then Z.max 0 (flight_of w - 1) else flight_of w.
Proof.
  unfold counted_of, flight_of, in_flight_end. destruct w as [ap rs cs lp fl]; simpl. split_and!; try done.
  destruct (i =? id) eqn:Hi; bool_prop; [subst; by rewrite lookup_insert_eq|by rewrite lookup_insert_ne].
Qed.

Lemma begins_keep r w :
  counted_of (write_record r w) = counted_of w ∧ flight_of (write_record r w) = flight_of w
  ∧ aw_appender (write_record r w) = aw_appender w.
Proof. destruct (write_record_keeps r w) as (Hc & Hf & Ha & _). unfold counted_of, flight_of. by rewrite Hc, Hf. Qed.

Definition is_summary (r : AuditRecord) : bool := match r with RC_HourlySummary _ _ _ _ _ => true | _ => false end.

Lemma reported_app l1 l2 : reported_in (l1 ++ l2) = reported_in l1 + reported_in l2.
Proof. apply total_app. Qed.

Lemma reported_keep r w :
  is_summary r = false → reported_in (aw_records (write_record r w)) = reported_in (aw_records w).
Proof.
  intros Hr. destruct (write_record_keeps r w) as (_ & _ & _ & ->). rewrite reported_app.
  destruct (aw_appender w); [|simpl; lia]. destruct r; simpl in *; by try lia.
Qed.

(** What the counts of the account are after the anomalies of a request. *)
Lemma anomalies_keep utc o ks w :
  counted_of (foldl (apply_anomaly utc o) w ks) = counted_of w
  ∧ flight_of (foldl (apply_anomaly utc o) w ks) = flight_of w
  ∧ aw_appender (foldl (apply_anomaly utc o) w ks) = aw_appender w
  ∧ reported_in (aw_records (foldl (apply_anomaly utc o) w ks)) = reported_in (aw_records w).
Proof.
  induction ks as [|k ks IH] in w |- *; [done|]. simpl. destruct (IH (apply_anomaly utc o w k)) as (-> & -> & -> & ->).
  destruct k as [i k]. unfold apply_anomaly. cbv zeta. rewrite reported_keep by done.
  match goal with |- context [write_record ?r ?w1] => destruct (begins_keep r w1) as (-> & -> & ->) end.
  match goal with |- context [on_counter ?i ?f w] =>
    destruct (on_counter_counted i f w) as (-> & -> & -> & ->); [by intros []|done] end.
Qed.

Lemma apply_request_effect utc o w :
  let w' := apply_request utc o w in
  counted_of w' = (if ao_account_id o =? id then u64_add (counted_of w) 1 else counted_of w)
  ∧ flight_of w' = (if ao_account_id o =? id then u64_add (flight_of w) 1 else flight_of w)
  ∧ aw_appender w' = aw_appender w ∧ reported_in (aw_records w') = reported_in (aw_records w).
Proof.
  unfold apply_request. cbv zeta.
  set (w1 := in_flight_begin _ _).
  assert (counted_of w1 = (if ao_account_id o =? id then u64_add (counted_of w) 1 else counted_of w)
    ∧ flight_of w1 = (if ao_account_id o =? id then u64_add (flight_of w) 1 else flight_of w)
    ∧ aw_appender w1 = aw_appender w ∧ aw_records w1 = aw_records w) as (Hc & Hf & Ha & Hr).
  { subst w1. unfold counted_of, flight_of, in_flight_begin, on_counter, bump. destruct w as [ap rs cs lp fl]; simpl.
    destruct (ao_account_id o =? id) eqn:Hi; bool_prop.
    - subst. rewrite !lookup_insert_eq. simpl. split_and!; try done. destruct (cs !! ao_account_id o) as [[]|]; done.
    - by rewrite !lookup_insert_ne. }
  clearbody w1.
  match goal with |- context [foldl (apply_anomaly utc o) ?w2 ?ks] =>
    destruct (anomalies_keep utc o ks w2) as (-> & -> & -> & ->) end.
  destruct (negb _); [|by rewrite Hr].
  rewrite reported_keep by done.
  match goal with |- context [write_record ?r ?w2] => destruct (begins_keep r w2) as (-> & -> & ->) end.
  destruct w1. simpl in *. by rewrite Hr.
Qed.

Lemma apply_message_effect utc m w :
  let w' := apply_message utc m w in
  counted_of w' = (if is_begin m then u64_add (counted_of w) 1 else counted_of w)
  ∧ flight_of w' = (if is_begin m then u64_add (flight_of w) 1
                    else if is_end m then Z.max 0 (flight_of w - 1) else flight_of w)
  ∧ aw_appender w' = aw_appender w ∧ reported_in (aw_records w') = reported_in (aw_records w).
Proof.
  assert (∀ status c, ac_requests (count_response status c) = ac_requests c) as Hresp.
  { intros st []. unfold count_response. by repeat case_match. }
  assert (∀ name ok c, ac_requests (count_telemetry name ok c) = ac_requests c) as Htel.
  { intros name ok []. unfold count_telemetry. by repeat case_match. }
  destruct m as [o|i status|i|i|i|i name ok|i st p]; cbv zeta; simpl.
  - apply apply_request_effect.
  - destruct (in_flight_end_flight i (on_counter i (count_response status) w)) as (-> & -> & -> & ->).
    edestruct on_counter_counted as (-> & -> & -> & ->); [intros ?; apply Hresp|done].
  - edestruct on_counter_counted as (-> & -> & -> & ->); [by intros []|done].
  - match goal with |- context [in_flight_end i ?w1] => destruct (in_flight_end_flight i w1) as (-> & -> & -> & ->) end.
    edestruct on_counter_counted as (-> & -> & -> & ->); [by intros []|done].
  - match goal with |- context [in_flight_end i ?w1] => destruct (in_flight_end_flight i w1) as (-> & -> & -> & ->) end.
    edestruct on_counter_counted as (-> & -> & -> & ->); [by intros []|done].
  - edestruct on_counter_counted as (-> & -> & -> & ->); [intros ?; apply Htel|done].
  - rewrite reported_keep by done. edestruct begins_keep as (-> & -> & ->). done.
Qed.

(** What a flush reports of the account. *)
Lemma total_map_to_list {V} (f : V → Z) (m : gmap Z V) :
  total (λ kv, if kv.1 =? id then f kv.2 else 0) (map_to_list m) = default 0 (f <$> m !! id).
Proof.
  assert (∀ l1 l2 : list (Z * V), l1 ≡ₚ l2 → total (λ kv, if kv.1 =? id then f kv.2 else 0) l1
    = total (λ kv, if kv.1 =? id then f kv.2 else 0) l2) as Hperm.
  { induction 1; simpl in *; lia. }
  induction m as [|i v m Hi IH] using map_ind.
  - by rewrite map_to_list_empty, lookup_empty.
  - rewrite (Hperm _ _ (map_to_list_insert m i v Hi)). simpl. rewrite IH.
    destruct (i =? id) eqn:He; bool_prop.
    + subst. rewrite lookup_insert_eq, Hi. simpl. lia.
    + by rewrite lookup_insert_ne.
Qed.

Lemma flush_effect utc dropped w :
  let w' := flush_summaries utc dropped w in
  counted_of w' = 0 ∧ flight_of w' = flight_of w ∧ aw_appender w' = aw_appender w
  ∧ reported_in (aw_records w')
    = reported_in (aw_records w) + (if aw_appender w then counted_of w else 0).
Proof.
  cbv zeta. unfold flush_summaries. set (l := _ <$> map_to_list _).
  assert (∀ l w, aw_in_flight (foldl (λ w r, write_record r w) w l) = aw_in_flight w
    ∧ aw_appender (foldl (λ w r, write_record r w) w l) = aw_appender w
    ∧ aw_records (foldl (λ w r, write_record r w) w l) = aw_records w ++ (if aw_appender w then l else [])) as Hw.
  { clear. induction l as [|r l IH]; intros w; simpl; [by destruct (aw_appender w); rewrite app_nil_r|].
    destruct (IH (write_record r w)) as (-> & -> & ->).
    destruct (write_record_keeps r w) as (_ & -> & -> & ->). split_and!; try done.
    destruct (aw_appender w); by rewrite <- ?app_assoc. }
  destruct (Hw l w) as (Hf & Ha & Hr). destruct (foldl _ w l) as [ap rs cs lp fl]. simpl in *.
  unfold counted_of, flight_of in *. simpl. rewrite lookup_empty, Hf, Ha, Hr. split_and!; try done.
  rewrite reported_app. f_equal. destruct (aw_appender w); [|done]. subst l.
  rewrite <- total_map_to_list. unfold reported_in, total. clear.
  induction (map_to_list (aw_counters w)) as [|[i c] l IH]; [done|]. cbn [fmap list_fmap foldr fst snd]. by f_equal.
Qed.

(** ** The invariant *)

Lemma try_send_effect a m r a' :
  audit_try_send a m = (r, a') → fa_queue a' = fa_queue a ++ (if r then [m] else []).
Proof.
  unfold audit_try_send. destruct a as [[] cap q d]; simpl; [|intros [= <- <-]; by rewrite app_nil_r].
  destruct (_ <? cap); intros [= <- <-]; simpl; by rewrite ?app_nil_r.
Qed.

(** [n]: a bound on the number of requests begun. *)
Record audit_ok (n : Z) (s : AuditSystem) : Prop := {
  ok_prefix p : p `prefix_of` fa_queue (ax_audit s) → ends_in p ≤ flight_of (ax_worker s) + begins_in p;
  ok_flight : flight_of (ax_worker s) + begins_in (fa_queue (ax_audit s))
              = open_of (ax_guards s) + ends_in (fa_queue (ax_audit s)) + times_in (ax_lost s);
  ok_counted : aw_appender (ax_worker s) = true →
    reported_in (aw_records (ax_worker s)) + counted_of (ax_worker s) + begins_in (fa_queue (ax_audit s))
    = times_in (ax_begun s);
  ok_bounds : 0 ≤ flight_of (ax_worker s) ∧ 0 ≤ counted_of (ax_worker s)
    ∧ flight_of (ax_worker s) + begins_in (fa_queue (ax_audit s)) ≤ n
    ∧ counted_of (ax_worker s) + begins_in (fa_queue (ax_audit s)) ≤ n;
}.

Lemma begins_nonneg q : 0 ≤ begins_in q.
Proof. apply total_nonneg. intros m. apply one_if_bounds. Qed.
Lemma ends_nonneg q : 0 ≤ ends_in q.
Proof. apply total_nonneg. intros m. apply one_if_bounds. Qed.

Lemma audit_ok_weaken n n' s : n ≤ n' → audit_ok n s → audit_ok n' s.
Proof. intros Hn [Hp Hf Hc Hb]. split; [done..|]. lia. Qed.

(** A message is put at the end of the queue. *)
Lemma prefix_snoc_inv {A} (p q : list A) x :
  p `prefix_of` q ++ [x] → p `prefix_of` q ∨ p = q ++ [x].
Proof.
  intros Hp. destruct (decide (length p ≤ length q)%nat) as [Hl|Hl].
  - left. destruct Hp as [k Hk]. exists (drop (length p) q).
    rewrite <- (take_drop (length p) q) at 1. f_equal.
    by rewrite <- (take_app_le q [x]), Hk, take_app_length.
  - right. destruct Hp as [k Hk]. assert (k = []) as ->; [|by rewrite app_nil_r in Hk].
    apply length_zero_iff_nil. apply (f_equal length) in Hk. rewrite !length_app in Hk. simpl in Hk. lia.
Qed.

(** A message of neither kind. *)
Lemma send_other_ok n s m :
  is_begin m = false → is_end m = false → audit_ok n s →
  audit_ok n (audit_observe (λ a, (audit_try_send a m).2) s).
Proof.
  intros Hb He Hok. unfold audit_observe. destruct (audit_try_send (ax_audit s) m) as [r a'] eqn:Ht.
  apply try_send_effect in Ht. destruct s as [a w gs bg ls]. destruct Hok as [Hp Hf Hc Hbd]. simpl in *.
  assert (begins_in (fa_queue a') = begins_in (fa_queue a) ∧ ends_in (fa_queue a') = ends_in (fa_queue a)) as [Eb Ee].
  { rewrite Ht. unfold begins_in, ends_in. rewrite !total_app. destruct r; simpl; rewrite ?Hb, ?He; simpl; lia. }
  split; simpl; rewrite ?Eb, ?Ee; try done. intros p Hpre. rewrite Ht in Hpre.
  destruct r; [|rewrite app_nil_r in Hpre; by apply Hp].
  apply prefix_snoc_inv in Hpre as [Hpre| ->]; [by apply Hp|].
  specialize (Hp (fa_queue a) ltac:(done)). unfold begins_in, ends_in in *. rewrite !total_app. simpl.
  rewrite Hb, He. simpl. lia.
Qed.

Lemma u64_add_id a b : 0 ≤ a + b < 2 ^ 64 → u64_add a b = a + b.
Proof. intros Hb. apply wrap_id. simpl. lia. Qed.

Lemma begin_ok n s o : n < 2 ^ 64 → audit_ok n s → audit_ok (n + 1) (audit_step s (AT_Begin o)).
Proof.
  intros Hn Hok. simpl. unfold begin_request. destruct (audit_try_send (ax_audit s) (AM_Request o)) as [r a'] eqn:Ht.
  apply try_send_effect in Ht. destruct s as [a w gs bg ls]. destruct Hok as [Hp Hf Hc Hbd]. simpl in *.
  assert (begins_in (fa_queue a') = begins_in (fa_queue a) + one_if (r && (ao_account_id o =? id))
    ∧ ends_in (fa_queue a') = ends_in (fa_queue a)) as [Eb Ee].
  { rewrite Ht. unfold begins_in, ends_in. rewrite !total_app. destruct r; simpl; lia. }
  assert (open_of (gs ++ [mkAuditGuard (ao_account_id o) r]) = open_of gs + one_if (r && (ao_account_id o =? id))) as Eo.
  { unfold open_of. rewrite total_app. simpl. lia. }
  assert (times_in ((if r then [ao_account_id o] else []) ++ bg) = one_if (r && (ao_account_id o =? id)) + times_in bg) as Eg.
  { unfold times_in. rewrite total_app. destruct r; simpl; lia. }
  assert (0 ≤ one_if (r && (ao_account_id o =? id)) ≤ 1) as Ho by apply one_if_bounds.
  split; simpl; rewrite ?Eb, ?Ee, ?Eo, ?Eg; try lia; try (intros; rewrite <- Hc by done; lia).
  intros p Hpre. rewrite Ht in Hpre. destruct r; [|rewrite app_nil_r in Hpre; by apply Hp].
  apply prefix_snoc_inv in Hpre as [Hpre| ->]; [by apply Hp|].
  specialize (Hp (fa_queue a) ltac:(done)). rewrite <- Ht, Eb, Ee. lia.
Qed.

(** The end of a request sends one message when its begin was taken. *)
Definition ends_request (f : AuditRequestGuard → FingerprintAudit → FingerprintAudit) : Prop :=
  ∀ g a, ∃ m, match m with
              | AM_Response j _ | AM_SendFailed j | AM_CancelledBeforeResponse j => j = ag_account_id g
              | _ => False
              end ∧ f g a = if ag_active g then (audit_try_send a m).2 else a.

Lemma ends_request_all status :
  ends_request (λ g, audit_guard_response g status) ∧ ends_request audit_guard_send_failed
  ∧ ends_request audit_guard_drop.
Proof.
  split_and!; intros [i act] a; unfold audit_guard_response, audit_guard_send_failed, audit_guard_drop, audit_guard_finish;
    simpl; [exists (AM_Response i status)|exists (AM_SendFailed i)|exists (AM_CancelledBeforeResponse i)];
    (split; [done|]); by destruct act.
Qed.

Lemma end_ok n s i f : ends_request f → audit_ok n s → audit_ok n (audit_end i f s).
Proof.
  intros Hends Hok. unfold audit_end. destruct (ax_guards s !! i) as [g|] eqn:Hg; [|done].
  destruct (Hends g (ax_audit s)) as (m & Hm & ->).
  assert (is_begin m = false ∧ is_end m = (ag_account_id g =? id)) as [Hb He].
  { destruct m; simpl in *; try done; by subst. }
  destruct s as [a w gs bg ls]. destruct Hok as [Hp Hf Hc Hbd]. simpl in *.
  pose proof (total_delete (λ g, one_if (ag_active g && (ag_account_id g =? id))) gs i g Hg) as Eo.
  fold (open_of gs) (open_of (delete i gs)) in Eo. cbv beta in Eo.
  assert (0 ≤ open_of (delete i gs)) as Hpos by (apply total_nonneg; intros x; apply one_if_bounds).
  destruct (ag_active g) eqn:Ha; simpl in *; [|split; simpl; try done; lia].
  destruct (audit_try_send a m) as [r a'] eqn:Ht. apply try_send_effect in Ht. simpl.
  assert (begins_in (fa_queue a') = begins_in (fa_queue a)
    ∧ ends_in (fa_queue a') = ends_in (fa_queue a) + one_if (r && (ag_account_id g =? id))) as [Eb Ee].
  { rewrite Ht. unfold begins_in, ends_in. rewrite !total_app. destruct r; simpl; rewrite ?Hb, ?He; simpl; lia. }
  assert ((Z.of_nat (length (fa_queue a')) =? Z.of_nat (length (fa_queue a))) = negb r) as ->.
  { rewrite Ht, length_app. destruct r; simpl; [apply Z.eqb_neq|apply Z.eqb_eq]; lia. }
  assert (times_in ((if negb r then [ag_account_id g] else []) ++ ls)
    = one_if (negb r && (ag_account_id g =? id)) + times_in ls) as El.
  { unfold times_in. rewrite total_app. destruct r; simpl; lia. }
  assert (one_if (r && (ag_account_id g =? id)) + one_if (negb r && (ag_account_id g =? id))
    = one_if (ag_account_id g =? id)) as Er by by destruct r, (ag_account_id g =? id).
  split; simpl; rewrite ?Eb, ?Ee, ?El; try done; try lia.
  intros p Hpre. rewrite Ht in Hpre. destruct r; [|rewrite app_nil_r in Hpre; by apply Hp].
  apply prefix_snoc_inv in Hpre as [Hpre| ->]; [by apply Hp|].
  assert (0 ≤ times_in ls) by (apply total_nonneg; intros x; apply one_if_bounds).
  rewrite <- Ht, Eb, Ee. simpl in *. lia.
Qed.

Lemma receive_ok n s utc : n < 2 ^ 64 → audit_ok n s → audit_ok n (audit_work (audit_receive utc) s).
Proof.
  intros Hn Hok. unfold audit_work, audit_receive. destruct s as [[en cap q0 d] w gs bg ls]. simpl.
  destruct q0 as [|m q]; [done|]. destruct Hok as [Hp Hf Hc Hbd]. simpl in *.
  destruct (apply_message_effect utc m w) as (Ec & Ef & Ea & Er).
  unfold begins_in, ends_in in *. simpl in *. fold (begins_in q) (ends_in q) in *.
  pose proof (begins_nonneg q) as Hbq. pose proof (ends_nonneg q) as Heq.
  assert (is_begin m = true → is_end m = false) as Hexcl by by destruct m.
  pose proof (Hp [m] ltac:(by exists q)) as H1. simpl in H1.
  assert (counted_of (apply_message utc m w) = counted_of w + one_if (is_begin m)) as Ec'.
  { rewrite Ec. destruct (is_begin m); simpl in *; [rewrite u64_add_id; lia|lia]. }
  assert (flight_of (apply_message utc m w) = flight_of w + one_if (is_begin m) - one_if (is_end m)) as Ef'.
  { rewrite Ef. destruct (is_begin m); simpl in *; [rewrite u64_add_id, Hexcl by lia; simpl; lia|].
    destruct (is_end m); simpl in *; lia. }
  clear Ec Ef. split; simpl; rewrite ?Ec', ?Ef', ?Ea, ?Er; try lia.
  - intros p [k Hk]. specialize (Hp (m :: p) ltac:(exists k; by rewrite Hk)). simpl in Hp.
    fold (begins_in p) (ends_in p) in Hp. lia.
  - intros Hap. specialize (Hc Hap). lia.
  - pose proof (one_if_bounds (is_begin m)). pose proof (one_if_bounds (is_end m)). lia.
Qed.

Lemma flush_ok n s utc : audit_ok n s → audit_ok n (audit_work (audit_flush utc) s).
Proof.
  intros [Hp Hf Hc Hbd]. unfold audit_work, audit_flush. destruct s as [a w gs bg ls]. simpl in *.
  destruct (flush_effect utc (fa_dropped a) w) as (Ec & Ef & Ea & Er). destruct a as [en cap q d]. simpl in *.
  split; simpl; rewrite ?Ec, ?Ef, ?Ea, ?Er; try done; try lia.
  - intros Hap. rewrite Hap in *. specialize (Hc eq_refl). lia.
Qed.

Lemma step_ok n s step : n + 1 < 2 ^ 64 → audit_ok n s → audit_ok (n + 1) (audit_step s step).
Proof.
  intros Hn Hok. destruct step; [apply begin_ok; [lia|done]|..]; apply (audit_ok_weaken n); try lia; simpl.
  - apply end_ok; [apply ends_request_all|done].
  - apply end_ok; [apply (ends_request_all 0)|done].
  - apply end_ok; [apply (ends_request_all 0)|done].
  - by apply send_other_ok.
  - by apply send_other_ok.
  - by apply send_other_ok.
  - apply receive_ok; [lia|done].
  - by apply flush_ok.
Qed.

Lemma run_ok n s steps :
  n + Z.of_nat (length steps) < 2 ^ 64 → audit_ok n s →
  audit_ok (n + Z.of_nat (length steps)) (audit_run s steps).
Proof.
  induction steps as [|st steps IH] in n, s |- *; simpl; intros Hn Hok; [by rewrite Z.add_0_r|].
  replace (n + Z.of_nat (S (length steps))) with (n + 1 + Z.of_nat (length steps)) in * by lia.
  apply IH; [done|]. apply step_ok; [lia|done].
Qed.
End account.

(** C25: However requests, other observations, the audit worker and its flushes follow each
    other, for each account the requests in flight are those that are open, but for what still
    waits in the queue: the begins that wait are not yet counted, and the ends that wait or were
    refused by a full queue count as in flight. When the file could be opened, the requests of
    all summaries, of the current counters and of the queue together are exactly those that the
    queue took. *)
Theorem audited_requests_accounted enabled appender steps id :
  Z.of_nat (length steps) < 2 ^ 64 →
  let s := audit_run (audit_system enabled appender) steps in
  flight_of id (ax_worker s) + begins_in id (fa_queue (ax_audit s))
  = open_of id (ax_guards s) + ends_in id (fa_queue (ax_audit s)) + times_in id (ax_lost s)
  ∧ (appender = true →
     reported_in id (aw_records (ax_worker s)) + counted_of id (ax_worker s)
     + begins_in id (fa_queue (ax_audit s)) = times_in id (ax_begun s)).
Proof.
  intros Hn s. assert (audit_ok id 0 (audit_system enabled appender)) as H0.
  { split; simpl; try done. intros p ->%prefix_nil_inv. done. }
  destruct (run_ok id 0 _ steps Hn H0) as [_ Hf Hc _]. split; [done|]. intros ->. apply Hc.
  fold s. clear - s. assert (∀ steps s, aw_appender (ax_worker (audit_run s steps)) = aw_appender (ax_worker s)) as Happ.
  { clear. induction steps as [|st steps IH]; intros s; [done|]. simpl. rewrite IH. clear.
    destruct s as [a w gs bg ls], st as [o|i st|i|i|i|i nm ok|ac st|utc|utc]; simpl;
      try (unfold audit_end; simpl; by destruct (gs !! i)); try done.
    - by destruct (begin_request a o).
    - unfold audit_work, audit_receive. simpl. destruct (fa_queue a); simpl; [done|].
      by destruct (apply_message_effect 0 utc a0 w) as (_ & _ & -> & _).
    - by destruct (flush_effect 0 utc (fa_dropped a) w) as (_ & _ & -> & _). }
  subst s. by rewrite Happ.
Qed.

(** ** What a record can say *)

(** The names of telemetry events, and the states of sessions, that the program reports. *)
Definition TELEMETRY_NAMES : list string :=
  ["registered"; "cancelled"; "completed"; "pending_timed_out"; "observation_dropped"; "event_batch";
   "batched"; "growthbook_eval"; "metrics"].
Definition SESSION_STATES : list string := ["started"; "expired"].

(** The words that are the program's own. *)
Definition AUDIT_WORDS : list string :=
  [""; "other"; "oauth"; "setup_token"; "claude_code"; "api"] ++ SAFE_ENTRYPOINTS ++
  ["darwin"; "linux"; "win32"; "arm64"; "x64"; "arm"; "x32"; "MacOS"; "Windows"; "Linux"; "Unknown";
   "node"; CLAUDE_CODE_VERSION; CLAUDE_CODE_BUILD_TIME; CLAUDE_CODE_STAINLESS_VERSION;
   CLAUDE_CODE_RUNTIME_VERSION] ++ TELEMETRY_NAMES ++ SESSION_STATES.

(** At most 100 letters, digits and marks. *)
Definition marks_only (s : string) : Prop := s ≠ "" ∧ str_len s ≤ 100 ∧ str_all safe_byte s = true.

Lemma safe_token_cases s : safe_token s = "other" ∨ (safe_token s = s ∧ marks_only s).
Proof.
  unfold safe_token. destruct (_ && _) eqn:Hs; [right|by left].
  apply andb_prop in Hs as [[He Hl]%andb_prop Hb]. split; [done|].
  split_and!; [by intros ->|by apply Z.leb_le|done].
Qed.

Definition profile_texts (p : AuditProfile) : list string :=
  [ap_claude_version p; ap_build_time p; ap_stainless_package p; ap_platform p; ap_arch p;
   ap_stainless_os p; ap_runtime p; ap_runtime_version p].

Definition keys_of {K A} `{Countable K} (m : gmap K A) : list K := (map_to_list m).*1.

Definition counter_texts (c : AccountCounters) : list string :=
  [ac_auth_type c] ++ keys_of (ac_models c) ++ keys_of (ac_entrypoints c) ++ keys_of (ac_client_types c)
  ++ keys_of (ac_betas c) ++ keys_of (ac_telemetry_events c)
  ++ match ac_profile c with Some p => profile_texts p | None => [] end.

(** All the texts of a record. *)
Definition record_texts (r : AuditRecord) : list string :=
  match r with
  | RC_ProfileSnapshot _ _ auth_type _ p => auth_type :: profile_texts p
  | RC_Anomaly _ _ _ p => profile_texts p
  | RC_Session _ _ state p => state :: profile_texts p
  | RC_HourlySummary _ _ c _ _ => counter_texts c
  end.

Definition observation_texts (o : AuditRequestObservation) : list string :=
  [ao_auth_type o; ao_client_type o; ao_entrypoint o; ao_model o] ++ ao_betas o ++ profile_texts (ao_profile o).

Definition message_texts (m : AuditMessage) : list string :=
  match m with
  | AM_Request o => observation_texts o
  | AM_Telemetry _ name _ => [name]
  | AM_Session _ state p => state :: profile_texts p
  | _ => []
  end.

Section fine.
(** Which texts are fine; the words of the program are. *)
Variable fine : string → Prop.
Hypothesis words_fine : ∀ t, t ∈ AUDIT_WORDS → fine t.

Definition fine_list (l : list string) : Prop := Forall fine l.

Lemma word_fine t : existsb (String.eqb t) AUDIT_WORDS = true → fine t.
Proof.
  intros (x & Hx & ->%String.eqb_eq)%existsb_exists. apply words_fine. by apply list_elem_of_In.
Qed.

Lemma words_fine_list l : forallb (λ t, existsb (String.eqb t) AUDIT_WORDS) l = true → fine_list l.
Proof.
  unfold fine_list. rewrite Forall_forall. intros Hl t Ht%list_elem_of_In. rewrite forallb_forall in Hl.
  by apply word_fine, Hl.
Qed.

Lemma among_fine l other s : fine_list (other :: l) → fine (among l other s).
Proof.
  intros [Ho Hl]%Forall_cons. unfold among. destruct (existsb _ l) eqn:He; [|done].
  apply existsb_exists in He as (x & Hx & ->%String.eqb_eq). rewrite Forall_forall in Hl.
  by apply Hl, list_elem_of_In.
Qed.

(** The fields that the release sets, of an environment that could be read. *)
Lemma current_env v e :
  env_from_value (normalize_canonical_env_json v) = Some e →
  ce_version e = CLAUDE_CODE_VERSION ∧ ce_build_time e = CLAUDE_CODE_BUILD_TIME
  ∧ ce_node_version e = CLAUDE_CODE_RUNTIME_VERSION.
Proof.
  unfold normalize_canonical_env_json.
  set (map := <["is_running_with_bun" := _]> _).
  assert (map !! "version" = Some (VString CLAUDE_CODE_VERSION)
    ∧ map !! "build_time" = Some (VString CLAUDE_CODE_BUILD_TIME)
    ∧ map !! "node_version" = Some (VString CLAUDE_CODE_RUNTIME_VERSION)) as (Hv & Hb & Hn).
  { subst map. by simplify_map_eq. }
  clearbody map. match goal with |- env_from_value (VObject ?m) = _ → _ => set (map' := m) end.
  assert (∀ k, k ≠ "shell" → map' !! k = map !! k) as Hk.
  { intros k Hne. subst map'. destruct (_ && _); [by rewrite lookup_insert_ne|done]. }
  rewrite <- (Hk "version") in Hv by done. rewrite <- (Hk "build_time") in Hb by done.
  rewrite <- (Hk "node_version") in Hn by done. clearbody map'. clear Hk map v.
  unfold env_from_value. cbn [struct_fields]. intros He.
  repeat (apply bind_Some in He as (? & ? & He)). injection He as <-. simpl in *. simplify_eq.
  unfold de_field in *. rewrite Hv, Hb, Hn in *. by simplify_eq/=.
Qed.

Lemma profile_safe v : fine_list (profile_texts (profile_from_env (parse_canonical_env v))).
Proof.
  assert (fine (ce_node_version (parse_canonical_env v))) as Hn.
  { unfold parse_canonical_env. destruct (env_from_value _) as [e|] eqn:He; [|apply word_fine; by vm_compute].
    apply current_env in He as (_ & _ & He). simpl. rewrite He. apply word_fine. by vm_compute. }
  unfold profile_from_env, profile_texts. cbv zeta. cbn [ap_claude_version ap_build_time ap_stainless_package
    ap_platform ap_arch ap_stainless_os ap_runtime ap_runtime_version].
  set (plat := among _ _ (ce_platform _)). set (arch := among _ _ (ce_arch _)).
  assert (fine plat) as Hp by (apply among_fine, words_fine_list; by vm_compute).
  assert (fine arch) as Ha by (apply among_fine, words_fine_list; by vm_compute).
  generalize dependent (ce_node_version (parse_canonical_env v)). intros node Hn. clearbody plat arch.
  assert (fine (if String.eqb plat "darwin" then "MacOS" else if String.eqb plat "win32" then "Windows"
    else if String.eqb plat "linux" then "Linux" else "Unknown")) as Ho by (repeat case_match; apply word_fine; by vm_compute).
  assert (fine_list [CLAUDE_CODE_VERSION; CLAUDE_CODE_BUILD_TIME; CLAUDE_CODE_STAINLESS_VERSION; "node"]) as Hc
    by (apply words_fine_list; by vm_compute).
  unfold fine_list in *. rewrite !Forall_cons in *. tauto.
Qed.

Lemma observation_safe o :
  fine_list (observation_texts o) ↔
  fine (ao_auth_type o) ∧ fine (ao_client_type o) ∧ fine (ao_entrypoint o)
  ∧ fine (ao_model o) ∧ fine_list (ao_betas o) ∧ fine_list (profile_texts (ao_profile o)).
Proof. unfold observation_texts, fine_list. rewrite !Forall_app, !Forall_cons, Forall_nil. tauto. Qed.

Lemma request_observation_safe account ct entry model stream th ef betas sid cid mis :
  fine (safe_token model) → Forall (λ b, fine (safe_token b)) betas →
  fine_list (observation_texts (request_observation account ct entry model stream th ef betas sid cid mis)).
Proof.
  intros Hmodel Hbetas. apply observation_safe. unfold request_observation. simpl. split_and!.
  - destruct (acc_auth_type account); apply word_fine; by vm_compute.
  - apply among_fine, words_fine_list. by vm_compute.
  - apply among_fine, words_fine_list. by vm_compute.
  - done.
  - by apply Forall_map.
  - apply profile_safe.
Qed.

(** ** The texts of the counters *)

Lemma keys_forall {A} `{Countable K} (P : K → Prop) (m : gmap K A) :
  Forall P (keys_of m) ↔ map_Forall (λ k _, P k) m.
Proof. unfold keys_of. rewrite Forall_fmap, map_Forall_to_list. apply Forall_iff. by intros []. Qed.

Lemma keys_bump `{Countable K} (P : K → Prop) (k : K) (m : gmap K Z) :
  P k → Forall P (keys_of m) → Forall P (keys_of (bump k m)).
Proof.
  unfold bump. rewrite !keys_forall. intros Hk Hm. by apply map_Forall_insert_2.
Qed.

Lemma keys_bumps (P : string → Prop) l (m : gmap string Z) :
  Forall P l → Forall P (keys_of m) → Forall P (keys_of (foldl (λ m k, bump k m) m l)).
Proof.
  induction l as [|k l IH] in m |- *; [done|]. intros [Hk Hl]%Forall_cons Hm. simpl. apply IH; [done|].
  by apply keys_bump.
Qed.

Record counter_safe (c : AccountCounters) : Prop := {
  cs_auth : fine (ac_auth_type c);
  cs_models : fine_list (keys_of (ac_models c));
  cs_entrypoints : fine_list (keys_of (ac_entrypoints c));
  cs_client_types : fine_list (keys_of (ac_client_types c));
  cs_betas : fine_list (keys_of (ac_betas c));
  cs_events : fine_list (keys_of (ac_telemetry_events c));
  cs_profile p : ac_profile c = Some p → fine_list (profile_texts p);
}.

Lemma counter_safe_texts c : counter_safe c → fine_list (counter_texts c).
Proof.
  intros [Ha Hm He Hc Hb Ht Hp]. unfold counter_texts, fine_list. rewrite !Forall_app, Forall_singleton.
  split_and!; try done. destruct (ac_profile c); [by apply Hp|constructor].
Qed.

Lemma counter_safe_default : counter_safe counters_default.
Proof. split; simpl; try done; try constructor. apply word_fine. by vm_compute. Qed.

Lemma count_request_safe o c : fine_list (observation_texts o) → counter_safe c → counter_safe (count_request o c).
Proof.
  intros (? & ? & ? & ? & ? & ?)%observation_safe [Ha Hm He Hc Hb Ht Hp]. destruct c. simpl in *. unfold count_request.
  split; simpl; try done; try (by apply keys_bump); [by apply keys_bumps|]. by intros p [= <-].
Qed.

Lemma count_response_safe status c : counter_safe c → counter_safe (count_response status c).
Proof. intros [Ha Hm He Hc Hb Ht Hp]. destruct c. unfold count_response. repeat case_match; by split. Qed.

Lemma count_telemetry_safe name ok c :
  fine name → counter_safe c → counter_safe (count_telemetry name ok c).
Proof.
  intros Hn [Ha Hm He Hc Hb Ht Hp]. destruct c. simpl in *. unfold count_telemetry.
  repeat case_match; split; simpl; try done; by apply keys_bump.
Qed.

(** ** The texts of the worker *)

Record worker_safe (w : AuditWorker) : Prop := {
  ws_counters : map_Forall (λ _ c, counter_safe c) (aw_counters w);
  ws_records : Forall (λ r, fine_list (record_texts r)) (aw_records w);
}.

Lemma write_record_safe r w : fine_list (record_texts r) → worker_safe w → worker_safe (write_record r w).
Proof.
  intros Hr [Hc Hw]. destruct (write_record_keeps r w) as (Ec & _ & _ & Er). split; [by rewrite Ec|].
  rewrite Er. apply Forall_app. split; [done|]. destruct (aw_appender w); [by apply Forall_singleton|done].
Qed.

Lemma on_counter_safe i f w :
  (∀ c, counter_safe c → counter_safe (f c)) → worker_safe w → worker_safe (on_counter i f w).
Proof.
  intros Hf [Hc Hw]. destruct w as [ap rs cs lp fl]. simpl in *. split; [|done]. simpl.
  apply map_Forall_insert_2; [|done]. apply Hf. destruct (cs !! i) as [c|] eqn:Hi; [by apply (Hc i)|].
  apply counter_safe_default.
Qed.

Lemma in_flight_safe w w' :
  aw_counters w' = aw_counters w → aw_records w' = aw_records w → worker_safe w → worker_safe w'.
Proof. intros Ec Er [Hc Hw]. split; by rewrite ?Ec, ?Er. Qed.

Lemma apply_message_safe utc m w :
  fine_list (message_texts m) → worker_safe w → worker_safe (apply_message utc m w).
Proof.
  intros Hm Hw. destruct m as [o|i status|i|i|i|i name ok|i st p]; simpl in *.
  - assert (fine_list (profile_texts (ao_profile o)) ∧ fine (ao_auth_type o)) as [Hp Ha] by by apply observation_safe in Hm as (? & _ & _ & _ & _ & ?).
    unfold apply_request. set (w1 := in_flight_begin _ _).
    assert (worker_safe w1) as Hw1.
    { apply (in_flight_safe (on_counter (ao_account_id o) (count_request o) w)); [by destruct w..|].
      apply on_counter_safe; [|done]. intros c. by apply count_request_safe. }
    clearbody w1. cbv zeta. match goal with |- worker_safe (foldl _ ?w2 _) => assert (worker_safe w2) as Hw2 end.
    { destruct (negb _); [|done]. apply write_record_safe; [by apply Forall_cons|].
      destruct w1, Hw1. by split. }
    revert Hw2. generalize (imap pair (ao_mismatches o)). intros ks. match goal with |- worker_safe ?w2 → _ => generalize w2 end.
    induction ks as [|k ks IH]; intros w2 Hw2; [done|]. simpl. apply IH. destruct k as [i k]. unfold apply_anomaly. cbv zeta.
    apply write_record_safe; [done|]. apply on_counter_safe; [|done]. intros [] []. by split.
  - apply (in_flight_safe (on_counter i (count_response status) w)); [by destruct w..|].
    apply on_counter_safe; [|done]. intros c. apply count_response_safe.
  - apply on_counter_safe; [|done]. intros [] []. by split.
  - match goal with |- worker_safe (in_flight_end i ?w1) => apply (in_flight_safe w1); [by destruct w..|] end.
    apply on_counter_safe; [|done]. intros [] []. by split.
  - match goal with |- worker_safe (in_flight_end i ?w1) => apply (in_flight_safe w1); [by destruct w..|] end.
    apply on_counter_safe; [|done]. intros [] []. by split.
  - apply on_counter_safe; [|done]. intros c. apply count_telemetry_safe. unfold fine_list in Hm. by rewrite Forall_singleton in Hm.
  - by apply write_record_safe.
Qed.

Lemma flush_safe utc dropped w : worker_safe w → worker_safe (flush_summaries utc dropped w).
Proof.
  intros [Hc Hw]. unfold flush_summaries. set (l := _ <$> map_to_list _).
  assert (Forall (λ r, fine_list (record_texts r)) l) as Hl.
  { subst l. apply Forall_fmap, Forall_forall. intros [i c] Hi%elem_of_map_to_list.
    by apply counter_safe_texts, (Hc i). }
  assert (worker_safe (foldl (λ w r, write_record r w) w l)) as Hf.
  { clearbody l. assert (worker_safe w) as Hws by by split. clear Hc Hw.
    induction l as [|r l IH] in w, Hws, Hl |- *; [done|]. apply Forall_cons in Hl as [Hr Hl]. simpl.
    apply IH; [done|]. by apply write_record_safe. }
  destruct (foldl _ w l), Hf. split; [|done]. simpl. apply map_Forall_empty.
Qed.

(** ** Runs *)

Definition step_fine (step : AuditStep) : Prop :=
  match step with
  | AT_Begin o => fine_list (observation_texts o)
  | AT_Telemetry _ name _ => fine name
  | AT_Session _ state => fine state
  | _ => True
  end.

Definition system_safe (s : AuditSystem) : Prop :=
  worker_safe (ax_worker s) ∧ Forall (λ m, fine_list (message_texts m)) (fa_queue (ax_audit s)).

Lemma try_send_safe a m :
  fine_list (message_texts m) → Forall (λ m, fine_list (message_texts m)) (fa_queue a) →
  Forall (λ m, fine_list (message_texts m)) (fa_queue (audit_try_send a m).2).
Proof.
  intros Hm Ha. destruct (audit_try_send a m) as [r a'] eqn:Ht. simpl. apply try_send_effect in Ht as ->.
  apply Forall_app. split; [done|]. destruct r; [by apply Forall_singleton|done].
Qed.

Lemma end_safe s i f : ends_request f → system_safe s → system_safe (audit_end i f s).
Proof.
  intros Hends [Hw Hq]. unfold audit_end. destruct (ax_guards s !! i) as [g|]; [|done].
  destruct (Hends g (ax_audit s)) as (m & Hm & ->). destruct s as [a w gs bg ls]. split; [done|]. simpl.
  destruct (ag_active g); [|done]. apply try_send_safe; [|done]. destruct m; try done; constructor.
Qed.

Lemma step_safe s step : step_fine step → system_safe s → system_safe (audit_step s step).
Proof.
  intros Hg Hs. destruct step as [o|i st|i|i|i|i nm ok|ac st|utc|utc]; simpl in *.
  - pose proof (Hg : fine_list (message_texts (AM_Request o))) as Hm. destruct Hs as [Hw Hq]. unfold begin_request.
    pose proof (try_send_safe (ax_audit s) (AM_Request o) Hm Hq) as Hq'.
    destruct (audit_try_send (ax_audit s) (AM_Request o)) as [r a']. destruct s. by split.
  - apply end_safe; [apply ends_request_all|done].
  - apply end_safe; [apply (ends_request_all 0)|done].
  - apply end_safe; [apply (ends_request_all 0)|done].
  - destruct Hs as [Hw Hq], s. split; [done|]. apply try_send_safe; [constructor|done].
  - destruct Hs as [Hw Hq], s. split; [done|]. apply try_send_safe; [by apply Forall_singleton|done].
  - destruct Hs as [Hw Hq], s. split; [done|]. apply try_send_safe; [|done].
    apply Forall_cons. split; [done|apply profile_safe].
  - destruct Hs as [Hw Hq], s as [[en cap q d] w gs bg ls]. unfold audit_work, audit_receive. simpl in *.
    destruct q as [|m q]; [done|]. apply Forall_cons in Hq as [Hm Hq]. split; [|done].
    by apply apply_message_safe.
  - destruct Hs as [Hw Hq], s as [[en cap q d] w gs bg ls]. split; [|done]. by apply flush_safe.
Qed.

Lemma run_safe steps s : Forall step_fine steps → system_safe s → system_safe (audit_run s steps).
Proof.
  intros Hsteps. induction Hsteps as [|st steps Hst _ IH] in s |- *; [done|]. intros Hs. simpl. by apply IH, step_safe.
Qed.

Lemma start_safe enabled appender : system_safe (audit_system enabled appender).
Proof. split; [split; simpl; [apply map_Forall_empty|constructor]|constructor]. Qed.
End fine.

(** The requests of a run are observed by the gateway; names and states are the program's. *)
Definition gateway_step (step : AuditStep) : Prop :=
  match step with
  | AT_Begin o => ∃ account ct ua headers body model stream,
      o = build_fingerprint_observation account ct ua headers body model stream
  | AT_Telemetry _ name _ => name ∈ TELEMETRY_NAMES
  | AT_Session _ state => state ∈ SESSION_STATES
  | _ => True
  end.

(** A word of the program; or, when it has only letters, digits and marks, the model of a
    request of the run or a token of the beta header with which it is sent. *)
Definition recorded_text (steps : list AuditStep) (t : string) : Prop :=
  t ∈ AUDIT_WORDS ∨
  marks_only t ∧ ∃ account ct ua headers body model stream,
    AT_Begin (build_fingerprint_observation account ct ua headers body model stream) ∈ steps ∧
    (t = model ∨ t ∈ beta_tokens headers).

Lemma gateway_step_fine steps step :
  step ∈ steps → gateway_step step → step_fine (recorded_text steps) step.
Proof.
  assert (∀ t, t ∈ TELEMETRY_NAMES ++ SESSION_STATES → t ∈ AUDIT_WORDS) as Hwords.
  { intros t Ht. unfold AUDIT_WORDS. rewrite !elem_of_app. do 3 right. by apply elem_of_app. }
  destruct step as [o|i st|i|i|i|i nm ok|ac st|utc|utc]; simpl; try done.
  - intros Hin (account & ct & ua & headers & body & model & stream & ->).
    assert (∀ s, s = model ∨ s ∈ beta_tokens headers → recorded_text steps (safe_token s)) as Hs.
    { intros s Hs. destruct (safe_token_cases s) as [->|[-> Hm]].
      - left. unfold AUDIT_WORDS. right. left.
      - right. split; [done|]. by eexists _, _, _, headers, _, model, _. }
    apply request_observation_safe; [by left|auto|]. apply Forall_forall. auto.
  - intros _ Hn. left. apply Hwords, elem_of_app. by left.
  - intros _ Hn. left. apply Hwords, elem_of_app. by right.
Qed.

(** C33: Whatever clients send, and however requests, responses, cancellations, telemetry,
    sessions and the turns of the worker follow each other: every text of every record that the
    audit writes is one of a fixed list of the program's own words (versions, platforms,
    entrypoints, event names and the like), or else, and only when it has at most a hundred
    letters, digits and marks, the model of a request of this run or a token of the
    anthropic-beta header with which one is sent, both of which a client can choose. Nothing
    else of a request is recorded: no other header, no text of a prompt. *)
Theorem audit_records_safe enabled appender steps r t :
  Forall gateway_step steps →
  r ∈ aw_records (ax_worker (audit_run (audit_system enabled appender) steps)) →
  t ∈ record_texts r → recorded_text steps t.
Proof.
  intros Hsteps Hr Ht.
  assert (∀ t, t ∈ AUDIT_WORDS → recorded_text steps t) as Hwords by (by left).
  destruct (run_safe (recorded_text steps) Hwords steps (audit_system enabled appender)) as [[_ Hrec] _].
  - apply Forall_forall. intros st Hin. rewrite Forall_forall in Hsteps. apply gateway_step_fine; auto.
  - by apply start_safe.
  - rewrite Forall_forall in Hrec. specialize (Hrec r Hr).
    unfold fine_list in Hrec. rewrite Forall_forall in Hrec. by apply Hrec.
Qed.

(** ** Trimming twice *)

Section white_space.
Context (w2 : ascii → ascii → bool) (w3 : ascii → ascii → ascii → bool).

Definition begins_ws (s : string) : bool :=
  match s with
  | EmptyString => false
  | String a r =>
      ws1 a || match r with
               | EmptyString => false
               | String b r => w2 a b || match r with EmptyString => false | String c _ => w3 a b c end
               end
  end.

Lemma drop_ws_spec s :
  begins_ws (drop_ws w2 w3 s) = false ∧ (∃ d, s = d +:+ drop_ws w2 w3 s)
  ∧ (begins_ws s = false → drop_ws w2 w3 s = s).
Proof.
  remember (String.length s) as n eqn:Hn.
  assert (String.length s ≤ n)%nat as Hle by lia. clear Hn. revert s Hle.
  induction n as [|n IH]; intros [|a s1] Hle; simpl in *; try (split_and!; [done|by exists ""|done]); [lia|].
  destruct (ws1 a) eqn:W1.
  { destruct (IH s1 ltac:(lia)) as (Hb & [d Hd] & _). split_and!; [done| |done].
    exists (String a d). by rewrite str_cons_app, <- Hd. }
  destruct s1 as [|b s2]; [split_and!; simpl; [by rewrite W1|by exists ""|done]|]. simpl in *.
  destruct (w2 a b) eqn:W2.
  { destruct (IH s2 ltac:(lia)) as (Hb & [d Hd] & _). split_and!; [done| |done].
    exists (String a (String b d)). by rewrite !str_cons_app, <- Hd. }
  destruct s2 as [|c s3]; [split_and!; simpl; [by rewrite W1, W2|by exists ""|done]|]. simpl in *.
  destruct (w3 a b c) eqn:W3; [|split_and!; simpl; [by rewrite W1, W2|by exists ""|done]].
  destruct (IH s3 ltac:(lia)) as (Hb & [d Hd] & _). split_and!; [done| |done].
  exists (String a (String b (String c d))). by rewrite !str_cons_app, <- Hd.
Qed.

Lemma begins_ws_prefix a b : begins_ws (a +:+ b) = false → begins_ws a = false.
Proof.
  destruct a as [|x [|y [|z a]]]; simpl; try done; rewrite ?orb_false_iff; naive_solver.
Qed.
End white_space.

Lemma rev_app_acc s acc : String.rev_app s acc = String.rev s +:+ acc.
Proof.
  unfold String.rev. revert acc. induction s as [|c s IH]; intros acc; simpl; [done|].
  rewrite IH, (IH (String c "")), <- str_app_assoc. done.
Qed.

Lemma rev_app a b : String.rev (a +:+ b) = String.rev b +:+ String.rev a.
Proof.
  induction a as [|c a IH]; [by rewrite str_app_nil|]. rewrite str_cons_app.
  change (String.rev (String c (a +:+ b))) with (String.rev_app (a +:+ b) (String c "")).
  change (String.rev (String c a)) with (String.rev_app a (String c "")).
  by rewrite !rev_app_acc, IH, str_app_assoc.
Qed.

Lemma rev_rev s : String.rev (String.rev s) = s.
Proof.
  induction s as [|c s IH]; [done|].
  change (String.rev (String c s)) with (String.rev_app s (String c "")).
  by rewrite rev_app_acc, rev_app, IH.
Qed.

Lemma trim_trim s : trim (trim s) = trim s.
Proof.
  unfold trim at 1. unfold trim_start.
  destruct (drop_ws_spec ws2 ws3 s) as (Hb & _ & _). set (t := drop_ws ws2 ws3 s) in *.
  assert (trim s = trim_end t) as -> by done.
  set (b2 := λ a b, ws2 b a). set (b3 := λ a b c, ws3 c b a).
  assert (∃ d, t = trim_end t +:+ d) as [d Hd].
  { destruct (drop_ws_spec b2 b3 (String.rev t)) as (_ & [d Hd] & _). exists (String.rev d).
    unfold trim_end. fold b2 b3. apply (f_equal String.rev) in Hd. by rewrite rev_rev, rev_app in Hd. }
  destruct (drop_ws_spec ws2 ws3 (trim_end t)) as (_ & _ & Hs).
  rewrite Hs by (rewrite Hd in Hb; by apply begins_ws_prefix in Hb).
  unfold trim_end. fold b2 b3. rewrite rev_rev.
  destruct (drop_ws_spec b2 b3 (String.rev t)) as (He & _ & _).
  destruct (drop_ws_spec b2 b3 (drop_ws b2 b3 (String.rev t))) as (_ & _ & Hi). by rewrite Hi.
Qed.

(** ** A rewritten request *)

Lemma starts_contains n s : starts_with n s = true → contains n s = true.
Proof. intros Hs. destruct s; simpl; by rewrite Hs. Qed.

Lemma contains_app a n b : contains n (a +:+ (n +:+ b)) = true.
Proof.
  induction a as [|c a IH].
  - apply starts_contains, starts_with_true. by exists b.
  - rewrite str_cons_app. simpl. rewrite IH. by rewrite orb_true_r.
Qed.

(** A header of a rewritten request, whatever the order of the map. *)
Lemma map_header_wire version out entries name w :
  good_headers version out → entries ≡ₚ map_to_list out →
  HEADER_WIRE_CASING !! to_ascii_lowercase name = Some w →
  to_ascii_lowercase w = to_ascii_lowercase name →
  map_header entries name = out !! w.
Proof.
  intros Hg Hp Hw Hl. unfold map_header.
  destruct (find _ entries) as [[k v]|] eqn:Hf.
  - apply find_some in Hf as [Hin Hk%String.eqb_eq]. simpl in *.
    apply list_elem_of_In in Hin. rewrite Hp in Hin. apply elem_of_map_to_list in Hin.
    destruct (Hg k v Hin) as [[_ Hc] _]. rewrite <- Hk in Hw. apply resolve_to in Hw. congruence.
  - symmetry. simpl. destruct (out !! w) as [v|] eqn:Hv; [|done]. exfalso.
    apply elem_of_map_to_list in Hv. rewrite <- Hp in Hv. apply list_elem_of_In in Hv.
    apply (find_none _ _ Hf) in Hv. simpl in Hv. by rewrite Hl, String.eqb_refl in Hv.
Qed.

Lemma betas_nodup model body : NoDup (compute_betas_for_request model body).
Proof.
  unfold compute_betas_for_request. destruct (strip_1m_suffix model) as [base m].
  generalize (contains "haiku" (to_ascii_lowercase base)), (contains "claude-3-" (to_ascii_lowercase base)),
    (request_has_active_thinking body), (request_has_effort body).
  cbv zeta. match goal with |- context [negb _ && ?cm] => generalize cm end.
  intros cm haiku c3 th ef. apply (bool_decide_eq_true_1 (NoDup _)).
  by destruct m, cm, haiku, c3, th, ef; vm_compute.
Qed.

Lemma api_headers_beta `{Digest} env betas body d : api_headers env betas body d !! "anthropic-beta" = Some betas.
Proof. unfold api_headers. find_header. Qed.

Lemma client_headers_beta `{Digest} headers env betas body d :
  ∃ incoming, client_headers headers env betas body d !! "anthropic-beta" = Some (merge_anthropic_beta betas incoming).
Proof. unfold client_headers. eexists. apply lookup_insert_eq. Qed.

(** The tokens of the beta header: trimmed, each once, and all that are required. *)
Lemma sent_betas `{Digest} headers account ct model body d v :
  rewrite_headers headers account ct model body d !! "anthropic-beta" = Some v →
  let betas := filter (λ v, negb (is_empty v)) (map trim (split_on "," v)) in
  NoDup betas ∧ ∀ t, t ∈ compute_betas_for_request model body → t ∈ betas.
Proof.
  assert (∀ l, Forall (λ t, trim t = t ∧ t ≠ "") l → NoDup l →
    filter (λ v, negb (is_empty v)) (map trim l) = l) as Hid.
  { intros l Hl _. induction Hl as [|t l [Ht Hne] _ IH]; [done|]. simpl. rewrite Ht.
    rewrite filter_cons_True by (by destruct t). by rewrite IH. }
  intros Hv. cbv zeta. unfold rewrite_headers in Hv. destruct (bool_decide _).
  - rewrite api_headers_beta in Hv. apply (inj Some) in Hv as <-.
    rewrite betas_split, Hid; [split; [apply betas_nodup|done]| |apply betas_nodup].
    apply Forall_forall. intros t Ht. by apply betas_trimmed in Ht.
  - match type of Hv with client_headers ?hs ?e ?bs ?bm ?dd !! _ = _ =>
      destruct (client_headers_beta hs e bs bm dd) as [incoming Hi] end.
    rewrite Hi in Hv. apply (inj Some) in Hv as <-. clear Hi.
    assert (fresh_tokens [] (split_on "," incoming ++ split_on "," (beta_header_for_request model body)) ≠ []) as Hne.
    { intros He. assert ("oauth-2025-04-20" ∈ compute_betas_for_request model body) as Hin.
      { unfold compute_betas_for_request. destruct (strip_1m_suffix model). set_solver. }
      pose proof (betas_trimmed _ _ _ Hin) as [Ht _].
      assert ("oauth-2025-04-20" ∈ fresh_tokens [] (split_on "," incoming ++ split_on ","
        (beta_header_for_request model body))) as Hf; [|rewrite He in Hf; set_solver].
      apply elem_of_fresh_tokens. split; [done|]. split; [set_solver|].
      rewrite fmap_app, betas_split. apply elem_of_app. right. rewrite <- Ht. by apply list_elem_of_fmap_2. }
    rewrite merged_tokens, Hid; [|  |apply fresh_tokens_nodup|done].
    + split; [apply fresh_tokens_nodup|]. intros t Ht.
      pose proof (merged_keeps_required model body incoming t Ht) as Hm. by rewrite merged_tokens in Hm.
    + apply Forall_forall. intros t (Hte & _ & (x & -> & _)%list_elem_of_fmap)%elem_of_fresh_tokens.
      split; [apply trim_trim|done].
Qed.

Lemma elem_of_existsb (t : string) l : t ∈ l → existsb (λ b, String.eqb b t) l = true.
Proof. intros Ht%list_elem_of_In. apply existsb_exists. exists t. split; [done|apply String.eqb_refl]. Qed.

Lemma thinking_beta model body t :
  request_thinking_type body = Some t → "thinking-token-count-2026-05-13" ∈ compute_betas_for_request model body.
Proof.
  intros Ht. assert (request_has_active_thinking body = true) as Hact.
  { unfold request_thinking_type, request_has_active_thinking in *.
    destruct (_ ≫= as_str) as [kind|]; simpl in *; [|done]. by destruct (String.eqb kind "disabled"). }
  unfold compute_betas_for_request. destruct (strip_1m_suffix model). rewrite Hact. simpl. set_solver.
Qed.

Lemma api_headers_ids `{Digest} env betas body d :
  is_Some (api_headers env betas body d !! "X-Claude-Code-Session-Id")
  ∧ is_Some (api_headers env betas body d !! "x-client-request-id").
Proof. unfold api_headers. split; eexists; find_header. Qed.

Lemma client_headers_ids `{Digest} headers env betas body d :
  is_Some (client_headers headers env betas body d !! "X-Claude-Code-Session-Id")
  ∧ is_Some (client_headers headers env betas body d !! "x-client-request-id").
Proof. unfold client_headers. split; find_header; apply or_insert_some. Qed.

(** C26: A rewritten request raises no anomaly: for an account whose environment can be read,
    whatever the client sent and in whatever order the headers are gone through, the audit of
    the headers that go upstream, for the model and the body that they were made for, finds at
    most that the entry point of an official client is not the one it came with, and for another
    client nothing. *)
Theorem rewritten_requests_unremarkable `{Digest} headers account ct model body d entries env ua stream k :
  env_from_value (normalize_canonical_env_json (acc_canonical_env account)) = Some env →
  entries ≡ₚ map_to_list (rewrite_headers headers account ct model body d) →
  k ∈ ao_mismatches (build_fingerprint_observation account ct ua entries body model stream) →
  k = FM_UaEntrypoint ∧ ct = CT_ClaudeCode
  ∧ user_agent_entrypoint ua ≠ user_agent_entrypoint (default "" (map_header entries "user-agent")).
Proof.
  intros Henv Hp. set (out := rewrite_headers headers account ct model body d) in *.
  assert (parse_canonical_env (acc_canonical_env account) = env) as Hparse.
  { unfold parse_canonical_env. by rewrite Henv. }
  apply current_env in Henv as (Hver & Hbt & Hnode).
  pose proof (rewrite_headers_good headers account ct model body d) as Hg. fold out in Hg.
  pose proof (λ name w, map_header_wire _ out entries name w Hg Hp) as Hmap.
  assert (shows_profile env out) as (Hpkg & Hos & _ & Hrt & agent & Hua & Hcli).
  { rewrite <- Hparse. subst out. unfold rewrite_headers.
    destruct (bool_decide _); [apply api_headers_profile|apply client_headers_profile]. }
  unfold build_fingerprint_observation. rewrite Hparse. unfold beta_tokens.
  rewrite (Hmap "user-agent" "User-Agent"), (Hmap "anthropic-beta" "anthropic-beta"),
    (Hmap "x-stainless-package-version" "X-Stainless-Package-Version"),
    (Hmap "x-stainless-os" "X-Stainless-OS"), (Hmap "x-stainless-runtime-version" "X-Stainless-Runtime-Version"),
    (Hmap "x-claude-code-session-id" "X-Claude-Code-Session-Id"),
    (Hmap "x-client-request-id" "x-client-request-id") by (vm_compute; reflexivity).
  assert (∃ v, out !! "anthropic-beta" = Some v) as [v Hbeta] by (destruct (required_betas_sent headers account ct model body d)
    as (v & Hv & _); by exists v).
  assert (is_Some (out !! "X-Claude-Code-Session-Id") ∧ is_Some (out !! "x-client-request-id")) as [[sid Hsid] [cid Hcid]].
  { subst out. unfold rewrite_headers. destruct (bool_decide _); [apply api_headers_ids|apply client_headers_ids]. }
  rewrite Hua, Hbeta, Hpkg, Hos, Hrt, Hsid, Hcid, Hver, Hbt. cbn [default from_option id].
  destruct (sent_betas headers account ct model body d v Hbeta) as [Hnd Hreq].
  set (betas := filter _ (map trim (split_on "," v))) in *. clearbody betas.
  assert (contains CLAUDE_CODE_VERSION agent = true) as ->.
  { rewrite <- Hver. destruct Hcli as [rest [-> | ->]]; apply contains_app. }
  assert (existsb (λ r, negb (existsb (λ b, String.eqb b r) betas)) (compute_betas_for_request model body) = false) as ->.
  { apply not_true_iff_false. intros (r & Hr%list_elem_of_In & Hn)%existsb_exists.
    apply Hreq, elem_of_existsb in Hr. by rewrite Hr in Hn. }
  rewrite (bool_decide_eq_true_2 _ Hnd).
  assert (opt_is_some (request_thinking_type body)
    && negb (existsb (λ b, String.eqb b "thinking-token-count-2026-05-13") betas) = false) as ->.
  { destruct (request_thinking_type body) eqn:Hth; [|done]. simpl. apply negb_false_iff, elem_of_existsb, Hreq.
    by apply thinking_beta with s. }
  assert (∀ o s, o = Some s → opt_neq o s = false) as Hneq.
  { intros o s ->. unfold opt_neq. by rewrite bool_decide_eq_true_2. }
  rewrite !Hneq by done. rewrite !String.eqb_refl. cbn [request_observation ao_mismatches opt_is_some].
  unfold flag_if. cbn [negb orb app]. rewrite app_nil_r. clear - k.
  destruct (bool_decide_reflect (ct = CT_ClaudeCode)) as [Hct|]; cbn [andb]; [|by intros ?%elem_of_nil].
  destruct (String.eqb_spec (user_agent_entrypoint ua) (user_agent_entrypoint agent)); cbn [negb];
    [by intros ?%elem_of_nil|by intros ->%list_elem_of_singleton].
Qed.
