(* ===== verification/OAuthFlow.v ===== *)
(** * OAuthFlow: OAuth authorization and the token endpoints (src/src/service/oauth_flow.rs,
    src/src/service/oauth.rs)

    The sessions of pending authorizations, the exchange of a code, the refresh of a token,
    the test of a token and the usage query. Each call makes one request, which the client
    of HTTP answers; random bytes and clock readings are arguments. *)

From S2P Require Import Prelude Text F64 Json Http Model Identity Cache Account GatewayHeaders Rewriter.

(** ** The client of HTTP *)

Record HttpRequest := mkHttpRequest {
  hq_method : string;
  hq_url : string;
  hq_headers : list (string * string);
  hq_proxy : string;
  hq_body : option Value;
}.

(** A body that cannot be read is an error with its text. *)
Record HttpResponse := mkHttpResponse {
  hs_status : Z;
  hs_body : result string string;
}.

(** The two text forms of a failure to send. *)
Record SendError := mkSendError { sr_display : string; sr_debug : string }.

Record TokenAccount := mkTokenAccount { ta_uuid : string; ta_email_address : string }.

Record TokenExchangeResponse := mkTokenExchange {
  tx_access_token : string;
  tx_refresh_token : string;
  tx_expires_in : Z;
  tx_scope : string;
  tx_account : option TokenAccount;
  tx_organization : option string;
}.

Record OAuthRefreshResponse := mkRefreshResponse {
  rr_access_token : string;
  rr_refresh_token : string;
  rr_expires_in : Z;
}.

(** The client, the text of a status, and the derived readers of answers. *)
Class HttpClient := {
  http_send : HttpRequest → result SendError HttpResponse;
  status_text : Z → string;
  read_exchange : string → result string TokenExchangeResponse;
  read_refresh : string → result string OAuthRefreshResponse;
  read_value : string → result string Value;
}.

Class Base64Url := { base64url_encode : string → string }.

(** [resp.text().await.unwrap_or_default()] and [resp.json().await]. *)
Definition response_text (r : HttpResponse) : string :=
  match hs_body r with Ok t => t | Err _ => "" end.

Definition response_json {A} (read : string → result string A) (r : HttpResponse) : result string A :=
  text ← hs_body r; read text.

(** ** Authorization *)

Definition CLIENT_ID : string := "9d1c250a-e61b-44d9-88ed-5944d1962f5e".
Definition AUTHORIZE_URL : string := "https://claude.ai/oauth/authorize".
Definition TOKEN_URL : string := "https://platform.claude.com/v1/oauth/token".
Definition REDIRECT_URI : string := "https://platform.claude.com/oauth/code/callback".
Definition SCOPE_FULL : string :=
  "user:profile user:inference user:sessions:claude_code user:mcp_servers user:file_upload".
Definition SCOPE_INFERENCE : string := "user:inference".
Definition SESSION_TTL : Duration := from_secs (30 * 60).
Definition SETUP_TOKEN_EXPIRES_IN : Z := 365 * 24 * 60 * 60.

Definition hex_digit (n : Z) : ascii :=
  ascii_of_N (Z.to_N (if n <? 10 then 48 + n else 55 + n)).

Definition is_unreserved (c : ascii) : bool :=
  is_alphanumeric c || existsb (Ascii.eqb c) (String.list_ascii_of_string "-_.~").

Fixpoint percent_encode (s : string) : string :=
  match s with
  | EmptyString => EmptyString
  | String c s =>
      if is_unreserved c then String c (percent_encode s)
      else String "%" (String (hex_digit (byte_val c / 16))
             (String (hex_digit (byte_val c mod 16)) (percent_encode s)))
  end.

Record OAuthSession := mkOAuthSession {
  os_state : string;
  os_code_verifier : string;
  os_scope : string;
  os_proxy_url : string;
  os_created_at : Instant;
}.

(** [SessionStore]. *)
Abbreviation Sessions := (gmap string OAuthSession).

Definition session_live (now : Instant) (s : OAuthSession) : bool :=
  elapsed now (os_created_at s) <? SESSION_TTL.

Definition session_set (id : string) (session : OAuthSession) (now : Instant) (m : Sessions) : Sessions :=
  <[id := session]> (filter (λ kv, session_live now kv.2 = true) m).

Definition session_take (id : string) (m : Sessions) : option OAuthSession * Sessions :=
  (m !! id, delete id m).

(** The random bytes of an authorization, and the two readings of the clock. *)
Record AuthDraws := mkAuthDraws {
  ad_state : string;
  ad_verifier : string;
  ad_session : string;
  ad_created : Instant;
  ad_stored : Instant;
}.

Record AuthUrl := mkAuthUrl { au_auth_url : string; au_session_id : string }.

Section oauth.
Context `{HttpClient} `{Base64Url} `{Digest} `{Chrono} `{JsonText}.

Definition generate_code_challenge (verifier : string) : string := base64url_encode (sha256 verifier).

Definition auth_url_of (scope challenge state : string) : string :=
  AUTHORIZE_URL +:+ "?code=true&client_id=" +:+ CLIENT_ID +:+ "&response_type=code&redirect_uri="
  +:+ percent_encode REDIRECT_URI +:+ "&scope=" +:+ replace_byte " " "+" scope
  +:+ "&code_challenge=" +:+ challenge +:+ "&code_challenge_method=S256&state=" +:+ state.

Definition build_auth_url (scope proxy_url : string) (d : AuthDraws) (m : Sessions) : AuthUrl * Sessions :=
  let state := base64url_encode (ad_state d) in
  let code_verifier := base64url_encode (ad_verifier d) in
  let code_challenge := generate_code_challenge code_verifier in
  let session_id := hex_encode (ad_session d) in
  let m := session_set session_id (mkOAuthSession state code_verifier scope proxy_url (ad_created d))
             (ad_stored d) m in
  (mkAuthUrl (auth_url_of scope code_challenge state) session_id, m).

Definition generate_auth_url (proxy_url : option string) : AuthDraws → Sessions → AuthUrl * Sessions :=
  build_auth_url SCOPE_FULL (default "" proxy_url).

Definition generate_setup_token_url (proxy_url : option string)
    : AuthDraws → Sessions → AuthUrl * Sessions :=
  build_auth_url SCOPE_INFERENCE (default "" proxy_url).

(** ** The exchange of a code *)

Record ExchangeCodeResponse := mkExchangeCode {
  ec_access_token : string;
  ec_refresh_token : string;
  ec_expires_in : Z;
  ec_expires_at : Z;
  ec_scope : string;
  ec_account_uuid : string;
  ec_organization_uuid : string;
  ec_email_address : string;
}.

(** The code and the state that may follow it. *)
Definition split_code (raw_code : string) : string * string :=
  default (raw_code, "") (split_once "#" raw_code).

Definition exchange_body (session : OAuthSession) (raw_code : string) (is_setup_token : bool) : Value :=
  let '(auth_code, code_state) := split_code raw_code in
  VObject (insert_if is_setup_token "expires_in" (of_i64 SETUP_TOKEN_EXPIRES_IN)
    (<["state" := VString (if is_empty code_state then os_state session else code_state)]>
      (list_to_map
        [("grant_type", VString "authorization_code"); ("code", VString auth_code);
         ("redirect_uri", VString REDIRECT_URI); ("client_id", VString CLIENT_ID);
         ("code_verifier", VString (os_code_verifier session))]))).

Definition post_json (url proxy : string) (body : Value) : HttpRequest :=
  mkHttpRequest "POST" url [("Content-Type", "application/json")] proxy (Some body).

Definition token_lifetime (expires_in : Z) : Z := if 0 <? expires_in then expires_in else 3600.

Definition exchange_request (session : OAuthSession) (raw_code : string) (is_setup_token : bool)
    : HttpRequest :=
  post_json TOKEN_URL (os_proxy_url session) (exchange_body session raw_code is_setup_token).

(** The request to the token endpoint and what its answer becomes. *)
Definition exchange_with (session : OAuthSession) (raw_code : string) (is_setup_token : bool)
    (utc : DateTime) : result AppError ExchangeCodeResponse :=
  match http_send (exchange_request session raw_code is_setup_token) with
  | Err e => Err (Internal ("token exchange request failed: " +:+ sr_display e))
  | Ok resp =>
      if negb ((200 <=? hs_status resp) && (hs_status resp <? 300)) then
        Err (Internal ("token exchange failed: status " +:+ status_text (hs_status resp) +:+ " "
                       +:+ response_text resp))
      else
        match response_json read_exchange resp with
        | Err e => Err (Internal ("token exchange parse failed: " +:+ e))
        | Ok t =>
            let expires_in := token_lifetime (tx_expires_in t) in
            Ok {| ec_access_token := tx_access_token t;
                  ec_refresh_token := tx_refresh_token t;
                  ec_expires_in := expires_in;
                  ec_expires_at := wrap i64 (utc / 1000000000 + expires_in);
                  ec_scope := tx_scope t;
                  ec_account_uuid := default "" (ta_uuid <$> tx_account t);
                  ec_email_address := default "" (ta_email_address <$> tx_account t);
                  ec_organization_uuid := default "" (tx_organization t) |}
        end
  end.

Definition do_exchange (session_id raw_code : string) (is_setup_token : bool) (now : Instant)
    (utc : DateTime) (m : Sessions) : result AppError ExchangeCodeResponse * Sessions :=
  let '(session, m) := session_take session_id m in
  (match session with
   | None => Err (BadRequest "invalid or expired session_id")
   | Some session =>
       if negb (session_live now session) then Err (BadRequest "session expired")
       else exchange_with session raw_code is_setup_token utc
   end, m).

(** ** Refreshing, testing, usage (src/src/service/oauth.rs) *)

Definition OAUTH_TOKEN_URL : string := "https://platform.claude.com/v1/oauth/token".
Definition OAUTH_CLIENT_ID : string := "9d1c250a-e61b-44d9-88ed-5944d1962f5e".
Definition OAUTH_SCOPES : list string :=
  ["user:profile"; "user:inference"; "user:sessions:claude_code"; "user:mcp_servers";
   "user:file_upload"].

(** [chrono::Duration::seconds] aborts beyond [i64::MAX] milliseconds. *)
Definition dur_seconds (s : Z) : outcome Duration :=
  if (- (ity_max i64 / 1000) <=? s) && (s <=? ity_max i64 / 1000) then Done (from_secs s) else Panic.

Definition refresh_request (refresh_token proxy_url : string) : HttpRequest :=
  post_json OAUTH_TOKEN_URL proxy_url (VObject (list_to_map
    [("grant_type", VString "refresh_token"); ("refresh_token", VString refresh_token);
     ("client_id", VString OAUTH_CLIENT_ID); ("scope", VString (join " " OAUTH_SCOPES))])).

Definition refresh_oauth_token (refresh_token proxy_url : string) (utc : DateTime)
    : outcome (result AppError RefreshedOAuthTokens) :=
  match http_send (refresh_request refresh_token proxy_url) with
  | Err e => Done (Err (Internal ("oauth refresh request failed: " +:+ sr_display e)))
  | Ok resp =>
      if negb (hs_status resp =? 200) then
        Done (Err (Internal ("oauth refresh failed: status " +:+ status_text (hs_status resp) +:+ " "
                             +:+ response_text resp)))
      else
        match response_json read_refresh resp with
        | Err e => Done (Err (Internal ("oauth refresh parse failed: " +:+ e)))
        | Ok data =>
            d ← dur_seconds (token_lifetime (rr_expires_in data));
            expires_at ← dt_add utc d;
            Done (Ok {| ro_access_token := rr_access_token data;
                        ro_refresh_token := if is_empty (rr_refresh_token data) then refresh_token
                                            else rr_refresh_token data;
                        ro_expires_at := expires_at |})
        end
  end.

Definition TEST_MODEL : string := "claude-haiku-4-5-20251001".

Definition test_body : Value :=
  VObject (list_to_map
    [("model", VString TEST_MODEL); ("max_tokens", of_i64 1);
     ("messages", VArray [VObject (list_to_map [("role", VString "user"); ("content", VString "hi")])])]).

Definition stainless_os (platform : string) : string :=
  if String.eqb platform "darwin" then "MacOS"
  else if String.eqb platform "win32" then "Windows" else "Linux".

Definition test_request (token proxy_url : string) (canonical_env : Value) (session_id request_id : string)
    : HttpRequest :=
  let env := parse_canonical_env canonical_env in
  mkHttpRequest "POST" "https://api.anthropic.com/v1/messages?beta=true"
    [("Authorization", "Bearer " +:+ token); ("Content-Type", "application/json");
     ("Accept", "application/json"); ("anthropic-version", "2023-06-01");
     ("anthropic-beta", join "," (compute_betas_for_request TEST_MODEL test_body));
     ("anthropic-dangerous-direct-browser-access", "true");
     ("User-Agent", "claude-cli/" +:+ ce_version env +:+ " (external, cli)"); ("x-app", "cli");
     ("accept-encoding", "gzip, deflate, br, zstd"); ("X-Stainless-Lang", "js");
     ("X-Stainless-Package-Version", CLAUDE_CODE_STAINLESS_VERSION);
     ("X-Stainless-OS", stainless_os (ce_platform env)); ("X-Stainless-Arch", ce_arch env);
     ("X-Stainless-Runtime", "node"); ("X-Stainless-Runtime-Version", ce_node_version env);
     ("X-Stainless-Retry-Count", "0"); ("X-Stainless-Timeout", "600");
     ("X-Claude-Code-Session-Id", session_id); ("x-client-request-id", request_id)]
    proxy_url (Some test_body).

Definition test_token (token proxy_url : string) (canonical_env : Value) (session_id request_id : string)
    : result AppError unit :=
  match http_send (test_request token proxy_url canonical_env session_id request_id) with
  | Err e => Err (Internal ("request failed: " +:+ sr_debug e))
  | Ok resp =>
      if hs_status resp =? 200 then Ok tt
      else Err (Internal ("token test failed: status " +:+ status_text (hs_status resp) +:+ " "
                          +:+ response_text resp))
  end.

Definition usage_request (token proxy_url : string) : HttpRequest :=
  mkHttpRequest "GET" "https://api.anthropic.com/api/oauth/usage"
    [("Authorization", "Bearer " +:+ token); ("Accept", "application/json");
     ("Content-Type", "application/json"); ("anthropic-beta", "oauth-2025-04-20");
     ("User-Agent", "claude-code/" +:+ CLAUDE_CODE_VERSION)] proxy_url None.

Definition usage_error (status : Z) (text : string) : AppError :=
  if (status =? 401) || (status =? 403) then
    BadRequest ("usage fetch failed: status " +:+ status_text status
                +:+ " — token may be expired or invalid: " +:+ text)
  else if status =? 429 then
    TooManyRequests ("usage endpoint rate limited (429), try again later: " +:+ text)
  else Internal ("usage fetch failed: status " +:+ status_text status +:+ " " +:+ text).

Definition fetch_usage (token proxy_url : string) : result AppError Value :=
  match http_send (usage_request token proxy_url) with
  | Err e => Err (Internal ("usage request failed: " +:+ sr_display e))
  | Ok resp =>
      if negb (hs_status resp =? 200) then Err (usage_error (hs_status resp) (response_text resp))
      else map_err (λ e, Internal ("usage parse failed: " +:+ e)) (response_json read_value resp)
  end.
End oauth.

(** ** Interleaving

    Authorizations and exchanges, in the order in which they lock the sessions. *)

Inductive FlowStep :=
  | FS_Url (scope proxy_url : string) (d : AuthDraws)
  | FS_Exchange (session_id raw_code : string) (is_setup_token : bool) (now : Instant) (utc : DateTime).

Definition flow_step `{HttpClient} `{Base64Url} `{Digest} (m : Sessions) (step : FlowStep) : Sessions :=
  match step with
  | FS_Url scope proxy_url d => (build_auth_url scope proxy_url d m).2
  | FS_Exchange id code setup now utc => (do_exchange id code setup now utc m).2
  end.

Definition flow_run `{HttpClient} `{Base64Url} `{Digest} (m : Sessions) (steps : list FlowStep) : Sessions :=
  foldl flow_step m steps.
