(* ===== verification/OAuthFacts.v ===== *)
(** * OAuthFacts: the theorems on OAuth

    Percent encoding is read back; the address that a user is sent to names the parameters
    of its session; a session is redeemed once and in time; a refreshed token keeps its
    refresh token and expires later. *)

From S2P Require Import Prelude Text F64 Json Http Model Account OAuthFlow.

(** ** Encoded text *)

Definition hex_value (c : ascii) : option Z :=
  if is_digit c then Some (byte_val c - 48)
  else if (65 <=? byte_val c) && (byte_val c <=? 70) then Some (byte_val c - 55)
  else None.

(** Form decoding: a plus is a space. *)
Fixpoint form_decode (s : string) : option string :=
  match s with
  | EmptyString => Some EmptyString
  | String c r =>
      if Ascii.eqb c "%" then
        match r with
        | String a (String b r) =>
            x ← hex_value a; y ← hex_value b; rest ← form_decode r;
            Some (String (ascii_of_N (Z.to_N (16 * x + y))) rest)
        | _ => None
        end
      else rest ← form_decode r; Some (String (if Ascii.eqb c "+" then " "%char else c) rest)
  end.

Definition parse_query (url : string) : option (list (string * string)) :=
  '(_, q) ← split_once "?" url;
  mapM (λ kv, '(k, v) ← split_once "=" kv; v ← form_decode v; Some (k, v)) (split_on "&" q).

Lemma byte_of_val c : ascii_of_N (Z.to_N (byte_val c)) = c.
Proof. unfold byte_val. rewrite N2Z.id. apply ascii_N_embedding. Qed.

Lemma hex_value_digit n : 0 ≤ n < 16 → hex_value (hex_digit n) = Some n.
Proof.
  intros Hn. assert (n ∈ seqZ 0 16) as Hin by (apply elem_of_seqZ; lia).
  apply (bool_decide_eq_true (hex_value (hex_digit n) = Some n)).
  assert (forallb (λ n, bool_decide (hex_value (hex_digit n) = Some n)) (seqZ 0 16) = true) as Hall
    by by vm_compute.
  rewrite forallb_forall in Hall. by apply Hall, list_elem_of_In.
Qed.

Lemma unreserved_not (d : ascii) c : is_unreserved d = false → is_unreserved c = true → Ascii.eqb c d = false.
Proof. intros Hd Hc. destruct (Ascii.eqb_spec c d) as [->|]; congruence. Qed.

Lemma form_decode_encode s : form_decode (percent_encode s) = Some s.
Proof.
  induction s as [|c s IH]; [done|]. cbn [percent_encode]. destruct (is_unreserved c) eqn:Hc.
  - cbn [form_decode]. by rewrite (unreserved_not "%"), (unreserved_not "+"), IH.
  - pose proof (byte_val_bounds c) as Hb. cbn [form_decode].
    rewrite !hex_value_digit by (pose proof (Z.mod_pos_bound (byte_val c) 16);
      pose proof (Z.div_lt_upper_bound (byte_val c) 16 16); pose proof (Z.div_pos (byte_val c) 16); lia).
    simpl. rewrite IH. simpl. by rewrite <- Z.div_mod, byte_of_val by lia.
Qed.

(** ** The address of an authorization *)

Section oauth.
Context `{HttpClient} `{Base64Url} `{Digest}.

(** The encoding of base64 for addresses has letters, digits, minus and underscore. *)
Hypothesis base64url_unreserved : ∀ s, str_all is_unreserved (base64url_encode s) = true.

Lemma form_decode_unreserved s : str_all is_unreserved s = true → form_decode s = Some s.
Proof.
  induction s as [|c s IH]; [done|]. intros [Hc Hs]%andb_true_iff. cbn [form_decode].
  by rewrite (unreserved_not "%"), (unreserved_not "+"), IH.
Qed.

Lemma unreserved_lacks d s : is_unreserved d = false → str_all is_unreserved s = true → lacks d s = true.
Proof.
  intros Hd. induction s as [|c s IH]; [done|]. intros [Hc Hs]%andb_true_iff. unfold lacks. simpl.
  rewrite (unreserved_not d) by done. by apply IH.
Qed.

Lemma split_once_app c x s : lacks c x = true → split_once c (x +:+ String c s) = Some (x, s).
Proof.
  unfold split_once, lacks. induction x as [|d x IH]; intros Hx.
  { simpl. by rewrite Ascii.eqb_refl. }
  simpl in Hx. apply andb_true_iff in Hx as [Hd Hx]. apply negb_true_iff in Hd.
  rewrite str_cons_app. simpl. rewrite Ascii.eqb_sym, Hd. by rewrite IH.
Qed.

(** The parameters of an address, and that they can be written one after the other. *)
Definition auth_parameters (scope challenge state : string) : list (string * string) :=
  [("code", "true"); ("client_id", CLIENT_ID); ("response_type", "code"); ("redirect_uri", REDIRECT_URI);
   ("scope", scope); ("code_challenge", challenge); ("code_challenge_method", "S256"); ("state", state)].

Lemma auth_url_parses scope challenge state :
  scope = SCOPE_FULL ∨ scope = SCOPE_INFERENCE →
  str_all is_unreserved challenge = true → str_all is_unreserved state = true →
  parse_query (auth_url_of scope challenge state) = Some (auth_parameters scope challenge state).
Proof.
  intros Hscope Hc Hs.
  set (raws := [("code", "true"); ("client_id", CLIENT_ID); ("response_type", "code");
    ("redirect_uri", percent_encode REDIRECT_URI); ("scope", replace_byte " " "+" scope);
    ("code_challenge", challenge); ("code_challenge_method", "S256"); ("state", state)]).
  set (parts := (λ kv : string * string, kv.1 +:+ String "=" kv.2) <$> raws).
  assert (auth_url_of scope challenge state = AUTHORIZE_URL +:+ String "?" (join "&" parts)) as ->.
  { destruct Hscope as [-> | ->]; reflexivity. }
  unfold parse_query. rewrite split_once_app by reflexivity. cbn [mbind option_bind].
  rewrite split_on_join; [|done|].
  - apply mapM_Some. unfold parts. apply Forall2_fmap_l.
    unfold raws, auth_parameters. repeat constructor; cbn [compose fst snd];
      rewrite split_once_app by reflexivity; cbn [mbind option_bind].
    all: first [by destruct Hscope as [-> | ->] | by rewrite form_decode_unreserved].
  - unfold parts. apply Forall_fmap.
    unfold raws. repeat constructor; cbn [compose fst snd].
    all: first [by destruct Hscope as [-> | ->] |
      exact (unreserved_lacks "&" challenge eq_refl Hc) | exact (unreserved_lacks "&" state eq_refl Hs)].
Qed.

(** ** Sessions *)

(** A step that does not use a session. *)
Definition avoids (id : string) (step : FlowStep) : bool :=
  match step with
  | FS_Url _ _ d => negb (String.eqb (hex_encode (ad_session d)) id)
  | FS_Exchange id' _ _ _ _ => negb (String.eqb id' id)
  end.

(** A step that does not draw the name of a session. *)
Definition not_drawn (id : string) (step : FlowStep) : bool :=
  match step with FS_Url _ _ d => negb (String.eqb (hex_encode (ad_session d)) id) | _ => true end.

(** A step that stores a session while one of the given age is alive. *)
Definition within_ttl (created : Instant) (step : FlowStep) : bool :=
  match step with FS_Url _ _ d => elapsed (ad_stored d) created <? SESSION_TTL | _ => true end.

Lemma flow_step_kept id s m step :
  avoids id step = true → within_ttl (os_created_at s) step = true →
  m !! id = Some s → flow_step m step !! id = Some s.
Proof.
  intros Ha Hw Hm. destruct step as [scope proxy d|id' code setup now utc];
    unfold flow_step, build_auth_url, do_exchange, session_take; simpl in *.
  - apply negb_true_iff, String.eqb_neq in Ha. unfold session_set. rewrite lookup_insert_ne by done.
    by apply map_lookup_filter_Some.
  - apply negb_true_iff, String.eqb_neq in Ha. by rewrite lookup_delete_ne.
Qed.

Lemma flow_step_old id s m step :
  avoids id step = true → m !! id = None ∨ m !! id = Some s →
  flow_step m step !! id = None ∨ flow_step m step !! id = Some s.
Proof.
  intros Ha Hm. destruct step as [scope proxy d|id' code setup now utc];
    unfold flow_step, build_auth_url, do_exchange, session_take; simpl in *.
  - apply negb_true_iff, String.eqb_neq in Ha. unfold session_set. rewrite lookup_insert_ne by done.
    destruct (filter _ m !! id) as [s'|] eqn:Hf; [right|by left].
    apply map_lookup_filter_Some in Hf as [Hf _]. naive_solver.
  - apply negb_true_iff, String.eqb_neq in Ha. by rewrite lookup_delete_ne.
Qed.

Lemma flow_step_absent id m step :
  not_drawn id step = true → m !! id = None → flow_step m step !! id = None.
Proof.
  intros Ha Hm. destruct step as [scope proxy d|id' code setup now utc];
    unfold flow_step, build_auth_url, do_exchange, session_take; simpl in *.
  - apply negb_true_iff, String.eqb_neq in Ha. unfold session_set. rewrite lookup_insert_ne by done.
    apply map_lookup_filter_None. by left.
  - rewrite lookup_delete. by case_decide.
Qed.

(** A property of the sessions that each of the steps keeps. *)
Lemma flow_run_keeps (P : Sessions → Prop) (p : FlowStep → bool) m steps :
  (∀ m step, p step = true → P m → P (flow_step m step)) →
  Forall (λ step, p step = true) steps → P m → P (flow_run m steps).
Proof.
  intros Hp Hf Hm. induction Hf as [|step steps Hs Hf IH] in m, Hm |- *; [done|].
  simpl. apply IH. by apply Hp.
Qed.

Lemma exchange_body_fields s code setup :
  let v := exchange_body s code setup in
  vget v "grant_type" = Some (VString "authorization_code")
  ∧ vget v "code" = Some (VString (split_code code).1)
  ∧ vget v "code_verifier" = Some (VString (os_code_verifier s))
  ∧ vget v "state" = Some (VString (if is_empty (split_code code).2 then os_state s else (split_code code).2)).
Proof.
  unfold exchange_body. destruct (split_code code) as [c st]. simpl.
  split_and!; rewrite ?lookup_insert_if_ne by done; simplify_map_eq; done.
Qed.

(** C24: The address of an authorization, read as a query, names the client, the scope, a state
    and the challenge of a fresh verifier. While thirty minutes have not passed, and whatever is
    authorized or exchanged in between under other names, exchanging a code under its name sends
    that verifier and the code, with the state that the code carries or else the one of the
    address, to the token endpoint through the proxy it was made for; later it is refused. After
    an exchange, successful or not, the name is refused. *)
Theorem authorization_redeemed_once scope proxy d m code setup now utc steps :
  scope = SCOPE_FULL ∨ scope = SCOPE_INFERENCE →
  let url := (build_auth_url scope proxy d m).1 in
  let id := au_session_id url in
  Forall (λ step, avoids id step = true) steps →
  let m1 := flow_run (build_auth_url scope proxy d m).2 steps in
  ∃ session,
    parse_query (au_auth_url url) =
      Some (auth_parameters scope (base64url_encode (sha256 (os_code_verifier session))) (os_state session))
    ∧ (Forall (λ step, within_ttl (ad_created d) step = true) steps →
       elapsed now (ad_created d) < SESSION_TTL →
       let request := exchange_request session code setup in
       (do_exchange id code setup now utc m1).1 = exchange_with session code setup utc
       ∧ hq_url request = TOKEN_URL ∧ hq_proxy request = proxy
       ∧ ∃ body, hq_body request = Some body
         ∧ vget body "code_verifier" = Some (VString (os_code_verifier session))
         ∧ vget body "code" = Some (VString (split_code code).1)
         ∧ vget body "state" = Some (VString (if is_empty (split_code code).2 then os_state session
                                              else (split_code code).2)))
    ∧ (SESSION_TTL ≤ elapsed now (ad_created d) →
       ∃ msg, (do_exchange id code setup now utc m1).1 = Err (BadRequest msg))
    ∧ ∀ steps' code' setup' now' utc', Forall (λ step, not_drawn id step = true) steps' →
        (do_exchange id code' setup' now' utc'
           (flow_run (do_exchange id code setup now utc m1).2 steps')).1
        = Err (BadRequest "invalid or expired session_id").
Proof.
  intros Hscope url id Hsteps m1. subst url id m1. unfold build_auth_url in *. simpl in *.
  set (id := hex_encode (ad_session d)) in *.
  set (verifier := base64url_encode (ad_verifier d)). set (state := base64url_encode (ad_state d)).
  set (session := mkOAuthSession state verifier scope proxy (ad_created d)).
  set (m0 := session_set id session (ad_stored d) m).
  assert (m0 !! id = Some session) as Hm0 by apply lookup_insert_eq.
  exists session. split_and!.
  - apply auth_url_parses; [done|apply base64url_unreserved..].
  - intros Hw Ht. assert (flow_run m0 steps !! id = Some session) as Hm.
    { apply (flow_run_keeps (λ m, m !! id = Some session) (λ s, avoids id s && within_ttl (ad_created d) s)); [..|done].
      - intros m' step [Ha Hb]%andb_true_iff. by apply flow_step_kept.
      - apply Forall_forall. rewrite Forall_forall in Hsteps, Hw. intros s Hs.
        by rewrite (Hsteps s Hs), (Hw s Hs). }
    unfold do_exchange, session_take. rewrite Hm. cbn [fst snd].
    assert (session_live now session = true) as -> by (apply Z.ltb_lt; exact Ht).
    split_and!; [done..|]. exists (exchange_body session code setup).
    destruct (exchange_body_fields session code setup) as (_ & ? & ? & ?). by split_and!.
  - intros Ht. unfold do_exchange, session_take. cbn [fst].
    destruct (flow_run_keeps (λ m, m !! id = None ∨ m !! id = Some session) (avoids id) m0 steps)
      as [-> | ->]; [|done|by right|by eexists|].
    + intros m' step. apply flow_step_old.
    + assert (session_live now session = false) as -> by (apply Z.ltb_ge; exact Ht). by eexists.
  - intros steps' code' setup' now' utc' Hs'. unfold do_exchange, session_take. cbn [fst snd].
    rewrite (flow_run_keeps (λ m, m !! id = None) (not_drawn id)); [done| |done|apply lookup_delete_eq].
    intros m' step. apply flow_step_absent.
Qed.
End oauth.

(** ** Refreshing *)

Section refresh.
Context `{HttpClient} `{Chrono}.

(** What the token endpoint answers, when it answers well. *)
Definition refresh_answered (refresh_token proxy_url : string) (data : OAuthRefreshResponse) : Prop :=
  ∃ resp, http_send (refresh_request refresh_token proxy_url) = Ok resp ∧ hs_status resp = 200
    ∧ response_json read_refresh resp = Ok data.

(** A lifetime that the calendar can add to the present. *)
Definition lifetime_fits (utc : DateTime) (expires_in : Z) : Prop :=
  token_lifetime expires_in ≤ ity_max i64 / 1000
  ∧ in_chrono (utc + from_secs (token_lifetime expires_in)) = true.

Lemma token_lifetime_pos e : 0 < token_lifetime e.
Proof. unfold token_lifetime. destruct (0 <? e) eqn:He; lia. Qed.

(** A refresh succeeds exactly when the token endpoint answers with 200 and a token, for a
    lifetime that the calendar can represent; the new access token then expires after the
    present, by the given lifetime or else an hour, and the new refresh token is the given one
    or else the old one. A longer lifetime makes the refresh panic; everything else is an
    internal error. *)
Theorem refresh_oauth_token_correct refresh_token proxy_url utc :
  (∀ data, refresh_answered refresh_token proxy_url data → lifetime_fits utc (rr_expires_in data) →
    ∃ t, refresh_oauth_token refresh_token proxy_url utc = Done (Ok t)
      ∧ ro_access_token t = rr_access_token data
      ∧ ro_refresh_token t = (if is_empty (rr_refresh_token data) then refresh_token else rr_refresh_token data)
      ∧ ro_expires_at t = utc + from_secs (token_lifetime (rr_expires_in data)) ∧ utc < ro_expires_at t)
  ∧ (∀ data, refresh_answered refresh_token proxy_url data → ¬ lifetime_fits utc (rr_expires_in data) →
      refresh_oauth_token refresh_token proxy_url utc = Panic)
  ∧ ((∀ data, ¬ refresh_answered refresh_token proxy_url data) →
      ∃ msg, refresh_oauth_token refresh_token proxy_url utc = Done (Err (Internal msg))).
Proof.
  assert (∀ data, refresh_answered refresh_token proxy_url data →
    refresh_oauth_token refresh_token proxy_url utc =
    (d ← dur_seconds (token_lifetime (rr_expires_in data));
     expires_at ← dt_add utc d;
     Done (Ok (mkRefreshed (rr_access_token data)
       (if is_empty (rr_refresh_token data) then refresh_token else rr_refresh_token data) expires_at)))) as Hans.
  { intros data (resp & Hs & Hst & Hj). unfold refresh_oauth_token. by rewrite Hs, Hst, Hj. }
  split_and!.
  - intros data Ha [Hle Hin]. rewrite (Hans data Ha). pose proof (token_lifetime_pos (rr_expires_in data)) as Hpos.
    generalize dependent (token_lifetime (rr_expires_in data)). intros life Hle Hin Hpos.
    unfold dur_seconds. assert ((- (ity_max i64 / 1000) <=? life) && (life <=? ity_max i64 / 1000) = true) as ->.
    { apply andb_true_iff. rewrite !Z.leb_le. simpl in *. lia. }
    cbn [mbind outcome_bind]. rewrite dt_add_in by done. cbn [mbind outcome_bind].
    eexists. split; [done|]. simpl. split_and!; try done. unfold from_secs. lia.
  - intros data Ha Hfit. rewrite (Hans data Ha). pose proof (token_lifetime_pos (rr_expires_in data)) as Hpos.
    unfold lifetime_fits in Hfit. generalize dependent (token_lifetime (rr_expires_in data)).
    intros life Hfit Hpos. unfold dur_seconds.
    destruct ((- (ity_max i64 / 1000) <=? life) && (life <=? ity_max i64 / 1000)) eqn:Hd; [|done].
    cbn [mbind outcome_bind]. unfold dt_add.
    destruct (in_chrono (utc + from_secs life)) eqn:Hin; [|done]. exfalso. apply Hfit.
    apply andb_true_iff in Hd as [_ ?%Z.leb_le]. done.
  - intros Hno. unfold refresh_oauth_token.
    destruct (http_send _) as [resp|e] eqn:Hs; [|by eexists].
    destruct (hs_status resp =? 200) eqn:Hst; simpl; [|by eexists]. apply Z.eqb_eq in Hst.
    destruct (response_json read_refresh resp) as [data|e] eqn:Hj; [|by eexists].
    exfalso. apply (Hno data). by exists resp.
Qed.
End refresh.
