(* ===== verification/Telemetry.v ===== *)
(** * Telemetry: the telemetry sessions of accounts (src/src/service/telemetry.rs)

    One session per account that is in use, with the requests that are under way and the
    completed ones that wait for a batch; one loop per session that wakes up every second
    and may send one request. A wake-up and the sending that follows it are two steps, since
    the lock of the sessions is not held while a request is sent. *)

From Stdlib Require Import SpecFloat.
From S2P Require Import Prelude Text F64 Json Http Model Identity AccountStore Account UsageParse Usage.
From S2P Require Import GatewayHeaders Rewriter RewriteBody Fingerprint OAuthFlow.

Definition TEL_SESSION_TTL : Duration := from_secs (10 * 60).
Definition EVENT_BATCH_INTERVAL : Duration := from_secs 10.
Definition GROWTHBOOK_INTERVAL : Duration := from_secs (6 * 60 * 60).
Definition METRICS_INTERVAL : Duration := from_secs 60.
Definition PENDING_HARD_TIMEOUT : Duration := from_secs (20 * 60).
Definition EVENT_BATCH_MAX_COMPLETIONS : nat := 64.
Definition EVENT_BATCH_PATH : string := "/api/event_logging/v2/batch".
Definition GROWTHBOOK_CLIENT_KEY : string := "sdk-zAZezfDKGoZuXXKe".

(** ** Sessions *)

Record TelemetryRequestProfile := mkTelProfile {
  tp_model : string;
  tp_betas : string;
  tp_entrypoint : string;
  tp_client_type : option string;
  tp_client_request_id : option string;
  tp_is_interactive : bool;
  tp_thinking_type : option string;
  tp_effort : option string;
  tp_fast_mode : bool;
  tp_message_count : Z;
}.

(** [from_request]; the headers come in the order in which the map gives them. *)
Definition profile_from_request (model : string) (headers : list (string * string)) (body : Value)
    : TelemetryRequestProfile :=
  let header := map_header headers in
  let entrypoint := user_agent_entrypoint (default "" (header "user-agent")) in
  {| tp_model := model;
     tp_betas := default "" (header "anthropic-beta");
     tp_is_interactive := String.eqb entrypoint "cli";
     tp_client_type := if String.eqb entrypoint "cli" then Some "cli"
                       else if String.eqb entrypoint "sdk-cli" then Some "sdk-cli" else None;
     tp_client_request_id := opt_filter (λ v, negb (is_empty v)) (header "x-client-request-id");
     tp_entrypoint := entrypoint;
     tp_thinking_type := request_thinking_type body;
     tp_effort := request_effort body;
     tp_fast_mode := is_some_and (header "anthropic-beta")
       (λ value, existsb (λ beta, String.eqb (trim beta) "fast-mode-2026-02-01") (split_on "," value));
     tp_message_count := default 0
       ((λ l, Z.of_nat (length l)) <$> (vget body "messages" ≫= as_array)) |}.

Record PendingTelemetryRequest := mkTelPending {
  pq_profile : TelemetryRequestProfile;
  pq_request_timestamp : DateTime;
  pq_registered_at : Instant;
}.

Record CompletedTelemetryEvent := mkTelCompleted {
  cq_pending : PendingTelemetryRequest;
  cq_observation : CompletedInferenceObservation;
}.

Record TelemetrySession := mkTelSession {
  te_account : Account;
  te_token : string;
  te_started_at : Instant;
  te_expires_at : Instant;
  te_expires_at_utc : DateTime;
  te_last_event_batch_at : Instant;
  te_last_metrics_at : Instant;
  te_send_count : Z;
  te_running : bool;
  te_pending : gmap string PendingTelemetryRequest;
  te_ready : list CompletedTelemetryEvent;
  te_cpu_user_total : Z;
  te_cpu_system_total : Z;
  te_last_cpu_update : Instant;
  te_next_event_allowed_at : Instant;
  te_telemetry_session_id : string;
  te_uptime_offset_secs : f64;
  te_mem_rss : Z;
  te_mem_heap_total : Z;
  te_mem_heap_used : Z;
  te_mem_external : Z;
  te_mem_array_buffers : Z;
  te_events_sent_total : Z;
}.

(** The request that a loop is about to send: its name in the audit, its address, the token,
    the payload and the completions that it carries. *)
Record TelemetryJob := mkTelJob {
  tj_name : string;
  tj_url : string;
  tj_token : string;
  tj_payload : Value;
  tj_completions : list CompletedTelemetryEvent;
}.

(** A running [telemetry_loop]: its account, the proxy that its client was made for, and the
    request that it is about to send. *)
Record TelemetryLoop := mkTelLoop {
  tl_account_id : Z;
  tl_proxy_url : string;
  tl_job : option TelemetryJob;
}.

(** [TelemetryService] with its loops; [ts_sent]: the requests that went out. *)
Record TelemetryService := mkTelemetry {
  ts_sessions : gmap Z TelemetrySession;
  ts_store : AccountStore;
  ts_audit : FingerprintAudit;
  ts_growthbook_attempts : gmap Z Instant;
  ts_loops : list TelemetryLoop;
  ts_sent : list HttpRequest;
}.

Definition telemetry_new (store : AccountStore) (audit : FingerprintAudit) : TelemetryService :=
  mkTelemetry ∅ store audit ∅ [] [].

Definition on_audit (f : FingerprintAudit → FingerprintAudit) (s : TelemetryService) : TelemetryService :=
  s <| ts_audit := f (ts_audit s) |>.

Definition put_session (id : Z) (session : TelemetrySession) (s : TelemetryService) : TelemetryService :=
  s <| ts_sessions := <[id := session]> (ts_sessions s) |>.

Definition cancel_request (account_id : Z) (correlation_id : string) (s : TelemetryService)
    : TelemetryService :=
  match ts_sessions s !! account_id with
  | None => s
  | Some session =>
      match te_pending session !! correlation_id with
      | None => s
      | Some _ =>
          on_audit (observe_telemetry account_id "cancelled" false)
            (put_session account_id
               (session <| te_pending := delete correlation_id (te_pending session) |>) s)
      end
  end.

Definition get_session_expires_at (account_id : Z) (s : TelemetryService) : option DateTime :=
  te_expires_at_utc <$> ts_sessions s !! account_id.

(** ** Starting and renewing *)

(** The clocks and random draws of an activation. *)
Record ActivateEnv := mkActivateEnv {
  ve_now : Instant;
  ve_utc : DateTime;
  ve_draw : nat → Z → Z → Z;
  ve_uptime_offset : f64;
  ve_session_id : string;
}.

(** [rng.gen_range(range[0]..=range[1])] panics on an empty range. *)
Definition gen_range (draw : Z → Z → Z) (range : Z * Z) : outcome Z :=
  if range.2 <? range.1 then Panic else Done (draw range.1 range.2).

Section telemetry.
Context `{Chrono}.

Definition account_process (account : Account) : CanonicalProcessData :=
  default process_default (process_from_value (acc_canonical_process account)).

Definition renew_session (account : Account) (token correlation_id : string)
    (pending : PendingTelemetryRequest) (e : ActivateEnv) (session : TelemetrySession)
    : outcome TelemetrySession :=
  utc ← dt_add (ve_utc e) TEL_SESSION_TTL;
  Done (session <| te_expires_at := ve_now e + TEL_SESSION_TTL |> <| te_expires_at_utc := utc |>
                <| te_token := token |> <| te_account := account |>
                <| te_pending := <[correlation_id := pending]> (te_pending session) |>).

Definition start_session (account : Account) (token correlation_id : string)
    (pending : PendingTelemetryRequest) (e : ActivateEnv) : outcome TelemetrySession :=
  let preset := account_process account in
  mem_rss ← gen_range (ve_draw e 0) (pr_rss_range preset);
  mem_ht ← gen_range (ve_draw e 1) (pr_heap_total_range preset);
  mem_hu ← gen_range (ve_draw e 2) (pr_heap_used_range preset);
  mem_ext ← gen_range (ve_draw e 3) (pr_external_range preset);
  mem_ab ← gen_range (ve_draw e 4) (pr_array_buffers_range preset);
  utc ← dt_add (ve_utc e) TEL_SESSION_TTL;
  Done {|
    te_account := account;
    te_token := token;
    te_started_at := ve_now e;
    te_expires_at := ve_now e + TEL_SESSION_TTL;
    te_expires_at_utc := utc;
    te_last_event_batch_at := ve_now e - EVENT_BATCH_INTERVAL;
    te_last_metrics_at := ve_now e - METRICS_INTERVAL;
    te_send_count := 0;
    te_running := true;
    te_pending := {[correlation_id := pending]};
    te_ready := [];
    te_cpu_user_total := 0;
    te_cpu_system_total := 0;
    te_last_cpu_update := ve_now e;
    te_next_event_allowed_at := ve_now e;
    te_telemetry_session_id := ve_session_id e;
    te_uptime_offset_secs := ve_uptime_offset e;
    te_mem_rss := mem_rss;
    te_mem_heap_total := mem_ht;
    te_mem_heap_used := mem_hu;
    te_mem_external := mem_ext;
    te_mem_array_buffers := mem_ab;
    te_events_sent_total := 0 |}.

(** A panic leaves behind what was done before it, which is not tracked. *)
Definition activate_session (account : Account) (token correlation_id : string)
    (request_timestamp : DateTime) (profile : TelemetryRequestProfile) (e : ActivateEnv)
    (s : TelemetryService) : outcome TelemetryService :=
  let id := acc_id account in
  if negb (acc_auto_telemetry account) then Done s
  else
    match ts_sessions s !! id with
    | Some session =>
        session ← renew_session account token correlation_id
                    (mkTelPending profile request_timestamp (ve_now e)) e session;
        Done (on_audit (observe_telemetry id "registered" true) (put_session id session s))
    | None =>
        let s := on_audit (observe_session account "started") s in
        let profile := if is_empty (tp_model profile)
                       then profile <| tp_model := "claude-sonnet-5" |> else profile in
        let s := on_audit (observe_telemetry id "registered" true) s in
        session ← start_session account token correlation_id
                    (mkTelPending profile request_timestamp (ve_now e)) e;
        let s := put_session id session s in
        Done (s <| ts_loops := ts_loops s ++ [mkTelLoop id (acc_proxy_url account) None] |>)
    end.

(** One turn of [completion_loop]. *)
Definition complete_observation (observation : CompletedInferenceObservation) (s : TelemetryService)
    : TelemetryService :=
  let id := co_account_id observation in
  match ts_sessions s !! id with
  | None => s
  | Some session =>
      match te_pending session !! co_correlation_id observation with
      | None => s
      | Some pending =>
          let session :=
            session <| te_pending := delete (co_correlation_id observation) (te_pending session) |> in
          let session :=
            if opt_is_some (co_tokens observation)
               && ((200 <=? co_http_status observation) && (co_http_status observation <? 300))
            then session <| te_ready := te_ready session ++ [mkTelCompleted pending observation] |>
            else session in
          on_audit (observe_telemetry id "completed" true) (put_session id session s)
      end
  end.

(** ** Payloads *)

Definition f_add : f64 → f64 → f64 := SFadd 53 1024.

(** [f as i64]. *)
Definition f_as_i64 (x : f64) : Z :=
  match x with
  | S754_finite sign m e =>
      let a := if 0 <=? e then Zpos m * 2 ^ e else Zpos m / 2 ^ (- e) in
      saturate i64 (if sign then - a else a)
  | S754_infinity sign => if sign then ity_min i64 else ity_max i64
  | _ => 0
  end.

(** [as_secs_f64]. *)
Definition as_secs_f64 (d : Duration) : f64 :=
  f_add (f_of_Z (d / 1000000000)) (f_div (f_of_Z (d mod 1000000000)) (f_of_Z 1000000000)).

Record EventBatchCtx := mkBatchCtx {
  xb_account : Account;
  xb_uptime_secs : f64;
  xb_completions : list CompletedTelemetryEvent;
  xb_cpu_user_total : Z;
  xb_cpu_system_total : Z;
  xb_cpu_percent : f64;
  xb_session_id : string;
  xb_mem_rss : Z;
  xb_mem_heap_total : Z;
  xb_mem_heap_used : Z;
  xb_mem_external : Z;
  xb_mem_array_buffers : Z;
}.

Definition build_process_json (proc : CanonicalProcessData) (c : EventBatchCtx) : Value :=
  VObject (list_to_map
    [("uptime", of_f64 (xb_uptime_secs c)); ("rss", of_i64 (xb_mem_rss c));
     ("heapTotal", of_i64 (xb_mem_heap_total c)); ("heapUsed", of_i64 (xb_mem_heap_used c));
     ("external", of_i64 (xb_mem_external c)); ("arrayBuffers", of_i64 (xb_mem_array_buffers c));
     ("constrainedMemory", of_i64 (pr_constrained_memory proc));
     ("cpuUsage", VObject {["user" := of_i64 (xb_cpu_user_total c); "system" := of_i64 (xb_cpu_system_total c)]});
     ("cpuPercent", of_f64 (xb_cpu_percent c))]).

Context `{Digest} `{JsonText} `{BodyCodecs}.

Definition telemetry_account_uuid (account : Account) : string :=
  default (derive_account_uuid account) (acc_account_uuid account).

(** [num_minutes] of the time since the build. *)
Definition compute_build_age_minutes (build_time : string) (utc : DateTime) : option Z :=
  if is_empty build_time then None
  else (λ parsed, Z.max 0 ((utc - parsed) ÷ 60000000000)) <$> parse_from_rfc3339 build_time.

(** [STANDARD.encode(serde_json::to_vec(&v).unwrap_or_default())]. *)
Definition encode_json (v : Value) : string := base64_encode (default "" (res_ok (json_to_string v))).

Definition batch_auth (account : Account) : Value :=
  VObject (insert_opt "organization_uuid" VString (acc_organization_uuid account)
    {["account_uuid" := VString (telemetry_account_uuid account)]}).

(** [to_rfc3339_opts(SecondsFormat::Millis, true)]. *)
Context (to_rfc3339_millis : DateTime → string).

(** What the events of a batch have in common. *)
Record BatchCommon := mkBatchCommon {
  xc_account : Account;
  xc_session_id : string;
  xc_auth : Value;
  xc_env : Value;
  xc_process : string;
  xc_build_age : option Z;
}.

Definition make_event (x : BatchCommon) (uuid name : string) (timestamp : DateTime)
    (profile : TelemetryRequestProfile) (model : string) (metadata : Value) : Value :=
  let event : gmap string Value := list_to_map
    [("event_id", VString uuid); ("event_name", VString name);
     ("client_timestamp", VString (to_rfc3339_millis timestamp));
     ("device_id", VString (acc_device_id (xc_account x))); ("session_id", VString (xc_session_id x));
     ("model", VString model); ("user_type", VString "external");
     ("entrypoint", VString (tp_entrypoint profile)); ("auth", xc_auth x); ("env", xc_env x);
     ("process", VString (xc_process x)); ("additional_metadata", VString (encode_json metadata))] in
  let event := insert_if (negb (is_empty (acc_email (xc_account x)))) "email"
                 (VString (acc_email (xc_account x))) event in
  let event :=
    match tp_client_type profile with
    | Some client_type =>
        <["is_interactive" := VBool (tp_is_interactive profile)]>
          (<["client_type" := VString client_type]> event)
    | None => event
    end in
  let event := insert_if (negb (is_empty (tp_betas profile))) "betas" (VString (tp_betas profile)) event in
  VObject {["event_type" := VString "ClaudeCodeInternalEvent"; "event_data" := VObject event]}.

Definition make_metadata (x : BatchCommon) (profile : TelemetryRequestProfile) (model : string)
    : gmap string Value :=
  let metadata : gmap string Value := {["model" := VString model; "provider" := VString "firstParty"]} in
  let metadata := insert_opt "buildAgeMins" of_i64 (xc_build_age x) metadata in
  insert_if (negb (is_empty (tp_betas profile))) "betas" (VString (tp_betas profile)) metadata.

Definition query_metadata (x : BatchCommon) (profile : TelemetryRequestProfile) : Value :=
  let query := make_metadata x profile (tp_model profile) in
  let query := <["messagesLength" := of_i64 (tp_message_count profile)]> query in
  let query := <["fastMode" := VBool (tp_fast_mode profile)]> query in
  let query := insert_opt "thinkingType" VString (tp_thinking_type profile) query in
  VObject (insert_opt "effortValue" VString (tp_effort profile) query).

Definition insert_tokens (tokens : UsageTokens) (m : gmap string Value) : gmap string Value :=
  let m := <["inputTokens" := of_i64 (ut_input tokens)]> m in
  let m := <["outputTokens" := of_i64 (ut_output tokens)]> m in
  let m := <["cachedInputTokens" := of_i64 (ut_cache_read tokens)]> m in
  <["uncachedInputTokens" :=
      of_i64 (saturate i64 (ut_cache_creation_5m tokens + ut_cache_creation_1h tokens))]> m.

Definition success_metadata (x : BatchCommon) (profile : TelemetryRequestProfile)
    (o : CompletedInferenceObservation) : Value :=
  let m := make_metadata x profile (co_model o) in
  let m := <["messageCount" := of_i64 (tp_message_count profile)]> m in
  let m := match co_tokens o with Some tokens => insert_tokens tokens m | None => m end in
  let m := <["durationMs" := of_i64 (co_duration_ms o)]> m in
  let m := insert_opt "ttftMs" of_i64 (co_ttft_ms o) m in
  let m := insert_opt "requestId" VString (co_upstream_request_id o) m in
  let m := insert_opt "clientRequestId" VString (tp_client_request_id profile) m in
  let m := insert_opt "stop_reason" VString (co_stop_reason o) m in
  let m := insert_opt "costUSD" (λ cost, of_f64 (f_div (f_of_Z cost) (f_of_Z 1000000000))) (co_cost_nano_usd o) m in
  let m :=
    if opt_is_some (tp_client_type profile) then
      <["print" := VBool (String.eqb (tp_entrypoint profile) "sdk-cli")]>
        (<["isNonInteractiveSession" := VBool (negb (tp_is_interactive profile))]> m)
    else m in
  VObject (insert_opt "effort_level" VString (tp_effort profile) m).

(** The two events of the [i]-th completion. *)
Definition completion_events (x : BatchCommon) (uuid : nat → string) (i : nat)
    (completed : CompletedTelemetryEvent) : list Value :=
  let profile := pq_profile (cq_pending completed) in
  let o := cq_observation completed in
  [make_event x (uuid (2 * i)%nat) "tengu_api_query" (pq_request_timestamp (cq_pending completed)) profile
     (tp_model profile) (query_metadata x profile);
   make_event x (uuid (2 * i + 1)%nat) "tengu_api_success" (co_completed_at_utc o) profile (co_model o)
     (success_metadata x profile o)].

Definition batch_common (c : EventBatchCtx) (utc : DateTime) : BatchCommon :=
  let account := xb_account c in
  let env := parse_canonical_env (acc_canonical_env account) in
  let process := build_process_json (account_process account) c in
  mkBatchCommon account (xb_session_id c) (batch_auth account) (build_full_env_json env)
    (encode_json process) (compute_build_age_minutes (ce_build_time env) utc).

Definition build_event_batch (c : EventBatchCtx) (utc : DateTime) (uuid : nat → string) : Value :=
  VObject {["events" := VArray (concat (imap (completion_events (batch_common c utc) uuid)
                                          (xb_completions c)))]}.

Definition build_growthbook_eval (account : Account) (session_id : string) : Value :=
  let env := parse_canonical_env (acc_canonical_env account) in
  let attrs : gmap string Value := list_to_map
    [("id", VString (acc_device_id account)); ("sessionId", VString session_id);
     ("deviceID", VString (acc_device_id account)); ("platform", VString (ce_platform env));
     ("appVersion", VString (ce_version env)); ("email", VString (acc_email account));
     ("accountUUID", VString (telemetry_account_uuid account))] in
  let attrs := insert_opt "organizationUUID" VString (acc_organization_uuid account) attrs in
  let attrs := insert_opt "subscriptionType" VString (acc_subscription_type account) attrs in
  VObject {["attributes" := VObject attrs; "forcedFeatures" := VObject ∅]}.

Definition metrics_os_type (platform : string) : string :=
  if String.eqb platform "darwin" then "Darwin"
  else if String.eqb platform "win32" then "Windows" else "Linux".

Definition build_metrics (account : Account) : Value :=
  let env := parse_canonical_env (acc_canonical_env account) in
  let prompt_env := default prompt_default (prompt_from_value (acc_canonical_prompt account)) in
  let resource : gmap string Value := list_to_map
    [("service.name", VString "claude-code"); ("service.version", VString (ce_version env));
     ("os.type", VString (metrics_os_type (ce_platform env))); ("os.version", VString (cp_os_version prompt_env));
     ("host.arch", VString (ce_arch env)); ("aggregation.temporality", VString "delta");
     ("user.customer_type", VString "claude_ai")] in
  let resource := insert_opt "user.subscription_type" VString (acc_subscription_type account) resource in
  VObject {["resource_attributes" := VObject resource; "metrics" := VArray []]}.

(** ** The loop of a session *)

Definition expire_stale_pending (pending : gmap string PendingTelemetryRequest) (now : Instant)
    : nat * gmap string PendingTelemetryRequest :=
  let kept := filter (λ kv, elapsed now (pq_registered_at kv.2) < PENDING_HARD_TIMEOUT) pending in
  ((size pending - size kept)%nat, kept).

Definition mark_growthbook_attempt (attempts : gmap Z Instant) (account_id : Z) (now : Instant)
    : bool * gmap Z Instant :=
  let due := is_none_or (attempts !! account_id) (λ last, GROWTHBOOK_INTERVAL <=? elapsed now last) in
  (due, if due then <[account_id := now]> attempts else attempts).

(** The clocks and random draws of one wake-up; [tk_draw] are the ranges of integers,
    [tk_jitter] a number of 3 to 12. *)
Record TickEnv := mkTickEnv {
  tk_now : Instant;
  tk_expiry : Instant;
  tk_later : Instant;
  tk_utc : DateTime;
  tk_draw : nat → Z → Z → Z;
  tk_jitter : Z;
  tk_drift : nat → f64;
  tk_uuid : nat → string;
}.

Definition wall_delta_ms (session : TelemetrySession) (now : Instant) : Z :=
  wrap i64 (elapsed now (te_last_cpu_update session) / 1000000).

(** The two increments of processor time. *)
Definition cpu_deltas (k : TickEnv) (delta : Z) : Z * Z :=
  let d := Z.max delta 1 in
  (tk_draw k 0 (wrap i64 (d * 5)) (Z.max (wrap i64 (d * 30)) 1),
   tk_draw k 1 (wrap i64 (d * 2)) (Z.max (wrap i64 (d * 10)) 1)).

Definition cpu_percent (deltas : Z * Z) (delta : Z) : f64 :=
  if 0 <? delta then
    f_mul (f_div (f_of_Z (wrap i64 (deltas.1 + deltas.2))) (f_of_Z (wrap i64 (delta * 1000)))) (f_of_Z 100)
  else f_zero.

Definition record_cpu (deltas : Z * Z) (now : Instant) (session : TelemetrySession) : TelemetrySession :=
  session <| te_cpu_user_total := saturate i64 (te_cpu_user_total session + deltas.1) |>
          <| te_cpu_system_total := saturate i64 (te_cpu_system_total session + deltas.2) |>
          <| te_last_cpu_update := now |>.

Definition mem_clamp (range : Z * Z) (v : Z) : Z :=
  Z.min (Z.max v (range.1 ÷ 2)) (wrap i64 (range.2 * 2)).

Definition mem_drift (drift : f64) (range : Z * Z) (v : Z) : Z :=
  mem_clamp range (f_as_i64 (f_mul (f_of_Z v) (f_add (f_of_Z 1) drift))).

Definition drift_memory (k : TickEnv) (session : TelemetrySession) : TelemetrySession :=
  let preset := account_process (te_account session) in
  let session := session <| te_mem_rss := mem_drift (tk_drift k 0) (pr_rss_range preset) (te_mem_rss session) |> in
  let session := session <| te_mem_heap_total :=
    mem_drift (tk_drift k 1) (pr_heap_total_range preset) (te_mem_heap_total session) |> in
  let session := session <| te_mem_heap_used :=
    Z.min (mem_drift (tk_drift k 2) (pr_heap_used_range preset) (te_mem_heap_used session))
      (te_mem_heap_total session) |> in
  let session := session <| te_mem_external :=
    mem_drift (tk_drift k 3) (pr_external_range preset) (te_mem_external session) |> in
  session <| te_mem_array_buffers :=
    mem_drift (tk_drift k 4) (pr_array_buffers_range preset) (te_mem_array_buffers session) |>.

(** The length of the array under a field. *)
Definition array_length (payload : Value) (field : string) : Z :=
  default 0 ((λ l, Z.of_nat (length l)) <$> (vget payload field ≫= as_array)).

Definition batch_due (session : TelemetrySession) (now : Instant) : bool :=
  negb (bool_decide (te_ready session = []))
  && (EVENT_BATCH_INTERVAL <=? elapsed now (te_last_event_batch_at session))
  && (te_next_event_allowed_at session <=? now).

Definition batch_job (k : TickEnv) (session : TelemetrySession) : TelemetryJob * TelemetrySession :=
  let now := tk_later k in
  let uptime := f_add (te_uptime_offset_secs session) (as_secs_f64 (elapsed now (te_started_at session))) in
  let delta := wall_delta_ms session now in
  let deltas := cpu_deltas k delta in
  let session := drift_memory k (record_cpu deltas now session) in
  let completions := take EVENT_BATCH_MAX_COMPLETIONS (te_ready session) in
  let session := session <| te_ready := drop EVENT_BATCH_MAX_COMPLETIONS (te_ready session) |> in
  let payload := build_event_batch
    (mkBatchCtx (te_account session) uptime completions (te_cpu_user_total session)
       (te_cpu_system_total session) (cpu_percent deltas delta) (te_telemetry_session_id session)
       (te_mem_rss session) (te_mem_heap_total session) (te_mem_heap_used session)
       (te_mem_external session) (te_mem_array_buffers session)) (tk_utc k) (tk_uuid k) in
  (mkTelJob "event_batch" (UPSTREAM_BASE +:+ EVENT_BATCH_PATH) (te_token session) payload completions,
   session <| te_last_event_batch_at := now |> <| te_send_count := wrap i64 (te_send_count session + 1) |>
           <| te_events_sent_total := wrap i64 (te_events_sent_total session + array_length payload "events") |>
           <| te_next_event_allowed_at := now + from_secs (tk_jitter k) |>).

Definition growthbook_job (k : TickEnv) (session : TelemetrySession) : TelemetryJob * TelemetrySession :=
  (mkTelJob "growthbook_eval" (UPSTREAM_BASE +:+ "/api/eval/" +:+ GROWTHBOOK_CLIENT_KEY) (te_token session)
     (build_growthbook_eval (te_account session) (tk_uuid k 0%nat)) [],
   session <| te_send_count := wrap i64 (te_send_count session + 1) |>).

(** Without a metric, nothing is sent. *)
Definition metrics_job (k : TickEnv) (session : TelemetrySession)
    : option TelemetryJob * TelemetrySession :=
  let payload := build_metrics (te_account session) in
  let session' := session <| te_last_metrics_at := tk_later k |> in
  if 0 <? array_length payload "metrics" then
    (Some (mkTelJob "metrics" (UPSTREAM_BASE +:+ "/api/claude_code/metrics") (te_token session) payload []),
     session' <| te_send_count := wrap i64 (te_send_count session + 1) |>)
  else (None, session').

Definition set_loop_job (i : nat) (job : option TelemetryJob) (s : TelemetryService) : TelemetryService :=
  s <| ts_loops := alter (λ l, l <| tl_job := job |>) i (ts_loops s) |>.

Definition end_loop (i : nat) (s : TelemetryService) : TelemetryService :=
  s <| ts_loops := delete i (ts_loops s) |>.

Definition session_done (session : TelemetrySession) (now : Instant) : bool :=
  (te_expires_at session <=? now) && bool_decide (te_pending session = ∅)
  && bool_decide (te_ready session = []).

(** What a session that goes on does at a wake-up: perhaps a job, and the session and the
    attempts at evaluations after it. *)
Definition session_turn (id : Z) (k : TickEnv) (session : TelemetrySession) (attempts : gmap Z Instant)
    : option TelemetryJob * TelemetrySession * gmap Z Instant :=
  let now := tk_later k in
  if batch_due session now then
    let '(job, session) := batch_job k session in (Some job, session, attempts)
  else
    let '(should_gb, attempts) := mark_growthbook_attempt attempts id now in
    if should_gb then
      let '(job, session) := growthbook_job k session in (Some job, session, attempts)
    else if METRICS_INTERVAL <=? elapsed now (te_last_metrics_at session) then
      let '(job, session) := metrics_job k session in (job, session, attempts)
    else (None, session, attempts).

(** The wake-up of the [i]-th loop. *)
Definition telemetry_tick (i : nat) (k : TickEnv) (s : TelemetryService) : TelemetryService :=
  match ts_loops s !! i with
  | Some (mkTelLoop id proxy None) =>
      match ts_sessions s !! id with
      | None => end_loop i s
      | Some session =>
          let '(timed_out, pending) := expire_stale_pending (te_pending session) (tk_now k) in
          let session := session <| te_pending := pending |> in
          let s := on_audit (Nat.iter timed_out (observe_telemetry id "pending_timed_out" false)) s in
          if session_done session (tk_expiry k) then
            let s := s <| ts_sessions := delete id (ts_sessions s) |> in
            end_loop i (on_audit (observe_session (te_account session) "expired") s)
          else
            let '(job, session, attempts) := session_turn id k session (ts_growthbook_attempts s) in
            set_loop_job i job (put_session id session (s <| ts_growthbook_attempts := attempts |>))
      end
  | _ => s
  end.

(** The version of the stored account, or the current one. *)
Definition session_ua (account_id : Z) (store : AccountStore) : string * AccountStore :=
  let '(account, store) := get_by_id account_id store in
  let version :=
    default CLAUDE_CODE_VERSION
      (ce_version <$> (res_ok account ≫= λ a, env_from_value (acc_canonical_env a))) in
  ("claude-code/" +:+ version, store).

Definition telemetry_request (url token proxy : string) (body : Value) (user_agent : string) : HttpRequest :=
  mkHttpRequest "POST" url
    [("Content-Type", "application/json"); ("User-Agent", user_agent); ("x-service-name", "claude-code");
     ("anthropic-beta", "oauth-2025-04-20"); ("Authorization", "Bearer " +:+ token)] proxy (Some body).

(** Whether [send_telemetry] reports a success. *)
Definition send_succeeded (answer : result SendError HttpResponse) : bool :=
  match answer with
  | Ok resp => (200 <=? hs_status resp) && (hs_status resp <? 300)
  | Err _ => false
  end.

(** The [i]-th loop sends its request and gets the answer. *)
Definition telemetry_send (i : nat) (answer : result SendError HttpResponse) (now : DateTime)
    (s : TelemetryService) : TelemetryService :=
  match ts_loops s !! i with
  | Some (mkTelLoop id proxy (Some job)) =>
      let '(user_agent, store) := session_ua id (ts_store s) in
      let request := telemetry_request (tj_url job) (tj_token job) proxy (tj_payload job) user_agent in
      let success := send_succeeded answer in
      let s := s <| ts_store := store |> <| ts_sent := ts_sent s ++ [request] |> in
      let s := on_audit (observe_telemetry id (tj_name job) success) s in
      let s := on_audit (Nat.iter (length (tj_completions job)) (observe_telemetry id "batched" success)) s in
      let s := if success
               then s <| ts_store := (increment_telemetry_count id 1 now (ts_store s)).2 |> else s in
      set_loop_job i None s
  | _ => s
  end.
End telemetry.
