(* ===== verification/TelemetryFacts.v ===== *)
(** * TelemetryFacts: the theorems on telemetry

    Every registered request leaves in one way; there is one loop per session; what is sent
    and how often; a session that is no longer used ends. *)

From S2P Require Import Prelude Text F64 Json Http Model Identity AccountStore Account UsageParse Usage.
From S2P Require Import GatewayHeaders Rewriter RewriteBody Fingerprint FingerprintFacts OAuthFlow Telemetry.

Section runs.
Context `{Chrono} `{Digest} `{JsonText} `{BodyCodecs}.
Context (to_rfc3339_millis : DateTime → string).

(** ** Every interleaving of requests, completions and loops *)

Inductive TelStep :=
  | TT_Activate (account : Account) (token correlation_id : string) (request_timestamp : DateTime)
      (profile : TelemetryRequestProfile) (e : ActivateEnv)
  | TT_Cancel (account_id : Z) (correlation_id : string)
  | TT_Complete (o : CompletedInferenceObservation)
  | TT_Tick (i : nat) (k : TickEnv)
  | TT_Send (i : nat) (answer : result SendError HttpResponse) (now : DateTime).

Definition tel_step (s : TelemetryService) (step : TelStep) : outcome TelemetryService :=
  match step with
  | TT_Activate account token c ts profile e => activate_session account token c ts profile e s
  | TT_Cancel id c => Done (cancel_request id c s)
  | TT_Complete o => Done (complete_observation o s)
  | TT_Tick i k => Done (telemetry_tick to_rfc3339_millis i k s)
  | TT_Send i answer now => Done (telemetry_send i answer now s)
  end.

(** A run, up to a panic; [states]: the states before each of its steps. *)
Fixpoint tel_run (s : TelemetryService) (steps : list TelStep)
    : outcome (list (TelemetryService * TelStep) * TelemetryService) :=
  match steps with
  | [] => Done ([], s)
  | step :: steps =>
      s' ← tel_step s step;
      '(trace, last) ← tel_run s' steps;
      Done ((s, step) :: trace, last)
  end.

Lemma session_done_true session kept now :
  session_done (session <| te_pending := kept |>) now = true ↔
  te_expires_at session ≤ now ∧ kept = ∅ ∧ te_ready session = [].
Proof.
  unfold session_done. destruct session. simpl. rewrite !andb_true_iff, !bool_decide_eq_true, Z.leb_le. tauto.
Qed.

(** ** The turn of a session *)

(** What nothing but a batch changes in a session. *)
Definition same_session (session session' : TelemetrySession) : Prop :=
  te_account session' = te_account session ∧ te_token session' = te_token session
  ∧ te_expires_at session' = te_expires_at session ∧ te_pending session' = te_pending session
  ∧ te_ready session' = te_ready session
  ∧ te_last_event_batch_at session' = te_last_event_batch_at session
  ∧ te_next_event_allowed_at session' = te_next_event_allowed_at session.

#[local] Instance same_session_trans : Transitive same_session.
Proof. unfold same_session. intros x y z Hxy Hyz. intuition congruence. Qed.

Lemma record_cpu_same deltas now session : same_session session (record_cpu deltas now session).
Proof. destruct session. repeat split. Qed.

Lemma mem_same session a b c d e :
  same_session session (session <| te_mem_rss := a |>) ∧ same_session session (session <| te_mem_heap_total := b |>)
  ∧ same_session session (session <| te_mem_heap_used := c |>) ∧ same_session session (session <| te_mem_external := d |>)
  ∧ same_session session (session <| te_mem_array_buffers := e |>).
Proof. destruct session. repeat split. Qed.

Lemma drift_memory_same k session : same_session session (drift_memory k session).
Proof.
  unfold drift_memory. generalize (account_process (te_account session)). intros preset. cbv zeta.
  etrans; [|eapply (proj2 (proj2 (proj2 (proj2 (mem_same _ 0 0 0 0 _)))))].
  etrans; [|eapply (proj1 (proj2 (proj2 (proj2 (mem_same _ 0 0 0 _ 0)))))].
  etrans; [|eapply (proj1 (proj2 (proj2 (mem_same _ 0 0 _ 0 0))))].
  etrans; [|eapply (proj1 (proj2 (mem_same _ 0 _ 0 0 0)))].
  apply (proj1 (mem_same session _ 0 0 0 0)).
Qed.

(** What making a batch leaves of a session. *)
Lemma batch_job_session k session :
  let '(job, session') := batch_job to_rfc3339_millis k session in
  (te_account session' = te_account session ∧ te_token session' = te_token session
   ∧ te_expires_at session' = te_expires_at session ∧ te_pending session' = te_pending session
   ∧ te_ready session' = drop EVENT_BATCH_MAX_COMPLETIONS (te_ready session)
   ∧ te_last_event_batch_at session' = tk_later k
   ∧ te_next_event_allowed_at session' = tk_later k + from_secs (tk_jitter k))
  ∧ tj_completions job = take EVENT_BATCH_MAX_COMPLETIONS (te_ready session)
  ∧ tj_token job = te_token session ∧ tj_url job = UPSTREAM_BASE +:+ EVENT_BATCH_PATH.
Proof.
  unfold batch_job.
  match goal with |- context [drift_memory k ?s1] => assert (same_session session (drift_memory k s1)) as Hsame by
    (etrans; [apply record_cpu_same|apply drift_memory_same]); generalize dependent (drift_memory k s1) end.
  intros s1 (<- & <- & <- & <- & <- & _). cbv zeta.
  match goal with |- context [build_event_batch _ ?c ?u ?f] => generalize (build_event_batch to_rfc3339_millis c u f) end.
  intros payload. destruct s1. repeat split.
Qed.

(** The outcomes of a turn of a session. *)
Lemma session_turn_cases i k session attempts job session' attempts' :
  session_turn to_rfc3339_millis i k session attempts = (job, session', attempts') →
  if batch_due session (tk_later k) then
    ∃ j, job = Some j ∧ batch_job to_rfc3339_millis k session = (j, session') ∧ attempts' = attempts
  else same_session session session'
    ∧ ∀ j, job = Some j → tj_completions j = [] ∧ tj_token j = te_token session
        ∧ tj_url j = UPSTREAM_BASE +:+ "/api/eval/" +:+ GROWTHBOOK_CLIENT_KEY.
Proof.
  unfold session_turn. destruct (batch_due session (tk_later k)).
  - destruct (batch_job _ k session) as [j s1]. intros [= <- <- <-]. by exists j.
  - destruct (mark_growthbook_attempt attempts i (tk_later k)) as [[] att].
    + unfold growthbook_job. intros [= <- <- <-]. split; [destruct session; repeat split|]. by intros j <-%(inj Some).
    + destruct (_ <=? _); [|by intros [= <- <- <-]].
      unfold metrics_job. simpl. intros [= <- <- <-]. split; [destruct session; repeat split|done].
Qed.

(** ** Where a request is

    All of what follows is about the request [c] of the account [id]. *)

Section request.
Context (id : Z) (c : string).

Definition pending_of (m : gmap Z TelemetrySession) : option PendingTelemetryRequest :=
  m !! id ≫= λ session, te_pending session !! c.

Definition is_completion (x : CompletedTelemetryEvent) : bool :=
  String.eqb (co_correlation_id (cq_observation x)) c.

Definition ready_of (m : gmap Z TelemetrySession) : list CompletedTelemetryEvent :=
  default [] (te_ready <$> m !! id).

Definition completions_of (l : list CompletedTelemetryEvent) : Z := total (λ x, one_if (is_completion x)) l.

(** The steps that register the request, and those that take it out in one of the ways: it
    is registered anew, cancelled, completed without usage, found too old, or put into a
    batch. *)
Definition registers (s : TelemetryService) (step : TelStep) : bool :=
  match step with
  | TT_Activate account _ c' _ _ _ => acc_auto_telemetry account && (acc_id account =? id) && String.eqb c' c
  | _ => false
  end.

Definition replaces (s : TelemetryService) (step : TelStep) : bool :=
  registers s step && opt_is_some (pending_of (ts_sessions s)).

Definition cancels (s : TelemetryService) (step : TelStep) : bool :=
  match step with
  | TT_Cancel id' c' => (id' =? id) && String.eqb c' c && opt_is_some (pending_of (ts_sessions s))
  | _ => false
  end.

Definition discards (s : TelemetryService) (step : TelStep) : bool :=
  match step with
  | TT_Complete o =>
      (co_account_id o =? id) && String.eqb (co_correlation_id o) c && opt_is_some (pending_of (ts_sessions s))
      && negb (opt_is_some (co_tokens o) && ((200 <=? co_http_status o) && (co_http_status o <? 300)))
  | _ => false
  end.

Definition times_out (s : TelemetryService) (step : TelStep) : bool :=
  match step with
  | TT_Tick i k =>
      match ts_loops s !! i with
      | Some (mkTelLoop id' _ None) =>
          (id' =? id) && is_some_and (pending_of (ts_sessions s))
            (λ p, PENDING_HARD_TIMEOUT <=? elapsed (tk_now k) (pq_registered_at p))
      | _ => false
      end
  | _ => false
  end.

(** The completions of the request in the batch that a step makes. *)
Definition batches (s : TelemetryService) (step : TelStep) : Z :=
  match step with
  | TT_Tick i k =>
      match ts_loops s !! i with
      | Some (mkTelLoop id' _ None) =>
          if id' =? id then
            let loops := ts_loops (telemetry_tick to_rfc3339_millis i k s) in
            match loops !! i with
            | Some (mkTelLoop _ _ (Some job)) =>
                if (length loops =? length (ts_loops s))%nat then completions_of (tj_completions job) else 0
            | _ => 0
            end
          else 0
      | _ => 0
      end
  | _ => 0
  end.

Definition times (p : TelemetryService → TelStep → bool) (trace : list (TelemetryService * TelStep)) : Z :=
  total (λ x, one_if (p x.1 x.2)) trace.

Definition held (m : gmap Z TelemetrySession) : Z :=
  one_if (opt_is_some (pending_of m)) + completions_of (ready_of m).

(** What a step changes of it. *)
Definition balanced (s : TelemetryService) (step : TelStep) (s' : TelemetryService) : Prop :=
  held (ts_sessions s) + one_if (registers s step)
  = held (ts_sessions s') + one_if (replaces s step) + one_if (cancels s step) + one_if (discards s step)
    + one_if (times_out s step) + batches s step.

Lemma held_put_other i session m : i ≠ id → held (<[i := session]> m) = held m.
Proof. intros Hi. unfold held, pending_of, ready_of. by rewrite lookup_insert_ne. Qed.

Lemma held_put session m :
  held (<[id := session]> m) = one_if (opt_is_some (te_pending session !! c)) + completions_of (te_ready session).
Proof. unfold held, pending_of, ready_of. by rewrite lookup_insert_eq. Qed.

Lemma sessions_put i session f s :
  ts_sessions (on_audit f (put_session i session s)) = <[i := session]> (ts_sessions s).
Proof. by destruct s. Qed.

Lemma completions_app l1 l2 : completions_of (l1 ++ l2) = completions_of l1 + completions_of l2.
Proof. apply total_app. Qed.

Lemma activate_balanced s s' account token c' ts profile e :
  activate_session account token c' ts profile e s = Done s' →
  balanced s (TT_Activate account token c' ts profile e) s'.
Proof.
  unfold activate_session, balanced, replaces. simpl. destruct (acc_auto_telemetry account); simpl; [|intros [= <-]; lia].
  destruct (ts_sessions s !! acc_id account) as [session|] eqn:Hs.
  - unfold renew_session. destruct (dt_add _ _) as [utc|]; cbn [mbind outcome_bind]; [|done]. intros <-%Done_inj.
    rewrite sessions_put. destruct (acc_id account =? id) eqn:Hi; bool_prop; [|rewrite held_put_other by done; simpl; lia].
    rewrite Hi in *. rewrite held_put. unfold held, pending_of, ready_of. rewrite Hs. destruct session. simpl.
    destruct (String.eqb_spec c' c) as [->|Hc]; simpl; [rewrite lookup_insert_eq|rewrite lookup_insert_ne by done]; simpl; lia.
  - intros Hrun. destruct (start_session _ _ _ _ _) as [session|] eqn:Hst in Hrun; [|done].
    cbn [mbind outcome_bind] in Hrun. apply Done_inj in Hrun as <-.
    assert (te_ready session = [] ∧ ∃ p, te_pending session = {[c' := p]}) as [Hr [p Hp]].
    { unfold start_session in Hst.
      repeat match type of Hst with (gen_range ?f ?r ≫= _) = _ =>
        destruct (gen_range f r); cbn [mbind outcome_bind] in Hst; [|done] end.
      destruct (dt_add _ _); cbn [mbind outcome_bind] in Hst; [|done]. apply Done_inj in Hst as <-. by eauto. }
    match goal with |- _ = held (ts_sessions ?s1) + _ + _ + _ + _ + _ =>
      assert (ts_sessions s1 = <[acc_id account := session]> (ts_sessions s)) as -> by (by destruct s) end.
    destruct (acc_id account =? id) eqn:Hi; bool_prop.
    + rewrite Hi in *. rewrite held_put, Hr, Hp. unfold held, pending_of, ready_of. rewrite Hs. simpl.
      destruct (String.eqb_spec c' c) as [->|Hc]; simpl; [rewrite lookup_singleton_eq|rewrite lookup_singleton_ne by done]; simpl; lia.
    + rewrite held_put_other by done. simpl. lia.
Qed.

Lemma cancel_balanced s i c' : balanced s (TT_Cancel i c') (cancel_request i c' s).
Proof.
  unfold balanced, replaces, cancel_request. simpl.
  destruct (ts_sessions s !! i) as [session|] eqn:Hs.
  2: { destruct (i =? id) eqn:Hi; bool_prop; simpl; [|lia]. unfold held, pending_of. subst. rewrite Hs. simpl.
       destruct (String.eqb c' c); simpl; lia. }
  destruct (te_pending session !! c') as [p|] eqn:Hp.
  - rewrite sessions_put. destruct (i =? id) eqn:Hi; bool_prop; [|rewrite held_put_other by done; simpl; lia]. subst.
    rewrite held_put. unfold held, pending_of, ready_of. rewrite Hs. destruct session. simpl in *.
    destruct (String.eqb_spec c' c) as [->|Hc]; simpl; [rewrite lookup_delete_eq, Hp|rewrite lookup_delete_ne by done]; simpl; lia.
  - destruct (i =? id) eqn:Hi; bool_prop; simpl; [|lia]. subst.
    destruct (String.eqb_spec c' c) as [->|Hc]; simpl; [|lia]. unfold pending_of. rewrite Hs. simpl. rewrite Hp. simpl. lia.
Qed.

Lemma complete_balanced s o : balanced s (TT_Complete o) (complete_observation o s).
Proof.
  unfold balanced, replaces, complete_observation. cbn [registers cancels discards times_out batches andb one_if].
  destruct (ts_sessions s !! co_account_id o) as [session|] eqn:Hs.
  2: { destruct (co_account_id o =? id) eqn:Hi; bool_prop; simpl; [|lia]. rewrite Hi in Hs. unfold held, pending_of. rewrite Hs. simpl.
       destruct (String.eqb _ c); simpl; lia. }
  destruct (te_pending session !! co_correlation_id o) as [p|] eqn:Hp.
  - rewrite sessions_put. destruct (co_account_id o =? id) eqn:Hi; bool_prop; [|rewrite held_put_other by done; simpl; lia]. rewrite Hi in *.
    rewrite held_put. unfold held, pending_of, ready_of. rewrite Hs. destruct session. simpl in *.
    destruct (String.eqb_spec (co_correlation_id o) c) as [Hc|Hc]; [rewrite Hc in *|];
      destruct (_ && _); simpl; rewrite ?lookup_delete_eq, ?lookup_delete_ne, ?Hp by done; simpl;
      rewrite ?completions_app; simpl; unfold is_completion; simpl; rewrite ?Hc, ?String.eqb_refl; simpl; try lia.
    apply String.eqb_neq in Hc as ->. simpl. lia.
  - destruct (co_account_id o =? id) eqn:Hi; bool_prop; simpl; [|lia]. rewrite Hi in Hs.
    destruct (String.eqb_spec (co_correlation_id o) c) as [Hc|Hc]; simpl; [rewrite Hc in Hp|lia].
    unfold pending_of. rewrite Hs. simpl. rewrite Hp. simpl. lia.
Qed.

(** A turn of a session takes what its job carries from the front of the ready ones. *)
Lemma session_turn_takes i k session attempts job session' attempts' :
  session_turn to_rfc3339_millis i k session attempts = (job, session', attempts') →
  te_pending session' = te_pending session
  ∧ te_ready session = match job with Some j => tj_completions j | None => [] end ++ te_ready session'.
Proof.
  intros H'%session_turn_cases. destruct (batch_due session (tk_later k)).
  - destruct H' as (j & -> & Hj & _). pose proof (batch_job_session k session) as Hb. rewrite Hj in Hb.
    destruct Hb as [(_ & _ & _ & Ep & Er & _) [Ec _]]. by rewrite Ep, Er, Ec, take_drop.
  - destruct H' as [(_ & _ & _ & Ep & Er & _) Hj]. rewrite Ep, Er. split; [done|].
    destruct job as [j|]; [|done]. by destruct (Hj j eq_refl) as [-> _].
Qed.

Definition too_old (now : Instant) (p : PendingTelemetryRequest) : bool :=
  PENDING_HARD_TIMEOUT <=? elapsed now (pq_registered_at p).

Lemma expire_lookup pending now n kept :
  expire_stale_pending pending now = (n, kept) →
  kept !! c = opt_filter (λ p, negb (too_old now p)) (pending !! c).
Proof.
  unfold expire_stale_pending. intros [= _ <-]. rewrite map_lookup_filter. destruct (pending !! c) as [p|]; [|done].
  simpl. unfold too_old. rewrite Z.leb_antisym, negb_involutive.
  destruct (elapsed now (pq_registered_at p) <? PENDING_HARD_TIMEOUT) eqn:Hlt; bool_prop;
    [by rewrite option_guard_True|by rewrite option_guard_False by lia].
Qed.

Lemma length_delete_lt {A} (l : list A) i x :
  l !! i = Some x → (length (delete i l) =? length l)%nat = false.
Proof.
  intros Hx. apply Nat.eqb_neq. rewrite (length_delete l i) by by exists x.
  apply lookup_lt_Some in Hx. lia.
Qed.

(** The three outcomes of a wake-up. *)
Lemma tick_cases i k s proxy id' :
  ts_loops s !! i = Some (mkTelLoop id' proxy None) →
  let s' := telemetry_tick to_rfc3339_millis i k s in
  (ts_sessions s !! id' = None ∧ ts_sessions s' = ts_sessions s ∧ ts_loops s' = delete i (ts_loops s)
     ∧ ts_growthbook_attempts s' = ts_growthbook_attempts s)
  ∨ ∃ session n kept, ts_sessions s !! id' = Some session
      ∧ expire_stale_pending (te_pending session) (tk_now k) = (n, kept)
      ∧ (session_done (session <| te_pending := kept |>) (tk_expiry k) = true
           ∧ ts_sessions s' = delete id' (ts_sessions s) ∧ ts_loops s' = delete i (ts_loops s)
           ∧ ts_growthbook_attempts s' = ts_growthbook_attempts s
         ∨ session_done (session <| te_pending := kept |>) (tk_expiry k) = false
           ∧ ∃ job session', session_turn to_rfc3339_millis id' k (session <| te_pending := kept |>)
                (ts_growthbook_attempts s) = (job, session', ts_growthbook_attempts s')
             ∧ ts_sessions s' = <[id' := session']> (ts_sessions s)
             ∧ ts_loops s' = alter (λ l, l <| tl_job := job |>) i (ts_loops s)).
Proof.
  intros Hl. cbv zeta. unfold telemetry_tick. rewrite Hl.
  destruct (ts_sessions s !! id') as [session|] eqn:Hs; [right|left; by destruct s].
  destruct (expire_stale_pending _ _) as [n kept] eqn:He. exists session, n, kept. split; [done|]. split; [done|].
  destruct (session_done _ _) eqn:Hd; [left|right]; (split; [done|]).
  - by destruct s.
  - match goal with |- context [session_turn _ id' k ?sn (ts_growthbook_attempts ?s1)] =>
      assert (ts_growthbook_attempts s1 = ts_growthbook_attempts s) as -> by by destruct s end.
    destruct (session_turn _ _ _ _ _) as [[job session'] attempts'] eqn:Ht.
    exists job, session'. destruct s. simpl in *. done.
Qed.

Lemma tick_balanced i k s : balanced s (TT_Tick i k) (telemetry_tick to_rfc3339_millis i k s).
Proof.
  unfold balanced, replaces. cbn [registers cancels discards times_out batches andb one_if].
  destruct (ts_loops s !! i) as [[id' proxy [job|]]|] eqn:Hl;
    [unfold telemetry_tick; rewrite Hl; simpl; lia| |unfold telemetry_tick; rewrite Hl; simpl; lia].
  destruct (tick_cases i k s proxy id' Hl) as [(Hs & -> & -> & _)|(session & n & kept & Hs & He & Hcase)].
  - destruct (id' =? id) eqn:Hi; bool_prop; simpl; [|lia]. rewrite Hi in Hs.
    rewrite (length_delete_lt _ _ _ Hl). unfold pending_of. rewrite Hs. simpl.
    destruct (delete i (ts_loops s) !! i) as [[? ? []]|]; lia.
  - pose proof (expire_lookup _ _ _ _ He) as Hk.
    assert (one_if (opt_is_some (te_pending session !! c)) = one_if (opt_is_some (kept !! c))
      + one_if (is_some_and (te_pending session !! c) (too_old (tk_now k)))) as Hsplit.
    { rewrite Hk. destruct (te_pending session !! c) as [p|]; [|done]. simpl. by destruct (too_old _ p). }
    destruct Hcase as [(Hd & -> & -> & _)|(Hd & job & session' & Ht & -> & ->)].
    + destruct (id' =? id) eqn:Hi; bool_prop; simpl.
      2: { unfold held, pending_of, ready_of. rewrite lookup_delete_ne by done. lia. }
      rewrite Hi in *. apply session_done_true in Hd as (_ & -> & Hr).
      rewrite (length_delete_lt _ _ _ Hl). unfold held, pending_of, ready_of. rewrite lookup_delete_eq, Hs. simpl.
      unfold is_some_and in *. unfold too_old in Hsplit. rewrite Hsplit.
      rewrite Hr, lookup_empty. simpl. destruct (delete i (ts_loops s) !! i) as [[? ? []]|]; lia.
    + apply session_turn_takes in Ht as [Hp Hr]. rewrite length_alter, list_lookup_alter_eq, Hl, Nat.eqb_refl. simpl.
      destruct (id' =? id) eqn:Hi; bool_prop; simpl; [|rewrite held_put_other by done; lia].
      rewrite Hi in *. rewrite held_put, Hp. unfold held, pending_of, ready_of. rewrite Hs. simpl.
      unfold is_some_and in *. unfold too_old in Hsplit. rewrite Hsplit.
      destruct session. simpl in *. rewrite Hr, completions_app. destruct job; simpl; lia.
Qed.

Lemma send_sessions i answer now s : ts_sessions (telemetry_send i answer now s) = ts_sessions s.
Proof.
  unfold telemetry_send. destruct (ts_loops s !! i) as [[id' proxy [job|]]|]; try done.
  destruct (session_ua id' (ts_store s)) as [ua store]. destruct s. simpl. by destruct (send_succeeded answer).
Qed.

Lemma step_balanced s step s' : tel_step s step = Done s' → balanced s step s'.
Proof.
  destruct step as [account token c' ts profile e|i c'|o|i k|i answer now]; simpl; [apply activate_balanced| | | |];
    intros <-%Done_inj.
  - apply cancel_balanced.
  - apply complete_balanced.
  - apply tick_balanced.
  - unfold balanced, replaces. simpl. rewrite send_sessions. lia.
Qed.
End request.

(** ** Loops *)

Definition loops_of (id : Z) (s : TelemetryService) : Z := total (λ l, one_if (tl_account_id l =? id)) (ts_loops s).

(** One loop per session, and none without one. *)
Definition one_loop (s : TelemetryService) : Prop :=
  ∀ id, loops_of id s = one_if (opt_is_some (ts_sessions s !! id)).

Lemma loops_alter id i f (l : list TelemetryLoop) :
  (∀ x, tl_account_id (f x) = tl_account_id x) →
  total (λ l, one_if (tl_account_id l =? id)) (alter f i l) = total (λ l, one_if (tl_account_id l =? id)) l.
Proof.
  intros Hf. revert i. induction l as [|x l IH]; intros [|i]; [done..| |]; simpl; [by rewrite Hf|].
  f_equal. apply IH.
Qed.

Lemma loop_counted id i s loop :
  ts_loops s !! i = Some loop → tl_account_id loop = id →
  total (λ l, one_if (tl_account_id l =? id)) (delete i (ts_loops s)) = loops_of id s - 1.
Proof. intros Hl Hi. unfold loops_of. rewrite (total_delete _ _ _ _ Hl), Hi, Z.eqb_refl. simpl. lia. Qed.

Lemma loop_delete_other id i s loop :
  ts_loops s !! i = Some loop → tl_account_id loop ≠ id →
  total (λ l, one_if (tl_account_id l =? id)) (delete i (ts_loops s)) = loops_of id s.
Proof.
  intros Hl Hi. unfold loops_of. rewrite (total_delete _ _ _ _ Hl). apply Z.eqb_neq in Hi as ->. done.
Qed.

Lemma renewed_one_loop i session session' s s' :
  ts_sessions s !! i = Some session → ts_sessions s' = <[i := session']> (ts_sessions s) →
  ts_loops s' = ts_loops s → one_loop s → one_loop s'.
Proof.
  intros Hs Es El Hone id. unfold loops_of. rewrite El, Es. rewrite (Hone id : total _ _ = _).
  destruct (decide (i = id)) as [->|]; [by rewrite lookup_insert_eq, Hs|by rewrite lookup_insert_ne].
Qed.

Lemma activate_one_loop s s' account token c ts profile e :
  activate_session account token c ts profile e s = Done s' → one_loop s → one_loop s'.
Proof.
  unfold activate_session. destruct (negb _); [by intros [= <-]|].
  destruct (ts_sessions s !! acc_id account) as [session|] eqn:Hs; intros Hrun Hone id.
  - destruct (renew_session _ _ _ _ _ _) as [session'|]; cbn [mbind outcome_bind] in Hrun; [|done].
    apply Done_inj in Hrun as <-. revert id. apply (renewed_one_loop (acc_id account) session session' s); [done|by destruct s|by destruct s|done].
  - destruct (start_session _ _ _ _ _) as [session'|]; cbn [mbind outcome_bind] in Hrun; [|done].
    apply Done_inj in Hrun as <-. pose proof (Hone id : total _ _ = _) as Hi'. clear Hone. destruct s.
    unfold loops_of in *. simpl in *. rewrite total_app, Hi'. clear Hi'. simpl.
    destruct (decide (acc_id account = id)) as [Hi|Hi].
    + rewrite Hi in *. by rewrite lookup_insert_eq, Hs, Z.eqb_refl.
    + apply Z.eqb_neq in Hi as Hi'. rewrite Hi', lookup_insert_ne by done. simpl. lia.
Qed.

Lemma step_one_loop s step s' : tel_step s step = Done s' → one_loop s → one_loop s'.
Proof.
  destruct step as [account token c ts profile e|id c|o|i k|i answer now]; simpl; [apply activate_one_loop| | | |];
    intros <-%Done_inj Hone j.
  - unfold cancel_request. destruct (ts_sessions s !! id) as [session|] eqn:Hs; [|apply Hone].
    destruct (te_pending session !! c); [|apply Hone]. revert j.
    eapply (renewed_one_loop _ session _ s); [done|by destruct s|by destruct s|done].
  - unfold complete_observation. destruct (ts_sessions s !! co_account_id o) as [session|] eqn:Hs; [|apply Hone].
    destruct (te_pending session !! _); [|apply Hone]. revert j.
    eapply (renewed_one_loop _ session _ s); [done|by destruct s|by destruct s|done].
  - destruct (ts_loops s !! i) as [[id proxy [job|]]|] eqn:Hl;
      [unfold telemetry_tick; rewrite Hl; apply Hone| |unfold telemetry_tick; rewrite Hl; apply Hone].
    destruct (tick_cases i k s proxy id Hl) as [(Hs & Es & El & _)|(session & n & kept & Hs & He & Hcase)].
    + exfalso. specialize (Hone id). rewrite Hs in Hone. unfold loops_of in Hone.
      rewrite (total_delete _ _ _ _ Hl) in Hone. simpl in Hone. rewrite Z.eqb_refl in Hone.
      assert (0 ≤ total (λ l, one_if (tl_account_id l =? id)) (delete i (ts_loops s)))
        by (apply total_nonneg; intros x; apply one_if_bounds). simpl in Hone. lia.
    + destruct Hcase as [(Hd & Es & El & _)|(Hd & job & session' & Ht & Es & El)]; unfold loops_of; rewrite Es, El.
      * destruct (decide (id = j)) as [->|Hi].
        -- rewrite (loop_counted j i s _ Hl), (Hone j), Hs, lookup_delete_eq by done. done.
        -- rewrite (loop_delete_other j i s _ Hl), (Hone j), lookup_delete_ne by done. done.
      * rewrite loops_alter by by intros []. rewrite (Hone j : total _ _ = _).
        destruct (decide (id = j)) as [->|]; [by rewrite lookup_insert_eq, Hs|by rewrite lookup_insert_ne].
  - rewrite send_sessions. rewrite <- (Hone j). unfold loops_of, telemetry_send.
    destruct (ts_loops s !! i) as [[id proxy [job|]]|]; try done.
    destruct (session_ua id (ts_store s)) as [ua store]. destruct s. simpl.
    by destruct (send_succeeded answer); simpl; rewrite loops_alter by by intros [].
Qed.

Lemma run_ind (P : TelemetryService → Prop) s steps trace s' :
  (∀ s step s', tel_step s step = Done s' → P s → P s') →
  tel_run s steps = Done (trace, s') → P s → P s'.
Proof.
  intros Hstep. induction steps as [|step steps IH] in s, trace |- *; simpl; [by intros [= <- <-]|].
  destruct (tel_step s step) as [s1|] eqn:Hs; cbn [mbind outcome_bind]; [|done].
  destruct (tel_run s1 steps) as [[tr last]|] eqn:Hr; cbn [mbind outcome_bind]; [|done].
  intros [= <- <-] HP. eapply IH; [done|]. by eapply Hstep.
Qed.

(** The trace of a run goes through its steps. *)
Lemma run_steps s steps trace s' : tel_run s steps = Done (trace, s') → trace.*2 = steps.
Proof.
  induction steps as [|step steps IH] in s, trace |- *; simpl; [by intros [= <- <-]|].
  destruct (tel_step s step) as [s1|]; cbn [mbind outcome_bind]; [|done].
  destruct (tel_run s1 steps) as [[tr last]|] eqn:Hr; cbn [mbind outcome_bind]; [|done].
  intros [= <- <-]. simpl. f_equal. by eapply IH.
Qed.

(** C14: However requests, their completions and the loops interleave, up to a panic: each
    registration of a request leaves in one way only. It is still pending, or completed and
    waiting, or it was replaced by a registration under the same name, cancelled, completed
    without usage, given up after twenty minutes, or put into one batch. And there is one loop
    for each session and none without. *)
Theorem telemetry_requests_accounted store audit steps trace s id c :
  tel_run (telemetry_new store audit) steps = Done (trace, s) →
  times (registers id c) trace
  = held id c (ts_sessions s) + times (replaces id c) trace + times (cancels id c) trace
    + times (discards id c) trace + times (times_out id c) trace + total (λ x, batches id c x.1 x.2) trace
  ∧ loops_of id s = one_if (opt_is_some (ts_sessions s !! id)).
Proof.
  intros Hrun. split.
  - assert (∀ s0, tel_run s0 steps = Done (trace, s) →
      held id c (ts_sessions s0) + times (registers id c) trace
      = held id c (ts_sessions s) + times (replaces id c) trace + times (cancels id c) trace
        + times (discards id c) trace + times (times_out id c) trace + total (λ x, batches id c x.1 x.2) trace) as Hall.
    { clear Hrun. induction steps as [|step steps IH] in trace |- *; intros s0; simpl; [intros [= <- <-]; simpl; lia|].
      destruct (tel_step s0 step) as [s1|] eqn:Hs; cbn [mbind outcome_bind]; [|done].
      destruct (tel_run s1 steps) as [[tr last]|] eqn:Hr; cbn [mbind outcome_bind]; [|done].
      intros [= <- <-]. specialize (IH _ _ Hr). apply (step_balanced id c) in Hs. unfold balanced in Hs.
      unfold times in *. simpl. lia. }
    specialize (Hall _ Hrun). simpl in Hall. unfold held at 1 in Hall. unfold pending_of, ready_of in Hall.
    simpl in Hall. rewrite lookup_empty in Hall. simpl in Hall. lia.
  - apply (run_ind one_loop) in Hrun; [apply Hrun|apply step_one_loop|].
    intros j. simpl. by rewrite lookup_empty.
Qed.

(** ** Sessions end *)

(** One turn of a loop: the wake-up and, unless the loop ended, the sending of what there is
    to send. *)
Record WakeUp := mkWakeUp { wu_tick : TickEnv; wu_answer : result SendError HttpResponse; wu_sent_at : DateTime }.

Definition wake_up (i : nat) (id : Z) (w : WakeUp) (s : TelemetryService) : TelemetryService :=
  let s := telemetry_tick to_rfc3339_millis i (wu_tick w) s in
  if opt_is_some (ts_sessions s !! id) then telemetry_send i (wu_answer w) (wu_sent_at w) s else s.

(** The turns of the loop [i] of the account [id], until its session is gone. *)
Fixpoint wake_ups (i : nat) (id : Z) (ws : list WakeUp) (s : TelemetryService) : TelemetryService :=
  match ws with
  | [] => s
  | w :: ws => match ts_sessions s !! id with Some _ => wake_ups i id ws (wake_up i id w s) | None => s end
  end.

(** Wake-ups after [t], each at least a second after the one before, when the session has
    expired and its requests are too old. *)
Fixpoint late_wake_ups (session : TelemetrySession) (t : Instant) (ws : list WakeUp) : Prop :=
  match ws with
  | [] => True
  | w :: ws =>
      let k := wu_tick w in
      t + from_secs 1 ≤ tk_later k ∧ te_expires_at session ≤ tk_expiry k ∧ 3 ≤ tk_jitter k ≤ 12
      ∧ map_Forall (λ _ p, PENDING_HARD_TIMEOUT ≤ elapsed (tk_now k) (pq_registered_at p)) (te_pending session)
      ∧ late_wake_ups session (tk_later k) ws
  end.

Lemma expire_all pending now n kept :
  expire_stale_pending pending now = (n, kept) →
  map_Forall (λ _ p, PENDING_HARD_TIMEOUT ≤ elapsed now (pq_registered_at p)) pending → kept = ∅.
Proof.
  intros He Hold. apply map_empty. intros c. rewrite (expire_lookup c _ _ _ _ He).
  destruct (pending !! c) as [p|] eqn:Hp; [|done]. apply Hold, Z.leb_le in Hp. simpl. unfold too_old. by rewrite Hp.
Qed.

(** A turn of a session waits for the next batch, or takes it. *)
Lemma session_turn_batches id k session attempts job session' attempts' :
  session_turn to_rfc3339_millis id k session attempts = (job, session', attempts') →
  te_expires_at session' = te_expires_at session ∧ te_pending session' = te_pending session
  ∧ if batch_due session (tk_later k) then
      te_ready session' = drop EVENT_BATCH_MAX_COMPLETIONS (te_ready session)
      ∧ te_last_event_batch_at session' = tk_later k
      ∧ te_next_event_allowed_at session' = tk_later k + from_secs (tk_jitter k)
    else te_ready session' = te_ready session
      ∧ te_last_event_batch_at session' = te_last_event_batch_at session
      ∧ te_next_event_allowed_at session' = te_next_event_allowed_at session.
Proof.
  intros H'%session_turn_cases. destruct (batch_due session (tk_later k)).
  - destruct H' as (j & -> & Hj & _). pose proof (batch_job_session k session) as Hb. rewrite Hj in Hb.
    by destruct Hb as [(_ & _ & -> & -> & -> & -> & ->) _].
  - by destruct H' as [(_ & _ & -> & -> & -> & -> & ->) _].
Qed.

Lemma delete_alter_eq {A} (f : A → A) i (l : list A) : delete i (alter f i l) = delete i l.
Proof. revert i. induction l as [|x l IH]; intros [|i]; [done..|]. simpl. f_equal. apply IH. Qed.

Lemma send_loops i answer now s id proxy job :
  ts_loops s !! i = Some (mkTelLoop id proxy job) →
  ts_loops (telemetry_send i answer now s) !! i = Some (mkTelLoop id proxy None)
  ∧ delete i (ts_loops (telemetry_send i answer now s)) = delete i (ts_loops s).
Proof.
  intros Hl. unfold telemetry_send. rewrite Hl. destruct job as [job|]; [|done].
  destruct (session_ua id (ts_store s)) as [ua store]. destruct s. simpl in *.
  destruct (send_succeeded answer); simpl; (split; [by rewrite list_lookup_alter_eq, Hl|apply delete_alter_eq]).
Qed.

Lemma late_empty session session' t ws :
  te_expires_at session' = te_expires_at session → te_pending session' = ∅ →
  late_wake_ups session t ws → late_wake_ups session' t ws.
Proof.
  intros E1 E2. induction ws as [|w ws IH] in t |- *; simpl; [done|]. rewrite E1, E2.
  intros (Ht & He & Hj & _ & Hl). repeat split; [done..|lia|lia|apply map_Forall_empty|auto].
Qed.

(** What one turn does to an expired session without young requests. *)
Lemma wake_up_late i w s id proxy session t ws :
  ts_loops s !! i = Some (mkTelLoop id proxy None) → ts_sessions s !! id = Some session →
  late_wake_ups session t (w :: ws) →
  let s' := wake_up i id w s in
  if bool_decide (te_ready session = []) then
    ts_sessions s' = delete id (ts_sessions s) ∧ ts_loops s' = delete i (ts_loops s)
  else ∃ session', ts_sessions s' = <[id := session']> (ts_sessions s)
    ∧ ts_loops s' !! i = Some (mkTelLoop id proxy None) ∧ delete i (ts_loops s') = delete i (ts_loops s)
    ∧ late_wake_ups session' (tk_later (wu_tick w)) ws
    ∧ if batch_due session (tk_later (wu_tick w)) then
        te_ready session' = drop EVENT_BATCH_MAX_COMPLETIONS (te_ready session)
        ∧ te_last_event_batch_at session' = tk_later (wu_tick w)
        ∧ te_next_event_allowed_at session' ≤ tk_later (wu_tick w) + from_secs 12
      else te_ready session' = te_ready session
        ∧ te_last_event_batch_at session' = te_last_event_batch_at session
        ∧ te_next_event_allowed_at session' = te_next_event_allowed_at session.
Proof.
  intros Hl Hs (Ht & Hexp & Hj & Hold & Hlate). cbv zeta.
  destruct (tick_cases i (wu_tick w) s proxy id Hl) as [(Hs' & _)|(x & n & kept & Hx & He & Hcase)]; [congruence|].
  rewrite Hs in Hx. apply (inj Some) in Hx as <-. pose proof (expire_all _ _ _ _ He Hold) as ->.
  unfold wake_up.
  destruct Hcase as [(Hd & Es & El & _)|(Hd & job & session' & Hturn & Es & El)]; rewrite Es.
  - apply session_done_true in Hd as (_ & _ & Hr). rewrite Hr, lookup_delete_eq. simpl. by rewrite Es.
  - rewrite lookup_insert_eq. simpl. rewrite send_sessions, Es.
    assert (ts_loops (telemetry_tick to_rfc3339_millis i (wu_tick w) s) !! i = Some (mkTelLoop id proxy job)) as Hi
      by by rewrite El, list_lookup_alter_eq, Hl.
    pose proof (send_loops i (wu_answer w) (wu_sent_at w) _ _ _ _ Hi) as [Hi' Hrest].
    rewrite El, delete_alter_eq in Hrest.
    apply session_turn_batches in Hturn as (E1 & E2 & E3).
    destruct (bool_decide (te_ready session = [])) eqn:Hr.
    + exfalso. apply bool_decide_eq_true in Hr. apply not_true_iff_false in Hd. apply Hd. by apply session_done_true.
    + exists session'. repeat (split; [done|]).
      assert (te_expires_at (session <| te_pending := ∅ |>) = te_expires_at session
        ∧ te_pending (session <| te_pending := ∅ |>) = ∅
        ∧ batch_due (session <| te_pending := ∅ |>) (tk_later (wu_tick w)) = batch_due session (tk_later (wu_tick w))
        ∧ te_ready (session <| te_pending := ∅ |>) = te_ready session
        ∧ te_last_event_batch_at (session <| te_pending := ∅ |>) = te_last_event_batch_at session
        ∧ te_next_event_allowed_at (session <| te_pending := ∅ |>) = te_next_event_allowed_at session)
        as (F1 & F2 & F3 & F4 & F5 & F6) by by destruct session.
      rewrite F1 in E1. rewrite F2 in E2. rewrite F3, F4, F5, F6 in E3. split; [by eapply late_empty|].
      destruct (batch_due session _); [|done]. destruct E3 as (-> & -> & ->). unfold from_secs. repeat split. lia.
Qed.

(** C32: A telemetry session that is no longer used ends. Once it has expired and its requests
    are too old, its loop needs at most twelve wake-ups for each 64 completions that still wait,
    and one more: then the session and its loop are gone, whatever is answered to what they
    send. *)
Theorem telemetry_session_ends i id proxy session t m ws s :
  ts_loops s !! i = Some (mkTelLoop id proxy None) → ts_sessions s !! id = Some session →
  te_next_event_allowed_at session ≤ t + from_secs 12 → te_last_event_batch_at session ≤ t + from_secs 2 →
  late_wake_ups session t ws →
  (length (te_ready session) ≤ m * EVENT_BATCH_MAX_COMPLETIONS)%nat → (m * 12 < length ws)%nat →
  let s' := wake_ups i id ws s in
  ts_sessions s' = delete id (ts_sessions s) ∧ ts_loops s' = delete i (ts_loops s).
Proof.
  intros Hl Hs Hallow Hlast Hlate Hready Hlen. cbv zeta.
  assert (∀ ws s session m (n : nat) t,
    ts_loops s !! i = Some (mkTelLoop id proxy None) → ts_sessions s !! id = Some session →
    te_next_event_allowed_at session ≤ t + from_secs (Z.of_nat n) →
    te_last_event_batch_at session ≤ t + from_secs (Z.of_nat n - 10) →
    late_wake_ups session t ws → (n ≤ 12)%nat →
    (length (te_ready session) ≤ m * EVENT_BATCH_MAX_COMPLETIONS)%nat →
    ((if bool_decide (te_ready session = []) then 0 else Nat.max n 1 + (m - 1) * 12) < length ws)%nat →
    ts_sessions (wake_ups i id ws s) = delete id (ts_sessions s)
    ∧ ts_loops (wake_ups i id ws s) = delete i (ts_loops s)) as Hall.
  { clear. intros ws. induction ws as [|w ws IH]; intros s session m n t Hl Hs Ha Hb Hlate Hn Hr Hlen; [simpl in Hlen; lia|].
    pose proof (wake_up_late i w s id proxy session t ws Hl Hs Hlate) as Hw. simpl in *. rewrite Hs.
    destruct (bool_decide (te_ready session = [])) eqn:Hready.
    - destruct Hw as [Es El]. destruct ws as [|w' ws]; [done|]. simpl. rewrite Es, lookup_delete_eq. done.
    - destruct Hw as (session' & Es & Hl' & Hd & Hlate' & Hcase).
      rewrite <- Hd, <- (delete_insert_eq (ts_sessions s) id session'), <- Es.
      apply bool_decide_eq_false in Hready.
      assert (length (te_ready session) ≠ 0%nat) by (by intros ?%nil_length_inv).
      destruct Hlate as (Ht & _). unfold EVENT_BATCH_MAX_COMPLETIONS in *.
      destruct (batch_due session (tk_later (wu_tick w))) eqn:Hdue; destruct Hcase as (Er & Eb & Ea).
      + apply (IH _ session' (m - 1)%nat 12%nat (tk_later (wu_tick w))); rewrite ?Es, ?lookup_insert_eq, ?Er, ?length_drop;
          unfold from_secs in *; [done..|lia|lia|done|lia|lia|].
        destruct (bool_decide (drop 64 (te_ready session) = [])) eqn:Hd'; [lia|].
        apply bool_decide_eq_false in Hd'.
        assert (length (drop 64 (te_ready session)) ≠ 0%nat) as Hne by (by intros ?%nil_length_inv).
        rewrite length_drop in Hne. lia.
      + assert (2 ≤ n)%nat.
        { unfold batch_due, elapsed, EVENT_BATCH_INTERVAL, from_secs in *. rewrite bool_decide_eq_false_2 in Hdue by done.
          apply andb_false_iff in Hdue as [Hdue|Hdue]; [simpl in Hdue|]; apply Z.leb_gt in Hdue; lia. }
        apply (IH _ session' m (n - 1)%nat (tk_later (wu_tick w))); rewrite ?Es, ?lookup_insert_eq, ?Er;
          unfold from_secs in *; [done..|lia|lia|done|lia|lia|].
        rewrite bool_decide_eq_false_2 by done. lia. }
  apply (Hall ws s session m 12%nat t); [done..|].
  unfold EVENT_BATCH_MAX_COMPLETIONS in *. destruct (te_ready session) as [|x l]; simpl; [lia|]. simpl in Hready. lia.
Qed.

(** ** What is sent *)

Section sources.
Context (P : Account → string → Prop).

(** The activation that a session, a job and a loop come from. *)
Definition job_sourced (id : Z) (job : TelemetryJob) : Prop :=
  (tj_url job = UPSTREAM_BASE +:+ EVENT_BATCH_PATH ∨ tj_url job = UPSTREAM_BASE +:+ "/api/eval/" +:+ GROWTHBOOK_CLIENT_KEY)
  ∧ ∃ a, P a (tj_token job) ∧ acc_id a = id.

Definition loop_sourced (l : TelemetryLoop) : Prop :=
  (∃ a t, P a t ∧ acc_id a = tl_account_id l ∧ acc_proxy_url a = tl_proxy_url l)
  ∧ ∀ job, tl_job l = Some job → job_sourced (tl_account_id l) job.

Definition request_sourced (r : HttpRequest) : Prop :=
  ∃ id, (∃ job, job_sourced id job ∧ hq_url r = tj_url job
          ∧ ("Authorization", "Bearer " +:+ tj_token job) ∈ hq_headers r)
      ∧ ∃ a t, P a t ∧ acc_id a = id ∧ acc_proxy_url a = hq_proxy r.

Definition session_sourced (id : Z) (session : TelemetrySession) : Prop :=
  P (te_account session) (te_token session) ∧ acc_id (te_account session) = id.

Definition sourced (s : TelemetryService) : Prop :=
  map_Forall session_sourced (ts_sessions s) ∧ Forall loop_sourced (ts_loops s) ∧ Forall request_sourced (ts_sent s).

Lemma session_kept_sourced id session session' s s' :
  ts_sessions s !! id = Some session →
  ts_sessions s' = <[id := session']> (ts_sessions s) → ts_loops s' = ts_loops s → ts_sent s' = ts_sent s →
  te_account session' = te_account session → te_token session' = te_token session →
  sourced s → sourced s'.
Proof.
  intros Hs Es El Er Ea Et (Hm & Hl & Hr). unfold sourced. rewrite Es, El, Er. split; [|done].
  apply map_Forall_insert_2; [|done]. unfold session_sourced. rewrite Ea, Et. by apply Hm.
Qed.

(** A turn of a session keeps its account and token, and its job has that token. *)
Lemma session_turn_sourced id k session attempts job session' attempts' :
  session_turn to_rfc3339_millis id k session attempts = (job, session', attempts') →
  te_account session' = te_account session ∧ te_token session' = te_token session
  ∧ ∀ j, job = Some j → tj_token j = te_token session
      ∧ (tj_url j = UPSTREAM_BASE +:+ EVENT_BATCH_PATH ∨ tj_url j = UPSTREAM_BASE +:+ "/api/eval/" +:+ GROWTHBOOK_CLIENT_KEY).
Proof.
  intros H'%session_turn_cases. destruct (batch_due session (tk_later k)).
  - destruct H' as (j & -> & Hj & _). pose proof (batch_job_session k session) as Hb. rewrite Hj in Hb.
    destruct Hb as [(-> & -> & _) (_ & Et & Eu)]. split; [done|]. split; [done|]. intros ? <-%(inj Some). auto.
  - destruct H' as [(-> & -> & _) Hj]. split; [done|]. split; [done|]. intros j Ej. destruct (Hj j Ej) as (_ & -> & ->). auto.
Qed.

Lemma step_sourced s step s' :
  (∀ a t c ts p e, step = TT_Activate a t c ts p e → acc_auto_telemetry a = true → P a t) →
  tel_step s step = Done s' → sourced s → sourced s'.
Proof.
  intros Hsrc. destruct step as [a token c ts profile e|id c|o|i k|i answer now]; simpl.
  - unfold activate_session. destruct (acc_auto_telemetry a) eqn:Hauto; simpl; [|by intros [= <-]].
    specialize (Hsrc a token c ts profile e eq_refl Hauto).
    destruct (ts_sessions s !! acc_id a) as [session|] eqn:Hs; intros Hrun (Hm & Hl & Hr).
    + unfold renew_session in Hrun. destruct (dt_add _ _); cbn [mbind outcome_bind] in Hrun; [|done].
      apply Done_inj in Hrun as <-. destruct s. split; [|done]. apply map_Forall_insert_2; [|done]. by destruct session.
    + destruct (start_session _ _ _ _ _) as [session|] eqn:Hst in Hrun; cbn [mbind outcome_bind] in Hrun; [|done].
      apply Done_inj in Hrun as <-.
      assert (te_account session = a ∧ te_token session = token) as [Ea Et].
      { unfold start_session in Hst.
        repeat match type of Hst with (gen_range ?f ?r ≫= _) = _ =>
          destruct (gen_range f r); cbn [mbind outcome_bind] in Hst; [|done] end.
        destruct (dt_add _ _); cbn [mbind outcome_bind] in Hst; [|done]. by apply Done_inj in Hst as <-. }
      destruct s. split; [|split; [|done]]; simpl.
      * apply map_Forall_insert_2; [|done]. unfold session_sourced. by rewrite Ea, Et.
      * apply Forall_app. split; [done|]. constructor; [|constructor]. split; [by eauto|done].
  - intros <-%Done_inj Hok. unfold cancel_request. destruct (ts_sessions s !! id) as [session|] eqn:Hs; [|done].
    destruct (te_pending session !! c); [|done].
    eapply (session_kept_sourced id session _ s); [done|by destruct s|by destruct s|by destruct s|..|done]; by destruct session.
  - intros <-%Done_inj Hok. unfold complete_observation. destruct (ts_sessions s !! _) as [session|] eqn:Hs; [|done].
    destruct (te_pending session !! _); [|done].
    eapply (session_kept_sourced (co_account_id o) session _ s); [done|by destruct s|by destruct s|by destruct s|..|done];
      destruct session; by destruct (_ && _).
  - intros <-%Done_inj (Hm & Hl & Hr).
    destruct (ts_loops s !! i) as [[id proxy [job|]]|] eqn:Hi;
      [unfold telemetry_tick; by rewrite Hi| |unfold telemetry_tick; by rewrite Hi].
    assert (ts_sent (telemetry_tick to_rfc3339_millis i k s) = ts_sent s) as Hsent.
    { unfold telemetry_tick. rewrite Hi. destruct (ts_sessions s !! id) as [session|]; [|by destruct s].
      destruct (expire_stale_pending _ _) as [n kept]. destruct (session_done _ _); [by destruct s|].
      destruct (session_turn _ _ _ _ _) as [[job session'] att]. by destruct s. }
    destruct (tick_cases i k s proxy id Hi) as [(Hs & Es & El & _)|(session & n & kept & Hs & He & Hcase)];
      [|destruct Hcase as [(Hd & Es & El & _)|(Hd & job & session' & Ht & Es & El)]];
      unfold sourced; rewrite Es, El, Hsent.
    + split; [done|]. split; [by apply Forall_delete|done].
    + split; [by apply map_Forall_delete|]. split; [by apply Forall_delete|done].
    + apply session_turn_sourced in Ht as (Ea & Et & Hjob). pose proof (Hm _ _ Hs) as [HP Hid].
      split; [|split; [|done]].
      * apply map_Forall_insert_2; [|done]. unfold session_sourced. rewrite Ea, Et. by destruct session.
      * apply Forall_alter; [done|]. intros l Hx [Hsrc' _]. rewrite Hi in Hx. apply (inj Some) in Hx as <-. split; [done|].
        simpl. intros j ->. destruct (Hjob j eq_refl) as [Etok Hurl]. split; [done|].
        rewrite Etok. exists (te_account session). by destruct session.
  - intros <-%Done_inj (Hm & Hl & Hr). unfold telemetry_send.
    destruct (ts_loops s !! i) as [[id proxy [job|]]|] eqn:Hi; try done.
    pose proof (Forall_lookup_1 _ _ _ _ Hl Hi) as [Hproxy Hjob]. specialize (Hjob job eq_refl). simpl in *.
    destruct (session_ua id (ts_store s)) as [ua store].
    assert (∀ s', ts_sessions s' = ts_sessions s → ts_loops s' = ts_loops s →
      ts_sent s' = ts_sent s ++ [telemetry_request (tj_url job) (tj_token job) proxy (tj_payload job) ua] →
      sourced (set_loop_job i None s')) as Hall.
    { clear -Hm Hl Hr Hproxy Hjob. intros s' Es El Er. destruct s'. simpl in *. unfold sourced. simpl. rewrite Es, El, Er.
      split; [done|]. split.
      - apply Forall_alter; [done|]. intros [] _ [Hsrc _]. by split.
      - apply Forall_app. split; [done|]. constructor; [|constructor].
        exists id. split; [|done]. exists job. split; [done|]. split; [done|]. simpl. set_solver. }
    apply Hall; destruct s, (send_succeeded answer); done.
Qed.
End sources.

(** C15: What telemetry sends, however requests, completions and loops interleave: a batch of
    events or an evaluation, never metrics; with the token of a request of an account that has
    telemetry on, and over the proxy that this account had at such a request. *)
Theorem telemetry_sends_authorised store audit steps trace s r :
  tel_run (telemetry_new store audit) steps = Done (trace, s) → r ∈ ts_sent s →
  (hq_url r = UPSTREAM_BASE +:+ EVENT_BATCH_PATH ∨ hq_url r = UPSTREAM_BASE +:+ "/api/eval/" +:+ GROWTHBOOK_CLIENT_KEY)
  ∧ ∃ s1 account token c ts p e s2 account' token' c' ts' p' e',
      (s1, TT_Activate account token c ts p e) ∈ trace ∧ (s2, TT_Activate account' token' c' ts' p' e') ∈ trace
      ∧ acc_auto_telemetry account = true ∧ acc_auto_telemetry account' = true ∧ acc_id account = acc_id account'
      ∧ ("Authorization", "Bearer " +:+ token) ∈ hq_headers r ∧ hq_proxy r = acc_proxy_url account'.
Proof.
  intros Hrun Hr.
  set (P := λ a t, acc_auto_telemetry a = true ∧ ∃ s0 c ts p e, (s0, TT_Activate a t c ts p e) ∈ trace).
  assert (∀ tr s0 sl, tel_run s0 sl = Done (tr, s) → (∀ x, x ∈ tr → x ∈ trace) → sourced P s0 → sourced P s) as Hall.
  { clear. intros tr s0 sl. induction sl as [|step sl IH] in tr, s0 |- *; simpl; [by intros [= <- <-]|].
    destruct (tel_step s0 step) as [s1|] eqn:Hs; cbn [mbind outcome_bind]; [|done].
    destruct (tel_run s1 sl) as [[tr' last]|] eqn:Hrun; cbn [mbind outcome_bind]; [|done].
    intros [= <- <-] Hsub Hok. apply (IH _ _ Hrun); [intros x Hx; apply Hsub; by right|].
    eapply step_sourced; [|done|done]. intros a t c ts p e -> Hauto. split; [done|].
    exists s0, c, ts, p, e. apply Hsub. left. }
  destruct (Hall trace _ steps Hrun) as (_ & _ & Hsent); [done|by repeat split|].
  rewrite Forall_forall in Hsent. destruct (Hsent r Hr) as (id & (job & [Hurl Htok] & Eurl & Hauth) & Hproxy).
  rewrite Eurl. split; [done|].
  destruct Htok as (a & (Ha & s1 & c & ts & p & e & H1') & Eid).
  destruct Hproxy as (a' & t' & (Ha' & s2 & c' & ts' & p' & e' & H2') & Eid' & Epr).
  exists s1, a, (tj_token job), c, ts, p, e, s2, a', t', c', ts', p', e'. by rewrite Eid, Eid'.
Qed.
End runs.
