(* ===== verification/TlsCodec.v ===== *)
(** * TlsCodec: reading and writing TLS messages (craftls/rustls/src/msgs/codec.rs, base.rs, macros.rs)

    A byte is a [Z] between 0 and 255. Writing appends to a buffer, so an encoder is a
    function from the bytes so far to the bytes after it: a length that is written before
    its contents are known is corrected when the contents are there, and the padding of the
    fingerprints looks at (and cuts) what is already written. A [Reader] is the bytes that
    are left after its cursor. *)

From S2P Require Import Prelude.

Fixpoint list_position {A} (p : A → bool) (l : list A) : option nat :=
  match l with
  | [] => None
  | x :: l => if p x then Some 0%nat else S <$> list_position p l
  end.

(** ** Integers in network order *)

Fixpoint be_bytes (n : nat) (v : Z) : list Z :=
  match n with
  | O => []
  | S n => (v / 256 ^ Z.of_nat n) mod 256 :: be_bytes n v
  end.

Definition of_be (l : list Z) : Z := foldl (λ acc b, acc * 256 + b) 0 l.

(** ** Reading *)

(** [KeyExchangeAlgorithm] (msgs/handshake.rs) and [InvalidMessage] (error.rs). *)
Inductive KeyExchangeAlgorithm := ECDHE.

Inductive InvalidMessage :=
  | HandshakePayloadTooLarge | InvalidCcs | InvalidContentType | InvalidCertificateStatusType
  | InvalidCertRequest | InvalidDhParams | InvalidEmptyPayload | InvalidKeyUpdate
  | InvalidServerName | MessageTooLarge | MessageTooShort | MissingData (what : string)
  | MissingKeyExchange | NoSignatureSchemes | TrailingData (what : string)
  | UnexpectedMessage (what : string) | UnknownProtocolVersion | UnsupportedCompression
  | UnsupportedCurveType | UnsupportedKeyExchangeAlgorithm (algorithm : KeyExchangeAlgorithm).

(** [ReadLoops] is not an error of the code: it stands for a list whose loop would never
    end. *)
Inductive ReadError :=
  | Invalid (m : InvalidMessage)
  | ReadLoops.

Definition Reader : Type := list Z.
Definition Read (A : Type) : Type := Reader → result ReadError (A * Reader).

#[export] Instance read_ret : MRet Read := λ A a r, Ok (a, r).
#[export] Instance read_bind : MBind Read := λ A B f m r,
  match m r with Ok (a, r') => f a r' | Err e => Err e end.

Definition read_err {A} (m : InvalidMessage) : Read A := λ _, Err (Invalid m).

(** [Reader::take], with the error of its callers. *)
Definition take_or (e : InvalidMessage) (n : nat) : Read (list Z) := λ r,
  if (length r <? n)%nat then Err (Invalid e) else Ok (firstn n r, skipn n r).

Definition reader_sub (n : nat) : Read Reader := take_or MessageTooShort n.
Definition reader_rest : Read (list Z) := λ r, Ok (r, []).
Definition any_left (r : Reader) : bool := match r with [] => false | _ => true end.

(** [if r.any_left()]. *)
Definition if_left {A} (yes no : Read A) : Read A := λ r, if any_left r then yes r else no r.

Definition lift_result {A} (m : result ReadError A) : Read A := λ r,
  match m with Ok x => Ok (x, r) | Err e => Err e end.

(** Reading from a reader made by [sub], while the outer one stays where it is. *)
Definition on_sub {A} (sub : Reader) (m : Read A) : Read (A * Reader) := lift_result (m sub).

Definition expect_empty (name : string) (sub : Reader) : Read () :=
  if any_left sub then read_err (TrailingData name) else mret tt.

(** The integers; [u16::read] names "u8" in its error. *)
Definition uint_encode (n : nat) (v : Z) (bytes : list Z) : list Z := bytes ++ be_bytes n v.
Definition uint_read (name : string) (n : nat) : Read Z := λ r,
  match take_or (MissingData name) n r with
  | Ok (b, r') => Ok (of_be b, r')
  | Err e => Err e
  end.

Definition u8_encode := uint_encode 1.
Definition u8_read := uint_read "u8" 1.
Definition u16_encode := uint_encode 2.
Definition u16_read := uint_read "u8" 2.
Definition u24_encode := uint_encode 3.
Definition u24_read := uint_read "u24" 3.
Definition u32_encode := uint_encode 4.
Definition u32_read := uint_read "u32" 4.

(** ** Length prefixes *)

Inductive ListLength := LL_U8 | LL_U16 | LL_U24 (max : Z).

Definition size_bytes (s : ListLength) : nat :=
  match s with LL_U8 => 1 | LL_U16 => 2 | LL_U24 _ => 3 end.

Record LengthPrefixedBuffer := mkLPB {
  lp_buf : list Z;
  lp_len_offset : nat;
  lp_size_len : ListLength;
}.

Definition lpb_new (size_len : ListLength) (buf : list Z) : LengthPrefixedBuffer :=
  {| lp_buf := buf ++ replicate (size_bytes size_len) 0xff;
     lp_len_offset := length buf;
     lp_size_len := size_len |}.

(** [Drop]: the length is cut to the width of its field (the assertions are those of debug
    builds). A buffer that is two bytes shorter than where the length was is left alone:
    the padding has deleted its own extension. *)
Definition lpb_drop (n : LengthPrefixedBuffer) : list Z :=
  if (length (lp_buf n) + 2 =? lp_len_offset n)%nat then lp_buf n
  else
    let w := size_bytes (lp_size_len n) in
    let len := Z.of_nat (length (lp_buf n) - lp_len_offset n - w) in
    list_inserts (lp_len_offset n) (be_bytes w len) (lp_buf n).

(** The scope of a [LengthPrefixedBuffer]. *)
Definition nested (size_len : ListLength) (body : list Z → list Z) (buf : list Z) : list Z :=
  let n := lpb_new size_len buf in
  lpb_drop (mkLPB (body (lp_buf n)) (lp_len_offset n) (lp_size_len n)).

(** ** [Codec] and lists *)

(** [Codec], in two parts, as there are types whose writing panics. *)
Class CodecRead (T : Type) := { read : Read T }.

Class Codec (T : Type) := {
  encode : T → list Z → list Z;
  codec_read :: CodecRead T;
}.

Class TlsListElement (T : Type) := { SIZE_LEN : ListLength }.
Arguments SIZE_LEN T {_}.

Definition get_encoding {T} `{Codec T} (x : T) : list Z := encode x [].

Definition read_bytes {T} `{CodecRead T} (bytes : list Z) : result ReadError T :=
  fst <$> read bytes.

Definition list_len_read (s : ListLength) : Read Z :=
  match s with
  | LL_U8 => u8_read
  | LL_U16 => u16_read
  | LL_U24 max => n ← u24_read; mret (Z.min n max)
  end.

(** The loop of [Vec::read]: one unit of fuel for each element. *)
Fixpoint read_while_any {T} `{CodecRead T} (fuel : nat) (sub : Reader) : result ReadError (list T) :=
  match sub, fuel with
  | [], _ => Ok []
  | _, O => Err ReadLoops
  | _, S fuel =>
      match read sub with
      | Ok (x, sub) => (λ l, x :: l) <$> read_while_any fuel sub
      | Err e => Err e
      end
  end.

Definition vec_encode {T} `{Codec T, TlsListElement T} (l : list T) : list Z → list Z :=
  nested (SIZE_LEN T) (λ b, foldl (λ b x, encode x b) b l).

Definition vec_read {T} `{CodecRead T, TlsListElement T} : Read (list T) :=
  len ← list_len_read (SIZE_LEN T);
  sub ← reader_sub (Z.to_nat len);
  lift_result (read_while_any (length sub) sub).

#[export] Instance vec_codec_read {T} `{CodecRead T, TlsListElement T} : CodecRead (list T) := {
  read := vec_read;
}.

#[export] Instance vec_codec {T} `{Codec T, TlsListElement T} : Codec (list T) := {
  encode := vec_encode;
  codec_read := vec_codec_read;
}.

(** ** Payloads (base.rs): bytes with an outer length, or with their own *)

Record Payload := mkPayload { payload_bytes : list Z }.
Record PayloadU16 := mkPayloadU16 { p16_bytes : list Z }.
Record PayloadU8 := mkPayloadU8 { p8_bytes : list Z }.
Record PayloadU24 := mkPayloadU24 { p24_bytes : list Z }.

Definition payload_read : Read Payload := b ← reader_rest; mret (mkPayload b).

#[export] Instance payload_codec : Codec Payload := {
  encode p bytes := bytes ++ payload_bytes p;
  codec_read := {| read := payload_read |};
}.

Definition payload_u16_read : Read PayloadU16 :=
  len ← u16_read; sub ← reader_sub (Z.to_nat len); mret (mkPayloadU16 sub).

#[export] Instance payload_u16_codec : Codec PayloadU16 := {
  encode p bytes := u16_encode (Z.of_nat (length (p16_bytes p))) bytes ++ p16_bytes p;
  codec_read := {| read := payload_u16_read |};
}.

Definition payload_u8_read : Read PayloadU8 :=
  len ← u8_read; sub ← reader_sub (Z.to_nat len); mret (mkPayloadU8 sub).

#[export] Instance payload_u8_codec : Codec PayloadU8 := {
  encode p bytes := u8_encode (Z.of_nat (length (p8_bytes p))) bytes ++ p8_bytes p;
  codec_read := {| read := payload_u8_read |};
}.

Definition payload_u24_read : Read PayloadU24 :=
  len ← u24_read; sub ← reader_sub (Z.to_nat len); mret (mkPayloadU24 sub).

#[export] Instance payload_u24_codec : Codec PayloadU24 := {
  encode p bytes := u24_encode (Z.of_nat (length (p24_bytes p))) bytes ++ p24_bytes p;
  codec_read := {| read := payload_u24_read |};
}.

(** ** Enumerations (the macro [enum_builder])

    Each has its named values and [Unknown], of one or two bytes. Reading gives a named
    value for the number of one; [Unknown] of that number is another value of the type. *)

Class TlsEnum (E : Type) := {
  enum_width : nat;
  enum_name : string;
  enum_get : E → Z;
  enum_known : list E;
  enum_unknown : Z → E;
  craft_is_unknown : E → bool;
}.

Definition enum_of {E} `{TlsEnum E} (x : Z) : E :=
  default (enum_unknown x) (List.find (λ k, enum_get k =? x) enum_known).

Definition enum_read {E} `{TlsEnum E} : Read E := λ r,
  match uint_read "u8" enum_width r with
  | Ok (x, r) => Ok (enum_of x, r)
  | Err _ => Err (Invalid (MissingData enum_name))
  end.

#[export] Instance enum_codec {E} `{TlsEnum E} : Codec E := {
  encode v := uint_encode enum_width (enum_get v);
  codec_read := {| read := enum_read |};
}.

(** What the macro's generated definitions satisfy, and the derived equality. *)
Class TlsEnumLaws (E : Type) `{TlsEnum E} := {
  enum_known_of : ∀ v, craft_is_unknown v = false → enum_of (enum_get v) = v;
  enum_unknown_get : ∀ v, craft_is_unknown v = true → v = enum_unknown (enum_get v);
  enum_get_unknown : ∀ x, enum_get (enum_unknown x) = x;
  enum_known_range : Forall (λ v, 0 ≤ enum_get v < 256 ^ Z.of_nat enum_width) enum_known;
}.

Lemma enum_ext {E} `{TlsEnumLaws E} (a b : E) :
  craft_is_unknown a = craft_is_unknown b → enum_get a = enum_get b → a = b.
Proof.
  intros Hu Hg. destruct (craft_is_unknown a) eqn:Ha.
  - rewrite (enum_unknown_get a Ha), (enum_unknown_get b (eq_sym Hu)). by rewrite Hg.
  - rewrite <- (enum_known_of a Ha), <- (enum_known_of b (eq_sym Hu)). by rewrite Hg.
Qed.

Definition enum_eq_dec {E} `{TlsEnumLaws E} : EqDecision E.
Proof.
  refine (λ a b, cast_if (decide (craft_is_unknown a = craft_is_unknown b ∧ enum_get a = enum_get b))).
  - abstract (destruct_and!; by apply enum_ext).
  - abstract (intros ->; tauto).
Defined.

Ltac enum_laws :=
  split;
  [ intros []; solve [reflexivity | discriminate]
  | intros []; solve [reflexivity | discriminate]
  | reflexivity
  | repeat constructor; vm_compute; congruence ].
