(* ===== verification/TlsEnums.v ===== *)
(** * TlsEnums: the enumerations of the TLS protocol
    (craftls/rustls/src/enums.rs, craftls/rustls/src/msgs/enums.rs)

    Each [enum_builder!] of the source as an inductive type and the instance of [TlsEnum]
    that the macro generates. Constructors carry a prefix per type. *)

From S2P Require Import Prelude TlsCodec.

Inductive AlertDescription :=
  | AL_CloseNotify | AL_UnexpectedMessage | AL_BadRecordMac | AL_DecryptionFailed |
  AL_RecordOverflow | AL_DecompressionFailure | AL_HandshakeFailure | AL_NoCertificate |
  AL_BadCertificate | AL_UnsupportedCertificate | AL_CertificateRevoked |
  AL_CertificateExpired | AL_CertificateUnknown | AL_IllegalParameter | AL_UnknownCA |
  AL_AccessDenied | AL_DecodeError | AL_DecryptError | AL_ExportRestriction |
  AL_ProtocolVersion | AL_InsufficientSecurity | AL_InternalError | AL_InappropriateFallback |
  AL_UserCanceled | AL_NoRenegotiation | AL_MissingExtension | AL_UnsupportedExtension |
  AL_CertificateUnobtainable | AL_UnrecognisedName | AL_BadCertificateStatusResponse |
  AL_BadCertificateHashValue | AL_UnknownPSKIdentity | AL_CertificateRequired |
  AL_NoApplicationProtocol | AL_Unknown (x : Z).

#[export] Instance AlertDescription_enum : TlsEnum AlertDescription := {
  enum_width := 1%nat;
  enum_name := "AlertDescription";
  enum_get v := match v with
    AL_CloseNotify => 0 | AL_UnexpectedMessage => 10 | AL_BadRecordMac => 20 |
    AL_DecryptionFailed => 21 | AL_RecordOverflow => 22 | AL_DecompressionFailure => 30 |
    AL_HandshakeFailure => 40 | AL_NoCertificate => 41 | AL_BadCertificate => 42 |
    AL_UnsupportedCertificate => 43 | AL_CertificateRevoked => 44 |
    AL_CertificateExpired => 45 | AL_CertificateUnknown => 46 | AL_IllegalParameter => 47 |
    AL_UnknownCA => 48 | AL_AccessDenied => 49 | AL_DecodeError => 50 | AL_DecryptError => 51 |
    AL_ExportRestriction => 60 | AL_ProtocolVersion => 70 | AL_InsufficientSecurity => 71 |
    AL_InternalError => 80 | AL_InappropriateFallback => 86 | AL_UserCanceled => 90 |
    AL_NoRenegotiation => 100 | AL_MissingExtension => 109 | AL_UnsupportedExtension => 110 |
    AL_CertificateUnobtainable => 111 | AL_UnrecognisedName => 112 |
    AL_BadCertificateStatusResponse => 113 | AL_BadCertificateHashValue => 114 |
    AL_UnknownPSKIdentity => 115 | AL_CertificateRequired => 116 |
    AL_NoApplicationProtocol => 120 | AL_Unknown x => x
    end;
  enum_known :=
    [AL_CloseNotify; AL_UnexpectedMessage; AL_BadRecordMac; AL_DecryptionFailed;
     AL_RecordOverflow; AL_DecompressionFailure; AL_HandshakeFailure; AL_NoCertificate;
     AL_BadCertificate; AL_UnsupportedCertificate; AL_CertificateRevoked;
     AL_CertificateExpired; AL_CertificateUnknown; AL_IllegalParameter; AL_UnknownCA;
     AL_AccessDenied; AL_DecodeError; AL_DecryptError; AL_ExportRestriction;
     AL_ProtocolVersion; AL_InsufficientSecurity; AL_InternalError; AL_InappropriateFallback;
     AL_UserCanceled; AL_NoRenegotiation; AL_MissingExtension; AL_UnsupportedExtension;
     AL_CertificateUnobtainable; AL_UnrecognisedName; AL_BadCertificateStatusResponse;
     AL_BadCertificateHashValue; AL_UnknownPSKIdentity; AL_CertificateRequired;
     AL_NoApplicationProtocol];
  enum_unknown := AL_Unknown;
  craft_is_unknown v := match v with AL_Unknown _ => true | _ => false end;
}.

#[export] Instance AlertDescription_laws : TlsEnumLaws AlertDescription.
Proof. enum_laws. Qed.

#[export] Instance AlertDescription_eq_dec : EqDecision AlertDescription := enum_eq_dec.

Inductive HandshakeType :=
  | HT_HelloRequest | HT_ClientHello | HT_ServerHello | HT_HelloVerifyRequest |
  HT_NewSessionTicket | HT_EndOfEarlyData | HT_HelloRetryRequest | HT_EncryptedExtensions |
  HT_Certificate | HT_ServerKeyExchange | HT_CertificateRequest | HT_ServerHelloDone |
  HT_CertificateVerify | HT_ClientKeyExchange | HT_Finished | HT_CertificateURL |
  HT_CertificateStatus | HT_KeyUpdate | HT_CompressedCertificate | HT_MessageHash |
  HT_Unknown (x : Z).

#[export] Instance HandshakeType_enum : TlsEnum HandshakeType := {
  enum_width := 1%nat;
  enum_name := "HandshakeType";
  enum_get v := match v with
    HT_HelloRequest => 0 | HT_ClientHello => 1 | HT_ServerHello => 2 |
    HT_HelloVerifyRequest => 3 | HT_NewSessionTicket => 4 | HT_EndOfEarlyData => 5 |
    HT_HelloRetryRequest => 6 | HT_EncryptedExtensions => 8 | HT_Certificate => 11 |
    HT_ServerKeyExchange => 12 | HT_CertificateRequest => 13 | HT_ServerHelloDone => 14 |
    HT_CertificateVerify => 15 | HT_ClientKeyExchange => 16 | HT_Finished => 20 |
    HT_CertificateURL => 21 | HT_CertificateStatus => 22 | HT_KeyUpdate => 24 |
    HT_CompressedCertificate => 25 | HT_MessageHash => 254 | HT_Unknown x => x
    end;
  enum_known :=
    [HT_HelloRequest; HT_ClientHello; HT_ServerHello; HT_HelloVerifyRequest;
     HT_NewSessionTicket; HT_EndOfEarlyData; HT_HelloRetryRequest; HT_EncryptedExtensions;
     HT_Certificate; HT_ServerKeyExchange; HT_CertificateRequest; HT_ServerHelloDone;
     HT_CertificateVerify; HT_ClientKeyExchange; HT_Finished; HT_CertificateURL;
     HT_CertificateStatus; HT_KeyUpdate; HT_CompressedCertificate; HT_MessageHash];
  enum_unknown := HT_Unknown;
  craft_is_unknown v := match v with HT_Unknown _ => true | _ => false end;
}.

#[export] Instance HandshakeType_laws : TlsEnumLaws HandshakeType.
Proof. enum_laws. Qed.

#[export] Instance HandshakeType_eq_dec : EqDecision HandshakeType := enum_eq_dec.

Inductive ProtocolVersion :=
  | PV_SSLv2 | PV_SSLv3 | PV_TLSv1_0 | PV_TLSv1_1 | PV_TLSv1_2 | PV_TLSv1_3 | PV_DTLSv1_0 |
  PV_DTLSv1_2 | PV_DTLSv1_3 | PV_Unknown (x : Z).

#[export] Instance ProtocolVersion_enum : TlsEnum ProtocolVersion := {
  enum_width := 2%nat;
  enum_name := "ProtocolVersion";
  enum_get v := match v with
    PV_SSLv2 => 512 | PV_SSLv3 => 768 | PV_TLSv1_0 => 769 | PV_TLSv1_1 => 770 |
    PV_TLSv1_2 => 771 | PV_TLSv1_3 => 772 | PV_DTLSv1_0 => 65279 | PV_DTLSv1_2 => 65277 |
    PV_DTLSv1_3 => 65276 | PV_Unknown x => x
    end;
  enum_known :=
    [PV_SSLv2; PV_SSLv3; PV_TLSv1_0; PV_TLSv1_1; PV_TLSv1_2; PV_TLSv1_3; PV_DTLSv1_0;
     PV_DTLSv1_2; PV_DTLSv1_3];
  enum_unknown := PV_Unknown;
  craft_is_unknown v := match v with PV_Unknown _ => true | _ => false end;
}.

#[export] Instance ProtocolVersion_laws : TlsEnumLaws ProtocolVersion.
Proof. enum_laws. Qed.

#[export] Instance ProtocolVersion_eq_dec : EqDecision ProtocolVersion := enum_eq_dec.

Inductive CipherSuite :=
  | CS_TLS_NULL_WITH_NULL_NULL | CS_TLS_RSA_WITH_NULL_MD5 | CS_TLS_RSA_WITH_NULL_SHA |
  CS_TLS_RSA_EXPORT_WITH_RC4_40_MD5 | CS_TLS_RSA_WITH_RC4_128_MD5 |
  CS_TLS_RSA_WITH_RC4_128_SHA | CS_TLS_RSA_EXPORT_WITH_RC2_CBC_40_MD5 |
  CS_TLS_RSA_WITH_IDEA_CBC_SHA | CS_TLS_RSA_EXPORT_WITH_DES40_CBC_SHA |
  CS_TLS_RSA_WITH_DES_CBC_SHA | CS_TLS_RSA_WITH_3DES_EDE_CBC_SHA |
  CS_TLS_DH_DSS_EXPORT_WITH_DES40_CBC_SHA | CS_TLS_DH_DSS_WITH_DES_CBC_SHA |
  CS_TLS_DH_DSS_WITH_3DES_EDE_CBC_SHA | CS_TLS_DH_RSA_EXPORT_WITH_DES40_CBC_SHA |
  CS_TLS_DH_RSA_WITH_DES_CBC_SHA | CS_TLS_DH_RSA_WITH_3DES_EDE_CBC_SHA |
  CS_TLS_DHE_DSS_EXPORT_WITH_DES40_CBC_SHA | CS_TLS_DHE_DSS_WITH_DES_CBC_SHA |
  CS_TLS_DHE_DSS_WITH_3DES_EDE_CBC_SHA | CS_TLS_DHE_RSA_EXPORT_WITH_DES40_CBC_SHA |
  CS_TLS_DHE_RSA_WITH_DES_CBC_SHA | CS_TLS_DHE_RSA_WITH_3DES_EDE_CBC_SHA |
  CS_TLS_DH_anon_EXPORT_WITH_RC4_40_MD5 | CS_TLS_DH_anon_WITH_RC4_128_MD5 |
  CS_TLS_DH_anon_EXPORT_WITH_DES40_CBC_SHA | CS_TLS_DH_anon_WITH_DES_CBC_SHA |
  CS_TLS_DH_anon_WITH_3DES_EDE_CBC_SHA | CS_SSL_FORTEZZA_KEA_WITH_NULL_SHA |
  CS_SSL_FORTEZZA_KEA_WITH_FORTEZZA_CBC_SHA |
  CS_TLS_KRB5_WITH_DES_CBC_SHA_or_SSL_FORTEZZA_KEA_WITH_RC4_128_SHA |
  CS_TLS_KRB5_WITH_3DES_EDE_CBC_SHA | CS_TLS_KRB5_WITH_RC4_128_SHA |
  CS_TLS_KRB5_WITH_IDEA_CBC_SHA | CS_TLS_KRB5_WITH_DES_CBC_MD5 |
  CS_TLS_KRB5_WITH_3DES_EDE_CBC_MD5 | CS_TLS_KRB5_WITH_RC4_128_MD5 |
  CS_TLS_KRB5_WITH_IDEA_CBC_MD5 | CS_TLS_KRB5_EXPORT_WITH_DES_CBC_40_SHA |
  CS_TLS_KRB5_EXPORT_WITH_RC2_CBC_40_SHA | CS_TLS_KRB5_EXPORT_WITH_RC4_40_SHA |
  CS_TLS_KRB5_EXPORT_WITH_DES_CBC_40_MD5 | CS_TLS_KRB5_EXPORT_WITH_RC2_CBC_40_MD5 |
  CS_TLS_KRB5_EXPORT_WITH_RC4_40_MD5 | CS_TLS_PSK_WITH_NULL_SHA |
  CS_TLS_DHE_PSK_WITH_NULL_SHA | CS_TLS_RSA_PSK_WITH_NULL_SHA |
  CS_TLS_RSA_WITH_AES_128_CBC_SHA | CS_TLS_DH_DSS_WITH_AES_128_CBC_SHA |
  CS_TLS_DH_RSA_WITH_AES_128_CBC_SHA | CS_TLS_DHE_DSS_WITH_AES_128_CBC_SHA |
  CS_TLS_DHE_RSA_WITH_AES_128_CBC_SHA | CS_TLS_DH_anon_WITH_AES_128_CBC_SHA |
  CS_TLS_RSA_WITH_AES_256_CBC_SHA | CS_TLS_DH_DSS_WITH_AES_256_CBC_SHA |
  CS_TLS_DH_RSA_WITH_AES_256_CBC_SHA | CS_TLS_DHE_DSS_WITH_AES_256_CBC_SHA |
  CS_TLS_DHE_RSA_WITH_AES_256_CBC_SHA | CS_TLS_DH_anon_WITH_AES_256_CBC_SHA |
  CS_TLS_RSA_WITH_NULL_SHA256 | CS_TLS_RSA_WITH_AES_128_CBC_SHA256 |
  CS_TLS_RSA_WITH_AES_256_CBC_SHA256 | CS_TLS_DH_DSS_WITH_AES_128_CBC_SHA256 |
  CS_TLS_DH_RSA_WITH_AES_128_CBC_SHA256 | CS_TLS_DHE_DSS_WITH_AES_128_CBC_SHA256 |
  CS_TLS_RSA_WITH_CAMELLIA_128_CBC_SHA | CS_TLS_DH_DSS_WITH_CAMELLIA_128_CBC_SHA |
  CS_TLS_DH_RSA_WITH_CAMELLIA_128_CBC_SHA | CS_TLS_DHE_DSS_WITH_CAMELLIA_128_CBC_SHA |
  CS_TLS_DHE_RSA_WITH_CAMELLIA_128_CBC_SHA | CS_TLS_DH_anon_WITH_CAMELLIA_128_CBC_SHA |
  CS_TLS_ECDH_ECDSA_WITH_NULL_SHA_draft | CS_TLS_ECDH_ECDSA_WITH_RC4_128_SHA_draft |
  CS_TLS_ECDH_ECDSA_WITH_DES_CBC_SHA_draft | CS_TLS_ECDH_ECDSA_WITH_3DES_EDE_CBC_SHA_draft |
  CS_TLS_ECDH_ECDSA_WITH_AES_128_CBC_SHA_draft | CS_TLS_ECDH_ECDSA_WITH_AES_256_CBC_SHA_draft |
  CS_TLS_ECDH_ECNRA_WITH_DES_CBC_SHA_draft | CS_TLS_ECDH_ECNRA_WITH_3DES_EDE_CBC_SHA_draft |
  CS_TLS_ECMQV_ECDSA_NULL_SHA_draft | CS_TLS_ECMQV_ECDSA_WITH_RC4_128_SHA_draft |
  CS_TLS_ECMQV_ECDSA_WITH_DES_CBC_SHA_draft | CS_TLS_ECMQV_ECDSA_WITH_3DES_EDE_CBC_SHA_draft |
  CS_TLS_ECMQV_ECNRA_NULL_SHA_draft | CS_TLS_ECMQV_ECNRA_WITH_RC4_128_SHA_draft |
  CS_TLS_ECMQV_ECNRA_WITH_DES_CBC_SHA_draft | CS_TLS_ECMQV_ECNRA_WITH_3DES_EDE_CBC_SHA_draft |
  CS_TLS_ECDH_anon_NULL_WITH_SHA_draft | CS_TLS_ECDH_anon_WITH_RC4_128_SHA_draft |
  CS_TLS_ECDH_anon_WITH_DES_CBC_SHA_draft | CS_TLS_ECDH_anon_WITH_3DES_EDE_CBC_SHA_draft |
  CS_TLS_ECDH_anon_EXPORT_WITH_DES40_CBC_SHA_draft |
  CS_TLS_ECDH_anon_EXPORT_WITH_RC4_40_SHA_draft | CS_TLS_RSA_EXPORT1024_WITH_RC4_56_MD5 |
  CS_TLS_RSA_EXPORT1024_WITH_RC2_CBC_56_MD5 | CS_TLS_RSA_EXPORT1024_WITH_DES_CBC_SHA |
  CS_TLS_DHE_DSS_EXPORT1024_WITH_DES_CBC_SHA | CS_TLS_RSA_EXPORT1024_WITH_RC4_56_SHA |
  CS_TLS_DHE_DSS_EXPORT1024_WITH_RC4_56_SHA | CS_TLS_DHE_DSS_WITH_RC4_128_SHA |
  CS_TLS_DHE_RSA_WITH_AES_128_CBC_SHA256 | CS_TLS_DH_DSS_WITH_AES_256_CBC_SHA256 |
  CS_TLS_DH_RSA_WITH_AES_256_CBC_SHA256 | CS_TLS_DHE_DSS_WITH_AES_256_CBC_SHA256 |
  CS_TLS_DHE_RSA_WITH_AES_256_CBC_SHA256 | CS_TLS_DH_anon_WITH_AES_128_CBC_SHA256 |
  CS_TLS_DH_anon_WITH_AES_256_CBC_SHA256 | CS_TLS_DHE_DSS_WITH_3DES_EDE_CBC_RMD |
  CS_TLS_DHE_DSS_WITH_AES_128_CBC_RMD | CS_TLS_DHE_DSS_WITH_AES_256_CBC_RMD |
  CS_TLS_DHE_RSA_WITH_3DES_EDE_CBC_RMD | CS_TLS_DHE_RSA_WITH_AES_128_CBC_RMD |
  CS_TLS_DHE_RSA_WITH_AES_256_CBC_RMD | CS_TLS_RSA_WITH_3DES_EDE_CBC_RMD |
  CS_TLS_RSA_WITH_AES_128_CBC_RMD | CS_TLS_RSA_WITH_AES_256_CBC_RMD |
  CS_TLS_GOSTR341094_WITH_28147_CNT_IMIT | CS_TLS_GOSTR341001_WITH_28147_CNT_IMIT |
  CS_TLS_GOSTR341094_WITH_NULL_GOSTR3411 | CS_TLS_GOSTR341001_WITH_NULL_GOSTR3411 |
  CS_TLS_RSA_WITH_CAMELLIA_256_CBC_SHA | CS_TLS_DH_DSS_WITH_CAMELLIA_256_CBC_SHA |
  CS_TLS_DH_RSA_WITH_CAMELLIA_256_CBC_SHA | CS_TLS_DHE_DSS_WITH_CAMELLIA_256_CBC_SHA |
  CS_TLS_DHE_RSA_WITH_CAMELLIA_256_CBC_SHA | CS_TLS_DH_anon_WITH_CAMELLIA_256_CBC_SHA |
  CS_TLS_PSK_WITH_RC4_128_SHA | CS_TLS_PSK_WITH_3DES_EDE_CBC_SHA |
  CS_TLS_PSK_WITH_AES_128_CBC_SHA | CS_TLS_PSK_WITH_AES_256_CBC_SHA |
  CS_TLS_DHE_PSK_WITH_RC4_128_SHA | CS_TLS_DHE_PSK_WITH_3DES_EDE_CBC_SHA |
  CS_TLS_DHE_PSK_WITH_AES_128_CBC_SHA | CS_TLS_DHE_PSK_WITH_AES_256_CBC_SHA |
  CS_TLS_RSA_PSK_WITH_RC4_128_SHA | CS_TLS_RSA_PSK_WITH_3DES_EDE_CBC_SHA |
  CS_TLS_RSA_PSK_WITH_AES_128_CBC_SHA | CS_TLS_RSA_PSK_WITH_AES_256_CBC_SHA |
  CS_TLS_RSA_WITH_SEED_CBC_SHA | CS_TLS_DH_DSS_WITH_SEED_CBC_SHA |
  CS_TLS_DH_RSA_WITH_SEED_CBC_SHA | CS_TLS_DHE_DSS_WITH_SEED_CBC_SHA |
  CS_TLS_DHE_RSA_WITH_SEED_CBC_SHA | CS_TLS_DH_anon_WITH_SEED_CBC_SHA |
  CS_TLS_RSA_WITH_AES_128_GCM_SHA256 | CS_TLS_RSA_WITH_AES_256_GCM_SHA384 |
  CS_TLS_DHE_RSA_WITH_AES_128_GCM_SHA256 | CS_TLS_DHE_RSA_WITH_AES_256_GCM_SHA384 |
  CS_TLS_DH_RSA_WITH_AES_128_GCM_SHA256 | CS_TLS_DH_RSA_WITH_AES_256_GCM_SHA384 |
  CS_TLS_DHE_DSS_WITH_AES_128_GCM_SHA256 | CS_TLS_DHE_DSS_WITH_AES_256_GCM_SHA384 |
  CS_TLS_DH_DSS_WITH_AES_128_GCM_SHA256 | CS_TLS_DH_DSS_WITH_AES_256_GCM_SHA384 |
  CS_TLS_DH_anon_WITH_AES_128_GCM_SHA256 | CS_TLS_DH_anon_WITH_AES_256_GCM_SHA384 |
  CS_TLS_PSK_WITH_AES_128_GCM_SHA256 | CS_TLS_PSK_WITH_AES_256_GCM_SHA384 |
  CS_TLS_DHE_PSK_WITH_AES_128_GCM_SHA256 | CS_TLS_DHE_PSK_WITH_AES_256_GCM_SHA384 |
  CS_TLS_RSA_PSK_WITH_AES_128_GCM_SHA256 | CS_TLS_RSA_PSK_WITH_AES_256_GCM_SHA384 |
  CS_TLS_PSK_WITH_AES_128_CBC_SHA256 | CS_TLS_PSK_WITH_AES_256_CBC_SHA384 |
  CS_TLS_PSK_WITH_NULL_SHA256 | CS_TLS_PSK_WITH_NULL_SHA384 |
  CS_TLS_DHE_PSK_WITH_AES_128_CBC_SHA256 | CS_TLS_DHE_PSK_WITH_AES_256_CBC_SHA384 |
  CS_TLS_DHE_PSK_WITH_NULL_SHA256 | CS_TLS_DHE_PSK_WITH_NULL_SHA384 |
  CS_TLS_RSA_PSK_WITH_AES_128_CBC_SHA256 | CS_TLS_RSA_PSK_WITH_AES_256_CBC_SHA384 |
  CS_TLS_RSA_PSK_WITH_NULL_SHA256 | CS_TLS_RSA_PSK_WITH_NULL_SHA384 |
  CS_TLS_RSA_WITH_CAMELLIA_128_CBC_SHA256 | CS_TLS_DH_DSS_WITH_CAMELLIA_128_CBC_SHA256 |
  CS_TLS_DH_RSA_WITH_CAMELLIA_128_CBC_SHA256 | CS_TLS_DHE_DSS_WITH_CAMELLIA_128_CBC_SHA256 |
  CS_TLS_DHE_RSA_WITH_CAMELLIA_128_CBC_SHA256 | CS_TLS_DH_anon_WITH_CAMELLIA_128_CBC_SHA256 |
  CS_TLS_RSA_WITH_CAMELLIA_256_CBC_SHA256 | CS_TLS_DH_DSS_WITH_CAMELLIA_256_CBC_SHA256 |
  CS_TLS_DH_RSA_WITH_CAMELLIA_256_CBC_SHA256 | CS_TLS_DHE_DSS_WITH_CAMELLIA_256_CBC_SHA256 |
  CS_TLS_DHE_RSA_WITH_CAMELLIA_256_CBC_SHA256 | CS_TLS_DH_anon_WITH_CAMELLIA_256_CBC_SHA256 |
  CS_TLS_EMPTY_RENEGOTIATION_INFO_SCSV | CS_TLS13_AES_128_GCM_SHA256 |
  CS_TLS13_AES_256_GCM_SHA384 | CS_TLS13_CHACHA20_POLY1305_SHA256 |
  CS_TLS13_AES_128_CCM_SHA256 | CS_TLS13_AES_128_CCM_8_SHA256 |
  CS_TLS_ECDH_ECDSA_WITH_NULL_SHA | CS_TLS_ECDH_ECDSA_WITH_RC4_128_SHA |
  CS_TLS_ECDH_ECDSA_WITH_3DES_EDE_CBC_SHA | CS_TLS_ECDH_ECDSA_WITH_AES_128_CBC_SHA |
  CS_TLS_ECDH_ECDSA_WITH_AES_256_CBC_SHA | CS_TLS_ECDHE_ECDSA_WITH_NULL_SHA |
  CS_TLS_ECDHE_ECDSA_WITH_RC4_128_SHA | CS_TLS_ECDHE_ECDSA_WITH_3DES_EDE_CBC_SHA |
  CS_TLS_ECDHE_ECDSA_WITH_AES_128_CBC_SHA | CS_TLS_ECDHE_ECDSA_WITH_AES_256_CBC_SHA |
  CS_TLS_ECDH_RSA_WITH_NULL_SHA | CS_TLS_ECDH_RSA_WITH_RC4_128_SHA |
  CS_TLS_ECDH_RSA_WITH_3DES_EDE_CBC_SHA | CS_TLS_ECDH_RSA_WITH_AES_128_CBC_SHA |
  CS_TLS_ECDH_RSA_WITH_AES_256_CBC_SHA | CS_TLS_ECDHE_RSA_WITH_NULL_SHA |
  CS_TLS_ECDHE_RSA_WITH_RC4_128_SHA | CS_TLS_ECDHE_RSA_WITH_3DES_EDE_CBC_SHA |
  CS_TLS_ECDHE_RSA_WITH_AES_128_CBC_SHA | CS_TLS_ECDHE_RSA_WITH_AES_256_CBC_SHA |
  CS_TLS_ECDH_anon_WITH_NULL_SHA | CS_TLS_ECDH_anon_WITH_RC4_128_SHA |
  CS_TLS_ECDH_anon_WITH_3DES_EDE_CBC_SHA | CS_TLS_ECDH_anon_WITH_AES_128_CBC_SHA |
  CS_TLS_ECDH_anon_WITH_AES_256_CBC_SHA | CS_TLS_SRP_SHA_WITH_3DES_EDE_CBC_SHA |
  CS_TLS_SRP_SHA_RSA_WITH_3DES_EDE_CBC_SHA | CS_TLS_SRP_SHA_DSS_WITH_3DES_EDE_CBC_SHA |
  CS_TLS_SRP_SHA_WITH_AES_128_CBC_SHA | CS_TLS_SRP_SHA_RSA_WITH_AES_128_CBC_SHA |
  CS_TLS_SRP_SHA_DSS_WITH_AES_128_CBC_SHA | CS_TLS_SRP_SHA_WITH_AES_256_CBC_SHA |
  CS_TLS_SRP_SHA_RSA_WITH_AES_256_CBC_SHA | CS_TLS_SRP_SHA_DSS_WITH_AES_256_CBC_SHA |
  CS_TLS_ECDHE_ECDSA_WITH_AES_128_CBC_SHA256 | CS_TLS_ECDHE_ECDSA_WITH_AES_256_CBC_SHA384 |
  CS_TLS_ECDH_ECDSA_WITH_AES_128_CBC_SHA256 | CS_TLS_ECDH_ECDSA_WITH_AES_256_CBC_SHA384 |
  CS_TLS_ECDHE_RSA_WITH_AES_128_CBC_SHA256 | CS_TLS_ECDHE_RSA_WITH_AES_256_CBC_SHA384 |
  CS_TLS_ECDH_RSA_WITH_AES_128_CBC_SHA256 | CS_TLS_ECDH_RSA_WITH_AES_256_CBC_SHA384 |
  CS_TLS_ECDHE_ECDSA_WITH_AES_128_GCM_SHA256 | CS_TLS_ECDHE_ECDSA_WITH_AES_256_GCM_SHA384 |
  CS_TLS_ECDH_ECDSA_WITH_AES_128_GCM_SHA256 | CS_TLS_ECDH_ECDSA_WITH_AES_256_GCM_SHA384 |
  CS_TLS_ECDHE_RSA_WITH_AES_128_GCM_SHA256 | CS_TLS_ECDHE_RSA_WITH_AES_256_GCM_SHA384 |
  CS_TLS_ECDH_RSA_WITH_AES_128_GCM_SHA256 | CS_TLS_ECDH_RSA_WITH_AES_256_GCM_SHA384 |
  CS_TLS_ECDHE_PSK_WITH_RC4_128_SHA | CS_TLS_ECDHE_PSK_WITH_3DES_EDE_CBC_SHA |
  CS_TLS_ECDHE_PSK_WITH_AES_128_CBC_SHA | CS_TLS_ECDHE_PSK_WITH_AES_256_CBC_SHA |
  CS_TLS_ECDHE_PSK_WITH_AES_128_CBC_SHA256 | CS_TLS_ECDHE_PSK_WITH_AES_256_CBC_SHA384 |
  CS_TLS_ECDHE_PSK_WITH_NULL_SHA | CS_TLS_ECDHE_PSK_WITH_NULL_SHA256 |
  CS_TLS_ECDHE_PSK_WITH_NULL_SHA384 | CS_TLS_RSA_WITH_ARIA_128_CBC_SHA256 |
  CS_TLS_RSA_WITH_ARIA_256_CBC_SHA384 | CS_TLS_DH_DSS_WITH_ARIA_128_CBC_SHA256 |
  CS_TLS_DH_DSS_WITH_ARIA_256_CBC_SHA384 | CS_TLS_DH_RSA_WITH_ARIA_128_CBC_SHA256 |
  CS_TLS_DH_RSA_WITH_ARIA_256_CBC_SHA384 | CS_TLS_DHE_DSS_WITH_ARIA_128_CBC_SHA256 |
  CS_TLS_DHE_DSS_WITH_ARIA_256_CBC_SHA384 | CS_TLS_DHE_RSA_WITH_ARIA_128_CBC_SHA256 |
  CS_TLS_DHE_RSA_WITH_ARIA_256_CBC_SHA384 | CS_TLS_DH_anon_WITH_ARIA_128_CBC_SHA256 |
  CS_TLS_DH_anon_WITH_ARIA_256_CBC_SHA384 | CS_TLS_ECDHE_ECDSA_WITH_ARIA_128_CBC_SHA256 |
  CS_TLS_ECDHE_ECDSA_WITH_ARIA_256_CBC_SHA384 | CS_TLS_ECDH_ECDSA_WITH_ARIA_128_CBC_SHA256 |
  CS_TLS_ECDH_ECDSA_WITH_ARIA_256_CBC_SHA384 | CS_TLS_ECDHE_RSA_WITH_ARIA_128_CBC_SHA256 |
  CS_TLS_ECDHE_RSA_WITH_ARIA_256_CBC_SHA384 | CS_TLS_ECDH_RSA_WITH_ARIA_128_CBC_SHA256 |
  CS_TLS_ECDH_RSA_WITH_ARIA_256_CBC_SHA384 | CS_TLS_RSA_WITH_ARIA_128_GCM_SHA256 |
  CS_TLS_RSA_WITH_ARIA_256_GCM_SHA384 | CS_TLS_DHE_RSA_WITH_ARIA_128_GCM_SHA256 |
  CS_TLS_DHE_RSA_WITH_ARIA_256_GCM_SHA384 | CS_TLS_DH_RSA_WITH_ARIA_128_GCM_SHA256 |
  CS_TLS_DH_RSA_WITH_ARIA_256_GCM_SHA384 | CS_TLS_DHE_DSS_WITH_ARIA_128_GCM_SHA256 |
  CS_TLS_DHE_DSS_WITH_ARIA_256_GCM_SHA384 | CS_TLS_DH_DSS_WITH_ARIA_128_GCM_SHA256 |
  CS_TLS_DH_DSS_WITH_ARIA_256_GCM_SHA384 | CS_TLS_DH_anon_WITH_ARIA_128_GCM_SHA256 |
  CS_TLS_DH_anon_WITH_ARIA_256_GCM_SHA384 | CS_TLS_ECDHE_ECDSA_WITH_ARIA_128_GCM_SHA256 |
  CS_TLS_ECDHE_ECDSA_WITH_ARIA_256_GCM_SHA384 | CS_TLS_ECDH_ECDSA_WITH_ARIA_128_GCM_SHA256 |
  CS_TLS_ECDH_ECDSA_WITH_ARIA_256_GCM_SHA384 | CS_TLS_ECDHE_RSA_WITH_ARIA_128_GCM_SHA256 |
  CS_TLS_ECDHE_RSA_WITH_ARIA_256_GCM_SHA384 | CS_TLS_ECDH_RSA_WITH_ARIA_128_GCM_SHA256 |
  CS_TLS_ECDH_RSA_WITH_ARIA_256_GCM_SHA384 | CS_TLS_PSK_WITH_ARIA_128_CBC_SHA256 |
  CS_TLS_PSK_WITH_ARIA_256_CBC_SHA384 | CS_TLS_DHE_PSK_WITH_ARIA_128_CBC_SHA256 |
  CS_TLS_DHE_PSK_WITH_ARIA_256_CBC_SHA384 | CS_TLS_RSA_PSK_WITH_ARIA_128_CBC_SHA256 |
  CS_TLS_RSA_PSK_WITH_ARIA_256_CBC_SHA384 | CS_TLS_PSK_WITH_ARIA_128_GCM_SHA256 |
  CS_TLS_PSK_WITH_ARIA_256_GCM_SHA384 | CS_TLS_DHE_PSK_WITH_ARIA_128_GCM_SHA256 |
  CS_TLS_DHE_PSK_WITH_ARIA_256_GCM_SHA384 | CS_TLS_RSA_PSK_WITH_ARIA_128_GCM_SHA256 |
  CS_TLS_RSA_PSK_WITH_ARIA_256_GCM_SHA384 | CS_TLS_ECDHE_PSK_WITH_ARIA_128_CBC_SHA256 |
  CS_TLS_ECDHE_PSK_WITH_ARIA_256_CBC_SHA384 | CS_TLS_ECDHE_ECDSA_WITH_CAMELLIA_128_CBC_SHA256 |
  CS_TLS_ECDHE_ECDSA_WITH_CAMELLIA_256_CBC_SHA384 |
  CS_TLS_ECDH_ECDSA_WITH_CAMELLIA_128_CBC_SHA256 |
  CS_TLS_ECDH_ECDSA_WITH_CAMELLIA_256_CBC_SHA384 |
  CS_TLS_ECDHE_RSA_WITH_CAMELLIA_128_CBC_SHA256 |
  CS_TLS_ECDHE_RSA_WITH_CAMELLIA_256_CBC_SHA384 |
  CS_TLS_ECDH_RSA_WITH_CAMELLIA_128_CBC_SHA256 | CS_TLS_ECDH_RSA_WITH_CAMELLIA_256_CBC_SHA384 |
  CS_TLS_RSA_WITH_CAMELLIA_128_GCM_SHA256 | CS_TLS_RSA_WITH_CAMELLIA_256_GCM_SHA384 |
  CS_TLS_DHE_RSA_WITH_CAMELLIA_128_GCM_SHA256 | CS_TLS_DHE_RSA_WITH_CAMELLIA_256_GCM_SHA384 |
  CS_TLS_DH_RSA_WITH_CAMELLIA_128_GCM_SHA256 | CS_TLS_DH_RSA_WITH_CAMELLIA_256_GCM_SHA384 |
  CS_TLS_DHE_DSS_WITH_CAMELLIA_128_GCM_SHA256 | CS_TLS_DHE_DSS_WITH_CAMELLIA_256_GCM_SHA384 |
  CS_TLS_DH_DSS_WITH_CAMELLIA_128_GCM_SHA256 | CS_TLS_DH_DSS_WITH_CAMELLIA_256_GCM_SHA384 |
  CS_TLS_DH_anon_WITH_CAMELLIA_128_GCM_SHA256 | CS_TLS_DH_anon_WITH_CAMELLIA_256_GCM_SHA384 |
  CS_TLS_ECDHE_ECDSA_WITH_CAMELLIA_128_GCM_SHA256 |
  CS_TLS_ECDHE_ECDSA_WITH_CAMELLIA_256_GCM_SHA384 |
  CS_TLS_ECDH_ECDSA_WITH_CAMELLIA_128_GCM_SHA256 |
  CS_TLS_ECDH_ECDSA_WITH_CAMELLIA_256_GCM_SHA384 |
  CS_TLS_ECDHE_RSA_WITH_CAMELLIA_128_GCM_SHA256 |
  CS_TLS_ECDHE_RSA_WITH_CAMELLIA_256_GCM_SHA384 |
  CS_TLS_ECDH_RSA_WITH_CAMELLIA_128_GCM_SHA256 | CS_TLS_ECDH_RSA_WITH_CAMELLIA_256_GCM_SHA384 |
  CS_TLS_PSK_WITH_CAMELLIA_128_GCM_SHA256 | CS_TLS_PSK_WITH_CAMELLIA_256_GCM_SHA384 |
  CS_TLS_DHE_PSK_WITH_CAMELLIA_128_GCM_SHA256 | CS_TLS_DHE_PSK_WITH_CAMELLIA_256_GCM_SHA384 |
  CS_TLS_RSA_PSK_WITH_CAMELLIA_128_GCM_SHA256 | CS_TLS_RSA_PSK_WITH_CAMELLIA_256_GCM_SHA384 |
  CS_TLS_PSK_WITH_CAMELLIA_128_CBC_SHA256 | CS_TLS_PSK_WITH_CAMELLIA_256_CBC_SHA384 |
  CS_TLS_DHE_PSK_WITH_CAMELLIA_128_CBC_SHA256 | CS_TLS_DHE_PSK_WITH_CAMELLIA_256_CBC_SHA384 |
  CS_TLS_RSA_PSK_WITH_CAMELLIA_128_CBC_SHA256 | CS_TLS_RSA_PSK_WITH_CAMELLIA_256_CBC_SHA384 |
  CS_TLS_ECDHE_PSK_WITH_CAMELLIA_128_CBC_SHA256 |
  CS_TLS_ECDHE_PSK_WITH_CAMELLIA_256_CBC_SHA384 | CS_TLS_RSA_WITH_AES_128_CCM |
  CS_TLS_RSA_WITH_AES_256_CCM | CS_TLS_DHE_RSA_WITH_AES_128_CCM |
  CS_TLS_DHE_RSA_WITH_AES_256_CCM | CS_TLS_RSA_WITH_AES_128_CCM_8 |
  CS_TLS_RSA_WITH_AES_256_CCM_8 | CS_TLS_DHE_RSA_WITH_AES_128_CCM_8 |
  CS_TLS_DHE_RSA_WITH_AES_256_CCM_8 | CS_TLS_PSK_WITH_AES_128_CCM |
  CS_TLS_PSK_WITH_AES_256_CCM | CS_TLS_DHE_PSK_WITH_AES_128_CCM |
  CS_TLS_DHE_PSK_WITH_AES_256_CCM | CS_TLS_PSK_WITH_AES_128_CCM_8 |
  CS_TLS_PSK_WITH_AES_256_CCM_8 | CS_TLS_PSK_DHE_WITH_AES_128_CCM_8 |
  CS_TLS_PSK_DHE_WITH_AES_256_CCM_8 | CS_TLS_ECDHE_ECDSA_WITH_AES_128_CCM |
  CS_TLS_ECDHE_ECDSA_WITH_AES_256_CCM | CS_TLS_ECDHE_ECDSA_WITH_AES_128_CCM_8 |
  CS_TLS_ECDHE_ECDSA_WITH_AES_256_CCM_8 | CS_TLS_ECDHE_RSA_WITH_CHACHA20_POLY1305_SHA256 |
  CS_TLS_ECDHE_ECDSA_WITH_CHACHA20_POLY1305_SHA256 |
  CS_TLS_DHE_RSA_WITH_CHACHA20_POLY1305_SHA256 | CS_TLS_PSK_WITH_CHACHA20_POLY1305_SHA256 |
  CS_TLS_ECDHE_PSK_WITH_CHACHA20_POLY1305_SHA256 |
  CS_TLS_DHE_PSK_WITH_CHACHA20_POLY1305_SHA256 | CS_TLS_RSA_PSK_WITH_CHACHA20_POLY1305_SHA256 |
  CS_SSL_RSA_FIPS_WITH_DES_CBC_SHA | CS_SSL_RSA_FIPS_WITH_3DES_EDE_CBC_SHA | CS_Unknown (x : Z).

#[export] Instance CipherSuite_enum : TlsEnum CipherSuite := {
  enum_width := 2%nat;
  enum_name := "CipherSuite";
  enum_get v := match v with
    CS_TLS_NULL_WITH_NULL_NULL => 0 | CS_TLS_RSA_WITH_NULL_MD5 => 1 |
    CS_TLS_RSA_WITH_NULL_SHA => 2 | CS_TLS_RSA_EXPORT_WITH_RC4_40_MD5 => 3 |
    CS_TLS_RSA_WITH_RC4_128_MD5 => 4 | CS_TLS_RSA_WITH_RC4_128_SHA => 5 |
    CS_TLS_RSA_EXPORT_WITH_RC2_CBC_40_MD5 => 6 | CS_TLS_RSA_WITH_IDEA_CBC_SHA => 7 |
    CS_TLS_RSA_EXPORT_WITH_DES40_CBC_SHA => 8 | CS_TLS_RSA_WITH_DES_CBC_SHA => 9 |
    CS_TLS_RSA_WITH_3DES_EDE_CBC_SHA => 10 | CS_TLS_DH_DSS_EXPORT_WITH_DES40_CBC_SHA => 11 |
    CS_TLS_DH_DSS_WITH_DES_CBC_SHA => 12 | CS_TLS_DH_DSS_WITH_3DES_EDE_CBC_SHA => 13 |
    CS_TLS_DH_RSA_EXPORT_WITH_DES40_CBC_SHA => 14 | CS_TLS_DH_RSA_WITH_DES_CBC_SHA => 15 |
    CS_TLS_DH_RSA_WITH_3DES_EDE_CBC_SHA => 16 |
    CS_TLS_DHE_DSS_EXPORT_WITH_DES40_CBC_SHA => 17 | CS_TLS_DHE_DSS_WITH_DES_CBC_SHA => 18 |
    CS_TLS_DHE_DSS_WITH_3DES_EDE_CBC_SHA => 19 |
    CS_TLS_DHE_RSA_EXPORT_WITH_DES40_CBC_SHA => 20 | CS_TLS_DHE_RSA_WITH_DES_CBC_SHA => 21 |
    CS_TLS_DHE_RSA_WITH_3DES_EDE_CBC_SHA => 22 | CS_TLS_DH_anon_EXPORT_WITH_RC4_40_MD5 => 23 |
    CS_TLS_DH_anon_WITH_RC4_128_MD5 => 24 | CS_TLS_DH_anon_EXPORT_WITH_DES40_CBC_SHA => 25 |
    CS_TLS_DH_anon_WITH_DES_CBC_SHA => 26 | CS_TLS_DH_anon_WITH_3DES_EDE_CBC_SHA => 27 |
    CS_SSL_FORTEZZA_KEA_WITH_NULL_SHA => 28 | CS_SSL_FORTEZZA_KEA_WITH_FORTEZZA_CBC_SHA => 29 |
    CS_TLS_KRB5_WITH_DES_CBC_SHA_or_SSL_FORTEZZA_KEA_WITH_RC4_128_SHA => 30 |
    CS_TLS_KRB5_WITH_3DES_EDE_CBC_SHA => 31 | CS_TLS_KRB5_WITH_RC4_128_SHA => 32 |
    CS_TLS_KRB5_WITH_IDEA_CBC_SHA => 33 | CS_TLS_KRB5_WITH_DES_CBC_MD5 => 34 |
    CS_TLS_KRB5_WITH_3DES_EDE_CBC_MD5 => 35 | CS_TLS_KRB5_WITH_RC4_128_MD5 => 36 |
    CS_TLS_KRB5_WITH_IDEA_CBC_MD5 => 37 | CS_TLS_KRB5_EXPORT_WITH_DES_CBC_40_SHA => 38 |
    CS_TLS_KRB5_EXPORT_WITH_RC2_CBC_40_SHA => 39 | CS_TLS_KRB5_EXPORT_WITH_RC4_40_SHA => 40 |
    CS_TLS_KRB5_EXPORT_WITH_DES_CBC_40_MD5 => 41 |
    CS_TLS_KRB5_EXPORT_WITH_RC2_CBC_40_MD5 => 42 | CS_TLS_KRB5_EXPORT_WITH_RC4_40_MD5 => 43 |
    CS_TLS_PSK_WITH_NULL_SHA => 44 | CS_TLS_DHE_PSK_WITH_NULL_SHA => 45 |
    CS_TLS_RSA_PSK_WITH_NULL_SHA => 46 | CS_TLS_RSA_WITH_AES_128_CBC_SHA => 47 |
    CS_TLS_DH_DSS_WITH_AES_128_CBC_SHA => 48 | CS_TLS_DH_RSA_WITH_AES_128_CBC_SHA => 49 |
    CS_TLS_DHE_DSS_WITH_AES_128_CBC_SHA => 50 | CS_TLS_DHE_RSA_WITH_AES_128_CBC_SHA => 51 |
    CS_TLS_DH_anon_WITH_AES_128_CBC_SHA => 52 | CS_TLS_RSA_WITH_AES_256_CBC_SHA => 53 |
    CS_TLS_DH_DSS_WITH_AES_256_CBC_SHA => 54 | CS_TLS_DH_RSA_WITH_AES_256_CBC_SHA => 55 |
    CS_TLS_DHE_DSS_WITH_AES_256_CBC_SHA => 56 | CS_TLS_DHE_RSA_WITH_AES_256_CBC_SHA => 57 |
    CS_TLS_DH_anon_WITH_AES_256_CBC_SHA => 58 | CS_TLS_RSA_WITH_NULL_SHA256 => 59 |
    CS_TLS_RSA_WITH_AES_128_CBC_SHA256 => 60 | CS_TLS_RSA_WITH_AES_256_CBC_SHA256 => 61 |
    CS_TLS_DH_DSS_WITH_AES_128_CBC_SHA256 => 62 | CS_TLS_DH_RSA_WITH_AES_128_CBC_SHA256 => 63 |
    CS_TLS_DHE_DSS_WITH_AES_128_CBC_SHA256 => 64 | CS_TLS_RSA_WITH_CAMELLIA_128_CBC_SHA => 65 |
    CS_TLS_DH_DSS_WITH_CAMELLIA_128_CBC_SHA => 66 |
    CS_TLS_DH_RSA_WITH_CAMELLIA_128_CBC_SHA => 67 |
    CS_TLS_DHE_DSS_WITH_CAMELLIA_128_CBC_SHA => 68 |
    CS_TLS_DHE_RSA_WITH_CAMELLIA_128_CBC_SHA => 69 |
    CS_TLS_DH_anon_WITH_CAMELLIA_128_CBC_SHA => 70 |
    CS_TLS_ECDH_ECDSA_WITH_NULL_SHA_draft => 71 |
    CS_TLS_ECDH_ECDSA_WITH_RC4_128_SHA_draft => 72 |
    CS_TLS_ECDH_ECDSA_WITH_DES_CBC_SHA_draft => 73 |
    CS_TLS_ECDH_ECDSA_WITH_3DES_EDE_CBC_SHA_draft => 74 |
    CS_TLS_ECDH_ECDSA_WITH_AES_128_CBC_SHA_draft => 75 |
    CS_TLS_ECDH_ECDSA_WITH_AES_256_CBC_SHA_draft => 76 |
    CS_TLS_ECDH_ECNRA_WITH_DES_CBC_SHA_draft => 77 |
    CS_TLS_ECDH_ECNRA_WITH_3DES_EDE_CBC_SHA_draft => 78 |
    CS_TLS_ECMQV_ECDSA_NULL_SHA_draft => 79 | CS_TLS_ECMQV_ECDSA_WITH_RC4_128_SHA_draft => 80 |
    CS_TLS_ECMQV_ECDSA_WITH_DES_CBC_SHA_draft => 81 |
    CS_TLS_ECMQV_ECDSA_WITH_3DES_EDE_CBC_SHA_draft => 82 |
    CS_TLS_ECMQV_ECNRA_NULL_SHA_draft => 83 | CS_TLS_ECMQV_ECNRA_WITH_RC4_128_SHA_draft => 84 |
    CS_TLS_ECMQV_ECNRA_WITH_DES_CBC_SHA_draft => 85 |
    CS_TLS_ECMQV_ECNRA_WITH_3DES_EDE_CBC_SHA_draft => 86 |
    CS_TLS_ECDH_anon_NULL_WITH_SHA_draft => 87 |
    CS_TLS_ECDH_anon_WITH_RC4_128_SHA_draft => 88 |
    CS_TLS_ECDH_anon_WITH_DES_CBC_SHA_draft => 89 |
    CS_TLS_ECDH_anon_WITH_3DES_EDE_CBC_SHA_draft => 90 |
    CS_TLS_ECDH_anon_EXPORT_WITH_DES40_CBC_SHA_draft => 91 |
    CS_TLS_ECDH_anon_EXPORT_WITH_RC4_40_SHA_draft => 92 |
    CS_TLS_RSA_EXPORT1024_WITH_RC4_56_MD5 => 96 |
    CS_TLS_RSA_EXPORT1024_WITH_RC2_CBC_56_MD5 => 97 |
    CS_TLS_RSA_EXPORT1024_WITH_DES_CBC_SHA => 98 |
    CS_TLS_DHE_DSS_EXPORT1024_WITH_DES_CBC_SHA => 99 |
    CS_TLS_RSA_EXPORT1024_WITH_RC4_56_SHA => 100 |
    CS_TLS_DHE_DSS_EXPORT1024_WITH_RC4_56_SHA => 101 | CS_TLS_DHE_DSS_WITH_RC4_128_SHA => 102 |
    CS_TLS_DHE_RSA_WITH_AES_128_CBC_SHA256 => 103 |
    CS_TLS_DH_DSS_WITH_AES_256_CBC_SHA256 => 104 |
    CS_TLS_DH_RSA_WITH_AES_256_CBC_SHA256 => 105 |
    CS_TLS_DHE_DSS_WITH_AES_256_CBC_SHA256 => 106 |
    CS_TLS_DHE_RSA_WITH_AES_256_CBC_SHA256 => 107 |
    CS_TLS_DH_anon_WITH_AES_128_CBC_SHA256 => 108 |
    CS_TLS_DH_anon_WITH_AES_256_CBC_SHA256 => 109 |
    CS_TLS_DHE_DSS_WITH_3DES_EDE_CBC_RMD => 114 | CS_TLS_DHE_DSS_WITH_AES_128_CBC_RMD => 115 |
    CS_TLS_DHE_DSS_WITH_AES_256_CBC_RMD => 116 | CS_TLS_DHE_RSA_WITH_3DES_EDE_CBC_RMD => 119 |
    CS_TLS_DHE_RSA_WITH_AES_128_CBC_RMD => 120 | CS_TLS_DHE_RSA_WITH_AES_256_CBC_RMD => 121 |
    CS_TLS_RSA_WITH_3DES_EDE_CBC_RMD => 124 | CS_TLS_RSA_WITH_AES_128_CBC_RMD => 125 |
    CS_TLS_RSA_WITH_AES_256_CBC_RMD => 126 | CS_TLS_GOSTR341094_WITH_28147_CNT_IMIT => 128 |
    CS_TLS_GOSTR341001_WITH_28147_CNT_IMIT => 129 |
    CS_TLS_GOSTR341094_WITH_NULL_GOSTR3411 => 130 |
    CS_TLS_GOSTR341001_WITH_NULL_GOSTR3411 => 131 |
    CS_TLS_RSA_WITH_CAMELLIA_256_CBC_SHA => 132 |
    CS_TLS_DH_DSS_WITH_CAMELLIA_256_CBC_SHA => 133 |
    CS_TLS_DH_RSA_WITH_CAMELLIA_256_CBC_SHA => 134 |
    CS_TLS_DHE_DSS_WITH_CAMELLIA_256_CBC_SHA => 135 |
    CS_TLS_DHE_RSA_WITH_CAMELLIA_256_CBC_SHA => 136 |
    CS_TLS_DH_anon_WITH_CAMELLIA_256_CBC_SHA => 137 | CS_TLS_PSK_WITH_RC4_128_SHA => 138 |
    CS_TLS_PSK_WITH_3DES_EDE_CBC_SHA => 139 | CS_TLS_PSK_WITH_AES_128_CBC_SHA => 140 |
    CS_TLS_PSK_WITH_AES_256_CBC_SHA => 141 | CS_TLS_DHE_PSK_WITH_RC4_128_SHA => 142 |
    CS_TLS_DHE_PSK_WITH_3DES_EDE_CBC_SHA => 143 | CS_TLS_DHE_PSK_WITH_AES_128_CBC_SHA => 144 |
    CS_TLS_DHE_PSK_WITH_AES_256_CBC_SHA => 145 | CS_TLS_RSA_PSK_WITH_RC4_128_SHA => 146 |
    CS_TLS_RSA_PSK_WITH_3DES_EDE_CBC_SHA => 147 | CS_TLS_RSA_PSK_WITH_AES_128_CBC_SHA => 148 |
    CS_TLS_RSA_PSK_WITH_AES_256_CBC_SHA => 149 | CS_TLS_RSA_WITH_SEED_CBC_SHA => 150 |
    CS_TLS_DH_DSS_WITH_SEED_CBC_SHA => 151 | CS_TLS_DH_RSA_WITH_SEED_CBC_SHA => 152 |
    CS_TLS_DHE_DSS_WITH_SEED_CBC_SHA => 153 | CS_TLS_DHE_RSA_WITH_SEED_CBC_SHA => 154 |
    CS_TLS_DH_anon_WITH_SEED_CBC_SHA => 155 | CS_TLS_RSA_WITH_AES_128_GCM_SHA256 => 156 |
    CS_TLS_RSA_WITH_AES_256_GCM_SHA384 => 157 | CS_TLS_DHE_RSA_WITH_AES_128_GCM_SHA256 => 158 |
    CS_TLS_DHE_RSA_WITH_AES_256_GCM_SHA384 => 159 |
    CS_TLS_DH_RSA_WITH_AES_128_GCM_SHA256 => 160 |
    CS_TLS_DH_RSA_WITH_AES_256_GCM_SHA384 => 161 |
    CS_TLS_DHE_DSS_WITH_AES_128_GCM_SHA256 => 162 |
    CS_TLS_DHE_DSS_WITH_AES_256_GCM_SHA384 => 163 |
    CS_TLS_DH_DSS_WITH_AES_128_GCM_SHA256 => 164 |
    CS_TLS_DH_DSS_WITH_AES_256_GCM_SHA384 => 165 |
    CS_TLS_DH_anon_WITH_AES_128_GCM_SHA256 => 166 |
    CS_TLS_DH_anon_WITH_AES_256_GCM_SHA384 => 167 | CS_TLS_PSK_WITH_AES_128_GCM_SHA256 => 168 |
    CS_TLS_PSK_WITH_AES_256_GCM_SHA384 => 169 | CS_TLS_DHE_PSK_WITH_AES_128_GCM_SHA256 => 170 |
    CS_TLS_DHE_PSK_WITH_AES_256_GCM_SHA384 => 171 |
    CS_TLS_RSA_PSK_WITH_AES_128_GCM_SHA256 => 172 |
    CS_TLS_RSA_PSK_WITH_AES_256_GCM_SHA384 => 173 | CS_TLS_PSK_WITH_AES_128_CBC_SHA256 => 174 |
    CS_TLS_PSK_WITH_AES_256_CBC_SHA384 => 175 | CS_TLS_PSK_WITH_NULL_SHA256 => 176 |
    CS_TLS_PSK_WITH_NULL_SHA384 => 177 | CS_TLS_DHE_PSK_WITH_AES_128_CBC_SHA256 => 178 |
    CS_TLS_DHE_PSK_WITH_AES_256_CBC_SHA384 => 179 | CS_TLS_DHE_PSK_WITH_NULL_SHA256 => 180 |
    CS_TLS_DHE_PSK_WITH_NULL_SHA384 => 181 | CS_TLS_RSA_PSK_WITH_AES_128_CBC_SHA256 => 182 |
    CS_TLS_RSA_PSK_WITH_AES_256_CBC_SHA384 => 183 | CS_TLS_RSA_PSK_WITH_NULL_SHA256 => 184 |
    CS_TLS_RSA_PSK_WITH_NULL_SHA384 => 185 | CS_TLS_RSA_WITH_CAMELLIA_128_CBC_SHA256 => 186 |
    CS_TLS_DH_DSS_WITH_CAMELLIA_128_CBC_SHA256 => 187 |
    CS_TLS_DH_RSA_WITH_CAMELLIA_128_CBC_SHA256 => 188 |
    CS_TLS_DHE_DSS_WITH_CAMELLIA_128_CBC_SHA256 => 189 |
    CS_TLS_DHE_RSA_WITH_CAMELLIA_128_CBC_SHA256 => 190 |
    CS_TLS_DH_anon_WITH_CAMELLIA_128_CBC_SHA256 => 191 |
    CS_TLS_RSA_WITH_CAMELLIA_256_CBC_SHA256 => 192 |
    CS_TLS_DH_DSS_WITH_CAMELLIA_256_CBC_SHA256 => 193 |
    CS_TLS_DH_RSA_WITH_CAMELLIA_256_CBC_SHA256 => 194 |
    CS_TLS_DHE_DSS_WITH_CAMELLIA_256_CBC_SHA256 => 195 |
    CS_TLS_DHE_RSA_WITH_CAMELLIA_256_CBC_SHA256 => 196 |
    CS_TLS_DH_anon_WITH_CAMELLIA_256_CBC_SHA256 => 197 |
    CS_TLS_EMPTY_RENEGOTIATION_INFO_SCSV => 255 | CS_TLS13_AES_128_GCM_SHA256 => 4865 |
    CS_TLS13_AES_256_GCM_SHA384 => 4866 | CS_TLS13_CHACHA20_POLY1305_SHA256 => 4867 |
    CS_TLS13_AES_128_CCM_SHA256 => 4868 | CS_TLS13_AES_128_CCM_8_SHA256 => 4869 |
    CS_TLS_ECDH_ECDSA_WITH_NULL_SHA => 49153 | CS_TLS_ECDH_ECDSA_WITH_RC4_128_SHA => 49154 |
    CS_TLS_ECDH_ECDSA_WITH_3DES_EDE_CBC_SHA => 49155 |
    CS_TLS_ECDH_ECDSA_WITH_AES_128_CBC_SHA => 49156 |
    CS_TLS_ECDH_ECDSA_WITH_AES_256_CBC_SHA => 49157 |
    CS_TLS_ECDHE_ECDSA_WITH_NULL_SHA => 49158 | CS_TLS_ECDHE_ECDSA_WITH_RC4_128_SHA => 49159 |
    CS_TLS_ECDHE_ECDSA_WITH_3DES_EDE_CBC_SHA => 49160 |
    CS_TLS_ECDHE_ECDSA_WITH_AES_128_CBC_SHA => 49161 |
    CS_TLS_ECDHE_ECDSA_WITH_AES_256_CBC_SHA => 49162 | CS_TLS_ECDH_RSA_WITH_NULL_SHA => 49163 |
    CS_TLS_ECDH_RSA_WITH_RC4_128_SHA => 49164 |
    CS_TLS_ECDH_RSA_WITH_3DES_EDE_CBC_SHA => 49165 |
    CS_TLS_ECDH_RSA_WITH_AES_128_CBC_SHA => 49166 |
    CS_TLS_ECDH_RSA_WITH_AES_256_CBC_SHA => 49167 | CS_TLS_ECDHE_RSA_WITH_NULL_SHA => 49168 |
    CS_TLS_ECDHE_RSA_WITH_RC4_128_SHA => 49169 |
    CS_TLS_ECDHE_RSA_WITH_3DES_EDE_CBC_SHA => 49170 |
    CS_TLS_ECDHE_RSA_WITH_AES_128_CBC_SHA => 49171 |
    CS_TLS_ECDHE_RSA_WITH_AES_256_CBC_SHA => 49172 | CS_TLS_ECDH_anon_WITH_NULL_SHA => 49173 |
    CS_TLS_ECDH_anon_WITH_RC4_128_SHA => 49174 |
    CS_TLS_ECDH_anon_WITH_3DES_EDE_CBC_SHA => 49175 |
    CS_TLS_ECDH_anon_WITH_AES_128_CBC_SHA => 49176 |
    CS_TLS_ECDH_anon_WITH_AES_256_CBC_SHA => 49177 |
    CS_TLS_SRP_SHA_WITH_3DES_EDE_CBC_SHA => 49178 |
    CS_TLS_SRP_SHA_RSA_WITH_3DES_EDE_CBC_SHA => 49179 |
    CS_TLS_SRP_SHA_DSS_WITH_3DES_EDE_CBC_SHA => 49180 |
    CS_TLS_SRP_SHA_WITH_AES_128_CBC_SHA => 49181 |
    CS_TLS_SRP_SHA_RSA_WITH_AES_128_CBC_SHA => 49182 |
    CS_TLS_SRP_SHA_DSS_WITH_AES_128_CBC_SHA => 49183 |
    CS_TLS_SRP_SHA_WITH_AES_256_CBC_SHA => 49184 |
    CS_TLS_SRP_SHA_RSA_WITH_AES_256_CBC_SHA => 49185 |
    CS_TLS_SRP_SHA_DSS_WITH_AES_256_CBC_SHA => 49186 |
    CS_TLS_ECDHE_ECDSA_WITH_AES_128_CBC_SHA256 => 49187 |
    CS_TLS_ECDHE_ECDSA_WITH_AES_256_CBC_SHA384 => 49188 |
    CS_TLS_ECDH_ECDSA_WITH_AES_128_CBC_SHA256 => 49189 |
    CS_TLS_ECDH_ECDSA_WITH_AES_256_CBC_SHA384 => 49190 |
    CS_TLS_ECDHE_RSA_WITH_AES_128_CBC_SHA256 => 49191 |
    CS_TLS_ECDHE_RSA_WITH_AES_256_CBC_SHA384 => 49192 |
    CS_TLS_ECDH_RSA_WITH_AES_128_CBC_SHA256 => 49193 |
    CS_TLS_ECDH_RSA_WITH_AES_256_CBC_SHA384 => 49194 |
    CS_TLS_ECDHE_ECDSA_WITH_AES_128_GCM_SHA256 => 49195 |
    CS_TLS_ECDHE_ECDSA_WITH_AES_256_GCM_SHA384 => 49196 |
    CS_TLS_ECDH_ECDSA_WITH_AES_128_GCM_SHA256 => 49197 |
    CS_TLS_ECDH_ECDSA_WITH_AES_256_GCM_SHA384 => 49198 |
    CS_TLS_ECDHE_RSA_WITH_AES_128_GCM_SHA256 => 49199 |
    CS_TLS_ECDHE_RSA_WITH_AES_256_GCM_SHA384 => 49200 |
    CS_TLS_ECDH_RSA_WITH_AES_128_GCM_SHA256 => 49201 |
    CS_TLS_ECDH_RSA_WITH_AES_256_GCM_SHA384 => 49202 |
    CS_TLS_ECDHE_PSK_WITH_RC4_128_SHA => 49203 |
    CS_TLS_ECDHE_PSK_WITH_3DES_EDE_CBC_SHA => 49204 |
    CS_TLS_ECDHE_PSK_WITH_AES_128_CBC_SHA => 49205 |
    CS_TLS_ECDHE_PSK_WITH_AES_256_CBC_SHA => 49206 |
    CS_TLS_ECDHE_PSK_WITH_AES_128_CBC_SHA256 => 49207 |
    CS_TLS_ECDHE_PSK_WITH_AES_256_CBC_SHA384 => 49208 |
    CS_TLS_ECDHE_PSK_WITH_NULL_SHA => 49209 | CS_TLS_ECDHE_PSK_WITH_NULL_SHA256 => 49210 |
    CS_TLS_ECDHE_PSK_WITH_NULL_SHA384 => 49211 | CS_TLS_RSA_WITH_ARIA_128_CBC_SHA256 => 49212 |
    CS_TLS_RSA_WITH_ARIA_256_CBC_SHA384 => 49213 |
    CS_TLS_DH_DSS_WITH_ARIA_128_CBC_SHA256 => 49214 |
    CS_TLS_DH_DSS_WITH_ARIA_256_CBC_SHA384 => 49215 |
    CS_TLS_DH_RSA_WITH_ARIA_128_CBC_SHA256 => 49216 |
    CS_TLS_DH_RSA_WITH_ARIA_256_CBC_SHA384 => 49217 |
    CS_TLS_DHE_DSS_WITH_ARIA_128_CBC_SHA256 => 49218 |
    CS_TLS_DHE_DSS_WITH_ARIA_256_CBC_SHA384 => 49219 |
    CS_TLS_DHE_RSA_WITH_ARIA_128_CBC_SHA256 => 49220 |
    CS_TLS_DHE_RSA_WITH_ARIA_256_CBC_SHA384 => 49221 |
    CS_TLS_DH_anon_WITH_ARIA_128_CBC_SHA256 => 49222 |
    CS_TLS_DH_anon_WITH_ARIA_256_CBC_SHA384 => 49223 |
    CS_TLS_ECDHE_ECDSA_WITH_ARIA_128_CBC_SHA256 => 49224 |
    CS_TLS_ECDHE_ECDSA_WITH_ARIA_256_CBC_SHA384 => 49225 |
    CS_TLS_ECDH_ECDSA_WITH_ARIA_128_CBC_SHA256 => 49226 |
    CS_TLS_ECDH_ECDSA_WITH_ARIA_256_CBC_SHA384 => 49227 |
    CS_TLS_ECDHE_RSA_WITH_ARIA_128_CBC_SHA256 => 49228 |
    CS_TLS_ECDHE_RSA_WITH_ARIA_256_CBC_SHA384 => 49229 |
    CS_TLS_ECDH_RSA_WITH_ARIA_128_CBC_SHA256 => 49230 |
    CS_TLS_ECDH_RSA_WITH_ARIA_256_CBC_SHA384 => 49231 |
    CS_TLS_RSA_WITH_ARIA_128_GCM_SHA256 => 49232 |
    CS_TLS_RSA_WITH_ARIA_256_GCM_SHA384 => 49233 |
    CS_TLS_DHE_RSA_WITH_ARIA_128_GCM_SHA256 => 49234 |
    CS_TLS_DHE_RSA_WITH_ARIA_256_GCM_SHA384 => 49235 |
    CS_TLS_DH_RSA_WITH_ARIA_128_GCM_SHA256 => 49236 |
    CS_TLS_DH_RSA_WITH_ARIA_256_GCM_SHA384 => 49237 |
    CS_TLS_DHE_DSS_WITH_ARIA_128_GCM_SHA256 => 49238 |
    CS_TLS_DHE_DSS_WITH_ARIA_256_GCM_SHA384 => 49239 |
    CS_TLS_DH_DSS_WITH_ARIA_128_GCM_SHA256 => 49240 |
    CS_TLS_DH_DSS_WITH_ARIA_256_GCM_SHA384 => 49241 |
    CS_TLS_DH_anon_WITH_ARIA_128_GCM_SHA256 => 49242 |
    CS_TLS_DH_anon_WITH_ARIA_256_GCM_SHA384 => 49243 |
    CS_TLS_ECDHE_ECDSA_WITH_ARIA_128_GCM_SHA256 => 49244 |
    CS_TLS_ECDHE_ECDSA_WITH_ARIA_256_GCM_SHA384 => 49245 |
    CS_TLS_ECDH_ECDSA_WITH_ARIA_128_GCM_SHA256 => 49246 |
    CS_TLS_ECDH_ECDSA_WITH_ARIA_256_GCM_SHA384 => 49247 |
    CS_TLS_ECDHE_RSA_WITH_ARIA_128_GCM_SHA256 => 49248 |
    CS_TLS_ECDHE_RSA_WITH_ARIA_256_GCM_SHA384 => 49249 |
    CS_TLS_ECDH_RSA_WITH_ARIA_128_GCM_SHA256 => 49250 |
    CS_TLS_ECDH_RSA_WITH_ARIA_256_GCM_SHA384 => 49251 |
    CS_TLS_PSK_WITH_ARIA_128_CBC_SHA256 => 49252 |
    CS_TLS_PSK_WITH_ARIA_256_CBC_SHA384 => 49253 |
    CS_TLS_DHE_PSK_WITH_ARIA_128_CBC_SHA256 => 49254 |
    CS_TLS_DHE_PSK_WITH_ARIA_256_CBC_SHA384 => 49255 |
    CS_TLS_RSA_PSK_WITH_ARIA_128_CBC_SHA256 => 49256 |
    CS_TLS_RSA_PSK_WITH_ARIA_256_CBC_SHA384 => 49257 |
    CS_TLS_PSK_WITH_ARIA_128_GCM_SHA256 => 49258 |
    CS_TLS_PSK_WITH_ARIA_256_GCM_SHA384 => 49259 |
    CS_TLS_DHE_PSK_WITH_ARIA_128_GCM_SHA256 => 49260 |
    CS_TLS_DHE_PSK_WITH_ARIA_256_GCM_SHA384 => 49261 |
    CS_TLS_RSA_PSK_WITH_ARIA_128_GCM_SHA256 => 49262 |
    CS_TLS_RSA_PSK_WITH_ARIA_256_GCM_SHA384 => 49263 |
    CS_TLS_ECDHE_PSK_WITH_ARIA_128_CBC_SHA256 => 49264 |
    CS_TLS_ECDHE_PSK_WITH_ARIA_256_CBC_SHA384 => 49265 |
    CS_TLS_ECDHE_ECDSA_WITH_CAMELLIA_128_CBC_SHA256 => 49266 |
    CS_TLS_ECDHE_ECDSA_WITH_CAMELLIA_256_CBC_SHA384 => 49267 |
    CS_TLS_ECDH_ECDSA_WITH_CAMELLIA_128_CBC_SHA256 => 49268 |
    CS_TLS_ECDH_ECDSA_WITH_CAMELLIA_256_CBC_SHA384 => 49269 |
    CS_TLS_ECDHE_RSA_WITH_CAMELLIA_128_CBC_SHA256 => 49270 |
    CS_TLS_ECDHE_RSA_WITH_CAMELLIA_256_CBC_SHA384 => 49271 |
    CS_TLS_ECDH_RSA_WITH_CAMELLIA_128_CBC_SHA256 => 49272 |
    CS_TLS_ECDH_RSA_WITH_CAMELLIA_256_CBC_SHA384 => 49273 |
    CS_TLS_RSA_WITH_CAMELLIA_128_GCM_SHA256 => 49274 |
    CS_TLS_RSA_WITH_CAMELLIA_256_GCM_SHA384 => 49275 |
    CS_TLS_DHE_RSA_WITH_CAMELLIA_128_GCM_SHA256 => 49276 |
    CS_TLS_DHE_RSA_WITH_CAMELLIA_256_GCM_SHA384 => 49277 |
    CS_TLS_DH_RSA_WITH_CAMELLIA_128_GCM_SHA256 => 49278 |
    CS_TLS_DH_RSA_WITH_CAMELLIA_256_GCM_SHA384 => 49279 |
    CS_TLS_DHE_DSS_WITH_CAMELLIA_128_GCM_SHA256 => 49280 |
    CS_TLS_DHE_DSS_WITH_CAMELLIA_256_GCM_SHA384 => 49281 |
    CS_TLS_DH_DSS_WITH_CAMELLIA_128_GCM_SHA256 => 49282 |
    CS_TLS_DH_DSS_WITH_CAMELLIA_256_GCM_SHA384 => 49283 |
    CS_TLS_DH_anon_WITH_CAMELLIA_128_GCM_SHA256 => 49284 |
    CS_TLS_DH_anon_WITH_CAMELLIA_256_GCM_SHA384 => 49285 |
    CS_TLS_ECDHE_ECDSA_WITH_CAMELLIA_128_GCM_SHA256 => 49286 |
    CS_TLS_ECDHE_ECDSA_WITH_CAMELLIA_256_GCM_SHA384 => 49287 |
    CS_TLS_ECDH_ECDSA_WITH_CAMELLIA_128_GCM_SHA256 => 49288 |
    CS_TLS_ECDH_ECDSA_WITH_CAMELLIA_256_GCM_SHA384 => 49289 |
    CS_TLS_ECDHE_RSA_WITH_CAMELLIA_128_GCM_SHA256 => 49290 |
    CS_TLS_ECDHE_RSA_WITH_CAMELLIA_256_GCM_SHA384 => 49291 |
    CS_TLS_ECDH_RSA_WITH_CAMELLIA_128_GCM_SHA256 => 49292 |
    CS_TLS_ECDH_RSA_WITH_CAMELLIA_256_GCM_SHA384 => 49293 |
    CS_TLS_PSK_WITH_CAMELLIA_128_GCM_SHA256 => 49294 |
    CS_TLS_PSK_WITH_CAMELLIA_256_GCM_SHA384 => 49295 |
    CS_TLS_DHE_PSK_WITH_CAMELLIA_128_GCM_SHA256 => 49296 |
    CS_TLS_DHE_PSK_WITH_CAMELLIA_256_GCM_SHA384 => 49297 |
    CS_TLS_RSA_PSK_WITH_CAMELLIA_128_GCM_SHA256 => 49298 |
    CS_TLS_RSA_PSK_WITH_CAMELLIA_256_GCM_SHA384 => 49299 |
    CS_TLS_PSK_WITH_CAMELLIA_128_CBC_SHA256 => 49300 |
    CS_TLS_PSK_WITH_CAMELLIA_256_CBC_SHA384 => 49301 |
    CS_TLS_DHE_PSK_WITH_CAMELLIA_128_CBC_SHA256 => 49302 |
    CS_TLS_DHE_PSK_WITH_CAMELLIA_256_CBC_SHA384 => 49303 |
    CS_TLS_RSA_PSK_WITH_CAMELLIA_128_CBC_SHA256 => 49304 |
    CS_TLS_RSA_PSK_WITH_CAMELLIA_256_CBC_SHA384 => 49305 |
    CS_TLS_ECDHE_PSK_WITH_CAMELLIA_128_CBC_SHA256 => 49306 |
    CS_TLS_ECDHE_PSK_WITH_CAMELLIA_256_CBC_SHA384 => 49307 |
    CS_TLS_RSA_WITH_AES_128_CCM => 49308 | CS_TLS_RSA_WITH_AES_256_CCM => 49309 |
    CS_TLS_DHE_RSA_WITH_AES_128_CCM => 49310 | CS_TLS_DHE_RSA_WITH_AES_256_CCM => 49311 |
    CS_TLS_RSA_WITH_AES_128_CCM_8 => 49312 | CS_TLS_RSA_WITH_AES_256_CCM_8 => 49313 |
    CS_TLS_DHE_RSA_WITH_AES_128_CCM_8 => 49314 | CS_TLS_DHE_RSA_WITH_AES_256_CCM_8 => 49315 |
    CS_TLS_PSK_WITH_AES_128_CCM => 49316 | CS_TLS_PSK_WITH_AES_256_CCM => 49317 |
    CS_TLS_DHE_PSK_WITH_AES_128_CCM => 49318 | CS_TLS_DHE_PSK_WITH_AES_256_CCM => 49319 |
    CS_TLS_PSK_WITH_AES_128_CCM_8 => 49320 | CS_TLS_PSK_WITH_AES_256_CCM_8 => 49321 |
    CS_TLS_PSK_DHE_WITH_AES_128_CCM_8 => 49322 | CS_TLS_PSK_DHE_WITH_AES_256_CCM_8 => 49323 |
    CS_TLS_ECDHE_ECDSA_WITH_AES_128_CCM => 49324 |
    CS_TLS_ECDHE_ECDSA_WITH_AES_256_CCM => 49325 |
    CS_TLS_ECDHE_ECDSA_WITH_AES_128_CCM_8 => 49326 |
    CS_TLS_ECDHE_ECDSA_WITH_AES_256_CCM_8 => 49327 |
    CS_TLS_ECDHE_RSA_WITH_CHACHA20_POLY1305_SHA256 => 52392 |
    CS_TLS_ECDHE_ECDSA_WITH_CHACHA20_POLY1305_SHA256 => 52393 |
    CS_TLS_DHE_RSA_WITH_CHACHA20_POLY1305_SHA256 => 52394 |
    CS_TLS_PSK_WITH_CHACHA20_POLY1305_SHA256 => 52395 |
    CS_TLS_ECDHE_PSK_WITH_CHACHA20_POLY1305_SHA256 => 52396 |
    CS_TLS_DHE_PSK_WITH_CHACHA20_POLY1305_SHA256 => 52397 |
    CS_TLS_RSA_PSK_WITH_CHACHA20_POLY1305_SHA256 => 52398 |
    CS_SSL_RSA_FIPS_WITH_DES_CBC_SHA => 65278 |
    CS_SSL_RSA_FIPS_WITH_3DES_EDE_CBC_SHA => 65279 | CS_Unknown x => x
    end;
  enum_known :=
    [CS_TLS_NULL_WITH_NULL_NULL; CS_TLS_RSA_WITH_NULL_MD5; CS_TLS_RSA_WITH_NULL_SHA;
     CS_TLS_RSA_EXPORT_WITH_RC4_40_MD5; CS_TLS_RSA_WITH_RC4_128_MD5;
     CS_TLS_RSA_WITH_RC4_128_SHA; CS_TLS_RSA_EXPORT_WITH_RC2_CBC_40_MD5;
     CS_TLS_RSA_WITH_IDEA_CBC_SHA; CS_TLS_RSA_EXPORT_WITH_DES40_CBC_SHA;
     CS_TLS_RSA_WITH_DES_CBC_SHA; CS_TLS_RSA_WITH_3DES_EDE_CBC_SHA;
     CS_TLS_DH_DSS_EXPORT_WITH_DES40_CBC_SHA; CS_TLS_DH_DSS_WITH_DES_CBC_SHA;
     CS_TLS_DH_DSS_WITH_3DES_EDE_CBC_SHA; CS_TLS_DH_RSA_EXPORT_WITH_DES40_CBC_SHA;
     CS_TLS_DH_RSA_WITH_DES_CBC_SHA; CS_TLS_DH_RSA_WITH_3DES_EDE_CBC_SHA;
     CS_TLS_DHE_DSS_EXPORT_WITH_DES40_CBC_SHA; CS_TLS_DHE_DSS_WITH_DES_CBC_SHA;
     CS_TLS_DHE_DSS_WITH_3DES_EDE_CBC_SHA; CS_TLS_DHE_RSA_EXPORT_WITH_DES40_CBC_SHA;
     CS_TLS_DHE_RSA_WITH_DES_CBC_SHA; CS_TLS_DHE_RSA_WITH_3DES_EDE_CBC_SHA;
     CS_TLS_DH_anon_EXPORT_WITH_RC4_40_MD5; CS_TLS_DH_anon_WITH_RC4_128_MD5;
     CS_TLS_DH_anon_EXPORT_WITH_DES40_CBC_SHA; CS_TLS_DH_anon_WITH_DES_CBC_SHA;
     CS_TLS_DH_anon_WITH_3DES_EDE_CBC_SHA; CS_SSL_FORTEZZA_KEA_WITH_NULL_SHA;
     CS_SSL_FORTEZZA_KEA_WITH_FORTEZZA_CBC_SHA;
     CS_TLS_KRB5_WITH_DES_CBC_SHA_or_SSL_FORTEZZA_KEA_WITH_RC4_128_SHA;
     CS_TLS_KRB5_WITH_3DES_EDE_CBC_SHA; CS_TLS_KRB5_WITH_RC4_128_SHA;
     CS_TLS_KRB5_WITH_IDEA_CBC_SHA; CS_TLS_KRB5_WITH_DES_CBC_MD5;
     CS_TLS_KRB5_WITH_3DES_EDE_CBC_MD5; CS_TLS_KRB5_WITH_RC4_128_MD5;
     CS_TLS_KRB5_WITH_IDEA_CBC_MD5; CS_TLS_KRB5_EXPORT_WITH_DES_CBC_40_SHA;
     CS_TLS_KRB5_EXPORT_WITH_RC2_CBC_40_SHA; CS_TLS_KRB5_EXPORT_WITH_RC4_40_SHA;
     CS_TLS_KRB5_EXPORT_WITH_DES_CBC_40_MD5; CS_TLS_KRB5_EXPORT_WITH_RC2_CBC_40_MD5;
     CS_TLS_KRB5_EXPORT_WITH_RC4_40_MD5; CS_TLS_PSK_WITH_NULL_SHA;
     CS_TLS_DHE_PSK_WITH_NULL_SHA; CS_TLS_RSA_PSK_WITH_NULL_SHA;
     CS_TLS_RSA_WITH_AES_128_CBC_SHA; CS_TLS_DH_DSS_WITH_AES_128_CBC_SHA;
     CS_TLS_DH_RSA_WITH_AES_128_CBC_SHA; CS_TLS_DHE_DSS_WITH_AES_128_CBC_SHA;
     CS_TLS_DHE_RSA_WITH_AES_128_CBC_SHA; CS_TLS_DH_anon_WITH_AES_128_CBC_SHA;
     CS_TLS_RSA_WITH_AES_256_CBC_SHA; CS_TLS_DH_DSS_WITH_AES_256_CBC_SHA;
     CS_TLS_DH_RSA_WITH_AES_256_CBC_SHA; CS_TLS_DHE_DSS_WITH_AES_256_CBC_SHA;
     CS_TLS_DHE_RSA_WITH_AES_256_CBC_SHA; CS_TLS_DH_anon_WITH_AES_256_CBC_SHA;
     CS_TLS_RSA_WITH_NULL_SHA256; CS_TLS_RSA_WITH_AES_128_CBC_SHA256;
     CS_TLS_RSA_WITH_AES_256_CBC_SHA256; CS_TLS_DH_DSS_WITH_AES_128_CBC_SHA256;
     CS_TLS_DH_RSA_WITH_AES_128_CBC_SHA256; CS_TLS_DHE_DSS_WITH_AES_128_CBC_SHA256;
     CS_TLS_RSA_WITH_CAMELLIA_128_CBC_SHA; CS_TLS_DH_DSS_WITH_CAMELLIA_128_CBC_SHA;
     CS_TLS_DH_RSA_WITH_CAMELLIA_128_CBC_SHA; CS_TLS_DHE_DSS_WITH_CAMELLIA_128_CBC_SHA;
     CS_TLS_DHE_RSA_WITH_CAMELLIA_128_CBC_SHA; CS_TLS_DH_anon_WITH_CAMELLIA_128_CBC_SHA;
     CS_TLS_ECDH_ECDSA_WITH_NULL_SHA_draft; CS_TLS_ECDH_ECDSA_WITH_RC4_128_SHA_draft;
     CS_TLS_ECDH_ECDSA_WITH_DES_CBC_SHA_draft; CS_TLS_ECDH_ECDSA_WITH_3DES_EDE_CBC_SHA_draft;
     CS_TLS_ECDH_ECDSA_WITH_AES_128_CBC_SHA_draft;
     CS_TLS_ECDH_ECDSA_WITH_AES_256_CBC_SHA_draft; CS_TLS_ECDH_ECNRA_WITH_DES_CBC_SHA_draft;
     CS_TLS_ECDH_ECNRA_WITH_3DES_EDE_CBC_SHA_draft; CS_TLS_ECMQV_ECDSA_NULL_SHA_draft;
     CS_TLS_ECMQV_ECDSA_WITH_RC4_128_SHA_draft; CS_TLS_ECMQV_ECDSA_WITH_DES_CBC_SHA_draft;
     CS_TLS_ECMQV_ECDSA_WITH_3DES_EDE_CBC_SHA_draft; CS_TLS_ECMQV_ECNRA_NULL_SHA_draft;
     CS_TLS_ECMQV_ECNRA_WITH_RC4_128_SHA_draft; CS_TLS_ECMQV_ECNRA_WITH_DES_CBC_SHA_draft;
     CS_TLS_ECMQV_ECNRA_WITH_3DES_EDE_CBC_SHA_draft; CS_TLS_ECDH_anon_NULL_WITH_SHA_draft;
     CS_TLS_ECDH_anon_WITH_RC4_128_SHA_draft; CS_TLS_ECDH_anon_WITH_DES_CBC_SHA_draft;
     CS_TLS_ECDH_anon_WITH_3DES_EDE_CBC_SHA_draft;
     CS_TLS_ECDH_anon_EXPORT_WITH_DES40_CBC_SHA_draft;
     CS_TLS_ECDH_anon_EXPORT_WITH_RC4_40_SHA_draft; CS_TLS_RSA_EXPORT1024_WITH_RC4_56_MD5;
     CS_TLS_RSA_EXPORT1024_WITH_RC2_CBC_56_MD5; CS_TLS_RSA_EXPORT1024_WITH_DES_CBC_SHA;
     CS_TLS_DHE_DSS_EXPORT1024_WITH_DES_CBC_SHA; CS_TLS_RSA_EXPORT1024_WITH_RC4_56_SHA;
     CS_TLS_DHE_DSS_EXPORT1024_WITH_RC4_56_SHA; CS_TLS_DHE_DSS_WITH_RC4_128_SHA;
     CS_TLS_DHE_RSA_WITH_AES_128_CBC_SHA256; CS_TLS_DH_DSS_WITH_AES_256_CBC_SHA256;
     CS_TLS_DH_RSA_WITH_AES_256_CBC_SHA256; CS_TLS_DHE_DSS_WITH_AES_256_CBC_SHA256;
     CS_TLS_DHE_RSA_WITH_AES_256_CBC_SHA256; CS_TLS_DH_anon_WITH_AES_128_CBC_SHA256;
     CS_TLS_DH_anon_WITH_AES_256_CBC_SHA256; CS_TLS_DHE_DSS_WITH_3DES_EDE_CBC_RMD;
     CS_TLS_DHE_DSS_WITH_AES_128_CBC_RMD; CS_TLS_DHE_DSS_WITH_AES_256_CBC_RMD;
     CS_TLS_DHE_RSA_WITH_3DES_EDE_CBC_RMD; CS_TLS_DHE_RSA_WITH_AES_128_CBC_RMD;
     CS_TLS_DHE_RSA_WITH_AES_256_CBC_RMD; CS_TLS_RSA_WITH_3DES_EDE_CBC_RMD;
     CS_TLS_RSA_WITH_AES_128_CBC_RMD; CS_TLS_RSA_WITH_AES_256_CBC_RMD;
     CS_TLS_GOSTR341094_WITH_28147_CNT_IMIT; CS_TLS_GOSTR341001_WITH_28147_CNT_IMIT;
     CS_TLS_GOSTR341094_WITH_NULL_GOSTR3411; CS_TLS_GOSTR341001_WITH_NULL_GOSTR3411;
     CS_TLS_RSA_WITH_CAMELLIA_256_CBC_SHA; CS_TLS_DH_DSS_WITH_CAMELLIA_256_CBC_SHA;
     CS_TLS_DH_RSA_WITH_CAMELLIA_256_CBC_SHA; CS_TLS_DHE_DSS_WITH_CAMELLIA_256_CBC_SHA;
     CS_TLS_DHE_RSA_WITH_CAMELLIA_256_CBC_SHA; CS_TLS_DH_anon_WITH_CAMELLIA_256_CBC_SHA;
     CS_TLS_PSK_WITH_RC4_128_SHA; CS_TLS_PSK_WITH_3DES_EDE_CBC_SHA;
     CS_TLS_PSK_WITH_AES_128_CBC_SHA; CS_TLS_PSK_WITH_AES_256_CBC_SHA;
     CS_TLS_DHE_PSK_WITH_RC4_128_SHA; CS_TLS_DHE_PSK_WITH_3DES_EDE_CBC_SHA;
     CS_TLS_DHE_PSK_WITH_AES_128_CBC_SHA; CS_TLS_DHE_PSK_WITH_AES_256_CBC_SHA;
     CS_TLS_RSA_PSK_WITH_RC4_128_SHA; CS_TLS_RSA_PSK_WITH_3DES_EDE_CBC_SHA;
     CS_TLS_RSA_PSK_WITH_AES_128_CBC_SHA; CS_TLS_RSA_PSK_WITH_AES_256_CBC_SHA;
     CS_TLS_RSA_WITH_SEED_CBC_SHA; CS_TLS_DH_DSS_WITH_SEED_CBC_SHA;
     CS_TLS_DH_RSA_WITH_SEED_CBC_SHA; CS_TLS_DHE_DSS_WITH_SEED_CBC_SHA;
     CS_TLS_DHE_RSA_WITH_SEED_CBC_SHA; CS_TLS_DH_anon_WITH_SEED_CBC_SHA;
     CS_TLS_RSA_WITH_AES_128_GCM_SHA256; CS_TLS_RSA_WITH_AES_256_GCM_SHA384;
     CS_TLS_DHE_RSA_WITH_AES_128_GCM_SHA256; CS_TLS_DHE_RSA_WITH_AES_256_GCM_SHA384;
     CS_TLS_DH_RSA_WITH_AES_128_GCM_SHA256; CS_TLS_DH_RSA_WITH_AES_256_GCM_SHA384;
     CS_TLS_DHE_DSS_WITH_AES_128_GCM_SHA256; CS_TLS_DHE_DSS_WITH_AES_256_GCM_SHA384;
     CS_TLS_DH_DSS_WITH_AES_128_GCM_SHA256; CS_TLS_DH_DSS_WITH_AES_256_GCM_SHA384;
     CS_TLS_DH_anon_WITH_AES_128_GCM_SHA256; CS_TLS_DH_anon_WITH_AES_256_GCM_SHA384;
     CS_TLS_PSK_WITH_AES_128_GCM_SHA256; CS_TLS_PSK_WITH_AES_256_GCM_SHA384;
     CS_TLS_DHE_PSK_WITH_AES_128_GCM_SHA256; CS_TLS_DHE_PSK_WITH_AES_256_GCM_SHA384;
     CS_TLS_RSA_PSK_WITH_AES_128_GCM_SHA256; CS_TLS_RSA_PSK_WITH_AES_256_GCM_SHA384;
     CS_TLS_PSK_WITH_AES_128_CBC_SHA256; CS_TLS_PSK_WITH_AES_256_CBC_SHA384;
     CS_TLS_PSK_WITH_NULL_SHA256; CS_TLS_PSK_WITH_NULL_SHA384;
     CS_TLS_DHE_PSK_WITH_AES_128_CBC_SHA256; CS_TLS_DHE_PSK_WITH_AES_256_CBC_SHA384;
     CS_TLS_DHE_PSK_WITH_NULL_SHA256; CS_TLS_DHE_PSK_WITH_NULL_SHA384;
     CS_TLS_RSA_PSK_WITH_AES_128_CBC_SHA256; CS_TLS_RSA_PSK_WITH_AES_256_CBC_SHA384;
     CS_TLS_RSA_PSK_WITH_NULL_SHA256; CS_TLS_RSA_PSK_WITH_NULL_SHA384;
     CS_TLS_RSA_WITH_CAMELLIA_128_CBC_SHA256; CS_TLS_DH_DSS_WITH_CAMELLIA_128_CBC_SHA256;
     CS_TLS_DH_RSA_WITH_CAMELLIA_128_CBC_SHA256; CS_TLS_DHE_DSS_WITH_CAMELLIA_128_CBC_SHA256;
     CS_TLS_DHE_RSA_WITH_CAMELLIA_128_CBC_SHA256; CS_TLS_DH_anon_WITH_CAMELLIA_128_CBC_SHA256;
     CS_TLS_RSA_WITH_CAMELLIA_256_CBC_SHA256; CS_TLS_DH_DSS_WITH_CAMELLIA_256_CBC_SHA256;
     CS_TLS_DH_RSA_WITH_CAMELLIA_256_CBC_SHA256; CS_TLS_DHE_DSS_WITH_CAMELLIA_256_CBC_SHA256;
     CS_TLS_DHE_RSA_WITH_CAMELLIA_256_CBC_SHA256; CS_TLS_DH_anon_WITH_CAMELLIA_256_CBC_SHA256;
     CS_TLS_EMPTY_RENEGOTIATION_INFO_SCSV; CS_TLS13_AES_128_GCM_SHA256;
     CS_TLS13_AES_256_GCM_SHA384; CS_TLS13_CHACHA20_POLY1305_SHA256;
     CS_TLS13_AES_128_CCM_SHA256; CS_TLS13_AES_128_CCM_8_SHA256;
     CS_TLS_ECDH_ECDSA_WITH_NULL_SHA; CS_TLS_ECDH_ECDSA_WITH_RC4_128_SHA;
     CS_TLS_ECDH_ECDSA_WITH_3DES_EDE_CBC_SHA; CS_TLS_ECDH_ECDSA_WITH_AES_128_CBC_SHA;
     CS_TLS_ECDH_ECDSA_WITH_AES_256_CBC_SHA; CS_TLS_ECDHE_ECDSA_WITH_NULL_SHA;
     CS_TLS_ECDHE_ECDSA_WITH_RC4_128_SHA; CS_TLS_ECDHE_ECDSA_WITH_3DES_EDE_CBC_SHA;
     CS_TLS_ECDHE_ECDSA_WITH_AES_128_CBC_SHA; CS_TLS_ECDHE_ECDSA_WITH_AES_256_CBC_SHA;
     CS_TLS_ECDH_RSA_WITH_NULL_SHA; CS_TLS_ECDH_RSA_WITH_RC4_128_SHA;
     CS_TLS_ECDH_RSA_WITH_3DES_EDE_CBC_SHA; CS_TLS_ECDH_RSA_WITH_AES_128_CBC_SHA;
     CS_TLS_ECDH_RSA_WITH_AES_256_CBC_SHA; CS_TLS_ECDHE_RSA_WITH_NULL_SHA;
     CS_TLS_ECDHE_RSA_WITH_RC4_128_SHA; CS_TLS_ECDHE_RSA_WITH_3DES_EDE_CBC_SHA;
     CS_TLS_ECDHE_RSA_WITH_AES_128_CBC_SHA; CS_TLS_ECDHE_RSA_WITH_AES_256_CBC_SHA;
     CS_TLS_ECDH_anon_WITH_NULL_SHA; CS_TLS_ECDH_anon_WITH_RC4_128_SHA;
     CS_TLS_ECDH_anon_WITH_3DES_EDE_CBC_SHA; CS_TLS_ECDH_anon_WITH_AES_128_CBC_SHA;
     CS_TLS_ECDH_anon_WITH_AES_256_CBC_SHA; CS_TLS_SRP_SHA_WITH_3DES_EDE_CBC_SHA;
     CS_TLS_SRP_SHA_RSA_WITH_3DES_EDE_CBC_SHA; CS_TLS_SRP_SHA_DSS_WITH_3DES_EDE_CBC_SHA;
     CS_TLS_SRP_SHA_WITH_AES_128_CBC_SHA; CS_TLS_SRP_SHA_RSA_WITH_AES_128_CBC_SHA;
     CS_TLS_SRP_SHA_DSS_WITH_AES_128_CBC_SHA; CS_TLS_SRP_SHA_WITH_AES_256_CBC_SHA;
     CS_TLS_SRP_SHA_RSA_WITH_AES_256_CBC_SHA; CS_TLS_SRP_SHA_DSS_WITH_AES_256_CBC_SHA;
     CS_TLS_ECDHE_ECDSA_WITH_AES_128_CBC_SHA256; CS_TLS_ECDHE_ECDSA_WITH_AES_256_CBC_SHA384;
     CS_TLS_ECDH_ECDSA_WITH_AES_128_CBC_SHA256; CS_TLS_ECDH_ECDSA_WITH_AES_256_CBC_SHA384;
     CS_TLS_ECDHE_RSA_WITH_AES_128_CBC_SHA256; CS_TLS_ECDHE_RSA_WITH_AES_256_CBC_SHA384;
     CS_TLS_ECDH_RSA_WITH_AES_128_CBC_SHA256; CS_TLS_ECDH_RSA_WITH_AES_256_CBC_SHA384;
     CS_TLS_ECDHE_ECDSA_WITH_AES_128_GCM_SHA256; CS_TLS_ECDHE_ECDSA_WITH_AES_256_GCM_SHA384;
     CS_TLS_ECDH_ECDSA_WITH_AES_128_GCM_SHA256; CS_TLS_ECDH_ECDSA_WITH_AES_256_GCM_SHA384;
     CS_TLS_ECDHE_RSA_WITH_AES_128_GCM_SHA256; CS_TLS_ECDHE_RSA_WITH_AES_256_GCM_SHA384;
     CS_TLS_ECDH_RSA_WITH_AES_128_GCM_SHA256; CS_TLS_ECDH_RSA_WITH_AES_256_GCM_SHA384;
     CS_TLS_ECDHE_PSK_WITH_RC4_128_SHA; CS_TLS_ECDHE_PSK_WITH_3DES_EDE_CBC_SHA;
     CS_TLS_ECDHE_PSK_WITH_AES_128_CBC_SHA; CS_TLS_ECDHE_PSK_WITH_AES_256_CBC_SHA;
     CS_TLS_ECDHE_PSK_WITH_AES_128_CBC_SHA256; CS_TLS_ECDHE_PSK_WITH_AES_256_CBC_SHA384;
     CS_TLS_ECDHE_PSK_WITH_NULL_SHA; CS_TLS_ECDHE_PSK_WITH_NULL_SHA256;
     CS_TLS_ECDHE_PSK_WITH_NULL_SHA384; CS_TLS_RSA_WITH_ARIA_128_CBC_SHA256;
     CS_TLS_RSA_WITH_ARIA_256_CBC_SHA384; CS_TLS_DH_DSS_WITH_ARIA_128_CBC_SHA256;
     CS_TLS_DH_DSS_WITH_ARIA_256_CBC_SHA384; CS_TLS_DH_RSA_WITH_ARIA_128_CBC_SHA256;
     CS_TLS_DH_RSA_WITH_ARIA_256_CBC_SHA384; CS_TLS_DHE_DSS_WITH_ARIA_128_CBC_SHA256;
     CS_TLS_DHE_DSS_WITH_ARIA_256_CBC_SHA384; CS_TLS_DHE_RSA_WITH_ARIA_128_CBC_SHA256;
     CS_TLS_DHE_RSA_WITH_ARIA_256_CBC_SHA384; CS_TLS_DH_anon_WITH_ARIA_128_CBC_SHA256;
     CS_TLS_DH_anon_WITH_ARIA_256_CBC_SHA384; CS_TLS_ECDHE_ECDSA_WITH_ARIA_128_CBC_SHA256;
     CS_TLS_ECDHE_ECDSA_WITH_ARIA_256_CBC_SHA384; CS_TLS_ECDH_ECDSA_WITH_ARIA_128_CBC_SHA256;
     CS_TLS_ECDH_ECDSA_WITH_ARIA_256_CBC_SHA384; CS_TLS_ECDHE_RSA_WITH_ARIA_128_CBC_SHA256;
     CS_TLS_ECDHE_RSA_WITH_ARIA_256_CBC_SHA384; CS_TLS_ECDH_RSA_WITH_ARIA_128_CBC_SHA256;
     CS_TLS_ECDH_RSA_WITH_ARIA_256_CBC_SHA384; CS_TLS_RSA_WITH_ARIA_128_GCM_SHA256;
     CS_TLS_RSA_WITH_ARIA_256_GCM_SHA384; CS_TLS_DHE_RSA_WITH_ARIA_128_GCM_SHA256;
     CS_TLS_DHE_RSA_WITH_ARIA_256_GCM_SHA384; CS_TLS_DH_RSA_WITH_ARIA_128_GCM_SHA256;
     CS_TLS_DH_RSA_WITH_ARIA_256_GCM_SHA384; CS_TLS_DHE_DSS_WITH_ARIA_128_GCM_SHA256;
     CS_TLS_DHE_DSS_WITH_ARIA_256_GCM_SHA384; CS_TLS_DH_DSS_WITH_ARIA_128_GCM_SHA256;
     CS_TLS_DH_DSS_WITH_ARIA_256_GCM_SHA384; CS_TLS_DH_anon_WITH_ARIA_128_GCM_SHA256;
     CS_TLS_DH_anon_WITH_ARIA_256_GCM_SHA384; CS_TLS_ECDHE_ECDSA_WITH_ARIA_128_GCM_SHA256;
     CS_TLS_ECDHE_ECDSA_WITH_ARIA_256_GCM_SHA384; CS_TLS_ECDH_ECDSA_WITH_ARIA_128_GCM_SHA256;
     CS_TLS_ECDH_ECDSA_WITH_ARIA_256_GCM_SHA384; CS_TLS_ECDHE_RSA_WITH_ARIA_128_GCM_SHA256;
     CS_TLS_ECDHE_RSA_WITH_ARIA_256_GCM_SHA384; CS_TLS_ECDH_RSA_WITH_ARIA_128_GCM_SHA256;
     CS_TLS_ECDH_RSA_WITH_ARIA_256_GCM_SHA384; CS_TLS_PSK_WITH_ARIA_128_CBC_SHA256;
     CS_TLS_PSK_WITH_ARIA_256_CBC_SHA384; CS_TLS_DHE_PSK_WITH_ARIA_128_CBC_SHA256;
     CS_TLS_DHE_PSK_WITH_ARIA_256_CBC_SHA384; CS_TLS_RSA_PSK_WITH_ARIA_128_CBC_SHA256;
     CS_TLS_RSA_PSK_WITH_ARIA_256_CBC_SHA384; CS_TLS_PSK_WITH_ARIA_128_GCM_SHA256;
     CS_TLS_PSK_WITH_ARIA_256_GCM_SHA384; CS_TLS_DHE_PSK_WITH_ARIA_128_GCM_SHA256;
     CS_TLS_DHE_PSK_WITH_ARIA_256_GCM_SHA384; CS_TLS_RSA_PSK_WITH_ARIA_128_GCM_SHA256;
     CS_TLS_RSA_PSK_WITH_ARIA_256_GCM_SHA384; CS_TLS_ECDHE_PSK_WITH_ARIA_128_CBC_SHA256;
     CS_TLS_ECDHE_PSK_WITH_ARIA_256_CBC_SHA384;
     CS_TLS_ECDHE_ECDSA_WITH_CAMELLIA_128_CBC_SHA256;
     CS_TLS_ECDHE_ECDSA_WITH_CAMELLIA_256_CBC_SHA384;
     CS_TLS_ECDH_ECDSA_WITH_CAMELLIA_128_CBC_SHA256;
     CS_TLS_ECDH_ECDSA_WITH_CAMELLIA_256_CBC_SHA384;
     CS_TLS_ECDHE_RSA_WITH_CAMELLIA_128_CBC_SHA256;
     CS_TLS_ECDHE_RSA_WITH_CAMELLIA_256_CBC_SHA384;
     CS_TLS_ECDH_RSA_WITH_CAMELLIA_128_CBC_SHA256;
     CS_TLS_ECDH_RSA_WITH_CAMELLIA_256_CBC_SHA384; CS_TLS_RSA_WITH_CAMELLIA_128_GCM_SHA256;
     CS_TLS_RSA_WITH_CAMELLIA_256_GCM_SHA384; CS_TLS_DHE_RSA_WITH_CAMELLIA_128_GCM_SHA256;
     CS_TLS_DHE_RSA_WITH_CAMELLIA_256_GCM_SHA384; CS_TLS_DH_RSA_WITH_CAMELLIA_128_GCM_SHA256;
     CS_TLS_DH_RSA_WITH_CAMELLIA_256_GCM_SHA384; CS_TLS_DHE_DSS_WITH_CAMELLIA_128_GCM_SHA256;
     CS_TLS_DHE_DSS_WITH_CAMELLIA_256_GCM_SHA384; CS_TLS_DH_DSS_WITH_CAMELLIA_128_GCM_SHA256;
     CS_TLS_DH_DSS_WITH_CAMELLIA_256_GCM_SHA384; CS_TLS_DH_anon_WITH_CAMELLIA_128_GCM_SHA256;
     CS_TLS_DH_anon_WITH_CAMELLIA_256_GCM_SHA384;
     CS_TLS_ECDHE_ECDSA_WITH_CAMELLIA_128_GCM_SHA256;
     CS_TLS_ECDHE_ECDSA_WITH_CAMELLIA_256_GCM_SHA384;
     CS_TLS_ECDH_ECDSA_WITH_CAMELLIA_128_GCM_SHA256;
     CS_TLS_ECDH_ECDSA_WITH_CAMELLIA_256_GCM_SHA384;
     CS_TLS_ECDHE_RSA_WITH_CAMELLIA_128_GCM_SHA256;
     CS_TLS_ECDHE_RSA_WITH_CAMELLIA_256_GCM_SHA384;
     CS_TLS_ECDH_RSA_WITH_CAMELLIA_128_GCM_SHA256;
     CS_TLS_ECDH_RSA_WITH_CAMELLIA_256_GCM_SHA384; CS_TLS_PSK_WITH_CAMELLIA_128_GCM_SHA256;
     CS_TLS_PSK_WITH_CAMELLIA_256_GCM_SHA384; CS_TLS_DHE_PSK_WITH_CAMELLIA_128_GCM_SHA256;
     CS_TLS_DHE_PSK_WITH_CAMELLIA_256_GCM_SHA384; CS_TLS_RSA_PSK_WITH_CAMELLIA_128_GCM_SHA256;
     CS_TLS_RSA_PSK_WITH_CAMELLIA_256_GCM_SHA384; CS_TLS_PSK_WITH_CAMELLIA_128_CBC_SHA256;
     CS_TLS_PSK_WITH_CAMELLIA_256_CBC_SHA384; CS_TLS_DHE_PSK_WITH_CAMELLIA_128_CBC_SHA256;
     CS_TLS_DHE_PSK_WITH_CAMELLIA_256_CBC_SHA384; CS_TLS_RSA_PSK_WITH_CAMELLIA_128_CBC_SHA256;
     CS_TLS_RSA_PSK_WITH_CAMELLIA_256_CBC_SHA384;
     CS_TLS_ECDHE_PSK_WITH_CAMELLIA_128_CBC_SHA256;
     CS_TLS_ECDHE_PSK_WITH_CAMELLIA_256_CBC_SHA384; CS_TLS_RSA_WITH_AES_128_CCM;
     CS_TLS_RSA_WITH_AES_256_CCM; CS_TLS_DHE_RSA_WITH_AES_128_CCM;
     CS_TLS_DHE_RSA_WITH_AES_256_CCM; CS_TLS_RSA_WITH_AES_128_CCM_8;
     CS_TLS_RSA_WITH_AES_256_CCM_8; CS_TLS_DHE_RSA_WITH_AES_128_CCM_8;
     CS_TLS_DHE_RSA_WITH_AES_256_CCM_8; CS_TLS_PSK_WITH_AES_128_CCM;
     CS_TLS_PSK_WITH_AES_256_CCM; CS_TLS_DHE_PSK_WITH_AES_128_CCM;
     CS_TLS_DHE_PSK_WITH_AES_256_CCM; CS_TLS_PSK_WITH_AES_128_CCM_8;
     CS_TLS_PSK_WITH_AES_256_CCM_8; CS_TLS_PSK_DHE_WITH_AES_128_CCM_8;
     CS_TLS_PSK_DHE_WITH_AES_256_CCM_8; CS_TLS_ECDHE_ECDSA_WITH_AES_128_CCM;
     CS_TLS_ECDHE_ECDSA_WITH_AES_256_CCM; CS_TLS_ECDHE_ECDSA_WITH_AES_128_CCM_8;
     CS_TLS_ECDHE_ECDSA_WITH_AES_256_CCM_8; CS_TLS_ECDHE_RSA_WITH_CHACHA20_POLY1305_SHA256;
     CS_TLS_ECDHE_ECDSA_WITH_CHACHA20_POLY1305_SHA256;
     CS_TLS_DHE_RSA_WITH_CHACHA20_POLY1305_SHA256; CS_TLS_PSK_WITH_CHACHA20_POLY1305_SHA256;
     CS_TLS_ECDHE_PSK_WITH_CHACHA20_POLY1305_SHA256;
     CS_TLS_DHE_PSK_WITH_CHACHA20_POLY1305_SHA256;
     CS_TLS_RSA_PSK_WITH_CHACHA20_POLY1305_SHA256; CS_SSL_RSA_FIPS_WITH_DES_CBC_SHA;
     CS_SSL_RSA_FIPS_WITH_3DES_EDE_CBC_SHA];
  enum_unknown := CS_Unknown;
  craft_is_unknown v := match v with CS_Unknown _ => true | _ => false end;
}.

#[export] Instance CipherSuite_laws : TlsEnumLaws CipherSuite.
Proof. enum_laws. Qed.

#[export] Instance CipherSuite_eq_dec : EqDecision CipherSuite := enum_eq_dec.

Inductive SignatureScheme :=
  | SS_RSA_PKCS1_SHA1 | SS_ECDSA_SHA1_Legacy | SS_RSA_PKCS1_SHA256 | SS_ECDSA_NISTP256_SHA256 |
  SS_RSA_PKCS1_SHA384 | SS_ECDSA_NISTP384_SHA384 | SS_RSA_PKCS1_SHA512 |
  SS_ECDSA_NISTP521_SHA512 | SS_RSA_PSS_SHA256 | SS_RSA_PSS_SHA384 | SS_RSA_PSS_SHA512 |
  SS_ED25519 | SS_ED448 | SS_Unknown (x : Z).

#[export] Instance SignatureScheme_enum : TlsEnum SignatureScheme := {
  enum_width := 2%nat;
  enum_name := "SignatureScheme";
  enum_get v := match v with
    SS_RSA_PKCS1_SHA1 => 513 | SS_ECDSA_SHA1_Legacy => 515 | SS_RSA_PKCS1_SHA256 => 1025 |
    SS_ECDSA_NISTP256_SHA256 => 1027 | SS_RSA_PKCS1_SHA384 => 1281 |
    SS_ECDSA_NISTP384_SHA384 => 1283 | SS_RSA_PKCS1_SHA512 => 1537 |
    SS_ECDSA_NISTP521_SHA512 => 1539 | SS_RSA_PSS_SHA256 => 2052 | SS_RSA_PSS_SHA384 => 2053 |
    SS_RSA_PSS_SHA512 => 2054 | SS_ED25519 => 2055 | SS_ED448 => 2056 | SS_Unknown x => x
    end;
  enum_known :=
    [SS_RSA_PKCS1_SHA1; SS_ECDSA_SHA1_Legacy; SS_RSA_PKCS1_SHA256; SS_ECDSA_NISTP256_SHA256;
     SS_RSA_PKCS1_SHA384; SS_ECDSA_NISTP384_SHA384; SS_RSA_PKCS1_SHA512;
     SS_ECDSA_NISTP521_SHA512; SS_RSA_PSS_SHA256; SS_RSA_PSS_SHA384; SS_RSA_PSS_SHA512;
     SS_ED25519; SS_ED448];
  enum_unknown := SS_Unknown;
  craft_is_unknown v := match v with SS_Unknown _ => true | _ => false end;
}.

#[export] Instance SignatureScheme_laws : TlsEnumLaws SignatureScheme.
Proof. enum_laws. Qed.

#[export] Instance SignatureScheme_eq_dec : EqDecision SignatureScheme := enum_eq_dec.

Inductive Compression :=
  | CM_Null | CM_Deflate | CM_LSZ | CM_Unknown (x : Z).

#[export] Instance Compression_enum : TlsEnum Compression := {
  enum_width := 1%nat;
  enum_name := "Compression";
  enum_get v := match v with
    CM_Null => 0 | CM_Deflate => 1 | CM_LSZ => 64 | CM_Unknown x => x
    end;
  enum_known :=
    [CM_Null; CM_Deflate; CM_LSZ];
  enum_unknown := CM_Unknown;
  craft_is_unknown v := match v with CM_Unknown _ => true | _ => false end;
}.

#[export] Instance Compression_laws : TlsEnumLaws Compression.
Proof. enum_laws. Qed.

#[export] Instance Compression_eq_dec : EqDecision Compression := enum_eq_dec.

Inductive ExtensionType :=
  | ET_ServerName | ET_MaxFragmentLength | ET_ClientCertificateUrl | ET_TrustedCAKeys |
  ET_TruncatedHMAC | ET_StatusRequest | ET_UserMapping | ET_ClientAuthz | ET_ServerAuthz |
  ET_CertificateType | ET_EllipticCurves | ET_ECPointFormats | ET_SRP |
  ET_SignatureAlgorithms | ET_UseSRTP | ET_Heartbeat | ET_ALProtocolNegotiation | ET_SCT |
  ET_Padding | ET_ExtendedMasterSecret | ET_CompressCertificate | ET_SessionTicket |
  ET_PreSharedKey | ET_EarlyData | ET_SupportedVersions | ET_Cookie | ET_PSKKeyExchangeModes |
  ET_TicketEarlyDataInfo | ET_CertificateAuthorities | ET_OIDFilters | ET_PostHandshakeAuth |
  ET_SignatureAlgorithmsCert | ET_KeyShare | ET_TransportParameters |
  ET_NextProtocolNegotiation | ET_ChannelId | ET_RenegotiationInfo |
  ET_TransportParametersDraft | ET_Unknown (x : Z).

#[export] Instance ExtensionType_enum : TlsEnum ExtensionType := {
  enum_width := 2%nat;
  enum_name := "ExtensionType";
  enum_get v := match v with
    ET_ServerName => 0 | ET_MaxFragmentLength => 1 | ET_ClientCertificateUrl => 2 |
    ET_TrustedCAKeys => 3 | ET_TruncatedHMAC => 4 | ET_StatusRequest => 5 |
    ET_UserMapping => 6 | ET_ClientAuthz => 7 | ET_ServerAuthz => 8 | ET_CertificateType => 9 |
    ET_EllipticCurves => 10 | ET_ECPointFormats => 11 | ET_SRP => 12 |
    ET_SignatureAlgorithms => 13 | ET_UseSRTP => 14 | ET_Heartbeat => 15 |
    ET_ALProtocolNegotiation => 16 | ET_SCT => 18 | ET_Padding => 21 |
    ET_ExtendedMasterSecret => 23 | ET_CompressCertificate => 27 | ET_SessionTicket => 35 |
    ET_PreSharedKey => 41 | ET_EarlyData => 42 | ET_SupportedVersions => 43 | ET_Cookie => 44 |
    ET_PSKKeyExchangeModes => 45 | ET_TicketEarlyDataInfo => 46 |
    ET_CertificateAuthorities => 47 | ET_OIDFilters => 48 | ET_PostHandshakeAuth => 49 |
    ET_SignatureAlgorithmsCert => 50 | ET_KeyShare => 51 | ET_TransportParameters => 57 |
    ET_NextProtocolNegotiation => 13172 | ET_ChannelId => 30031 |
    ET_RenegotiationInfo => 65281 | ET_TransportParametersDraft => 65445 | ET_Unknown x => x
    end;
  enum_known :=
    [ET_ServerName; ET_MaxFragmentLength; ET_ClientCertificateUrl; ET_TrustedCAKeys;
     ET_TruncatedHMAC; ET_StatusRequest; ET_UserMapping; ET_ClientAuthz; ET_ServerAuthz;
     ET_CertificateType; ET_EllipticCurves; ET_ECPointFormats; ET_SRP; ET_SignatureAlgorithms;
     ET_UseSRTP; ET_Heartbeat; ET_ALProtocolNegotiation; ET_SCT; ET_Padding;
     ET_ExtendedMasterSecret; ET_CompressCertificate; ET_SessionTicket; ET_PreSharedKey;
     ET_EarlyData; ET_SupportedVersions; ET_Cookie; ET_PSKKeyExchangeModes;
     ET_TicketEarlyDataInfo; ET_CertificateAuthorities; ET_OIDFilters; ET_PostHandshakeAuth;
     ET_SignatureAlgorithmsCert; ET_KeyShare; ET_TransportParameters;
     ET_NextProtocolNegotiation; ET_ChannelId; ET_RenegotiationInfo;
     ET_TransportParametersDraft];
  enum_unknown := ET_Unknown;
  craft_is_unknown v := match v with ET_Unknown _ => true | _ => false end;
}.

#[export] Instance ExtensionType_laws : TlsEnumLaws ExtensionType.
Proof. enum_laws. Qed.

#[export] Instance ExtensionType_eq_dec : EqDecision ExtensionType := enum_eq_dec.

Inductive ServerNameType :=
  | SN_HostName | SN_Unknown (x : Z).

#[export] Instance ServerNameType_enum : TlsEnum ServerNameType := {
  enum_width := 1%nat;
  enum_name := "ServerNameType";
  enum_get v := match v with
    SN_HostName => 0 | SN_Unknown x => x
    end;
  enum_known :=
    [SN_HostName];
  enum_unknown := SN_Unknown;
  craft_is_unknown v := match v with SN_Unknown _ => true | _ => false end;
}.

#[export] Instance ServerNameType_laws : TlsEnumLaws ServerNameType.
Proof. enum_laws. Qed.

#[export] Instance ServerNameType_eq_dec : EqDecision ServerNameType := enum_eq_dec.

Inductive NamedGroup :=
  | NG_secp256r1 | NG_secp384r1 | NG_secp521r1 | NG_X25519 | NG_X448 | NG_FFDHE2048 |
  NG_FFDHE3072 | NG_FFDHE4096 | NG_FFDHE6144 | NG_FFDHE8192 | NG_Unknown (x : Z).

#[export] Instance NamedGroup_enum : TlsEnum NamedGroup := {
  enum_width := 2%nat;
  enum_name := "NamedGroup";
  enum_get v := match v with
    NG_secp256r1 => 23 | NG_secp384r1 => 24 | NG_secp521r1 => 25 | NG_X25519 => 29 |
    NG_X448 => 30 | NG_FFDHE2048 => 256 | NG_FFDHE3072 => 257 | NG_FFDHE4096 => 258 |
    NG_FFDHE6144 => 259 | NG_FFDHE8192 => 260 | NG_Unknown x => x
    end;
  enum_known :=
    [NG_secp256r1; NG_secp384r1; NG_secp521r1; NG_X25519; NG_X448; NG_FFDHE2048; NG_FFDHE3072;
     NG_FFDHE4096; NG_FFDHE6144; NG_FFDHE8192];
  enum_unknown := NG_Unknown;
  craft_is_unknown v := match v with NG_Unknown _ => true | _ => false end;
}.

#[export] Instance NamedGroup_laws : TlsEnumLaws NamedGroup.
Proof. enum_laws. Qed.

#[export] Instance NamedGroup_eq_dec : EqDecision NamedGroup := enum_eq_dec.

Inductive ECPointFormat :=
  | EP_Uncompressed | EP_ANSIX962CompressedPrime | EP_ANSIX962CompressedChar2 |
  EP_Unknown (x : Z).

#[export] Instance ECPointFormat_enum : TlsEnum ECPointFormat := {
  enum_width := 1%nat;
  enum_name := "ECPointFormat";
  enum_get v := match v with
    EP_Uncompressed => 0 | EP_ANSIX962CompressedPrime => 1 | EP_ANSIX962CompressedChar2 => 2 |
    EP_Unknown x => x
    end;
  enum_known :=
    [EP_Uncompressed; EP_ANSIX962CompressedPrime; EP_ANSIX962CompressedChar2];
  enum_unknown := EP_Unknown;
  craft_is_unknown v := match v with EP_Unknown _ => true | _ => false end;
}.

#[export] Instance ECPointFormat_laws : TlsEnumLaws ECPointFormat.
Proof. enum_laws. Qed.

#[export] Instance ECPointFormat_eq_dec : EqDecision ECPointFormat := enum_eq_dec.

Inductive PSKKeyExchangeMode :=
  | PK_PSK_KE | PK_PSK_DHE_KE | PK_Unknown (x : Z).

#[export] Instance PSKKeyExchangeMode_enum : TlsEnum PSKKeyExchangeMode := {
  enum_width := 1%nat;
  enum_name := "PSKKeyExchangeMode";
  enum_get v := match v with
    PK_PSK_KE => 0 | PK_PSK_DHE_KE => 1 | PK_Unknown x => x
    end;
  enum_known :=
    [PK_PSK_KE; PK_PSK_DHE_KE];
  enum_unknown := PK_Unknown;
  craft_is_unknown v := match v with PK_Unknown _ => true | _ => false end;
}.

#[export] Instance PSKKeyExchangeMode_laws : TlsEnumLaws PSKKeyExchangeMode.
Proof. enum_laws. Qed.

#[export] Instance PSKKeyExchangeMode_eq_dec : EqDecision PSKKeyExchangeMode := enum_eq_dec.

Inductive CertificateStatusType :=
  | CY_OCSP | CY_Unknown (x : Z).

#[export] Instance CertificateStatusType_enum : TlsEnum CertificateStatusType := {
  enum_width := 1%nat;
  enum_name := "CertificateStatusType";
  enum_get v := match v with
    CY_OCSP => 1 | CY_Unknown x => x
    end;
  enum_known :=
    [CY_OCSP];
  enum_unknown := CY_Unknown;
  craft_is_unknown v := match v with CY_Unknown _ => true | _ => false end;
}.

#[export] Instance CertificateStatusType_laws : TlsEnumLaws CertificateStatusType.
Proof. enum_laws. Qed.

#[export] Instance CertificateStatusType_eq_dec : EqDecision CertificateStatusType := enum_eq_dec.

Inductive CertificateCompressionAlgorithm :=
  | CA_Zlib | CA_Brotli | CA_Zstd | CA_Unknown (x : Z).

#[export] Instance CertificateCompressionAlgorithm_enum : TlsEnum CertificateCompressionAlgorithm := {
  enum_width := 2%nat;
  enum_name := "CertificateCompressionAlgorithm";
  enum_get v := match v with
    CA_Zlib => 1 | CA_Brotli => 2 | CA_Zstd => 3 | CA_Unknown x => x
    end;
  enum_known :=
    [CA_Zlib; CA_Brotli; CA_Zstd];
  enum_unknown := CA_Unknown;
  craft_is_unknown v := match v with CA_Unknown _ => true | _ => false end;
}.

#[export] Instance CertificateCompressionAlgorithm_laws : TlsEnumLaws CertificateCompressionAlgorithm.
Proof. enum_laws. Qed.

#[export] Instance CertificateCompressionAlgorithm_eq_dec : EqDecision CertificateCompressionAlgorithm := enum_eq_dec.

Inductive ClientCertificateType :=
  | CT_RSASign | CT_DSSSign | CT_RSAFixedDH | CT_DSSFixedDH | CT_RSAEphemeralDH |
  CT_DSSEphemeralDH | CT_FortezzaDMS | CT_ECDSASign | CT_RSAFixedECDH | CT_ECDSAFixedECDH |
  CT_Unknown (x : Z).

#[export] Instance ClientCertificateType_enum : TlsEnum ClientCertificateType := {
  enum_width := 1%nat;
  enum_name := "ClientCertificateType";
  enum_get v := match v with
    CT_RSASign => 1 | CT_DSSSign => 2 | CT_RSAFixedDH => 3 | CT_DSSFixedDH => 4 |
    CT_RSAEphemeralDH => 5 | CT_DSSEphemeralDH => 6 | CT_FortezzaDMS => 20 |
    CT_ECDSASign => 64 | CT_RSAFixedECDH => 65 | CT_ECDSAFixedECDH => 66 | CT_Unknown x => x
    end;
  enum_known :=
    [CT_RSASign; CT_DSSSign; CT_RSAFixedDH; CT_DSSFixedDH; CT_RSAEphemeralDH;
     CT_DSSEphemeralDH; CT_FortezzaDMS; CT_ECDSASign; CT_RSAFixedECDH; CT_ECDSAFixedECDH];
  enum_unknown := CT_Unknown;
  craft_is_unknown v := match v with CT_Unknown _ => true | _ => false end;
}.

#[export] Instance ClientCertificateType_laws : TlsEnumLaws ClientCertificateType.
Proof. enum_laws. Qed.

#[export] Instance ClientCertificateType_eq_dec : EqDecision ClientCertificateType := enum_eq_dec.

Inductive ECCurveType :=
  | EC_ExplicitPrime | EC_ExplicitChar2 | EC_NamedCurve | EC_Unknown (x : Z).

#[export] Instance ECCurveType_enum : TlsEnum ECCurveType := {
  enum_width := 1%nat;
  enum_name := "ECCurveType";
  enum_get v := match v with
    EC_ExplicitPrime => 1 | EC_ExplicitChar2 => 2 | EC_NamedCurve => 3 | EC_Unknown x => x
    end;
  enum_known :=
    [EC_ExplicitPrime; EC_ExplicitChar2; EC_NamedCurve];
  enum_unknown := EC_Unknown;
  craft_is_unknown v := match v with EC_Unknown _ => true | _ => false end;
}.

#[export] Instance ECCurveType_laws : TlsEnumLaws ECCurveType.
Proof. enum_laws. Qed.

#[export] Instance ECCurveType_eq_dec : EqDecision ECCurveType := enum_eq_dec.

Inductive KeyUpdateRequest :=
  | KU_UpdateNotRequested | KU_UpdateRequested | KU_Unknown (x : Z).

#[export] Instance KeyUpdateRequest_enum : TlsEnum KeyUpdateRequest := {
  enum_width := 1%nat;
  enum_name := "KeyUpdateRequest";
  enum_get v := match v with
    KU_UpdateNotRequested => 0 | KU_UpdateRequested => 1 | KU_Unknown x => x
    end;
  enum_known :=
    [KU_UpdateNotRequested; KU_UpdateRequested];
  enum_unknown := KU_Unknown;
  craft_is_unknown v := match v with KU_Unknown _ => true | _ => false end;
}.

#[export] Instance KeyUpdateRequest_laws : TlsEnumLaws KeyUpdateRequest.
Proof. enum_laws. Qed.

#[export] Instance KeyUpdateRequest_eq_dec : EqDecision KeyUpdateRequest := enum_eq_dec.

Inductive ContentType :=
  | CO_ChangeCipherSpec | CO_Alert | CO_Handshake | CO_ApplicationData | CO_Heartbeat |
  CO_Unknown (x : Z).

#[export] Instance ContentType_enum : TlsEnum ContentType := {
  enum_width := 1%nat;
  enum_name := "ContentType";
  enum_get v := match v with
    CO_ChangeCipherSpec => 20 | CO_Alert => 21 | CO_Handshake => 22 |
    CO_ApplicationData => 23 | CO_Heartbeat => 24 | CO_Unknown x => x
    end;
  enum_known :=
    [CO_ChangeCipherSpec; CO_Alert; CO_Handshake; CO_ApplicationData; CO_Heartbeat];
  enum_unknown := CO_Unknown;
  craft_is_unknown v := match v with CO_Unknown _ => true | _ => false end;
}.

#[export] Instance ContentType_laws : TlsEnumLaws ContentType.
Proof. enum_laws. Qed.

#[export] Instance ContentType_eq_dec : EqDecision ContentType := enum_eq_dec.

Inductive AlertLevel :=
  | LV_Warning | LV_Fatal | LV_Unknown (x : Z).

#[export] Instance AlertLevel_enum : TlsEnum AlertLevel := {
  enum_width := 1%nat;
  enum_name := "AlertLevel";
  enum_get v := match v with
    LV_Warning => 1 | LV_Fatal => 2 | LV_Unknown x => x
    end;
  enum_known :=
    [LV_Warning; LV_Fatal];
  enum_unknown := LV_Unknown;
  craft_is_unknown v := match v with LV_Unknown _ => true | _ => false end;
}.

#[export] Instance AlertLevel_laws : TlsEnumLaws AlertLevel.
Proof. enum_laws. Qed.

#[export] Instance AlertLevel_eq_dec : EqDecision AlertLevel := enum_eq_dec.
