(* ===== verification/TlsHello.v ===== *)
(** * TlsHello: the hello messages (craftls/rustls/src/msgs/handshake.rs, and the padding of
    craftls/rustls/src/craft/mod.rs)

    What a client hello, a hello retry request and a server hello consist of, how they are
    written and read, and the questions the handshake asks about them. *)

From S2P Require Import Prelude TlsCodec TlsEnums.

(** [DnsName::try_from] of pki-types: which bytes are a DNS name. *)
Class DnsNames := { dns_name_ok : list Z → bool }.

(** ** Fixed parts *)

Record Random := mkRandom { random_bytes : list Z }.

#[export] Instance random_eq_dec : EqDecision Random.
Proof. solve_decision. Defined.

Definition HELLO_RETRY_REQUEST_RANDOM : Random := mkRandom
  [0xcf; 0x21; 0xad; 0x74; 0xe5; 0x9a; 0x61; 0x11; 0xbe; 0x1d; 0x8c; 0x02; 0x1e; 0x65; 0xb8; 0x91;
   0xc2; 0xa2; 0x11; 0x16; 0x7a; 0xbb; 0x8c; 0x5e; 0x07; 0x9e; 0x09; 0xe2; 0xc8; 0xa8; 0x33; 0x9c].

Definition ZERO_RANDOM : Random := mkRandom (replicate 32 0).

Definition random_read : Read Random :=
  b ← take_or (MissingData "Random") 32; mret (mkRandom b).

#[export] Instance random_codec : Codec Random := {
  encode x bytes := bytes ++ random_bytes x;
  codec_read := {| read := random_read |};
}.

Record SessionId := mkSessionId { sid_len : nat; sid_data : list Z }.

(** [PartialEq]: the used bytes only. *)
Definition sid_eqb (a b : SessionId) : bool :=
  (sid_len a =? sid_len b)%nat &&
  bool_decide (firstn (sid_len a) (sid_data a) = firstn (sid_len b) (sid_data b)).

Definition sid_empty : SessionId := mkSessionId 0 (replicate 32 0).

Definition sid_is_empty (s : SessionId) : bool := (sid_len s =? 0)%nat.

Definition sid_read : Read SessionId :=
  len ← u8_read;
  if 32 <? len then read_err (TrailingData "SessionID")
  else
    b ← take_or (MissingData "SessionID") (Z.to_nat len);
    mret (mkSessionId (Z.to_nat len) (b ++ replicate (32 - length b) 0)).

#[export] Instance sid_codec : Codec SessionId := {
  encode s bytes := u8_encode (Z.of_nat (sid_len s)) bytes ++ firstn (sid_len s) (sid_data s);
  codec_read := {| read := sid_read |};
}.

(** ** Elements of the extensions *)

#[export] Instance ECPointFormat_list : TlsListElement ECPointFormat := { SIZE_LEN := LL_U8 }.
#[export] Instance NamedGroup_list : TlsListElement NamedGroup := { SIZE_LEN := LL_U16 }.
#[export] Instance SignatureScheme_list : TlsListElement SignatureScheme := { SIZE_LEN := LL_U16 }.
#[export] Instance PSKKeyExchangeMode_list : TlsListElement PSKKeyExchangeMode :=
  { SIZE_LEN := LL_U8 }.
#[export] Instance ProtocolVersion_list : TlsListElement ProtocolVersion := { SIZE_LEN := LL_U8 }.
#[export] Instance CertificateCompressionAlgorithm_list :
  TlsListElement CertificateCompressionAlgorithm := { SIZE_LEN := LL_U8 }.
#[export] Instance CipherSuite_list : TlsListElement CipherSuite := { SIZE_LEN := LL_U16 }.
#[export] Instance Compression_list : TlsListElement Compression := { SIZE_LEN := LL_U8 }.

(** The contents of an extension whose type the code does not read further. *)
Record UnknownExtension := mkUnknownExtension {
  ux_typ : ExtensionType;
  ux_payload : Payload;
}.

Definition unknown_extension_encode (u : UnknownExtension) : list Z → list Z :=
  encode (ux_payload u).
Definition unknown_extension_read (typ : ExtensionType) : Read UnknownExtension :=
  p ← payload_read; mret (mkUnknownExtension typ p).

(** A DNS name is its ASCII text. *)
Definition DnsName : Type := list Z.

Inductive ServerNamePayload :=
  | HostName (name : DnsName)
  | SNP_Unknown (p : Payload).

Record ServerName := mkServerName {
  sn_typ : ServerNameType;
  sn_payload : ServerNamePayload;
}.

Definition server_name_payload_encode (p : ServerNamePayload) (bytes : list Z) : list Z :=
  match p with
  | HostName name => u16_encode (Z.of_nat (length name)) bytes ++ name
  | SNP_Unknown r => encode r bytes
  end.

Definition read_hostname `{DnsNames} : Read ServerNamePayload :=
  raw ← payload_u16_read;
  if dns_name_ok (p16_bytes raw) then mret (HostName (p16_bytes raw))
  else read_err InvalidServerName.

Definition server_name_read `{DnsNames} : Read ServerName :=
  typ ← enum_read;
  payload ← (if decide (typ = SN_HostName) then read_hostname
             else p ← payload_read; mret (SNP_Unknown p));
  mret (mkServerName typ payload).

#[export] Instance server_name_codec `{DnsNames} : Codec ServerName := {
  encode s bytes := server_name_payload_encode (sn_payload s) (encode (sn_typ s) bytes);
  codec_read := {| read := server_name_read |};
}.
#[export] Instance ServerName_list : TlsListElement ServerName := { SIZE_LEN := LL_U16 }.

(** The newtypes of [wrapped_payload!]. *)
Record ProtocolName := mkProtocolName { pn_payload : PayloadU8 }.
Record PresharedKeyBinder := mkBinder { binder_payload : PayloadU8 }.
Record ResponderId := mkResponderId { rid_payload : PayloadU16 }.

Definition protocol_name_read : Read ProtocolName := p ← payload_u8_read; mret (mkProtocolName p).
Definition binder_read : Read PresharedKeyBinder := p ← payload_u8_read; mret (mkBinder p).
Definition responder_id_read : Read ResponderId := p ← payload_u16_read; mret (mkResponderId p).

#[export] Instance protocol_name_codec : Codec ProtocolName :=
  { encode x := encode (pn_payload x); codec_read := {| read := protocol_name_read |} }.
#[export] Instance binder_codec : Codec PresharedKeyBinder :=
  { encode x := encode (binder_payload x); codec_read := {| read := binder_read |} }.
#[export] Instance responder_id_codec : Codec ResponderId :=
  { encode x := encode (rid_payload x); codec_read := {| read := responder_id_read |} }.
#[export] Instance ProtocolName_list : TlsListElement ProtocolName := { SIZE_LEN := LL_U16 }.
#[export] Instance PresharedKeyBinder_list : TlsListElement PresharedKeyBinder :=
  { SIZE_LEN := LL_U16 }.
#[export] Instance ResponderId_list : TlsListElement ResponderId := { SIZE_LEN := LL_U16 }.

(** [Vec<ProtocolName>::from_slices], [to_slices], [as_single_slice]. *)
Definition from_slices (names : list (list Z)) : list ProtocolName :=
  (λ n, mkProtocolName (mkPayloadU8 n)) <$> names.
Definition to_slices (l : list ProtocolName) : list (list Z) :=
  (λ p, p8_bytes (pn_payload p)) <$> l.
Definition as_single_slice (l : list ProtocolName) : option (list Z) :=
  match l with [p] => Some (p8_bytes (pn_payload p)) | _ => None end.

Record KeyShareEntry := mkKeyShareEntry {
  ks_group : NamedGroup;
  ks_payload : PayloadU16;
}.

Definition key_share_new (group : NamedGroup) (payload : list Z) : KeyShareEntry :=
  mkKeyShareEntry group (mkPayloadU16 payload).

Definition key_share_read : Read KeyShareEntry :=
  group ← enum_read; payload ← payload_u16_read; mret (mkKeyShareEntry group payload).

#[export] Instance key_share_codec : Codec KeyShareEntry := {
  encode k bytes := encode (ks_payload k) (encode (ks_group k) bytes);
  codec_read := {| read := key_share_read |};
}.
#[export] Instance KeyShareEntry_list : TlsListElement KeyShareEntry := { SIZE_LEN := LL_U16 }.

Record PresharedKeyIdentity := mkPskIdentity {
  psk_identity : PayloadU16;
  psk_obfuscated_ticket_age : Z;
}.

Definition psk_identity_read : Read PresharedKeyIdentity :=
  id ← payload_u16_read; age ← u32_read; mret (mkPskIdentity id age).

#[export] Instance psk_identity_codec : Codec PresharedKeyIdentity := {
  encode i bytes := u32_encode (psk_obfuscated_ticket_age i) (encode (psk_identity i) bytes);
  codec_read := {| read := psk_identity_read |};
}.
#[export] Instance PresharedKeyIdentity_list : TlsListElement PresharedKeyIdentity :=
  { SIZE_LEN := LL_U16 }.

Record PresharedKeyOffer := mkPskOffer {
  psk_identities : list PresharedKeyIdentity;
  psk_binders : list PresharedKeyBinder;
}.

Definition psk_offer_new (id : PresharedKeyIdentity) (binder : list Z) : PresharedKeyOffer :=
  mkPskOffer [id] [mkBinder (mkPayloadU8 binder)].

Definition psk_offer_read : Read PresharedKeyOffer :=
  ids ← vec_read; binders ← vec_read; mret (mkPskOffer ids binders).

#[export] Instance psk_offer_codec : Codec PresharedKeyOffer := {
  encode o bytes := encode (psk_binders o) (encode (psk_identities o) bytes);
  codec_read := {| read := psk_offer_read |};
}.

Record OcspCertificateStatusRequest := mkOcsp {
  ocsp_responder_ids : list ResponderId;
  ocsp_extensions : PayloadU16;
}.

(** The type in front is written here, and read by the caller. *)
Definition ocsp_encode (o : OcspCertificateStatusRequest) (bytes : list Z) : list Z :=
  encode (ocsp_extensions o) (encode (ocsp_responder_ids o) (encode CY_OCSP bytes)).
Definition ocsp_read : Read OcspCertificateStatusRequest :=
  ids ← vec_read; ext ← payload_u16_read; mret (mkOcsp ids ext).

Inductive CertificateStatusRequest :=
  | Ocsp (o : OcspCertificateStatusRequest)
  | CSR_Unknown (typ : CertificateStatusType) (p : Payload).

Definition build_ocsp : CertificateStatusRequest := Ocsp (mkOcsp [] (mkPayloadU16 [])).

Definition csr_read : Read CertificateStatusRequest :=
  typ ← enum_read;
  if decide (typ = CY_OCSP) then o ← ocsp_read; mret (Ocsp o)
  else p ← payload_read; mret (CSR_Unknown typ p).

#[export] Instance csr_codec : Codec CertificateStatusRequest := {
  encode c bytes := match c with
                    | Ocsp o => ocsp_encode o bytes
                    | CSR_Unknown typ p => encode p (encode typ bytes)
                    end;
  codec_read := {| read := csr_read |};
}.

Inductive ClientSessionTicket :=
  | TicketRequest
  | TicketOffer (p : Payload).

(** The padding of a fingerprint (craft/mod.rs): it fills a message of 256 to 511 bytes up
    to 512, and otherwise cuts off the four bytes of type and length in front of it. There
    are always four, since only [client_extension_encode] writes a padding. *)
Record CraftPadding := mkCraftPadding { psk_len : Z }.

Definition craft_padding_encode (p : CraftPadding) (bytes : list Z) : list Z :=
  let unpadded := psk_len p + Z.of_nat (length bytes) - 4 in
  if (0xff <? unpadded) && (unpadded <? 0x200) then
    let padding_len := 0x200 - unpadded in
    let padding_len := if 4 <? padding_len then padding_len - 4 else 1 in
    bytes ++ replicate (Z.to_nat padding_len) 0
  else firstn (length bytes - 4) bytes.

(** ** Extensions of a client hello *)

Inductive ClientExtension :=
  | EcPointFormats (l : list ECPointFormat)
  | NamedGroups (l : list NamedGroup)
  | SignatureAlgorithms (l : list SignatureScheme)
  | CE_ServerName (l : list ServerName)
  | SessionTicket (t : ClientSessionTicket)
  | Protocols (l : list ProtocolName)
  | SupportedVersions (l : list ProtocolVersion)
  | CE_KeyShare (l : list KeyShareEntry)
  | PresharedKeyModes (l : list PSKKeyExchangeMode)
  | PresharedKey (o : PresharedKeyOffer)
  | Cookie (c : PayloadU16)
  | ExtendedMasterSecretRequest
  | CE_CertificateStatusRequest (c : CertificateStatusRequest)
  | TransportParameters (b : list Z)
  | TransportParametersDraft (b : list Z)
  | EarlyData
  | CompressCertificate (l : list CertificateCompressionAlgorithm)
  | CE_Unknown (u : UnknownExtension)
  | CE_CraftPadding (p : CraftPadding).

Definition get_type (e : ClientExtension) : ExtensionType :=
  match e with
  | EcPointFormats _ => ET_ECPointFormats
  | NamedGroups _ => ET_EllipticCurves
  | SignatureAlgorithms _ => ET_SignatureAlgorithms
  | CE_ServerName _ => ET_ServerName
  | SessionTicket _ => ET_SessionTicket
  | Protocols _ => ET_ALProtocolNegotiation
  | SupportedVersions _ => ET_SupportedVersions
  | CE_KeyShare _ => ET_KeyShare
  | PresharedKeyModes _ => ET_PSKKeyExchangeModes
  | PresharedKey _ => ET_PreSharedKey
  | Cookie _ => ET_Cookie
  | ExtendedMasterSecretRequest => ET_ExtendedMasterSecret
  | CE_CertificateStatusRequest _ => ET_StatusRequest
  | TransportParameters _ => ET_TransportParameters
  | TransportParametersDraft _ => ET_TransportParametersDraft
  | EarlyData => ET_EarlyData
  | CompressCertificate _ => ET_CompressCertificate
  | CE_Unknown u => ux_typ u
  | CE_CraftPadding _ => ET_Padding
  end.

Section Extensions.
Context `{DnsNames}.

Definition client_extension_body (e : ClientExtension) : list Z → list Z :=
  match e with
  | EcPointFormats l => encode l
  | NamedGroups l => encode l
  | SignatureAlgorithms l => encode l
  | CE_ServerName l => encode l
  | SessionTicket TicketRequest | ExtendedMasterSecretRequest | EarlyData => λ b, b
  | SessionTicket (TicketOffer p) => encode p
  | Protocols l => encode l
  | SupportedVersions l => encode l
  | CE_KeyShare l => encode l
  | PresharedKeyModes l => encode l
  | PresharedKey o => encode o
  | Cookie c => encode c
  | CE_CertificateStatusRequest c => encode c
  | TransportParameters r | TransportParametersDraft r => λ b, b ++ r
  | CompressCertificate l => encode l
  | CE_Unknown u => unknown_extension_encode u
  | CE_CraftPadding p => craft_padding_encode p
  end.

Definition client_extension_encode (e : ClientExtension) (bytes : list Z) : list Z :=
  nested LL_U16 (client_extension_body e) (encode (get_type e) bytes).

(** The match on the type; the two empty extensions have a guard. *)
Definition client_extension_contents (typ : ExtensionType) : Read ClientExtension :=
  match typ with
  | ET_ECPointFormats => l ← vec_read; mret (EcPointFormats l)
  | ET_EllipticCurves => l ← vec_read; mret (NamedGroups l)
  | ET_SignatureAlgorithms => l ← vec_read; mret (SignatureAlgorithms l)
  | ET_ServerName => l ← vec_read; mret (CE_ServerName l)
  | ET_SessionTicket =>
      if_left (p ← payload_read; mret (SessionTicket (TicketOffer p)))
        (mret (SessionTicket TicketRequest))
  | ET_ALProtocolNegotiation => l ← vec_read; mret (Protocols l)
  | ET_SupportedVersions => l ← vec_read; mret (SupportedVersions l)
  | ET_KeyShare => l ← vec_read; mret (CE_KeyShare l)
  | ET_PSKKeyExchangeModes => l ← vec_read; mret (PresharedKeyModes l)
  | ET_PreSharedKey => o ← psk_offer_read; mret (PresharedKey o)
  | ET_Cookie => c ← payload_u16_read; mret (Cookie c)
  | ET_ExtendedMasterSecret =>
      if_left (u ← unknown_extension_read typ; mret (CE_Unknown u)) (mret ExtendedMasterSecretRequest)
  | ET_StatusRequest => c ← csr_read; mret (CE_CertificateStatusRequest c)
  | ET_TransportParameters => r ← reader_rest; mret (TransportParameters r)
  | ET_TransportParametersDraft => r ← reader_rest; mret (TransportParametersDraft r)
  | ET_EarlyData =>
      if_left (u ← unknown_extension_read typ; mret (CE_Unknown u)) (mret EarlyData)
  | ET_CompressCertificate => l ← vec_read; mret (CompressCertificate l)
  | _ => u ← unknown_extension_read typ; mret (CE_Unknown u)
  end.

Definition client_extension_read : Read ClientExtension :=
  typ ← enum_read;
  len ← u16_read;
  sub ← reader_sub (Z.to_nat len);
  '(ext, sub) ← on_sub sub (client_extension_contents typ);
  _ ← expect_empty "ClientExtension" sub;
  mret ext.

#[export] Instance client_extension_codec : Codec ClientExtension := {
  encode := client_extension_encode;
  codec_read := {| read := client_extension_read |};
}.
#[export] Instance ClientExtension_list : TlsListElement ClientExtension := { SIZE_LEN := LL_U16 }.

(** The trailing dot of a host name is not sent. [unwrap]: what is left must be a name. *)
Definition trim_hostname_trailing_dot_for_sni (name : DnsName) : outcome DnsName :=
  if bool_decide (last name = Some 46) then
    let trimmed := firstn (length name - 1) name in
    if dns_name_ok trimmed then Done trimmed else Panic
  else Done name.

Definition make_sni (name : DnsName) : outcome ClientExtension :=
  n ← trim_hostname_trailing_dot_for_sni name;
  mret (CE_ServerName [mkServerName SN_HostName (HostName n)]).

(** ** Client hellos *)

Record ClientHelloPayload := mkClientHello {
  ch_client_version : ProtocolVersion;
  ch_random : Random;
  ch_session_id : SessionId;
  ch_cipher_suites : list CipherSuite;
  ch_compression_methods : list Compression;
  ch_extensions : list ClientExtension;
}.

Definition client_hello_encode (h : ClientHelloPayload) (bytes : list Z) : list Z :=
  let bytes := encode (ch_client_version h) bytes in
  let bytes := encode (ch_random h) bytes in
  let bytes := encode (ch_session_id h) bytes in
  let bytes := encode (ch_cipher_suites h) bytes in
  let bytes := encode (ch_compression_methods h) bytes in
  match ch_extensions h with [] => bytes | exts => encode exts bytes end.

Definition client_hello_read : Read ClientHelloPayload :=
  version ← enum_read;
  random ← random_read;
  session_id ← sid_read;
  ciphers ← vec_read;
  methods ← vec_read;
  exts ← if_left vec_read (mret []);
  if_left (read_err (TrailingData "ClientHelloPayload"))
    (match exts with
     | [] => read_err (MissingData "ClientHelloPayload")
     | _ => mret (mkClientHello version random session_id ciphers methods exts)
     end).

#[export] Instance client_hello_codec : Codec ClientHelloPayload := {
  encode := client_hello_encode;
  codec_read := {| read := client_hello_read |};
}.
End Extensions.

(** Whether a number occurs twice: the loop with its [BTreeSet] of what it has seen. *)
Fixpoint has_duplicate (seen : list Z) (l : list Z) : bool :=
  match l with
  | [] => false
  | x :: l => if bool_decide (x ∈ seen) then true else has_duplicate (x :: seen) l
  end.

Definition ch_has_duplicate_extension (h : ClientHelloPayload) : bool :=
  has_duplicate [] ((λ e, enum_get (get_type e)) <$> ch_extensions h).

Definition find_extension (h : ClientHelloPayload) (typ : ExtensionType) : option ClientExtension :=
  List.find (λ e, bool_decide (get_type e = typ)) (ch_extensions h).

Definition get_sni_extension (h : ClientHelloPayload) : option (list ServerName) :=
  ext ← find_extension h ET_ServerName;
  match ext with CE_ServerName l => Some l | _ => None end.

Definition get_sigalgs_extension (h : ClientHelloPayload) : option (list SignatureScheme) :=
  ext ← find_extension h ET_SignatureAlgorithms;
  match ext with SignatureAlgorithms l => Some l | _ => None end.

Definition get_namedgroups_extension (h : ClientHelloPayload) : option (list NamedGroup) :=
  ext ← find_extension h ET_EllipticCurves;
  match ext with NamedGroups l => Some l | _ => None end.

Definition get_ecpoints_extension (h : ClientHelloPayload) : option (list ECPointFormat) :=
  ext ← find_extension h ET_ECPointFormats;
  match ext with EcPointFormats l => Some l | _ => None end.

Definition get_alpn_extension (h : ClientHelloPayload) : option (list ProtocolName) :=
  ext ← find_extension h ET_ALProtocolNegotiation;
  match ext with Protocols l => Some l | _ => None end.

Definition get_versions_extension (h : ClientHelloPayload) : option (list ProtocolVersion) :=
  ext ← find_extension h ET_SupportedVersions;
  match ext with SupportedVersions l => Some l | _ => None end.

Definition get_keyshare_extension (h : ClientHelloPayload) : option (list KeyShareEntry) :=
  ext ← find_extension h ET_KeyShare;
  match ext with CE_KeyShare l => Some l | _ => None end.

Definition has_keyshare_extension_with_duplicates (h : ClientHelloPayload) : bool :=
  match get_keyshare_extension h with
  | Some entries => has_duplicate [] ((λ k, enum_get (ks_group k)) <$> entries)
  | None => false
  end.

Definition get_psk (h : ClientHelloPayload) : option PresharedKeyOffer :=
  ext ← find_extension h ET_PreSharedKey;
  match ext with PresharedKey o => Some o | _ => None end.

Definition check_psk_ext_is_last (h : ClientHelloPayload) : bool :=
  match last (ch_extensions h) with
  | Some ext => bool_decide (get_type ext = ET_PreSharedKey)
  | None => false
  end.

Definition get_psk_modes (h : ClientHelloPayload) : option (list PSKKeyExchangeMode) :=
  ext ← find_extension h ET_PSKKeyExchangeModes;
  match ext with PresharedKeyModes l => Some l | _ => None end.

Definition psk_mode_offered (h : ClientHelloPayload) (mode : PSKKeyExchangeMode) : bool :=
  is_some_and (get_psk_modes h) (λ modes, bool_decide (mode ∈ modes)).

Definition ems_support_offered (h : ClientHelloPayload) : bool :=
  opt_is_some (find_extension h ET_ExtendedMasterSecret).

Definition early_data_extension_offered (h : ClientHelloPayload) : bool :=
  opt_is_some (find_extension h ET_EarlyData).

(** ** Hello retry requests *)

Inductive HelloRetryExtension :=
  | HRR_KeyShare (g : NamedGroup)
  | HRR_Cookie (c : PayloadU16)
  | HRR_SupportedVersions (v : ProtocolVersion)
  | HRR_Unknown (u : UnknownExtension).

Definition hrr_get_type (e : HelloRetryExtension) : ExtensionType :=
  match e with
  | HRR_KeyShare _ => ET_KeyShare
  | HRR_Cookie _ => ET_Cookie
  | HRR_SupportedVersions _ => ET_SupportedVersions
  | HRR_Unknown u => ux_typ u
  end.

Definition hrr_extension_encode (e : HelloRetryExtension) (bytes : list Z) : list Z :=
  nested LL_U16 (match e with
                 | HRR_KeyShare g => encode g
                 | HRR_Cookie c => encode c
                 | HRR_SupportedVersions v => encode v
                 | HRR_Unknown u => unknown_extension_encode u
                 end) (encode (hrr_get_type e) bytes).

Definition hrr_extension_contents (typ : ExtensionType) : Read HelloRetryExtension :=
  match typ with
  | ET_KeyShare => g ← enum_read; mret (HRR_KeyShare g)
  | ET_Cookie => c ← payload_u16_read; mret (HRR_Cookie c)
  | ET_SupportedVersions => v ← enum_read; mret (HRR_SupportedVersions v)
  | _ => u ← unknown_extension_read typ; mret (HRR_Unknown u)
  end.

Definition hrr_extension_read : Read HelloRetryExtension :=
  typ ← enum_read;
  len ← u16_read;
  sub ← reader_sub (Z.to_nat len);
  '(ext, sub) ← on_sub sub (hrr_extension_contents typ);
  _ ← expect_empty "HelloRetryExtension" sub;
  mret ext.

#[export] Instance hrr_extension_codec : Codec HelloRetryExtension := {
  encode := hrr_extension_encode;
  codec_read := {| read := hrr_extension_read |};
}.
#[export] Instance HelloRetryExtension_list : TlsListElement HelloRetryExtension :=
  { SIZE_LEN := LL_U16 }.

Record HelloRetryRequest := mkHRR {
  hrr_legacy_version : ProtocolVersion;
  hrr_session_id : SessionId;
  hrr_cipher_suite : CipherSuite;
  hrr_extensions : list HelloRetryExtension;
}.

(** Version and random have been read before: they say that it is a retry request. *)
Definition hrr_read : Read HelloRetryRequest :=
  session_id ← sid_read;
  cipher_suite ← enum_read;
  compression ← enum_read;
  if decide (compression = CM_Null) then
    exts ← vec_read;
    mret (mkHRR (PV_Unknown 0) session_id cipher_suite exts)
  else read_err UnsupportedCompression.

Definition hrr_encode (h : HelloRetryRequest) (bytes : list Z) : list Z :=
  let bytes := encode (hrr_legacy_version h) bytes in
  let bytes := encode HELLO_RETRY_REQUEST_RANDOM bytes in
  let bytes := encode (hrr_session_id h) bytes in
  let bytes := encode (hrr_cipher_suite h) bytes in
  let bytes := encode CM_Null bytes in
  encode (hrr_extensions h) bytes.

#[export] Instance hrr_codec : Codec HelloRetryRequest := {
  encode := hrr_encode;
  codec_read := {| read := hrr_read |};
}.

Definition hrr_has_duplicate_extension (h : HelloRetryRequest) : bool :=
  has_duplicate [] ((λ e, enum_get (hrr_get_type e)) <$> hrr_extensions h).

Definition hrr_has_unknown_extension (h : HelloRetryRequest) : bool :=
  existsb (λ e, bool_decide (hrr_get_type e ≠ ET_KeyShare) &&
                bool_decide (hrr_get_type e ≠ ET_SupportedVersions) &&
                bool_decide (hrr_get_type e ≠ ET_Cookie)) (hrr_extensions h).

Definition hrr_find_extension (h : HelloRetryRequest) (typ : ExtensionType)
    : option HelloRetryExtension :=
  List.find (λ e, bool_decide (hrr_get_type e = typ)) (hrr_extensions h).

Definition get_requested_key_share_group (h : HelloRetryRequest) : option NamedGroup :=
  ext ← hrr_find_extension h ET_KeyShare;
  match ext with HRR_KeyShare g => Some g | _ => None end.

Definition get_cookie (h : HelloRetryRequest) : option PayloadU16 :=
  ext ← hrr_find_extension h ET_Cookie;
  match ext with HRR_Cookie c => Some c | _ => None end.

Definition hrr_get_supported_versions (h : HelloRetryRequest) : option ProtocolVersion :=
  ext ← hrr_find_extension h ET_SupportedVersions;
  match ext with HRR_SupportedVersions v => Some v | _ => None end.

(** ** Server hellos *)

Inductive ServerExtension :=
  | SE_EcPointFormats (l : list ECPointFormat)
  | SE_ServerNameAck
  | SE_SessionTicketAck
  | SE_RenegotiationInfo (p : PayloadU8)
  | SE_Protocols (l : list ProtocolName)
  | SE_KeyShare (k : KeyShareEntry)
  | SE_PresharedKey (index : Z)
  | SE_ExtendedMasterSecretAck
  | SE_CertificateStatusAck
  | SE_SupportedVersions (v : ProtocolVersion)
  | SE_TransportParameters (b : list Z)
  | SE_TransportParametersDraft (b : list Z)
  | SE_EarlyData
  | SE_Unknown (u : UnknownExtension).

Definition se_get_type (e : ServerExtension) : ExtensionType :=
  match e with
  | SE_EcPointFormats _ => ET_ECPointFormats
  | SE_ServerNameAck => ET_ServerName
  | SE_SessionTicketAck => ET_SessionTicket
  | SE_RenegotiationInfo _ => ET_RenegotiationInfo
  | SE_Protocols _ => ET_ALProtocolNegotiation
  | SE_KeyShare _ => ET_KeyShare
  | SE_PresharedKey _ => ET_PreSharedKey
  | SE_ExtendedMasterSecretAck => ET_ExtendedMasterSecret
  | SE_CertificateStatusAck => ET_StatusRequest
  | SE_SupportedVersions _ => ET_SupportedVersions
  | SE_TransportParameters _ => ET_TransportParameters
  | SE_TransportParametersDraft _ => ET_TransportParametersDraft
  | SE_EarlyData => ET_EarlyData
  | SE_Unknown u => ux_typ u
  end.

Definition server_extension_encode (e : ServerExtension) (bytes : list Z) : list Z :=
  nested LL_U16 (match e with
                 | SE_EcPointFormats l => encode l
                 | SE_ServerNameAck | SE_SessionTicketAck | SE_ExtendedMasterSecretAck
                 | SE_CertificateStatusAck | SE_EarlyData => λ b, b
                 | SE_RenegotiationInfo r => encode r
                 | SE_Protocols r => encode r
                 | SE_KeyShare r => encode r
                 | SE_PresharedKey r => u16_encode r
                 | SE_SupportedVersions r => encode r
                 | SE_TransportParameters r | SE_TransportParametersDraft r => λ b, b ++ r
                 | SE_Unknown u => unknown_extension_encode u
                 end) (encode (se_get_type e) bytes).

Definition server_extension_contents (typ : ExtensionType) : Read ServerExtension :=
  match typ with
  | ET_ECPointFormats => l ← vec_read; mret (SE_EcPointFormats l)
  | ET_ServerName => mret SE_ServerNameAck
  | ET_SessionTicket => mret SE_SessionTicketAck
  | ET_StatusRequest => mret SE_CertificateStatusAck
  | ET_RenegotiationInfo => r ← payload_u8_read; mret (SE_RenegotiationInfo r)
  | ET_ALProtocolNegotiation => l ← vec_read; mret (SE_Protocols l)
  | ET_KeyShare => k ← key_share_read; mret (SE_KeyShare k)
  | ET_PreSharedKey => i ← u16_read; mret (SE_PresharedKey i)
  | ET_ExtendedMasterSecret => mret SE_ExtendedMasterSecretAck
  | ET_SupportedVersions => v ← enum_read; mret (SE_SupportedVersions v)
  | ET_TransportParameters => r ← reader_rest; mret (SE_TransportParameters r)
  | ET_TransportParametersDraft => r ← reader_rest; mret (SE_TransportParametersDraft r)
  | ET_EarlyData => mret SE_EarlyData
  | _ => u ← unknown_extension_read typ; mret (SE_Unknown u)
  end.

Definition server_extension_read : Read ServerExtension :=
  typ ← enum_read;
  len ← u16_read;
  sub ← reader_sub (Z.to_nat len);
  '(ext, sub) ← on_sub sub (server_extension_contents typ);
  _ ← expect_empty "ServerExtension" sub;
  mret ext.

#[export] Instance server_extension_codec : Codec ServerExtension := {
  encode := server_extension_encode;
  codec_read := {| read := server_extension_read |};
}.
#[export] Instance ServerExtension_list : TlsListElement ServerExtension := { SIZE_LEN := LL_U16 }.

Record ServerHelloPayload := mkServerHello {
  sh_legacy_version : ProtocolVersion;
  sh_random : Random;
  sh_session_id : SessionId;
  sh_cipher_suite : CipherSuite;
  sh_compression_method : Compression;
  sh_extensions : list ServerExtension;
}.

(** Version and random have been read before. *)
Definition server_hello_read : Read ServerHelloPayload :=
  session_id ← sid_read;
  suite ← enum_read;
  compression ← enum_read;
  exts ← if_left vec_read (mret []);
  if_left (read_err (TrailingData "ServerHelloPayload"))
    (mret (mkServerHello (PV_Unknown 0) ZERO_RANDOM session_id suite compression exts)).

Definition server_hello_encode (h : ServerHelloPayload) (bytes : list Z) : list Z :=
  let bytes := encode (sh_legacy_version h) bytes in
  let bytes := encode (sh_random h) bytes in
  let bytes := encode (sh_session_id h) bytes in
  let bytes := encode (sh_cipher_suite h) bytes in
  let bytes := encode (sh_compression_method h) bytes in
  match sh_extensions h with [] => bytes | exts => encode exts bytes end.

#[export] Instance server_hello_codec : Codec ServerHelloPayload := {
  encode := server_hello_encode;
  codec_read := {| read := server_hello_read |};
}.

(** [HasServerExtensions]. *)
Definition sh_has_duplicate_extension (h : ServerHelloPayload) : bool :=
  has_duplicate [] ((λ e, enum_get (se_get_type e)) <$> sh_extensions h).

Definition sh_find_extension (h : ServerHelloPayload) (typ : ExtensionType) : option ServerExtension :=
  List.find (λ e, bool_decide (se_get_type e = typ)) (sh_extensions h).

Definition get_key_share (h : ServerHelloPayload) : option KeyShareEntry :=
  ext ← sh_find_extension h ET_KeyShare;
  match ext with SE_KeyShare k => Some k | _ => None end.

Definition get_psk_index (h : ServerHelloPayload) : option Z :=
  ext ← sh_find_extension h ET_PreSharedKey;
  match ext with SE_PresharedKey i => Some i | _ => None end.

Definition sh_get_supported_versions (h : ServerHelloPayload) : option ProtocolVersion :=
  ext ← sh_find_extension h ET_SupportedVersions;
  match ext with SE_SupportedVersions v => Some v | _ => None end.

Definition sh_get_alpn_protocol (h : ServerHelloPayload) : option (list Z) :=
  ext ← sh_find_extension h ET_ALProtocolNegotiation;
  match ext with SE_Protocols l => as_single_slice l | _ => None end.

Definition sh_get_ecpoints_extension (h : ServerHelloPayload) : option (list ECPointFormat) :=
  ext ← sh_find_extension h ET_ECPointFormats;
  match ext with SE_EcPointFormats l => Some l | _ => None end.

Definition ems_support_acked (h : ServerHelloPayload) : bool :=
  opt_is_some (sh_find_extension h ET_ExtendedMasterSecret).
