(* ===== verification/TlsMessages.v ===== *)
(** * TlsMessages: handshake messages (craftls/rustls/src/msgs/handshake.rs, verify.rs)

    The payloads of the handshake messages other than hellos, and the message itself with its
    type and length. Certificates are their DER bytes. *)

From S2P Require Import Prelude TlsCodec TlsEnums TlsHello.

(** ** Certificates *)

(** [CertificateDer]: its bytes behind a length of three bytes. *)
Record CertificateDer := mkCert { cert_der : list Z }.

#[export] Instance cert_eq_dec : EqDecision CertificateDer.
Proof. solve_decision. Defined.

Definition cert_read : Read CertificateDer :=
  len ← u24_read; sub ← reader_sub (Z.to_nat len); mret (mkCert sub).

#[export] Instance cert_codec : Codec CertificateDer := {
  encode c bytes := u24_encode (Z.of_nat (length (cert_der c))) bytes ++ cert_der c;
  codec_read := {| read := cert_read |};
}.

#[export] Instance CertificateDer_list : TlsListElement CertificateDer := { SIZE_LEN := LL_U24 0x10000 }.

Record CertificateChain := mkChain { chain_certs : list CertificateDer }.

Definition chain_read : Read CertificateChain := l ← vec_read; mret (mkChain l).

#[export] Instance chain_codec : Codec CertificateChain := {
  encode c := encode (chain_certs c);
  codec_read := {| read := chain_read |};
}.

Record CertificateStatus := mkCertStatus { ocsp_response : PayloadU24 }.

Definition cert_status_read : Read CertificateStatus :=
  typ ← enum_read;
  match typ with
  | CY_OCSP => p ← payload_u24_read; mret (mkCertStatus p)
  | _ => read_err InvalidCertificateStatusType
  end.

#[export] Instance cert_status_codec : Codec CertificateStatus := {
  encode s bytes := encode (ocsp_response s) (encode CY_OCSP bytes);
  codec_read := {| read := cert_status_read |};
}.

(** ** Writing that panics

    [nested] and [vec_encode], where the body may panic. *)
Definition nested_outcome (size_len : ListLength) (body : list Z → outcome (list Z)) (buf : list Z)
    : outcome (list Z) :=
  let n := lpb_new size_len buf in
  b ← body (lp_buf n);
  Done (lpb_drop (mkLPB b (lp_len_offset n) (lp_size_len n))).

Definition vec_encode_outcome {T} `{TlsListElement T} (enc : T → list Z → outcome (list Z))
    (l : list T) : list Z → outcome (list Z) :=
  nested_outcome (SIZE_LEN T) (λ b, foldl (λ b x, b ← b; enc x b) (Done b) l).

(** ** Certificates of TLS 1.3 *)

Inductive CertificateExtension :=
  | CX_CertificateStatus (s : CertificateStatus)
  | CX_CraftDummySCT
  | CX_CertUnknown (u : UnknownExtension).

Definition cert_ext_get_type (e : CertificateExtension) : ExtensionType :=
  match e with
  | CX_CertificateStatus _ => ET_StatusRequest
  | CX_CertUnknown r => ux_typ r
  | CX_CraftDummySCT => ET_SCT
  end.

Definition get_cert_status (e : CertificateExtension) : option (list Z) :=
  match e with CX_CertificateStatus cs => Some (p24_bytes (ocsp_response cs)) | _ => None end.

(** Signed certificate timestamps are read over, and cannot be written. *)
Definition cert_extension_encode (e : CertificateExtension) (bytes : list Z) : outcome (list Z) :=
  nested_outcome LL_U16 (λ b, match e with
                              | CX_CertificateStatus r => Done (encode r b)
                              | CX_CertUnknown r => Done (unknown_extension_encode r b)
                              | CX_CraftDummySCT => Panic
                              end) (encode (cert_ext_get_type e) bytes).

Definition cert_extension_contents (typ : ExtensionType) : Read CertificateExtension :=
  match typ with
  | ET_StatusRequest => st ← cert_status_read; mret (CX_CertificateStatus st)
  | ET_SCT => _ ← reader_rest; mret CX_CraftDummySCT
  | _ => u ← unknown_extension_read typ; mret (CX_CertUnknown u)
  end.

Definition cert_extension_read : Read CertificateExtension :=
  typ ← enum_read;
  len ← u16_read;
  sub ← reader_sub (Z.to_nat len);
  '(ext, sub) ← on_sub sub (cert_extension_contents typ);
  _ ← expect_empty "CertificateExtension" sub;
  mret ext.

#[export] Instance cert_extension_codec_read : CodecRead CertificateExtension := {
  read := cert_extension_read }.
#[export] Instance CertificateExtension_list : TlsListElement CertificateExtension := { SIZE_LEN := LL_U16 }.

Record CertificateEntry := mkCertEntry {
  ce_cert : CertificateDer;
  ce_exts : list CertificateExtension;
}.

Definition cert_entry_new (cert : CertificateDer) : CertificateEntry := mkCertEntry cert [].

Definition cert_entry_encode (e : CertificateEntry) (bytes : list Z) : outcome (list Z) :=
  vec_encode_outcome cert_extension_encode (ce_exts e) (encode (ce_cert e) bytes).

Definition cert_entry_read : Read CertificateEntry :=
  cert ← cert_read; exts ← vec_read; mret (mkCertEntry cert exts).

#[export] Instance cert_entry_codec_read : CodecRead CertificateEntry := { read := cert_entry_read }.
#[export] Instance CertificateEntry_list : TlsListElement CertificateEntry := { SIZE_LEN := LL_U24 0x10000 }.

Definition cert_entry_has_duplicate_extension (e : CertificateEntry) : bool :=
  has_duplicate [] ((λ x, enum_get (cert_ext_get_type x)) <$> ce_exts e).

Definition cert_entry_has_unknown_extension (e : CertificateEntry) : bool :=
  existsb (λ x, craft_is_unknown (cert_ext_get_type x)) (ce_exts e).

Definition get_ocsp_response (e : CertificateEntry) : option (list Z) :=
  List.find (λ x, bool_decide (cert_ext_get_type x = ET_StatusRequest)) (ce_exts e) ≫= get_cert_status.

Record CertificatePayloadTls13 := mkCertPayload {
  cp_context : PayloadU8;
  cp_entries : list CertificateEntry;
}.

Definition cert_payload_new (entries : list CertificateEntry) : CertificatePayloadTls13 :=
  mkCertPayload (mkPayloadU8 []) entries.

Definition cert_payload_encode (p : CertificatePayloadTls13) (bytes : list Z) : outcome (list Z) :=
  vec_encode_outcome cert_entry_encode (cp_entries p) (encode (cp_context p) bytes).

Definition cert_payload_read : Read CertificatePayloadTls13 :=
  context ← payload_u8_read; entries ← vec_read; mret (mkCertPayload context entries).

#[export] Instance cert_payload_codec_read : CodecRead CertificatePayloadTls13 := {
  read := cert_payload_read }.

Definition any_entry_has_duplicate_extension (p : CertificatePayloadTls13) : bool :=
  existsb cert_entry_has_duplicate_extension (cp_entries p).
Definition any_entry_has_unknown_extension (p : CertificatePayloadTls13) : bool :=
  existsb cert_entry_has_unknown_extension (cp_entries p).
Definition any_entry_has_extension (p : CertificatePayloadTls13) : bool :=
  existsb (λ e, negb (bool_decide (length (ce_exts e) = 0%nat))) (cp_entries p).
Definition get_end_entity_ocsp (p : CertificatePayloadTls13) : list Z :=
  default [] (head (cp_entries p) ≫= get_ocsp_response).
Definition cert_payload_convert (p : CertificatePayloadTls13) : CertificateChain :=
  mkChain (ce_cert <$> cp_entries p).

Record CompressedCertificatePayload := mkCompressedCert {
  cc_algorithm : CertificateCompressionAlgorithm;
  cc_uncompressed_length : Z;
  cc_message : PayloadU24;
}.

Definition compressed_cert_read : Read CompressedCertificatePayload :=
  algorithm ← enum_read;
  uncompressed_length ← u24_read;
  message ← payload_u24_read;
  mret (mkCompressedCert algorithm uncompressed_length message).

#[export] Instance compressed_cert_codec : Codec CompressedCertificatePayload := {
  encode p bytes :=
    encode (cc_message p) (u24_encode (cc_uncompressed_length p) (encode (cc_algorithm p) bytes));
  codec_read := {| read := compressed_cert_read |};
}.

(** [decompress], with what the provider makes of the message. *)
Inductive DecompressError := FailedCertificateDecompression | DecompressedInvalid (e : ReadError).

Definition decompress (provider : list Z → option (list Z)) (p : CompressedCertificatePayload)
    : result DecompressError CertificatePayloadTls13 :=
  match provider (p24_bytes (cc_message p)) with
  | None => Err FailedCertificateDecompression
  | Some output =>
      if negb (Z.of_nat (length output) =? cc_uncompressed_length p)
      then Err FailedCertificateDecompression
      else match cert_payload_read output with
           | Ok (c, _) => Ok c
           | Err e => Err (DecompressedInvalid e)
           end
  end.

(** ** Key exchanges of TLS 1.2 *)

Record EcParameters := mkEcParameters {
  ep_curve_type : ECCurveType;
  ep_named_group : NamedGroup;
}.

Definition ec_parameters_read : Read EcParameters :=
  ct ← enum_read;
  if decide (ct ≠ EC_NamedCurve) then read_err UnsupportedCurveType
  else grp ← enum_read; mret (mkEcParameters ct grp).

#[export] Instance ec_parameters_codec : Codec EcParameters := {
  encode p bytes := encode (ep_named_group p) (encode (ep_curve_type p) bytes);
  codec_read := {| read := ec_parameters_read |};
}.

Record ClientEcdhParams := mkClientEcdh { cle_public : PayloadU8 }.

Definition client_ecdh_read : Read ClientEcdhParams := pb ← payload_u8_read; mret (mkClientEcdh pb).

#[export] Instance client_ecdh_codec : Codec ClientEcdhParams :=
  { encode p := encode (cle_public p); codec_read := {| read := client_ecdh_read |} }.

Record ServerEcdhParams := mkServerEcdh {
  se_curve_params : EcParameters;
  se_public : PayloadU8;
}.

(** [ServerEcdhParams::new], from the group and the public key of the exchange. *)
Definition server_ecdh_new (group : NamedGroup) (pub : list Z) : ServerEcdhParams :=
  mkServerEcdh (mkEcParameters EC_NamedCurve group) (mkPayloadU8 pub).

Definition server_ecdh_read : Read ServerEcdhParams :=
  cp ← ec_parameters_read; pb ← payload_u8_read; mret (mkServerEcdh cp pb).

#[export] Instance server_ecdh_codec : Codec ServerEcdhParams := {
  encode p bytes := encode (se_public p) (encode (se_curve_params p) bytes);
  codec_read := {| read := server_ecdh_read |};
}.

(** [DigitallySignedStruct] (verify.rs). *)
Record DigitallySignedStruct := mkDss {
  dss_scheme : SignatureScheme;
  dss_sig : PayloadU16;
}.

Definition dss_read : Read DigitallySignedStruct :=
  scheme ← enum_read; sig ← payload_u16_read; mret (mkDss scheme sig).

#[export] Instance dss_codec : Codec DigitallySignedStruct := {
  encode d bytes := encode (dss_sig d) (encode (dss_scheme d) bytes);
  codec_read := {| read := dss_read |};
}.

Record EcdheServerKeyExchange := mkEcdhe {
  ecdhe_params : ServerEcdhParams;
  ecdhe_dss : DigitallySignedStruct;
}.

Definition ecdhe_read : Read EcdheServerKeyExchange :=
  params ← server_ecdh_read; dss ← dss_read; mret (mkEcdhe params dss).

#[export] Instance ecdhe_codec : Codec EcdheServerKeyExchange := {
  encode x bytes := encode (ecdhe_dss x) (encode (ecdhe_params x) bytes);
  codec_read := {| read := ecdhe_read |};
}.

(** Read as [SKX_Unknown]: its contents depend on the suite. *)
Inductive ServerKeyExchangePayload :=
  | SKX_Ecdhe (x : EcdheServerKeyExchange)
  | SKX_Unknown (p : Payload).

Definition skx_read : Read ServerKeyExchangePayload := p ← payload_read; mret (SKX_Unknown p).

#[export] Instance skx_codec : Codec ServerKeyExchangePayload := {
  encode x := match x with SKX_Ecdhe x => encode x | SKX_Unknown p => encode p end;
  codec_read := {| read := skx_read |};
}.

Definition unwrap_given_kxa (x : ServerKeyExchangePayload) (kxa : KeyExchangeAlgorithm)
    : option EcdheServerKeyExchange :=
  match x with
  | SKX_Unknown unk =>
      match kxa, ecdhe_read (payload_bytes unk) with
      | ECDHE, Ok (x, []) => Some x
      | _, _ => None
      end
  | SKX_Ecdhe _ => None
  end.

(** ** Certificate requests *)

#[export] Instance ClientCertificateType_list : TlsListElement ClientCertificateType := { SIZE_LEN := LL_U8 }.

Record DistinguishedName := mkDn { dn_payload : PayloadU16 }.

Definition dn_read : Read DistinguishedName := p ← payload_u16_read; mret (mkDn p).

#[export] Instance dn_codec : Codec DistinguishedName :=
  { encode x := encode (dn_payload x); codec_read := {| read := dn_read |} }.
#[export] Instance DistinguishedName_list : TlsListElement DistinguishedName := { SIZE_LEN := LL_U16 }.

Record CertificateRequestPayload := mkCertRequest {
  cr_certtypes : list ClientCertificateType;
  cr_sigschemes : list SignatureScheme;
  cr_canames : list DistinguishedName;
}.

Definition cert_request_read : Read CertificateRequestPayload :=
  certtypes ← vec_read;
  sigschemes ← vec_read;
  canames ← vec_read;
  match sigschemes with
  | [] => read_err NoSignatureSchemes
  | _ => mret (mkCertRequest certtypes sigschemes canames)
  end.

#[export] Instance cert_request_codec : Codec CertificateRequestPayload := {
  encode p bytes := encode (cr_canames p) (encode (cr_sigschemes p) (encode (cr_certtypes p) bytes));
  codec_read := {| read := cert_request_read |};
}.

Inductive CertReqExtension :=
  | CRX_SignatureAlgorithms (l : list SignatureScheme)
  | CRX_AuthorityNames (l : list DistinguishedName)
  | CRX_Unknown (u : UnknownExtension).

Definition cert_req_get_type (e : CertReqExtension) : ExtensionType :=
  match e with
  | CRX_SignatureAlgorithms _ => ET_SignatureAlgorithms
  | CRX_AuthorityNames _ => ET_CertificateAuthorities
  | CRX_Unknown r => ux_typ r
  end.

Definition cert_req_extension_encode (e : CertReqExtension) (bytes : list Z) : list Z :=
  nested LL_U16 (match e with
                 | CRX_SignatureAlgorithms r => encode r
                 | CRX_AuthorityNames r => encode r
                 | CRX_Unknown r => unknown_extension_encode r
                 end) (encode (cert_req_get_type e) bytes).

Definition cert_req_extension_contents (typ : ExtensionType) : Read CertReqExtension :=
  match typ with
  | ET_SignatureAlgorithms =>
      schemes ← vec_read;
      match schemes with
      | [] => read_err NoSignatureSchemes
      | _ => mret (CRX_SignatureAlgorithms schemes)
      end
  | ET_CertificateAuthorities => cas ← vec_read; mret (CRX_AuthorityNames cas)
  | _ => u ← unknown_extension_read typ; mret (CRX_Unknown u)
  end.

Definition cert_req_extension_read : Read CertReqExtension :=
  typ ← enum_read;
  len ← u16_read;
  sub ← reader_sub (Z.to_nat len);
  '(ext, sub) ← on_sub sub (cert_req_extension_contents typ);
  _ ← expect_empty "CertReqExtension" sub;
  mret ext.

#[export] Instance cert_req_extension_codec : Codec CertReqExtension := {
  encode := cert_req_extension_encode;
  codec_read := {| read := cert_req_extension_read |};
}.
#[export] Instance CertReqExtension_list : TlsListElement CertReqExtension := { SIZE_LEN := LL_U16 }.

Record CertificateRequestPayloadTls13 := mkCertRequest13 {
  crq_context : PayloadU8;
  crq_extensions : list CertReqExtension;
}.

Definition cert_request13_read : Read CertificateRequestPayloadTls13 :=
  context ← payload_u8_read; extensions ← vec_read; mret (mkCertRequest13 context extensions).

#[export] Instance cert_request13_codec : Codec CertificateRequestPayloadTls13 := {
  encode p bytes := encode (crq_extensions p) (encode (crq_context p) bytes);
  codec_read := {| read := cert_request13_read |};
}.

Definition crq_find_extension (p : CertificateRequestPayloadTls13) (typ : ExtensionType)
    : option CertReqExtension :=
  List.find (λ x, bool_decide (cert_req_get_type x = typ)) (crq_extensions p).

Definition crq_get_sigalgs_extension (p : CertificateRequestPayloadTls13) : option (list SignatureScheme) :=
  match crq_find_extension p ET_SignatureAlgorithms with
  | Some (CRX_SignatureAlgorithms sa) => Some sa
  | _ => None
  end.

Definition get_authorities_extension (p : CertificateRequestPayloadTls13) : option (list DistinguishedName) :=
  match crq_find_extension p ET_CertificateAuthorities with
  | Some (CRX_AuthorityNames an) => Some an
  | _ => None
  end.

(** ** Session tickets *)

Record NewSessionTicketPayload := mkTicket {
  nst_lifetime_hint : Z;
  nst_ticket : PayloadU16;
}.

Definition ticket_read : Read NewSessionTicketPayload :=
  lifetime ← u32_read; ticket ← payload_u16_read; mret (mkTicket lifetime ticket).

#[export] Instance ticket_codec : Codec NewSessionTicketPayload := {
  encode p bytes := encode (nst_ticket p) (u32_encode (nst_lifetime_hint p) bytes);
  codec_read := {| read := ticket_read |};
}.

Inductive NewSessionTicketExtension :=
  | NST_EarlyData (size : Z)
  | NST_Unknown (u : UnknownExtension).

Definition nst_get_type (e : NewSessionTicketExtension) : ExtensionType :=
  match e with NST_EarlyData _ => ET_EarlyData | NST_Unknown r => ux_typ r end.

Definition nst_extension_encode (e : NewSessionTicketExtension) (bytes : list Z) : list Z :=
  nested LL_U16 (match e with
                 | NST_EarlyData r => u32_encode r
                 | NST_Unknown r => unknown_extension_encode r
                 end) (encode (nst_get_type e) bytes).

Definition nst_extension_contents (typ : ExtensionType) : Read NewSessionTicketExtension :=
  match typ with
  | ET_EarlyData => size ← u32_read; mret (NST_EarlyData size)
  | _ => u ← unknown_extension_read typ; mret (NST_Unknown u)
  end.

Definition nst_extension_read : Read NewSessionTicketExtension :=
  typ ← enum_read;
  len ← u16_read;
  sub ← reader_sub (Z.to_nat len);
  '(ext, sub) ← on_sub sub (nst_extension_contents typ);
  _ ← expect_empty "NewSessionTicketExtension" sub;
  mret ext.

#[export] Instance nst_extension_codec : Codec NewSessionTicketExtension := {
  encode := nst_extension_encode;
  codec_read := {| read := nst_extension_read |};
}.
#[export] Instance NewSessionTicketExtension_list : TlsListElement NewSessionTicketExtension :=
  { SIZE_LEN := LL_U16 }.

Record NewSessionTicketPayloadTls13 := mkTicket13 {
  nst13_lifetime : Z;
  nst13_age_add : Z;
  nst13_nonce : PayloadU8;
  nst13_ticket : PayloadU16;
  nst13_exts : list NewSessionTicketExtension;
}.

Definition ticket13_read : Read NewSessionTicketPayloadTls13 :=
  lifetime ← u32_read;
  age_add ← u32_read;
  nonce ← payload_u8_read;
  ticket ← payload_u16_read;
  exts ← vec_read;
  mret (mkTicket13 lifetime age_add nonce ticket exts).

#[export] Instance ticket13_codec : Codec NewSessionTicketPayloadTls13 := {
  encode p bytes :=
    encode (nst13_exts p) (encode (nst13_ticket p) (encode (nst13_nonce p)
      (u32_encode (nst13_age_add p) (u32_encode (nst13_lifetime p) bytes))));
  codec_read := {| read := ticket13_read |};
}.

Definition nst13_has_duplicate_extension (p : NewSessionTicketPayloadTls13) : bool :=
  has_duplicate [] ((λ x, enum_get (nst_get_type x)) <$> nst13_exts p).

Definition nst_find_extension (p : NewSessionTicketPayloadTls13) (typ : ExtensionType)
    : option NewSessionTicketExtension :=
  List.find (λ x, bool_decide (nst_get_type x = typ)) (nst13_exts p).

Definition get_max_early_data_size (p : NewSessionTicketPayloadTls13) : option Z :=
  match nst_find_extension p ET_EarlyData with
  | Some (NST_EarlyData sz) => Some sz
  | _ => None
  end.

(** ** Handshake messages *)

Inductive HandshakePayload :=
  | HP_HelloRequest
  | HP_ClientHello (h : ClientHelloPayload)
  | HP_ServerHello (h : ServerHelloPayload)
  | HP_HelloRetryRequest (h : HelloRetryRequest)
  | HP_Certificate (c : CertificateChain)
  | HP_CertificateTls13 (p : CertificatePayloadTls13)
  | HP_ServerKeyExchange (p : ServerKeyExchangePayload)
  | HP_CompressedCertificate (p : CompressedCertificatePayload)
  | HP_CertificateRequest (p : CertificateRequestPayload)
  | HP_CertificateRequestTls13 (p : CertificateRequestPayloadTls13)
  | HP_CertificateVerify (d : DigitallySignedStruct)
  | HP_ServerHelloDone
  | HP_EndOfEarlyData
  | HP_ClientKeyExchange (p : Payload)
  | HP_NewSessionTicket (p : NewSessionTicketPayload)
  | HP_NewSessionTicketTls13 (p : NewSessionTicketPayloadTls13)
  | HP_EncryptedExtensions (l : list ServerExtension)
  | HP_KeyUpdate (k : KeyUpdateRequest)
  | HP_Finished (p : Payload)
  | HP_CertificateStatus (s : CertificateStatus)
  | HP_MessageHash (p : Payload)
  | HP_Unknown (p : Payload).

Record HandshakeMessagePayload := mkHandshake {
  hm_typ : HandshakeType;
  hm_payload : HandshakePayload;
}.

Section Messages.
Context `{DnsNames}.

Definition handshake_payload_encode (p : HandshakePayload) (bytes : list Z) : outcome (list Z) :=
  match p with
  | HP_HelloRequest | HP_ServerHelloDone | HP_EndOfEarlyData => Done bytes
  | HP_ClientHello x => Done (client_hello_encode x bytes)
  | HP_ServerHello x => Done (server_hello_encode x bytes)
  | HP_HelloRetryRequest x => Done (hrr_encode x bytes)
  | HP_Certificate x => Done (encode x bytes)
  | HP_CertificateTls13 x => cert_payload_encode x bytes
  | HP_CompressedCertificate x => Done (encode x bytes)
  | HP_ServerKeyExchange x => Done (encode x bytes)
  | HP_ClientKeyExchange x => Done (encode x bytes)
  | HP_CertificateRequest x => Done (encode x bytes)
  | HP_CertificateRequestTls13 x => Done (encode x bytes)
  | HP_CertificateVerify x => Done (encode x bytes)
  | HP_NewSessionTicket x => Done (encode x bytes)
  | HP_NewSessionTicketTls13 x => Done (encode x bytes)
  | HP_EncryptedExtensions x => Done (encode x bytes)
  | HP_KeyUpdate x => Done (encode x bytes)
  | HP_Finished x => Done (encode x bytes)
  | HP_CertificateStatus x => Done (encode x bytes)
  | HP_MessageHash x => Done (encode x bytes)
  | HP_Unknown x => Done (encode x bytes)
  end.

(** A retry request goes out as a ServerHello. *)
Definition handshake_encode (m : HandshakeMessagePayload) (bytes : list Z) : outcome (list Z) :=
  let typ := match hm_typ m with HT_HelloRetryRequest => HT_ServerHello | t => t end in
  nested_outcome (LL_U24 (2 ^ 64 - 1)) (handshake_payload_encode (hm_payload m)) (encode typ bytes).

(** The message of a client hello. *)
Definition handshake_client_hello_encode (h : ClientHelloPayload) (bytes : list Z) : list Z :=
  nested (LL_U24 (2 ^ 64 - 1)) (client_hello_encode h) (encode HT_ClientHello bytes).

(** What the random of a ServerHello says it is. *)
Definition server_hello_or_retry_read : Read HandshakeMessagePayload :=
  version ← enum_read;
  random ← random_read;
  if decide (random = HELLO_RETRY_REQUEST_RANDOM) then
    h ← hrr_read;
    mret (mkHandshake HT_HelloRetryRequest (HP_HelloRetryRequest (h <| hrr_legacy_version := version |>)))
  else
    h ← server_hello_read;
    mret (mkHandshake HT_ServerHello
            (HP_ServerHello (h <| sh_legacy_version := version |> <| sh_random := random |>))).

(** The contents of a message, by its type and the version of the connection. *)
Definition handshake_contents_read (vers : ProtocolVersion) (typ : HandshakeType)
    : Read HandshakeMessagePayload :=
  let tls13 := bool_decide (vers = PV_TLSv1_3) in
  let ret p := mret (mkHandshake typ p) in
  let unknown := p ← payload_read; ret (HP_Unknown p) in
  match typ with
  | HT_HelloRequest => if_left unknown (ret HP_HelloRequest)
  | HT_ClientHello => h ← client_hello_read; ret (HP_ClientHello h)
  | HT_ServerHello => server_hello_or_retry_read
  | HT_Certificate =>
      if tls13 then p ← cert_payload_read; ret (HP_CertificateTls13 p)
      else c ← chain_read; ret (HP_Certificate c)
  | HT_CompressedCertificate =>
      if tls13 then p ← compressed_cert_read; ret (HP_CompressedCertificate p) else unknown
  | HT_ServerKeyExchange => p ← skx_read; ret (HP_ServerKeyExchange p)
  | HT_ServerHelloDone =>
      if_left (read_err (TrailingData "ServerHelloDone")) (ret HP_ServerHelloDone)
  | HT_ClientKeyExchange => p ← payload_read; ret (HP_ClientKeyExchange p)
  | HT_CertificateRequest =>
      if tls13 then p ← cert_request13_read; ret (HP_CertificateRequestTls13 p)
      else p ← cert_request_read; ret (HP_CertificateRequest p)
  | HT_CertificateVerify => d ← dss_read; ret (HP_CertificateVerify d)
  | HT_NewSessionTicket =>
      if tls13 then p ← ticket13_read; ret (HP_NewSessionTicketTls13 p)
      else p ← ticket_read; ret (HP_NewSessionTicket p)
  | HT_EncryptedExtensions => l ← vec_read; ret (HP_EncryptedExtensions l)
  | HT_KeyUpdate => k ← enum_read; ret (HP_KeyUpdate k)
  | HT_EndOfEarlyData =>
      if_left (read_err (TrailingData "EndOfEarlyData")) (ret HP_EndOfEarlyData)
  | HT_Finished => p ← payload_read; ret (HP_Finished p)
  | HT_CertificateStatus => s ← cert_status_read; ret (HP_CertificateStatus s)
  | HT_MessageHash => read_err (UnexpectedMessage "MessageHash")
  | HT_HelloRetryRequest => read_err (UnexpectedMessage "HelloRetryRequest")
  | _ => unknown
  end.

(** [read_version]. *)
Definition handshake_read_version (vers : ProtocolVersion) : Read HandshakeMessagePayload :=
  typ ← enum_read;
  len ← u24_read;
  sub ← reader_sub (Z.to_nat len);
  '(m, sub) ← on_sub sub (handshake_contents_read vers typ);
  _ ← expect_empty "HandshakeMessagePayload" sub;
  mret m.

(** [build_key_update_notify]. *)
Definition build_key_update_notify : HandshakeMessagePayload :=
  mkHandshake HT_KeyUpdate (HP_KeyUpdate KU_UpdateNotRequested).

(** [get_encoding_for_binder_signing]: a hello without the binders of its offer. *)
Definition encoding_for_binder_signing (h : ClientHelloPayload) : list Z :=
  let ret := handshake_client_hello_encode h [] in
  let binder_len := match last (ch_extensions h) with
                    | Some (PresharedKey offer) => length (encode (psk_binders offer) [])
                    | _ => 0%nat
                    end in
  firstn (length ret - binder_len) ret.

(** [build_handshake_hash], written. *)
Definition handshake_hash_encode (hash : list Z) : list Z :=
  nested (LL_U24 (2 ^ 64 - 1)) (λ b, b ++ hash) (encode HT_MessageHash []).

(** Writing the message of a client hello does not panic. *)
Lemma client_hello_message_encode h bytes :
  handshake_encode (mkHandshake HT_ClientHello (HP_ClientHello h)) bytes =
    Done (handshake_client_hello_encode h bytes).
Proof. done. Qed.
End Messages.
