(* ===== verification/TlsRecord.v ===== *)
(** * TlsRecord: messages and their records
    (craftls/rustls/src/msgs/message.rs, alert.rs, ccs.rs, fragmenter.rs, record_layer.rs,
    vecbuf.rs, crypto/cipher.rs, crypto/ring/tls13.rs, and what common_state.rs sends)

    How a message becomes the payloads of records, how records are written, read and
    protected under TLS 1.3, and the numbers that protection counts. The AEAD is ring's, a
    parameter. Buffers are lists of chunks. *)

From S2P Require Import Prelude TlsCodec TlsEnums TlsHello TlsMessages.

(** ** Messages *)

Record AlertMessagePayload := mkAlert {
  al_level : AlertLevel;
  al_description : AlertDescription;
}.

(** [expect_empty] of the reader itself. *)
Definition expect_end (name : string) : Read () := λ r, expect_empty name r r.

Definition alert_read : Read AlertMessagePayload :=
  level ← enum_read;
  description ← enum_read;
  _ ← expect_end "AlertMessagePayload";
  mret (mkAlert level description).

#[export] Instance alert_codec : Codec AlertMessagePayload := {
  encode a bytes := encode (al_description a) (encode (al_level a) bytes);
  codec_read := {| read := alert_read |};
}.

Definition ccs_encode (bytes : list Z) : list Z := u8_encode 1 bytes.
Definition ccs_read : Read () :=
  typ ← u8_read;
  if negb (typ =? 1) then read_err InvalidCcs
  else expect_end "ChangeCipherSpecPayload".

Inductive MessagePayload :=
  | MP_Alert (a : AlertMessagePayload)
  | MP_Handshake (parsed : HandshakeMessagePayload) (encoded : list Z)
  | MP_ChangeCipherSpec
  | MP_ApplicationData (payload : list Z).

Record Message := mkMessage {
  m_version : ProtocolVersion;
  m_payload : MessagePayload;
}.

(** [OpaqueMessage] is a record as it is on the wire, [PlainMessage] one without protection. *)
Record PlainMessage := mkPlain {
  pm_typ : ContentType;
  pm_version : ProtocolVersion;
  pm_payload : list Z;
}.

Record OpaqueMessage := mkOpaque {
  om_typ : ContentType;
  om_version : ProtocolVersion;
  om_payload : list Z;
}.

Definition into_unencrypted_opaque (m : PlainMessage) : OpaqueMessage :=
  mkOpaque (pm_typ m) (pm_version m) (pm_payload m).
Definition into_plain_message (m : OpaqueMessage) : PlainMessage :=
  mkPlain (om_typ m) (om_version m) (om_payload m).

Definition content_type (p : MessagePayload) : ContentType :=
  match p with
  | MP_Alert _ => CO_Alert
  | MP_Handshake _ _ => CO_Handshake
  | MP_ChangeCipherSpec => CO_ChangeCipherSpec
  | MP_ApplicationData _ => CO_ApplicationData
  end.

Definition payload_encode (p : MessagePayload) (bytes : list Z) : list Z :=
  match p with
  | MP_Alert x => encode x bytes
  | MP_Handshake _ encoded => bytes ++ encoded
  | MP_ChangeCipherSpec => ccs_encode bytes
  | MP_ApplicationData x => bytes ++ x
  end.

(** [MessagePayload::handshake]; writing a message may panic. *)
Definition payload_handshake `{DnsNames} (parsed : HandshakeMessagePayload) : outcome MessagePayload :=
  encoded ← handshake_encode parsed []; Done (MP_Handshake parsed encoded).

(** [MessagePayload::new]. *)
Definition payload_new `{DnsNames} (typ : ContentType) (vers : ProtocolVersion) (payload : list Z)
    : result ReadError MessagePayload :=
  match typ with
  | CO_ApplicationData => Ok (MP_ApplicationData payload)
  | CO_Alert => (λ '(a, _), MP_Alert a) <$> alert_read payload
  | CO_Handshake => (λ '(m, _), MP_Handshake m payload) <$> handshake_read_version vers payload
  | CO_ChangeCipherSpec => (λ _, MP_ChangeCipherSpec) <$> ccs_read payload
  | _ => Err (Invalid InvalidContentType)
  end.

(** [Message::try_from] and [PlainMessage::from]. *)
Definition message_of_plain `{DnsNames} (m : PlainMessage) : result ReadError Message :=
  mkMessage (pm_version m) <$> payload_new (pm_typ m) (pm_version m) (pm_payload m).
Definition plain_of_message (m : Message) : PlainMessage :=
  mkPlain (content_type (m_payload m)) (m_version m) (payload_encode (m_payload m) []).

Definition is_handshake_type (m : Message) (typ : HandshakeType) : bool :=
  match m_payload m with MP_Handshake parsed _ => bool_decide (hm_typ parsed = typ) | _ => false end.

Definition build_alert (level : AlertLevel) (desc : AlertDescription) : Message :=
  mkMessage PV_TLSv1_2 (MP_Alert (mkAlert level desc)).

(** ** Records on the wire *)

Inductive MessageError :=
  | ME_TooShortForHeader | ME_TooShortForLength | ME_InvalidEmptyPayload | ME_MessageTooLarge
  | ME_InvalidContentType | ME_UnknownProtocolVersion.

Definition MAX_FRAGMENT_LEN : Z := 16384.
Definition PACKET_OVERHEAD : Z := 5.
Definition MAX_FRAGMENT_SIZE : Z := MAX_FRAGMENT_LEN + PACKET_OVERHEAD.
Definition MAX_PAYLOAD : Z := 16384 + 2048.

Definition opaque_encode (m : OpaqueMessage) : list Z :=
  let buf := encode (om_typ m) [] in
  let buf := encode (om_version m) buf in
  let buf := u16_encode (Z.of_nat (length (om_payload m))) buf in
  buf ++ om_payload m.

(** [OpaqueMessage::read]; what is left of the bytes comes with the record. *)
Definition header {A} (m : Read A) (r : Reader) : result MessageError (A * Reader) :=
  match m r with Ok x => Ok x | Err _ => Err ME_TooShortForHeader end.

Definition opaque_read (r : Reader) : result MessageError (OpaqueMessage * Reader) :=
  '(typ, r) ← header (enum_read (E := ContentType)) r;
  if craft_is_unknown typ then Err ME_InvalidContentType
  else
    '(version, r) ← header (enum_read (E := ProtocolVersion)) r;
    if (match version with PV_Unknown v => negb (Z.land v 0xff00 =? 0x0300) | _ => false end)
    then Err ME_UnknownProtocolVersion
    else
      '(len, r) ← header u16_read r;
      if negb (bool_decide (typ = CO_ApplicationData)) && (len =? 0) then Err ME_InvalidEmptyPayload
      else if MAX_PAYLOAD <=? len then Err ME_MessageTooLarge
      else match reader_sub (Z.to_nat len) r with
           | Ok (payload, r) => Ok (mkOpaque typ version payload, r)
           | Err _ => Err ME_TooShortForLength
           end.

(** ** Fragments *)

(** [slice::chunks], of at least one byte; the fuel is the length of the slice. *)
Fixpoint chunks_fuel {A} (fuel n : nat) (l : list A) : list (list A) :=
  match fuel, l with
  | S fuel, _ :: _ => firstn n l :: chunks_fuel fuel n (skipn n l)
  | _, _ => []
  end.
Definition chunks {A} (n : nat) (l : list A) : list (list A) := chunks_fuel (length l) n l.

Definition fragment_slice (max_frag : nat) (typ : ContentType) (version : ProtocolVersion)
    (payload : list Z) : list PlainMessage :=
  mkPlain typ version <$> chunks max_frag payload.

Definition fragment_message (max_frag : nat) (m : PlainMessage) : list PlainMessage :=
  fragment_slice max_frag (pm_typ m) (pm_version m) (pm_payload m).

(** [None] is the error [BadMaxFragmentSize]. *)
Definition set_max_fragment_size (max_fragment_size : option Z) : option nat :=
  match max_fragment_size with
  | None => Some (Z.to_nat MAX_FRAGMENT_LEN)
  | Some sz =>
      if (32 <=? sz) && (sz <=? MAX_FRAGMENT_SIZE) then Some (Z.to_nat (sz - PACKET_OVERHEAD))
      else None
  end.

(** ** Protection (crypto/cipher.rs, crypto/ring/tls13.rs) *)

Inductive AeadAlgorithm := CHACHA20_POLY1305 | AES_256_GCM | AES_128_GCM.

#[export] Instance aead_eq_dec : EqDecision AeadAlgorithm.
Proof. solve_decision. Defined.

(** What ring does: sealing appends a tag; neither works for every key, nonce and text. *)
Class RingAead := {
  aead_key_len : AeadAlgorithm → nat;
  aead_tag_len : AeadAlgorithm → nat;
  aead_seal : AeadAlgorithm → list Z → list Z → list Z → list Z → option (list Z);
  aead_open : AeadAlgorithm → list Z → list Z → list Z → list Z → option (list Z);
}.

(** A [MessageEncrypter] or [MessageDecrypter]: both have a key and an iv of 12 bytes. *)
Record MessageKey := mkMessageKey {
  mk_aead : AeadAlgorithm;
  mk_key : list Z;
  mk_iv : list Z;
}.

#[export] Instance message_key_eq_dec : EqDecision MessageKey.
Proof. solve_decision. Defined.

(** [AeadAlgorithm::encrypter] and [decrypter]: [UnboundKey::new] refuses other lengths. *)
Definition message_key `{RingAead} (a : AeadAlgorithm) (key iv : list Z) : outcome MessageKey :=
  if (length key =? aead_key_len a)%nat then Done (mkMessageKey a key iv) else Panic.

(** [Nonce::new]: the sequence number behind four zeros, and the iv. *)
Definition nonce_new (iv : list Z) (seq : Z) : list Z :=
  zip_with Z.lxor (replicate 4 0 ++ be_bytes 8 seq) iv.

Definition make_tls13_aad (payload_len : Z) : list Z :=
  [enum_get CO_ApplicationData;
   Z.shiftr (enum_get PV_TLSv1_2) 8 mod 256;
   Z.land (enum_get PV_TLSv1_2) 0xff;
   Z.shiftr payload_len 8 mod 256;
   Z.land payload_len 0xff].

Inductive RecordError :=
  | RE_EncryptError | RE_DecryptError | RE_PeerSentOversizedRecord | RE_IllegalTlsInnerPlaintext.

(** [unpad_tls13]: pops zeros from the end, up to the content type; here on the reversed
    payload, which gives back what is left of it in order. *)
Fixpoint unpad_reversed (l : list Z) : ContentType * list Z :=
  match l with
  | [] => (CO_Unknown 0, [])
  | x :: l => if x =? 0 then unpad_reversed l else (enum_of x, rev l)
  end.
Definition unpad_tls13 (v : list Z) : ContentType * list Z := unpad_reversed (rev v).

Definition into_tls13_unpadded_message (m : OpaqueMessage) : result RecordError PlainMessage :=
  if MAX_FRAGMENT_LEN + 1 <? Z.of_nat (length (om_payload m)) then Err RE_PeerSentOversizedRecord
  else
    let '(typ, payload) := unpad_tls13 (om_payload m) in
    if bool_decide (typ = CO_Unknown 0) then Err RE_IllegalTlsInnerPlaintext
    else if MAX_FRAGMENT_LEN <? Z.of_nat (length payload) then Err RE_PeerSentOversizedRecord
    else Ok (mkPlain typ PV_TLSv1_3 payload).

Section Records.
Context `{RingAead}.

Definition encrypted_payload_len (k : MessageKey) (payload_len : nat) : nat :=
  payload_len + 1 + aead_tag_len (mk_aead k).

(** [Tls13MessageEncrypter::encrypt]. *)
Definition message_encrypt (k : MessageKey) (msg : PlainMessage) (seq : Z)
    : result RecordError OpaqueMessage :=
  let total_len := encrypted_payload_len k (length (pm_payload msg)) in
  let payload := encode (pm_typ msg) (pm_payload msg) in
  match aead_seal (mk_aead k) (mk_key k) (nonce_new (mk_iv k) seq)
          (make_tls13_aad (Z.of_nat total_len)) payload with
  | Some sealed => Ok (mkOpaque CO_ApplicationData PV_TLSv1_2 sealed)
  | None => Err RE_EncryptError
  end.

(** [Tls13MessageDecrypter::decrypt]. *)
Definition message_decrypt (k : MessageKey) (msg : OpaqueMessage) (seq : Z)
    : result RecordError PlainMessage :=
  let payload := om_payload msg in
  if (length payload <? aead_tag_len (mk_aead k))%nat then Err RE_DecryptError
  else match aead_open (mk_aead k) (mk_key k) (nonce_new (mk_iv k) seq)
               (make_tls13_aad (Z.of_nat (length payload))) payload with
       | Some plain => into_tls13_unpadded_message (msg <| om_payload := plain |>)
       | None => Err RE_DecryptError
       end.

(** ** The record layer (record_layer.rs)

    Assertions of debug builds are left out. Before there is a key, encrypter and decrypter
    are those that do not work. *)

Definition SEQ_SOFT_LIMIT : Z := 0xffffffffffff0000.
Definition SEQ_HARD_LIMIT : Z := 0xfffffffffffffffe.

Inductive DirectionState := DS_Invalid | DS_Prepared | DS_Active.

Record RecordLayer := mkLayer {
  rl_encrypter : option MessageKey;
  rl_decrypter : option MessageKey;
  rl_write_seq : Z;
  rl_read_seq : Z;
  rl_has_decrypted : bool;
  rl_encrypt_state : DirectionState;
  rl_decrypt_state : DirectionState;
  rl_trial_decryption_len : option Z;
}.

Definition record_layer_new : RecordLayer :=
  mkLayer None None 0 0 false DS_Invalid DS_Invalid None.

Definition is_encrypting (l : RecordLayer) : bool :=
  match rl_encrypt_state l with DS_Active => true | _ => false end.
Definition wants_close_before_encrypt (l : RecordLayer) : bool := rl_write_seq l =? SEQ_SOFT_LIMIT.
Definition encrypt_exhausted (l : RecordLayer) : bool := SEQ_HARD_LIMIT <=? rl_write_seq l.

(** [encrypt_outgoing]: it panics when the numbers are used up, or without a key. *)
Definition encrypt_outgoing (plain : PlainMessage) (l : RecordLayer)
    : outcome (OpaqueMessage * RecordLayer) :=
  if encrypt_exhausted l then Panic
  else
    let seq := rl_write_seq l in
    match rl_encrypter l with
    | Some k =>
        match message_encrypt k plain seq with
        | Ok em => Done (em, l <| rl_write_seq := (seq + 1) mod 2 ^ 64 |>)
        | Err _ => Panic
        end
    | None => Panic
    end.

Record Decrypted := mkDecrypted {
  dc_want_close_before_decrypt : bool;
  dc_plaintext : PlainMessage;
}.

(** [doing_trial_decryption]. *)
Definition doing_trial_decryption (requested : Z) (l : RecordLayer) : bool * RecordLayer :=
  match rl_trial_decryption_len l with
  | Some value =>
      if requested <=? value then (true, l <| rl_trial_decryption_len := Some (value - requested) |>)
      else (false, l)
  | None => (false, l)
  end.

(** [decrypt_incoming]; [None] is a record that is dropped. *)
Definition decrypt_incoming (encr : OpaqueMessage) (l : RecordLayer)
    : result RecordError (option Decrypted) * RecordLayer :=
  match rl_decrypt_state l with
  | DS_Active =>
      let want_close := rl_read_seq l =? SEQ_SOFT_LIMIT in
      let encrypted_len := Z.of_nat (length (om_payload encr)) in
      match (match rl_decrypter l with
             | Some k => message_decrypt k encr (rl_read_seq l)
             | None => Err RE_DecryptError
             end) with
      | Ok plaintext =>
          (Ok (Some (mkDecrypted want_close plaintext)),
           l <| rl_read_seq := (rl_read_seq l + 1) mod 2 ^ 64 |> <| rl_has_decrypted := true |>)
      | Err RE_DecryptError =>
          let '(trial, l) := doing_trial_decryption encrypted_len l in
          (if trial then Ok None else Err RE_DecryptError, l)
      | Err e => (Err e, l)
      end
  | _ => (Ok (Some (mkDecrypted false (into_plain_message encr))), l)
  end.

Definition prepare_message_encrypter (k : MessageKey) (l : RecordLayer) : RecordLayer :=
  l <| rl_encrypter := Some k |> <| rl_write_seq := 0 |> <| rl_encrypt_state := DS_Prepared |>.
Definition prepare_message_decrypter (k : MessageKey) (l : RecordLayer) : RecordLayer :=
  l <| rl_decrypter := Some k |> <| rl_read_seq := 0 |> <| rl_decrypt_state := DS_Prepared |>.
Definition start_encrypting (l : RecordLayer) : RecordLayer := l <| rl_encrypt_state := DS_Active |>.
Definition start_decrypting (l : RecordLayer) : RecordLayer := l <| rl_decrypt_state := DS_Active |>.

Definition set_message_encrypter (k : MessageKey) (l : RecordLayer) : RecordLayer :=
  start_encrypting (prepare_message_encrypter k l).
Definition set_message_decrypter (k : MessageKey) (l : RecordLayer) : RecordLayer :=
  start_decrypting (prepare_message_decrypter k l) <| rl_trial_decryption_len := None |>.
Definition set_message_decrypter_with_trial_decryption (k : MessageKey) (max_length : Z)
    (l : RecordLayer) : RecordLayer :=
  start_decrypting (prepare_message_decrypter k l) <| rl_trial_decryption_len := Some max_length |>.
Definition finish_trial_decryption (l : RecordLayer) : RecordLayer :=
  l <| rl_trial_decryption_len := None |>.
End Records.

(** ** Buffers (vecbuf.rs) *)

Record ChunkVecBuffer := mkChunks {
  cv_chunks : list (list Z);
  cv_limit : option Z;
}.

Definition cv_new (limit : option Z) : ChunkVecBuffer := mkChunks [] limit.
Definition cv_is_empty (b : ChunkVecBuffer) : bool := match cv_chunks b with [] => true | _ => false end.
Definition cv_len (b : ChunkVecBuffer) : Z := Z.of_nat (length (concat (cv_chunks b))).
Definition cv_is_full (b : ChunkVecBuffer) : bool :=
  match cv_limit b with Some limit => limit <? cv_len b | None => false end.

Definition apply_limit (b : ChunkVecBuffer) (len : nat) : nat :=
  match cv_limit b with
  | Some limit => Nat.min len (Z.to_nat (limit - cv_len b))
  | None => len
  end.

Definition cv_append (bytes : list Z) (b : ChunkVecBuffer) : ChunkVecBuffer :=
  match bytes with [] => b | _ => b <| cv_chunks := cv_chunks b ++ [bytes] |> end.

Definition append_limited_copy (bytes : list Z) (b : ChunkVecBuffer) : nat * ChunkVecBuffer :=
  let take := apply_limit b (length bytes) in
  (take, cv_append (firstn take bytes) b).

Definition cv_pop (b : ChunkVecBuffer) : option (list Z) * ChunkVecBuffer :=
  match cv_chunks b with
  | [] => (None, b)
  | c :: cs => (Some c, b <| cv_chunks := cs |>)
  end.

(** The loop of [consume]. *)
Fixpoint consume_chunks (used : nat) (cs : list (list Z)) : list (list Z) :=
  match cs with
  | [] => []
  | buf :: cs =>
      if (used <? length buf)%nat then skipn used buf :: cs
      else consume_chunks (used - length buf) cs
  end.
Definition cv_consume (used : nat) (b : ChunkVecBuffer) : ChunkVecBuffer :=
  b <| cv_chunks := consume_chunks used (cv_chunks b) |>.

(** The loop of [read], into a buffer of [n] bytes: a chunk gives what fits. *)
Fixpoint read_chunks (fuel n : nat) (cs : list (list Z)) : list Z * list (list Z) :=
  match fuel, n, cs with
  | S fuel, S _, c :: _ =>
      let used := Nat.min n (length c) in
      let '(rest, cs') := read_chunks fuel (n - used) (consume_chunks used cs) in
      (firstn used c ++ rest, cs')
  | _, _, _ => ([], cs)
  end.
Definition cv_read (n : nat) (b : ChunkVecBuffer) : list Z * ChunkVecBuffer :=
  let '(bytes, cs) := read_chunks (length (cv_chunks b) + n) n (cv_chunks b) in
  (bytes, b <| cv_chunks := cs |>).

(** ** Sending (common_state.rs)

    What of [CommonState] sends. Sending a record may send an alert first, which is sent as
    a record, and so on: the fuel counts these, and [None] is a recursion that is deeper. *)

Record Sender := mkSender {
  snd_layer : RecordLayer;
  snd_max_frag : nat;
  snd_tls : ChunkVecBuffer;
  snd_plaintext : ChunkVecBuffer;
  snd_may_send : bool;
  snd_queued_key_update : option (list Z);
  snd_sent_fatal_alert : bool;
}.

Definition DEFAULT_BUFFER_LIMIT : Z := 64 * 1024.

Definition sender_new : Sender :=
  {| snd_layer := record_layer_new;
     snd_max_frag := Z.to_nat MAX_FRAGMENT_LEN;
     snd_tls := cv_new (Some DEFAULT_BUFFER_LIMIT);
     snd_plaintext := cv_new (Some DEFAULT_BUFFER_LIMIT);
     snd_may_send := false;
     snd_queued_key_update := None;
     snd_sent_fatal_alert := false |}.

Definition Sending : Type := Sender → option (outcome Sender).

Definition send_done : Sending := λ s, Some (Done s).
Definition send_then (a b : Sending) : Sending := λ s,
  match a s with
  | Some (Done s) => b s
  | r => r
  end.
Definition send_all {A} (f : A → Sending) (l : list A) : Sending :=
  foldr (λ x rest, send_then (f x) rest) send_done l.
Definition send_change (f : Sender → Sender) : Sending := λ s, Some (Done (f s)).

Definition queue_tls_message (m : OpaqueMessage) (s : Sender) : Sender :=
  s <| snd_tls := cv_append (opaque_encode m) (snd_tls s) |>.

Section Sending.
Context `{RingAead}.

(** [send_single_fragment], with what it calls when the numbers come to an end:
    [send_close_notify], [send_msg], [send_msg_encrypt] and itself. *)
Fixpoint send_single_fragment (fuel : nat) (m : PlainMessage) : Sending :=
  match fuel with
  | O => λ _, None
  | S fuel =>
      let close_notify s :=
        let ms := fragment_message (snd_max_frag s)
                    (plain_of_message (build_alert LV_Warning AL_CloseNotify)) in
        if is_encrypting (snd_layer s)
        then send_all (send_single_fragment fuel) ms s
        else send_all (λ m, send_change (queue_tls_message (into_unencrypted_opaque m))) ms s in
      send_then
        (λ s, if wants_close_before_encrypt (snd_layer s) then close_notify s else send_done s)
        (λ s, if encrypt_exhausted (snd_layer s) then send_done s
              else Some ('(em, layer) ← encrypt_outgoing m (snd_layer s);
                         Done (queue_tls_message em (s <| snd_layer := layer |>))))
  end.

Definition send_msg_encrypt (fuel : nat) (m : PlainMessage) : Sending := λ s,
  send_all (send_single_fragment fuel) (fragment_message (snd_max_frag s) m) s.

(** [send_msg], over TCP. *)
Definition send_msg (fuel : nat) (m : PlainMessage) (must_encrypt : bool) : Sending := λ s,
  if must_encrypt then send_msg_encrypt fuel m s
  else send_all (λ m, send_change (queue_tls_message (into_unencrypted_opaque m)))
         (fragment_message (snd_max_frag s) m) s.

Definition send_alert (fuel : nat) (level : AlertLevel) (desc : AlertDescription) : Sending := λ s,
  send_msg fuel (plain_of_message (build_alert level desc)) (is_encrypting (snd_layer s)) s.

(** [send_fatal_alert], without the error that it gives back; [send_close_notify]. *)
Definition send_fatal_alert (fuel : nat) (desc : AlertDescription) : Sending :=
  send_then (send_alert fuel LV_Fatal desc) (send_change (λ s, s <| snd_sent_fatal_alert := true |>)).
Definition send_close_notify (fuel : nat) : Sending := send_alert fuel LV_Warning AL_CloseNotify.

Inductive Limit := LimitYes | LimitNo.

(** [send_appdata_encrypt], [send_plain], [send_some_plaintext]: how many bytes are taken,
    and what that does. *)
Definition appdata_len (limit : Limit) (payload : list Z) (s : Sender) : nat :=
  match limit with LimitYes => apply_limit (snd_tls s) (length payload) | LimitNo => length payload end.

Definition send_appdata_encrypt (fuel : nat) (limit : Limit) (payload : list Z) : Sending := λ s,
  send_all (send_single_fragment fuel)
    (fragment_slice (snd_max_frag s) CO_ApplicationData PV_TLSv1_2
       (firstn (appdata_len limit payload s) payload)) s.

Definition send_plain_len (limit : Limit) (data : list Z) (s : Sender) : nat :=
  if negb (snd_may_send s) then
    match limit with
    | LimitYes => apply_limit (snd_plaintext s) (length data)
    | LimitNo => length data
    end
  else match data with [] => 0 | _ => appdata_len limit data s end.

Definition send_plain (fuel : nat) (limit : Limit) (data : list Z) : Sending := λ s,
  if negb (snd_may_send s) then
    send_change (λ s, s <| snd_plaintext :=
      match limit with
      | LimitYes => snd (append_limited_copy data (snd_plaintext s))
      | LimitNo => cv_append data (snd_plaintext s)
      end |>) s
  else match data with [] => send_done s | _ => send_appdata_encrypt fuel limit data s end.

Definition perhaps_write_key_update : Sending :=
  send_change (λ s, match snd_queued_key_update s with
                    | Some m => s <| snd_queued_key_update := None |>
                                  <| snd_tls := cv_append m (snd_tls s) |>
                    | None => s
                    end).

Definition send_some_plaintext (fuel : nat) (data : list Z) : Sending :=
  send_then perhaps_write_key_update (send_plain fuel LimitYes data).

(** [start_outgoing_traffic]: the loop of [flush_plaintext] pops every chunk. *)
Definition start_outgoing_traffic (fuel : nat) : Sending := λ s,
  send_all (λ buf, send_plain fuel LimitNo buf) (cv_chunks (snd_plaintext s))
    (s <| snd_may_send := true |> <| snd_plaintext := (snd_plaintext s) <| cv_chunks := [] |> |>).

(** [enqueue_key_update_notification]: encrypted now, sent with the next plaintext. *)
Definition enqueue_key_update_notification (message : PlainMessage) : Sending := λ s,
  Some ('(em, layer) ← encrypt_outgoing message (snd_layer s);
        Done (s <| snd_layer := layer |> <| snd_queued_key_update := Some (opaque_encode em) |>)).

(** ** What a handshake does to the connection

    The handshake does not look at the record layer, so that what it does to it can be kept
    as a list, in order. *)

Inductive WireEvent :=
  | EV_Send (must_encrypt : bool) (m : PlainMessage)
  | EV_FatalAlert (desc : AlertDescription)
  | EV_WarningAlert (desc : AlertDescription)
  | EV_Encrypter (k : MessageKey)
  | EV_Decrypter (k : MessageKey)
  | EV_KeyUpdate (m : PlainMessage)
  | EV_StartTraffic.

Definition wire_step (fuel : nat) (e : WireEvent) : Sending :=
  match e with
  | EV_Send must_encrypt m => send_msg fuel m must_encrypt
  | EV_FatalAlert d => send_fatal_alert fuel d
  | EV_WarningAlert d => send_alert fuel LV_Warning d
  | EV_Encrypter k => send_change (λ s, s <| snd_layer := set_message_encrypter k (snd_layer s) |>)
  | EV_Decrypter k => send_change (λ s, s <| snd_layer := set_message_decrypter k (snd_layer s) |>)
  | EV_KeyUpdate m => enqueue_key_update_notification m
  | EV_StartTraffic => start_outgoing_traffic fuel
  end.

Definition wire_run (fuel : nat) (log : list WireEvent) : Sending := send_all (wire_step fuel) log.
End Sending.
