(* ===== verification/TlsSession.v ===== *)
(** * TlsSession: sessions that a client can resume
    (craftls/rustls/src/msgs/persist.rs, limited_cache.rs, client/handy.rs, and
    [find_session] of client/hs.rs)

    What is kept of a session, and the store in memory, which forgets the server that it has
    known longest. Times are seconds since the epoch. *)

From S2P Require Import Prelude TlsCodec TlsEnums TlsHello TlsMessages.

(** ** Cipher suites (suites.rs) *)

Inductive HashAlgorithm := SHA256 | SHA384.

#[export] Instance hash_algorithm_eq_dec : EqDecision HashAlgorithm.
Proof. solve_decision. Defined.

Record SupportedCipherSuite := mkSuite {
  cs_suite : CipherSuite;
  cs_version : ProtocolVersion;
  cs_hash : HashAlgorithm;
}.

#[export] Instance suite_eq_dec : EqDecision SupportedCipherSuite.
Proof. solve_decision. Defined.

(** ** Sessions (msgs/persist.rs) *)

Record ClientSessionCommon := mkSessionCommon {
  sc_ticket : list Z;
  sc_secret : list Z;
  sc_epoch : Z;
  sc_lifetime_secs : Z;
  sc_server_cert_chain : CertificateChain;
}.

Definition MAX_TICKET_LIFETIME : Z := 7 * 24 * 60 * 60.

Definition session_common_new (ticket secret : list Z) (time_now lifetime_secs : Z)
    (chain : CertificateChain) : ClientSessionCommon :=
  mkSessionCommon ticket secret time_now (Z.min lifetime_secs MAX_TICKET_LIFETIME) chain.

(** Without the parameters of QUIC. *)
Record Tls13ClientSessionValue := mkTls13Session {
  tv_suite : SupportedCipherSuite;
  tv_age_add : Z;
  tv_max_early_data_size : Z;
  tv_common : ClientSessionCommon;
}.

Definition tls13_session_new (suite : SupportedCipherSuite) (ticket secret : list Z)
    (chain : CertificateChain) (time_now lifetime_secs age_add max_early_data_size : Z)
    : Tls13ClientSessionValue :=
  mkTls13Session suite age_add max_early_data_size
    (session_common_new ticket secret time_now lifetime_secs chain).

Record Tls12ClientSessionValue := mkTls12Session {
  t2_suite : SupportedCipherSuite;
  t2_session_id : SessionId;
  t2_extended_ms : bool;
  t2_common : ClientSessionCommon;
}.

Inductive ClientSessionValue :=
  | Tls13Session (v : Tls13ClientSessionValue)
  | Tls12Session (v : Tls12ClientSessionValue).

Definition session_common (s : ClientSessionValue) : ClientSessionCommon :=
  match s with Tls13Session v => tv_common v | Tls12Session v => t2_common v end.
Definition session_ticket (s : ClientSessionValue) : list Z := sc_ticket (session_common s).

(** [Retrieved]: a value and when it was retrieved. *)
Record Retrieved := mkRetrieved {
  rt_value : ClientSessionValue;
  rt_retrieved_at : Z;
}.

(** In 32 bits, and so is the product (debug builds panic when it overflows). *)
Definition obfuscated_ticket_age (v : Tls13ClientSessionValue) (retrieved_at : Z) : Z :=
  let age_secs := Z.max 0 (retrieved_at - sc_epoch (tv_common v)) in
  let age_millis := (age_secs mod 2 ^ 32 * 1000) mod 2 ^ 32 in
  (age_millis + tv_age_add v) mod 2 ^ 32.

Definition has_expired (r : Retrieved) : bool :=
  let c := session_common (rt_value r) in
  negb (sc_lifetime_secs c =? 0) &&
  (Z.min (2 ^ 64 - 1) (sc_epoch c + sc_lifetime_secs c) <? rt_retrieved_at r).

(** ** Servers

    A server is named by a DNS name or by an address. *)
Inductive PkiServerName :=
  | PkiDnsName (name : DnsName)
  | PkiIpAddress (addr : list Z).

#[export] Instance server_name_eq_dec : EqDecision PkiServerName.
Proof. solve_decision. Defined.

(** Names that are equal for pki-types have the same key; and [VecDeque::with_capacity] may
    reserve more than it is asked to. *)
Class SessionKeys := {
  server_key : PkiServerName → list Z;
  deque_capacity : nat → nat;
}.

(** ** The cache that forgets (limited_cache.rs) *)

Record LimitedCache (V : Type) := mkLimited {
  lc_map : gmap (list Z) V;
  lc_oldest : list (list Z);
  lc_capacity : nat;
}.
Arguments mkLimited {V}.
Arguments lc_map {V}.
Arguments lc_oldest {V}.
Arguments lc_capacity {V}.

Section Limited.
Context `{SessionKeys} {V : Type}.

Definition lc_new (capacity_order_of_magnitude : nat) : LimitedCache V :=
  mkLimited ∅ [] (deque_capacity capacity_order_of_magnitude).

(** After a new key: a queue that is full loses its oldest key. *)
Definition lc_evict (c : LimitedCache V) : LimitedCache V :=
  if (lc_capacity c =? length (lc_oldest c))%nat then
    match lc_oldest c with
    | k :: oldest => mkLimited (delete k (lc_map c)) oldest (lc_capacity c)
    | [] => c
    end
  else c.

Definition get_or_insert_default_and_edit (dflt : V) (k : list Z) (edit : V → V) (c : LimitedCache V)
    : LimitedCache V :=
  match lc_map c !! k with
  | Some v => mkLimited (<[k := edit v]> (lc_map c)) (lc_oldest c) (lc_capacity c)
  | None => lc_evict (mkLimited (<[k := edit dflt]> (lc_map c)) (lc_oldest c ++ [k]) (lc_capacity c))
  end.

Definition lc_insert (k : list Z) (v : V) (c : LimitedCache V) : LimitedCache V :=
  match lc_map c !! k with
  | Some _ => mkLimited (<[k := v]> (lc_map c)) (lc_oldest c) (lc_capacity c)
  | None => lc_evict (mkLimited (<[k := v]> (lc_map c)) (lc_oldest c ++ [k]) (lc_capacity c))
  end.

Definition lc_get (k : list Z) (c : LimitedCache V) : option V := lc_map c !! k.

(** [get_mut] and a change of what it gives. *)
Definition lc_update (k : list Z) (f : V → V) (c : LimitedCache V) : LimitedCache V :=
  match lc_map c !! k with
  | Some v => mkLimited (<[k := f v]> (lc_map c)) (lc_oldest c) (lc_capacity c)
  | None => c
  end.

Definition lc_remove (k : list Z) (c : LimitedCache V) : option V * LimitedCache V :=
  match lc_map c !! k with
  | Some v =>
      (Some v,
       mkLimited (delete k (lc_map c))
         match list_position (λ x, bool_decide (x = k)) (lc_oldest c) with
         | Some i => delete i (lc_oldest c)
         | None => lc_oldest c
         end (lc_capacity c))
  | None => (None, c)
  end.
End Limited.

(** ** The store in memory (client/handy.rs) *)

Definition MAX_TLS13_TICKETS_PER_SERVER : nat := 8.

Record ServerData := mkServerData {
  sd_kx_hint : option NamedGroup;
  sd_tls12 : option Tls12ClientSessionValue;
  sd_tls13 : list Tls13ClientSessionValue;
}.

Definition server_data_default : ServerData := mkServerData None None [].

Definition ClientSessionMemoryCache : Type := LimitedCache ServerData.

Section Store.
Context `{SessionKeys}.

Definition memory_cache_new (size : nat) : ClientSessionMemoryCache :=
  lc_new ((size + (MAX_TLS13_TICKETS_PER_SERVER - 1)) / MAX_TLS13_TICKETS_PER_SERVER).

(** [Resumption::default]. *)
Definition default_sessions : ClientSessionMemoryCache := memory_cache_new 256.

Definition edit_server (server : PkiServerName) (f : ServerData → ServerData)
    : ClientSessionMemoryCache → ClientSessionMemoryCache :=
  get_or_insert_default_and_edit server_data_default (server_key server) f.

Definition set_kx_hint (server : PkiServerName) (group : NamedGroup) :=
  edit_server server (λ d, d <| sd_kx_hint := Some group |>).
Definition kx_hint (server : PkiServerName) (c : ClientSessionMemoryCache) : option NamedGroup :=
  lc_get (server_key server) c ≫= sd_kx_hint.

Definition set_tls12_session (server : PkiServerName) (v : Tls12ClientSessionValue) :=
  edit_server server (λ d, d <| sd_tls12 := Some v |>).
Definition tls12_session (server : PkiServerName) (c : ClientSessionMemoryCache)
    : option Tls12ClientSessionValue :=
  lc_get (server_key server) c ≫= sd_tls12.
Definition remove_tls12_session (server : PkiServerName) : ClientSessionMemoryCache → ClientSessionMemoryCache :=
  lc_update (server_key server) (λ d, d <| sd_tls12 := None |>).

(** The oldest ticket makes room; [take_tls13_ticket] takes the newest. *)
Definition insert_tls13_ticket (server : PkiServerName) (v : Tls13ClientSessionValue) :=
  edit_server server (λ d,
    let tickets := if (length (sd_tls13 d) =? deque_capacity MAX_TLS13_TICKETS_PER_SERVER)%nat
                   then tail (sd_tls13 d) else sd_tls13 d in
    d <| sd_tls13 := tickets ++ [v] |>).
Definition take_tls13_ticket (server : PkiServerName) (c : ClientSessionMemoryCache)
    : option Tls13ClientSessionValue * ClientSessionMemoryCache :=
  (lc_get (server_key server) c ≫= (λ d, last (sd_tls13 d)),
   lc_update (server_key server) (λ d, d <| sd_tls13 := firstn (length (sd_tls13 d) - 1) (sd_tls13 d) |>) c).

(** What a handshake does to the store. *)
Inductive StoreOp :=
  | SO_SetKxHint (server : PkiServerName) (group : NamedGroup)
  | SO_RemoveTls12 (server : PkiServerName)
  | SO_InsertTls13 (server : PkiServerName) (v : Tls13ClientSessionValue).

Definition store_step (op : StoreOp) : ClientSessionMemoryCache → ClientSessionMemoryCache :=
  match op with
  | SO_SetKxHint s g => set_kx_hint s g
  | SO_RemoveTls12 s => remove_tls12_session s
  | SO_InsertTls13 s v => insert_tls13_ticket s v
  end.
Definition store_run (ops : list StoreOp) (c : ClientSessionMemoryCache) : ClientSessionMemoryCache :=
  foldl (λ c op, store_step op c) c ops.

(** [find_session]: a ticket of TLS 1.3, which is gone from the store even when it has
    expired, or else a session of TLS 1.2. *)
Definition find_session (server : PkiServerName) (now : Z) (c : ClientSessionMemoryCache)
    : option Retrieved * ClientSessionMemoryCache :=
  let '(tls13, c) := take_tls13_ticket server c in
  let found := opt_or (Tls13Session <$> tls13) (Tls12Session <$> tls12_session server c) in
  (r ← found;
   let retrieved := mkRetrieved r now in
   if has_expired retrieved then None else Some retrieved, c).
End Store.
