(* ===== verification/Craft.v ===== *)
(** * Craft: fingerprints of client hellos (craftls/rustls/src/craft/mod.rs)

    A fingerprint lists the ciphers and extensions of a client hello. It is applied twice:
    to the configuration, once ([patch_config]), and to the extensions and ciphers of each
    hello before it is sent ([patch_extension], [patch_cipher]). Configurations, key
    exchanges and the state of a connection, which the two use, come first. *)

From S2P Require Import Prelude TlsCodec TlsEnums TlsHello TlsMessages TlsRecord TlsSession.

(** ** Key exchanges

    The primitives of ring, x25519-dalek, ml-kem and rand. Each draw of randomness has a
    number, which also names the private key that is made from it. *)
Class TlsCrypto := {
  secure_random : nat → nat → option (list Z);
  ring_public_key : nat → NamedGroup → option (list Z);
  ring_agree : nat → NamedGroup → list Z → option (list Z);
  mlkem_encapsulation_key : nat → list Z;
  mlkem_decapsulate : nat → list Z → option (list Z);
  x25519_public : nat → list Z;
  x25519_diffie_hellman : nat → list Z → list Z;
}.

(** The implementations of [SupportedKxGroup]: those of ring (crypto/ring/kx.rs), the
    hybrid and the fake one of src/tlsfp/tlsfp.rs, the fakes of craft/mod.rs. *)
Inductive KxGroup :=
  | RingKx (name : NamedGroup)
  | X25519Mlkem768
  | FakeKx (name : NamedGroup)
  | CraftFakeKx (name : NamedGroup).

#[export] Instance kx_group_eq_dec : EqDecision KxGroup.
Proof. solve_decision. Defined.

Definition X25519MLKEM768_GROUP : NamedGroup := NG_Unknown 0x11EC.

Definition kx_name (g : KxGroup) : NamedGroup :=
  match g with
  | RingKx n => n
  | X25519Mlkem768 => X25519MLKEM768_GROUP
  | FakeKx n => n
  | CraftFakeKx n => n
  end.

(** An [ActiveKeyExchange]: what was started, from which draw, and its public key. *)
Record ActiveKx := mkActiveKx {
  ak_kx : KxGroup;
  ak_draw : nat;
  ak_pub_key : list Z;
}.

Definition ak_group (k : ActiveKx) : NamedGroup := kx_name (ak_kx k).

(** The errors of [Error] that starting or completing an exchange gives. *)
Inductive KxError :=
  | KE_FailedToGetRandomBytes
  | KE_InvalidKeyShare
  | KE_General (what : string).

(** ** Versions, providers and configurations *)

Record CryptoProvider := mkProvider {
  cipher_suites : list SupportedCipherSuite;
  kx_groups : list KxGroup;
}.

Record EnabledVersions := mkVersions { ev_tls12 : bool; ev_tls13 : bool }.

Definition versions_contains (ev : EnabledVersions) (v : ProtocolVersion) : bool :=
  match v with PV_TLSv1_2 => ev_tls12 ev | PV_TLSv1_3 => ev_tls13 ev | _ => false end.

Inductive Tls12Resumption := T12_Disabled | T12_SessionIdOnly | T12_SessionIdOrTickets.

(** ** Fingerprints *)

Inductive GreaseOr (T : Type) :=
  | Grease
  | GT (t : T).
Arguments Grease {_}.
Arguments GT {_} _.

Definition is_grease {T} (g : GreaseOr T) : bool :=
  match g with Grease => true | GT _ => false end.

(** [val]: there is none for a placeholder. *)
Definition grease_val {T} (g : GreaseOr T) : outcome T :=
  match g with Grease => Panic | GT t => Done t end.

(** [val_or], with [CreateUnknown::create_unknown] of the type. *)
Definition val_or {T} `{TlsEnum T} (g : GreaseOr T) (grease : Z) : T :=
  match g with Grease => enum_unknown grease | GT t => t end.

Definition GreaseOrCurve := GreaseOr NamedGroup.
Definition GreaseOrVersion := GreaseOr ProtocolVersion.
Definition GreaseOrCipher := GreaseOr CipherSuite.

Inductive CraftExtension :=
  | Grease1
  | Grease2
  | CX_RenegotiationInfo
  | CX_SupportedCurves (curves : list GreaseOrCurve)
  | CX_SupportedVersions (versions : list GreaseOrVersion)
  | CX_SignedCertificateTimestamp
  | CX_KeyShare (spec : list GreaseOrCurve)
  | CX_FakeApplicationSettings
  | CX_FakeCompressCert
  | CX_CompressCert (algorithms : list CertificateCompressionAlgorithm)
  | CX_Padding
  | CX_Protocols (protocols : list (list Z))
  | CX_FakeDelegatedCredentials (schemes : list SignatureScheme)
  | CX_FakeRecordSizeLimit (limit : Z).

Inductive KeepExtension :=
  | Must (typ : ExtensionType)
  | Optional (typ : ExtensionType)
  | OrDefault (typ : ExtensionType) (dflt : ClientExtension).

Inductive ExtensionSpec :=
  | ES_Craft (e : CraftExtension)
  | ES_Rustls (e : ClientExtension)
  | ES_Keep (k : KeepExtension).

Record TlsFingerprint := mkFingerprint {
  fp_extensions : list ExtensionSpec;
  fp_shuffle_extensions : bool;
  fp_cipher : list GreaseOrCipher;
}.

Record FingerprintBuilder := mkFpBuilder {
  fb_fingerprint : TlsFingerprint;
  fb_override_alpn : bool;
  fb_override_version : bool;
  fb_override_supported_curves : bool;
  fb_strict_mode : bool;
  fb_override_keyshare : bool;
  fb_override_cert_compress : bool;
  fb_override_suite : bool;
}.

Definition fingerprint_builder (f : TlsFingerprint) : FingerprintBuilder :=
  {| fb_fingerprint := f; fb_override_alpn := true; fb_strict_mode := true;
     fb_override_supported_curves := true; fb_override_version := true;
     fb_override_keyshare := true; fb_override_cert_compress := true;
     fb_override_suite := true |}.

Definition do_not_override_alpn (b : FingerprintBuilder) : FingerprintBuilder :=
  b <| fb_override_alpn := false |>.
Definition dangerous_disable_override_keyshare (b : FingerprintBuilder) : FingerprintBuilder :=
  b <| fb_override_keyshare := false |>.
Definition dangerous_disable_override_suite (b : FingerprintBuilder) : FingerprintBuilder :=
  b <| fb_override_suite := false |>.
Definition dangerous_craft_test_mode (b : FingerprintBuilder) : FingerprintBuilder :=
  b <| fb_strict_mode := false |> <| fb_override_alpn := false |>
    <| fb_override_version := false |> <| fb_override_cert_compress := false |>.

(** Who signs for a client (crypto/signer.rs, client/client_conn.rs); [None] of
    [signer_sign] is an error. Without client certificates there is nobody (client/handy.rs). *)
Record Signer := mkSigner {
  signer_scheme : SignatureScheme;
  signer_sign : list Z → option (list Z);
}.

Record CertifiedKey := mkCertifiedKey {
  ck_cert : list CertificateDer;
  ck_choose_scheme : list SignatureScheme → option Signer;
}.

Record ResolvesClientCert := mkResolver {
  has_certs : bool;
  resolve : list (list Z) → list SignatureScheme → option CertifiedKey;
}.

Definition FailResolveClientCert : ResolvesClientCert :=
  {| has_certs := false; resolve := λ _ _, None |}.

(** [ClientConfig]; the store of sessions and the verifier of servers are outside. The key log
    is what it wants to be told. *)
Record ClientConfig := mkConfig {
  cc_provider : CryptoProvider;
  cc_alpn_protocols : list (list Z);
  cc_tls12_resumption : Tls12Resumption;
  cc_certificate_compression_algorithms : list CertificateCompressionAlgorithm;
  cc_versions : EnabledVersions;
  cc_enable_sni : bool;
  cc_enable_early_data : bool;
  cc_client_auth_cert_resolver : ResolvesClientCert;
  cc_key_log : string → bool;
  cc_craft : option FingerprintBuilder;
}.

(** [CraftOptions::get]: it panics for a configuration without a fingerprint. *)
Definition craft_get (config : ClientConfig) : outcome FingerprintBuilder :=
  match cc_craft config with Some b => Done b | None => Panic end.

Definition supports_version (config : ClientConfig) (v : ProtocolVersion) : bool :=
  versions_contains (cc_versions config) v &&
  existsb (λ cs, bool_decide (cs_version cs = v)) (cipher_suites (cc_provider config)).

Definition find_cipher_suite (config : ClientConfig) (s : CipherSuite)
    : option SupportedCipherSuite :=
  List.find (λ cs, bool_decide (cs_suite cs = s)) (cipher_suites (cc_provider config)).

Definition find_kx_group (config : ClientConfig) (g : NamedGroup) : option KxGroup :=
  List.find (λ k, bool_decide (kx_name k = g)) (kx_groups (cc_provider config)).

(** ** The fingerprint of a configuration *)

(** The curves for which [to_fake_curves] has a fake. *)
Definition to_fake_curves (g : NamedGroup) : outcome KxGroup :=
  if bool_decide (g ∈ [NG_secp256r1; NG_secp384r1; NG_secp521r1; NG_FFDHE2048; NG_FFDHE3072])
  then Done (CraftFakeKx g) else Panic.

(** [Vec::insert]: it panics behind the end. *)
Definition vec_insert {A} (i : nat) (x : A) (l : list A) : outcome (list A) :=
  if (i <=? length l)%nat then Done (firstn i l ++ x :: skipn i l) else Panic.

(** [slice::swap]: it panics out of range. *)
Definition vec_swap {A} (i j : nat) (l : list A) : outcome (list A) :=
  match l !! i, l !! j with
  | Some x, Some y => Done (<[j := x]> (<[i := y]> l))
  | _, _ => Panic
  end.

(** [curves.filter(not grease).zip(kx_groups).all(…)]. The variable of the code is named
    [curves_need_modification]. *)
Definition curves_agree (curves : list GreaseOrCurve) (groups : list KxGroup) : bool :=
  forallb (λ '(c, k), match c with GT g => bool_decide (g = kx_name k) | Grease => false end)
    (zip (List.filter (λ c, negb (is_grease c)) curves) groups).

(** The loop over the curves, from index [idx]; [grease_offset] placeholders are behind. *)
Fixpoint arrange_groups (curves : list GreaseOrCurve) (idx grease_offset : nat)
    (groups : list KxGroup) : outcome (list KxGroup) :=
  match curves with
  | [] => Done groups
  | Grease :: curves => arrange_groups curves (S idx) (S grease_offset) groups
  | GT g :: curves =>
      groups ← match list_position (λ k, bool_decide (kx_name k = g)) groups with
               | Some old_idx =>
                   if (idx - grease_offset =? old_idx)%nat then Done groups
                   else if (idx - grease_offset <? old_idx)%nat then vec_swap idx old_idx groups
                   else Panic
               | None => k ← to_fake_curves g; vec_insert (idx - grease_offset) k groups
               end;
      arrange_groups curves (S idx) grease_offset groups
  end.

(** The effect of one extension of the fingerprint on the configuration. *)
Definition patch_config_ext (b : FingerprintBuilder) (config : ClientConfig) (ext : ExtensionSpec)
    : outcome ClientConfig :=
  match ext with
  | ES_Craft (CX_SupportedCurves curves) =>
      if negb (fb_override_supported_curves b) then Done config
      else if negb (curves_agree curves (kx_groups (cc_provider config))) then Done config
      else
        groups ← arrange_groups curves 0 0 (kx_groups (cc_provider config));
        Done (config <| cc_provider := (cc_provider config) <| kx_groups := groups |> |>)
  | ES_Craft (CX_Protocols protocols) =>
      if negb (fb_override_alpn b) then Done config
      else Done (config <| cc_alpn_protocols := protocols |>)
  | ES_Craft (CX_CompressCert algos) =>
      if negb (fb_override_cert_compress b) then Done config
      else if existsb craft_is_unknown algos then Panic
      else Done (config <| cc_certificate_compression_algorithms := algos |>)
  | _ => Done config
  end.

Fixpoint patch_config_exts (b : FingerprintBuilder) (exts : list ExtensionSpec)
    (config : ClientConfig) : outcome ClientConfig :=
  match exts with
  | [] => Done config
  | ext :: exts => config ← patch_config_ext b config ext; patch_config_exts b exts config
  end.

Definition patch_config (b : FingerprintBuilder) (config : ClientConfig) : outcome ClientConfig :=
  let config := if fb_override_version b
                then config <| cc_versions := mkVersions true true |> else config in
  config ← patch_config_exts b (fp_extensions (fb_fingerprint b)) config;
  Done (config <| cc_craft := Some b |>).

(** ** The state of a connection *)

Inductive BoringSslGreaseIndex :=
  | GI_Cipher | GI_Group | GI_Extension1 | GI_Extension2 | GI_Version | GI_TicketExtension
  | GI_EchConfigId.

Definition grease_index (i : BoringSslGreaseIndex) : nat :=
  match i with
  | GI_Cipher => 0 | GI_Group => 1 | GI_Extension1 => 2 | GI_Extension2 => 3 | GI_Version => 4
  | GI_TicketExtension => 5 | GI_EchConfigId => 6
  end.

Definition NumOfGrease : nat := 7.

Record CraftConnectionData := mkCraftData {
  grease_seed : list Z;
  our_key_share_alt : list ActiveKx;
  extension_order : list nat;
}.

Inductive EarlyDataState := ED_Disabled | ED_Ready | ED_Accepted | ED_AcceptedFinished | ED_Rejected.

Record EarlyDataSt := mkEarlyData { ed_left : Z; ed_state : EarlyDataState }.

(** [EarlyData::is_enabled]. *)
Definition ed_is_enabled (e : EarlyDataSt) : bool :=
  match ed_state e with ED_Ready | ED_Accepted => true | _ => false end.

(** What [CommonState] keeps beside the sending of records; the key log is what was told to
    it, label, random and secret; the last is what was done to the store of sessions. *)
Record CommonRest := mkRest {
  cr_may_receive_application_data : bool;
  cr_has_received_close_notify : bool;
  cr_received_middlebox_ccs : Z;
  cr_peer_certificates : option CertificateChain;
  cr_certificate_compression_algorithm : option CertificateCompressionAlgorithm;
  cr_received_plaintext : ChunkVecBuffer;
  cr_key_update_queued : bool;
  cr_key_log : list (string * list Z * list Z);
  cr_store_ops : list StoreOp;
}.

(** What a connection keeps ([ClientConnectionData] and [CommonState]), what it does to its
    record layer, and the number of draws of randomness so far. *)
Record Context := mkContext {
  cx_craft : CraftConnectionData;
  cx_draws : nat;
  cx_suite : option SupportedCipherSuite;
  cx_resumption_ciphersuite : option SupportedCipherSuite;
  cx_negotiated_version : option ProtocolVersion;
  cx_alpn_protocol : option (list Z);
  cx_early_data : EarlyDataSt;
  cx_early_traffic : bool;
  cx_aligned_handshake : bool;
  cx_log : list WireEvent;
  cx_rest : CommonRest;
}.

Definition wire_event (e : WireEvent) (cx : Context) : Context := cx <| cx_log := cx_log cx ++ [e] |>.

Definition grease_get (cx : Context) (i : BoringSslGreaseIndex) : Z :=
  nth (grease_index i) (grease_seed (cx_craft cx)) 0.

(** [CraftConnectionData::new], from the seven numbers that the generator gives. *)
Definition grease_value (seed : Z) : Z :=
  let unit := Z.lor (Z.land seed 0xf0) 0x0a in Z.lor (Z.shiftl unit 8) unit.

Definition craft_data_new (random : list Z) : CraftConnectionData :=
  let seed := grease_value <$> random in
  let x1 := nth (grease_index GI_Extension1) seed 0 in
  let x2 := nth (grease_index GI_Extension2) seed 0 in
  {| grease_seed := if x1 =? x2
                    then <[grease_index GI_Extension2 := Z.lxor x2 0x1010]> seed else seed;
     our_key_share_alt := [];
     extension_order := [] |}.

(** [Vec::swap_remove]: the last element takes the place of the removed one. *)
Definition swap_remove {A} (i : nat) (l : list A) : list A :=
  let n := length l in
  if (S i =? n)%nat then firstn i l
  else match last l with Some x => firstn (n - 1) (<[i := x]> l) | None => l end.

(** [find_key_share]: the first alternative of the group, removed from the alternatives. *)
Definition find_key_share (d : CraftConnectionData) (target : NamedGroup)
    : option ActiveKx * CraftConnectionData :=
  match list_position (λ k, bool_decide (ak_group k = target)) (our_key_share_alt d) with
  | Some i => (our_key_share_alt d !! i,
               d <| our_key_share_alt := swap_remove i (our_key_share_alt d) |>)
  | None => (None, d)
  end.

(** The extensions that rustls made, by type: [ext_store]. *)
Abbreviation ExtStore := (gmap Z ClientExtension).

Section Handshake.
Context `{TlsCrypto, DnsNames}.

Definition draw (cx : Context) : nat * Context :=
  (cx_draws cx, cx <| cx_draws := S (cx_draws cx) |>).

(** ** Starting and completing key exchanges *)

(** [SupportedKxGroup::start]. The fakes of craft/mod.rs are not meant to be started. *)
Definition kx_start (g : KxGroup) (cx : Context) : outcome (result KxError ActiveKx * Context) :=
  match g with
  | RingKx name =>
      let '(n, cx) := draw cx in
      Done (match ring_public_key n name with
            | Some pub => Ok (mkActiveKx g n pub)
            | None => Err KE_FailedToGetRandomBytes
            end, cx)
  | X25519Mlkem768 =>
      let '(n, cx) := draw cx in
      Done (Ok (mkActiveKx g n (mlkem_encapsulation_key n ++ x25519_public n)), cx)
  | FakeKx name => Done (Err (KE_General "key exchange not supported"), cx)
  | CraftFakeKx name => Panic
  end.

(** [X25519Mlkem768ActiveKx::complete]. The slices have the sizes that the arrays want once
    the length is right, so those conversions do not fail. *)
Definition hybrid_complete (n : nat) (peer : list Z) : result KxError (list Z) :=
  if negb (length peer =? 1120)%nat
  then Err (KE_General "X25519MLKEM768: invalid server key_share length")
  else
    let ct_bytes := firstn 1088 peer in
    let x25519_peer := skipn 1088 peer in
    match mlkem_decapsulate n ct_bytes with
    | None => Err (KE_General "ML-KEM decapsulation failed")
    | Some mlkem_ss => Ok (mlkem_ss ++ x25519_diffie_hellman n x25519_peer)
    end.

(** [ActiveKeyExchange::complete]; the fakes never become active. *)
Definition kx_complete (k : ActiveKx) (peer : list Z) : result KxError (list Z) :=
  match ak_kx k with
  | RingKx name => ok_or (ring_agree (ak_draw k) name peer) KE_InvalidKeyShare
  | X25519Mlkem768 => hybrid_complete (ak_draw k) peer
  | FakeKx _ | CraftFakeKx _ => Err KE_InvalidKeyShare
  end.

(** ** One extension of a fingerprint *)

Definition store_key (typ : ExtensionType) : Z := enum_get typ.

Definition make_ext (typ : ExtensionType) (payload : list Z) : ClientExtension :=
  CE_Unknown (mkUnknownExtension typ (mkPayload payload)).

(** What a step on an extension gives: the extension, or nothing (the code's [Err(())], for
    which the caller goes on with the next one). *)
Definition CraftStep : Type := outcome (option ClientExtension * Context * ExtStore).

(** [get_origin_ext!] has failed: fatal in strict mode. *)
Definition no_origin (b : FingerprintBuilder) (cx : Context) (store : ExtStore) : CraftStep :=
  if fb_strict_mode b then Panic else Done (None, cx, store).

(** The place of the first placeholder, if it has one. *)
Definition add_curve_grease (curves : list GreaseOrCurve) (grease : Z) (origin : list NamedGroup)
    : outcome (list NamedGroup) :=
  match list_position is_grease curves with
  | Some i => vec_insert i (enum_of grease) origin
  | None => Done origin
  end.

(** The versions that stay; strict mode wants all of them. *)
Fixpoint keep_versions (strict : bool) (origin : list ProtocolVersion)
    (versions : list ProtocolVersion) : outcome (list ProtocolVersion) :=
  match versions with
  | [] => Done []
  | v :: versions =>
      if negb (craft_is_unknown v) && negb (bool_decide (v ∈ origin)) then
        if strict then Panic else keep_versions strict origin versions
      else (λ l, v :: l) <$> keep_versions strict origin versions
  end.

(** A share for a group of the fingerprint that is not there yet: a new exchange, which
    joins the alternatives of the connection. *)
Definition fresh_key_share (strict : bool) (config : ClientConfig) (g : NamedGroup)
    (shares : list KeyShareEntry) (cx : Context) : outcome (list KeyShareEntry * Context) :=
  if existsb (λ k, enum_get (ks_group k) =? enum_get g) shares then Done (shares, cx)
  else
    '(started, cx) ← match find_kx_group config g with
                     | Some k => kx_start k cx
                     | None => Done (Err (KE_General "no such group"), cx)
                     end;
    match started with
    | Ok k =>
        let d := cx_craft cx in
        Done (shares ++ [key_share_new g (ak_pub_key k)],
              cx <| cx_craft := d <| our_key_share_alt := our_key_share_alt d ++ [k] |> |>)
    | Err _ => if strict then Panic else Done (shares, cx)
    end.

(** One round of the loop over the groups of a key share: [origin] is rustls' own share until
    it has been placed, [shares] what has been placed. *)
Definition place_group (strict : bool) (config : ClientConfig) (origin_group : NamedGroup)
    (group_spec : GreaseOrCurve) (origin : option KeyShareEntry) (shares : list KeyShareEntry)
    (cx : Context) : outcome (option KeyShareEntry * list KeyShareEntry * Context) :=
  let fresh g :=
    '(shares, cx) ← fresh_key_share strict config g shares cx; Done (origin, shares, cx) in
  match group_spec with
  | Grease =>
      Done (origin, shares ++ [mkKeyShareEntry (val_or group_spec (grease_get cx GI_Group))
                                 (mkPayloadU16 [0])], cx)
  | GT g =>
      match origin with
      | Some o =>
          match head (kx_groups (cc_provider config)) with
          | None => Panic
          | Some first =>
              if bool_decide (origin_group ≠ kx_name first) || bool_decide (g = origin_group)
              then Done (None, shares ++ [o], cx)
              else fresh g
          end
      | None => fresh g
      end
  end.

Fixpoint place_groups (strict : bool) (config : ClientConfig) (origin_group : NamedGroup)
    (spec : list GreaseOrCurve) (origin : option KeyShareEntry) (shares : list KeyShareEntry)
    (cx : Context) : outcome (option KeyShareEntry * list KeyShareEntry * Context) :=
  match spec with
  | [] => Done (origin, shares, cx)
  | g :: spec =>
      '(origin, shares, cx) ← place_group strict config origin_group g origin shares cx;
      place_groups strict config origin_group spec origin shares cx
  end.

(** The key shares of a hello, from those that rustls made; what is left of those comes last.
    [unwrap]: there is at least one. *)
Definition craft_key_shares (strict : bool) (config : ClientConfig) (spec : list GreaseOrCurve)
    (origin : list KeyShareEntry) (cx : Context) : outcome (list KeyShareEntry * Context) :=
  match head origin with
  | None => Panic
  | Some o =>
      '(remaining, shares, cx) ← place_groups strict config (ks_group o) spec (Some o) [] cx;
      Done (shares ++ option_list remaining, cx)
  end.

Definition psk_length (o : PresharedKeyOffer) : Z :=
  2 + 2 + 2
  + foldr Z.add 0 ((λ v, 2 + Z.of_nat (length (p16_bytes (psk_identity v))) + 4) <$> psk_identities o)
  + 2
  + foldr Z.add 0 ((λ v, 1 + Z.of_nat (length (p8_bytes (binder_payload v)))) <$> psk_binders o).

(** [CraftExtension::to_rustls_extension]. *)
Definition to_rustls_extension (e : CraftExtension) (b : FingerprintBuilder)
    (config : ClientConfig) (hrr : option HelloRetryRequest) (cx : Context) (store : ExtStore)
    : CraftStep :=
  let ret ext := Done (Some ext, cx, store) in
  let take typ :=
    Done (store !! store_key typ, cx, delete (store_key typ) store) in
  match e with
  | Grease1 => ret (make_ext (enum_of (grease_get cx GI_Extension1)) [])
  | Grease2 => ret (make_ext (enum_of (grease_get cx GI_Extension2)) [0])
  | CX_RenegotiationInfo => ret (make_ext ET_RenegotiationInfo [0])
  | CX_SupportedCurves curves =>
      let store' := delete (store_key ET_EllipticCurves) store in
      match store !! store_key ET_EllipticCurves with
      | Some (NamedGroups origin) =>
          l ← (if fb_override_supported_curves b
               then add_curve_grease curves (grease_get cx GI_Group) origin else Done origin);
          Done (Some (NamedGroups l), cx, store')
      | _ => no_origin b cx store'
      end
  | CX_SupportedVersions versions =>
      let store' := delete (store_key ET_SupportedVersions) store in
      match store !! store_key ET_SupportedVersions with
      | Some (SupportedVersions origin) =>
          l ← keep_versions (fb_strict_mode b) origin
                ((λ v, val_or v (grease_get cx GI_Version)) <$> versions);
          Done (Some (SupportedVersions l), cx, store')
      | _ => no_origin b cx store'
      end
  | CX_SignedCertificateTimestamp => ret (make_ext ET_SCT [])
  | CX_KeyShare spec =>
      if opt_is_some (hrr ≫= get_requested_key_share_group) || negb (fb_override_keyshare b)
      then take ET_KeyShare
      else
        let store' := delete (store_key ET_KeyShare) store in
        match store !! store_key ET_KeyShare with
        | Some (CE_KeyShare origin) =>
            '(shares, cx) ← craft_key_shares (fb_strict_mode b) config spec origin cx;
            Done (Some (CE_KeyShare shares), cx, store')
        | _ => no_origin b cx store'
        end
  | CX_FakeApplicationSettings => ret (make_ext (enum_of 17513) [0; 3; 2; 104; 50])
  | CX_Padding =>
      ret (CE_CraftPadding (mkCraftPadding
        match store !! store_key ET_PreSharedKey with
        | Some (PresharedKey o) => psk_length o
        | _ => 0
        end))
  | CX_FakeCompressCert => ret (make_ext (enum_of 0x001b) [2; 0; 0])
  | CX_CompressCert algorithms =>
      if fb_strict_mode b &&
         negb (forallb (λ '(a1, a2), bool_decide (a1 = a2))
                 (zip (cc_certificate_compression_algorithms config) algorithms))
      then Panic else take ET_CompressCertificate
  | CX_Protocols protocols =>
      if fb_strict_mode b && negb (bool_decide (protocols = cc_alpn_protocols config))
      then Panic else take ET_ALProtocolNegotiation
  | CX_FakeDelegatedCredentials schemes =>
      ret (make_ext (enum_of 34) (nested LL_U16 (λ buf, foldl (λ buf x, encode x buf) buf schemes) []))
  | CX_FakeRecordSizeLimit limit => ret (make_ext (enum_of 28) (be_bytes 2 limit))
  end.

(** ** The extensions of a hello *)

(** [shuffle_extensions]: Fisher and Yates over the places that may move, from the last down
    to the second, then those that may not at their own indices. A draw that fails or gives
    less than four bytes panics. *)
Definition stays (e : ExtensionSpec) : bool :=
  match e with
  | ES_Craft (Grease1 | Grease2 | CX_Padding) => true
  | ES_Keep (Optional ET_PreSharedKey) => true
  | _ => false
  end.

Fixpoint shuffle_loop (i : nat) (l : list nat) (cx : Context) : outcome (list nat * Context) :=
  match i with
  | O => Done (l, cx)
  | S i' =>
      let '(n, cx) := draw cx in
      match secure_random n 4 with
      | Some buf =>
          let swap_idx := Z.to_nat (of_be buf mod (Z.of_nat i + 1)) in
          l ← vec_swap i swap_idx l;
          shuffle_loop i' l cx
      | None => Panic
      end
  end.

Fixpoint insert_indices (idx : list nat) (l : list nat) : outcome (list nat) :=
  match idx with
  | [] => Done l
  | i :: idx => l ← vec_insert i i l; insert_indices idx l
  end.

Definition shuffle_extensions (exts : list ExtensionSpec) (cx : Context)
    : outcome (list nat * Context) :=
  let indices p := omap (λ '(i, e), if p e : bool then Some i else None) (imap pair exts) in
  let to_shuffle := indices (λ e, negb (stays e)) in
  '(l, cx) ← shuffle_loop (length to_shuffle - 1) to_shuffle cx;
  l ← insert_indices (indices stays) l;
  Done (l, cx).

(** What of rustls' own extensions a fingerprint may use. *)
Definition kept (e : ClientExtension) : bool :=
  match e with
  | CE_ServerName _ | SessionTicket _ | CE_KeyShare _ | PresharedKey _ | Protocols _
  | NamedGroups _ | SupportedVersions _ | Cookie _ | EarlyData | CompressCertificate _ => true
  | _ => false
  end.

Definition ext_store_of (exts : list ClientExtension) : ExtStore :=
  foldl (λ m e, if kept e then <[store_key (get_type e) := e]> m else m) ∅ exts.

(** One extension of the fingerprint; [None] when there is none to send. *)
Definition apply_spec (b : FingerprintBuilder) (config : ClientConfig)
    (hrr : option HelloRetryRequest) (spec : ExtensionSpec) (cx : Context) (store : ExtStore)
    : CraftStep :=
  match spec with
  | ES_Craft e => to_rustls_extension e b config hrr cx store
  | ES_Rustls e => Done (Some e, cx, store)
  | ES_Keep (Must typ) =>
      match store !! store_key typ with
      | Some e => Done (Some e, cx, delete (store_key typ) store)
      | None =>
          if bool_decide (typ = ET_ServerName) && cc_enable_sni config then Done (None, cx, store)
          else if fb_strict_mode b then Panic
          else Done (None, cx, store)
      end
  | ES_Keep (Optional typ) => Done (store !! store_key typ, cx, delete (store_key typ) store)
  | ES_Keep (OrDefault typ dflt) =>
      Done (Some (default dflt (store !! store_key typ)), cx, delete (store_key typ) store)
  end.

Fixpoint apply_specs (b : FingerprintBuilder) (config : ClientConfig)
    (hrr : option HelloRetryRequest) (specs : list ExtensionSpec) (order : list nat)
    (cx : Context) (store : ExtStore) : outcome (list ClientExtension * Context) :=
  match order with
  | [] => Done ([], cx)
  | i :: order =>
      match specs !! i with
      | None => Panic
      | Some spec =>
          '(ext, cx, store) ← apply_spec b config hrr spec cx store;
          '(exts, cx) ← apply_specs b config hrr specs order cx store;
          Done (option_list ext ++ exts, cx)
      end
  end.

(** [Fingerprint::patch_extension]. *)
Definition patch_extension (config : ClientConfig) (hrr : option HelloRetryRequest)
    (exts : list ClientExtension) (cx : Context) : outcome (list ClientExtension * Context) :=
  b ← craft_get config;
  let f := fb_fingerprint b in
  let store := ext_store_of exts in
  cx ← (if opt_is_none hrr && fp_shuffle_extensions f then
          '(order, cx) ← shuffle_extensions (fp_extensions f) cx;
          Done (cx <| cx_craft := (cx_craft cx) <| extension_order := order |> |>)
        else Done cx);
  let order := match extension_order (cx_craft cx) with
               | [] => seq 0 (length (fp_extensions f))
               | order => order
               end in
  apply_specs b config hrr (fp_extensions f) order cx store.

(** [CraftOptions::patch_cipher] and [Fingerprint::patch_cipher]. *)
Definition patch_cipher (config : ClientConfig) (suites : list CipherSuite) (cx : Context)
    : outcome (list CipherSuite) :=
  b ← craft_get config;
  if negb (fb_override_suite b) then Done suites
  else Done ((λ c, val_or c (grease_get cx GI_Cipher)) <$> fp_cipher (fb_fingerprint b)).
End Handshake.

(** ** The placeholders of a connection, and the order of extensions

    What the GREASE values of a connection are, and the order that a fingerprint which
    shuffles its extensions draws once. *)

(** ** Placeholders *)

(** The sixteen values that RFC 8701 reserves. *)
Definition GREASE_VALUES : list Z := (λ u, (u * 16 + 10) * 257) <$> seqZ 0 16.

(** What the low byte of a draw makes of it. *)
Definition grease_byte_ok (b : Z) : bool :=
  let g := grease_value b in
  bool_decide (g ∈ GREASE_VALUES) && bool_decide (Z.lxor g 0x1010 ∈ GREASE_VALUES)
  && negb (Z.lxor g 0x1010 =? g).

Lemma grease_bytes_ok : forallb grease_byte_ok (seqZ 0 256) = true.
Proof. vm_compute. reflexivity. Qed.

Lemma grease_value_byte seed : grease_value seed = grease_value (seed mod 256).
Proof.
  unfold grease_value. change 256 with (2 ^ 8). rewrite <- Z.land_ones, <- Z.land_assoc by lia.
  by change (Z.land (Z.ones 8) 240) with 240.
Qed.

Lemma grease_value_ok seed :
  grease_value seed ∈ GREASE_VALUES ∧ Z.lxor (grease_value seed) 0x1010 ∈ GREASE_VALUES ∧
  Z.lxor (grease_value seed) 0x1010 ≠ grease_value seed.
Proof.
  rewrite grease_value_byte. pose proof grease_bytes_ok as Hall. rewrite forallb_forall in Hall.
  specialize (Hall (seed mod 256)). unfold grease_byte_ok in Hall.
  rewrite !andb_true_iff, negb_true_iff, Z.eqb_neq, !bool_decide_eq_true in Hall.
  destruct Hall as [[H1 H2] H3]; [|done].
  apply list_elem_of_In, elem_of_seqZ. pose proof (Z.mod_pos_bound seed 256). lia.
Qed.

(** whatever is drawn, each placeholder of a connection is one of the sixteen values that
    RFC 8701 reserves, and the two extensions with a placeholder for a type have different
    ones, so that no hello names an extension twice. *)
Theorem grease_seeds_valid (random : list Z) (cx : Context) :
  length random = NumOfGrease → cx_craft cx = craft_data_new random →
  (∀ i, grease_get cx i ∈ GREASE_VALUES) ∧
  grease_get cx GI_Extension1 ≠ grease_get cx GI_Extension2.
Proof.
  intros Hlen Hcx. unfold grease_get. rewrite Hcx. unfold craft_data_new.
  do 8 (destruct random as [|? random]; try done). cbn [fmap list_fmap grease_seed].
  cbn [nth grease_index].
  destruct (Z.eqb_spec (grease_value z1) (grease_value z2)) as [He|Hne].
  - split; [intros []; simpl; apply grease_value_ok|]. simpl. rewrite He.
    intros Heq. by apply (proj2 (proj2 (grease_value_ok z2))).
  - split; [intros []; simpl; apply grease_value_ok|done].
Qed.

(** ** The order of extensions *)

(** The places of [exts], counted from [n], that a predicate picks. *)
Definition places (p : ExtensionSpec → bool) (n : nat) (exts : list ExtensionSpec) : list nat :=
  omap (λ '(i, e), if p e : bool then Some i else None) (imap (λ i e, ((n + i)%nat, e)) exts).

Lemma places_cons p n e exts :
  places p n (e :: exts) = (if p e then [n] else []) ++ places p (S n) exts.
Proof.
  unfold places. cbn [imap omap list_omap]. rewrite Nat.add_0_r.
  rewrite (imap_ext (_ ∘ S) (λ i e, ((S n + i)%nat, e))) by (intros; unfold compose; simpl; f_equal; lia).
  by destruct (p e).
Qed.

Lemma places_perm p n exts :
  places p n exts ++ places (λ e, negb (p e)) n exts ≡ₚ seq n (length exts).
Proof.
  revert n. induction exts as [|e exts IH]; intros n; [done|].
  rewrite !places_cons. simpl. rewrite <- (IH (S n)).
  destruct (p e); simpl; [done|]. by rewrite <- Permutation_middle.
Qed.

Lemma places_ge p n exts i : i ∈ places p n exts → (n ≤ i)%nat.
Proof.
  revert n. induction exts as [|e exts IH]; intros n; [by intros ?%elem_of_nil|].
  rewrite places_cons, elem_of_app. intros [Hi|Hi%IH]; [|lia].
  destruct (p e); [|by apply elem_of_nil in Hi]. apply list_elem_of_singleton in Hi. lia.
Qed.

Lemma places_elem p n exts i e :
  exts !! i = Some e → p e = true → (n + i)%nat ∈ places p n exts.
Proof.
  revert n i. induction exts as [|x exts IH]; intros n i; [done|].
  rewrite places_cons, elem_of_app. destruct i as [|i]; simpl.
  - intros [= ->] ->. left. rewrite Nat.add_0_r. by apply list_elem_of_singleton.
  - intros He Hp. right. replace (n + S i)%nat with (S n + i)%nat by lia. by apply IH.
Qed.

(** Indices at which one after the other can be inserted into [n] elements: each one is behind
    the former ones, and not behind the end. *)
Fixpoint fits (idx : list nat) (low n : nat) : Prop :=
  match idx with
  | [] => True
  | i :: idx => (low ≤ i ≤ n)%nat ∧ fits idx (S i) (S n)
  end.

Lemma places_fit p n low m exts :
  (low ≤ n)%nat → (n + length (places (λ e, negb (p e)) n exts) ≤ m)%nat →
  fits (places p n exts) low m.
Proof.
  revert n low m. induction exts as [|e exts IH]; intros n low m Hlow Hm; [done|].
  rewrite places_cons. rewrite places_cons, length_app in Hm.
  destruct (p e); simpl in *; [split; [lia|]|]; apply IH; lia.
Qed.

Lemma vec_insert_ok {A} i (x : A) l :
  (i ≤ length l)%nat →
  ∃ l', vec_insert i x l = Done l' ∧ l' ≡ₚ x :: l ∧ l' !! i = Some x ∧
    ∀ j, (j < i)%nat → l' !! j = l !! j.
Proof.
  intros Hi. unfold vec_insert. rewrite (proj2 (Nat.leb_le _ _) Hi). eexists. split_and!; [done|..].
  - rewrite <- Permutation_middle. by rewrite firstn_skipn.
  - rewrite lookup_app_r, length_take, Nat.min_l, Nat.sub_diag by (rewrite ?length_take; lia). done.
  - intros j Hj. rewrite lookup_app_l by (rewrite length_take; lia). by rewrite lookup_take_lt.
Qed.

(** Every index that is inserted stays where it was put, as later ones come behind it. *)
Lemma insert_indices_ok idx low l :
  fits idx low (length l) →
  ∃ l', insert_indices idx l = Done l' ∧ l' ≡ₚ idx ++ l ∧
    (∀ i, i ∈ idx → l' !! i = Some i) ∧ ∀ j, (j < low)%nat → l' !! j = l !! j.
Proof.
  revert low l. induction idx as [|i idx IH]; intros low l; simpl.
  { intros _. exists l. split_and!; try done. by intros i ?%elem_of_nil. }
  intros [Hi Hfits]. destruct (vec_insert_ok i i l) as (l1 & -> & Hp1 & Hat & Hbelow1); [lia|].
  destruct (IH (S i) l1) as (l2 & Hins & Hp2 & Hin & Hbelow); [by rewrite Hp1|].
  exists l2. split_and!; [exact Hins| | |].
  - rewrite Hp2, Hp1. by rewrite Permutation_middle.
  - intros j [->|Hj]%elem_of_cons; [|by apply Hin]. by rewrite Hbelow by lia.
  - intros j Hj. by rewrite Hbelow, Hbelow1 by lia.
Qed.

Section Shuffle.
Context `{TlsCrypto}.

Lemma shuffle_loop_ok i l cx :
  (∀ n, secure_random n 4 ≠ None) → (i < length l ∨ i = 0)%nat →
  ∃ l' cx', shuffle_loop i l cx = Done (l', cx') ∧ l' ≡ₚ l ∧ cx_craft cx' = cx_craft cx.
Proof.
  intros Hr. revert l cx. induction i as [|i IH]; intros l cx Hi; [by eexists _, _|].
  cbn [shuffle_loop draw]. destruct (secure_random _ 4) as [buf|] eqn:Hbuf; [|by apply Hr in Hbuf].
  set (j := Z.to_nat _). assert (j ≤ S i)%nat as Hj.
  { subst j. pose proof (Z.mod_pos_bound (of_be buf) (Z.of_nat (S i) + 1)). lia. }
  destruct (lookup_lt_is_Some_2 l (S i)) as [x Hx]; [lia|].
  destruct (lookup_lt_is_Some_2 l j) as [y Hy]; [lia|].
  unfold vec_swap. rewrite Hx, Hy. cbn [mbind outcome_bind].
  destruct (IH (<[j := x]> (<[S i := y]> l)) (cx <| cx_draws := S (cx_draws cx) |>)) as (l' & cx' & Hl & Hp & Hc).
  { left. rewrite !length_insert. lia. }
  exists l', cx'. split; [exact Hl|]. split; [|by rewrite Hc; destruct cx].
  by rewrite Hp, Permutation_insert_swap.
Qed.

(** As long as randomness does not fail, shuffling the extensions of a fingerprint never
    panics, whatever is drawn: it gives every place of the fingerprint once, and the
    placeholders, the padding and the pre-shared key, which a server wants last, keep theirs. *)
Theorem shuffle_keeps_places (exts : list ExtensionSpec) (cx : Context) :
  (∀ n, secure_random n 4 ≠ None) →
  ∃ order cx', shuffle_extensions exts cx = Done (order, cx') ∧
    order ≡ₚ seq 0 (length exts) ∧
    ∀ i e, exts !! i = Some e → stays e = true → order !! i = Some i.
Proof.
  intros Hr. unfold shuffle_extensions.
  change (imap pair exts) with (imap (λ i e, ((0 + i)%nat, e)) exts).
  fold (places (λ e, negb (stays e)) 0 exts) (places stays 0 exts).
  destruct (shuffle_loop_ok (length (places (λ e, negb (stays e)) 0 exts) - 1)
    (places (λ e, negb (stays e)) 0 exts) cx) as (l & cx1 & -> & Hp & _); [done|lia|].
  cbn [mbind outcome_bind].
  destruct (insert_indices_ok (places stays 0 exts) 0 l) as (l' & -> & Hp' & Hin & _).
  { apply places_fit; [lia|]. by rewrite Hp. }
  exists l', cx1. split; [done|]. split.
  - by rewrite Hp', Hp, places_perm.
  - intros i e He Hs. apply Hin. by apply (places_elem stays 0 exts i e).
Qed.
End Shuffle.
