(* ===== verification/TlsContext.v ===== *)
(** * TlsContext: the steps of a TLS client
    (craftls/rustls/src/error.rs, common_state.rs)

    Errors, and the computations that handle messages: they change a [Context], and may fail
    or panic. *)

From S2P Require Import Prelude TlsCodec TlsEnums TlsHello TlsMessages TlsRecord TlsSession Craft.

(** ** Errors *)

Inductive PeerMisbehaved :=
  | AttemptedDowngradeToTls12WhenTls13IsSupported | BadCertChainExtensions
  | DisallowedEncryptedExtension | DuplicateClientHelloExtensions | DuplicateEncryptedExtensions
  | DuplicateHelloRetryRequestExtensions | DuplicateNewSessionTicketExtensions
  | DuplicateServerHelloExtensions | DuplicateServerNameTypes
  | DuplicateCertificateCompressionAlgorithms | EarlyDataAttemptedInSecondClientHello
  | EarlyDataExtensionWithoutResumption | EarlyDataOfferedWithVariedCipherSuite
  | HandshakeHashVariedAfterRetry | IllegalHelloRetryRequestWithEmptyCookie
  | IllegalHelloRetryRequestWithNoChanges | IllegalHelloRetryRequestWithOfferedGroup
  | IllegalHelloRetryRequestWithUnofferedCipherSuite
  | IllegalHelloRetryRequestWithUnofferedNamedGroup
  | IllegalHelloRetryRequestWithUnsupportedVersion | IllegalHelloRetryRequestWithWrongSessionId
  | IllegalMiddleboxChangeCipherSpec | IllegalTlsInnerPlaintext | IncorrectBinder
  | InvalidMaxEarlyDataSize | InvalidKeyShare | KeyEpochWithPendingFragment
  | KeyUpdateReceivedInQuicConnection | MessageInterleavedWithHandshakeMessage
  | MissingBinderInPskExtension | MissingKeyShare | MissingPskModesExtension
  | MissingQuicTransportParameters | OfferedDuplicateKeyShares
  | OfferedEarlyDataWithOldProtocolVersion | OfferedEmptyApplicationProtocol
  | OfferedIncorrectCompressions | PskExtensionMustBeLast
  | PskExtensionWithMismatchedIdsAndBinders | RefusedToFollowHelloRetryRequest
  | RejectedEarlyDataInterleavedWithHandshakeMessage | ResumptionAttemptedWithVariedEms
  | ResumptionOfferedWithVariedCipherSuite | ResumptionOfferedWithVariedEms
  | ResumptionOfferedWithIncompatibleCipherSuite | SelectedDifferentCipherSuiteAfterRetry
  | SelectedInvalidPsk | SelectedTls12UsingTls13VersionExtension
  | SelectedUnofferedApplicationProtocol | SelectedUnofferedCipherSuite
  | SelectedUnofferedCompression | SelectedUnofferedKxGroup | SelectedUnofferedPsk
  | SelectedUnusableCipherSuiteForVersion | ServerHelloMustOfferUncompressedEcPoints
  | ServerNameDifferedOnRetry | ServerNameMustContainOneHostName | SignedKxWithWrongAlgorithm
  | SignedHandshakeWithUnadvertisedSigScheme | TooMuchEarlyDataReceived
  | UnexpectedCleartextExtension | UnsolicitedCertExtension | UnsolicitedEncryptedExtension
  | UnsolicitedSctList | UnsolicitedServerHelloExtension | WrongGroupForKeyShare.

Inductive PeerIncompatible :=
  | EcPointsExtensionRequired | KeyShareExtensionRequired | NamedGroupsExtensionRequired
  | NoCertificateRequestSignatureSchemesInCommon | NoCipherSuitesInCommon
  | NoEcPointFormatsInCommon | NoKxGroupsInCommon | NoSignatureSchemesInCommon
  | NullCompressionRequired | ServerDoesNotSupportTls12Or13
  | ServerSentHelloRetryRequestWithUnknownExtension | ServerTlsVersionIsDisabledByOurConfig
  | SignatureAlgorithmsExtensionRequired | SupportedVersionsExtensionRequired | Tls12NotOffered
  | Tls12NotOfferedOrEnabled | Tls13RequiredForQuic | UncompressedEcPointsRequired.

Inductive CertificateError :=
  | CertBadEncoding | CertExpired | CertNotValidYet | CertRevoked | CertUnhandledCriticalExtension
  | CertUnknownIssuer | CertUnknownRevocationStatus | CertBadSignature | CertNotValidForName
  | CertInvalidPurpose | CertApplicationVerificationFailure | CertOther (what : string).

Definition alert_of_certificate_error (e : CertificateError) : AlertDescription :=
  match e with
  | CertBadEncoding | CertUnhandledCriticalExtension | CertNotValidForName => AL_BadCertificate
  | CertExpired | CertNotValidYet => AL_CertificateExpired
  | CertRevoked => AL_CertificateRevoked
  | CertUnknownIssuer | CertUnknownRevocationStatus => AL_UnknownCA
  | CertBadSignature => AL_DecryptError
  | CertInvalidPurpose => AL_UnsupportedCertificate
  | CertApplicationVerificationFailure => AL_AccessDenied
  | CertOther _ => AL_CertificateUnknown
  end.

(** [Error], without the lists of what was expected. *)
Inductive HsError :=
  | HE_InappropriateMessage
  | HE_InappropriateHandshakeMessage
  | HE_InvalidMessage (e : ReadError)
  | HE_NoCertificatesPresented
  | HE_DecryptError
  | HE_PeerSentOversizedRecord
  | HE_HandshakeNotComplete
  | HE_Incompatible (m : PeerIncompatible)
  | HE_Misbehaved (m : PeerMisbehaved)
  | HE_AlertReceived (d : AlertDescription)
  | HE_InvalidCertificate (e : CertificateError)
  | HE_General (what : string)
  | HE_FailedToGetRandomBytes
  | HE_FailedCertificateDecompression
  | HE_UnknownCertCompressionAlg
  | HE_Kx (e : KxError).

(** [inappropriate_handshake_message] (check.rs). *)
Definition inappropriate_handshake_message (p : MessagePayload) : HsError :=
  match p with MP_Handshake _ _ => HE_InappropriateHandshakeMessage | _ => HE_InappropriateMessage end.

(** A step of the handshake: it may panic, and an error leaves the connection as it is. *)
Definition Hs (A : Type) : Type := Context → outcome (result HsError A * Context).

#[export] Instance hs_ret : MRet Hs := λ A a cx, Done (Ok a, cx).
#[export] Instance hs_bind : MBind Hs := λ A B f m cx,
  match m cx with
  | Done (Ok a, cx) => f a cx
  | Done (Err e, cx) => Done (Err e, cx)
  | Panic => Panic
  end.

#[export] Instance hs_fmap : FMap Hs := λ A B f m, a ← m; mret (f a).

Definition hs_err {A} (e : HsError) : Hs A := λ cx, Done (Err e, cx).
Definition hs_get : Hs Context := λ cx, Done (Ok cx, cx).
Definition hs_modify (f : Context → Context) : Hs () := λ cx, Done (Ok tt, f cx).
Definition hs_assert (b : bool) : Hs () := λ cx, if b then Done (Ok tt, cx) else Panic.
Definition hs_lift {A} (f : Context → outcome (A * Context)) : Hs A := λ cx,
  '(a, cx) ← f cx; Done (Ok a, cx).
Definition hs_outcome {A} (o : outcome A) : Hs A := λ cx, a ← o; Done (Ok a, cx).

(** [send_fatal_alert], which returns the error. *)
Definition fatal {A} (d : AlertDescription) (e : HsError) : Hs A := λ cx,
  Done (Err e, wire_event (EV_FatalAlert d) cx).
Definition misbehaved {A} (d : AlertDescription) (m : PeerMisbehaved) : Hs A :=
  fatal d (HE_Misbehaved m).

(** [if cond { return Err(send_fatal_alert(d, e)) }]. *)
Definition refuse_if (cond : bool) (d : AlertDescription) (e : HsError) : Hs () :=
  if cond then fatal d e else mret tt.

Definition check_aligned_handshake : Hs () :=
  cx ← hs_get;
  refuse_if (negb (cx_aligned_handshake cx)) AL_UnexpectedMessage
    (HE_Misbehaved KeyEpochWithPendingFragment).

(** What goes to the record layer, in order. *)
Definition wire (e : WireEvent) : Hs () := hs_modify (wire_event e).
Definition send_message (must_encrypt : bool) (m : Message) : Hs () :=
  wire (EV_Send must_encrypt (plain_of_message m)).

(** An operation on the store of sessions. *)
Definition store_op (op : StoreOp) : Hs () :=
  hs_modify (λ cx, cx <| cx_rest := (cx_rest cx) <| cr_store_ops := cr_store_ops (cx_rest cx) ++ [op] |> |>).
