(* ===== verification/TlsKeys.v ===== *)
(** * TlsKeys: the key schedule of TLS 1.3
    (craftls/rustls/src/tls13/key_schedule.rs, tls13/mod.rs, hash_hs.rs, crypto/ring/tls13.rs)

    The transcript of a handshake, the secrets that are derived along the way, and the keys
    that are set in the record layer. Hashing, HMAC and HKDF are ring's, parameters; a hash
    that is being computed is the bytes that have gone into it. *)

From S2P Require Import Prelude TlsCodec TlsEnums TlsHello TlsMessages TlsRecord TlsSession Craft TlsContext.

(** [hkdf_expand] fails for an output that is too long. *)
Class RingHash := {
  hash_bytes : HashAlgorithm → list Z → list Z;
  hmac_sign : HashAlgorithm → list Z → list Z → list Z;
  hkdf_extract : HashAlgorithm → list Z → list Z → list Z;
  hkdf_expand : HashAlgorithm → list Z → list Z → nat → option (list Z);
}.

Definition hash_output_len (h : HashAlgorithm) : nat :=
  match h with SHA256 => 32 | SHA384 => 48 end.

(** A text as bytes. *)
Definition text_bytes (s : string) : list Z := (λ c, Z.of_N (Ascii.N_of_ascii c)) <$> String.list_ascii_of_string s.

(** ** The transcript (hash_hs.rs) *)

Record HandshakeHashBuffer := mkHashBuffer {
  hb_buffer : list Z;
  hb_client_auth_enabled : bool;
}.

Record HandshakeHash := mkHash {
  hh_algorithm : HashAlgorithm;
  hh_input : list Z;
  hh_client_auth : option (list Z);
}.

Definition hash_buffer_new : HandshakeHashBuffer := mkHashBuffer [] false.
Definition set_client_auth_enabled (b : HandshakeHashBuffer) : HandshakeHashBuffer :=
  b <| hb_client_auth_enabled := true |>.

(** Only handshake messages count. *)
Definition buffer_add_message (m : Message) (b : HandshakeHashBuffer) : HandshakeHashBuffer :=
  match m_payload m with
  | MP_Handshake _ encoded => b <| hb_buffer := hb_buffer b ++ encoded |>
  | _ => b
  end.

Definition start_hash (alg : HashAlgorithm) (b : HandshakeHashBuffer) : HandshakeHash :=
  mkHash alg (hb_buffer b) (if hb_client_auth_enabled b then Some (hb_buffer b) else None).

Definition abandon_client_auth (h : HandshakeHash) : HandshakeHash := h <| hh_client_auth := None |>.

Definition update_raw (buf : list Z) (h : HandshakeHash) : HandshakeHash :=
  h <| hh_input := hh_input h ++ buf |> <| hh_client_auth := (λ b, b ++ buf) <$> hh_client_auth h |>.

Definition add_message (m : Message) (h : HandshakeHash) : HandshakeHash :=
  match m_payload m with MP_Handshake _ encoded => update_raw encoded h | _ => h end.

Definition take_handshake_buf (h : HandshakeHash) : option (list Z) * HandshakeHash :=
  (hh_client_auth h, h <| hh_client_auth := None |>).

Section Keys.
Context `{RingAead, RingHash}.

Definition buffer_hash_given (alg : HashAlgorithm) (extra : list Z) (b : HandshakeHashBuffer) : list Z :=
  hash_bytes alg (hb_buffer b ++ extra).
Definition hash_given (extra : list Z) (h : HandshakeHash) : list Z :=
  hash_bytes (hh_algorithm h) (hh_input h ++ extra).
Definition get_current_hash (h : HandshakeHash) : list Z := hash_bytes (hh_algorithm h) (hh_input h).

(** [into_hrr_buffer] and [rollup_for_hrr]: the hash so far, as a message. *)
Definition into_hrr_buffer (h : HandshakeHash) : HandshakeHashBuffer :=
  mkHashBuffer (handshake_hash_encode (get_current_hash h)) (opt_is_some (hh_client_auth h)).
Definition rollup_for_hrr (h : HandshakeHash) : HandshakeHash :=
  update_raw (handshake_hash_encode (get_current_hash h)) (h <| hh_input := [] |>).

(** ** HKDF over ring (crypto/ring/tls13.rs) *)

Record Expander := mkExpander { he_alg : HashAlgorithm; he_prk : list Z }.

Definition zeroes (alg : HashAlgorithm) : list Z := replicate (hash_output_len alg) 0.

Definition extract_from_secret (alg : HashAlgorithm) (salt : option (list Z)) (secret : list Z) : Expander :=
  mkExpander alg (hkdf_extract alg (default (zeroes alg) salt) secret).
Definition extract_from_zero_ikm (alg : HashAlgorithm) (salt : option (list Z)) : Expander :=
  extract_from_secret alg salt (zeroes alg).
Definition expander_for_okm (alg : HashAlgorithm) (okm : list Z) : Expander := mkExpander alg okm.

(** [expand_slice], [expand], which expects it to work, and [expand_block]. *)
Definition expand_slice (e : Expander) (info : list Z) (n : nat) : option (list Z) :=
  hkdf_expand (he_alg e) (he_prk e) info n.
Definition expand (e : Expander) (info : list Z) (n : nat) : outcome (list Z) :=
  match expand_slice e info n with Some okm => Done okm | None => Panic end.
Definition expand_block (e : Expander) (info : list Z) : outcome (list Z) :=
  expand e info (hash_output_len (he_alg e)).

(** [extract_from_kx_shared_secret]. *)
Definition extract_from_kx `{TlsCrypto} (alg : HashAlgorithm) (salt : option (list Z)) (kx : ActiveKx)
    (peer : list Z) : result KxError Expander :=
  extract_from_secret alg salt <$> kx_complete kx peer.

(** ** Labels *)

Inductive SecretKind :=
  | ResumptionPskBinderKey | ClientEarlyTrafficSecret | ClientHandshakeTrafficSecret
  | ServerHandshakeTrafficSecret | ClientApplicationTrafficSecret
  | ServerApplicationTrafficSecret | ExporterMasterSecret | ResumptionMasterSecret
  | DerivedSecret.

Definition kind_label (k : SecretKind) : string :=
  match k with
  | ResumptionPskBinderKey => "res binder"
  | ClientEarlyTrafficSecret => "c e traffic"
  | ClientHandshakeTrafficSecret => "c hs traffic"
  | ServerHandshakeTrafficSecret => "s hs traffic"
  | ClientApplicationTrafficSecret => "c ap traffic"
  | ServerApplicationTrafficSecret => "s ap traffic"
  | ExporterMasterSecret => "exp master"
  | ResumptionMasterSecret => "res master"
  | DerivedSecret => "derived"
  end.

Definition log_label (k : SecretKind) : option string :=
  match k with
  | ClientEarlyTrafficSecret => Some "CLIENT_EARLY_TRAFFIC_SECRET"
  | ClientHandshakeTrafficSecret => Some "CLIENT_HANDSHAKE_TRAFFIC_SECRET"
  | ServerHandshakeTrafficSecret => Some "SERVER_HANDSHAKE_TRAFFIC_SECRET"
  | ClientApplicationTrafficSecret => Some "CLIENT_TRAFFIC_SECRET_0"
  | ServerApplicationTrafficSecret => Some "SERVER_TRAFFIC_SECRET_0"
  | ExporterMasterSecret => Some "EXPORTER_SECRET"
  | _ => None
  end.

(** The info of [hkdf_expand_label_inner], for an output of [n] bytes. *)
Definition label_info (label context : list Z) (n : nat) : list Z :=
  let prefix := text_bytes "tls13 " in
  be_bytes 2 (Z.of_nat n) ++ be_bytes 1 (Z.of_nat (length prefix + length label)) ++ prefix ++ label ++
  be_bytes 1 (Z.of_nat (length context)) ++ context.

Definition hkdf_expand_label (e : Expander) (label : string) (context : list Z) (n : nat) : outcome (list Z) :=
  expand e (label_info (text_bytes label) context n) n.
Definition hkdf_expand_label_block (e : Expander) (label context : list Z) : outcome (list Z) :=
  expand_block e (label_info label context (hash_output_len (he_alg e))).
Definition hkdf_expand_label_slice (e : Expander) (label : string) (context : list Z) (n : nat)
    : option (list Z) :=
  expand_slice e (label_info (text_bytes label) context n) n.

(** A key: the most that there is, cut to its length. *)
Definition AEAD_KEY_MAX_LEN : nat := 32.
Definition hkdf_expand_label_aead_key (e : Expander) (key_len : nat) (label : string) (context : list Z)
    : outcome (list Z) :=
  key ← expand e (label_info (text_bytes label) context key_len) AEAD_KEY_MAX_LEN;
  if (key_len <=? AEAD_KEY_MAX_LEN)%nat then Done (firstn key_len key) else Panic.

Definition derive_traffic_key (e : Expander) (aead_key_len : nat) : outcome (list Z) :=
  hkdf_expand_label_aead_key e aead_key_len "key" [].
Definition derive_traffic_iv (e : Expander) : outcome (list Z) := hkdf_expand_label e "iv" [] 12.

(** ** The schedule *)

Record KeySchedule := mkSchedule {
  ks_current : Expander;
  ks_suite : SupportedCipherSuite;
}.

(** The AEAD of a suite of TLS 1.3. *)
Definition suite_aead (s : SupportedCipherSuite) : AeadAlgorithm :=
  match cs_suite s with
  | CS_TLS13_CHACHA20_POLY1305_SHA256 => CHACHA20_POLY1305
  | CS_TLS13_AES_256_GCM_SHA384 => AES_256_GCM
  | _ => AES_128_GCM
  end.

Definition schedule_new (suite : SupportedCipherSuite) (secret : list Z) : KeySchedule :=
  mkSchedule (extract_from_secret (cs_hash suite) None secret) suite.
Definition schedule_new_with_empty_secret (suite : SupportedCipherSuite) : KeySchedule :=
  mkSchedule (extract_from_zero_ikm (cs_hash suite) None) suite.

(** The key and iv of a secret, for [set_encrypter], [derive_decrypter] and
    [extract_secrets]. *)
Definition expand_traffic (ks : KeySchedule) (secret : list Z) : outcome (list Z * list Z) :=
  let e := expander_for_okm (cs_hash (ks_suite ks)) secret in
  key ← derive_traffic_key e (aead_key_len (suite_aead (ks_suite ks)));
  iv ← derive_traffic_iv e;
  Done (key, iv).

Definition traffic_keys (ks : KeySchedule) (secret : list Z) : outcome MessageKey :=
  '(key, iv) ← expand_traffic ks secret; message_key (suite_aead (ks_suite ks)) key iv.

Definition set_encrypter (ks : KeySchedule) (secret : list Z) : Hs () :=
  k ← hs_outcome (traffic_keys ks secret); wire (EV_Encrypter k).
Definition set_decrypter (ks : KeySchedule) (secret : list Z) : Hs () :=
  k ← hs_outcome (traffic_keys ks secret); wire (EV_Decrypter k).

Definition derive (ks : KeySchedule) (kind : SecretKind) (hs_hash : list Z) : outcome (list Z) :=
  hkdf_expand_label_block (ks_current ks) (text_bytes (kind_label kind)) hs_hash.

Definition derive_for_empty_hash (ks : KeySchedule) (kind : SecretKind) : outcome (list Z) :=
  derive ks kind (hash_bytes (cs_hash (ks_suite ks)) []).

(** [derive_logged_secret]; it expects a label. *)
Definition derive_logged_secret (ks : KeySchedule) (kind : SecretKind) (hs_hash : list Z)
    (key_log : string → bool) (client_random : list Z) : Hs (list Z) :=
  output ← hs_outcome (derive ks kind hs_hash);
  match log_label kind with
  | None => λ _, Panic
  | Some label =>
      _ ← (if key_log label then
             hs_modify (λ cx, cx <| cx_rest := (cx_rest cx) <| cr_key_log :=
               cr_key_log (cx_rest cx) ++ [(label, client_random, output)] |> |>)
           else mret tt);
      mret output
  end.

Definition input_empty (ks : KeySchedule) : outcome KeySchedule :=
  salt ← derive_for_empty_hash ks DerivedSecret;
  Done (ks <| ks_current := extract_from_zero_ikm (cs_hash (ks_suite ks)) (Some salt) |>).

Definition input_from_key_exchange `{TlsCrypto} (ks : KeySchedule) (kx : ActiveKx) (peer : list Z)
    : Hs KeySchedule :=
  salt ← hs_outcome (derive_for_empty_hash ks DerivedSecret);
  match extract_from_kx (cs_hash (ks_suite ks)) (Some salt) kx peer with
  | Ok e => mret (ks <| ks_current := e |>)
  | Err e => hs_err (HE_Kx e)
  end.

Definition sign_verify_data (ks : KeySchedule) (base_key hs_hash : list Z) : outcome (list Z) :=
  let alg := cs_hash (ks_suite ks) in
  hmac_key ← hkdf_expand_label_block (expander_for_okm alg base_key) (text_bytes "finished") [];
  Done (hmac_sign alg hmac_key hs_hash).
Definition sign_finish : KeySchedule → list Z → list Z → outcome (list Z) := sign_verify_data.

Definition derive_next (ks : KeySchedule) (base_key : list Z) : outcome (list Z) :=
  hkdf_expand_label_block (expander_for_okm (cs_hash (ks_suite ks)) base_key) (text_bytes "traffic upd") [].

Definition derive_ticket_psk (ks : KeySchedule) (rms nonce : list Z) : outcome (list Z) :=
  hkdf_expand_label_block (expander_for_okm (cs_hash (ks_suite ks)) rms) (text_bytes "resumption") nonce.

(** [None] of the result is the error "exporting too much". *)
Definition schedule_export (ks : KeySchedule) (current_exporter_secret : list Z) (n : nat)
    (label : list Z) (context : option (list Z)) : outcome (option (list Z)) :=
  let alg := cs_hash (ks_suite ks) in
  secret ← hkdf_expand_label_block (expander_for_okm alg current_exporter_secret) label (hash_bytes alg []);
  Done (hkdf_expand_label_slice (expander_for_okm alg secret) "exporter" (hash_bytes alg (default [] context)) n).

(** ** The stages of a handshake

    The code gives each stage a type; here early, pre-handshake and handshake-start are a
    [KeySchedule]. What is for QUIC only is left out. *)

Inductive Side := Client | Server.
Definition peer_side (s : Side) : Side := match s with Client => Server | Server => Client end.

(** [KeyScheduleEarly]. *)
Definition early_new : SupportedCipherSuite → list Z → KeySchedule := schedule_new.

Definition client_early_traffic_secret (ks : KeySchedule) (side : Side) (hs_hash : list Z)
    (key_log : string → bool) (client_random : list Z) : Hs () :=
  secret ← derive_logged_secret ks ClientEarlyTrafficSecret hs_hash key_log client_random;
  match side with Client => set_encrypter ks secret | Server => set_decrypter ks secret end.

Definition resumption_psk_binder (ks : KeySchedule) (hs_hash : list Z) : outcome (list Z) :=
  key ← derive_for_empty_hash ks ResumptionPskBinderKey; sign_verify_data ks key hs_hash.

(** [KeySchedulePreHandshake]. *)
Definition pre_handshake_new : SupportedCipherSuite → KeySchedule := schedule_new_with_empty_secret.
Definition pre_into_handshake `{TlsCrypto} : KeySchedule → ActiveKx → list Z → Hs KeySchedule :=
  input_from_key_exchange.

Record KeyScheduleHandshake := mkScheduleHandshake {
  kh_ks : KeySchedule;
  kh_client_secret : list Z;
  kh_server_secret : list Z;
}.

(** [KeyScheduleHandshakeStart]. *)
Definition start_into_handshake (ks : KeySchedule) (hs_hash : list Z) (key_log : string → bool)
    (client_random : list Z) : Hs KeyScheduleHandshake :=
  client ← derive_logged_secret ks ClientHandshakeTrafficSecret hs_hash key_log client_random;
  server ← derive_logged_secret ks ServerHandshakeTrafficSecret hs_hash key_log client_random;
  mret (mkScheduleHandshake ks client server).

Definition derive_client_handshake_secrets (ks : KeySchedule) (early_data_enabled : bool)
    (hs_hash : list Z) (suite : SupportedCipherSuite) (key_log : string → bool)
    (client_random : list Z) : Hs KeyScheduleHandshake :=
  new ← start_into_handshake (ks <| ks_suite := suite |>) hs_hash key_log client_random;
  _ ← set_decrypter (kh_ks new) (kh_server_secret new);
  _ ← (if negb early_data_enabled then set_encrypter (kh_ks new) (kh_client_secret new) else mret tt);
  mret new.

Definition derive_server_handshake_secrets (ks : KeySchedule) (hs_hash : list Z)
    (key_log : string → bool) (client_random : list Z) : Hs KeyScheduleHandshake :=
  new ← start_into_handshake ks hs_hash key_log client_random;
  _ ← set_encrypter (kh_ks new) (kh_server_secret new);
  mret new.

Definition sign_server_finish (kh : KeyScheduleHandshake) (hs_hash : list Z) : outcome (list Z) :=
  sign_finish (kh_ks kh) (kh_server_secret kh) hs_hash.
Definition set_handshake_encrypter (kh : KeyScheduleHandshake) : Hs () :=
  set_encrypter (kh_ks kh) (kh_client_secret kh).

(** [set_handshake_decrypter] without early data to skip. *)
Definition set_handshake_decrypter (kh : KeyScheduleHandshake) : Hs () :=
  set_decrypter (kh_ks kh) (kh_client_secret kh).

Record KeyScheduleTraffic := mkScheduleTraffic {
  kt_ks : KeySchedule;
  kt_client_secret : list Z;
  kt_server_secret : list Z;
  kt_exporter_secret : list Z;
}.

Definition traffic_new (ks : KeySchedule) (hs_hash : list Z) (key_log : string → bool)
    (client_random : list Z) : Hs KeyScheduleTraffic :=
  ks ← hs_outcome (input_empty ks);
  client ← derive_logged_secret ks ClientApplicationTrafficSecret hs_hash key_log client_random;
  server ← derive_logged_secret ks ServerApplicationTrafficSecret hs_hash key_log client_random;
  exporter ← derive_logged_secret ks ExporterMasterSecret hs_hash key_log client_random;
  mret (mkScheduleTraffic ks client server exporter).

(** [KeyScheduleClientBeforeFinished] is the traffic schedule to come. *)
Definition into_pre_finished_client_traffic (kh : KeyScheduleHandshake) (pre_finished_hash handshake_hash : list Z)
    (key_log : string → bool) (client_random : list Z) : Hs (KeyScheduleTraffic * list Z) :=
  traffic ← traffic_new (kh_ks kh) pre_finished_hash key_log client_random;
  tag ← hs_outcome (sign_finish (kt_ks traffic) (kh_client_secret kh) handshake_hash);
  mret (traffic, tag).

Definition client_into_traffic (t : KeyScheduleTraffic) : Hs KeyScheduleTraffic :=
  _ ← set_decrypter (kt_ks t) (kt_server_secret t);
  _ ← set_encrypter (kt_ks t) (kt_client_secret t);
  mret t.

(** [KeyScheduleTrafficWithClientFinishedPending], for servers. *)
Record ClientFinishedPending := mkFinishedPending {
  cfp_handshake_client_secret : list Z;
  cfp_traffic : KeyScheduleTraffic;
}.

Definition into_traffic_with_client_finished_pending (kh : KeyScheduleHandshake) (hs_hash : list Z)
    (key_log : string → bool) (client_random : list Z) : Hs ClientFinishedPending :=
  traffic ← traffic_new (kh_ks kh) hs_hash key_log client_random;
  _ ← set_encrypter (kt_ks traffic) (kt_server_secret traffic);
  mret (mkFinishedPending (kh_client_secret kh) traffic).

Definition pending_update_decrypter (p : ClientFinishedPending) : Hs () :=
  set_decrypter (kt_ks (cfp_traffic p)) (cfp_handshake_client_secret p).

Definition sign_client_finish (p : ClientFinishedPending) (hs_hash : list Z)
    : Hs (KeyScheduleTraffic * list Z) :=
  let t := cfp_traffic p in
  tag ← hs_outcome (sign_finish (kt_ks t) (cfp_handshake_client_secret p) hs_hash);
  _ ← set_decrypter (kt_ks t) (kt_client_secret t);
  mret (t, tag).

Definition next_application_traffic_secret (t : KeyScheduleTraffic) (side : Side)
    : outcome (list Z * KeyScheduleTraffic) :=
  match side with
  | Client => s ← derive_next (kt_ks t) (kt_client_secret t); Done (s, t <| kt_client_secret := s |>)
  | Server => s ← derive_next (kt_ks t) (kt_server_secret t); Done (s, t <| kt_server_secret := s |>)
  end.

(** The notification is protected with the old key, and sent with the next plaintext. *)
Definition enqueue_notification `{DnsNames} : Hs () :=
  p ← hs_outcome (payload_handshake build_key_update_notify);
  _ ← wire (EV_KeyUpdate (plain_of_message (mkMessage PV_TLSv1_3 p)));
  hs_modify (λ cx, cx <| cx_rest := (cx_rest cx) <| cr_key_update_queued := true |> |>).

Definition update_encrypter_and_notify `{DnsNames} (t : KeyScheduleTraffic) (side : Side)
    : Hs KeyScheduleTraffic :=
  '(secret, t) ← hs_outcome (next_application_traffic_secret t side);
  _ ← enqueue_notification;
  _ ← set_encrypter (kt_ks t) secret;
  mret t.

Definition update_decrypter (t : KeyScheduleTraffic) (side : Side) : Hs KeyScheduleTraffic :=
  '(secret, t) ← hs_outcome (next_application_traffic_secret t (peer_side side));
  _ ← set_decrypter (kt_ks t) secret;
  mret t.

Definition resumption_ticket_psk (t : KeyScheduleTraffic) (hs_hash nonce : list Z) : outcome (list Z) :=
  rms ← derive (kt_ks t) ResumptionMasterSecret hs_hash; derive_ticket_psk (kt_ks t) rms nonce.

Definition traffic_export (t : KeyScheduleTraffic) : nat → list Z → option (list Z) → outcome (option (list Z)) :=
  schedule_export (kt_ks t) (kt_exporter_secret t).

(** [extract_secrets]: the keys to send and to receive with. *)
Definition extract_secrets (t : KeyScheduleTraffic) (side : Side)
    : outcome ((list Z * list Z) * (list Z * list Z)) :=
  client ← expand_traffic (kt_ks t) (kt_client_secret t);
  server ← expand_traffic (kt_ks t) (kt_server_secret t);
  Done match side with Client => (client, server) | Server => (server, client) end.
End Keys.

(** ** What a CertificateVerify signs (tls13/mod.rs) *)

Definition construct_verify_message (handshake_hash context_string_with_0 : list Z) : list Z :=
  replicate 64 0x20 ++ context_string_with_0 ++ handshake_hash.

Definition construct_client_verify_message (handshake_hash : list Z) : list Z :=
  construct_verify_message handshake_hash (text_bytes "TLS 1.3, client CertificateVerify" ++ [0]).
Definition construct_server_verify_message (handshake_hash : list Z) : list Z :=
  construct_verify_message handshake_hash (text_bytes "TLS 1.3, server CertificateVerify" ++ [0]).
