(* ===== verification/TlsHandshake.v ===== *)
(** * TlsHandshake: the hellos of a TLS client
    (craftls/rustls/src/client/hs.rs, and the start of client/tls13.rs)

    From the start of a handshake to the keys that protect the rest of it: the first client
    hello, the second one after a retry request, and what is accepted as a server hello.
    Records are those of TCP, not of QUIC. TLS 1.2 after its server hello is not part of it. *)

From S2P Require Import Prelude TlsCodec TlsEnums TlsHello TlsMessages TlsRecord TlsSession Craft.
From S2P Require Import TlsContext TlsKeys.

Record ClientHelloInput := mkHelloInput {
  in_resuming : option Retrieved;
  in_random : Random;
  in_sent_tls13_fake_ccs : bool;
  in_sent_extensions : list ExtensionType;
  in_session_id : SessionId;
  in_server_name : PkiServerName;
}.

Record ExpectServerHello := mkExpect {
  ex_input : ClientHelloInput;
  ex_transcript_buffer : HandshakeHashBuffer;
  ex_early_key_schedule : option KeySchedule;
  ex_offered_key_share : option ActiveKx;
  ex_suite : option SupportedCipherSuite;
}.

(** A handshake that has sent its hello; a retry request is only accepted in the first. *)
Inductive HelloState :=
  | ExpectServerHelloOrHelloRetryRequest (next : ExpectServerHello)
      (extra_exts : list ClientExtension)
  | ExpectServerHelloOnly (next : ExpectServerHello).

Definition hs_next (s : HelloState) : ExpectServerHello :=
  match s with ExpectServerHelloOrHelloRetryRequest n _ => n | ExpectServerHelloOnly n => n end.

(** A server hello of TLS 1.3 was accepted; of the randoms only the client's is used. *)
Record ExpectEncryptedExtensions := mkExpectEE {
  ee_resuming_session : option Tls13ClientSessionValue;
  ee_server_name : PkiServerName;
  ee_client_random : list Z;
  ee_suite : SupportedCipherSuite;
  ee_transcript : HandshakeHash;
  ee_key_schedule : KeyScheduleHandshake;
  ee_sent_extensions : list ExtensionType;
}.

Section Handshake.
Context `{TlsCrypto, DnsNames, RingAead, RingHash}.

(** [fill]: the next draw of [n] bytes. *)
Definition random_fill (n : nat) : Hs (list Z) :=
  i ← hs_lift (λ cx, Done (draw cx));
  match secure_random i n with
  | Some b => mret b
  | None => hs_err HE_FailedToGetRandomBytes
  end.

Definition sid_random : Hs SessionId := b ← random_fill 32; mret (mkSessionId 32 b).
Definition random_new : Hs Random := b ← random_fill 32; mret (mkRandom b).

(** [start], with the [map_err] of its callers. *)
Definition start_kx (g : KxGroup) : Hs ActiveKx :=
  r ← hs_lift (kx_start g);
  match r with Ok k => mret k | Err _ => hs_err HE_FailedToGetRandomBytes end.

(** [emit_fake_ccs], once per connection; gives the new value of the flag. *)
Definition emit_fake_ccs (sent : bool) : Hs bool :=
  if sent then mret true
  else _ ← send_message false (mkMessage PV_TLSv1_2 MP_ChangeCipherSpec); mret true.

(** [initial_key_share]; the hint is what the store remembers of the server. *)
Definition initial_key_share (config : ClientConfig) (kx_hint : option NamedGroup) : Hs ActiveKx :=
  match opt_or (kx_hint ≫= find_kx_group config) (head (kx_groups (cc_provider config))) with
  | Some g => start_kx g
  | None => λ _, Panic
  end.

(** ** The client hello *)

(** [tls13::prepare_resumption]. *)
Definition prepare_tls13_resumption (config : ClientConfig) (v : Tls13ClientSessionValue)
    (retrieved_at : Z) (doing_retry : bool) (exts : list ClientExtension) : Hs (list ClientExtension) :=
  let suite := tv_suite v in
  let max_early := tv_max_early_data_size v in
  _ ← hs_modify (λ cx, cx <| cx_suite := Some suite |> <| cx_resumption_ciphersuite := Some suite |>);
  exts ← (if cc_enable_early_data config && (0 <? max_early) && negb doing_retry then
            cx ← hs_get;
            _ ← hs_assert (match ed_state (cx_early_data cx) with ED_Disabled => true | _ => false end);
            _ ← hs_modify (λ cx, cx <| cx_early_data := mkEarlyData max_early ED_Ready |>);
            mret (exts ++ [EarlyData])
          else mret exts);
  let binder := replicate (hash_output_len (cs_hash suite)) 0 in
  mret (exts ++ [PresharedKey (psk_offer_new
    (mkPskIdentity (mkPayloadU16 (sc_ticket (tv_common v))) (obfuscated_ticket_age v retrieved_at)) binder)]).

Definition can_resume_from (suite prev : SupportedCipherSuite) : bool :=
  bool_decide (cs_hash prev = cs_hash suite).

(** [prepare_resumption]: the extensions, and the session of TLS 1.3 that is resumed. *)
Definition prepare_resumption (config : ClientConfig) (resuming : option Retrieved)
    (exts : list ClientExtension) (suite : option SupportedCipherSuite)
    : Hs (list ClientExtension * option Tls13ClientSessionValue) :=
  let request :=
    if supports_version config PV_TLSv1_3 ||
       match cc_tls12_resumption config with T12_SessionIdOrTickets => true | _ => false end
    then mret (exts ++ [SessionTicket TicketRequest], None) else mret (exts, None) in
  match resuming with
  | None => request
  | Some r =>
      match session_ticket (rt_value r) with
      | [] => request
      | ticket =>
          match rt_value r with
          | Tls12Session _ =>
              if supports_version config PV_TLSv1_2 &&
                 match cc_tls12_resumption config with T12_SessionIdOrTickets => true | _ => false end
              then mret (exts ++ [SessionTicket (TicketOffer (mkPayload ticket))], None)
              else mret (exts, None)
          | Tls13Session v =>
              if negb (supports_version config PV_TLSv1_3) then mret (exts, None)
              else
                match suite with
                | Some suite =>
                    if bool_decide (cs_version suite = PV_TLSv1_3) && can_resume_from suite (tv_suite v)
                    then exts ← prepare_tls13_resumption config v (rt_retrieved_at r) true exts;
                         mret (exts, Some v)
                    else mret (exts, None)
                | None =>
                    exts ← prepare_tls13_resumption config v (rt_retrieved_at r) false exts;
                    mret (exts, Some v)
                end
          end
      end
  end.

Definition ec_point_formats_supported : list ECPointFormat := [EP_Uncompressed].

(** The extensions that rustls makes of itself; [verify_schemes] is the verifier's list. *)
Definition own_extensions (config : ClientConfig) (verify_schemes : list SignatureScheme)
    (server_name : PkiServerName) (key_share : option ActiveKx)
    (retryreq : option HelloRetryRequest) : outcome (list ClientExtension) :=
  let support_tls12 := supports_version config PV_TLSv1_2 in
  let support_tls13 := supports_version config PV_TLSv1_3 in
  let supported_versions :=
    (if support_tls13 then [PV_TLSv1_3] else []) ++ (if support_tls12 then [PV_TLSv1_2] else []) in
  match supported_versions with
  | [] => Panic
  | _ =>
      sni ← (match server_name, cc_enable_sni config with
             | PkiDnsName dns, true => e ← make_sni dns; Done [e]
             | _, _ => Done []
             end);
      Done
        ([SupportedVersions supported_versions;
          EcPointFormats ec_point_formats_supported;
          NamedGroups (kx_name <$> kx_groups (cc_provider config));
          SignatureAlgorithms verify_schemes;
          ExtendedMasterSecretRequest;
          CE_CertificateStatusRequest build_ocsp] ++
         sni ++
         match key_share with
         | Some k => [CE_KeyShare [key_share_new (ak_group k) (ak_pub_key k)]]
         | None => []
         end ++
         match retryreq ≫= get_cookie with Some c => [Cookie c] | None => [] end ++
         (if support_tls13 then [PresharedKeyModes [PK_PSK_DHE_KE]] else []) ++
         match cc_alpn_protocols config with
         | [] => []
         | protos => [Protocols (from_slices protos)]
         end ++
         (if support_tls13 then
            match cc_certificate_compression_algorithms config with
            | [] => []
            | algs => [CompressCertificate algs]
            end
          else []))
  end.

(** [set_psk_binder]: the binder goes into the offer when the offer is the last extension. *)
Definition set_psk_binder (binder : list Z) (h : ClientHelloPayload) : ClientHelloPayload :=
  match last (ch_extensions h) with
  | Some (PresharedKey o) =>
      h <| ch_extensions :=
        firstn (length (ch_extensions h) - 1) (ch_extensions h) ++
        [PresharedKey (o <| psk_binders := <[0%nat := mkBinder (mkPayloadU8 binder)]> (psk_binders o) |>)] |>
  | _ => h
  end.

(** [fill_in_psk_binder]: the binder is made over the hello without it. *)
Definition fill_in_psk_binder (v : Tls13ClientSessionValue) (transcript : HandshakeHashBuffer)
    (h : ClientHelloPayload) : outcome (KeySchedule * ClientHelloPayload) :=
  let suite := tv_suite v in
  let handshake_hash := buffer_hash_given (cs_hash suite) (encoding_for_binder_signing h) transcript in
  let ks := early_new suite (sc_secret (tv_common v)) in
  binder ← resumption_psk_binder ks handshake_hash;
  Done (ks, set_psk_binder binder h).

(** [derive_early_traffic_secret]. *)
Definition derive_early_traffic_secret (config : ClientConfig) (suite : SupportedCipherSuite)
    (ks : KeySchedule) (sent_fake_ccs : bool) (transcript : HandshakeHashBuffer)
    (client_random : list Z) : Hs bool :=
  sent_fake_ccs ← emit_fake_ccs sent_fake_ccs;
  _ ← client_early_traffic_secret ks Client (buffer_hash_given (cs_hash suite) [] transcript)
        (cc_key_log config) client_random;
  _ ← hs_modify (λ cx, cx <| cx_early_traffic := true |>);
  mret sent_fake_ccs.

(** [emit_client_hello_for_retry]. *)
Definition emit_client_hello_for_retry (config : ClientConfig)
    (verify_schemes : list SignatureScheme) (transcript : HandshakeHashBuffer)
    (retryreq : option HelloRetryRequest) (key_share : option ActiveKx)
    (extra_exts : list ClientExtension) (suite : option SupportedCipherSuite)
    (input : ClientHelloInput) : Hs HelloState :=
  exts ← hs_outcome (own_extensions config verify_schemes (in_server_name input) key_share retryreq);
  '(exts, tls13_session) ←
    prepare_resumption config (in_resuming input) (exts ++ extra_exts) suite;
  exts ← hs_lift (patch_extension config retryreq exts);
  let input := input <| in_sent_extensions := get_type <$> exts |> in
  cx ← hs_get;
  cipher_suites ← hs_outcome (patch_cipher config
    ((cs_suite <$> cipher_suites (cc_provider config)) ++ [CS_TLS_EMPTY_RENEGOTIATION_INFO_SCSV]) cx);
  let chp := {| ch_client_version := PV_TLSv1_2;
                ch_random := in_random input;
                ch_session_id := in_session_id input;
                ch_cipher_suites := cipher_suites;
                ch_compression_methods := [CM_Null];
                ch_extensions := exts |} in
  '(early, chp) ← hs_outcome match tls13_session with
                             | Some v =>
                                 '(ks, chp) ← fill_in_psk_binder v transcript chp;
                                 Done (Some (tv_suite v, ks), chp)
                             | None => Done (None, chp)
                             end;
  payload ← hs_outcome (payload_handshake (mkHandshake HT_ClientHello (HP_ClientHello chp)));
  let ch := mkMessage (if opt_is_some retryreq then PV_TLSv1_2 else PV_TLSv1_0) payload in
  fake_ccs ← (if opt_is_some retryreq then emit_fake_ccs (in_sent_tls13_fake_ccs input)
              else mret (in_sent_tls13_fake_ccs input));
  let transcript := buffer_add_message ch transcript in
  _ ← send_message false ch;
  cx ← hs_get;
  fake_ccs ← match early with
             | Some (suite, ks) =>
                 if ed_is_enabled (cx_early_data cx)
                 then derive_early_traffic_secret config suite ks fake_ccs transcript
                        (random_bytes (in_random input))
                 else mret fake_ccs
             | None => mret fake_ccs
             end;
  let next := {| ex_input := input <| in_sent_tls13_fake_ccs := fake_ccs |>;
                 ex_transcript_buffer := transcript;
                 ex_early_key_schedule := snd <$> early;
                 ex_offered_key_share := key_share;
                 ex_suite := suite |} in
  if supports_version config PV_TLSv1_3 && opt_is_none retryreq
  then mret (ExpectServerHelloOrHelloRetryRequest next extra_exts)
  else mret (ExpectServerHelloOnly next).

(** [start_handshake]. [resuming] is what [find_session] gives: a session of the server that
    has not expired; [kx_hint] what the store remembers of it. *)
Definition start_handshake (config : ClientConfig) (verify_schemes : list SignatureScheme)
    (resuming : option Retrieved) (kx_hint : option NamedGroup)
    (server_name : PkiServerName) (extra_exts : list ClientExtension) : Hs HelloState :=
  let transcript := if has_certs (cc_client_auth_cert_resolver config)
                    then set_client_auth_enabled hash_buffer_new else hash_buffer_new in
  key_share ← (if supports_version config PV_TLSv1_3
               then k ← initial_key_share config kx_hint; mret (Some k) else mret None);
  '(resuming, session_id) ←
    match resuming with
    | Some (mkRetrieved (Tls12Session v) at_) =>
        sid ← (if bool_decide (sc_ticket (t2_common v) = []) then mret (t2_session_id v) else sid_random);
        mret (Some (mkRetrieved (Tls12Session (v <| t2_session_id := sid |>)) at_), Some sid)
    | _ => mret (resuming, None)
    end;
  session_id ← match session_id with
               | Some sid => mret sid
               | None => if negb (supports_version config PV_TLSv1_3) then mret sid_empty
                         else sid_random
               end;
  random ← random_new;
  emit_client_hello_for_retry config verify_schemes transcript None key_share extra_exts None
    {| in_resuming := resuming; in_random := random; in_sent_tls13_fake_ccs := false;
       in_sent_extensions := []; in_session_id := session_id; in_server_name := server_name |}.

(** ** Answers to a hello *)

(** [handle_hello_retry_request]. *)
Definition handle_hello_retry_request (config : ClientConfig)
    (verify_schemes : list SignatureScheme) (next : ExpectServerHello)
    (extra_exts : list ClientExtension) (m : Message) (hrr : HelloRetryRequest) : Hs HelloState :=
  let bad m := HE_Misbehaved m in
  _ ← check_aligned_handshake;
  let cookie := get_cookie hrr in
  let req_group := get_requested_key_share_group hrr in
  match ex_offered_key_share next with
  | None => λ _, Panic
  | Some offered =>
      _ ← refuse_if (opt_is_none cookie && bool_decide (req_group = Some (ak_group offered)))
            AL_IllegalParameter (bad IllegalHelloRetryRequestWithOfferedGroup);
      _ ← refuse_if (is_some_and cookie (λ c, bool_decide (p16_bytes c = [])))
            AL_IllegalParameter (bad IllegalHelloRetryRequestWithEmptyCookie);
      _ ← refuse_if (hrr_has_unknown_extension hrr) AL_UnsupportedExtension
            (HE_Incompatible ServerSentHelloRetryRequestWithUnknownExtension);
      _ ← refuse_if (hrr_has_duplicate_extension hrr)
            AL_IllegalParameter (bad DuplicateHelloRetryRequestExtensions);
      _ ← refuse_if (opt_is_none cookie && opt_is_none req_group)
            AL_IllegalParameter (bad IllegalHelloRetryRequestWithNoChanges);
      _ ← refuse_if (negb (sid_eqb (hrr_session_id hrr) (in_session_id (ex_input next))))
            AL_IllegalParameter (bad IllegalHelloRetryRequestWithWrongSessionId);
      _ ← refuse_if (negb (bool_decide (hrr_get_supported_versions hrr = Some PV_TLSv1_3)))
            AL_IllegalParameter (bad IllegalHelloRetryRequestWithUnsupportedVersion);
      _ ← hs_modify (λ cx, cx <| cx_negotiated_version := Some PV_TLSv1_3 |>);
      match find_cipher_suite config (hrr_cipher_suite hrr) with
      | None => misbehaved AL_IllegalParameter IllegalHelloRetryRequestWithUnofferedCipherSuite
      | Some cs =>
          _ ← hs_modify (λ cx, cx <| cx_suite := Some cs |>);
          let transcript := start_hash (cs_hash cs) (ex_transcript_buffer next) in
          let transcript := buffer_add_message m (into_hrr_buffer transcript) in
          _ ← hs_modify (λ cx,
                if ed_is_enabled (cx_early_data cx)
                then cx <| cx_early_data := (cx_early_data cx) <| ed_state := ED_Rejected |> |>
                else cx);
          key_share ← match req_group with
                      | Some group =>
                          if bool_decide (group = ak_group offered) then mret offered
                          else match find_kx_group config group with
                               | Some g => start_kx g
                               | None =>
                                   misbehaved AL_IllegalParameter
                                     IllegalHelloRetryRequestWithUnofferedNamedGroup
                               end
                      | None => mret offered
                      end;
          emit_client_hello_for_retry config verify_schemes transcript (Some hrr) (Some key_share)
            extra_exts (Some cs) (ex_input next)
      end
  end.

(** [process_alpn_protocol]. *)
Definition process_alpn_protocol (config : ClientConfig) (proto : option (list Z)) : Hs () :=
  _ ← hs_modify (λ cx, cx <| cx_alpn_protocol := proto |>);
  refuse_if (is_some_and proto (λ p, negb (bool_decide (p ∈ cc_alpn_protocols config))))
    AL_IllegalParameter (HE_Misbehaved SelectedUnofferedApplicationProtocol).

(** [server_sent_unsolicited_extensions]. *)
Definition server_sent_unsolicited_extensions (sent : list ExtensionType)
    (received : list ServerExtension) (allowed : list ExtensionType) : bool :=
  existsb (λ e, negb (bool_decide (se_get_type e ∈ sent)) &&
                negb (bool_decide (se_get_type e ∈ allowed))) received.

Definition ALLOWED_PLAINTEXT_EXTS : list ExtensionType :=
  [ET_KeyShare; ET_PreSharedKey; ET_SupportedVersions].

(** [validate_server_hello]. *)
Definition validate_server_hello (h : ServerHelloPayload) : Hs () :=
  refuse_if (negb (forallb (λ e, bool_decide (se_get_type e ∈ ALLOWED_PLAINTEXT_EXTS)) (sh_extensions h)))
    AL_UnsupportedExtension (HE_Misbehaved UnexpectedCleartextExtension).

(** The key exchange that answers the share of the server: an alternative of its group, or
    else rustls' own. *)
Definition choose_key_share (our_key_share : ActiveKx) (group : NamedGroup) : Hs ActiveKx :=
  hs_lift (λ cx,
    match find_key_share (cx_craft cx) group with
    | (Some k, d) => Done (k, cx <| cx_craft := d |>)
    | (None, _) => Done (our_key_share, cx)
    end).

(** The schedule that the answer of the server selects: that of the session, of which the
    hello contained a binder, or a new one; and the session that is resumed. *)
Definition select_schedule (h : ServerHelloPayload) (suite : SupportedCipherSuite)
    (resuming : option Tls13ClientSessionValue) (early : option KeySchedule)
    : Hs (KeySchedule * option Tls13ClientSessionValue) :=
  match get_psk_index h, early with
  | Some selected_psk, Some early =>
      match resuming with
      | None => hs_err (HE_Misbehaved SelectedUnofferedPsk)
      | Some v =>
          _ ← refuse_if (negb (can_resume_from suite (tv_suite v)))
                AL_IllegalParameter (HE_Misbehaved ResumptionOfferedWithIncompatibleCipherSuite);
          cx ← hs_get;
          _ ← refuse_if (ed_is_enabled (cx_early_data cx) && bool_decide (tv_suite v ≠ suite))
                AL_IllegalParameter (HE_Misbehaved EarlyDataOfferedWithVariedCipherSuite);
          _ ← refuse_if (negb (selected_psk =? 0))
                AL_IllegalParameter (HE_Misbehaved SelectedInvalidPsk);
          mret (early, resuming)
      end
  | _, _ =>
      _ ← hs_modify (λ cx, cx <| cx_early_data := (cx_early_data cx) <| ed_state := ED_Rejected |> |>
                              <| cx_early_traffic := false |>);
      mret (pre_handshake_new suite, None)
  end.

(** [tls13::handle_server_hello]. *)
Definition tls13_handle_server_hello (config : ClientConfig) (h : ServerHelloPayload)
    (resuming : option Tls13ClientSessionValue) (server_name : PkiServerName)
    (client_random : list Z) (suite : SupportedCipherSuite) (transcript : HandshakeHash)
    (early : option KeySchedule) (sent_extensions : list ExtensionType)
    (our_key_share : ActiveKx) (sent_fake_ccs : bool) : Hs ExpectEncryptedExtensions :=
  _ ← validate_server_hello h;
  match get_key_share h with
  | None => misbehaved AL_MissingExtension MissingKeyShare
  | Some theirs =>
      ours ← choose_key_share our_key_share (ks_group theirs);
      _ ← refuse_if (negb (bool_decide (ak_group ours = ks_group theirs)))
            AL_IllegalParameter (HE_Misbehaved WrongGroupForKeyShare);
      '(pre, resuming) ← select_schedule h suite resuming early;
      ks ← pre_into_handshake pre ours (p16_bytes (ks_payload theirs));
      _ ← store_op (SO_SetKxHint server_name (ks_group theirs));
      _ ← check_aligned_handshake;
      cx ← hs_get;
      ks ← derive_client_handshake_secrets ks (ed_is_enabled (cx_early_data cx))
             (get_current_hash transcript) suite (cc_key_log config) client_random;
      _ ← emit_fake_ccs sent_fake_ccs;
      mret {| ee_resuming_session := resuming;
              ee_server_name := server_name;
              ee_client_random := client_random;
              ee_suite := suite;
              ee_transcript := transcript;
              ee_key_schedule := ks;
              ee_sent_extensions := sent_extensions |}
  end.

(** What a server hello leads to. For TLS 1.2 the session that is resumed goes to the part
    that is not modelled. *)
Inductive AfterServerHello :=
  | AfterTls13 (next : ExpectEncryptedExtensions)
  | AfterTls12 (resuming : option Tls12ClientSessionValue).

(** [ExpectServerHello::handle]. *)
Definition handle_server_hello (config : ClientConfig) (ex : ExpectServerHello) (m : Message)
    (h : ServerHelloPayload) : Hs AfterServerHello :=
  let input := ex_input ex in
  let server_version :=
    if bool_decide (sh_legacy_version h = PV_TLSv1_2)
    then default (sh_legacy_version h) (sh_get_supported_versions h)
    else sh_legacy_version h in
  cx ← hs_get;
  version ←
    (if bool_decide (server_version = PV_TLSv1_3) && supports_version config PV_TLSv1_3
     then mret PV_TLSv1_3
     else if bool_decide (server_version = PV_TLSv1_2) && supports_version config PV_TLSv1_2 then
       if ed_is_enabled (cx_early_data cx) && cx_early_traffic cx
       then hs_err (HE_Misbehaved OfferedEarlyDataWithOldProtocolVersion)
       else
         _ ← refuse_if (opt_is_some (sh_get_supported_versions h)) AL_IllegalParameter
               (HE_Misbehaved SelectedTls12UsingTls13VersionExtension);
         mret PV_TLSv1_2
     else fatal AL_ProtocolVersion (HE_Incompatible
            (if bool_decide (server_version ∈ [PV_TLSv1_2; PV_TLSv1_3])
             then ServerTlsVersionIsDisabledByOurConfig else ServerDoesNotSupportTls12Or13)));
  _ ← refuse_if (negb (bool_decide (sh_compression_method h = CM_Null)))
        AL_IllegalParameter (HE_Misbehaved SelectedUnofferedCompression);
  _ ← refuse_if (sh_has_duplicate_extension h)
        AL_DecodeError (HE_Misbehaved DuplicateServerHelloExtensions);
  _ ← refuse_if (server_sent_unsolicited_extensions (in_sent_extensions input) (sh_extensions h)
                   [ET_RenegotiationInfo])
        AL_UnsupportedExtension (HE_Misbehaved UnsolicitedServerHelloExtension);
  _ ← hs_modify (λ cx, cx <| cx_negotiated_version := Some version |>);
  _ ← (if bool_decide (version = PV_TLSv1_3) then mret tt
       else process_alpn_protocol config (sh_get_alpn_protocol h));
  _ ← refuse_if (is_some_and (sh_get_ecpoints_extension h)
                   (λ fmts, negb (bool_decide (EP_Uncompressed ∈ fmts))))
        AL_HandshakeFailure (HE_Misbehaved ServerHelloMustOfferUncompressedEcPoints);
  match find_cipher_suite config (sh_cipher_suite h) with
  | None => misbehaved AL_HandshakeFailure SelectedUnofferedCipherSuite
  | Some suite =>
      _ ← refuse_if (negb (bool_decide (version = cs_version suite)))
            AL_IllegalParameter (HE_Misbehaved SelectedUnusableCipherSuiteForVersion);
      _ ← refuse_if (is_some_and (ex_suite ex) (λ prev, negb (bool_decide (prev = suite))))
            AL_IllegalParameter (HE_Misbehaved SelectedDifferentCipherSuiteAfterRetry);
      _ ← hs_modify (λ cx, cx <| cx_suite := Some suite |>);
      let transcript := add_message m (start_hash (cs_hash suite) (ex_transcript_buffer ex)) in
      let resuming := rt_value <$> in_resuming input in
      if bool_decide (cs_version suite = PV_TLSv1_3) then
        match ex_offered_key_share ex with
        | None => λ _, Panic
        | Some ours =>
            AfterTls13 <$> tls13_handle_server_hello config h
              match resuming with Some (Tls13Session v) => Some v | _ => None end
              (in_server_name input) (random_bytes (in_random input)) suite transcript
              (ex_early_key_schedule ex) (in_sent_extensions input) ours
              (in_sent_tls13_fake_ccs input)
        end
      else mret (AfterTls12 match resuming with Some (Tls12Session v) => Some v | _ => None end)
  end.

(** [State::handle] of the two states: the answer to a hello is a server hello or, once, a
    retry request, after which there is another hello. *)
Definition handle_answer (config : ClientConfig) (verify_schemes : list SignatureScheme)
    (s : HelloState) (m : Message) : Hs (HelloState + AfterServerHello) :=
  match s, m_payload m with
  | ExpectServerHelloOrHelloRetryRequest next _, MP_Handshake (mkHandshake _ (HP_ServerHello h)) _
  | ExpectServerHelloOnly next, MP_Handshake (mkHandshake _ (HP_ServerHello h)) _ =>
      inr <$> handle_server_hello config next m h
  | ExpectServerHelloOrHelloRetryRequest next extra, MP_Handshake (mkHandshake _ (HP_HelloRetryRequest hrr)) _ =>
      inl <$> handle_hello_retry_request config verify_schemes next extra m hrr
  | _, p => hs_err (inappropriate_handshake_message p)
  end.

(** The answers that a server sends one after the other. *)
Fixpoint handle_answers (config : ClientConfig) (verify_schemes : list SignatureScheme)
    (s : HelloState) (answers : list Message) : Hs (HelloState + AfterServerHello) :=
  match answers with
  | [] => mret (inl s)
  | m :: answers =>
      r ← handle_answer config verify_schemes s m;
      match r with
      | inl s => handle_answers config verify_schemes s answers
      | inr a => mret (inr a)
      end
  end.
End Handshake.
