(* ===== verification/TlsClient.v ===== *)
(** * TlsClient: the rest of a handshake, and traffic
    (craftls/rustls/src/client/tls13.rs, client/common.rs, conn.rs, common_state.rs)

    What a client of TLS 1.3 expects after the server hello, state by state, and the loop that
    hands it the messages of the peer. The verifier of servers and the decompression of
    certificates are parameters; so is the time. QUIC is left out. *)

From S2P Require Import Prelude TlsCodec TlsEnums TlsHello TlsMessages TlsRecord TlsSession Craft.
From S2P Require Import TlsContext TlsKeys TlsHandshake.

(** [ServerCertVerifier] (verify.rs) and [CompressionProvider]; times are seconds since the
    epoch. *)
Class ServerVerifier := {
  supported_verify_schemes : list SignatureScheme;
  verify_server_cert :
    CertificateDer → list CertificateDer → PkiServerName → list Z → Z → result HsError ();
  verify_tls13_signature : list Z → CertificateDer → DigitallySignedStruct → result HsError ();
  cert_provider : CertificateCompressionAlgorithm → list Z → option (list Z);
}.

(** [SignatureScheme::supported_in_tls13] (enums.rs). *)
Definition supported_in_tls13 (s : SignatureScheme) : bool :=
  match s with
  | SS_ECDSA_NISTP384_SHA384 | SS_ECDSA_NISTP256_SHA256 | SS_RSA_PSS_SHA512 | SS_RSA_PSS_SHA384
  | SS_RSA_PSS_SHA256 | SS_ED25519 => true
  | _ => false
  end.

(** ** Authentication of the client (client/common.rs) *)

Inductive ClientAuthDetails :=
  | CA_Empty (auth_context_tls13 : option (list Z))
  | CA_Verify (certkey : CertifiedKey) (signer : Signer) (auth_context_tls13 : option (list Z)).

(** [ClientAuthDetails::resolve]. *)
Definition client_auth_resolve (resolver : ResolvesClientCert) (canames : option (list DistinguishedName))
    (sigschemes : list SignatureScheme) (auth_context : option (list Z)) : ClientAuthDetails :=
  let acceptable_issuers := (λ dn, p16_bytes (dn_payload dn)) <$> default [] canames in
  match resolve resolver acceptable_issuers sigschemes with
  | Some certkey =>
      match ck_choose_scheme certkey sigschemes with
      | Some signer => CA_Verify certkey signer auth_context
      | None => CA_Empty auth_context
      end
  | None => CA_Empty auth_context
  end.

(** ** States

    What the states after the encrypted extensions have in common, and each state. *)

Record HandshakeParts := mkParts {
  hp_server_name : PkiServerName;
  hp_client_random : list Z;
  hp_suite : SupportedCipherSuite;
  hp_transcript : HandshakeHash;
  hp_key_schedule : KeyScheduleHandshake;
}.

Record ServerCertDetails := mkServerCert {
  scd_cert_chain : CertificateChain;
  scd_ocsp_response : list Z;
}.

Record ExpectTraffic := mkTraffic {
  et_server_name : PkiServerName;
  et_suite : SupportedCipherSuite;
  et_transcript : HandshakeHash;
  et_key_schedule : KeyScheduleTraffic;
}.

Inductive ClientState :=
  | ST_Hello (s : HelloState)
  | ST_EncryptedExtensions (s : ExpectEncryptedExtensions)
  | ST_CertificateOrCertReq (p : HandshakeParts)
  | ST_Certificate (p : HandshakeParts) (client_auth : option ClientAuthDetails)
  | ST_CertificateVerify (p : HandshakeParts) (server_cert : ServerCertDetails)
      (client_auth : option ClientAuthDetails)
  | ST_Finished (p : HandshakeParts) (client_auth : option ClientAuthDetails)
  | ST_Traffic (s : ExpectTraffic).

Definition hear (m : Message) (p : HandshakeParts) : HandshakeParts :=
  p <| hp_transcript := add_message m (hp_transcript p) |>.

(** The error of a message that is not the one a state expects. *)
Definition inappropriate {A} (m : Message) : Hs A := hs_err (inappropriate_handshake_message (m_payload m)).

Definition modify_rest (f : CommonRest → CommonRest) : Hs () := hs_modify (λ cx, cx <| cx_rest := f (cx_rest cx) |>).
Definition modify_early (f : EarlyDataSt → EarlyDataSt) : Hs () :=
  hs_modify (λ cx, cx <| cx_early_data := f (cx_early_data cx) |>).

(** [EarlyData::rejected], [accepted] and [finished] (client/client_conn.rs). *)
Definition early_rejected : Hs () := modify_early (λ e, e <| ed_state := ED_Rejected |>).
Definition early_accepted : Hs () :=
  cx ← hs_get;
  _ ← hs_assert (match ed_state (cx_early_data cx) with ED_Ready => true | _ => false end);
  modify_early (λ e, e <| ed_state := ED_Accepted |>).
Definition early_finished : Hs () :=
  cx ← hs_get;
  _ ← hs_assert (match ed_state (cx_early_data cx) with ED_Accepted => true | _ => false end);
  modify_early (λ e, e <| ed_state := ED_AcceptedFinished |>).

Section Client.
Context `{TlsCrypto, DnsNames, RingAead, RingHash, ServerVerifier}.

(** ** Encrypted extensions *)

Definition DISALLOWED_TLS13_EXTS : list ExtensionType :=
  [ET_ECPointFormats; ET_SessionTicket; ET_RenegotiationInfo; ET_ExtendedMasterSecret].

(** [HasServerExtensions] of the list itself. *)
Definition exts_find (exts : list ServerExtension) (typ : ExtensionType) : option ServerExtension :=
  List.find (λ e, bool_decide (se_get_type e = typ)) exts.
Definition exts_alpn_protocol (exts : list ServerExtension) : option (list Z) :=
  ext ← exts_find exts ET_ALProtocolNegotiation;
  match ext with SE_Protocols l => as_single_slice l | _ => None end.
Definition exts_early_data_offered (exts : list ServerExtension) : bool :=
  opt_is_some (exts_find exts ET_EarlyData).

Definition validate_encrypted_extensions (sent : list ExtensionType) (exts : list ServerExtension) : Hs () :=
  _ ← refuse_if (has_duplicate [] ((λ e, enum_get (se_get_type e)) <$> exts)) AL_DecodeError
        (HE_Misbehaved DuplicateEncryptedExtensions);
  _ ← refuse_if (server_sent_unsolicited_extensions sent exts []) AL_UnsupportedExtension
        (HE_Misbehaved UnsolicitedEncryptedExtension);
  refuse_if (existsb (λ e, bool_decide (se_get_type e ∈ ALLOWED_PLAINTEXT_EXTS) ||
                           bool_decide (se_get_type e ∈ DISALLOWED_TLS13_EXTS)) exts)
    AL_UnsupportedExtension (HE_Misbehaved DisallowedEncryptedExtension).

Definition handle_encrypted_extensions (config : ClientConfig) (s : ExpectEncryptedExtensions)
    (m : Message) : Hs ClientState :=
  match m_payload m with
  | MP_Handshake (mkHandshake _ (HP_EncryptedExtensions exts)) _ =>
      let p := hear m (mkParts (ee_server_name s) (ee_client_random s) (ee_suite s) (ee_transcript s)
                         (ee_key_schedule s)) in
      _ ← validate_encrypted_extensions (ee_sent_extensions s) exts;
      _ ← process_alpn_protocol config (exts_alpn_protocol exts);
      match ee_resuming_session s with
      | Some resuming =>
          cx ← hs_get;
          let was_early_traffic := cx_early_traffic cx in
          _ ← (if was_early_traffic then
                 if exts_early_data_offered exts then early_accepted
                 else _ ← early_rejected; hs_modify (λ cx, cx <| cx_early_traffic := false |>)
               else mret tt);
          cx ← hs_get;
          _ ← (if was_early_traffic && negb (cx_early_traffic cx)
               then set_handshake_encrypter (hp_key_schedule p) else mret tt);
          _ ← modify_rest (λ r, r <| cr_peer_certificates := Some (sc_server_cert_chain (tv_common resuming)) |>);
          mret (ST_Finished p None)
      | None =>
          if exts_early_data_offered exts then hs_err (HE_Misbehaved EarlyDataExtensionWithoutResumption)
          else mret (ST_CertificateOrCertReq p)
      end
  | _ => inappropriate m
  end.

(** ** Certificates *)

Definition handle_certificate_request (config : ClientConfig) (p : HandshakeParts) (m : Message)
    : Hs ClientState :=
  match m_payload m with
  | MP_Handshake (mkHandshake _ (HP_CertificateRequestTls13 certreq)) _ =>
      let p := hear m p in
      let context := p8_bytes (crq_context certreq) in
      _ ← refuse_if (negb (bool_decide (context = []))) AL_DecodeError
            (HE_InvalidMessage (Invalid InvalidCertRequest));
      let compat_sigschemes :=
        List.filter supported_in_tls13 (default [] (crq_get_sigalgs_extension certreq)) in
      _ ← refuse_if (bool_decide (compat_sigschemes = [])) AL_HandshakeFailure
            (HE_Incompatible NoCertificateRequestSignatureSchemesInCommon);
      let client_auth := client_auth_resolve (cc_client_auth_cert_resolver config)
                           (get_authorities_extension certreq) compat_sigschemes (Some context) in
      mret (ST_Certificate p (Some client_auth))
  | _ => inappropriate m
  end.

(** The chain of a message, decompressed if need be. *)
Definition certificate_of (config : ClientConfig) (m : Message) : Hs CertificatePayloadTls13 :=
  if is_handshake_type m HT_CompressedCertificate then
    match m_payload m with
    | MP_Handshake (mkHandshake _ (HP_CompressedCertificate c)) _ =>
        _ ← modify_rest (λ r, r <| cr_certificate_compression_algorithm := Some (cc_algorithm c) |>);
        if bool_decide (cc_algorithm c ∈ cc_certificate_compression_algorithms config) then
          match decompress (cert_provider (cc_algorithm c)) c with
          | Ok chain => mret chain
          | Err FailedCertificateDecompression => hs_err HE_FailedCertificateDecompression
          | Err (DecompressedInvalid e) => hs_err (HE_InvalidMessage e)
          end
        else hs_err HE_UnknownCertCompressionAlg
    | _ => inappropriate m
    end
  else match m_payload m with
       | MP_Handshake (mkHandshake _ (HP_CertificateTls13 chain)) _ => mret chain
       | _ => inappropriate m
       end.

Definition handle_certificate (config : ClientConfig) (p : HandshakeParts)
    (client_auth : option ClientAuthDetails) (m : Message) : Hs ClientState :=
  let p := hear m p in
  cert_chain ← certificate_of config m;
  _ ← refuse_if (negb (bool_decide (p8_bytes (cp_context cert_chain) = []))) AL_DecodeError
        (HE_InvalidMessage (Invalid InvalidCertRequest));
  _ ← refuse_if (any_entry_has_duplicate_extension cert_chain || any_entry_has_unknown_extension cert_chain)
        AL_UnsupportedExtension (HE_Misbehaved BadCertChainExtensions);
  mret (ST_CertificateVerify p
          (mkServerCert (cert_payload_convert cert_chain) (get_end_entity_ocsp cert_chain)) client_auth).

(** The state [ExpectCertificateRequest] is only passed through. *)
Definition handle_certificate_or_certreq (config : ClientConfig) (p : HandshakeParts) (m : Message)
    : Hs ClientState :=
  match m_payload m with
  | MP_Handshake (mkHandshake _ (HP_CertificateTls13 _)) _
  | MP_Handshake (mkHandshake _ (HP_CompressedCertificate _)) _ => handle_certificate config p None m
  | MP_Handshake (mkHandshake _ (HP_CertificateRequestTls13 _)) _ => handle_certificate_request config p m
  | _ => inappropriate m
  end.

(** [send_cert_verify_error_alert]. *)
Definition cert_verify_error {A} (e : HsError) : Hs A :=
  fatal match e with
        | HE_InvalidCertificate e => alert_of_certificate_error e
        | HE_Misbehaved _ => AL_IllegalParameter
        | _ => AL_HandshakeFailure
        end e.

Definition verified (r : result HsError ()) : Hs () :=
  match r with Ok _ => mret tt | Err e => cert_verify_error e end.

Definition handle_certificate_verify (p : HandshakeParts) (server_cert : ServerCertDetails)
    (client_auth : option ClientAuthDetails) (now : Z) (m : Message) : Hs ClientState :=
  match m_payload m with
  | MP_Handshake (mkHandshake _ (HP_CertificateVerify cert_verify)) _ =>
      match chain_certs (scd_cert_chain server_cert) with
      | [] => hs_err HE_NoCertificatesPresented
      | end_entity :: intermediates =>
          _ ← verified (verify_server_cert end_entity intermediates (hp_server_name p)
                          (scd_ocsp_response server_cert) now);
          let handshake_hash := get_current_hash (hp_transcript p) in
          _ ← verified (verify_tls13_signature (construct_server_verify_message handshake_hash) end_entity
                          cert_verify);
          _ ← modify_rest (λ r, r <| cr_peer_certificates := Some (scd_cert_chain server_cert) |>);
          mret (ST_Finished (hear m p) client_auth)
      end
  | _ => inappropriate m
  end.

(** ** The flight of the client *)

(** A message that is sent with protection, and goes into the transcript. *)
Definition emit_protected (hm : HandshakeMessagePayload) (transcript : HandshakeHash) : Hs HandshakeHash :=
  payload ← hs_outcome (payload_handshake hm);
  let m := mkMessage PV_TLSv1_3 payload in
  _ ← send_message true m;
  mret (add_message m transcript).

Definition emit_certificate_tls13 (transcript : HandshakeHash) (certkey : option CertifiedKey)
    (auth_context : option (list Z)) : Hs HandshakeHash :=
  let entries := match certkey with Some k => cert_entry_new <$> ck_cert k | None => [] end in
  emit_protected (mkHandshake HT_Certificate
    (HP_CertificateTls13 (mkCertPayload (mkPayloadU8 (default [] auth_context)) entries))) transcript.

Definition emit_certverify_tls13 (transcript : HandshakeHash) (signer : Signer) : Hs HandshakeHash :=
  let message := construct_client_verify_message (get_current_hash transcript) in
  match signer_sign signer message with
  | None => hs_err (HE_General "signing failed")
  | Some sig =>
      emit_protected (mkHandshake HT_CertificateVerify
        (HP_CertificateVerify (mkDss (signer_scheme signer) (mkPayloadU16 sig)))) transcript
  end.

Definition emit_finished_tls13 (transcript : HandshakeHash) (verify_data : list Z) : Hs HandshakeHash :=
  emit_protected (mkHandshake HT_Finished (HP_Finished (mkPayload verify_data))) transcript.

Definition emit_end_of_early_data_tls13 (transcript : HandshakeHash) : Hs HandshakeHash :=
  emit_protected (mkHandshake HT_EndOfEarlyData HP_EndOfEarlyData) transcript.

(** The messages of a client that was asked to authenticate itself. *)
Definition emit_client_auth (client_auth : option ClientAuthDetails) (transcript : HandshakeHash)
    : Hs HandshakeHash :=
  match client_auth with
  | None => mret transcript
  | Some (CA_Empty context) => emit_certificate_tls13 transcript None context
  | Some (CA_Verify certkey signer context) =>
      cx ← hs_get;
      _ ← hs_assert (opt_is_none (cr_certificate_compression_algorithm (cx_rest cx)));
      transcript ← emit_certificate_tls13 transcript (Some certkey) context;
      emit_certverify_tls13 transcript signer
  end.

Definition handle_finished (config : ClientConfig) (p : HandshakeParts)
    (client_auth : option ClientAuthDetails) (m : Message) : Hs ClientState :=
  match m_payload m with
  | MP_Handshake (mkHandshake _ (HP_Finished finished)) _ =>
      let handshake_hash := get_current_hash (hp_transcript p) in
      expect_verify_data ← hs_outcome (sign_server_finish (hp_key_schedule p) handshake_hash);
      _ ← refuse_if (negb (bool_decide (expect_verify_data = payload_bytes finished)))
            AL_DecryptError HE_DecryptError;
      let transcript := add_message m (hp_transcript p) in
      let hash_after_handshake := get_current_hash transcript in
      cx ← hs_get;
      transcript ←
        (if cx_early_traffic cx then
           transcript ← emit_end_of_early_data_tls13 transcript;
           _ ← hs_modify (λ cx, cx <| cx_early_traffic := false |>);
           _ ← early_finished;
           _ ← set_handshake_encrypter (hp_key_schedule p);
           mret transcript
         else mret transcript);
      transcript ← emit_client_auth client_auth transcript;
      '(pre_finished, verify_data) ← into_pre_finished_client_traffic (hp_key_schedule p)
        hash_after_handshake (get_current_hash transcript) (cc_key_log config) (hp_client_random p);
      transcript ← emit_finished_tls13 transcript verify_data;
      _ ← store_op (SO_RemoveTls12 (hp_server_name p));
      _ ← check_aligned_handshake;
      key_schedule_traffic ← client_into_traffic pre_finished;
      _ ← modify_rest (λ r, r <| cr_may_receive_application_data := true |>);
      _ ← wire EV_StartTraffic;
      mret (ST_Traffic (mkTraffic (hp_server_name p) (hp_suite p) transcript key_schedule_traffic))
  | _ => inappropriate m
  end.

(** ** Traffic *)

Definition handle_new_ticket_tls13 (s : ExpectTraffic) (now : Z) (nst : NewSessionTicketPayloadTls13) : Hs () :=
  _ ← refuse_if (nst13_has_duplicate_extension nst) AL_IllegalParameter
        (HE_Misbehaved DuplicateNewSessionTicketExtensions);
  let handshake_hash := get_current_hash (et_transcript s) in
  secret ← hs_outcome (resumption_ticket_psk (et_key_schedule s) handshake_hash (p8_bytes (nst13_nonce nst)));
  cx ← hs_get;
  let value := tls13_session_new (et_suite s) (p16_bytes (nst13_ticket nst)) secret
                 (default (mkChain []) (cr_peer_certificates (cx_rest cx))) now (nst13_lifetime nst)
                 (nst13_age_add nst) (default 0 (get_max_early_data_size nst)) in
  store_op (SO_InsertTls13 (et_server_name s) value).

(** [should_update_key] (common_state.rs). *)
Definition should_update_key (k : KeyUpdateRequest) : Hs bool :=
  match k with
  | KU_UpdateNotRequested => mret false
  | KU_UpdateRequested => cx ← hs_get; mret (negb (cr_key_update_queued (cx_rest cx)))
  | _ => fatal AL_IllegalParameter (HE_InvalidMessage (Invalid InvalidKeyUpdate))
  end.

Definition handle_key_update (s : ExpectTraffic) (k : KeyUpdateRequest) : Hs ExpectTraffic :=
  _ ← check_aligned_handshake;
  update ← should_update_key k;
  ks ← (if update : bool then update_encrypter_and_notify (et_key_schedule s) Client
        else mret (et_key_schedule s));
  ks ← update_decrypter ks Client;
  mret (s <| et_key_schedule := ks |>).

Definition handle_traffic (s : ExpectTraffic) (now : Z) (m : Message) : Hs ClientState :=
  match m_payload m with
  | MP_ApplicationData payload =>
      _ ← modify_rest (λ r, r <| cr_received_plaintext := cv_append payload (cr_received_plaintext r) |>);
      mret (ST_Traffic s)
  | MP_Handshake (mkHandshake _ (HP_NewSessionTicketTls13 t)) _ =>
      _ ← handle_new_ticket_tls13 s now t; mret (ST_Traffic s)
  | MP_Handshake (mkHandshake _ (HP_KeyUpdate k)) _ => ST_Traffic <$> handle_key_update s k
  | _ => inappropriate m
  end.

(** ** Messages *)

(** [State::handle]. A connection that turns to TLS 1.2 leaves the model, with the session of
    which it has offered the ticket. *)
Definition state_handle (config : ClientConfig) (now : Z) (st : ClientState) (m : Message)
    : Hs (ClientState + option Tls12ClientSessionValue) :=
  match st with
  | ST_Hello s =>
      r ← handle_answer config supported_verify_schemes s m;
      mret match r with
           | inl s => inl (ST_Hello s)
           | inr (AfterTls13 s) => inl (ST_EncryptedExtensions s)
           | inr (AfterTls12 v) => inr v
           end
  | ST_EncryptedExtensions s => inl <$> handle_encrypted_extensions config s m
  | ST_CertificateOrCertReq p => inl <$> handle_certificate_or_certreq config p m
  | ST_Certificate p auth => inl <$> handle_certificate config p auth m
  | ST_CertificateVerify p cert auth => inl <$> handle_certificate_verify p cert auth now m
  | ST_Finished p auth => inl <$> handle_finished config p auth m
  | ST_Traffic s => inl <$> handle_traffic s now m
  end.

Definition is_tls13 (cx : Context) : bool := bool_decide (cx_negotiated_version cx = Some PV_TLSv1_3).

(** [process_main_protocol], of a client. *)
Definition process_main_protocol (config : ClientConfig) (now : Z) (st : ClientState) (m : Message)
    : Hs (ClientState + option Tls12ClientSessionValue) := λ cx,
  if cr_may_receive_application_data (cx_rest cx) && negb (is_tls13 cx) && is_handshake_type m HT_HelloRequest
  then Done (Ok (inl st), wire_event (EV_WarningAlert AL_NoRenegotiation) cx)
  else match state_handle config now st m cx with
       | Done (Err e, cx) =>
           match e with
           | HE_InappropriateMessage | HE_InappropriateHandshakeMessage => fatal AL_UnexpectedMessage e cx
           | _ => Done (Err e, cx)
           end
       | r => r
       end.

(** [process_alert] (common_state.rs). *)
Definition process_alert (a : AlertMessagePayload) : Hs () :=
  let err := HE_AlertReceived (al_description a) in
  match al_level a with
  | LV_Unknown _ => fatal AL_IllegalParameter err
  | _ =>
      if bool_decide (al_description a = AL_CloseNotify) then
        modify_rest (λ r, r <| cr_has_received_close_notify := true |>)
      else if bool_decide (al_level a = LV_Warning) then
        cx ← hs_get;
        if is_tls13 cx && negb (bool_decide (al_description a = AL_UserCanceled))
        then fatal AL_DecodeError err else mret tt
      else hs_err err
  end.

Definition TLS13_MAX_DROPPED_CCS : Z := 2.

Definition is_valid_ccs (m : PlainMessage) : bool :=
  bool_decide (pm_typ m = CO_ChangeCipherSpec) && bool_decide (pm_payload m = [1]).

(** [process_msg]. The count is below 256: it goes up to 3. *)
Definition process_msg (config : ClientConfig) (now : Z) (st : ClientState) (m : PlainMessage)
    : Hs (ClientState + option Tls12ClientSessionValue) :=
  cx ← hs_get;
  let r := cx_rest cx in
  if bool_decide (pm_typ m = CO_ChangeCipherSpec) && negb (cr_may_receive_application_data r) && is_tls13 cx
  then
    if negb (is_valid_ccs m) || (TLS13_MAX_DROPPED_CCS <? cr_received_middlebox_ccs r)
    then misbehaved AL_UnexpectedMessage IllegalMiddleboxChangeCipherSpec
    else
      _ ← modify_rest (λ r, r <| cr_received_middlebox_ccs := cr_received_middlebox_ccs r + 1 |>);
      mret (inl st)
  else
    match message_of_plain m with
    | Err e => fatal AL_DecodeError (HE_InvalidMessage e)
    | Ok m =>
        match m_payload m with
        | MP_Alert a => _ ← process_alert a; mret (inl st)
        | _ => process_main_protocol config now st m
        end
    end.

(** ** Connections *)

(** What [deframe] gets from the deframer: a message, and whether it ends with its record, or
    an error. *)
Inductive FromDeframer :=
  | DF_Message (aligned : bool) (m : PlainMessage)
  | DF_Error (e : HsError).

Inductive Connection :=
  | CN_Live (st : ClientState)
  | CN_Failed (e : HsError)
  | CN_Tls12 (resuming : option Tls12ClientSessionValue) (later : list FromDeframer).

(** The errors of the deframer for which there is an alert. *)
Definition deframer_error (e : HsError) : Hs () :=
  match e with
  | HE_InvalidMessage _ => fatal AL_DecodeError e
  | HE_PeerSentOversizedRecord => fatal AL_RecordOverflow e
  | HE_DecryptError => fatal AL_BadRecordMac e
  | _ => hs_err e
  end.

(** The loop of [process_new_packets]. When the deframer fails, the state stays what it was
    replaced with: [HandshakeNotComplete]. *)
Fixpoint process_packets (config : ClientConfig) (now : Z) (st : ClientState) (input : list FromDeframer)
    (cx : Context) : outcome (Connection * result HsError () * Context) :=
  match input with
  | [] => Done (CN_Live st, Ok tt, cx)
  | DF_Error e :: _ =>
      '(r, cx) ← deframer_error e cx; Done (CN_Failed HE_HandshakeNotComplete, r, cx)
  | DF_Message aligned m :: input =>
      '(r, cx) ← process_msg config now st m (cx <| cx_aligned_handshake := aligned |>);
      match r with
      | Ok (inl st) => process_packets config now st input cx
      | Ok (inr v) => Done (CN_Tls12 v input, Ok tt, cx)
      | Err e => Done (CN_Failed e, Err e, cx)
      end
  end.

(** [process_new_packets]; the result is the error that the caller gets. *)
Definition process_new_packets (config : ClientConfig) (now : Z) (c : Connection) (input : list FromDeframer)
    (cx : Context) : outcome (Connection * result HsError () * Context) :=
  match c with
  | CN_Live st => process_packets config now st input cx
  | CN_Failed e => Done (c, Err e, cx)
  | CN_Tls12 v later => Done (CN_Tls12 v (later ++ input), Ok tt, cx)
  end.

(** What the caller does, one call after the other, each with the time and with what has come
    in; the errors that it gets. *)
Fixpoint process_calls (config : ClientConfig) (c : Connection) (calls : list (Z * list FromDeframer))
    (cx : Context) : outcome (Connection * list (result HsError ()) * Context) :=
  match calls with
  | [] => Done (c, [], cx)
  | (now, input) :: calls =>
      '(c, r, cx) ← process_new_packets config now c input cx;
      '(c, rs, cx) ← process_calls config c calls cx;
      Done (c, r :: rs, cx)
  end.

(** [ConnectionCore::for_client]: a new connection, with what the store gives of the server. *)
Definition for_client `{SessionKeys} (config : ClientConfig) (server : PkiServerName)
    (extra_exts : list ClientExtension) (now : Z) (store : ClientSessionMemoryCache)
    : Hs (ClientState * ClientSessionMemoryCache) :=
  let '(found, store) := find_session server now store in
  s ← start_handshake config supported_verify_schemes found (kx_hint server store) server extra_exts;
  mret (ST_Hello s, store).
End Client.
