(* ===== verification/TlsDeframer.v ===== *)
(** * TlsDeframer: messages out of a stream of bytes (craftls/rustls/src/msgs/deframer.rs)

    Bytes come in pieces into one buffer. Records are taken from it, decrypted if need be, and
    the payloads of handshake records are joined in the front of the same buffer, over the
    records that they were in. What QUIC pushes is left out; assertions of debug builds are,
    too. *)

From S2P Require Import Prelude TlsCodec TlsEnums TlsHello TlsMessages TlsRecord TlsSession Craft.
From S2P Require Import TlsContext TlsKeys TlsHandshake TlsClient.

Definition HEADER_SIZE : nat := 1 + 3.
Definition MAX_HANDSHAKE_SIZE : Z := 0xffff.
Definition READ_SIZE : nat := 4096.
Definition MAX_WIRE_SIZE : Z := MAX_PAYLOAD + 5.

(** Ranges of a buffer: out of its bounds they panic. *)
Definition slice (a b : nat) (l : list Z) : outcome (list Z) :=
  if (a <=? b)%nat && (b <=? length l)%nat then Done (firstn (b - a) (skipn a l)) else Panic.
Definition overwrite (i : nat) (bytes l : list Z) : outcome (list Z) :=
  if (i + length bytes <=? length l)%nat
  then Done (firstn i l ++ bytes ++ skipn (i + length bytes) l) else Panic.

(** [HandshakePayloadMeta]: the range of the message starts at 0. *)
Record HandshakePayloadMeta := mkMeta {
  mt_message_end : nat;
  mt_payload_start : nat;
  mt_payload_end : nat;
  mt_version : ProtocolVersion;
  mt_expected_len : option nat;
}.

Record MessageDeframer := mkDeframer {
  df_last_error : option HsError;
  df_buf : list Z;
  df_joining_hs : option HandshakePayloadMeta;
  df_used : nat;
}.

Definition deframer_new : MessageDeframer := mkDeframer None [] None 0.

Record Deframed := mkDeframed {
  dd_want_close_before_decrypt : bool;
  dd_aligned : bool;
  dd_trial_decryption_finished : bool;
  dd_message : PlainMessage;
}.

Inductive HandshakePayloadState := HS_Blocked | HS_Complete (len : nat) | HS_Continue.

Definition payload_size (buf : list Z) : result HsError (option nat) :=
  if (length buf <? HEADER_SIZE)%nat then Ok None
  else match u24_read (skipn 1 (firstn HEADER_SIZE buf)) with
       | Ok (len, _) =>
           if MAX_HANDSHAKE_SIZE <? len then Err (HE_InvalidMessage (Invalid HandshakePayloadTooLarge))
           else Ok (Some (HEADER_SIZE + Z.to_nat len)%nat)
       | Err _ => Ok None
       end.

Definition payload_len (m : HandshakePayloadMeta) : nat := mt_payload_end m - mt_payload_start m.

(** The length of a message that is there in full. *)
Definition joined_len (m : HandshakePayloadMeta) : option nat :=
  match mt_expected_len m with
  | Some len => if (len <=? payload_len m)%nat then Some len else None
  | None => None
  end.

Definition set_err {A} (e : HsError) (d : MessageDeframer) : result HsError A * MessageDeframer :=
  (Err e, d <| df_last_error := Some e |>).

Definition discard (taken : nat) (d : MessageDeframer) : outcome MessageDeframer :=
  if (taken <? df_used d)%nat then
    pending ← slice taken (df_used d) (df_buf d);
    buf ← overwrite 0 pending (df_buf d);
    Done (d <| df_buf := buf |> <| df_used := (df_used d - taken)%nat |>)
  else if (taken =? df_used d)%nat then Done (d <| df_used := 0%nat |>)
  else Done d.

Definition hs_state (used : nat) (m : HandshakePayloadMeta) : HandshakePayloadState :=
  match joined_len m with
  | Some len => HS_Complete len
  | None => if (mt_message_end m <? used)%nat then HS_Continue else HS_Blocked
  end.

Definition append_hs (version : ProtocolVersion) (payload : list Z) (end_ : nat) (d : MessageDeframer)
    : outcome (result HsError HandshakePayloadState * MessageDeframer) :=
  match df_joining_hs d with
  | Some m =>
      buf ← overwrite (mt_payload_end m) payload (df_buf d);
      let m := m <| mt_message_end := end_ |>
                 <| mt_payload_end := (mt_payload_end m + length payload)%nat |> in
      let d := d <| df_buf := buf |> <| df_joining_hs := Some m |> in
      match mt_expected_len m with
      | Some _ => Done (Ok (hs_state (df_used d) m), d)
      | None =>
          joined ← slice (mt_payload_start m) (mt_payload_end m) buf;
          match payload_size joined with
          | Err e => Done (Err e, d)
          | Ok len =>
              let m := m <| mt_expected_len := len |> in
              Done (Ok (hs_state (df_used d) m), d <| df_joining_hs := Some m |>)
          end
      end
  | None =>
      match payload_size payload with
      | Err e => Done (Err e, d)
      | Ok len =>
          buf ← overwrite 0 payload (df_buf d);
          let m := mkMeta end_ 0 (length payload) version len in
          Done (Ok (hs_state (df_used d) m), d <| df_buf := buf |> <| df_joining_hs := Some m |>)
      end
  end.

(** What the loop of [pop] ends with: nothing yet, a message, or a joined handshake message of
    a length. *)
Inductive Popped := PP_None | PP_Message (m : Deframed) | PP_Joined (len : nat).

(** The error of a record that cannot be read, unless it is only not there in full. *)
Definition record_error (e : MessageError) : option InvalidMessage :=
  match e with
  | ME_TooShortForHeader | ME_TooShortForLength => None
  | ME_InvalidEmptyPayload => Some InvalidEmptyPayload
  | ME_MessageTooLarge => Some MessageTooLarge
  | ME_InvalidContentType => Some InvalidContentType
  | ME_UnknownProtocolVersion => Some UnknownProtocolVersion
  end.

Definition decrypt_error (e : RecordError) : HsError :=
  match e with
  | RE_DecryptError => HE_DecryptError
  | RE_PeerSentOversizedRecord => HE_PeerSentOversizedRecord
  | RE_IllegalTlsInnerPlaintext => HE_Misbehaved IllegalTlsInnerPlaintext
  | RE_EncryptError => HE_General "encrypt"
  end.

Definition allowed_plaintext (m : OpaqueMessage) (l : RecordLayer) (negotiated : option ProtocolVersion)
    : bool :=
  match om_typ m with
  | CO_ChangeCipherSpec => true
  | CO_Alert =>
      bool_decide (negotiated = Some PV_TLSv1_3) && negb (rl_has_decrypted l) && (length (om_payload m) <=? 2)%nat
  | _ => false
  end.

(** A message that needs no joining. *)
Definition alone (m : PlainMessage) : Deframed := mkDeframed false true false m.

Definition unread_start (d : MessageDeframer) : nat :=
  match df_joining_hs d with Some m => mt_message_end m | None => 0%nat end.

Section Deframing.
Context `{RingAead}.

(** The loop of [pop]; each turn takes a record, so that the unread bytes are fuel enough. *)
Fixpoint pop_loop (fuel : nat) (negotiated : option ProtocolVersion) (l : RecordLayer) (d : MessageDeframer)
    : option (outcome (result HsError Popped * RecordLayer * MessageDeframer)) :=
  match fuel with
  | O => None
  | S fuel =>
      let stop (r : result HsError Popped * MessageDeframer) l := Some (Done (fst r, l, snd r)) in
      let joining := opt_is_some (df_joining_hs d) in
      match df_joining_hs d ≫= joined_len with
      | Some len => stop (Ok (PP_Joined len), d) l
      | None =>
          let start := unread_start d in
          match slice start (df_used d) (df_buf d) with
          | Panic => Some Panic
          | Done unread =>
              match opaque_read unread with
              | Err e =>
                  match record_error e with
                  | None => stop (Ok PP_None, d) l
                  | Some e => stop (set_err (HE_InvalidMessage (Invalid e)) d) l
                  end
              | Ok (m, rest) =>
                  let end_ := (start + (length unread - length rest))%nat in
                  if negb joining && allowed_plaintext m l negotiated then
                    Some (d ← discard end_ d; Done (Ok (PP_Message (alone (into_plain_message m))), l, d))
                  else
                    match decrypt_incoming m l with
                    | (Err e, l) => stop (Err (decrypt_error e), d) l
                    | (Ok None, l) =>
                        if joining
                        then stop (set_err (HE_Misbehaved RejectedEarlyDataInterleavedWithHandshakeMessage) d) l
                        else match discard end_ d with
                             | Panic => Some Panic
                             | Done d => pop_loop fuel negotiated l d
                             end
                    | (Ok (Some decrypted), l) =>
                        let msg := dc_plaintext decrypted in
                        if negb (bool_decide (pm_typ msg = CO_Handshake)) then
                          if joining
                          then stop (set_err (HE_Misbehaved MessageInterleavedWithHandshakeMessage) d) l
                          else Some (d ← discard end_ d; Done (Ok (PP_Message (alone msg)), l, d))
                        else
                          match append_hs (pm_version msg) (pm_payload msg) end_ d with
                          | Panic => Some Panic
                          | Done (Err e, d) => stop (Err e, d) l
                          | Done (Ok HS_Blocked, d) => stop (Ok PP_None, d) l
                          | Done (Ok (HS_Complete len), d) => stop (Ok (PP_Joined len), d) l
                          | Done (Ok HS_Continue, d) => pop_loop fuel negotiated l d
                          end
                    end
              end
          end
      end
  end.

(** The rest of [pop], for a joined message. *)
Definition take_joined (expected_len : nat) (d : MessageDeframer)
    : outcome (result HsError Deframed * MessageDeframer) :=
  match df_joining_hs d with
  | None => Panic
  | Some m =>
      payload ← slice (mt_payload_start m) (mt_payload_start m + expected_len) (df_buf d);
      let message := mkPlain CO_Handshake (mt_version m) payload in
      if (expected_len <? payload_len m)%nat then
        let m := m <| mt_payload_start := (mt_payload_start m + expected_len)%nat |> in
        rest ← slice (mt_payload_start m) (mt_payload_end m) (df_buf d);
        match payload_size rest with
        | Err e => Done (Err e, d <| df_joining_hs := Some m |>)
        | Ok len =>
            Done (Ok (mkDeframed false false true message),
                  d <| df_joining_hs := Some (m <| mt_expected_len := len |>) |>)
        end
      else
        d ← discard (mt_message_end m) (d <| df_joining_hs := None |>);
        Done (Ok (mkDeframed false true true message), d)
  end.

Definition pop (negotiated : option ProtocolVersion) (l : RecordLayer) (d : MessageDeframer)
    : option (outcome (result HsError (option Deframed) * RecordLayer * MessageDeframer)) :=
  match df_last_error d with
  | Some e => Some (Done (Err e, l, d))
  | None =>
      if (df_used d =? 0)%nat then Some (Done (Ok None, l, d))
      else
        match pop_loop (S (df_used d - unread_start d)) negotiated l d with
        | None => None
        | Some Panic => Some Panic
        | Some (Done (Err e, l, d)) => Some (Done (Err e, l, d))
        | Some (Done (Ok PP_None, l, d)) => Some (Done (Ok None, l, d))
        | Some (Done (Ok (PP_Message m), l, d)) => Some (Done (Ok (Some m), l, d))
        | Some (Done (Ok (PP_Joined len), l, d)) =>
            Some match take_joined len d with
                 | Panic => Panic
                 | Done (Ok m, d) => Done (Ok (Some m), l, d)
                 | Done (Err e, d) => Done (Err e, l, d)
                 end
        end
  end.
End Deframing.

(** ** Reading *)

Definition resize (n : nat) (l : list Z) : list Z := firstn n l ++ replicate (n - length l) 0.

(** [prepare_read]; [Err] is "message buffer full". *)
Definition prepare_read (d : MessageDeframer) : result () MessageDeframer :=
  let allow_max :=
    Z.to_nat match df_joining_hs d with Some _ => MAX_HANDSHAKE_SIZE | None => MAX_WIRE_SIZE end in
  if (allow_max <=? df_used d)%nat then Err tt
  else
    let need_capacity := Nat.min allow_max (df_used d + READ_SIZE) in
    let n := length (df_buf d) in
    Ok (if (n <? need_capacity)%nat || (df_used d =? 0)%nat || (allow_max <? n)%nat
        then d <| df_buf := resize need_capacity (df_buf d) |> else d).

(** [read], from what is there to be read: what fits is taken. *)
Definition deframer_read (incoming : list Z) (d : MessageDeframer)
    : outcome (result () nat * MessageDeframer) :=
  match prepare_read d with
  | Err e => Done (Err e, d)
  | Ok d =>
      let new := firstn (length (df_buf d) - df_used d) incoming in
      buf ← overwrite (df_used d) new (df_buf d);
      Done (Ok (length new), d <| df_buf := buf |> <| df_used := (df_used d + length new)%nat |>)
  end.

Definition has_pending (d : MessageDeframer) : bool := (0 <? df_used d)%nat.

(** ** What a connection does with it (conn.rs)

    A connection as the deframer sees it: its record layer and its version, and what it does
    with a message (and whether it goes on after that) and with an error. *)

Class Receiver `{RingAead} (C : Type) := {
  rv_negotiated : C → option ProtocolVersion;
  rv_layer : C → RecordLayer;
  rv_set_layer : RecordLayer → C → C;
  rv_message : Deframed → C → outcome (C * bool);
  rv_error : HsError → C → outcome C;
}.

Section Receiving.
Context `{Receiver C}.

(** The loop of [process_new_packets]; a connection that has ended needs no deframer. *)
Fixpoint drain (fuel : nat) (c : C) (d : MessageDeframer) : option (outcome (C * option MessageDeframer)) :=
  match fuel with
  | O => None
  | S fuel =>
      match pop (rv_negotiated c) (rv_layer c) d with
      | None => None
      | Some Panic => Some Panic
      | Some (Done (r, l, d)) =>
          let c := rv_set_layer l c in
          match r with
          | Ok None => Some (Done (c, Some d))
          | Ok (Some m) =>
              match rv_message m c with
              | Panic => Some Panic
              | Done (c, true) => drain fuel c d
              | Done (c, false) => Some (Done (c, None))
              end
          | Err e => Some (c ← rv_error e c; Done (c, None))
          end
      end
  end.

(** What comes of bytes: the connection waits for more, has ended, or its buffer is full. *)
Inductive Fed := Fed_Open (d : MessageDeframer) | Fed_Ended | Fed_Full (d : MessageDeframer).

(** How a caller reads bytes that arrive in pieces: each call reads what it can of a piece, and
    then processes it. *)
Fixpoint feed (fuel : nat) (c : C) (d : MessageDeframer) (pieces : list (list Z))
    : option (outcome (C * Fed)) :=
  match fuel with
  | O => None
  | S fuel =>
      match pieces with
      | [] => Some (Done (c, Fed_Open d))
      | [] :: pieces => feed fuel c d pieces
      | piece :: pieces =>
          match deframer_read piece d with
          | Panic => Some Panic
          | Done (Err _, d) => Some (Done (c, Fed_Full d))
          | Done (Ok n, d) =>
              match drain (S (df_used d)) c d with
              | None => None
              | Some Panic => Some Panic
              | Some (Done (c, Some d)) => feed fuel c d (skipn n piece :: pieces)
              | Some (Done (c, None)) => Some (Done (c, Fed_Ended))
              end
          end
      end
  end.

(** A new connection, with fuel for each piece and for each byte. *)
Definition feed_all (c : C) (pieces : list (list Z)) : option (outcome (C * Fed)) :=
  feed (S (length (concat pieces) + length pieces)) c deframer_new pieces.
End Receiving.

(** ** The client

    Of what the handshake does to the record layer, opening sees new keys for it only: what is
    sent is counted in the other half. *)

Record ClientConnection := mkClientConnection {
  cc_connection : Connection;
  cc_cx : Context;
  cc_layer : RecordLayer;
}.

Definition layer_event (l : RecordLayer) (e : WireEvent) : RecordLayer :=
  match e with
  | EV_Encrypter k => set_message_encrypter k l
  | EV_Decrypter k => set_message_decrypter k l
  | _ => l
  end.

(** The layer after what has been done since. *)
Definition layer_since (before after : Context) (l : RecordLayer) : RecordLayer :=
  foldl layer_event l (skipn (length (cx_log before)) (cx_log after)).

Section Client.
Context `{TlsCrypto, DnsNames, RingAead, RingHash, ServerVerifier}.

(** [deframe], and [process_msg] of what it gives. *)
Definition client_message (config : ClientConfig) (now : Z) (m : Deframed) (c : ClientConnection)
    : outcome (ClientConnection * bool) :=
  match cc_connection c with
  | CN_Live st =>
      let cx := if dd_want_close_before_decrypt m
                then wire_event (EV_WarningAlert AL_CloseNotify) (cc_cx c) else cc_cx c in
      let l := if dd_trial_decryption_finished m then finish_trial_decryption (cc_layer c) else cc_layer c in
      '(r, cx') ← process_msg config now st (dd_message m) (cx <| cx_aligned_handshake := dd_aligned m |>);
      let l := layer_since cx cx' l in
      Done match r with
           | Ok (inl st) => (mkClientConnection (CN_Live st) cx' l, true)
           | Ok (inr v) => (mkClientConnection (CN_Tls12 v []) cx' l, false)
           | Err e => (mkClientConnection (CN_Failed e) cx' l, false)
           end
  | _ => Done (c, false)
  end.

Definition client_error (e : HsError) (c : ClientConnection) : outcome ClientConnection :=
  '(_, cx) ← deframer_error e (cc_cx c);
  Done (mkClientConnection (CN_Failed HE_HandshakeNotComplete) cx (layer_since (cc_cx c) cx (cc_layer c))).

#[export] Instance client_receiver (config : ClientConfig) (now : Z) : Receiver ClientConnection := {
  rv_negotiated c := cx_negotiated_version (cc_cx c);
  rv_layer := cc_layer;
  rv_set_layer l c := c <| cc_layer := l |>;
  rv_message := client_message config now;
  rv_error := client_error;
}.
End Client.
