(* ===== verification/NodeTls.v ===== *)
(** * NodeTls: the TLS fingerprint of Node.js (src/src/tlsfp/tlsfp.rs)

    The ciphers and extensions of the client hello, the configuration that sends it, and the
    HTTP clients that are built with it. *)

From S2P Require Import Prelude TlsCodec TlsEnums TlsHello TlsMessages TlsRecord TlsSession Craft Http Limit.

Definition NODEJS_CIPHER : list GreaseOrCipher :=
  [GT CS_TLS13_AES_256_GCM_SHA384; GT CS_TLS13_CHACHA20_POLY1305_SHA256;
   GT CS_TLS13_AES_128_GCM_SHA256; GT (CS_Unknown 0xC02F); GT (CS_Unknown 0xC02B);
   GT (CS_Unknown 0xC030); GT (CS_Unknown 0xC02C); GT (CS_Unknown 0x009E);
   GT (CS_Unknown 0xC027); GT (CS_Unknown 0x0067); GT (CS_Unknown 0xC028);
   GT (CS_Unknown 0x006B); GT (CS_Unknown 0x00A3); GT (CS_Unknown 0x009F);
   GT (CS_Unknown 0xCCA9); GT (CS_Unknown 0xCCA8); GT (CS_Unknown 0xCCAA);
   GT (CS_Unknown 0xC0AD); GT (CS_Unknown 0xC09F); GT (CS_Unknown 0xC05D);
   GT (CS_Unknown 0xC061); GT (CS_Unknown 0xC057); GT (CS_Unknown 0xC053);
   GT (CS_Unknown 0x00A2); GT (CS_Unknown 0xC0AC); GT (CS_Unknown 0xC09E);
   GT (CS_Unknown 0xC05C); GT (CS_Unknown 0xC060); GT (CS_Unknown 0xC056);
   GT (CS_Unknown 0xC052); GT (CS_Unknown 0xC024); GT (CS_Unknown 0x006A);
   GT (CS_Unknown 0xC023); GT (CS_Unknown 0x0040); GT (CS_Unknown 0xC00A);
   GT (CS_Unknown 0xC014); GT (CS_Unknown 0x0039); GT (CS_Unknown 0x0038);
   GT (CS_Unknown 0xC009); GT (CS_Unknown 0xC013); GT (CS_Unknown 0x0033);
   GT (CS_Unknown 0x0032); GT (CS_Unknown 0x009D); GT (CS_Unknown 0xC09D);
   GT (CS_Unknown 0xC051); GT (CS_Unknown 0x009C); GT (CS_Unknown 0xC09C);
   GT (CS_Unknown 0xC050); GT (CS_Unknown 0x003D); GT (CS_Unknown 0x003C);
   GT (CS_Unknown 0x0035); GT (CS_Unknown 0x002F)].

Definition NODEJS_EXTENSION : list ExtensionSpec :=
  [ES_Craft CX_RenegotiationInfo;
   ES_Keep (Must ET_ServerName);
   ES_Rustls (EcPointFormats [EP_Uncompressed; EP_ANSIX962CompressedPrime; EP_ANSIX962CompressedChar2]);
   ES_Rustls (NamedGroups
     [NG_Unknown 0x11EC; NG_X25519; NG_secp256r1; NG_Unknown 0x001E; NG_secp384r1; NG_secp521r1;
      NG_FFDHE2048; NG_FFDHE3072]);
   ES_Keep (OrDefault ET_SessionTicket (SessionTicket (TicketOffer (mkPayload []))));
   ES_Craft (CX_Protocols [[104; 116; 116; 112; 47; 49; 46; 49]]);
   ES_Rustls (CE_Unknown (mkUnknownExtension (ET_Unknown 22) (mkPayload [])));
   ES_Rustls ExtendedMasterSecretRequest;
   ES_Rustls (SignatureAlgorithms
     [SS_Unknown 0x0905; SS_Unknown 0x0906; SS_Unknown 0x0904; SS_ECDSA_NISTP256_SHA256;
      SS_ECDSA_NISTP384_SHA384; SS_Unknown 0x0603; SS_Unknown 0x0807; SS_Unknown 0x0808;
      SS_Unknown 0x081a; SS_Unknown 0x081b; SS_Unknown 0x081c; SS_Unknown 0x0809;
      SS_Unknown 0x080a; SS_Unknown 0x080b; SS_Unknown 0x0804; SS_Unknown 0x0805;
      SS_Unknown 0x0806; SS_RSA_PKCS1_SHA256; SS_RSA_PKCS1_SHA384; SS_RSA_PKCS1_SHA512;
      SS_Unknown 0x0303; SS_Unknown 0x0301; SS_Unknown 0x0302; SS_Unknown 0x0402;
      SS_Unknown 0x0502; SS_Unknown 0x0602]);
   ES_Craft (CX_SupportedVersions [GT PV_TLSv1_3; GT PV_TLSv1_2]);
   ES_Rustls (PresharedKeyModes [PK_PSK_DHE_KE]);
   ES_Craft (CX_KeyShare [GT NG_X25519])].

Definition NODEJS_FINGERPRINT : TlsFingerprint :=
  {| fp_extensions := NODEJS_EXTENSION; fp_cipher := NODEJS_CIPHER; fp_shuffle_extensions := false |}.

(** ** The configuration

    The provider of ring (craftls/rustls/src/crypto/ring/mod.rs, kx.rs) and what the builder
    of a configuration without client certificate sets (client/builder.rs). *)

Definition ALL_CIPHER_SUITES : list SupportedCipherSuite :=
  [mkSuite CS_TLS13_AES_256_GCM_SHA384 PV_TLSv1_3 SHA384;
   mkSuite CS_TLS13_AES_128_GCM_SHA256 PV_TLSv1_3 SHA256;
   mkSuite CS_TLS13_CHACHA20_POLY1305_SHA256 PV_TLSv1_3 SHA256;
   mkSuite CS_TLS_ECDHE_ECDSA_WITH_AES_256_GCM_SHA384 PV_TLSv1_2 SHA384;
   mkSuite CS_TLS_ECDHE_ECDSA_WITH_AES_128_GCM_SHA256 PV_TLSv1_2 SHA256;
   mkSuite CS_TLS_ECDHE_ECDSA_WITH_CHACHA20_POLY1305_SHA256 PV_TLSv1_2 SHA256;
   mkSuite CS_TLS_ECDHE_RSA_WITH_AES_256_GCM_SHA384 PV_TLSv1_2 SHA384;
   mkSuite CS_TLS_ECDHE_RSA_WITH_AES_128_GCM_SHA256 PV_TLSv1_2 SHA256;
   mkSuite CS_TLS_ECDHE_RSA_WITH_CHACHA20_POLY1305_SHA256 PV_TLSv1_2 SHA256].

Definition ALL_KX_GROUPS : list KxGroup :=
  [RingKx NG_X25519; RingKx NG_secp256r1; RingKx NG_secp384r1].

Definition default_provider : CryptoProvider := mkProvider ALL_CIPHER_SUITES ALL_KX_GROUPS.

Definition default_config : ClientConfig :=
  {| cc_provider := default_provider;
     cc_alpn_protocols := [];
     cc_tls12_resumption := T12_SessionIdOrTickets;
     cc_certificate_compression_algorithms := [];
     cc_versions := mkVersions true true;
     cc_enable_sni := true;
     cc_enable_early_data := false;
     cc_client_auth_cert_resolver := FailResolveClientCert;
     cc_key_log := λ _, false;
     cc_craft := None |}.

(** X448, which ring does not have: announced only. *)
Definition FAKE_X448 : KxGroup := FakeKx (NG_Unknown 0x001E).

Definition build_tls_config : outcome ClientConfig :=
  config ← patch_config (fingerprint_builder NODEJS_FINGERPRINT) default_config;
  let provider := cc_provider config in
  groups ← vec_insert 0 X25519Mlkem768 (kx_groups provider);
  Done (config <| cc_provider := provider <| kx_groups := groups ++ [FAKE_X448] |> |>).

(** ** HTTP clients

    What a client of reqwest is built from; whether a proxy URL is one, and whether the
    client can be built, is reqwest's. *)

Definition UPSTREAM_READ_TIMEOUT : Duration := from_secs 300.

Record ClientSettings := mkClientSettings {
  cs_tls : option ClientConfig;
  cs_connect_timeout : option Duration;
  cs_read_timeout : option Duration;
  cs_proxy : option string;
}.

Class Reqwest := {
  proxy_all_ok : string → bool;
  client_build_ok : ClientSettings → bool;
}.

(** [reqwest::Client::new]: none of the settings. *)
Definition plain_client : ClientSettings := mkClientSettings None None None None.

Definition make_request_client_with_read_timeout `{Reqwest} (proxy_url : string)
    (read_timeout : Duration) : outcome ClientSettings :=
  tls ← build_tls_config;
  let builder := {| cs_tls := Some tls; cs_connect_timeout := None;
                    cs_read_timeout := Some read_timeout; cs_proxy := None |} in
  let builder := if negb (String.eqb proxy_url "") && proxy_all_ok proxy_url
                 then builder <| cs_proxy := Some proxy_url |> else builder in
  Done (if client_build_ok builder then builder else plain_client).

Definition make_request_client `{Reqwest} (proxy_url : string) : outcome ClientSettings :=
  make_request_client_with_read_timeout proxy_url UPSTREAM_READ_TIMEOUT.

Definition make_request_client_with_timeouts `{Reqwest} (connect_timeout read_timeout : Duration)
    : outcome (option ClientSettings) :=
  tls ← build_tls_config;
  let builder := {| cs_tls := Some tls; cs_connect_timeout := Some connect_timeout;
                    cs_read_timeout := Some read_timeout; cs_proxy := None |} in
  Done (if client_build_ok builder then Some builder else None).
