(* ===== verification/TlsWire.v ===== *)
(** * TlsWire: what is written is read back

    A class of the types that go over the wire: which values fit their length fields
    ([wire_ok]), and which value is read for one that is written ([canon], which differs
    where an [Unknown] number has a name, or where an empty ticket is a request). The laws
    are proved once per constructor of messages: numbers, names, payloads, lists. *)

From S2P Require Import Prelude TlsCodec TlsEnums TlsHello.

(** ** Numbers *)

Lemma be_bytes_length n v : length (be_bytes n v) = n.
Proof. induction n; simpl; congruence. Qed.

Lemma of_be_acc n v acc :
  foldl (λ acc b, acc * 256 + b) acc (be_bytes n v) = acc * 256 ^ Z.of_nat n + v mod 256 ^ Z.of_nat n.
Proof.
  revert acc. induction n as [|n IH]; intros acc.
  - simpl. rewrite Z.mod_1_r. lia.
  - cbn [be_bytes foldl]. rewrite IH.
    replace (256 ^ Z.of_nat (S n)) with (256 ^ Z.of_nat n * 256)
      by (rewrite Nat2Z.inj_succ, Z.pow_succ_r; lia).
    rewrite Z.rem_mul_r; lia.
Qed.

Lemma of_be_bytes n v : 0 ≤ v < 256 ^ Z.of_nat n → of_be (be_bytes n v) = v.
Proof. intros Hv. unfold of_be. rewrite of_be_acc, Z.mod_small; lia. Qed.

(** ** Readers *)

(** [m] reads the bytes [w], and no more, as [x]. *)
Definition Reads {A} (m : Read A) (w : list Z) (x : A) : Prop :=
  ∀ rest, m (w ++ rest) = Ok (x, rest).

Lemma reads_ret {A} (x : A) : Reads (mret x) [] x.
Proof. by intros rest. Qed.

Lemma reads_bind {A B} (m : Read A) (f : A → Read B) w1 w2 x y :
  Reads m w1 x → Reads (f x) w2 y → Reads (m ≫= f) (w1 ++ w2) y.
Proof.
  intros H1 H2 rest. rewrite <- app_assoc. unfold mbind, read_bind.
  by rewrite H1, H2.
Qed.

Lemma reads_bind_ret {A B} (m : Read A) (f : A → B) w x :
  Reads m w x → Reads (y ← m; mret (f y)) w (f x).
Proof. intros Hm. rewrite <- (app_nil_r w). eapply reads_bind; [done|apply reads_ret]. Qed.

Lemma reads_take e w : Reads (take_or e (length w)) w w.
Proof.
  intros rest. unfold take_or. rewrite length_app.
  replace (_ <? _)%nat with false by (symmetry; apply Nat.ltb_ge; lia).
  by rewrite firstn_app, Nat.sub_diag, firstn_all, firstn_O, app_nil_r, skipn_app, skipn_all, Nat.sub_diag.
Qed.

Lemma reads_take_n e n w : n = length w → Reads (take_or e n) w w.
Proof. intros ->. apply reads_take. Qed.

Lemma reads_uint s n v : 0 ≤ v < 256 ^ Z.of_nat n → Reads (uint_read s n) (be_bytes n v) v.
Proof.
  intros Hv rest. unfold uint_read.
  rewrite (reads_take_n (MissingData s) n (be_bytes n v)) by (by rewrite be_bytes_length).
  by rewrite of_be_bytes.
Qed.

(** A length and then as many bytes. *)
Lemma reads_counted {A} (s : string) n (w : list Z) (f : list Z → A) :
  Z.of_nat (length w) < 256 ^ Z.of_nat n →
  Reads (len ← uint_read s n; sub ← reader_sub (Z.to_nat len); mret (f sub))
    (be_bytes n (Z.of_nat (length w)) ++ w) (f w).
Proof.
  intros Hw. eapply reads_bind; [apply reads_uint; lia|].
  apply reads_bind_ret, reads_take_n. lia.
Qed.

Lemma on_sub_ok {A} (m : Read A) sub x r : m sub = Ok x → on_sub sub m r = Ok (x, r).
Proof. intros Hm. unfold on_sub, lift_result. by rewrite Hm. Qed.

Lemma any_left_app a (b : list Z) : a ≠ [] → any_left (a ++ b) = true.
Proof. by destruct a. Qed.

(** ** Length prefixes *)

Lemma inserts_at (b p w q : list Z) :
  length p = length q → list_inserts (length b) q (b ++ p ++ w) = b ++ q ++ w.
Proof.
  revert b p. induction q as [|z q IH]; intros b p Hpq; destruct p as [|y p]; simplify_eq/=; [done|].
  specialize (IH (b ++ [y]) p ltac:(done)).
  rewrite length_app, <- !app_assoc in IH. simpl in IH.
  replace (S (length b)) with (length b + 1)%nat by lia.
  rewrite IH. rewrite insert_app_r_alt by lia. by rewrite Nat.sub_diag.
Qed.

(** A body that appends [w] is written with its length in front. *)
Lemma nested_app s body w b :
  (∀ b, body b = b ++ w) →
  nested s body b =
    b ++ be_bytes (size_bytes s) (Z.of_nat (length w)) ++ w.
Proof.
  intros Hbody. unfold nested, lpb_new, lpb_drop. cbn [lp_buf lp_len_offset lp_size_len].
  rewrite Hbody, !length_app, length_replicate.
  destruct (Nat.eqb_spec (length b + size_bytes s + length w + 2) (length b)) as [Heq|_]; [lia|].
  rewrite <- app_assoc, inserts_at by (by rewrite length_replicate, be_bytes_length).
  do 3 f_equal. lia.
Qed.

(** ** The class *)

Class Wire (T : Type) := {
  wire_ok : T → bool;
  canon : T → T;
}.

Class WireLaws (T : Type) `{Codec T, Wire T} := {
  wire_appends : ∀ x b, wire_ok x = true → encode x b = b ++ get_encoding x;
  wire_reads : ∀ x, wire_ok x = true → Reads read (get_encoding x) (canon x);
}.

(** Elements of lists take at least one byte. *)
Class WireElement (T : Type) `{Codec T, Wire T} := {
  wire_nonempty : ∀ x, wire_ok x = true → get_encoding x ≠ [];
}.

(** ** Numbers with names *)

#[export] Instance enum_wire {E} `{TlsEnum E} : Wire E := {
  wire_ok v := (0 <=? enum_get v) && (enum_get v <? 256 ^ Z.of_nat enum_width);
  canon v := enum_of (enum_get v);
}.

#[export] Instance enum_wire_laws {E} `{TlsEnum E} : WireLaws E.
Proof.
  split.
  - done.
  - intros v Hv rest. simpl in Hv. bool_prop. unfold get_encoding. simpl.
    unfold enum_read, uint_encode. simpl. rewrite reads_uint by lia. done.
Qed.

Lemma enum_encoding_length {E} `{TlsEnum E} (v : E) : length (get_encoding v) = enum_width.
Proof. unfold get_encoding. simpl. apply be_bytes_length. Qed.

(** A named value is read as itself. *)
Lemma canon_known {E} `{TlsEnumLaws E} (v : E) : craft_is_unknown v = false → canon v = v.
Proof. apply enum_known_of. Qed.

(** What is read keeps the number. *)
Lemma canon_get {E} `{TlsEnumLaws E} (v : E) : enum_get (canon v) = enum_get v.
Proof.
  unfold canon, enum_wire, enum_of. destruct (List.find _ _) as [k|] eqn:Hf; simpl.
  - apply List.find_some in Hf as [_ Hk]. lia.
  - apply enum_get_unknown.
Qed.

(** ** Payloads *)

#[export] Instance payload_u16_wire : Wire PayloadU16 := {
  wire_ok p := Z.of_nat (length (p16_bytes p)) <? 256 ^ 2; canon p := p }.
#[export] Instance payload_u16_wire_laws : WireLaws PayloadU16.
Proof.
  split; intros p.
  - intros b _. unfold get_encoding. simpl. unfold u16_encode, uint_encode.
    by rewrite <- !app_assoc.
  - intros Hp. destruct p as [w]. simpl in Hp.
    apply (reads_counted "u8" 2 w mkPayloadU16). simpl Z.of_nat. lia.
Qed.

#[export] Instance payload_u8_wire : Wire PayloadU8 := {
  wire_ok p := Z.of_nat (length (p8_bytes p)) <? 256; canon p := p }.
#[export] Instance payload_u8_wire_laws : WireLaws PayloadU8.
Proof.
  split; intros p.
  - intros b _. unfold get_encoding. simpl. unfold u8_encode, uint_encode.
    by rewrite <- !app_assoc.
  - intros Hp. destruct p as [w]. simpl in Hp.
    apply (reads_counted "u8" 1 w mkPayloadU8). simpl Z.of_nat. lia.
Qed.

(** ** Lists *)

Definition list_body {T} `{Codec T} (l : list T) : list Z := concat (get_encoding <$> l).

#[export] Instance vec_wire {T} `{Codec T, TlsListElement T, Wire T} : Wire (list T) := {
  wire_ok l := forallb wire_ok l &&
    match SIZE_LEN T with
    | LL_U24 _ => false
    | s => Z.of_nat (length (list_body l)) <? 256 ^ Z.of_nat (size_bytes s)
    end;
  canon l := canon <$> l;
}.

Section Lists.
Context {T : Type} `{WireLaws T, !TlsListElement T, !WireElement T}.

Lemma foldl_encode (l : list T) b :
  forallb wire_ok l = true → foldl (λ b x, encode x b) b l = b ++ list_body l.
Proof.
  revert b. induction l as [|x l IH]; intros b Hl; simpl in *; [by rewrite app_nil_r|].
  bool_prop. rewrite IH, wire_appends by done. unfold list_body. simpl. by rewrite <- app_assoc.
Qed.

Lemma list_body_cons (x : T) l : list_body (x :: l) = get_encoding x ++ list_body l.
Proof. done. Qed.

Lemma read_while_any_step fuel sub :
  sub ≠ [] →
  read_while_any (S fuel) sub =
    match read sub with
    | Ok (x, sub) => (λ l : list T, x :: l) <$> read_while_any fuel sub
    | Err e => Err e
    end.
Proof. by destruct sub. Qed.

Lemma read_elements (l : list T) fuel :
  forallb wire_ok l = true → (length (list_body l) ≤ fuel)%nat →
  read_while_any fuel (list_body l) = Ok (canon <$> l).
Proof.
  revert fuel. induction l as [|x l IH]; intros fuel Hl Hfuel; [by destruct fuel|].
  cbn [forallb] in Hl. bool_prop. rewrite list_body_cons in *. rewrite length_app in Hfuel.
  pose proof (wire_nonempty x ltac:(done)) as Hne.
  assert (length (get_encoding x) ≠ 0%nat) by (by destruct (get_encoding x)).
  destruct fuel as [|fuel]; [lia|].
  rewrite read_while_any_step by (by destruct (get_encoding x)).
  rewrite (wire_reads x ltac:(done) (list_body l)), IH by (done || lia). done.
Qed.

#[export] Instance vec_wire_laws : WireLaws (list T).
Proof.
  split; intros l.
  - intros b Hl. simpl in Hl. bool_prop. unfold get_encoding, encode, vec_codec, vec_encode.
    by rewrite !(nested_app _ _ (list_body l)) by (intros; by apply foldl_encode).
  - intros Hl. simpl in Hl. bool_prop. unfold get_encoding, encode, vec_codec, vec_encode.
    rewrite (nested_app _ _ (list_body l)) by (intros; by apply foldl_encode). simpl app.
    destruct (SIZE_LEN T) eqn:Hs; [| |done]; unfold read, codec_read, vec_codec, vec_codec_read, vec_read; rewrite Hs.
    all: bool_prop; simpl size_bytes in *; eapply reads_bind; [apply reads_uint; lia|].
    all: intros rest; unfold mbind, read_bind, reader_sub.
    all: rewrite (reads_take_n _ _ (list_body l)) by lia.
    all: unfold lift_result; by rewrite read_elements.
Qed.

End Lists.
