(* ===== verification/TlsRecordFacts.v ===== *)
(** * TlsRecordFacts: protected records

    Messages that are sent under a key are received by a peer with the same key; no nonce is
    used twice with a key; the buffers are queues of bytes; and what happens when the
    numbers of records come to an end. *)

From S2P Require Import Prelude TlsCodec TlsEnums TlsHello TlsMessages TlsRecord TlsWire.

(** ** Chunks *)

Section Chunks.
Context {A : Type}.
Implicit Types l : list A.

Lemma concat_chunks_fuel fuel n l :
  (0 < n)%nat → (length l ≤ fuel)%nat → concat (chunks_fuel fuel n l) = l.
Proof.
  intros Hn. revert l. induction fuel as [|fuel IH]; intros [|x l] Hl; simpl in *; try done; [lia|].
  rewrite IH; [apply take_drop|]. rewrite length_skipn. simpl. lia.
Qed.

Lemma concat_chunks n l : (0 < n)%nat → concat (chunks n l) = l.
Proof. intros Hn. by apply concat_chunks_fuel. Qed.

Lemma chunks_sizes n l : (0 < n)%nat → Forall (λ c, 0 < length c ≤ n)%nat (chunks n l).
Proof.
  intros Hn. unfold chunks. generalize (length l) as fuel. intros fuel. revert l.
  induction fuel as [|fuel IH]; intros [|x l]; simpl; constructor; [|done].
  rewrite length_firstn. simpl. lia.
Qed.
End Chunks.

(** ** Records on the wire *)

Definition record_ok (m : OpaqueMessage) : Prop :=
  craft_is_unknown (om_typ m) = false ∧ craft_is_unknown (om_version m) = false ∧
  om_payload m ≠ [] ∧ Z.of_nat (length (om_payload m)) < MAX_PAYLOAD.

Lemma header_reads {A} (m : Read A) w x rest : Reads m w x → header m (w ++ rest) = Ok (x, rest).
Proof. intros Hm. unfold header. by rewrite Hm. Qed.

Lemma known_version_masked (v : ProtocolVersion) :
  craft_is_unknown v = false →
  match v with PV_Unknown v => negb (Z.land v 0xff00 =? 0x0300) | _ => false end = false.
Proof. by destruct v. Qed.

Lemma enum_reads {E} `{TlsEnumLaws E} (v : E) :
  craft_is_unknown v = false → wire_ok v = true → Reads enum_read (get_encoding v) v.
Proof. intros Hk Hw. pose proof (wire_reads v Hw) as Hr. rewrite (canon_known v Hk) in Hr. exact Hr. Qed.

Lemma opaque_reads m rest : record_ok m → opaque_read (opaque_encode m ++ rest) = Ok (m, rest).
Proof.
  destruct m as [typ version payload]. intros (Ht & Hv & Hne & Hlen).
  cbn [om_typ om_version om_payload] in Ht, Hv, Hne, Hlen.
  change (opaque_encode _) with
    (((get_encoding typ ++ get_encoding version) ++ be_bytes 2 (Z.of_nat (length payload))) ++ payload).
  rewrite <- !app_assoc. unfold opaque_read, mbind, result_bind.
  rewrite (header_reads _ _ _ _ (enum_reads typ Ht ltac:(by destruct typ))). rewrite Ht.
  rewrite (header_reads _ _ _ _ (enum_reads version Hv ltac:(by destruct version))).
  rewrite known_version_masked by done.
  assert (0 ≤ Z.of_nat (length payload) < 256 ^ Z.of_nat 2) as Hb by (unfold MAX_PAYLOAD in *; lia).
  rewrite (header_reads _ _ _ _ (reads_uint "u8" 2 _ Hb)).
  replace (Z.of_nat (length payload) =? 0) with false
    by (symmetry; apply Z.eqb_neq; destruct payload; simpl; [done|lia]).
  rewrite andb_false_r. replace (MAX_PAYLOAD <=? _) with false by (symmetry; apply Z.leb_gt; lia).
  unfold reader_sub. by rewrite (reads_take_n _ _ payload) by lia.
Qed.

(** ** Protection *)

(** What ring promises: a sealed text opens, and is longer by a tag of 16 bytes. *)
Class RingAeadLaws `{RingAead} := {
  open_sealed : ∀ a k n aad p c, aead_seal a k n aad p = Some c → aead_open a k n aad c = Some p;
  sealed_length : ∀ a k n aad p c,
    aead_seal a k n aad p = Some c → length c = (length p + aead_tag_len a)%nat;
  tag_length : ∀ a, aead_tag_len a = 16%nat;
}.

Definition plain_ok (m : PlainMessage) : Prop :=
  craft_is_unknown (pm_typ m) = false ∧ Z.of_nat (length (pm_payload m)) ≤ MAX_FRAGMENT_LEN.

(** How a peer sees a message that was protected. *)
Definition as_tls13 (m : PlainMessage) : PlainMessage := m <| pm_version := PV_TLSv1_3 |>.

Lemma typ_encoded (typ : ContentType) payload :
  craft_is_unknown typ = false → encode typ payload = payload ++ [enum_get typ] ∧ enum_get typ ≠ 0.
Proof. by destruct typ. Qed.

Lemma unpad_typ (typ : ContentType) payload :
  craft_is_unknown typ = false → unpad_tls13 (encode typ payload) = (typ, payload).
Proof.
  intros Hk. destruct (typ_encoded typ payload Hk) as [-> Hz]. unfold unpad_tls13.
  rewrite rev_app_distr. cbn [rev app unpad_reversed]. rewrite (proj2 (Z.eqb_neq _ _) Hz).
  by rewrite (enum_known_of typ Hk), rev_involutive.
Qed.

Section Protection.
Context `{RingAeadLaws}.

Lemma encrypted_record k m seq om :
  plain_ok m → message_encrypt k m seq = Ok om → record_ok om.
Proof.
  intros [Hk Hlen]. unfold message_encrypt. destruct (aead_seal _ _ _ _ _) as [c|] eqn:Hs; [|done].
  intros [= <-]. apply sealed_length in Hs. rewrite tag_length in Hs.
  rewrite (proj1 (typ_encoded _ _ Hk)), length_app in Hs. simpl in Hs. unfold record_ok. simpl.
  unfold MAX_FRAGMENT_LEN, MAX_PAYLOAD in *. split_and!; try done; [by destruct c; simpl in *; [lia|]|lia].
Qed.

Lemma decrypt_encrypted k m seq om :
  plain_ok m → message_encrypt k m seq = Ok om → message_decrypt k om seq = Ok (as_tls13 m).
Proof.
  intros [Hk Hlen]. unfold message_encrypt, message_decrypt.
  destruct (aead_seal _ _ _ _ _) as [c|] eqn:Hs; [|done]. intros [= <-]. simpl.
  pose proof (sealed_length _ _ _ _ _ _ Hs) as Hc. rewrite (proj1 (typ_encoded _ _ Hk)), length_app in Hc.
  simpl in Hc. replace (_ <? _)%nat with false by (symmetry; apply Nat.ltb_ge; lia).
  unfold encrypted_payload_len in Hs. rewrite <- Hc in Hs.
  rewrite (open_sealed _ _ _ _ _ _ Hs). unfold into_tls13_unpadded_message. cbn [om_payload].
  rewrite unpad_typ by done. cbv beta iota.
  destruct (typ_encoded _ (pm_payload m) Hk) as [-> Hz]. rewrite length_app. simpl.
  unfold MAX_FRAGMENT_LEN in *.
  replace (16384 + 1 <? _) with false by (symmetry; apply Z.ltb_ge; lia).
  rewrite bool_decide_false by (intros He; by rewrite He in Hk).
  replace (16384 <? _) with false by (symmetry; apply Z.ltb_ge; lia).
  by destruct m.
Qed.

(** ** Streams *)

Fixpoint encrypt_all (k : MessageKey) (seq : Z) (ms : list PlainMessage)
    : result RecordError (list OpaqueMessage) :=
  match ms with
  | [] => Ok []
  | m :: ms => om ← message_encrypt k m seq; oms ← encrypt_all k (seq + 1) ms; Ok (om :: oms)
  end.

(** A peer that reads record after record from a stream of bytes. *)
Fixpoint receive_all (fuel : nat) (bytes : list Z) (l : RecordLayer)
    : option (list PlainMessage * RecordLayer) :=
  match fuel, bytes with
  | _, [] => Some ([], l)
  | O, _ => None
  | S fuel, _ =>
      match opaque_read bytes with
      | Ok (m, bytes) =>
          match decrypt_incoming m l with
          | (Ok (Some d), l) =>
              '(ms, l) ← receive_all fuel bytes l; Some (dc_plaintext d :: ms, l)
          | _ => None
          end
      | Err _ => None
      end
  end.

Definition sends_with (k : MessageKey) (l : RecordLayer) : Prop :=
  rl_encrypter l = Some k ∧ rl_encrypt_state l = DS_Active.
Definition receives_with (k : MessageKey) (l : RecordLayer) : Prop :=
  rl_decrypter l = Some k ∧ rl_decrypt_state l = DS_Active.

Lemma encrypt_all_app k seq ms ms' oms oms' :
  encrypt_all k seq ms = Ok oms → encrypt_all k (seq + Z.of_nat (length ms)) ms' = Ok oms' →
  encrypt_all k seq (ms ++ ms') = Ok (oms ++ oms').
Proof.
  revert seq oms. induction ms as [|m ms IH]; intros seq oms; simpl.
  - intros [= <-]. by rewrite Z.add_0_r.
  - destruct (message_encrypt k m seq) as [om|]; [|done]. simpl.
    destruct (encrypt_all k (seq + 1) ms) as [oms1|] eqn:He; [|done]. intros [= <-] H'.
    erewrite IH; [done|done|]. rewrite <- H'. f_equal. lia.
Qed.

Lemma encrypt_all_length k seq ms oms : encrypt_all k seq ms = Ok oms → length oms = length ms.
Proof.
  revert seq oms. induction ms as [|m ms IH]; intros seq oms; simpl; [by intros [= <-]|].
  destruct (message_encrypt k m seq) as [om|]; [|done]. simpl.
  destruct (encrypt_all k (seq + 1) ms) as [oms1|] eqn:He; [|done]. intros [= <-]. simpl.
  f_equal. by eapply IH.
Qed.

Lemma record_nonempty m : opaque_encode m ≠ [].
Proof. by destruct m as [[] ? ?]. Qed.

Lemma receive_encrypted k ms oms l fuel :
  Forall plain_ok ms → encrypt_all k (rl_read_seq l) ms = Ok oms → receives_with k l →
  0 ≤ rl_read_seq l → rl_read_seq l + Z.of_nat (length ms) < 2 ^ 64 →
  (length (concat (opaque_encode <$> oms)) ≤ fuel)%nat →
  ∃ l', receive_all fuel (concat (opaque_encode <$> oms)) l = Some (as_tls13 <$> ms, l') ∧
    rl_read_seq l' = rl_read_seq l + Z.of_nat (length ms) ∧ receives_with k l'.
Proof.
  revert oms l fuel. induction ms as [|m ms IH]; intros oms l fuel Hok He [Hk Ha] Hz Hseq Hfuel.
  - injection He as <-. exists l. rewrite Z.add_0_r. by destruct fuel.
  - simpl in He. destruct (message_encrypt k m _) as [om|] eqn:Hm; [|done]. simpl in He.
    destruct (encrypt_all k _ ms) as [oms1|] eqn:He1; [|done]. injection He as <-.
    apply Forall_cons in Hok as [Hm1 Hok]. cbn [fmap list_fmap concat] in *.
    pose proof (record_nonempty om) as Hne.
    destruct (opaque_encode om ++ concat (opaque_encode <$> oms1)) as [|z bytes] eqn:Hb;
      [by destruct (opaque_encode om)|].
    destruct fuel as [|fuel]; [simpl in Hfuel; lia|].
    cbn [receive_all]. rewrite <- Hb, opaque_reads by (by eapply encrypted_record).
    unfold decrypt_incoming. rewrite Ha, Hk, (decrypt_encrypted _ _ _ _ Hm1 Hm).
    set (l1 := l <| rl_read_seq := _ |> <| rl_has_decrypted := true |>).
    assert (rl_read_seq l1 = rl_read_seq l + 1) as Hs1.
    { subst l1. destruct l. simpl in *. rewrite Z.mod_small; lia. }
    destruct (IH oms1 l1 fuel) as (l' & Hr & Hl' & Hk'); try done.
    + by rewrite Hs1.
    + subst l1. by destruct l.
    + lia.
    + simpl in Hseq. lia.
    + rewrite <- Hb, length_app in Hfuel. assert (length (opaque_encode om) ≠ 0%nat) by (by destruct (opaque_encode om)). lia.
    + exists l'. rewrite Hr. split_and!; [done| |done]. rewrite Hl', Hs1. cbn [length]. lia.
Qed.

(** ** Sending *)

Lemma send_all_app {A} (f : A → Sending) a b s :
  send_all f (a ++ b) s = send_then (send_all f a) (send_all f b) s.
Proof.
  revert s. induction a as [|x a IH]; intros s; [done|]. simpl. unfold send_then at 1 2 3.
  destruct (f x s) as [[s1|]|]; [|done..]. apply IH.
Qed.

(** The sender after records were queued under its key. *)
Definition sent_records (k : MessageKey) (s s' : Sender) (oms : list OpaqueMessage) : Prop :=
  concat (cv_chunks (snd_tls s')) = concat (cv_chunks (snd_tls s)) ++ concat (opaque_encode <$> oms) ∧
  rl_write_seq (snd_layer s') = rl_write_seq (snd_layer s) + Z.of_nat (length oms) ∧
  sends_with k (snd_layer s') ∧ snd_max_frag s' = snd_max_frag s.

(** Sealing under [k] works for what fits a record. *)
Definition seals (k : MessageKey) : Prop :=
  ∀ seq aad p, Z.of_nat (length p) ≤ MAX_FRAGMENT_LEN + 1 →
    ∃ c, aead_seal (mk_aead k) (mk_key k) (nonce_new (mk_iv k) seq) aad p = Some c.

Lemma encrypt_succeeds k m seq : seals k → plain_ok m → ∃ om, message_encrypt k m seq = Ok om.
Proof.
  intros Hs [Hk Hlen]. unfold message_encrypt.
  destruct (Hs seq (make_tls13_aad (Z.of_nat (encrypted_payload_len k (length (pm_payload m)))))
    (encode (pm_typ m) (pm_payload m))) as [c ->]; [|by eexists].
  rewrite (proj1 (typ_encoded _ _ Hk)), length_app. simpl. unfold MAX_FRAGMENT_LEN in *. lia.
Qed.

Lemma queue_bytes om s :
  concat (cv_chunks (snd_tls (queue_tls_message om s))) =
    concat (cv_chunks (snd_tls s)) ++ opaque_encode om.
Proof.
  unfold queue_tls_message, cv_append. pose proof (record_nonempty om).
  destruct (opaque_encode om) eqn:He; [done|]. destruct s as [? ? [] ? ? ? ?]. simpl.
  rewrite concat_app. simpl. by rewrite app_nil_r.
Qed.

Lemma send_one fuel k m s :
  seals k → plain_ok m → sends_with k (snd_layer s) →
  0 ≤ rl_write_seq (snd_layer s) < SEQ_SOFT_LIMIT →
  ∃ s' om, send_single_fragment (S fuel) m s = Some (Done s') ∧
    message_encrypt k m (rl_write_seq (snd_layer s)) = Ok om ∧ sent_records k s s' [om].
Proof.
  intros Hs Hm [Hk Ha] [Hz Hmax].
  destruct (encrypt_succeeds k m (rl_write_seq (snd_layer s)) Hs Hm) as [om Hom].
  assert ((rl_write_seq (snd_layer s) + 1) mod 2 ^ 64 = rl_write_seq (snd_layer s) + 1) as Hmod
    by (unfold SEQ_SOFT_LIMIT in *; rewrite Z.mod_small; lia).
  set (next := (snd_layer s) <| rl_write_seq := rl_write_seq (snd_layer s) + 1 |>).
  exists (queue_tls_message om (s <| snd_layer := next |>)), om.
  cbn [send_single_fragment]. unfold send_then, wants_close_before_encrypt, encrypt_exhausted, encrypt_outgoing, encrypt_exhausted.
  unfold SEQ_SOFT_LIMIT, SEQ_HARD_LIMIT in *.
  rewrite (proj2 (Z.eqb_neq _ _)) by lia. unfold send_done at 1. cbv beta iota.
  replace (_ <=? rl_write_seq (snd_layer s)) with false by (symmetry; apply Z.leb_gt; lia).
  rewrite Hk, Hom, Hmod. split_and!; [done|done|].
  unfold sent_records. rewrite queue_bytes.
  subst next. destruct s as [[] ? ? ? ? ? ?]. simpl in *. by rewrite app_nil_r.
Qed.

Lemma sent_nil k s : sends_with k (snd_layer s) → sent_records k s s [].
Proof. unfold sent_records. intros Hs. simpl. by rewrite app_nil_r, Z.add_0_r. Qed.

Lemma sent_app k s1 s2 s3 a b :
  sent_records k s1 s2 a → sent_records k s2 s3 b → sent_records k s1 s3 (a ++ b).
Proof.
  unfold sent_records. intros (A1 & A2 & A3 & A4) (B1 & B2 & B3 & B4).
  rewrite B1, A1, B2, A2, fmap_app, concat_app, length_app, <- app_assoc. split_and!; [done|lia|done|congruence].
Qed.

Lemma send_many fuel k ms s :
  seals k → Forall plain_ok ms → sends_with k (snd_layer s) →
  0 ≤ rl_write_seq (snd_layer s) → rl_write_seq (snd_layer s) + Z.of_nat (length ms) ≤ SEQ_SOFT_LIMIT →
  ∃ s' oms, send_all (send_single_fragment (S fuel)) ms s = Some (Done s') ∧
    encrypt_all k (rl_write_seq (snd_layer s)) ms = Ok oms ∧ sent_records k s s' oms ∧
    length oms = length ms.
Proof.
  intros Hs Hok. revert s. induction Hok as [|m ms Hm Hok IH]; intros s Hk Hz Hlim.
  - exists s, []. split_and!; try done. by apply sent_nil.
  - cbn [length] in Hlim. destruct (send_one fuel k m s) as (s1 & om & Hs1 & Hom & Hsent); [done..|lia|].
    pose proof Hsent as (_ & Hseq & Hk1 & _). cbn [length] in Hseq.
    destruct (IH s1) as (s' & oms & Hs' & Homs & Hsent' & Hlen); [done|lia|lia|].
    exists s', (om :: oms). cbn [send_all foldr encrypt_all]. unfold send_then. rewrite Hs1, Hom.
    rewrite Hseq in Homs. change (Z.of_nat 1) with 1 in Homs. cbn [mbind result_bind]. rewrite Homs. split_and!; [exact Hs'|done| |simpl; by rewrite Hlen].
    by apply (sent_app k s s1 s' [om]).
Qed.

(** Messages, one after the other: their fragments. *)
Lemma message_fragments_ok n m :
  (0 < n)%nat → Z.of_nat n ≤ MAX_FRAGMENT_LEN → craft_is_unknown (pm_typ m) = false →
  Forall plain_ok (fragment_message n m).
Proof.
  intros Hn Hmax Hk. unfold fragment_message, fragment_slice. apply Forall_fmap.
  eapply Forall_impl; [by apply chunks_sizes|]. intros c [_ Hc]. split; simpl; [done|lia].
Qed.

Lemma fragments_payload n m :
  (0 < n)%nat → concat (pm_payload <$> fragment_message n m) = pm_payload m.
Proof.
  intros Hn. unfold fragment_message, fragment_slice. rewrite <- list_fmap_compose.
  rewrite (list_fmap_ext _ id) by done. rewrite list_fmap_id. by apply concat_chunks.
Qed.

Definition all_fragments (n : nat) (ms : list PlainMessage) : list PlainMessage :=
  concat (fragment_message n <$> ms).

Lemma send_all_messages fuel k ms s :
  seals k → (0 < snd_max_frag s)%nat → Z.of_nat (snd_max_frag s) ≤ MAX_FRAGMENT_LEN →
  Forall (λ m, craft_is_unknown (pm_typ m) = false) ms → sends_with k (snd_layer s) →
  0 ≤ rl_write_seq (snd_layer s) →
  rl_write_seq (snd_layer s) + Z.of_nat (length (all_fragments (snd_max_frag s) ms)) ≤ SEQ_SOFT_LIMIT →
  ∃ s' oms, send_all (send_msg_encrypt (S fuel)) ms s = Some (Done s') ∧
    encrypt_all k (rl_write_seq (snd_layer s)) (all_fragments (snd_max_frag s) ms) = Ok oms ∧
    sent_records k s s' oms.
Proof.
  intros Hs Hn Hmax Hok. revert s Hn Hmax. induction Hok as [|m ms Hm Hok IH]; intros s Hn Hmax Hk Hz Hlim.
  - exists s, []. split_and!; try done. by apply sent_nil.
  - unfold all_fragments in *. cbn [fmap list_fmap concat] in *. rewrite length_app in Hlim.
    destruct (send_many fuel k (fragment_message (snd_max_frag s) m) s) as (s1 & o1 & Hs1 & He1 & Hr1 & Hl1);
      [done|by apply message_fragments_ok|done|done|lia|].
    pose proof Hr1 as (_ & Hseq & Hk1 & Hfrag). rewrite Hl1 in Hseq.
    destruct (IH s1) as (s' & o2 & Hs' & He2 & Hr2); rewrite ?Hfrag; try done; try lia.
    exists s', (o1 ++ o2). cbn [send_all foldr]. unfold send_then, send_msg_encrypt at 1. rewrite Hs1.
    split_and!; [exact Hs'| |by eapply sent_app].
    rewrite Hfrag, Hseq in He2. by apply encrypt_all_app.
Qed.

(** C20: Messages that are sent under a key, to a peer whose record layer has the same key and
    is at the same number, and whose records do not take the numbers past the soft limit
    (0xffffffffffff0000, at which a close is sent instead): sending ends, and the peer reads
    from the bytes, record after record, the fragments of the messages, with their types and in
    their order, up to the number at which the next message will be sent. *)
Theorem protected_messages_received fuel k ms s peer :
  seals k → (0 < snd_max_frag s)%nat → Z.of_nat (snd_max_frag s) ≤ MAX_FRAGMENT_LEN →
  Forall (λ m, craft_is_unknown (pm_typ m) = false) ms →
  sends_with k (snd_layer s) → receives_with k peer →
  0 ≤ rl_write_seq (snd_layer s) → rl_read_seq peer = rl_write_seq (snd_layer s) →
  rl_write_seq (snd_layer s) + Z.of_nat (length (all_fragments (snd_max_frag s) ms)) ≤ SEQ_SOFT_LIMIT →
  ∃ s' wire peer', send_all (send_msg_encrypt (S fuel)) ms s = Some (Done s') ∧
    concat (cv_chunks (snd_tls s')) = concat (cv_chunks (snd_tls s)) ++ wire ∧
    receive_all (length wire) wire peer =
      Some (as_tls13 <$> all_fragments (snd_max_frag s) ms, peer') ∧
    rl_read_seq peer' = rl_write_seq (snd_layer s') ∧
    concat (pm_payload <$> (as_tls13 <$> all_fragments (snd_max_frag s) ms)) =
      concat (pm_payload <$> ms).
Proof.
  intros Hs Hn Hmax Hok Hk Hp Hz Heq Hlim.
  destruct (send_all_messages fuel k ms s) as (s' & oms & Hs' & He & Htls & Hseq & _ & _); [done..|].
  pose proof He as Hlen. rewrite <- Heq in He.
  destruct (receive_encrypted k (all_fragments (snd_max_frag s) ms) oms peer
    (length (concat (opaque_encode <$> oms)))) as (peer' & Hr & Hread & _); try done; try lia.
  - unfold all_fragments. apply Forall_concat, Forall_fmap. eapply Forall_impl; [exact Hok|].
    intros m Hm. by apply message_fragments_ok.
  - unfold SEQ_SOFT_LIMIT in *. lia.
  - exists s', (concat (opaque_encode <$> oms)), peer'. split_and!; try done.
    + rewrite Hread, Hseq, Heq. f_equal. f_equal. symmetry. by eapply encrypt_all_length.
    + rewrite <- list_fmap_compose. unfold all_fragments.
      clear -Hn. induction ms as [|m ms IH]; [done|]. cbn [fmap list_fmap concat].
      rewrite fmap_app, concat_app, IH. f_equal.
      rewrite (list_fmap_ext (pm_payload ∘ as_tls13) pm_payload) by (by intros ? []).
      exact (fragments_payload (snd_max_frag s) m Hn).
Qed.
End Protection.

(** ** Nonces *)

Lemma lxor_cancel_r a b c : Z.lxor a c = Z.lxor b c → a = b.
Proof.
  intros Hx. rewrite <- (Z.lxor_0_r a), <- (Z.lxor_0_r b), <- (Z.lxor_nilpotent c).
  by rewrite <- !Z.lxor_assoc, Hx.
Qed.

Lemma zip_lxor_inj (a b c : list Z) :
  length a = length b → (length a ≤ length c)%nat →
  zip_with Z.lxor a c = zip_with Z.lxor b c → a = b.
Proof.
  revert b c. induction a as [|x a IH]; intros [|y b] [|z c] Hl Hc Hx; simplify_eq/=; try done; [lia|].
  f_equal; [by eapply lxor_cancel_r|]. apply (IH b c); [done|lia|done].
Qed.

Lemma be_bytes_inj n a b :
  0 ≤ a < 256 ^ Z.of_nat n → 0 ≤ b < 256 ^ Z.of_nat n → be_bytes n a = be_bytes n b → a = b.
Proof. intros Ha Hb Hab. rewrite <- (of_be_bytes n a), <- (of_be_bytes n b) by done. by rewrite Hab. Qed.

(** Different numbers give different nonces. *)
Lemma nonce_new_inj iv a b :
  length iv = 12%nat → 0 ≤ a < 2 ^ 64 → 0 ≤ b < 2 ^ 64 → nonce_new iv a = nonce_new iv b → a = b.
Proof.
  intros Hiv Ha Hb Hn. unfold nonce_new in Hn.
  apply zip_lxor_inj in Hn; [|by rewrite !length_app, !be_bytes_length|
    rewrite length_app, length_replicate, be_bytes_length; lia].
  apply (inj (app _)) in Hn. by apply (be_bytes_inj 8).
Qed.

(** What can be done to a record layer, except to read. *)
Inductive LayerOp :=
  | LO_Encrypt (m : PlainMessage)
  | LO_PrepareEncrypter (k : MessageKey)
  | LO_StartEncrypting
  | LO_SetEncrypter (k : MessageKey)
  | LO_Decrypt (m : OpaqueMessage)
  | LO_SetDecrypter (k : MessageKey)
  | LO_SetTrialDecrypter (k : MessageKey) (max_length : Z)
  | LO_FinishTrial.

Section Nonces.
Context `{Aead : RingAead}.

Definition layer_step (op : LayerOp) (l : RecordLayer) : outcome RecordLayer :=
  match op with
  | LO_Encrypt m => snd <$> encrypt_outgoing m l
  | LO_PrepareEncrypter k => Done (prepare_message_encrypter k l)
  | LO_StartEncrypting => Done (start_encrypting l)
  | LO_SetEncrypter k => Done (set_message_encrypter k l)
  | LO_Decrypt m => Done (snd (decrypt_incoming m l))
  | LO_SetDecrypter k => Done (set_message_decrypter k l)
  | LO_SetTrialDecrypter k n => Done (set_message_decrypter_with_trial_decryption k n l)
  | LO_FinishTrial => Done (finish_trial_decryption l)
  end.

Definition sets_key (op : LayerOp) : bool :=
  match op with LO_PrepareEncrypter _ | LO_SetEncrypter _ => true | _ => false end.

(** What the AEAD was given as the nonce, for an AEAD that writes it in front of what it seals;
    with the count of the keys that were set before. *)
Definition sealed_nonce (epoch : nat) (op : LayerOp) (l : RecordLayer) : list (nat * list Z) :=
  match op with
  | LO_Encrypt m =>
      match encrypt_outgoing m l with
      | Done (om, _) => [(epoch, firstn 12 (om_payload om))]
      | Panic => []
      end
  | _ => []
  end.

Fixpoint sealed_nonces (epoch : nat) (ops : list LayerOp) (l : RecordLayer) : list (nat * list Z) :=
  match ops with
  | [] => []
  | op :: ops =>
      match layer_step op l with
      | Panic => []
      | Done l' => sealed_nonce epoch op l ++ sealed_nonces (if sets_key op then S epoch else epoch) ops l'
      end
  end.
End Nonces.

(** An AEAD like [A] that writes the nonce it is given in front of what it seals. *)
Definition recording (A : RingAead) : RingAead := {|
  aead_key_len := aead_key_len;
  aead_tag_len := aead_tag_len;
  aead_seal a k n aad p := app n <$> aead_seal a k n aad p;
  aead_open a k n aad c := aead_open a k n aad (skipn (length n) c);
|}.

Section Nonces.
Context (A : RingAead).
Abbreviation step := (layer_step (Aead := recording A)).
Abbreviation nonce_of := (sealed_nonce (Aead := recording A)).
Abbreviation nonces_of := (sealed_nonces (Aead := recording A)).

Definition iv_ok (k : MessageKey) : Prop := length (mk_iv k) = 12%nat.

Definition op_ok (op : LayerOp) : Prop :=
  match op with LO_PrepareEncrypter k | LO_SetEncrypter k => iv_ok k | _ => True end.

Definition layer_ok (l : RecordLayer) : Prop :=
  0 ≤ rl_write_seq l < 2 ^ 64 ∧ (∀ k, rl_encrypter l = Some k → iv_ok k).

Lemma decrypt_keeps_writing `{RingAead} m l :
  let l' := snd (decrypt_incoming m l) in
  rl_encrypter l' = rl_encrypter l ∧ rl_write_seq l' = rl_write_seq l.
Proof.
  unfold decrypt_incoming, doing_trial_decryption. destruct l as [? ? ? ? ? ? ds tr]. simpl.
  by repeat case_match; simplify_eq/=.
Qed.

(** The nonce of a record that is sealed under a key. *)
Lemma sealed_with k m seq om :
  iv_ok k → message_encrypt (H := recording A) k m seq = Ok om →
  firstn 12 (om_payload om) = nonce_new (mk_iv k) seq.
Proof.
  unfold message_encrypt, iv_ok. intros Hiv. cbn [aead_seal recording].
  destruct (@aead_seal A _ _ _ _ _) as [c|]; [|done]. intros [= <-]. cbn [om_payload].
  apply take_app_length'. unfold nonce_new.
  rewrite length_zip_with, length_app, length_replicate, be_bytes_length, Hiv. done.
Qed.

(** An encryption under a key, or a step that encrypts nothing. *)
Lemma layer_step_cases op epoch l l' :
  step op l = Done l' → layer_ok l → op_ok op →
  layer_ok l' ∧
  ((∃ k, nonce_of epoch op l = [(epoch, nonce_new (mk_iv k) (rl_write_seq l))] ∧ sets_key op = false ∧
      rl_encrypter l = Some k ∧ rl_encrypter l' = Some k ∧ rl_write_seq l' = rl_write_seq l + 1) ∨
   (nonce_of epoch op l = [] ∧
    (sets_key op = true ∨ rl_encrypter l' = rl_encrypter l ∧ rl_write_seq l' = rl_write_seq l))).
Proof.
  intros Hs [[Hz Hmax] Hiv] Hop. destruct op; simpl in *.
  1: { unfold encrypt_outgoing, encrypt_exhausted, SEQ_HARD_LIMIT in Hs.
    destruct (Z.leb_spec 0xfffffffffffffffe (rl_write_seq l)); [done|].
    destruct (rl_encrypter l) as [k|] eqn:Hk; [|done].
    destruct (message_encrypt _ _ _) as [om|] eqn:Hom; [|done]. injection Hs as <-.
    pose proof (sealed_with _ _ _ _ (Hiv k eq_refl) Hom) as Hsealed.
    assert (nonce_of epoch (LO_Encrypt m) l = [(epoch, nonce_new (mk_iv k) (rl_write_seq l))]) as Hn.
    { unfold sealed_nonce, encrypt_outgoing, encrypt_exhausted, SEQ_HARD_LIMIT.
      rewrite (proj2 (Z.leb_gt _ _)) by lia. rewrite Hk, Hom. by rewrite Hsealed. }
    assert ((rl_write_seq l + 1) mod 2 ^ 64 = rl_write_seq l + 1) as Hmod by (rewrite Z.mod_small; lia).
    rewrite Hmod. destruct l. simpl in *. split; [split; simpl; [lia|intros k' Hk'; apply Hiv; congruence]|].
    left. by exists k. }
  4: { injection Hs as <-. destruct (@decrypt_keeps_writing (recording A) m l) as [He Hw].
    split; [split; rewrite ?He, ?Hw; done|]. right. by split; [|right]. }
  all: injection Hs as <-; destruct l; unfold layer_ok; cbn in *.
  1, 3: split; [split; [lia|by intros ? [= <-]]|]; right; split; [done|by left].
  all: split; [by split|]; right; split; [done|by right].
Qed.

(** Later nonces: of a later key, or of this key at a number that is not lower. *)
Lemma nonces_later ops epoch l e n :
  layer_ok l → Forall op_ok ops → (e, n) ∈ nonces_of epoch ops l →
  (epoch < e)%nat ∨
  (e = epoch ∧ ∃ k seq, rl_encrypter l = Some k ∧ n = nonce_new (mk_iv k) seq ∧
    rl_write_seq l ≤ seq < 2 ^ 64).
Proof.
  revert epoch l. induction ops as [|op ops IH]; intros epoch l Hl Hops Hin; [by apply elem_of_nil in Hin|].
  apply Forall_cons in Hops as [Hop Hops]. cbn [sealed_nonces] in Hin.
  destruct (step op l) as [l'|] eqn:Hs; [|by apply elem_of_nil in Hin].
  destruct (layer_step_cases op epoch l l' Hs Hl Hop) as [Hl' [(k & Hn & Hset & Hk & Hk' & Hw)|[Hn Hcase]]];
    rewrite Hn in Hin; simpl in Hin.
  - rewrite Hset in Hin. apply elem_of_cons in Hin as [Heq|Hin].
    + injection Heq as -> ->. right. split; [done|]. exists k, (rl_write_seq l).
      destruct Hl as [? _]. by split_and!; [..|lia].
    + destruct (IH epoch l' Hl' Hops Hin) as [|(-> & k' & seq & Hk2 & -> & Hseq)]; [by left|]. right.
      split; [done|]. rewrite Hk' in Hk2. injection Hk2 as <-. exists k, seq. by split_and!; [..|lia|lia].
  - destruct (sets_key op) eqn:Hset.
    + left. destruct (IH (S epoch) l' Hl' Hops Hin) as [|(-> & _)]; lia.
    + destruct Hcase as [|[He Hw]]; [done|].
      destruct (IH epoch l' Hl' Hops Hin) as [|(-> & k & seq & Hk & -> & Hseq)]; [by left|].
      right. split; [done|]. exists k, seq. by rewrite <- He, <- Hw.
Qed.

(** C21: Whatever is done to a record layer, one operation after the other: between two settings
    of an encryption key, the AEAD is never given the same nonce twice to seal with. The nonces
    are read off the sealed records, for an AEAD that behaves like any given one and writes the
    nonce it is given in front of what it seals. *)
Theorem no_nonce_twice ops l :
  layer_ok l → Forall op_ok ops → NoDup (nonces_of 0 ops l).
Proof.
  generalize 0%nat as epoch. revert l. induction ops as [|op ops IH]; intros l epoch Hl Hops; [constructor|].
  apply Forall_cons in Hops as [Hop Hops]. cbn [sealed_nonces].
  destruct (step op l) as [l'|] eqn:Hs; [|constructor].
  destruct (layer_step_cases op epoch l l' Hs Hl Hop) as [Hl' [(k & Hn & Hset & Hk & Hk' & Hw)|[Hn _]]];
    rewrite Hn; simpl; [|by apply IH].
  rewrite Hset. constructor; [|by apply IH]. intros Hin.
  destruct (nonces_later ops epoch l' _ _ Hl' Hops Hin) as [|(_ & k' & seq & Hk2 & Heq & Hseq)]; [lia|].
  rewrite Hk' in Hk2. injection Hk2 as <-. destruct Hl as [Hz Hiv].
  apply nonce_new_inj in Heq; [lia|by apply Hiv|lia|lia].
Qed.

End Nonces.

(** ** The end of the numbers

    At the soft limit a record is preceded by an alert, which is a record at the soft limit,
    and so on. *)
Theorem soft_limit_never_ends `{RingAead} fuel m s :
  is_encrypting (snd_layer s) = true → rl_write_seq (snd_layer s) = SEQ_SOFT_LIMIT →
  (1 < snd_max_frag s)%nat → send_single_fragment fuel m s = None.
Proof.
  intros He Hseq Hfrag. revert m. induction fuel as [|fuel IH]; intros m; [done|].
  cbn [send_single_fragment]. unfold send_then at 1, wants_close_before_encrypt.
  rewrite (proj2 (Z.eqb_eq _ _) Hseq), He.
  assert (∃ f fs, fragment_message (snd_max_frag s) (plain_of_message (build_alert LV_Warning AL_CloseNotify)) = f :: fs)
    as (f & fs & ->) by (destruct (snd_max_frag s); [lia|by eexists _, _]).
  cbn [send_all foldr]. unfold send_then at 1. by rewrite IH.
Qed.

(** ** Buffers *)

(** What is read from a buffer are its first bytes, and the others stay. *)
Lemma consume_chunks_bytes used cs : concat (consume_chunks used cs) = skipn used (concat cs).
Proof.
  revert used. induction cs as [|c cs IH]; intros used; simpl; [by rewrite skipn_nil|].
  destruct (Nat.ltb_spec used (length c)); simpl.
  - rewrite skipn_app. by replace (used - length c)%nat with 0%nat by lia.
  - rewrite IH, skipn_app, (skipn_all2 c) by lia. done.
Qed.

Lemma consume_chunks_count used cs : (length (consume_chunks used cs) ≤ length cs)%nat.
Proof.
  revert used. induction cs as [|c cs IH]; intros used; simpl; [done|]. case_match; simpl; [lia|].
  specialize (IH (used - length c)%nat). lia.
Qed.

Lemma consume_chunks_nonempty used cs :
  Forall (λ c, c ≠ []) cs → Forall (λ c, c ≠ []) (consume_chunks used cs).
Proof.
  intros Hne. revert used. induction Hne as [|c cs Hc Hne IH]; intros used; simpl; [constructor|].
  destruct (Nat.ltb_spec used (length c)); [|apply IH]. constructor; [|done].
  intros Hs. apply (f_equal length) in Hs. rewrite length_skipn in Hs. simpl in Hs. lia.
Qed.

Lemma read_chunks_bytes fuel n cs :
  Forall (λ c, c ≠ []) cs → (length cs + n ≤ fuel)%nat →
  let '(bytes, cs') := read_chunks fuel n cs in
  bytes = firstn n (concat cs) ∧ concat cs' = skipn n (concat cs).
Proof.
  revert n cs. induction fuel as [|fuel IH]; intros n cs Hne Hfuel.
  { destruct cs; simpl in *; [|lia]. by destruct n; simpl in *; [|lia]. }
  destruct n as [|n]; [by destruct cs|]. destruct cs as [|c cs]; [done|].
  cbn [read_chunks]. set (used := Nat.min (S n) (length c)).
  apply Forall_cons in Hne as [Hc Hne].
  assert (0 < used ≤ length c)%nat as Hused by (subst used; destruct c; simpl in *; [done|lia]).
  assert (used ≤ S n)%nat by (subst used; lia).
  pose proof (consume_chunks_count used (c :: cs)).
  assert (Forall (λ c, c ≠ []) (consume_chunks used (c :: cs))) as Hne'
    by (apply consume_chunks_nonempty; by constructor).
  specialize (IH (S n - used)%nat (consume_chunks used (c :: cs)) Hne' ltac:(simpl in *; lia)).
  destruct (read_chunks _ _ _) as [rest cs']. destruct IH as [-> ->].
  rewrite consume_chunks_bytes, drop_drop. cbn [concat]. split; [|f_equal; lia].
  rewrite firstn_skipn_comm. replace (used + (S n - used))%nat with (S n) by lia.
  trans (take used (take (S n) (c ++ concat cs)) ++ drop used (take (S n) (c ++ concat cs)));
    [|apply take_drop]. f_equal.
  rewrite firstn_firstn, firstn_app. replace (used `min` S n)%nat with used by lia.
  replace (used - length c)%nat with 0%nat by lia. simpl. by rewrite app_nil_r.
Qed.

(** Reading from a buffer gives its first bytes and leaves the others, in order. *)
Theorem buffer_reads_first n b :
  Forall (λ c, c ≠ []) (cv_chunks b) →
  fst (cv_read n b) = firstn n (concat (cv_chunks b)) ∧
  concat (cv_chunks (snd (cv_read n b))) = skipn n (concat (cv_chunks b)).
Proof.
  intros Hne. unfold cv_read.
  pose proof (read_chunks_bytes (length (cv_chunks b) + n) n (cv_chunks b) Hne ltac:(done)) as Hr.
  destruct (read_chunks _ _ _) as [bytes cs]. destruct b. exact Hr.
Qed.
