(* ===== verification/TlsHelloFacts.v ===== *)
(** * TlsHelloFacts: a client hello is read as it was written

    The instances of [Wire] for the parts of a client hello, up to the handshake message. *)

From S2P Require Import Prelude TlsCodec TlsEnums TlsHello TlsMessages TlsWire.

(** ** Newtypes *)

#[export] Instance protocol_name_wire : Wire ProtocolName := {
  wire_ok x := wire_ok (pn_payload x); canon x := x }.
#[export] Instance protocol_name_laws : WireLaws ProtocolName.
Proof.
  split; intros [p].
  - intros b Hp. by apply (wire_appends p).
  - intros Hp. exact (reads_bind_ret payload_u8_read mkProtocolName _ _ (wire_reads p Hp)).
Qed.
#[export] Instance protocol_name_element : WireElement ProtocolName.
Proof. split. by intros [[p]]. Qed.

#[export] Instance binder_wire : Wire PresharedKeyBinder := {
  wire_ok x := wire_ok (binder_payload x); canon x := x }.
#[export] Instance binder_laws : WireLaws PresharedKeyBinder.
Proof.
  split; intros [p].
  - intros b Hp. by apply (wire_appends p).
  - intros Hp. exact (reads_bind_ret payload_u8_read mkBinder _ _ (wire_reads p Hp)).
Qed.
#[export] Instance binder_element : WireElement PresharedKeyBinder.
Proof. split. by intros [[p]]. Qed.

#[export] Instance responder_id_wire : Wire ResponderId := {
  wire_ok x := wire_ok (rid_payload x); canon x := x }.
#[export] Instance responder_id_laws : WireLaws ResponderId.
Proof.
  split; intros [p].
  - intros b Hp. by apply (wire_appends p).
  - intros Hp. exact (reads_bind_ret payload_u16_read mkResponderId _ _ (wire_reads p Hp)).
Qed.
#[export] Instance responder_id_element : WireElement ResponderId.
Proof. split. by intros [[p]]. Qed.

(** ** Named numbers as elements: none has width zero *)

Lemma enum_nonempty {E} `{TlsEnum E} : enum_width (E := E) ≠ 0%nat → WireElement E.
Proof. intros Hw. split. intros v _ Hv. apply Hw. by rewrite <- (enum_encoding_length v), Hv. Qed.

#[export] Instance ECPointFormat_element : WireElement ECPointFormat. Proof. by apply enum_nonempty. Qed.
#[export] Instance NamedGroup_element : WireElement NamedGroup. Proof. by apply enum_nonempty. Qed.
#[export] Instance SignatureScheme_element : WireElement SignatureScheme. Proof. by apply enum_nonempty. Qed.
#[export] Instance PSKKeyExchangeMode_element : WireElement PSKKeyExchangeMode. Proof. by apply enum_nonempty. Qed.
#[export] Instance ProtocolVersion_element : WireElement ProtocolVersion. Proof. by apply enum_nonempty. Qed.
#[export] Instance CertificateCompressionAlgorithm_element :
  WireElement CertificateCompressionAlgorithm. Proof. by apply enum_nonempty. Qed.
#[export] Instance CipherSuite_element : WireElement CipherSuite. Proof. by apply enum_nonempty. Qed.
#[export] Instance Compression_element : WireElement Compression. Proof. by apply enum_nonempty. Qed.

(** ** Key shares and pre-shared keys *)

#[export] Instance key_share_wire : Wire KeyShareEntry := {
  wire_ok k := wire_ok (ks_group k) && wire_ok (ks_payload k);
  canon k := mkKeyShareEntry (canon (ks_group k)) (ks_payload k) }.
#[export] Instance key_share_laws : WireLaws KeyShareEntry.
Proof.
  split; intros [g p].
  - intros b Hk. cbn [wire_ok key_share_wire ks_group ks_payload] in Hk. bool_prop.
    change (get_encoding (mkKeyShareEntry g p)) with (encode p (get_encoding g)).
    change (encode (mkKeyShareEntry g p) b) with (encode p (encode g b)).
    rewrite !(wire_appends p), !(wire_appends g) by done. by rewrite app_assoc.
  - intros Hk. cbn [wire_ok key_share_wire ks_group ks_payload] in Hk. bool_prop.
    change (get_encoding (mkKeyShareEntry g p)) with (encode p (get_encoding g)).
    rewrite (wire_appends p) by done.
    eapply reads_bind; [exact (wire_reads g ltac:(done))|].
    apply (reads_bind_ret payload_u16_read (mkKeyShareEntry _)). exact (wire_reads p ltac:(done)).
Qed.
#[export] Instance key_share_element : WireElement KeyShareEntry.
Proof. split. by intros [g [p]]. Qed.

#[export] Instance psk_identity_wire : Wire PresharedKeyIdentity := {
  wire_ok i := wire_ok (psk_identity i) && (0 <=? psk_obfuscated_ticket_age i) &&
               (psk_obfuscated_ticket_age i <? 256 ^ 4);
  canon i := i }.
#[export] Instance psk_identity_laws : WireLaws PresharedKeyIdentity.
Proof.
  split; intros [p age].
  - intros b Hi. cbn [wire_ok psk_identity_wire psk_identity psk_obfuscated_ticket_age] in Hi. bool_prop.
    change (get_encoding (mkPskIdentity p age)) with (get_encoding p ++ be_bytes 4 age).
    change (encode (mkPskIdentity p age) b) with (encode p b ++ be_bytes 4 age).
    rewrite (wire_appends p) by done. by rewrite app_assoc.
  - intros Hi. cbn [wire_ok psk_identity_wire psk_identity psk_obfuscated_ticket_age] in Hi. bool_prop.
    change (get_encoding (mkPskIdentity p age)) with (get_encoding p ++ be_bytes 4 age).
    eapply reads_bind; [exact (wire_reads p ltac:(done))|].
    apply (reads_bind_ret u32_read (mkPskIdentity _)), reads_uint. lia.
Qed.
#[export] Instance psk_identity_element : WireElement PresharedKeyIdentity.
Proof. split. by intros [[p] age]. Qed.

#[export] Instance psk_offer_wire : Wire PresharedKeyOffer := {
  wire_ok o := wire_ok (psk_identities o) && wire_ok (psk_binders o);
  canon o := mkPskOffer (canon (psk_identities o)) (canon (psk_binders o)) }.
#[export] Instance psk_offer_laws : WireLaws PresharedKeyOffer.
Proof.
  split; intros [ids bs].
  - intros b Ho. cbn [wire_ok psk_offer_wire psk_identities psk_binders] in Ho. bool_prop.
    change (get_encoding (mkPskOffer ids bs)) with (encode bs (get_encoding ids)).
    change (encode (mkPskOffer ids bs) b) with (encode bs (encode ids b)).
    rewrite !(wire_appends bs), !(wire_appends ids) by done. by rewrite app_assoc.
  - intros Ho. cbn [wire_ok psk_offer_wire psk_identities psk_binders] in Ho. bool_prop.
    change (get_encoding (mkPskOffer ids bs)) with (encode bs (get_encoding ids)).
    rewrite (wire_appends bs) by done.
    eapply reads_bind; [exact (wire_reads ids ltac:(done))|].
    apply (reads_bind_ret vec_read (mkPskOffer _)). exact (wire_reads bs ltac:(done)).
Qed.

(** ** Names of servers

    A host name that the reader takes for one; other kinds of names would be read to the end
    of the list. *)
#[export] Instance server_name_wire `{DnsNames} : Wire ServerName := {
  wire_ok s := match s with
               | mkServerName SN_HostName (HostName n) =>
                   dns_name_ok n && (Z.of_nat (length n) <? 256 ^ 2)
               | _ => false
               end;
  canon s := s }.
#[export] Instance server_name_laws `{DnsNames} : WireLaws ServerName.
Proof.
  split; intros [t p]; intros; destruct t; try done; destruct p as [n|]; try done;
    match goal with Hs : wire_ok _ = true |- _ => cbn in Hs; apply andb_true_iff in Hs as [Hd Hl] end.
  - change (encode (mkServerName SN_HostName (HostName n)) b)
      with ((encode SN_HostName b ++ be_bytes 2 (Z.of_nat (length n))) ++ n).
    rewrite (wire_appends SN_HostName) by done. by rewrite <- !app_assoc.
  - change (get_encoding (mkServerName SN_HostName (HostName n)))
      with ((get_encoding SN_HostName ++ be_bytes 2 (Z.of_nat (length n))) ++ n).
    rewrite <- app_assoc.
    eapply reads_bind; [exact (wire_reads SN_HostName ltac:(done))|].
    apply (reads_bind_ret read_hostname (mkServerName SN_HostName)). unfold read_hostname.
    rewrite <- (app_nil_r (be_bytes 2 _ ++ n)).
    eapply reads_bind; [apply (reads_counted "u8" 2 n mkPayloadU16); lia|].
    cbn [p16_bytes]. rewrite Hd. apply reads_ret.
Qed.
#[export] Instance server_name_element `{DnsNames} : WireElement ServerName.
Proof. split. intros [t p]; destruct t; try done; by destruct p. Qed.

(** ** Certificate status requests, of the one kind that is known *)

#[export] Instance csr_wire : Wire CertificateStatusRequest := {
  wire_ok c := match c with
               | Ocsp o => wire_ok (ocsp_responder_ids o) && wire_ok (ocsp_extensions o)
               | CSR_Unknown _ _ => false
               end;
  canon c := c }.
#[export] Instance csr_laws : WireLaws CertificateStatusRequest.
Proof.
  split; intros [[ids ext]|]; try done.
  - intros b Hc. cbn [wire_ok csr_wire ocsp_responder_ids ocsp_extensions] in Hc.
    apply andb_true_iff in Hc as [Hids Hext].
    change (get_encoding (Ocsp (mkOcsp ids ext)))
      with (encode ext (encode ids (get_encoding CY_OCSP))).
    change (encode (Ocsp (mkOcsp ids ext)) b) with (encode ext (encode ids (encode CY_OCSP b))).
    rewrite !(wire_appends ext), !(wire_appends ids), (wire_appends CY_OCSP) by done.
    by rewrite !app_assoc.
  - intros Hc. cbn [wire_ok csr_wire ocsp_responder_ids ocsp_extensions] in Hc.
    apply andb_true_iff in Hc as [Hids Hext].
    change (get_encoding (Ocsp (mkOcsp ids ext)))
      with (encode ext (encode ids (get_encoding CY_OCSP))).
    rewrite (wire_appends ext), (wire_appends ids), <- app_assoc by done.
    eapply reads_bind; [exact (wire_reads CY_OCSP ltac:(done))|].
    rewrite decide_True by done.
    apply (reads_bind_ret ocsp_read Ocsp). unfold ocsp_read.
    assert (canon ids = ids) as Hcanon by (simpl; clear; induction ids; [done|simpl; by f_equal]).
    pose proof (wire_reads ids Hids) as Hr. rewrite Hcanon in Hr.
    eapply reads_bind; [exact Hr|].
    exact (reads_bind_ret payload_u16_read (mkOcsp ids) _ _ (wire_reads ext Hext)).
Qed.

(** ** Extensions *)

Section Extensions.
Context `{DnsNames}.

(** The types whose contents are read; the two empty extensions when they are empty. *)
Definition read_further (typ : ExtensionType) (contents : list Z) : bool :=
  match typ with
  | ET_ECPointFormats | ET_EllipticCurves | ET_SignatureAlgorithms | ET_ServerName
  | ET_SessionTicket | ET_ALProtocolNegotiation | ET_SupportedVersions | ET_KeyShare
  | ET_PSKKeyExchangeModes | ET_PreSharedKey | ET_Cookie | ET_StatusRequest
  | ET_TransportParameters | ET_TransportParametersDraft | ET_CompressCertificate => true
  | ET_ExtendedMasterSecret | ET_EarlyData => negb (any_left contents)
  | _ => false
  end.

Definition contents_ok (e : ClientExtension) : bool :=
  match e with
  | EcPointFormats l => wire_ok l
  | NamedGroups l => wire_ok l
  | SignatureAlgorithms l => wire_ok l
  | CE_ServerName l => wire_ok l
  | SessionTicket _ | ExtendedMasterSecretRequest | EarlyData => true
  | Protocols l => wire_ok l
  | SupportedVersions l => wire_ok l
  | CE_KeyShare l => wire_ok l
  | PresharedKeyModes l => wire_ok l
  | PresharedKey o => wire_ok o
  | Cookie c => wire_ok c
  | CE_CertificateStatusRequest c => wire_ok c
  | TransportParameters _ | TransportParametersDraft _ => true
  | CompressCertificate l => wire_ok l
  | CE_Unknown u =>
      wire_ok (ux_typ u) && negb (read_further (canon (ux_typ u)) (payload_bytes (ux_payload u)))
  | CE_CraftPadding _ => false
  end.

(** An empty ticket is read as a request for one. *)
Definition canon_extension (e : ClientExtension) : ClientExtension :=
  match e with
  | EcPointFormats l => EcPointFormats (canon l)
  | NamedGroups l => NamedGroups (canon l)
  | SignatureAlgorithms l => SignatureAlgorithms (canon l)
  | CE_ServerName l => CE_ServerName (canon l)
  | SessionTicket (TicketOffer (mkPayload [])) => SessionTicket TicketRequest
  | Protocols l => Protocols (canon l)
  | SupportedVersions l => SupportedVersions (canon l)
  | CE_KeyShare l => CE_KeyShare (canon l)
  | PresharedKeyModes l => PresharedKeyModes (canon l)
  | PresharedKey o => PresharedKey (canon o)
  | CompressCertificate l => CompressCertificate (canon l)
  | CE_Unknown u => CE_Unknown (mkUnknownExtension (canon (ux_typ u)) (ux_payload u))
  | e => e
  end.

#[export] Instance client_extension_wire : Wire ClientExtension := {
  wire_ok e := contents_ok e &&
    (Z.of_nat (length (client_extension_body e [])) <? 256 ^ 2);
  canon := canon_extension }.

Lemma body_appends e b :
  contents_ok e = true → client_extension_body e b = b ++ client_extension_body e [].
Proof.
  intros He. destruct e as [| | | |[]| | | | | | | | | | | | |u|]; try done;
    cbn [client_extension_body contents_ok] in *;
    first [by rewrite app_nil_r | exact (wire_appends _ b He)].
Qed.

Lemma reads_whole {A} (m : Read A) w x : Reads m w x → m w = Ok (x, []).
Proof. intros Hm. specialize (Hm []). by rewrite app_nil_r in Hm. Qed.

Lemma unknown_contents typ contents :
  read_further typ contents = false →
  client_extension_contents typ contents = Ok (CE_Unknown (mkUnknownExtension typ (mkPayload contents)), []).
Proof.
  intros Hr. destruct typ; try done; simpl in *; apply negb_false_iff in Hr; unfold if_left; by rewrite Hr.
Qed.

Lemma contents_read e :
  contents_ok e = true →
  client_extension_contents (canon (get_type e)) (client_extension_body e []) =
    Ok (canon e, []).
Proof.
  intros He.
  destruct e as [l|l|l|l|[|[[]]]|l|l|l|l|o|c| |c| | | |l|[t [w]]|]; try done.
  all: try (rewrite (canon_known (get_type _)) by done; simpl get_type; simpl client_extension_contents;
    apply reads_whole;
    first [ exact (reads_bind_ret _ _ _ _ (wire_reads _ He))
          | exact (reads_bind_ret vec_read _ _ _ (wire_reads l He)) ]).
  simpl in He. apply andb_true_iff in He as [_ He]. apply negb_true_iff in He.
  by apply unknown_contents.
Qed.

#[export] Instance client_extension_laws : WireLaws ClientExtension.
Proof.
  assert (∀ e b, wire_ok e = true →
    encode e b = b ++ be_bytes 2 (enum_get (get_type e)) ++
      be_bytes 2 (Z.of_nat (length (client_extension_body e []))) ++ client_extension_body e []) as Henc.
  { intros e b He. cbn [wire_ok client_extension_wire] in He. apply andb_true_iff in He as [He _].
    change (encode e b) with
      (nested LL_U16 (client_extension_body e) (b ++ be_bytes 2 (enum_get (get_type e)))).
    rewrite (nested_app _ _ _ _ (λ b, body_appends e b He)). by rewrite <- app_assoc. }
  split.
  - intros e b He. unfold get_encoding. by rewrite !Henc.
  - intros e He. unfold get_encoding. rewrite Henc by done. rewrite app_nil_l.
    cbn [wire_ok client_extension_wire] in He. apply andb_true_iff in He as [He Hlen].
    assert (wire_ok (get_type e) = true) as Ht.
    { destruct e; try done. simpl in He. by apply andb_true_iff in He as [? _]. }
    eapply reads_bind; [exact (wire_reads (get_type e) Ht)|].
    eapply reads_bind; [apply reads_uint; apply Z.ltb_lt in Hlen; simpl Z.of_nat; lia|].
    rewrite <- (app_nil_r (client_extension_body e [])) at 2.
    eapply reads_bind; [apply reads_take_n; lia|].
    intros rest. unfold mbind, read_bind.
    by rewrite (on_sub_ok _ _ _ _ (contents_read e He)).
Qed.

#[export] Instance client_extension_element : WireElement ClientExtension.
Proof.
  split. intros e He Hn.
  pose proof (wire_reads e He []) as Hr. by rewrite Hn in Hr.
Qed.
End Extensions.

(** ** Client hellos *)

#[export] Instance random_wire : Wire Random := {
  wire_ok x := (length (random_bytes x) =? 32)%nat; canon x := x }.
#[export] Instance random_laws : WireLaws Random.
Proof.
  split; intros [w].
  - done.
  - intros Hx. simpl in Hx. apply Nat.eqb_eq in Hx.
    exact (reads_bind_ret (take_or (MissingData "Random") 32) mkRandom _ _ (reads_take_n _ _ w (eq_sym Hx))).
Qed.

(** Of a session id the used bytes are written; the others are read as zeros. *)
#[export] Instance sid_wire : Wire SessionId := {
  wire_ok s := (sid_len s <=? 32)%nat && (sid_len s <=? length (sid_data s))%nat;
  canon s := mkSessionId (sid_len s)
    (firstn (sid_len s) (sid_data s) ++ replicate (32 - sid_len s) 0) }.
#[export] Instance sid_laws : WireLaws SessionId.
Proof.
  split; intros [n data].
  - intros b _. change (encode (mkSessionId n data) b) with ((b ++ be_bytes 1 (Z.of_nat n)) ++ firstn n data).
    by rewrite <- app_assoc.
  - intros Hs. simpl in Hs. apply andb_true_iff in Hs as [Hn Hd].
    apply Nat.leb_le in Hn, Hd.
    change (get_encoding (mkSessionId n data)) with (be_bytes 1 (Z.of_nat n) ++ firstn n data).
    eapply reads_bind; [apply reads_uint; simpl Z.of_nat; lia|].
    replace (32 <? Z.of_nat n) with false by (symmetry; apply Z.ltb_ge; lia).
    rewrite Nat2Z.id.
    assert (length (firstn n data) = n) as Hlen by (rewrite length_firstn; lia).
    pose proof (reads_bind_ret (take_or (MissingData "SessionID") n)
      (λ b, mkSessionId n (b ++ replicate (32 - length b) 0)) _ _
      (reads_take_n _ _ (firstn n data) (eq_sym Hlen))) as Hr.
    cbv beta in Hr. rewrite Hlen in Hr. exact Hr.
Qed.

Section Hello.
Context `{DnsNames}.

(** What a hello must be to be read back: everything fits its length field and every number its
    width, the random has 32 bytes and the session id at most 32, there is at least one
    extension, and the extensions have a form of their own on the wire: names of servers are
    host names that the reader accepts, a status request is one for OCSP, none is a padding yet
    to be measured, and one that is kept as raw bytes is not of a type whose contents the
    reader knows. *)
Definition hello_ok (h : ClientHelloPayload) : bool :=
  wire_ok (ch_client_version h) && wire_ok (ch_random h) && wire_ok (ch_session_id h) &&
  wire_ok (ch_cipher_suites h) && wire_ok (ch_compression_methods h) && wire_ok (ch_extensions h) &&
  match ch_extensions h with [] => false | _ => true end.

Definition canon_hello (h : ClientHelloPayload) : ClientHelloPayload :=
  {| ch_client_version := canon (ch_client_version h);
     ch_random := ch_random h;
     ch_session_id := canon (ch_session_id h);
     ch_cipher_suites := canon (ch_cipher_suites h);
     ch_compression_methods := canon (ch_compression_methods h);
     ch_extensions := canon (ch_extensions h) |}.

Definition hello_bytes (h : ClientHelloPayload) : list Z :=
  get_encoding (ch_client_version h) ++ get_encoding (ch_random h) ++
  get_encoding (ch_session_id h) ++ get_encoding (ch_cipher_suites h) ++
  get_encoding (ch_compression_methods h) ++ get_encoding (ch_extensions h).

Lemma hello_appends h b :
  hello_ok h = true → client_hello_encode h b = b ++ hello_bytes h.
Proof.
  unfold hello_ok. intros Hh. rewrite !andb_true_iff in Hh. destruct_and!.
  unfold client_hello_encode. destruct (ch_extensions h) as [|e exts] eqn:He; [done|].
  rewrite (wire_appends (e :: exts)), (wire_appends (ch_compression_methods h)),
    (wire_appends (ch_cipher_suites h)), (wire_appends (ch_session_id h)),
    (wire_appends (ch_random h)), (wire_appends (ch_client_version h)) by done.
  unfold hello_bytes. rewrite He. by rewrite <- !app_assoc.
Qed.

(** Rewrites the reading of the encoding of [x] in front of something. *)
Ltac read_value x :=
  let R := fresh "R" in
  pose proof (wire_reads x ltac:(done)) as R;
  match goal with
  | |- context [?m (get_encoding x ++ _)] => change (Reads m (get_encoding x) (canon x)) in R
  end;
  rewrite R; clear R.

Lemma list_encoding_any {T} `{Codec T, TlsListElement T, Wire T, !WireLaws T, !WireElement T} (l : list T) rest :
  wire_ok l = true → any_left (get_encoding l ++ rest) = true.
Proof.
  intros Hl. apply any_left_app. intros Hn. pose proof (wire_reads l Hl []) as Hr.
  rewrite Hn in Hr. simpl in Hr. unfold vec_read, list_len_read in Hr. by destruct (SIZE_LEN T).
Qed.

Lemma hello_reads h :
  hello_ok h = true → client_hello_read (hello_bytes h) = Ok (canon_hello h, []).
Proof.
  unfold hello_ok. intros Hh. rewrite !andb_true_iff in Hh. destruct_and!.
  unfold client_hello_read, mbind, read_bind, hello_bytes.
  read_value (ch_client_version h).
  read_value (ch_random h).
  read_value (ch_session_id h).
  read_value (ch_cipher_suites h).
  read_value (ch_compression_methods h).
  unfold if_left at 1. rewrite <- (app_nil_r (get_encoding (ch_extensions h))).
  rewrite list_encoding_any by done.
  read_value (ch_extensions h).
  unfold if_left. simpl any_left. unfold canon_hello.
  by destruct (ch_extensions h).
Qed.

(** C18: A ClientHello is read back from its message, the same hello with nothing left over, up
    to three changes of form: numbers that have a name are named, the unused bytes of the
    session id are zeros, an empty ticket is a request for one; provided that it has at least
    one extension, that its parts fit their length fields (random of 32 bytes, session id of at
    most 32, numbers in their width, a message below 2^24 bytes), that its server names are host
    names the reader accepts, that a status request is one for OCSP, and that no extension is a
    padding still to be measured or raw bytes under a type whose contents the reader knows. *)
Theorem client_hello_reads_back vers h :
  hello_ok h = true → Z.of_nat (length (client_hello_encode h [])) < 2 ^ 24 →
  handshake_read_version vers (handshake_client_hello_encode h []) =
    Ok (mkHandshake HT_ClientHello (HP_ClientHello (canon_hello h)), []).
Proof.
  intros Hok Hlen. rewrite hello_appends in Hlen by done. rewrite app_nil_l in Hlen.
  unfold handshake_client_hello_encode.
  rewrite (nested_app _ _ _ _ (λ b, hello_appends h b Hok)).
  change (encode HT_ClientHello []) with (get_encoding HT_ClientHello).
  unfold handshake_read_version, mbind, read_bind.
  read_value HT_ClientHello.
  rewrite (canon_known HT_ClientHello) by done.
  assert (Reads u24_read (be_bytes 3 (Z.of_nat (length (hello_bytes h)))) (Z.of_nat (length (hello_bytes h))))
    as Hu24 by (apply reads_uint; change (256 ^ Z.of_nat 3) with (2 ^ 24); lia).
  cbn [size_bytes]. rewrite Hu24, Nat2Z.id, <- (app_nil_r (hello_bytes h)).
  assert (Reads (reader_sub (length (hello_bytes h ++ []))) (hello_bytes h) (hello_bytes h))
    as Hsub by (apply reads_take_n; by rewrite app_nil_r).
  rewrite Hsub.
  unfold on_sub, handshake_contents_read, mbind, read_bind.
  by rewrite (hello_reads h Hok).
Qed.
End Hello.
