(* ===== verification/TlsReadFacts.v ===== *)
(** * TlsReadFacts: every sequence of bytes is read or refused

    The loop over the elements of a list ends, because each element takes at least one byte;
    so reading a message always ends, whatever a peer sends. *)

From S2P Require Import Prelude TlsCodec TlsEnums TlsHello TlsMessages.

Definition NoLoop {A} (m : Read A) : Prop := ∀ r, m r ≠ Err ReadLoops.

(** Reading leaves at most what there was; reading an element leaves less. *)
Definition Shrinks {A} (m : Read A) : Prop :=
  ∀ r x r', m r = Ok (x, r') → (length r' ≤ length r)%nat.
Definition Consumes {A} (m : Read A) : Prop :=
  ∀ r x r', m r = Ok (x, r') → (length r' < length r)%nat.

Create HintDb reading.

Section Rules.
Context {A B : Type}.

Lemma no_loop_ret (x : A) : NoLoop (mret x).
Proof. done. Qed.

Lemma no_loop_err m : NoLoop (read_err (A := A) m).
Proof. done. Qed.

Lemma no_loop_bind (m : Read A) (f : A → Read B) :
  NoLoop m → (∀ x, NoLoop (f x)) → NoLoop (m ≫= f).
Proof.
  intros Hm Hf r. unfold mbind, read_bind. destruct (m r) as [[x r']|e] eqn:He; [apply Hf|].
  intros [= ->]. by apply (Hm r).
Qed.

Lemma no_loop_if_left (a b : Read A) : NoLoop a → NoLoop b → NoLoop (if_left a b).
Proof. intros Ha Hb r. unfold if_left. by destruct (any_left r). Qed.

Lemma no_loop_on_sub sub (m : Read A) : NoLoop m → NoLoop (on_sub sub m).
Proof.
  intros Hm r. unfold on_sub, lift_result. specialize (Hm sub). destruct (m sub); congruence.
Qed.

Lemma shrinks_ret (x : A) : Shrinks (mret x).
Proof. intros r y r'. by intros [= -> ->]. Qed.

Lemma shrinks_err m : Shrinks (read_err (A := A) m).
Proof. done. Qed.

Lemma shrinks_bind (m : Read A) (f : A → Read B) :
  Shrinks m → (∀ x, Shrinks (f x)) → Shrinks (m ≫= f).
Proof.
  intros Hm Hf r y r'. unfold mbind, read_bind. destruct (m r) as [[x r1]|e] eqn:He; [|done].
  intros Hy. pose proof (Hm _ _ _ He). pose proof (Hf _ _ _ _ Hy). lia.
Qed.

Lemma consumes_shrinks (m : Read A) : Consumes m → Shrinks m.
Proof. intros Hm r x r' Hr. pose proof (Hm _ _ _ Hr). lia. Qed.

Lemma consumes_bind (m : Read A) (f : A → Read B) :
  Consumes m → (∀ x, Shrinks (f x)) → Consumes (m ≫= f).
Proof.
  intros Hm Hf r y r'. unfold mbind, read_bind. destruct (m r) as [[x r1]|e] eqn:He; [|done].
  intros Hy. pose proof (Hm _ _ _ He). pose proof (Hf _ _ _ _ Hy). lia.
Qed.
End Rules.

Lemma no_loop_take e n : NoLoop (take_or e n).
Proof. intros r. unfold take_or. by case_match. Qed.
Lemma shrinks_take e n : Shrinks (take_or e n).
Proof. intros r x r'. unfold take_or. case_match; [done|]. intros [= <- <-]. rewrite length_skipn. lia. Qed.
Lemma consumes_take e n : Consumes (take_or e (S n)).
Proof.
  intros r x r'. unfold take_or. destruct (Nat.ltb_spec (length r) (S n)); [done|].
  intros [= <- <-]. rewrite length_skipn. lia.
Qed.

Lemma no_loop_uint s n : NoLoop (uint_read s n).
Proof. intros r. unfold uint_read, take_or. by repeat case_match; simplify_eq. Qed.
Lemma consumes_uint s n : Consumes (uint_read s (S n)).
Proof.
  intros r x r'. unfold uint_read. destruct (take_or _ _ r) as [[b r1]|] eqn:He; [|done].
  intros [= <- <-]. by apply consumes_take in He.
Qed.

Lemma no_loop_enum {E} `{TlsEnum E} : NoLoop (enum_read (E := E)).
Proof. intros r. unfold enum_read. by repeat case_match. Qed.
Lemma shrinks_uint s n : Shrinks (uint_read s n).
Proof.
  intros r x r'. unfold uint_read. destruct (take_or _ _ r) as [[b r1]|] eqn:He; [|done].
  intros [= <- <-]. by apply shrinks_take in He.
Qed.
Lemma shrinks_enum {E} `{TlsEnum E} : Shrinks (enum_read (E := E)).
Proof.
  intros r x r'. unfold enum_read. destruct (uint_read _ _ r) as [[b r1]|] eqn:He; [|done].
  intros [= <- <-]. by apply shrinks_uint in He.
Qed.
Lemma consumes_enum {E} `{TlsEnum E} : enum_width (E := E) ≠ 0%nat → Consumes (enum_read (E := E)).
Proof.
  intros Hw r x r'. unfold enum_read. destruct (enum_width (E := E)) as [|n]; [done|].
  destruct (uint_read _ _ r) as [[b r1]|] eqn:He; [|done].
  intros [= <- <-]. by apply consumes_uint in He.
Qed.

Lemma no_loop_rest : NoLoop reader_rest.
Proof. done. Qed.
Lemma shrinks_rest : Shrinks reader_rest.
Proof. intros r x r' [= _ <-]. simpl. lia. Qed.

Lemma no_loop_expect_empty n sub : NoLoop (expect_empty n sub).
Proof. intros r. unfold expect_empty. by case_match. Qed.

#[export] Hint Resolve no_loop_ret no_loop_err no_loop_bind no_loop_if_left no_loop_on_sub
  no_loop_take no_loop_uint no_loop_enum no_loop_rest no_loop_expect_empty
  shrinks_ret shrinks_err shrinks_bind shrinks_take shrinks_uint shrinks_enum shrinks_rest : reading.

(** ** Elements of lists *)

Class ReadElement (T : Type) `{CodecRead T} := {
  element_no_loop : NoLoop (read (T := T));
  element_consumes : Consumes (read (T := T));
}.

Section Lists.
Context {T : Type} `{ReadElement T, !TlsListElement T}.

(** The fuel of the loop is enough. *)
Lemma read_while_any_ends fuel sub :
  (length sub ≤ fuel)%nat → read_while_any (T := T) fuel sub ≠ Err ReadLoops.
Proof.
  revert sub. induction fuel as [|fuel IH]; intros [|z sub] Hlen; try done; [simpl in Hlen; lia|].
  cbn [read_while_any]. destruct (read (z :: sub)) as [[x r']|e] eqn:He.
  - apply element_consumes in He. specialize (IH r' ltac:(simpl in *; lia)).
    destruct (read_while_any fuel r'); simpl; congruence.
  - intros [= ->]. by apply (element_no_loop (z :: sub)).
Qed.

Lemma no_loop_list_len s : NoLoop (list_len_read s).
Proof. destruct s; simpl; unfold u8_read, u16_read, u24_read; auto with reading. Qed.

Lemma no_loop_vec : NoLoop (vec_read (T := T)).
Proof.
  unfold vec_read. apply no_loop_bind; [apply no_loop_list_len|]. intros len.
  apply no_loop_bind; [apply no_loop_take|]. intros sub r. unfold lift_result.
  pose proof (read_while_any_ends (length sub) sub ltac:(done)).
  destruct (read_while_any _ sub); congruence.
Qed.

Lemma shrinks_vec : Shrinks (vec_read (T := T)).
Proof.
  unfold vec_read. apply shrinks_bind.
  - destruct (SIZE_LEN T); simpl; unfold u8_read, u16_read, u24_read; auto using shrinks_uint with reading.
  - intros len. apply shrinks_bind; [apply shrinks_take|]. intros sub r x r'. unfold lift_result.
    by destruct (read_while_any _ sub); intros [= _ <-].
Qed.
End Lists.

#[export] Hint Resolve no_loop_vec : reading.

Lemma enum_element {E} `{TlsEnum E} : enum_width (E := E) ≠ 0%nat → ReadElement E.
Proof. intros Hw. split; [apply no_loop_enum|by apply consumes_enum]. Qed.

#[export] Instance read_ECPointFormat : ReadElement ECPointFormat. Proof. by apply enum_element. Qed.
#[export] Instance read_NamedGroup : ReadElement NamedGroup. Proof. by apply enum_element. Qed.
#[export] Instance read_SignatureScheme : ReadElement SignatureScheme. Proof. by apply enum_element. Qed.
#[export] Instance read_PSKKeyExchangeMode : ReadElement PSKKeyExchangeMode. Proof. by apply enum_element. Qed.
#[export] Instance read_ProtocolVersion : ReadElement ProtocolVersion. Proof. by apply enum_element. Qed.
#[export] Instance read_CertificateCompressionAlgorithm :
  ReadElement CertificateCompressionAlgorithm. Proof. by apply enum_element. Qed.
#[export] Instance read_CipherSuite : ReadElement CipherSuite. Proof. by apply enum_element. Qed.
#[export] Instance read_Compression : ReadElement Compression. Proof. by apply enum_element. Qed.

(** A first number and then something. *)
Lemma counted_element {A} s n (f : Z → Read A) :
  (∀ x, NoLoop (f x)) → (∀ x, Shrinks (f x)) →
  NoLoop (uint_read s (S n) ≫= f) ∧ Consumes (uint_read s (S n) ≫= f).
Proof. split; [apply no_loop_bind|apply consumes_bind]; auto using no_loop_uint, consumes_uint. Qed.

Ltac element :=
  unfold payload_u8_read, payload_u16_read, u8_read, u16_read, u32_read, reader_sub;
  auto 8 with reading.

Lemma payload_u8_element : NoLoop payload_u8_read ∧ Consumes payload_u8_read.
Proof. apply counted_element; intros; element. Qed.
Lemma payload_u16_element : NoLoop payload_u16_read ∧ Consumes payload_u16_read.
Proof. apply counted_element; intros; element. Qed.

Lemma mapped_element {A B} (m : Read A) (f : A → Read B) :
  NoLoop m ∧ Consumes m → (∀ x, NoLoop (f x) ∧ Shrinks (f x)) → NoLoop (m ≫= f) ∧ Consumes (m ≫= f).
Proof. intros [Hm Hc] Hf. split; [apply no_loop_bind|apply consumes_bind]; auto; intros x; apply Hf. Qed.

#[export] Instance read_ProtocolName : ReadElement ProtocolName.
Proof. split; apply (mapped_element payload_u8_read); auto using payload_u8_element with reading. Qed.
#[export] Instance read_PresharedKeyBinder : ReadElement PresharedKeyBinder.
Proof. split; apply (mapped_element payload_u8_read); auto using payload_u8_element with reading. Qed.
#[export] Instance read_ResponderId : ReadElement ResponderId.
Proof. split; apply (mapped_element payload_u16_read); auto using payload_u16_element with reading. Qed.

Lemma enum_first {E A} `{TlsEnum E} (f : E → Read A) :
  enum_width (E := E) ≠ 0%nat → (∀ x, NoLoop (f x) ∧ Shrinks (f x)) →
  NoLoop (enum_read ≫= f) ∧ Consumes (enum_read ≫= f).
Proof. intros Hw Hf. apply mapped_element; [|done]. split; [apply no_loop_enum|by apply consumes_enum]. Qed.

#[export] Instance read_KeyShareEntry : ReadElement KeyShareEntry.
Proof. split; apply (enum_first (E := NamedGroup)); try done; intros x; split; element. Qed.
#[export] Instance read_PresharedKeyIdentity : ReadElement PresharedKeyIdentity.
Proof.
  split; apply (mapped_element payload_u16_read); try apply payload_u16_element; intros x; split; element.
Qed.
Lemma no_loop_if {A} (b : bool) (x y : Read A) : NoLoop x → NoLoop y → NoLoop (if b then x else y).
Proof. by destruct b. Qed.
Lemma shrinks_if {A} (b : bool) (x y : Read A) : Shrinks x → Shrinks y → Shrinks (if b then x else y).
Proof. by destruct b. Qed.
#[export] Hint Resolve no_loop_if shrinks_if : reading.

#[export] Instance read_ServerName `{DnsNames} : ReadElement ServerName.
Proof.
  split; apply (enum_first (E := ServerNameType)); try done; intros x; unfold read_hostname, payload_read;
    split; case_decide; element.
Qed.

(** ** Extensions and hellos *)

(** What is read inside a reader of its own leaves the outer one as it is. *)
Lemma shrinks_on_sub {A} sub (m : Read A) : Shrinks (on_sub sub m).
Proof. intros r x r'. unfold on_sub, lift_result. by destruct (m sub); intros [= _ ->]. Qed.
Lemma shrinks_expect_empty n sub : Shrinks (expect_empty n sub).
Proof. intros r x r'. unfold expect_empty. case_match; [done|]. by intros [= _ ->]. Qed.
#[export] Hint Resolve shrinks_on_sub shrinks_expect_empty : reading.

(** An extension of any kind of hello, by what reads its contents. *)
Lemma extension_element {A} (contents : ExtensionType → Read A) (name : string) :
  (∀ typ, NoLoop (contents typ)) →
  let m := typ ← enum_read; len ← u16_read; sub ← reader_sub (Z.to_nat len);
           '(ext, sub) ← on_sub sub (contents typ); _ ← expect_empty name sub; mret ext in
  NoLoop m ∧ Consumes m.
Proof.
  intros Hc. apply (enum_first (E := ExtensionType)); [done|]. intros typ.
  split; (apply no_loop_bind || apply shrinks_bind); [element| |element|]; intros len;
    (apply no_loop_bind || apply shrinks_bind); try solve [element]; intros sub;
    (apply no_loop_bind || apply shrinks_bind); try solve [element]; intros [ext r]; element.
Qed.

Lemma no_loop_payload : NoLoop payload_read.
Proof. apply no_loop_bind; auto with reading. Qed.

(** Takes a reader apart down to its parts. *)
Ltac read_parts :=
  repeat match goal with
  | |- ∀ _, NoLoop _ => intros ?
  | |- NoLoop (if_left _ _) => apply no_loop_if_left
  | |- NoLoop (if decide _ then _ else _) => apply no_loop_if
  | |- NoLoop (if _ then _ else _) => apply no_loop_if
  | |- NoLoop (mbind _ _) => apply no_loop_bind
  | |- NoLoop (match ?x with _ => _ end) => destruct x
  | |- NoLoop vec_read => apply no_loop_vec
  | |- NoLoop payload_read => apply no_loop_payload
  end; auto with reading.

Ltac contents_no_loop typ :=
  destruct typ; simpl; unfold psk_offer_read, csr_read, ocsp_read, unknown_extension_read,
    key_share_read, payload_u16_read, payload_u8_read, u16_read, u8_read, reader_sub; read_parts.

Section Extensions.
Context `{DnsNames}.

Lemma client_contents_no_loop typ : NoLoop (client_extension_contents typ).
Proof. contents_no_loop typ. Qed.

Lemma hrr_contents_no_loop typ : NoLoop (hrr_extension_contents typ).
Proof. contents_no_loop typ. Qed.

Lemma server_contents_no_loop typ : NoLoop (server_extension_contents typ).
Proof. contents_no_loop typ. Qed.

#[export] Instance read_ClientExtension : ReadElement ClientExtension.
Proof.
  split; apply (extension_element client_extension_contents "ClientExtension"), client_contents_no_loop.
Qed.
#[export] Instance read_HelloRetryExtension : ReadElement HelloRetryExtension.
Proof.
  split; apply (extension_element hrr_extension_contents "HelloRetryExtension"), hrr_contents_no_loop.
Qed.
#[export] Instance read_ServerExtension : ReadElement ServerExtension.
Proof.
  split; apply (extension_element server_extension_contents "ServerExtension"), server_contents_no_loop.
Qed.

(** ** Elements of the other messages *)

Lemma payload_u24_element : NoLoop payload_u24_read ∧ Consumes payload_u24_read.
Proof. apply counted_element; intros; element. Qed.

#[export] Instance read_ClientCertificateType : ReadElement ClientCertificateType.
Proof. by apply enum_element. Qed.
#[export] Instance read_DistinguishedName : ReadElement DistinguishedName.
Proof. split; apply (mapped_element payload_u16_read); auto using payload_u16_element with reading. Qed.
#[export] Instance read_CertificateDer : ReadElement CertificateDer.
Proof. split; apply counted_element; intros; element. Qed.

Lemma no_loop_cert_status : NoLoop cert_status_read.
Proof.
  unfold cert_status_read. apply no_loop_bind; [apply no_loop_enum|]. intros typ.
  destruct typ; try apply no_loop_err.
  apply no_loop_bind; [apply payload_u24_element|]. intros; apply no_loop_ret.
Qed.

Lemma cert_contents_no_loop typ : NoLoop (cert_extension_contents typ).
Proof.
  destruct typ; simpl; unfold unknown_extension_read; read_parts; apply no_loop_cert_status.
Qed.
Lemma cert_req_contents_no_loop typ : NoLoop (cert_req_extension_contents typ).
Proof. contents_no_loop typ. Qed.
Lemma nst_contents_no_loop typ : NoLoop (nst_extension_contents typ).
Proof. destruct typ; simpl; unfold unknown_extension_read, u32_read; read_parts. Qed.

#[export] Instance read_CertificateExtension : ReadElement CertificateExtension.
Proof.
  split; apply (extension_element cert_extension_contents "CertificateExtension"), cert_contents_no_loop.
Qed.
#[export] Instance read_CertReqExtension : ReadElement CertReqExtension.
Proof.
  split; apply (extension_element cert_req_extension_contents "CertReqExtension"), cert_req_contents_no_loop.
Qed.
#[export] Instance read_NewSessionTicketExtension : ReadElement NewSessionTicketExtension.
Proof.
  split; apply (extension_element nst_extension_contents "NewSessionTicketExtension"), nst_contents_no_loop.
Qed.

#[export] Instance read_CertificateEntry : ReadElement CertificateEntry.
Proof.
  split; apply (mapped_element cert_read); try (split; apply read_CertificateDer);
    intros x; split; (apply no_loop_bind || apply shrinks_bind);
    first [apply no_loop_vec | apply shrinks_vec | intros; auto with reading].
Qed.

(** ** Handshake messages *)

Ltac message_no_loop :=
  unfold client_hello_read, server_hello_or_retry_read, server_hello_read, hrr_read, random_read,
    sid_read, cert_payload_read, chain_read, compressed_cert_read, skx_read, cert_request13_read,
    cert_request_read, dss_read, ticket13_read, ticket_read, payload_u8_read, payload_u16_read,
    payload_u24_read, u8_read, u16_read, u24_read, u32_read, reader_sub;
  read_parts.

Lemma message_contents_no_loop vers typ : NoLoop (handshake_contents_read vers typ).
Proof. destruct typ; simpl; message_no_loop; apply no_loop_cert_status. Qed.

(** C19: Whatever bytes a peer sends, reading a handshake message from them ends: no loop over
    the elements of a list goes on for ever, as each element takes at least a byte. *)
Theorem message_reading_ends vers (bytes : list Z) : handshake_read_version vers bytes ≠ Err ReadLoops.
Proof.
  revert bytes. change (NoLoop (handshake_read_version vers)). unfold handshake_read_version.
  apply no_loop_bind; [apply no_loop_enum|]. intros typ.
  apply no_loop_bind; [apply no_loop_uint|]. intros len.
  apply no_loop_bind; [apply no_loop_take|]. intros sub.
  apply no_loop_bind; [apply no_loop_on_sub, message_contents_no_loop|]. intros [m r].
  apply no_loop_bind; [apply no_loop_expect_empty|]. intros _. apply no_loop_ret.
Qed.
End Extensions.
