(* ===== verification/NodeTlsFacts.v ===== *)
(** * NodeTlsFacts: what a server gets to see of the TLS client

    The hello that the configuration of src/src/tlsfp/tlsfp.rs sends, for every server, every
    session that could be resumed and every remembered group; the secrets that it may lead
    to; the hybrid key exchange. *)

From S2P Require Import Prelude TlsCodec TlsEnums TlsHello TlsMessages TlsRecord TlsSession Craft.
From S2P Require Import TlsContext TlsKeys TlsHandshake NodeTls TlsWire TlsHelloFacts.

(** ** The configuration *)

Definition node_config : ClientConfig :=
  {| cc_provider := mkProvider ALL_CIPHER_SUITES
       [X25519Mlkem768; RingKx NG_X25519; RingKx NG_secp256r1; RingKx NG_secp384r1; FAKE_X448];
     cc_alpn_protocols := [[104; 116; 116; 112; 47; 49; 46; 49]];
     cc_tls12_resumption := T12_SessionIdOrTickets;
     cc_certificate_compression_algorithms := [];
     cc_versions := mkVersions true true;
     cc_enable_sni := true;
     cc_enable_early_data := false;
     cc_client_auth_cert_resolver := FailResolveClientCert;
     cc_key_log := λ _, false;
     cc_craft := Some (fingerprint_builder NODEJS_FINGERPRINT) |}.

Lemma build_tls_config_done : build_tls_config = Done node_config.
Proof. vm_compute. reflexivity. Qed.

(** ** Readings of the store of extensions *)

Definition store_pick (k : Z) (acc : option ClientExtension) (e : ClientExtension) :=
  if kept e && (store_key (get_type e) =? k) then Some e else acc.

Lemma ext_store_lookup exts k :
  ext_store_of exts !! k = foldl (store_pick k) None exts.
Proof.
  unfold ext_store_of.
  assert (∀ m : ExtStore, foldl (λ m e, if kept e then <[store_key (get_type e) := e]> m else m) m exts !! k
               = foldl (store_pick k) (m !! k) exts) as Hm; [|exact (Hm ∅)].
  induction exts as [|e exts IH]; intros m; [done|]. simpl. rewrite IH. f_equal.
  unfold store_pick. destruct (kept e); [|done]. simpl.
  destruct (Z.eqb_spec (store_key (get_type e)) k) as [<-|Hne]; [by rewrite lookup_insert_eq|].
  by rewrite lookup_insert_ne.
Qed.

(** ** The extensions of the hello *)

Section Node.
Context `{TlsCrypto, DnsNames, RingAead, RingHash}.

Definition key_entry (k : ActiveKx) : KeyShareEntry := key_share_new (ak_group k) (ak_pub_key k).

Definition node_signature_schemes : list SignatureScheme :=
  default [] (List.find (λ _, true) (omap (λ s, match s with ES_Rustls (SignatureAlgorithms l) => Some l | _ => None end)
    NODEJS_EXTENSION)).

Definition node_extensions (sni : option DnsName) (ticket : ClientSessionTicket)
    (shares : list KeyShareEntry) : list ClientExtension :=
  [make_ext ET_RenegotiationInfo [0]] ++
  match sni with Some n => [CE_ServerName [mkServerName SN_HostName (HostName n)]] | None => [] end ++
  [EcPointFormats [EP_Uncompressed; EP_ANSIX962CompressedPrime; EP_ANSIX962CompressedChar2];
   NamedGroups [NG_Unknown 0x11EC; NG_X25519; NG_secp256r1; NG_Unknown 0x001E; NG_secp384r1;
     NG_secp521r1; NG_FFDHE2048; NG_FFDHE3072];
   SessionTicket ticket;
   Protocols (from_slices [[104; 116; 116; 112; 47; 49; 46; 49]]);
   make_ext (ET_Unknown 22) [];
   ExtendedMasterSecretRequest;
   SignatureAlgorithms node_signature_schemes;
   SupportedVersions [PV_TLSv1_3; PV_TLSv1_2];
   PresharedKeyModes [PK_PSK_DHE_KE];
   CE_KeyShare shares].

Lemma keep_both :
  keep_versions true [PV_TLSv1_3; PV_TLSv1_2] [PV_TLSv1_3; PV_TLSv1_2] = Done [PV_TLSv1_3; PV_TLSv1_2].
Proof. reflexivity. Qed.

(** The fingerprint, applied to a store in which rustls' own extensions are. *)
Lemma node_specs hrr sni ticket share cx store :
  store !! store_key ET_ServerName =
    (λ n, CE_ServerName [mkServerName SN_HostName (HostName n)]) <$> sni →
  store !! store_key ET_SessionTicket = SessionTicket <$> ticket →
  store !! store_key ET_ALProtocolNegotiation =
    Some (Protocols (from_slices [[104; 116; 116; 112; 47; 49; 46; 49]])) →
  store !! store_key ET_SupportedVersions = Some (SupportedVersions [PV_TLSv1_3; PV_TLSv1_2]) →
  store !! store_key ET_KeyShare = Some (CE_KeyShare [share]) →
  apply_specs (fingerprint_builder NODEJS_FINGERPRINT) node_config hrr NODEJS_EXTENSION
    (seq 0 (length NODEJS_EXTENSION)) cx store =
  ('(shares, cx) ← (if opt_is_some (hrr ≫= get_requested_key_share_group) then Done ([share], cx)
                    else craft_key_shares true node_config [GT NG_X25519] [share] cx);
   Done (node_extensions sni (default (TicketOffer (mkPayload [])) ticket) shares, cx)).
Proof.
  intros Hsni Hticket Halpn Hver Hks.
  change (seq 0 (length NODEJS_EXTENSION)) with [0;1;2;3;4;5;6;7;8;9;10;11]%nat.
  unfold apply_specs, NODEJS_EXTENSION. simpl (_ !! _).
  cbn [apply_spec to_rustls_extension fingerprint_builder fb_strict_mode fb_override_keyshare
    outcome_bind mbind].
  rewrite Hsni. destruct (opt_is_some (hrr ≫= get_requested_key_share_group)) eqn:Hgroup.
  all: destruct sni as [n|]; simpl (_ <$> _).
  all: rewrite ?(bool_decide_true (ET_ServerName = _)) by done.
  all: repeat (cbn [mbind outcome_bind negb andb orb cc_enable_sni node_config cc_alpn_protocols];
    rewrite ?lookup_delete_ne by (vm_compute; congruence);
    rewrite ?(bool_decide_true (_ = _)), ?Hticket, ?Halpn, ?Hver, ?Hks by done).
  all: rewrite keep_both; cbn [mbind outcome_bind];
    rewrite ?lookup_delete_ne by (vm_compute; congruence); rewrite Hks.
  all: try (destruct (craft_key_shares _ _ _ _ _) as [[shares cx']|]); by destruct ticket.
Qed.

(** ** Key shares *)

Lemma node_key_shares (own : ActiveKx) cx :
  craft_key_shares true node_config [GT NG_X25519] [key_entry own] cx =
  if bool_decide (ak_group own = X25519MLKEM768_GROUP) then
    match ring_public_key (cx_draws cx) NG_X25519 with
    | Some pub =>
        let alt := mkActiveKx (RingKx NG_X25519) (cx_draws cx) pub in
        let d := cx_craft cx in
        Done ([key_entry alt; key_entry own],
              cx <| cx_draws := S (cx_draws cx) |>
                 <| cx_craft := d <| our_key_share_alt := our_key_share_alt d ++ [alt] |> |>)
    | None => Panic
    end
  else Done ([key_entry own], cx).
Proof.
  unfold craft_key_shares, place_groups, place_group. cbn [head kx_groups cc_provider node_config].
  change (ks_group (key_entry own)) with (ak_group own). cbn [kx_name].
  destruct (decide (ak_group own = X25519MLKEM768_GROUP)) as [Hg|Hg].
  - rewrite (bool_decide_false (_ ≠ _)), (bool_decide_false (NG_X25519 = _)), (bool_decide_true (_ = _))
      by (rewrite ?Hg; tauto || done).
    unfold fresh_key_share. change (find_kx_group node_config NG_X25519) with (Some (RingKx NG_X25519)).
    destruct cx. cbn. by destruct (ring_public_key _ _).
  - rewrite (bool_decide_true (_ ≠ _)), (bool_decide_false (ak_group own = _)) by done. done.
Qed.

(** The exchange that the fingerprint adds to rustls' own: one for X25519, unless a group is
    asked for or rustls' own is not the hybrid one. Without a key for it, strict mode panics. *)
Definition new_alternative (hrr : option HelloRetryRequest) (own : ActiveKx) (cx : Context)
    : outcome (option ActiveKx) :=
  if opt_is_some (hrr ≫= get_requested_key_share_group) ||
     negb (bool_decide (ak_group own = X25519MLKEM768_GROUP)) then Done None
  else match ring_public_key (cx_draws cx) NG_X25519 with
       | Some pub => Done (Some (mkActiveKx (RingKx NG_X25519) (cx_draws cx) pub))
       | None => Panic
       end.

Definition add_alternative (alt : option ActiveKx) (cx : Context) : Context :=
  match alt with
  | Some k => cx <| cx_draws := S (cx_draws cx) |>
                 <| cx_craft := (cx_craft cx) <| our_key_share_alt := our_key_share_alt (cx_craft cx) ++ [k] |> |>
  | None => cx
  end.

Definition sent_shares (alt : option ActiveKx) (own : ActiveKx) : list KeyShareEntry :=
  key_entry <$> (option_list alt ++ [own]).

Lemma node_shares hrr own alt cx :
  new_alternative hrr own cx = Done alt →
  (if opt_is_some (hrr ≫= get_requested_key_share_group) then Done ([key_entry own], cx)
   else craft_key_shares true node_config [GT NG_X25519] [key_entry own] cx)
  = Done (sent_shares alt own, add_alternative alt cx).
Proof.
  unfold new_alternative. destruct (opt_is_some _); [by intros [= <-]|]. rewrite node_key_shares. simpl.
  case_bool_decide; simpl; [|by intros [= <-]].
  destruct (ring_public_key _ _); [|done]. by intros [= <-].
Qed.

(** The ticket in the hello: one of TLS 1.2, or else an empty one. *)
Definition node_ticket (resuming : option Retrieved) : ClientSessionTicket :=
  match rt_value <$> resuming with
  | None => TicketRequest
  | Some s =>
      match session_ticket s with
      | [] => TicketRequest
      | t => TicketOffer (mkPayload match s with Tls12Session _ => t | Tls13Session _ => [] end)
      end
  end.

(** What resuming adds to rustls' own extensions. *)
Inductive resumption_exts : list ClientExtension → option ClientSessionTicket → Prop :=
  | RX_ticket t : resumption_exts [SessionTicket t] (Some t)
  | RX_psk o : resumption_exts [PresharedKey o] None
  | RX_none : resumption_exts [] None.

Lemma node_resumption resuming exts suite cx :
  ∃ more ticket tls13 s rs,
    prepare_resumption node_config resuming exts suite cx =
      Done (Ok (exts ++ more, tls13), cx <| cx_suite := s |> <| cx_resumption_ciphersuite := rs |>) ∧
    resumption_exts more ticket ∧
    default (TicketOffer (mkPayload [])) ticket = node_ticket resuming.
Proof.
  unfold node_ticket, prepare_resumption. change (supports_version node_config _) with true.
  cbn [negb orb andb cc_tls12_resumption node_config].
  destruct resuming as [[v at_]|]; [cbn [rt_value rt_retrieved_at fmap option_fmap option_map]|].
  2: { exists [SessionTicket TicketRequest], (Some TicketRequest), None, (cx_suite cx), (cx_resumption_ciphersuite cx).
    split_and!; [by destruct cx|constructor|done]. }
  destruct (session_ticket v) as [|x t].
  { exists [SessionTicket TicketRequest], (Some TicketRequest), None, (cx_suite cx), (cx_resumption_ciphersuite cx).
    split_and!; [by destruct cx|constructor|done]. }
  destruct v as [v|v].
  - destruct suite as [suite|].
    + destruct (bool_decide (cs_version suite = PV_TLSv1_3) && can_resume_from suite (tv_suite v)).
      * eexists [_], None, (Some v), (Some (tv_suite v)), (Some (tv_suite v)).
        split_and!; [|apply RX_psk|done]. destruct cx. reflexivity.
      * exists [], None, None, (cx_suite cx), (cx_resumption_ciphersuite cx).
        split_and!; [|apply RX_none|done]. rewrite app_nil_r; by destruct cx.
    + eexists [_], None, (Some v), (Some (tv_suite v)), (Some (tv_suite v)).
      split_and!; [|apply RX_psk|done]. destruct cx. reflexivity.
  - exists [SessionTicket (TicketOffer (mkPayload (x :: t)))], (Some (TicketOffer (mkPayload (x :: t)))),
      None, (cx_suite cx), (cx_resumption_ciphersuite cx).
    split_and!; [by destruct cx|constructor|done].
Qed.

(** ** The hello *)

(** The name in the hello: none for an address; [Panic] when what is left of a name without
    its trailing dot is not one. *)
Definition sni_of (server : PkiServerName) : outcome (option DnsName) :=
  match server with
  | PkiDnsName dns => Some <$> trim_hostname_trailing_dot_for_sni dns
  | PkiIpAddress _ => Done None
  end.

Definition node_hello (random : Random) (sid : SessionId) (exts : list ClientExtension)
    : ClientHelloPayload :=
  {| ch_client_version := PV_TLSv1_2;
     ch_random := random;
     ch_session_id := sid;
     ch_cipher_suites := (λ c, val_or c 0) <$> NODEJS_CIPHER;
     ch_compression_methods := [CM_Null];
     ch_extensions := exts |}.

Lemma node_ciphers cx :
  patch_cipher node_config
    ((cs_suite <$> cipher_suites (cc_provider node_config)) ++ [CS_TLS_EMPTY_RENEGOTIATION_INFO_SCSV]) cx
  = Done ((λ c, val_or c 0) <$> NODEJS_CIPHER).
Proof. reflexivity. Qed.

Lemma node_own vs server sni own hrr :
  sni_of server = Done sni →
  own_extensions node_config vs server (Some own) hrr = Done
    ([SupportedVersions [PV_TLSv1_3; PV_TLSv1_2]; EcPointFormats ec_point_formats_supported;
      NamedGroups (kx_name <$> kx_groups (cc_provider node_config)); SignatureAlgorithms vs;
      ExtendedMasterSecretRequest; CE_CertificateStatusRequest build_ocsp] ++
     match sni with Some n => [CE_ServerName [mkServerName SN_HostName (HostName n)]] | None => [] end ++
     [CE_KeyShare [key_entry own]] ++
     match hrr ≫= get_cookie with Some c => [Cookie c] | None => [] end ++
     [PresharedKeyModes [PK_PSK_DHE_KE];
      Protocols (from_slices [[104; 116; 116; 112; 47; 49; 46; 49]])]).
Proof.
  intros Hsni. unfold own_extensions. change (supports_version node_config _) with true.
  cbn [app cc_enable_sni node_config].
  destruct server as [dns|]; simpl in Hsni.
  - unfold make_sni. destruct (trim_hostname_trailing_dot_for_sni dns) as [n|]; [|done].
    injection Hsni as <-. cbn. by destruct (hrr ≫= get_cookie).
  - injection Hsni as <-. cbn. by destruct (hrr ≫= get_cookie).
Qed.

Lemma node_patch vs server sni own hrr more ticket alt cx :
  sni_of server = Done sni →
  resumption_exts more ticket →
  extension_order (cx_craft cx) = [] →
  new_alternative hrr own cx = Done alt →
  ∃ exts, own_extensions node_config vs server (Some own) hrr = Done exts ∧
    patch_extension node_config hrr (exts ++ [] ++ more) cx =
      Done (node_extensions sni (default (TicketOffer (mkPayload [])) ticket) (sent_shares alt own),
            add_alternative alt cx).
Proof.
  intros Hsni Hmore Horder Halt. rewrite (node_own vs server sni own hrr Hsni).
  eexists. split; [done|]. unfold patch_extension. cbn [craft_get cc_craft node_config mbind outcome_bind].
  change (fp_shuffle_extensions _) with false. rewrite andb_false_r. cbn [mbind outcome_bind].
  rewrite Horder. change (fp_extensions _) with NODEJS_EXTENSION.
  rewrite (node_specs hrr sni ticket (key_entry own) cx), (node_shares _ _ _ _ Halt); [done|..];
    rewrite ext_store_lookup; destruct sni, (hrr ≫= get_cookie), Hmore; reflexivity.
Qed.

Lemma hs_bind_ok {A B} (m : Hs A) (f : A → Hs B) cx a cx' :
  m cx = Done (Ok a, cx') → (m ≫= f) cx = f a cx'.
Proof. intros Hm. unfold mbind, hs_bind. by rewrite Hm. Qed.

Lemma hs_lift_ok {A} (f : Context → outcome (A * Context)) cx a cx' :
  f cx = Done (a, cx') → hs_lift f cx = Done (Ok a, cx').
Proof. intros Hf. unfold hs_lift. by rewrite Hf. Qed.

(** HKDF does not fail for what is not too long (RFC 5869). *)
Definition hkdf_ok : Prop :=
  ∀ alg prk info n, (n ≤ 255 * hash_output_len alg)%nat → is_Some (hkdf_expand alg prk info n).

Lemma expand_ok e info n :
  hkdf_ok → (n ≤ 255 * hash_output_len (he_alg e))%nat → ∃ okm, expand e info n = Done okm.
Proof.
  intros Hok Hn. unfold expand, expand_slice. destruct (Hok (he_alg e) (he_prk e) info n Hn) as [okm ->]. by exists okm.
Qed.

Lemma expand_block_ok e info : hkdf_ok → ∃ okm, expand_block e info = Done okm.
Proof. intros Hok. apply expand_ok; [done|]. destruct (he_alg e); simpl; lia. Qed.

Lemma fill_ok v transcript h :
  hkdf_ok → ∃ ks binder, fill_in_psk_binder v transcript h = Done (ks, set_psk_binder binder h).
Proof.
  intros Hok. unfold fill_in_psk_binder, resumption_psk_binder, derive_for_empty_hash, derive, sign_verify_data,
    hkdf_expand_label_block.
  match goal with |- context [expand_block ?e ?i] => destruct (expand_block_ok e i Hok) as [k ->] end.
  cbn [mbind outcome_bind].
  match goal with |- context [expand_block ?e ?i] => destruct (expand_block_ok e i Hok) as [k' ->] end.
  by eexists _, _.
Qed.

(** The handshake messages that were sent without protection. *)
Definition clear_messages (cx : Context) : list (list Z) :=
  omap (λ e, match e with EV_Send false (mkPlain CO_Handshake _ b) => Some b | _ => None end) (cx_log cx).

(** What traffic and the certificates of the server are about stays as it is. *)
Record still (cx cx' : Context) : Prop := {
  still_plaintext : cr_received_plaintext (cx_rest cx') = cr_received_plaintext (cx_rest cx);
  still_receive :
    cr_may_receive_application_data (cx_rest cx') = cr_may_receive_application_data (cx_rest cx);
  still_peer : cr_peer_certificates (cx_rest cx') = cr_peer_certificates (cx_rest cx);
  still_traffic : EV_StartTraffic ∈ cx_log cx' → EV_StartTraffic ∈ cx_log cx;
}.

(** Sending a hello: what is sent, and what is kept of it. *)
Record Sent (cx cx' : Context) (own : ActiveKx) (alt : option ActiveKx) (hello : ClientHelloPayload)
    (s : HelloState) : Prop := {
  sent_message : clear_messages cx' = clear_messages cx ++ [handshake_client_hello_encode hello []];
  sent_alternatives :
    our_key_share_alt (cx_craft cx') = our_key_share_alt (cx_craft cx) ++ option_list alt;
  sent_order : extension_order (cx_craft cx') = [];
  sent_draws : cx_draws cx' = (cx_draws cx + length (option_list alt))%nat;
  sent_early : cx_early_data cx' = cx_early_data cx;
  sent_early_traffic : cx_early_traffic cx' = cx_early_traffic cx;
  sent_own : ex_offered_key_share (hs_next s) = Some own;
  sent_types : in_sent_extensions (ex_input (hs_next s)) = get_type <$> ch_extensions hello;
  sent_session : in_session_id (ex_input (hs_next s)) = ch_session_id hello;
  sent_still : still cx cx';
}.

Lemma node_last_extension sni ticket shares :
  last (node_extensions sni ticket shares) = Some (CE_KeyShare shares).
Proof. by destruct sni. Qed.

Lemma clear_messages_app l cx :
  clear_messages (cx <| cx_log := cx_log cx ++ l |>) =
    clear_messages cx ++ clear_messages (cx <| cx_log := l |>).
Proof. unfold clear_messages. destruct cx. apply omap_app. Qed.

Lemma node_emit vs transcript hrr own suite input cx sni alt :
  hkdf_ok →
  sni_of (in_server_name input) = Done sni →
  extension_order (cx_craft cx) = [] →
  ed_is_enabled (cx_early_data cx) = false →
  new_alternative hrr own cx = Done alt →
  ∃ s cx',
    emit_client_hello_for_retry node_config vs transcript hrr (Some own) [] suite input cx =
      Done (Ok s, cx') ∧
    Sent cx cx' own alt
      (node_hello (in_random input) (in_session_id input)
         (node_extensions sni (node_ticket (in_resuming input)) (sent_shares alt own))) s ∧
    in_server_name (ex_input (hs_next s)) = in_server_name input ∧
    in_resuming (ex_input (hs_next s)) = in_resuming input ∧
    s = match hrr with
        | None => ExpectServerHelloOrHelloRetryRequest (hs_next s) []
        | Some _ => ExpectServerHelloOnly (hs_next s)
        end ∧
    hb_buffer (ex_transcript_buffer (hs_next s)) = hb_buffer transcript ++
      handshake_client_hello_encode (node_hello (in_random input) (in_session_id input)
        (node_extensions sni (node_ticket (in_resuming input)) (sent_shares alt own))) [] ∧
    ex_suite (hs_next s) = suite.
Proof.
  intros Hkdf Hsni Horder Hearly Halt.
  destruct (node_patch vs (in_server_name input) sni own hrr [] None alt cx Hsni RX_none Horder Halt)
    as (exts & Hown & _).
  destruct (node_resumption (in_resuming input) (exts ++ []) suite cx)
    as (more & ticket & tls13 & s1 & s2 & Hres & Hmore & Hticket).
  destruct (node_patch vs (in_server_name input) sni own hrr more ticket alt
    (cx <| cx_suite := s1 |> <| cx_resumption_ciphersuite := s2 |>)) as (exts' & Hown' & Hpatch);
    [done|done|by destruct cx|by destruct cx|].
  rewrite Hown in Hown'. injection Hown' as <-.
  unfold emit_client_hello_for_retry.
  erewrite hs_bind_ok by (unfold hs_outcome; by rewrite Hown).
  erewrite hs_bind_ok by exact Hres. cbv beta iota.
  rewrite (app_assoc exts [] more) in Hpatch.
  rewrite (hs_bind_ok _ _ _ _ _ (hs_lift_ok _ _ _ _ Hpatch)).
  rewrite Hticket. erewrite hs_bind_ok by reflexivity.
  erewrite hs_bind_ok by (unfold hs_outcome; rewrite node_ciphers; reflexivity).
  cbv zeta.
  set (hello := {| ch_client_version := PV_TLSv1_2 |}).
  assert (∃ early, match tls13 with
                   | Some v => '(ks, chp) ← fill_in_psk_binder v transcript hello; Done (Some (tv_suite v, ks), chp)
                   | None => Done (None, hello)
                   end = Done (early, hello)) as [early Hfill].
  { destruct tls13 as [v|]; [|by eexists].
    destruct (fill_ok v transcript hello Hkdf) as (ks & binder & ->). eexists. cbn [mbind outcome_bind]. f_equal. f_equal.
    unfold set_psk_binder. subst hello. cbn [ch_extensions]. by rewrite node_last_extension. }
  erewrite hs_bind_ok by (unfold hs_outcome; rewrite Hfill; reflexivity). cbv beta iota.
  unfold payload_handshake. rewrite client_hello_message_encode.
  set (encoded := handshake_client_hello_encode hello []).
  destruct cx as [[] ? ? ? ? ? [left []] ? ? log ?]; try done.
  all: destruct alt as [k|], hrr as [hrr|], input as [? ? [] ? ? ?], early as [[]|];
    eexists _, _; (split; [reflexivity|]).
  all: split; [|split_and!; [done..| |done]; try (by destruct transcript)].
  all: split; simpl in *; subst; rewrite ?app_nil_r, ?Nat.add_0_r, ?Nat.add_1_r; try done.
  all: try (unfold clear_messages; simpl; by rewrite ?omap_app, ?app_nil_r).
  all: split; try done; simpl; rewrite !elem_of_app, ?elem_of_cons, ?elem_of_nil; naive_solver.
Qed.

(** ** The first hello *)

(** The group of rustls' own share: the one remembered of the server, or else the hybrid. *)
Definition hint_group (hint : option NamedGroup) : KxGroup :=
  default X25519Mlkem768 (hint ≫= find_kx_group node_config).

Lemma initial_key_share_group hint :
  initial_key_share node_config hint = start_kx (hint_group hint).
Proof.
  unfold initial_key_share, hint_group. by destruct (hint ≫= find_kx_group node_config).
Qed.

(** Randomness that does not fail. *)
Definition randomness_ok : Prop :=
  (∀ n k, ∃ b, secure_random n k = Some b ∧ length b = k) ∧
  (∀ n g, ∃ pub, ring_public_key n g = Some pub).

Lemma start_kx_ok g cx :
  randomness_ok → g ∈ [X25519Mlkem768; RingKx NG_X25519; RingKx NG_secp256r1; RingKx NG_secp384r1] →
  ∃ pub, start_kx g cx =
      Done (Ok (mkActiveKx g (cx_draws cx) pub), cx <| cx_draws := S (cx_draws cx) |>) ∧
    kx_start g cx = Done (Ok (mkActiveKx g (cx_draws cx) pub), cx <| cx_draws := S (cx_draws cx) |>).
Proof.
  intros [_ Hring] Hg. rewrite !elem_of_cons, elem_of_nil in Hg.
  unfold start_kx, mbind, hs_bind, hs_lift.
  destruct Hg as [->|[->|[->|[->|[]]]]];
    [eexists; split; reflexivity|..];
    destruct (Hring (cx_draws cx) NG_X25519) as [p1 Hp1], (Hring (cx_draws cx) NG_secp256r1) as [p2 Hp2],
      (Hring (cx_draws cx) NG_secp384r1) as [p3 Hp3];
    eexists; split; cbn; rewrite ?Hp1, ?Hp2, ?Hp3; reflexivity.
Qed.

Lemma hint_group_started hint :
  hint ≠ Some (NG_Unknown 0x001E) →
  hint_group hint ∈ [X25519Mlkem768; RingKx NG_X25519; RingKx NG_secp256r1; RingKx NG_secp384r1].
Proof.
  intros Hne. unfold hint_group. destruct hint as [g|]; [|simpl; set_solver]. cbn.
  repeat case_bool_decide; simpl; set_solver.
Qed.

Lemma random_fill_ok k cx :
  randomness_ok → ∃ b, length b = k ∧ random_fill k cx = Done (Ok b, cx <| cx_draws := S (cx_draws cx) |>).
Proof.
  intros [Hr _]. destruct (Hr (cx_draws cx) k) as (b & Hb & Hlen). exists b. split; [done|].
  unfold random_fill, mbind, hs_bind, hs_lift. cbn. by rewrite Hb.
Qed.

(** The session id of the hello: that of a TLS 1.2 session without ticket, or 32 random bytes. *)
Definition sid_of (resuming : option Retrieved) (sid : SessionId) : Prop :=
  match rt_value <$> resuming with
  | Some (Tls12Session v) =>
      if bool_decide (sc_ticket (t2_common v) = []) then sid = t2_session_id v
      else sid_len sid = 32%nat ∧ length (sid_data sid) = 32%nat
  | _ => sid_len sid = 32%nat ∧ length (sid_data sid) = 32%nat
  end.

Definition with_draws (n : nat) (cx : Context) : Context := cx <| cx_draws := n |>.

(** The steps of [start_handshake] before the hello. *)
Lemma node_start vs resuming hint server cx :
  randomness_ok → hint ≠ Some (NG_Unknown 0x001E) →
  ∃ own random sid n input,
    start_handshake node_config vs resuming hint server [] cx =
      emit_client_hello_for_retry node_config vs hash_buffer_new None (Some own) [] None input (with_draws n cx) ∧
    ak_kx own = hint_group hint ∧ in_server_name input = server ∧
    in_random input = random ∧ length (random_bytes random) = 32%nat ∧
    in_session_id input = sid ∧ sid_of resuming sid ∧
    node_ticket (in_resuming input) = node_ticket resuming ∧
    kx_start (hint_group hint) cx = Done (Ok own, with_draws (S (cx_draws cx)) cx).
Proof.
  intros Hr Hhint.
  destruct (start_kx_ok (hint_group hint) cx Hr (hint_group_started hint Hhint)) as (pub & Hstart & Hkx).
  set (own := mkActiveKx (hint_group hint) (cx_draws cx) pub) in *.
  exists own. unfold start_handshake. change (supports_version node_config PV_TLSv1_3) with true.
  cbn [negb]. rewrite initial_key_share_group. cbv iota.
  rewrite (hs_bind_ok _ _ cx (Some own) (cx <| cx_draws := S (cx_draws cx) |>))
    by (by rewrite (hs_bind_ok _ _ _ _ _ Hstart)).
  set (cx1 := cx <| cx_draws := S (cx_draws cx) |>).
  destruct (random_fill_ok 32 cx1 Hr) as (b1 & Hl1 & Hb1).
  set (cx2 := cx1 <| cx_draws := S (cx_draws cx1) |>) in *.
  destruct (random_fill_ok 32 cx2 Hr) as (b2 & Hl2 & Hb2).
  assert (sid_random cx1 = Done (Ok (mkSessionId 32 b1), cx2)) as Hsid
    by (unfold sid_random; by rewrite (hs_bind_ok _ _ _ _ _ Hb1)).
  assert (random_new cx2 = Done (Ok (mkRandom b2), cx2 <| cx_draws := S (cx_draws cx2) |>)) as Hr2
    by (unfold random_new; by rewrite (hs_bind_ok _ _ _ _ _ Hb2)).
  assert (random_new cx1 = Done (Ok (mkRandom b1), cx2)) as Hr1
    by (unfold random_new; by rewrite (hs_bind_ok _ _ _ _ _ Hb1)).
  assert (∀ n m (c : Context), with_draws n (with_draws m c) = with_draws n c) as Hdd by (by intros ?? []).
  destruct resuming as [[[v|v] at_]|].
  - rewrite (hs_bind_ok _ _ cx1 (Some (mkRetrieved (Tls13Session v) at_), None) cx1) by reflexivity.
    cbv beta iota. rewrite (hs_bind_ok _ _ _ _ _ Hsid), (hs_bind_ok _ _ _ _ _ Hr2).
    eexists (mkRandom b2), (mkSessionId 32 b1), _, _. split; [by subst cx1 cx2; destruct cx|]. done.
  - unfold node_ticket, sid_of. cbn [fmap option_fmap option_map rt_value session_ticket session_common].
    case_bool_decide as Ht.
    + rewrite (hs_bind_ok _ _ cx1 (Some (mkRetrieved (Tls12Session (v <| t2_session_id := t2_session_id v |>)) at_),
        Some (t2_session_id v)) cx1) by reflexivity.
      cbv beta iota. rewrite (hs_bind_ok _ _ cx1 (t2_session_id v) cx1) by reflexivity.
      rewrite (hs_bind_ok _ _ _ _ _ Hr1). eexists (mkRandom b1), (t2_session_id v), _, _.
      split; [by subst cx1 cx2; destruct cx|]. by destruct v.
    + rewrite (hs_bind_ok _ _ cx1 (Some (mkRetrieved (Tls12Session (v <| t2_session_id := mkSessionId 32 b1 |>)) at_),
        Some (mkSessionId 32 b1)) cx2) by (by rewrite (hs_bind_ok _ _ _ _ _ Hsid)).
      cbv beta iota. rewrite (hs_bind_ok _ _ cx2 (mkSessionId 32 b1) cx2) by reflexivity.
      rewrite (hs_bind_ok _ _ _ _ _ Hr2). eexists (mkRandom b2), (mkSessionId 32 b1), _, _.
      split; [by subst cx1 cx2; destruct cx|]. by destruct v.
  - rewrite (hs_bind_ok _ _ cx1 (None, None) cx1) by reflexivity.
    cbv beta iota. rewrite (hs_bind_ok _ _ _ _ _ Hsid), (hs_bind_ok _ _ _ _ _ Hr2).
    eexists (mkRandom b2), (mkSessionId 32 b1), _, _. split; [by subst cx1 cx2; destruct cx|]. done.
Qed.

(** The groups of the shares in a hello. *)
Definition share_groups (own : NamedGroup) : list NamedGroup :=
  if bool_decide (own = X25519MLKEM768_GROUP) then [NG_X25519; own] else [own].

Lemma new_alternative_first own cx :
  randomness_ok →
  ∃ alt, new_alternative None own cx = Done alt ∧
    ks_group <$> sent_shares alt own = share_groups (ak_group own) ∧
    Forall (λ k, ∃ c, kx_start (ak_kx k) c = Done (Ok k, with_draws (S (cx_draws c)) c)) (option_list alt).
Proof.
  intros [_ Hring]. unfold new_alternative, share_groups. simpl.
  destruct (bool_decide _) eqn:Hg; simpl.
  - destruct (Hring (cx_draws cx) NG_X25519) as [pub Hp]. rewrite Hp. eexists. split_and!; [done|done|].
    repeat constructor. exists cx. simpl. by rewrite Hp.
  - exists None. split_and!; [done|done|constructor].
Qed.

Lemma node_first_hello vs resuming hint server sni cx :
  randomness_ok → hkdf_ok → hint ≠ Some (NG_Unknown 0x001E) → sni_of server = Done sni →
  extension_order (cx_craft cx) = [] → ed_is_enabled (cx_early_data cx) = false →
  ∃ s cx' cx1 own alt random sid,
    start_handshake node_config vs resuming hint server [] cx = Done (Ok s, cx') ∧
    Sent cx1 cx' own alt
      (node_hello random sid (node_extensions sni (node_ticket resuming) (sent_shares alt own))) s ∧
    cx1 = with_draws (cx_draws cx1) cx ∧
    in_server_name (ex_input (hs_next s)) = server ∧
    s = ExpectServerHelloOrHelloRetryRequest (hs_next s) [] ∧
    length (random_bytes random) = 32%nat ∧ sid_of resuming sid ∧
    kx_start (hint_group hint) cx = Done (Ok own, with_draws (S (cx_draws cx)) cx) ∧
    ak_kx own = hint_group hint ∧
    new_alternative None own cx1 = Done alt ∧
    ks_group <$> sent_shares alt own = share_groups (kx_name (hint_group hint)) ∧
    hb_buffer (ex_transcript_buffer (hs_next s)) =
      handshake_client_hello_encode
        (node_hello random sid (node_extensions sni (node_ticket resuming) (sent_shares alt own))) [] ∧
    ex_suite (hs_next s) = None.
Proof.
  intros Hr Hkdf Hhint Hsni Horder Hearly.
  destruct (node_start vs resuming hint server cx Hr Hhint)
    as (own & random & sid & n & input & Hstart & Hkx & Hname & <- & Hrand & <- & Hsid & Hticket & Hown).
  destruct (new_alternative_first own (with_draws n cx) Hr) as (alt & Halt & Hgroups & _).
  destruct (node_emit vs hash_buffer_new None own None input (with_draws n cx) sni alt) as (s & cx' & Hemit & Hsent & Hn & Hres & Hs & Hbuf & Hsu);
    [done|by rewrite Hname|by destruct cx|by destruct cx|done|].
  exists s, cx', (with_draws n cx), own, alt, (in_random input), (in_session_id input).
  unfold ak_group in Hgroups. rewrite Hkx in Hgroups.
  rewrite Hstart, <- Hticket, Hn. split_and!; try done. by destruct cx.
Qed.

(** The types of the extensions, in the order of the fingerprint. *)
Definition node_extension_types (named : bool) : list ExtensionType :=
  [ET_RenegotiationInfo] ++ (if named then [ET_ServerName] else []) ++
  [ET_ECPointFormats; ET_EllipticCurves; ET_SessionTicket; ET_ALProtocolNegotiation; ET_Unknown 22;
   ET_ExtendedMasterSecret; ET_SignatureAlgorithms; ET_SupportedVersions; ET_PSKKeyExchangeModes;
   ET_KeyShare].

(** C12: With the configuration of the client, a handshake starts by sending one hello, for
    every server, every session that could be resumed and every remembered group, as long as
    randomness does not fail: the 52 ciphers of Node.js and exactly its 12 extensions in their
    order (11 for an address, which has no name to send), so that no pre-shared key, early data
    or cookie is ever offered. The shares are an X25519 and a hybrid one, or else only the one
    of the remembered group. *)
Theorem node_hello_sent config vs resuming hint server sni cx :
  build_tls_config = Done config →
  randomness_ok → hkdf_ok → hint ≠ Some (NG_Unknown 0x001E) → sni_of server = Done sni →
  extension_order (cx_craft cx) = [] → ed_is_enabled (cx_early_data cx) = false →
  ∃ s cx' hello shares,
    start_handshake config vs resuming hint server [] cx = Done (Ok s, cx') ∧
    clear_messages cx' = clear_messages cx ++ [handshake_client_hello_encode hello []] ∧
    ch_cipher_suites hello = (λ c, val_or c 0) <$> NODEJS_CIPHER ∧ length (ch_cipher_suites hello) = 52%nat ∧
    ch_extensions hello = node_extensions sni (node_ticket resuming) shares ∧
    get_type <$> ch_extensions hello = node_extension_types (opt_is_some sni) ∧
    ks_group <$> shares = share_groups (kx_name (hint_group hint)) ∧
    get_psk hello = None ∧ early_data_extension_offered hello = false ∧
    find_extension hello ET_Cookie = None.
Proof.
  rewrite build_tls_config_done. intros [= <-] Hr Hkdf Hhint Hsni Horder Hearly.
  destruct (node_first_hello vs resuming hint server sni cx Hr Hkdf Hhint Hsni Horder Hearly)
    as (s & cx' & cx1 & own & alt & random & sid & Hstart & Hsent & Hcx1 & _ & _ & _ & _ & _ & _ & _ & Hg & _).
  exists s, cx', (node_hello random sid (node_extensions sni (node_ticket resuming) (sent_shares alt own))),
    (sent_shares alt own).
  split_and!; [exact Hstart| |reflexivity|reflexivity|reflexivity|..].
  - rewrite (sent_message _ _ _ _ _ _ Hsent), Hcx1. by destruct cx.
  - by destruct sni.
  - exact Hg.
  - by destruct sni.
  - by destruct sni.
  - by destruct sni.
Qed.
End Node.
