(* ===== verification/NodeTlsRuns.v ===== *)
(** * NodeTlsRuns: the secrets that the answers to a hello may lead to

    Whatever a server answers: at most two hellos are sent, and the secrets of the handshake
    come from the agreement of the server's share with the private key of a share that a hello
    of the connection contained, and from the messages that were sent and received. *)

From S2P Require Import Prelude TlsCodec TlsEnums TlsHello TlsMessages TlsRecord TlsSession Craft.
From S2P Require Import TlsContext TlsKeys TlsHandshake NodeTls TlsWire TlsHelloFacts NodeTlsFacts.

(** ** Steps that send nothing and start nothing *)

Lemma still_refl cx : still cx cx.
Proof. by split. Qed.
Lemma still_trans a b c : still a b → still b c → still a c.
Proof. intros [] []. split; [congruence..|auto]. Qed.

Definition kept_context (cx cx' : Context) : Prop :=
  cx_craft cx' = cx_craft cx ∧ clear_messages cx' = clear_messages cx ∧
  (ed_is_enabled (cx_early_data cx) = false → ed_is_enabled (cx_early_data cx') = false) ∧
  still cx cx'.

Definition Keeps {A} (m : Hs A) : Prop := ∀ cx r cx', m cx = Done (r, cx') → kept_context cx cx'.

Lemma kept_trans a b c : kept_context a b → kept_context b c → kept_context a c.
Proof. intros (H1 & H2 & H3 & H4) (H5 & H6 & H7 & H8). split_and!; [congruence..|auto|by eapply still_trans]. Qed.

Create HintDb keeps.

Lemma keeps_bind {A B} (m : Hs A) (f : A → Hs B) : Keeps m → (∀ a, Keeps (f a)) → Keeps (m ≫= f).
Proof.
  intros Hm Hf cx r cx'. unfold mbind, hs_bind. destruct (m cx) as [[[a|e] cx1]|] eqn:Hcx; [| |done].
  - intros Hr. eapply kept_trans; [by eapply Hm|by eapply Hf].
  - intros [= <- <-]. by apply (Hm _ _ _ Hcx).
Qed.
Lemma keeps_ret {A} (x : A) : Keeps (mret x).
Proof. intros cx r cx'. intros [= _ <-]. by split_and!. Qed.
Lemma keeps_err {A} e : Keeps (hs_err (A := A) e).
Proof. intros cx r cx'. intros [= _ <-]. by split_and!. Qed.
Lemma keeps_get : Keeps hs_get.
Proof. intros cx r cx'. intros [= _ <-]. by split_and!. Qed.
Lemma keeps_panic {A} : Keeps (λ _, Panic : outcome (result HsError A * Context)).
Proof. by intros cx r cx'. Qed.
#[export] Hint Resolve keeps_bind keeps_ret keeps_err keeps_get keeps_panic : keeps.

(** Modifications of what the hellos do not depend on. *)
Lemma keeps_modify f :
  (∀ cx, kept_context cx (f cx)) → Keeps (hs_modify f).
Proof. intros Hf cx r cx'. intros [= _ <-]. apply Hf. Qed.

Ltac keeps_fields := apply keeps_modify; intros []; unfold kept_context; simpl; repeat case_match; split_and!; auto using still_refl; by split.

(** What is sent with protection, or is not of the handshake, does not count. *)
Definition not_clear (e : WireEvent) : bool :=
  match e with EV_Send false (mkPlain CO_Handshake _ _) | EV_StartTraffic => false | _ => true end.

Lemma keeps_event e cx : not_clear e = true → kept_context cx (wire_event e cx).
Proof.
  intros He. destruct cx. unfold kept_context, clear_messages. simpl. rewrite omap_app. simpl.
  split_and!; [done| |done|].
  - destruct e as [[] [[] ? ?]| | | | | |]; simpl; rewrite ?app_nil_r; done.
  - split; try done. simpl. rewrite elem_of_app, list_elem_of_singleton. intros [?| <-]; done.
Qed.
Lemma keeps_fatal {A} d e : Keeps (fatal (A := A) d e).
Proof. intros cx r cx'. intros [= _ <-]. by apply keeps_event. Qed.
Lemma keeps_misbehaved {A} d e : Keeps (misbehaved (A := A) d e).
Proof. apply keeps_fatal. Qed.
Lemma keeps_refuse b d e : Keeps (refuse_if b d e).
Proof. unfold refuse_if. destruct b; [apply keeps_fatal|apply keeps_ret]. Qed.
Lemma keeps_aligned : Keeps check_aligned_handshake.
Proof. apply keeps_bind; [apply keeps_get|intros; apply keeps_refuse]. Qed.
Lemma keeps_wire e : not_clear e = true → Keeps (wire e).
Proof. intros He. apply keeps_modify. intros cx. by apply keeps_event. Qed.
Lemma keeps_outcome {A} (o : outcome A) : Keeps (hs_outcome o).
Proof. intros cx r cx'. unfold hs_outcome. destruct o; [|done]. intros [= _ <-]. by split_and!. Qed.
Lemma keeps_store op : Keeps (store_op op).
Proof. unfold store_op. keeps_fields. Qed.
#[export] Hint Resolve keeps_fatal keeps_misbehaved keeps_refuse keeps_aligned keeps_outcome keeps_store : keeps.

(** Takes a computation apart down to its steps. *)
Ltac keeps_parts :=
  repeat match goal with
  | |- ∀ _, Keeps _ => intros ?
  | |- Keeps (mbind _ _) => apply keeps_bind
  | |- Keeps (hs_modify _) => keeps_fields
  | |- Keeps (match ?x with _ => _ end) => destruct x
  end; auto with keeps.

Section Runs.
Context `{TlsCrypto, DnsNames, RingAead, RingHash}.

Lemma hs_bind_inv {A B} (m : Hs A) (f : A → Hs B) cx b cx' :
  (m ≫= f) cx = Done (Ok b, cx') → ∃ a cx1, m cx = Done (Ok a, cx1) ∧ f a cx1 = Done (Ok b, cx').
Proof. unfold mbind, hs_bind. destruct (m cx) as [[[a|e] cx1]|]; intros; simplify_eq; eauto. Qed.

Lemma keeps_start g : Keeps (start_kx g).
Proof.
  apply keeps_bind; [|intros []; auto with keeps].
  intros cx r cx'. unfold hs_lift. by destruct g, cx; simpl; intros; simplify_eq.
Qed.

Lemma refuse_if_inv b d e cx u cx' :
  refuse_if b d e cx = Done (Ok u, cx') → b = false ∧ cx' = cx.
Proof. unfold refuse_if. destruct b; [done|]. by intros [= _ <-]. Qed.

(** ** Shares that were sent *)

(** The private key of [k], a draw, and its public key were made together. *)
Definition key_pair (k : ActiveKx) : Prop := ∃ cx cx', kx_start (ak_kx k) cx = Done (Ok k, cx').

(** A hello of this connection contained the share that belongs to the private key of [k]. *)
Definition offered (cx : Context) (k : ActiveKx) : Prop :=
  ∃ hello shares, handshake_client_hello_encode hello [] ∈ clear_messages cx ∧
    get_keyshare_extension hello = Some shares ∧ key_entry k ∈ shares ∧ key_pair k.

Lemma offered_mono cx cx' k : clear_messages cx ⊆ clear_messages cx' → offered cx k → offered cx' k.
Proof. intros Hs (h & l & Hh & Hl). exists h, l. split; [by apply Hs|done]. Qed.

Lemma offered_pair cx k : offered cx k → key_pair k.
Proof. by intros (h & l & _ & _ & _ & Hk). Qed.

Lemma alternative_pair hrr own cx alt :
  new_alternative hrr own cx = Done alt → Forall key_pair (option_list alt).
Proof.
  unfold new_alternative. destruct (_ || _); [intros [= <-]; constructor|].
  destruct (ring_public_key _ _) as [pub|] eqn:Hp; [|done]. intros [= <-].
  repeat constructor. exists cx. eexists. unfold kx_start, draw. simpl. by rewrite Hp.
Qed.

Lemma start_kx_pair g cx k cx' : start_kx g cx = Done (Ok k, cx') → key_pair k.
Proof.
  intros Hs. apply hs_bind_inv in Hs as (r & cx1 & Hr & Hs). unfold hs_lift in Hr.
  destruct (kx_start g cx) as [[r1 cx2]|] eqn:Hk; [|done]. injection Hr as -> ->.
  destruct r as [k1|e]; [|done]. injection Hs as -> ->. exists cx, cx'.
  replace (ak_kx k) with g; [done|]. unfold kx_start, draw in Hk.
  destruct g; simplify_eq/=; [by destruct (ring_public_key _ _); simplify_eq|done].
Qed.

Lemma node_keyshare_extension random sid sni ticket shares :
  get_keyshare_extension (node_hello random sid (node_extensions sni ticket shares)) = Some shares.
Proof. by destruct sni. Qed.

Lemma sent_offered cx cx' own alt random sid sni ticket s :
  Sent cx cx' own alt (node_hello random sid (node_extensions sni ticket (sent_shares alt own))) s →
  key_pair own → Forall key_pair (option_list alt) →
  Forall (offered cx) (our_key_share_alt (cx_craft cx)) →
  offered cx' own ∧ Forall (offered cx') (our_key_share_alt (cx_craft cx')).
Proof.
  intros Hsent Hpair Hpairs Hold.
  assert (∀ k, k ∈ option_list alt ++ [own] → offered cx' k) as Hnew.
  { intros k Hk. eexists _, _. split_and!; [|apply node_keyshare_extension|..].
    - rewrite (sent_message _ _ _ _ _ _ Hsent). apply elem_of_app. right. by apply list_elem_of_singleton.
    - unfold sent_shares. by apply list_elem_of_fmap_2.
    - apply elem_of_app in Hk as [Hk|Hk%list_elem_of_singleton]; [|by subst].
      rewrite Forall_forall in Hpairs. auto. }
  split; [apply Hnew; set_solver|].
  rewrite (sent_alternatives _ _ _ _ _ _ Hsent). apply Forall_app. split.
  - eapply Forall_impl; [exact Hold|]. intros k. apply offered_mono.
    rewrite (sent_message _ _ _ _ _ _ Hsent). set_solver.
  - apply Forall_forall. intros k Hk. apply Hnew. set_solver.
Qed.

(** ** Messages of a server

    [said p bytes]: among what was received is the handshake message [p], encoded as [bytes]. *)

Section Said.
Variable said : HandshakePayload → list Z → Prop.

(** What a transcript is made of when the server hello comes: the one hello, or both of them
    and the retry request in between, before which there is only the hash of the first. *)
Definition heard (alg : HashAlgorithm) (cx : Context) (input : list Z) : Prop :=
  clear_messages cx = [input] ∨
  ∃ first hrr retry second, said (HP_HelloRetryRequest hrr) retry ∧
    clear_messages cx = [first; second] ∧
    input = handshake_hash_encode (hash_bytes alg first) ++ retry ++ second.

(** The message [m] was received, with [p] in it. *)
Definition message_said (m : Message) (p : HandshakePayload) : Prop :=
  ∃ parsed bytes, m_payload m = MP_Handshake parsed bytes ∧ said p bytes.

(** What holds of a connection that waits for an answer, with [n] hellos sent. *)
Record Waiting (server : PkiServerName) (n : nat) (cx : Context) (s : HelloState) : Prop := {
  w_own : ∃ own, ex_offered_key_share (hs_next s) = Some own ∧ offered cx own;
  w_alts : Forall (offered cx) (our_key_share_alt (cx_craft cx));
  w_order : extension_order (cx_craft cx) = [];
  w_early : ed_is_enabled (cx_early_data cx) = false;
  w_server : in_server_name (ex_input (hs_next s)) = server;
  w_state : s = ExpectServerHelloOrHelloRetryRequest (hs_next s) [] ∨ s = ExpectServerHelloOnly (hs_next s);
  w_count : length (clear_messages cx) = n;
  w_types : ET_PreSharedKey ∉ in_sent_extensions (ex_input (hs_next s));
  w_heard : ∀ suite, (∀ prev, ex_suite (hs_next s) = Some prev → prev = suite) →
    heard (cs_hash suite) cx (hb_buffer (ex_transcript_buffer (hs_next s)));
  w_first : s = ExpectServerHelloOrHelloRetryRequest (hs_next s) [] →
    clear_messages cx = [hb_buffer (ex_transcript_buffer (hs_next s))];
}.

Lemma waiting_kept server n cx s cx' : kept_context cx cx' → Waiting server n cx s → Waiting server n cx' s.
Proof.
  intros (Hc & Hm & He & _) [(own & Hoff & Hown) Halts Horder Hearly Hserver Hstate Hcount Htypes Hheard Hfirst].
  assert (∀ k, offered cx k → offered cx' k) as Hmono by (intros k; apply offered_mono; by rewrite Hm).
  unfold heard in *. split; try done; rewrite ?Hc, ?Hm; try done; [by eauto|by eapply Forall_impl|by auto|].
  intros suite Hs. unfold heard. rewrite Hm. by apply Hheard.
Qed.

Lemma sent_no_psk cx cx' own alt random sid sni ticket shares s :
  Sent cx cx' own alt (node_hello random sid (node_extensions sni ticket shares)) s →
  ET_PreSharedKey ∉ in_sent_extensions (ex_input (hs_next s)).
Proof.
  intros Hs. rewrite (sent_types _ _ _ _ _ _ Hs).
  assert (get_type <$> ch_extensions (node_hello random sid (node_extensions sni ticket shares)) =
    node_extension_types (opt_is_some sni)) as -> by (by destruct sni).
  destruct sni; unfold node_extension_types; simpl; intros Hin; repeat (apply elem_of_cons in Hin as [?|Hin]; [done|]);
    by apply elem_of_nil in Hin.
Qed.

Lemma sent_count cx cx' own alt hello s :
  Sent cx cx' own alt hello s → length (clear_messages cx') = S (length (clear_messages cx)).
Proof. intros Hs. rewrite (sent_message _ _ _ _ _ _ Hs), length_app. simpl. lia. Qed.

Lemma waiting_first vs resuming hint server sni cx s cx' :
  randomness_ok → hkdf_ok → hint ≠ Some (NG_Unknown 0x001E) → sni_of server = Done sni →
  extension_order (cx_craft cx) = [] → our_key_share_alt (cx_craft cx) = [] →
  ed_is_enabled (cx_early_data cx) = false → clear_messages cx = [] →
  start_handshake node_config vs resuming hint server [] cx = Done (Ok s, cx') →
  Waiting server 1 cx' s ∧
  s = ExpectServerHelloOrHelloRetryRequest (hs_next s) [] ∧ still cx cx'.
Proof.
  intros Hr Hkdf Hhint Hsni Horder Halts Hearly Hempty Hs.
  destruct (node_first_hello vs resuming hint server sni cx Hr Hkdf Hhint Hsni Horder Hearly)
    as (s1 & cx1' & cx1 & own & alt & random & sid & Hstart & Hsent & Hcx1 & Hserver & Hstate & _ & _ &
        Hown0 & Hgroup & Halt & _ & Hbuf & Hsuite).
  rewrite Hs in Hstart. injection Hstart as <- <-.
  assert (clear_messages cx1 = clear_messages cx ∧ cx_craft cx1 = cx_craft cx ∧ cx_early_data cx1 = cx_early_data cx)
    as (Hc1 & Hc2 & Hc3) by (rewrite Hcx1; by destruct cx).
  assert (clear_messages cx' = [hb_buffer (ex_transcript_buffer (hs_next s))]) as Hfirst
    by (by rewrite (sent_message _ _ _ _ _ _ Hsent), Hc1, Hempty, Hbuf).
  destruct (sent_offered _ _ _ _ _ _ _ _ _ Hsent) as [Hown Hall];
    [eexists _, _; rewrite Hgroup; exact Hown0|by eapply alternative_pair|by rewrite Hc2, Halts|].
  split; [|split; [done|]]; [|apply sent_still in Hsent; rewrite Hcx1 in Hsent; destruct cx, Hsent; by split].
  split; try done; [|apply Hsent| |by left|by rewrite Hfirst|..].
  - exists own. split; [apply Hsent|done].
  - by rewrite (sent_early _ _ _ _ _ _ Hsent), Hc3.
  - by eapply sent_no_psk.
  - intros suite _. by left.
Qed.

(** ** Answers *)

Lemma keeps_retry_share offered_share req_group :
  Keeps (match req_group with
         | Some group =>
             if bool_decide (group = ak_group offered_share) then mret offered_share
             else match find_kx_group node_config group with
                  | Some g => start_kx g
                  | None => misbehaved AL_IllegalParameter IllegalHelloRetryRequestWithUnofferedNamedGroup
                  end
         | None => mret offered_share
         end).
Proof.
  destruct req_group as [g|]; [|apply keeps_ret]. case_match; [apply keeps_ret|].
  destruct (find_kx_group _ _); [apply keeps_start|apply keeps_misbehaved].
Qed.

Lemma retry_share_pair offered_share req_group cx k cx' :
  key_pair offered_share →
  match req_group with
  | Some group =>
      if bool_decide (group = ak_group offered_share) then mret offered_share
      else match find_kx_group node_config group with
           | Some g => start_kx g
           | None => misbehaved AL_IllegalParameter IllegalHelloRetryRequestWithUnofferedNamedGroup
           end
  | None => mret offered_share
  end cx = Done (Ok k, cx') → key_pair k.
Proof.
  intros Hp. destruct req_group as [g|]; [|by intros [= <- _]]. case_match; [by intros [= <- _]|].
  destruct (find_kx_group _ _); [apply start_kx_pair|done].
Qed.

(** One step of a computation that keeps the context. *)
Ltac keep_step Hh tac :=
  let Hm := fresh "Hm" in let Hk := fresh "Hk" in
  apply hs_bind_inv in Hh as (? & ? & Hm & Hh);
  match type of Hm with ?m _ = _ =>
    assert (Keeps m) as Hk by tac; apply Hk in Hm; clear Hk end.

Lemma retry_emits vs next offered_share m hrr cx s cx' :
  ex_offered_key_share next = Some offered_share → key_pair offered_share →
  handle_hello_retry_request node_config vs next [] m hrr cx = Done (Ok s, cx') →
  ∃ own suite cx1, kept_context cx cx1 ∧ key_pair own ∧
    emit_client_hello_for_retry node_config vs
      (buffer_add_message m (into_hrr_buffer (start_hash (cs_hash suite) (ex_transcript_buffer next))))
      (Some hrr) (Some own) [] (Some suite) (ex_input next) cx1 = Done (Ok s, cx').
Proof.
  intros Hoff Hpair Hh. unfold handle_hello_retry_request in Hh.
  keep_step Hh ltac:(auto with keeps). rewrite Hoff in Hh.
  do 7 keep_step Hh ltac:(auto with keeps).
  keep_step Hh ltac:(keeps_fields).
  destruct (find_cipher_suite _ _) as [cs|]; [|done].
  do 2 keep_step Hh ltac:(keeps_fields).
  apply hs_bind_inv in Hh as (own & cx1 & Hown & Hh).
  apply keeps_retry_share in Hown as Hk. apply retry_share_pair in Hown; [|done].
  exists own, cs, cx1. split_and!; [eauto 20 using kept_trans|done|exact Hh].
Qed.

Lemma new_alternative_total hrr own cx : randomness_ok → ∃ alt, new_alternative hrr own cx = Done alt.
Proof.
  intros [_ Hring]. unfold new_alternative. destruct (_ || _); [by eexists|].
  destruct (Hring (cx_draws cx) NG_X25519) as [pub ->]. by eexists.
Qed.

Lemma waiting_retry vs server sni next m hrr n cx s cx' :
  randomness_ok → hkdf_ok → sni_of server = Done sni →
  message_said m (HP_HelloRetryRequest hrr) →
  Waiting server n cx (ExpectServerHelloOrHelloRetryRequest next []) →
  handle_hello_retry_request node_config vs next [] m hrr cx = Done (Ok s, cx') →
  Waiting server (S n) cx' s ∧ s = ExpectServerHelloOnly (hs_next s) ∧ still cx cx'.
Proof.
  intros Hr Hkdf Hsni (parsed & bytes & Hm & Hsaid)
    [(offered_share & Hoff & Hoffered) Halts Horder Hearly Hserver _ Hcount _ _ Hfirst] Hh. simpl in *.
  destruct (retry_emits _ _ _ _ _ _ _ _ Hoff (offered_pair _ _ Hoffered) Hh)
    as (own & suite & cx1 & (Hcraft & Hsent1 & Hearly1 & Hstill) & Hpair & Hemit).
  destruct (new_alternative_total (Some hrr) own cx1 Hr) as [alt Halt].
  set (transcript := buffer_add_message m _) in Hemit.
  destruct (node_emit vs transcript (Some hrr) own (Some suite) (ex_input next) cx1 sni alt)
    as (s1 & cx2 & Hemit' & Hsent & Hn & _ & Hstate & Hbuf & Hsuite);
    [done|by rewrite Hserver|by rewrite Hcraft|auto|done|].
  rewrite Hemit in Hemit'. injection Hemit' as <- <-.
  destruct (sent_offered _ _ _ _ _ _ _ _ _ Hsent) as [Hown Hall]; [done|by eapply alternative_pair|..].
  { rewrite Hcraft. eapply Forall_impl; [exact Halts|]. intros k. apply offered_mono. by rewrite Hsent1. }
  split; [|split; [done|]]; [|by eapply still_trans, sent_still].
  split; try done; [|apply Hsent| |by rewrite Hn|by right|..].
  - exists own. split; [apply Hsent|done].
  - rewrite (sent_early _ _ _ _ _ _ Hsent). auto.
  - by rewrite (sent_count _ _ _ _ _ _ Hsent), Hsent1, Hcount.
  - by eapply sent_no_psk.
  - intros suite' Hs'. right. rewrite <- (Hs' _ Hsuite).
    eexists _, hrr, bytes, _. split; [done|].
    rewrite (sent_message _ _ _ _ _ _ Hsent), Hsent1, Hfirst by done. split; [done|].
    rewrite Hbuf. subst transcript. unfold buffer_add_message. rewrite Hm. simpl. by rewrite <- app_assoc.
  - by rewrite Hstate.
Qed.

(** ** Server hellos *)

Lemma find_key_share_offered cx g k d :
  Forall (offered cx) (our_key_share_alt (cx_craft cx)) →
  find_key_share (cx_craft cx) g = (Some k, d) → offered cx k.
Proof.
  intros Hall. unfold find_key_share. destruct (list_position _ _) as [i|]; [|done].
  intros [= Hk _]. rewrite Forall_forall in Hall. apply Hall. by eapply list_elem_of_lookup_2.
Qed.

(** ** The secrets of a handshake *)

Lemma keeps_logged ks kind hash key_log random : Keeps (derive_logged_secret ks kind hash key_log random).
Proof.
  unfold derive_logged_secret. apply keeps_bind; [apply keeps_outcome|intros output].
  destruct (log_label kind); [|apply keeps_panic].
  apply keeps_bind; [|intros; apply keeps_ret]. destruct (key_log _); [keeps_fields|apply keeps_ret].
Qed.

Lemma keeps_keys ks secret f :
  (∀ k, not_clear (f k) = true) → Keeps (k ← hs_outcome (traffic_keys ks secret); wire (f k)).
Proof. intros Hf. apply keeps_bind; [apply keeps_outcome|intros k; by apply keeps_wire]. Qed.

Lemma keeps_client_secrets ks early hash suite key_log random :
  Keeps (derive_client_handshake_secrets ks early hash suite key_log random).
Proof.
  unfold derive_client_handshake_secrets, start_into_handshake.
  apply keeps_bind; [repeat (apply keeps_bind; [apply keeps_logged|intros]); apply keeps_ret|intros].
  apply keeps_bind; [by apply keeps_keys|intros]. apply keeps_bind; [|intros; apply keeps_ret].
  destruct early; [apply keeps_ret|by apply keeps_keys].
Qed.

Lemma keeps_fake_ccs sent : Keeps (emit_fake_ccs sent).
Proof.
  unfold emit_fake_ccs. destruct sent; [apply keeps_ret|].
  apply keeps_bind; [by apply keeps_wire|intros; apply keeps_ret].
Qed.

Lemma keeps_into_handshake ks kx peer : Keeps (pre_into_handshake ks kx peer).
Proof.
  unfold pre_into_handshake, input_from_key_exchange. apply keeps_bind; [apply keeps_outcome|intros salt].
  destruct (extract_from_kx _ _ _ _); [apply keeps_ret|apply keeps_err].
Qed.

Lemma keeps_select h suite resuming early : Keeps (select_schedule h suite resuming early).
Proof. unfold select_schedule. keeps_parts. Qed.

Lemma logged_secret_inv ks kind hash key_log random cx s cx' :
  derive_logged_secret ks kind hash key_log random cx = Done (Ok s, cx') → derive ks kind hash = Done s.
Proof.
  intros Hd. apply hs_bind_inv in Hd as (output & cx1 & Ho & Hd). unfold hs_outcome in Ho.
  destruct (derive ks kind hash) as [o|]; [|done]. injection Ho as -> ->.
  destruct (log_label kind); [|done]. apply hs_bind_inv in Hd as (? & ? & _ & [= <- _]). done.
Qed.

(** The secrets of a handshake without resumption, from what was agreed on and the transcript
    to the server hello. *)
Record SecretsOf (suite : SupportedCipherSuite) (transcript : HandshakeHash) (shared : list Z)
    (ks : KeyScheduleHandshake) : Prop := {
  so_current : ∃ salt,
    derive_for_empty_hash (pre_handshake_new suite) DerivedSecret = Done salt ∧
    ks_current (kh_ks ks) = extract_from_secret (cs_hash suite) (Some salt) shared;
  so_suite : ks_suite (kh_ks ks) = suite;
  so_client : derive (kh_ks ks) ClientHandshakeTrafficSecret (get_current_hash transcript) =
    Done (kh_client_secret ks);
  so_server : derive (kh_ks ks) ServerHandshakeTrafficSecret (get_current_hash transcript) =
    Done (kh_server_secret ks);
}.

Lemma client_secrets_inv ks early hash suite key_log random cx t cx' :
  derive_client_handshake_secrets ks early hash suite key_log random cx = Done (Ok t, cx') →
  kh_ks t = ks <| ks_suite := suite |> ∧
  derive (kh_ks t) ClientHandshakeTrafficSecret hash = Done (kh_client_secret t) ∧
  derive (kh_ks t) ServerHandshakeTrafficSecret hash = Done (kh_server_secret t).
Proof.
  intros Hd. apply hs_bind_inv in Hd as (new & cx1 & Hnew & Hd).
  do 2 apply hs_bind_inv in Hd as (? & ? & _ & Hd). injection Hd as <- _.
  apply hs_bind_inv in Hnew as (client & ? & Hc & Hnew). apply hs_bind_inv in Hnew as (server & ? & Hs & [= <- _]).
  simpl. by eauto using logged_secret_inv.
Qed.

Lemma into_handshake_inv ks kx peer cx t cx' :
  pre_into_handshake ks kx peer cx = Done (Ok t, cx') →
  ∃ salt shared, derive_for_empty_hash ks DerivedSecret = Done salt ∧ kx_complete kx peer = Ok shared ∧
    t = ks <| ks_current := extract_from_secret (cs_hash (ks_suite ks)) (Some salt) shared |>.
Proof.
  intros Hd. apply hs_bind_inv in Hd as (salt & cx1 & Hs & Hd). unfold hs_outcome in Hs.
  destruct (derive_for_empty_hash ks DerivedSecret) as [s|]; [|done]. injection Hs as -> ->.
  unfold extract_from_kx in Hd. destruct (kx_complete kx peer) as [shared|]; [|done].
  injection Hd as <- _. by eexists _, shared.
Qed.

(** A server hello that selects no session leads to the secrets of an agreement with its
    share, by a key exchange of which a share was offered. *)
Lemma tls13_secret config h resuming name random suite transcript early exts own fake cx t cx' :
  offered cx own → Forall (offered cx) (our_key_share_alt (cx_craft cx)) → get_psk_index h = None →
  tls13_handle_server_hello config h resuming name random suite transcript early exts own fake cx
    = Done (Ok t, cx') →
  ∃ k theirs shared, offered cx k ∧
    get_key_share h = Some theirs ∧ ks_group theirs = ak_group k ∧
    kx_complete k (p16_bytes (ks_payload theirs)) = Ok shared ∧
    SecretsOf suite transcript shared (ee_key_schedule t) ∧ ee_suite t = suite ∧
    ee_transcript t = transcript ∧ ee_resuming_session t = None ∧ ee_server_name t = name ∧
    clear_messages cx' = clear_messages cx ∧ still cx cx'.
Proof.
  intros Hown Halts Hpsk Hh. unfold tls13_handle_server_hello in Hh.
  keep_step Hh ltac:(apply keeps_refuse). destruct (get_key_share h) as [theirs|] eqn:Htheirs; [|done].
  apply hs_bind_inv in Hh as (ours & cx2 & Hours & Hh).
  assert (offered cx ours ∧ clear_messages cx2 = clear_messages cx ∧ still cx cx2)
    as (Hoffered & Hsent2 & Hstill2).
  { unfold choose_key_share, hs_lift in Hours. destruct Hm as (Hcraft & Hsent & _ & Hstill).
    rewrite Hcraft in Hours. destruct (find_key_share _ _) as [[k|] d] eqn:Hfind; simpl in Hours; simplify_eq.
    - split_and!; [by eapply find_key_share_offered|by destruct x0|]. eapply still_trans; [done|]. by destruct x0.
    - by split_and!. }
  apply hs_bind_inv in Hh as (? & ? & Hgroup & Hh).
  apply refuse_if_inv in Hgroup as [Hgroup%negb_false_iff%bool_decide_eq_true ->].
  apply hs_bind_inv in Hh as ([pre resumed] & cx4 & Hsel & Hh).
  assert (pre = pre_handshake_new suite ∧ resumed = None) as [-> ->].
  { unfold select_schedule in Hsel. rewrite Hpsk in Hsel. by apply hs_bind_inv in Hsel as (? & ? & _ & [= <- <- _]). }
  apply keeps_select in Hsel.
  apply hs_bind_inv in Hh as (ks & cx5 & Hks & Hh).
  apply into_handshake_inv in Hks as Hinto. apply keeps_into_handshake in Hks.
  do 2 keep_step Hh ltac:(auto with keeps). keep_step Hh ltac:(apply keeps_get).
  apply hs_bind_inv in Hh as (kh & cx8 & Hkh & Hh).
  apply client_secrets_inv in Hkh as Hsecrets. apply keeps_client_secrets in Hkh.
  keep_step Hh ltac:(apply keeps_fake_ccs). injection Hh as <- <-.
  destruct Hinto as (salt & shared & Hsalt & Hshared & ->). destruct Hsecrets as (Hkk & Hcl & Hsv).
  exists ours, theirs, shared. split_and!; try done.
  - cbn [ee_key_schedule]. split; [exists salt; split; [done|]; by rewrite Hkk|by rewrite Hkk|done|done].
  - unfold kept_context in *. destruct_and?. congruence.
  - unfold kept_context in *. destruct_and?. eauto 10 using still_trans.
Qed.

Lemma find_psk_index h i :
  get_psk_index h = Some i → ∃ e, e ∈ sh_extensions h ∧ se_get_type e = ET_PreSharedKey.
Proof.
  unfold get_psk_index, sh_find_extension. destruct (List.find _ _) as [e|] eqn:Hf; [|done].
  apply List.find_some in Hf as [Hin He]. apply bool_decide_eq_true in He. intros _.
  exists e. by rewrite <- list_elem_of_In in Hin.
Qed.

(** An accepted server hello: no session is selected, as that would be unsolicited. *)
Lemma server_hello_inv server n cx s m h a cx' :
  Waiting server n cx s →
  handle_server_hello node_config (hs_next s) m h cx = Done (Ok a, cx') →
  get_psk_index h = None ∧
  ∃ own cx1, ex_offered_key_share (hs_next s) = Some own ∧ kept_context cx cx1 ∧
    ((∃ o, a = AfterTls12 o ∧ cx' = cx1) ∨
     (∃ t resuming random suite early exts fake, a = AfterTls13 t ∧
        find_cipher_suite node_config (sh_cipher_suite h) = Some suite ∧
        (∀ prev, ex_suite (hs_next s) = Some prev → prev = suite) ∧
        tls13_handle_server_hello node_config h resuming server random suite
          (add_message m (start_hash (cs_hash suite) (ex_transcript_buffer (hs_next s)))) early exts own fake cx1
          = Done (Ok t, cx'))).
Proof.
  intros [(own & Hoff & _) _ _ _ Hserver _ _ Htypes _ _] Hh. unfold handle_server_hello in Hh.
  rewrite Hserver in Hh.
  keep_step Hh ltac:(apply keeps_get). keep_step Hh keeps_parts.
  do 2 keep_step Hh ltac:(auto with keeps).
  apply hs_bind_inv in Hh as (? & ? & Hun & Hh). apply refuse_if_inv in Hun as [Hun ->].
  split.
  { destruct (get_psk_index h) as [i|] eqn:Hi; [|done]. apply find_psk_index in Hi as (e & He & Htyp).
    assert (server_sent_unsolicited_extensions (in_sent_extensions (ex_input (hs_next s)))
      (sh_extensions h) [ET_RenegotiationInfo] = true) as Htrue; [|congruence].
    apply existsb_exists. exists e. split; [by apply list_elem_of_In|]. rewrite Htyp.
    by rewrite (bool_decide_false _ Htypes). }
  keep_step Hh ltac:(keeps_fields).
  keep_step Hh ltac:(unfold process_alpn_protocol; keeps_parts).
  keep_step Hh ltac:(auto with keeps).
  destruct (find_cipher_suite _ _) as [suite|] eqn:Hsuite; [|done].
  keep_step Hh ltac:(auto with keeps).
  apply hs_bind_inv in Hh as (? & ? & Hprev & Hh). apply refuse_if_inv in Hprev as [Hprev ->].
  keep_step Hh ltac:(keeps_fields). rewrite Hoff in Hh. match type of Hh with _ ?c = _ => exists own, c end. split; [done|].
  split; [eauto 20 using kept_trans|]. case_bool_decide.
  - right. apply hs_bind_inv in Hh as (t & cx3 & Ht & [= <- <-]). eexists t, _, _, suite, _, _, _.
    split_and!; [done|done| |exact Ht]. intros prev Hp. rewrite Hp in Hprev. simpl in Hprev.
    by apply negb_false_iff, bool_decide_eq_true in Hprev.
  - left. injection Hh as <- <-. by eexists.
Qed.

(** The secrets [kh] come from the agreement of the private key of a share of this connection
    with the share in a server hello that was received, of the same group; and from what was
    heard, which ends with that server hello, by its cipher suite. *)
Definition Agreed (cx : Context) (suite : SupportedCipherSuite) (transcript : HandshakeHash)
    (kh : KeyScheduleHandshake) : Prop :=
  ∃ k h bytes theirs shared before,
    offered cx k ∧ said (HP_ServerHello h) bytes ∧
    find_cipher_suite node_config (sh_cipher_suite h) = Some suite ∧
    get_key_share h = Some theirs ∧ ks_group theirs = ak_group k ∧
    kx_complete k (p16_bytes (ks_payload theirs)) = Ok shared ∧
    heard (cs_hash suite) cx before ∧
    hh_algorithm transcript = cs_hash suite ∧ hh_input transcript = before ++ bytes ∧
    SecretsOf suite transcript shared kh.

Lemma agreed_same cx cx' suite transcript kh :
  clear_messages cx' = clear_messages cx → Agreed cx suite transcript kh → Agreed cx' suite transcript kh.
Proof.
  intros Hm (k & h & bytes & theirs & shared & before & Hk & Hs & Hsu & Ht & Hg & Hc & Hh & Hrest).
  exists k, h, bytes, theirs, shared, before. split_and!; try done; [|by unfold heard; rewrite Hm|apply Hrest..].
  eapply offered_mono; [|exact Hk]. by rewrite Hm.
Qed.

Lemma server_hello_done server n cx s m h a cx' :
  message_said m (HP_ServerHello h) → Waiting server n cx s → (n ≤ 2)%nat →
  handle_server_hello node_config (hs_next s) m h cx = Done (Ok a, cx') →
  (length (clear_messages cx') ≤ 2)%nat ∧ still cx cx' ∧
  ∀ t, a = AfterTls13 t →
    Agreed cx' (ee_suite t) (ee_transcript t) (ee_key_schedule t) ∧
    ee_resuming_session t = None ∧ ee_server_name t = server.
Proof.
  intros (parsed & bytes & Hm & Hsaid) Hw Hn Hh. pose proof (server_hello_inv _ _ _ _ _ _ _ _ Hw Hh)
    as (Hpsk & own & cx1 & Hoff & (Hcraft & Hsent & _ & Hstill) & Hcase).
  destruct Hcase as [(o & -> & ->)|(t & resuming & random & suite & early & exts & fake & -> & Hsuite & Hprev & Ht)].
  { rewrite Hsent, (w_count _ _ _ _ Hw). by split_and!. }
  destruct Hw as [(own' & Hoff' & Hown) Halts _ _ _ _ Hcount _ Hheard _].
  rewrite Hoff in Hoff'. injection Hoff' as <-. specialize (Hheard _ Hprev).
  assert (∀ c, clear_messages c = clear_messages cx → ∀ k, offered cx k → offered c k) as Hmono
    by (intros c Hc k; apply offered_mono; by rewrite Hc).
  apply tls13_secret in Ht
    as (k & theirs & shared & Hk & Htheirs & Hgroup & Hc & Hso & Hsu & Htr & Hres & Hname & Hsame & Hstill2);
    [|by apply (Hmono cx1)|rewrite Hcraft; eapply Forall_impl; [exact Halts|by apply Hmono]|done].
  rewrite Hsame, Hsent, Hcount. split_and!; [done|by eapply still_trans|]. intros t' [= <-].
  split_and!; [|done..]. exists k, h, bytes, theirs, shared, (hb_buffer (ex_transcript_buffer (hs_next s))).
  rewrite Hsu, Htr. split_and!; try done.
  - eapply offered_mono; [|exact Hk]. by rewrite Hsame.
  - unfold heard in *. by rewrite Hsame, Hsent.
  - unfold add_message. by rewrite Hm.
  - unfold add_message. by rewrite Hm.
Qed.
End Said.

(** The server has answered with [p], encoded as [bytes]. *)
Definition answered (answers : list Message) (p : HandshakePayload) (bytes : list Z) : Prop :=
  ∃ m typ, m ∈ answers ∧ m_payload m = MP_Handshake (mkHandshake typ p) bytes.

(** C11: Whatever a server answers to the hello of the client, one after the other: when the
    handshake comes to the secrets of TLS 1.3, these are derived from the agreement of a private
    key, made together with a share that a hello of this connection contained, with the share of
    the same group in a server hello that is one of the answers. They are derived over the
    transcript that ends with the bytes of that server hello and begins with those of the one
    hello sent, or with the hash of the first hello, the bytes of a retry request among the
    answers and the second hello; its hash, and the schedule, are of the cipher suite that the
    server hello names. No session is resumed, and at most two hellos have been sent. *)
Theorem secret_of_sent_share config vs resuming hint server sni cx answers r cx' :
  build_tls_config = Done config →
  randomness_ok → hkdf_ok → hint ≠ Some (NG_Unknown 0x001E) → sni_of server = Done sni →
  extension_order (cx_craft cx) = [] → our_key_share_alt (cx_craft cx) = [] →
  ed_is_enabled (cx_early_data cx) = false → clear_messages cx = [] →
  (s ← start_handshake config vs resuming hint server [];
   handle_answers config vs s answers) cx = Done (Ok r, cx') →
  (length (clear_messages cx') ≤ 2)%nat ∧
  ∀ t, r = inr (AfterTls13 t) →
    Agreed (answered answers) cx' (ee_suite t) (ee_transcript t) (ee_key_schedule t) ∧
    ee_resuming_session t = None.
Proof.
  rewrite build_tls_config_done. intros [= <-] Hr Hkdf Hhint Hsni Horder Halts Hearly Hempty Hrun.
  apply hs_bind_inv in Hrun as (s & cx1 & Hstart & Hrun).
  destruct (waiting_first (answered answers) vs resuming hint server sni cx s cx1) as (Hw & Hs & _); [done..|].
  destruct answers as [|m answers]; [injection Hrun as <- <-; split; [rewrite (w_count _ _ _ _ _ Hw); lia|done]|].
  set (all := m :: answers) in *.
  assert (∀ m, m ∈ all → ∀ typ p b, m_payload m = MP_Handshake (mkHandshake typ p) b → message_said (answered all) m p)
    as Hsaid by (intros m' Hin typ p b Hp; eexists _, b; split; [done|]; by exists m', typ).
  apply hs_bind_inv in Hrun as (r1 & cx2 & Hm & Hrun). rewrite Hs in Hm. unfold handle_answer in Hm.
  destruct (m_payload m) as [|[typ []] b| |] eqn:Hp; try done;
    (apply Hsaid in Hp; [|by left]); apply hs_bind_inv in Hm as (x & cx3 & Hm & [= <- ->]).
  - injection Hrun as <- <-. destruct (server_hello_done _ _ _ _ _ _ _ _ _ Hp Hw ltac:(lia) Hm) as (Hl & _ & Ha).
    split; [done|]. intros t [= ->]. by destruct (Ha t eq_refl) as (? & ? & _).
  - destruct (waiting_retry (answered all) vs server sni (hs_next s) m h 1 cx1 x cx2 Hr Hkdf Hsni Hp)
      as (Hw2 & Hs2 & _); [by rewrite <- Hs|exact Hm|].
    destruct answers as [|m2 answers];
      [injection Hrun as <- <-; split; [rewrite (w_count _ _ _ _ _ Hw2); lia|done]|].
    apply hs_bind_inv in Hrun as (r2 & cx4 & Hm2 & Hrun). rewrite Hs2 in Hm2. unfold handle_answer in Hm2.
    destruct (m_payload m2) as [|[typ2 []] b2| |] eqn:Hp2; try done.
    apply Hsaid in Hp2; [|right; by left]. apply hs_bind_inv in Hm2 as (y & cx5 & Hm2 & [= <- ->]).
    injection Hrun as <- <-.
    destruct (server_hello_done _ _ _ _ _ _ _ _ _ Hp2 Hw2 ltac:(lia) Hm2) as (Hl & _ & Ha).
    split; [done|]. intros t [= ->]. by destruct (Ha t eq_refl) as (? & ? & _).
Qed.
End Runs.
