(* ===== verification/NodeTlsTraffic.v ===== *)
(** * NodeTlsTraffic: from whom a connection takes data

    With the configuration of src/src/tlsfp/tlsfp.rs, whatever the peer sends: a connection
    takes or sends application data only when the server has proved who it is, over the keys
    that were agreed on. A connection that turns to TLS 1.2 only stores what it receives. *)

From S2P Require Import Prelude TlsCodec TlsEnums TlsHello TlsMessages TlsRecord TlsSession Craft.
From S2P Require Import TlsContext TlsKeys TlsHandshake TlsClient NodeTls NodeTlsFacts NodeTlsRuns.

(** ** Steps that leave traffic alone *)

Definition Stills {A} (m : Hs A) : Prop := ∀ cx r cx', m cx = Done (r, cx') → still cx cx'.

Lemma stills_keeps {A} (m : Hs A) : Keeps m → Stills m.
Proof. intros Hm cx r cx' Hr. apply (Hm _ _ _ Hr). Qed.

Lemma stills_bind {A B} (m : Hs A) (f : A → Hs B) : Stills m → (∀ a, Stills (f a)) → Stills (m ≫= f).
Proof.
  intros Hm Hf cx r cx'. unfold mbind, hs_bind. destruct (m cx) as [[[a|e] cx1]|] eqn:Hcx; [| |done].
  - intros Hr. eapply still_trans; [by eapply Hm|by eapply Hf].
  - intros [= <- <-]. by apply (Hm _ _ _ Hcx).
Qed.

(** A computation that keeps the context, and what comes after it. *)
Lemma keep_or {A B} (m : Hs A) (f : A → Hs B) cx r cx' :
  Keeps m → (m ≫= f) cx = Done (r, cx') →
  (∃ e, r = Err e ∧ kept_context cx cx') ∨
  (∃ a cx1, m cx = Done (Ok a, cx1) ∧ kept_context cx cx1 ∧ f a cx1 = Done (r, cx')).
Proof.
  intros Hm. unfold mbind, hs_bind. destruct (m cx) as [[[a|e] cx1]|] eqn:Hcx; [| |done].
  - intros Hr. right. eexists _, _. split_and!; [done|by eapply Hm|done].
  - intros [= <- <-]. left. eexists. split; [done|]. by apply (Hm _ _ _ Hcx).
Qed.

Lemma kept_refl cx : kept_context cx cx.
Proof. by split_and!. Qed.

Section Traffic.
Context `{TlsCrypto, DnsNames, RingAead, RingHash, ServerVerifier}.

Lemma stills_server_hello config ex m h : Stills (handle_server_hello config ex m h).
Proof.
  unfold handle_server_hello. apply stills_bind; [apply stills_keeps; auto with keeps|intros cx].
  apply stills_bind; [apply stills_keeps; keeps_parts|intros version].
  do 3 (apply stills_bind; [apply stills_keeps; auto with keeps|intros _]).
  apply stills_bind; [apply stills_keeps; keeps_fields|intros _].
  apply stills_bind; [apply stills_keeps; unfold process_alpn_protocol; keeps_parts|intros _].
  apply stills_bind; [apply stills_keeps; auto with keeps|intros _].
  destruct (find_cipher_suite _ _) as [suite|]; [|apply stills_keeps; auto with keeps].
  do 2 (apply stills_bind; [apply stills_keeps; auto with keeps|intros _]).
  apply stills_bind; [apply stills_keeps; keeps_fields|intros _].
  case_match; [|apply stills_keeps; auto with keeps].
  destruct (ex_offered_key_share ex) as [ours|]; [|apply stills_keeps; auto with keeps].
  apply stills_bind; [|intros; apply stills_keeps; auto with keeps].
  unfold tls13_handle_server_hello. apply stills_bind; [apply stills_keeps, keeps_refuse|intros _].
  destruct (get_key_share h) as [theirs|]; [|apply stills_keeps; auto with keeps].
  apply stills_bind; [|intros k].
  { intros cx' r cx''. unfold choose_key_share, hs_lift.
    destruct (find_key_share _ _) as [[k|] d]; intros [= <- <-]; [by destruct cx'|by split]. }
  apply stills_bind; [apply stills_keeps, keeps_refuse|intros _].
  apply stills_bind; [apply stills_keeps, keeps_select|intros [pre res]].
  apply stills_bind; [apply stills_keeps, keeps_into_handshake|intros ks].
  do 3 (apply stills_bind; [apply stills_keeps; auto with keeps|intros ?]).
  apply stills_bind; [apply stills_keeps, keeps_client_secrets|intros kh].
  apply stills_bind; [apply stills_keeps, keeps_fake_ccs|intros f]. apply stills_keeps; auto with keeps.
Qed.

(** What the proofs of the server depend on stays as it is. *)
Definition alike (cx cx' : Context) : Prop :=
  clear_messages cx' = clear_messages cx ∧
  cr_peer_certificates (cx_rest cx') = cr_peer_certificates (cx_rest cx).

Lemma kept_alike cx cx' : kept_context cx cx' → alike cx cx'.
Proof. intros (_ & Hm & _ & []). by split. Qed.

Lemma alike_trans a b c : alike a b → alike b c → alike a c.
Proof. intros [] []. split; congruence. Qed.

Definition Alikes {A} (m : Hs A) : Prop := ∀ cx r cx', m cx = Done (r, cx') → alike cx cx'.

Lemma keeps_alikes {A} (m : Hs A) : Keeps m → Alikes m.
Proof. intros Hm cx r cx' Hr. eapply kept_alike, Hm, Hr. Qed.

Lemma alikes_bind {A B} (m : Hs A) (f : A → Hs B) : Alikes m → (∀ a, Alikes (f a)) → Alikes (m ≫= f).
Proof.
  intros Hm Hf cx r cx'. unfold mbind, hs_bind. destruct (m cx) as [[[a|e] cx1]|] eqn:Hcx; [| |done].
  - intros Hr. eapply alike_trans; [by eapply Hm|by eapply Hf].
  - intros [= <- <-]. by apply (Hm _ _ _ Hcx).
Qed.

(** ** What the server has proved *)

(** A message as it was read. *)
Definition read_as (m : HandshakePayload) (bytes : list Z) : Prop :=
  ∃ vers typ rest, handshake_read_version vers bytes = Ok (mkHandshake typ m, rest).

Definition well_read (m : Message) : Prop :=
  match m_payload m with
  | MP_Handshake parsed encoded => read_as (hm_payload parsed) encoded
  | _ => True
  end.

(** The keys of the handshake were agreed on in what begins the transcript. *)
Definition Keyed (cx : Context) (suite : SupportedCipherSuite) (hh : HandshakeHash)
    (kh : KeyScheduleHandshake) : Prop :=
  ∃ start later, Agreed read_as cx suite start kh ∧ hh_algorithm hh = hh_algorithm start ∧
    hh_input hh = hh_input start ++ later.

(** The certificates that the connection gives out are a chain which the verifier accepts for
    the server, and its key has signed the transcript up to this signature. *)
Definition Authenticated (server : PkiServerName) (hh : HandshakeHash) (cx : Context) : Prop :=
  ∃ chain end_entity intermediates ocsp now before signature dss,
    cr_peer_certificates (cx_rest cx) = Some chain ∧ chain_certs chain = end_entity :: intermediates ∧
    verify_server_cert end_entity intermediates server ocsp now = Ok tt ∧
    hh_input hh = before ++ signature ∧ read_as (HP_CertificateVerify dss) signature ∧
    verify_tls13_signature (construct_server_verify_message (hash_bytes (hh_algorithm hh) before))
      end_entity dss = Ok tt.

(** The Finished of the server: its keys and the transcript up to it. *)
Definition Confirmed (kh : KeyScheduleHandshake) (before after : HandshakeHash) : Prop :=
  ∃ finished tag later, read_as (HP_Finished tag) finished ∧
    sign_server_finish kh (get_current_hash before) = Done (payload_bytes tag) ∧
    hh_input after = hh_input before ++ finished ++ later.

Definition Proved (server : PkiServerName) (suite : SupportedCipherSuite) (hh : HandshakeHash)
    (cx : Context) : Prop :=
  ∃ kh before, Keyed cx suite before kh ∧ Authenticated server before cx ∧ Confirmed kh before hh.

(** No traffic so far. *)
Record quiet (cx : Context) : Prop := {
  quiet_plaintext : cv_chunks (cr_received_plaintext (cx_rest cx)) = [];
  quiet_receive : cr_may_receive_application_data (cx_rest cx) = false;
  quiet_log : EV_StartTraffic ∉ cx_log cx;
}.

Lemma quiet_still cx cx' : still cx cx' → quiet cx → quiet cx'.
Proof. intros [] []. split; [congruence..|auto]. Qed.

Lemma keyed_alike cx cx' suite hh kh : alike cx cx' → Keyed cx suite hh kh → Keyed cx' suite hh kh.
Proof.
  intros [Hm _] (start & later & Ha & Heq). exists start, later. split; [by eapply agreed_same|done].
Qed.

Lemma keyed_hear cx suite hh kh m : Keyed cx suite hh kh → Keyed cx suite (add_message m hh) kh.
Proof.
  intros (start & later & Ha & Halg & Hin). unfold add_message.
  destruct hh, (m_payload m) as [|p encoded| |]; try by exists start, later.
  exists start, (later ++ encoded). split_and!; [done|done|]. simpl in *. by rewrite Hin, <- app_assoc.
Qed.

Lemma authenticated_alike server hh cx cx' :
  alike cx cx' → Authenticated server hh cx → Authenticated server hh cx'.
Proof.
  intros [_ Hc] (chain & e & inter & ocsp & now & b & sg & dss & Hp & Hrest).
  exists chain, e, inter, ocsp, now, b, sg, dss. split; [congruence|done].
Qed.

Lemma proved_alike server suite hh cx cx' :
  alike cx cx' → Proved server suite hh cx → Proved server suite hh cx'.
Proof.
  intros Ha (kh & before & Hkey & Hauth & Hconf). exists kh, before.
  split_and!; [by eapply keyed_alike|by eapply authenticated_alike|done].
Qed.

(** ** The states of a connection *)

Definition PartsOk (server : PkiServerName) (p : HandshakeParts) (cx : Context) : Prop :=
  hp_server_name p = server ∧ Keyed cx (hp_suite p) (hp_transcript p) (hp_key_schedule p).

Definition StateOk (server : PkiServerName) (st : ClientState) (cx : Context) : Prop :=
  match st with
  | ST_Hello (ExpectServerHelloOrHelloRetryRequest next extra as s) =>
      quiet cx ∧ extra = [] ∧ Waiting read_as server 1 cx s
  | ST_Hello (ExpectServerHelloOnly next as s) => quiet cx ∧ ∃ n, Waiting read_as server n cx s ∧ (n ≤ 2)%nat
  | ST_EncryptedExtensions s =>
      quiet cx ∧ ee_resuming_session s = None ∧ ee_server_name s = server ∧
      Keyed cx (ee_suite s) (ee_transcript s) (ee_key_schedule s)
  | ST_CertificateOrCertReq p | ST_Certificate p _ | ST_CertificateVerify p _ _ =>
      quiet cx ∧ PartsOk server p cx
  | ST_Finished p _ => quiet cx ∧ PartsOk server p cx ∧ Authenticated server (hp_transcript p) cx
  | ST_Traffic s => et_server_name s = server ∧ Proved server (et_suite s) (et_transcript s) cx
  end.

(** What is known of a connection, also of one that has failed. *)
Definition Sound (server : PkiServerName) (cx : Context) : Prop :=
  quiet cx ∨ ∃ suite hh, Proved server suite hh cx.

Definition StepOk (server : PkiServerName) (r : result HsError ClientState) (cx : Context) : Prop :=
  match r with Ok st => StateOk server st cx | Err _ => Sound server cx end.

Lemma state_sound server st cx : StateOk server st cx → Sound server cx.
Proof.
  destruct st as [[]| | | | | |]; intros Hs; try (left; apply Hs). right. eexists _, _. apply Hs.
Qed.

Lemma quiet_kept cx cx' : kept_context cx cx' → quiet cx → quiet cx'.
Proof. intros (_ & _ & _ & Hs). by apply quiet_still. Qed.

Lemma parts_kept server p cx cx' : kept_context cx cx' → PartsOk server p cx → PartsOk server p cx'.
Proof. intros Hk [Hn Hkey]. split; [done|eapply keyed_alike; [by apply kept_alike|done]]. Qed.

Lemma parts_hear server p cx m : PartsOk server p cx → PartsOk server (hear m p) cx.
Proof. intros [Hn Hkey]. destruct p. split; [done|]. by apply keyed_hear. Qed.

(** One step on, with [Hk] what was kept so far; a step that fails leaves [quiet]. *)
Ltac keep_next Hh Hk a Ha keeps :=
  let Hn := fresh "Hn" in
  apply keep_or in Hh as [(? & -> & Hn)|(a & ? & Ha & Hn & Hh)];
    [left; eapply quiet_kept; [exact (kept_trans _ _ _ Hk Hn)|done]
    |apply (kept_trans _ _ _ Hk) in Hn; clear Hk; rename Hn into Hk
    |keeps].

(** A computation that keeps the context and gives a state that is fine there. *)
Lemma step_kept server (m : Hs ClientState) cx r cx' :
  Keeps m → quiet cx → m cx = Done (r, cx') →
  (∀ st, r = Ok st → kept_context cx cx' → quiet cx' → StateOk server st cx') → StepOk server r cx'.
Proof.
  intros Hm Hq Hr Hst. apply Hm in Hr as Hk. pose proof (quiet_kept _ _ Hk Hq).
  destruct r as [st|e]; [by apply Hst|by left].
Qed.

Lemma keeps_inappropriate {A} m : Keeps (inappropriate (A := A) m).
Proof. apply keeps_err. Qed.
Hint Resolve keeps_inappropriate : keeps.

Lemma keeps_rest f :
  (∀ r, cr_received_plaintext (f r) = cr_received_plaintext r ∧
        cr_may_receive_application_data (f r) = cr_may_receive_application_data r ∧
        cr_peer_certificates (f r) = cr_peer_certificates r) → Keeps (modify_rest f).
Proof.
  intros Hf. apply keeps_modify. intros []. destruct (Hf cx_rest) as (? & ? & ?). split_and!; [done..|]. by split.
Qed.

Lemma keeps_set_encrypter ks secret : Keeps (set_encrypter ks secret).
Proof. by apply keeps_keys. Qed.
Lemma keeps_set_decrypter ks secret : Keeps (set_decrypter ks secret).
Proof. by apply keeps_keys. Qed.
Hint Resolve keeps_set_encrypter keeps_set_decrypter keeps_logged : keeps.

(** ** Up to the certificates *)

Lemma encrypted_extensions_step server config s m cx r cx' :
  StateOk server (ST_EncryptedExtensions s) cx →
  handle_encrypted_extensions config s m cx = Done (r, cx') → StepOk server r cx'.
Proof.
  intros (Hq & Hres & Hname & Hkey) Hh. unfold handle_encrypted_extensions in Hh. rewrite Hres in Hh.
  set (p := hear m _) in Hh.
  assert (PartsOk server p cx) as Hp by (apply parts_hear; by split). clearbody p.
  eapply step_kept in Hh; [exact Hh| |done|].
  - destruct (m_payload m) as [|[? []] ?| |]; auto with keeps.
    unfold validate_encrypted_extensions, process_alpn_protocol. keeps_parts.
  - intros st -> Hk Hq'. destruct (m_payload m) as [|[? []] ?| |]; try done.
    do 2 apply hs_bind_inv in Hh as (? & ? & _ & Hh). destruct (exts_early_data_offered _); [done|].
    injection Hh as <- ->. split; [done|by eapply parts_kept].
Qed.

Lemma keeps_certificate_of config m : Keeps (certificate_of config m).
Proof.
  unfold certificate_of. destruct (is_handshake_type _ _).
  - destruct (m_payload m) as [|[? []] ?| |]; auto with keeps.
    apply keeps_bind; [apply keeps_rest; by intros []|intros _]. case_match; [|auto with keeps].
    destruct (decompress _ _) as [|[]]; auto with keeps.
  - destruct (m_payload m) as [|[? []] ?| |]; auto with keeps.
Qed.

Lemma certificate_step server config p auth m cx r cx' :
  quiet cx → PartsOk server p cx → handle_certificate config p auth m cx = Done (r, cx') → StepOk server r cx'.
Proof.
  intros Hq Hp Hh. unfold handle_certificate in Hh. apply (parts_hear _ _ _ m) in Hp.
  set (p' := hear m p) in *. clearbody p'.
  eapply step_kept in Hh as Hstep; [exact Hstep| |done|].
  - apply keeps_bind; [apply keeps_certificate_of|intros c]. keeps_parts.
  - intros st -> Hk Hq'. do 3 apply hs_bind_inv in Hh as (? & ? & _ & Hh). injection Hh as <- ->.
    split; [done|by eapply parts_kept].
Qed.

Lemma certificate_request_step server config p m cx r cx' :
  quiet cx → PartsOk server p cx → handle_certificate_request config p m cx = Done (r, cx') → StepOk server r cx'.
Proof.
  intros Hq Hp Hh. unfold handle_certificate_request in Hh. apply (parts_hear _ _ _ m) in Hp.
  set (p' := hear m p) in *. clearbody p'.
  eapply step_kept in Hh as Hstep; [exact Hstep| |done|].
  - destruct (m_payload m) as [|[? []] ?| |]; keeps_parts.
  - intros st -> Hk Hq'. destruct (m_payload m) as [|[? []] ?| |]; try done.
    do 2 apply hs_bind_inv in Hh as (? & ? & _ & Hh). injection Hh as <- ->.
    split; [done|by eapply parts_kept].
Qed.

Lemma verified_inv r cx x cx' : verified r cx = Done (Ok x, cx') → r = Ok tt ∧ cx' = cx.
Proof. unfold verified. destruct r as [[]|]; [|done]. by intros [= _ <-]. Qed.

Lemma keeps_verified r : Keeps (verified r).
Proof. unfold verified, cert_verify_error. destruct r; auto with keeps. Qed.

Lemma certificate_verify_step server p cert auth now m cx r cx' :
  quiet cx → PartsOk server p cx → well_read m →
  handle_certificate_verify p cert auth now m cx = Done (r, cx') → StepOk server r cx'.
Proof.
  intros Hq Hp Hread Hh. unfold handle_certificate_verify, well_read in *.
  destruct (m_payload m) as [|[typ []] encoded| |] eqn:Hm; try by (injection Hh as <- <-; left).
  destruct (chain_certs (scd_cert_chain cert)) as [|e inter] eqn:Hchain; [by injection Hh as <- <-; left|].
  apply keep_or in Hh as [(? & -> & Hk)|(? & ? & Hv & _ & Hh)];
    [left; by eapply quiet_kept| |apply keeps_verified].
  apply verified_inv in Hv as [Hverify ->].
  apply keep_or in Hh as [(? & -> & Hk)|(? & ? & Hv & _ & Hh)];
    [left; by eapply quiet_kept| |apply keeps_verified].
  apply verified_inv in Hv as [Hsig ->]. injection Hh as <- <-.
  destruct Hp as [Hname Hkey]. destruct cx as [? ? ? ? ? ? ? ? ? ? []].
  split; [by destruct Hq; split|]. split; [by apply parts_hear|].
  exists (scd_cert_chain cert), e, inter, (scd_ocsp_response cert), now, (hh_input (hp_transcript p)), encoded, d.
  subst server. destruct p as [? ? ? [] ?]. unfold hear, add_message. rewrite Hm. by split_and!.
Qed.

(** ** The end of the handshake *)

Definition Extends (t t' : HandshakeHash) : Prop :=
  hh_algorithm t' = hh_algorithm t ∧ ∃ later, hh_input t' = hh_input t ++ later.

Lemma extends_refl t : Extends t t.
Proof. split; [done|]. exists []. by rewrite app_nil_r. Qed.
Lemma extends_trans a b c : Extends a b → Extends b c → Extends a c.
Proof.
  intros [Ha (l & Hl)] [Hb (l' & Hl')]. split; [congruence|]. exists (l ++ l'). by rewrite Hl', Hl, app_assoc.
Qed.
Lemma extends_add m t : Extends t (add_message m t).
Proof.
  unfold add_message. destruct t, (m_payload m); simpl; try apply extends_refl. split; [done|]. by eexists.
Qed.

Lemma emit_extends hm t cx t' cx' : emit_protected hm t cx = Done (Ok t', cx') → Extends t t'.
Proof.
  intros Hh. do 2 apply hs_bind_inv in Hh as (? & ? & _ & Hh). injection Hh as <- _. apply extends_add.
Qed.

Lemma keeps_emit hm t : Keeps (emit_protected hm t).
Proof.
  apply keeps_bind; [apply keeps_outcome|intros payload]. apply keeps_bind; [by apply keeps_wire|intros; apply keeps_ret].
Qed.
Hint Resolve keeps_emit : keeps.

Lemma client_auth_extends auth t cx t' cx' : emit_client_auth auth t cx = Done (Ok t', cx') → Extends t t'.
Proof.
  destruct auth as [[ctx|key signer ctx]|]; intros Hh.
  - by eapply emit_extends.
  - do 2 apply hs_bind_inv in Hh as (? & ? & _ & Hh). apply hs_bind_inv in Hh as (t1 & cx1 & Ht & Hh).
    apply emit_extends in Ht. unfold emit_certverify_tls13 in Hh. destruct (signer_sign _ _); [|done].
    apply emit_extends in Hh. by eapply extends_trans.
  - injection Hh as <- _. apply extends_refl.
Qed.

Lemma keeps_assert b : Keeps (hs_assert b).
Proof. intros cx r cx'. unfold hs_assert. destruct b; [|done]. intros [= _ <-]. apply kept_refl. Qed.
Hint Resolve keeps_assert : keeps.

Lemma keeps_client_auth auth t : Keeps (emit_client_auth auth t).
Proof.
  destruct auth as [[ctx|key signer ctx]|]; [apply keeps_emit| |apply keeps_ret].
  apply keeps_bind; [apply keeps_get|intros]. apply keeps_bind; [apply keeps_assert|intros _].
  apply keeps_bind; [apply keeps_emit|intros t']. unfold emit_certverify_tls13.
  destruct (signer_sign _ _); [apply keeps_emit|apply keeps_err].
Qed.

(** The end of the early data, if there was any. *)
Definition end_early (p : HandshakeParts) (t : HandshakeHash) (early : bool) : Hs HandshakeHash :=
  if early then
    t ← emit_end_of_early_data_tls13 t;
    _ ← hs_modify (λ cx, cx <| cx_early_traffic := false |>);
    _ ← early_finished;
    _ ← set_handshake_encrypter (hp_key_schedule p);
    mret t
  else mret t.

Lemma keeps_end_early p t early : Keeps (end_early p t early).
Proof.
  unfold end_early, early_finished, modify_early, set_handshake_encrypter, emit_end_of_early_data_tls13.
  destruct early; [|apply keeps_ret].
  apply keeps_bind; [apply keeps_emit|intros]. keeps_parts.
Qed.

Lemma end_early_extends p t early cx t' cx' : end_early p t early cx = Done (Ok t', cx') → Extends t t'.
Proof.
  destruct early; intros Hh; [|injection Hh as <- _; apply extends_refl].
  apply hs_bind_inv in Hh as (t1 & ? & Ht & Hh). do 3 apply hs_bind_inv in Hh as (? & ? & _ & Hh).
  injection Hh as <- _. by eapply emit_extends.
Qed.

Lemma keeps_pre_finished kh h1 h2 key_log random : Keeps (into_pre_finished_client_traffic kh h1 h2 key_log random).
Proof.
  apply keeps_bind; [|intros; apply keeps_bind; [apply keeps_outcome|intros; apply keeps_ret]].
  unfold traffic_new. repeat (apply keeps_bind; [auto with keeps|intros]). apply keeps_ret.
Qed.

Lemma keeps_into_traffic t : Keeps (client_into_traffic t).
Proof. unfold client_into_traffic. keeps_parts. Qed.

Lemma starts_alike cx r cx' :
  (_ ← modify_rest (λ r, r <| cr_may_receive_application_data := true |>); wire EV_StartTraffic) cx =
    Done (r, cx') → alike cx cx'.
Proof.
  intros [= _ <-]. destruct cx as [? ? ? ? ? ? ? ? ? ? []]. split; [|done].
  unfold clear_messages. simpl. by rewrite omap_app, app_nil_r.
Qed.

Lemma finished_step server config p auth m cx r cx' :
  quiet cx → PartsOk server p cx → Authenticated server (hp_transcript p) cx → well_read m →
  handle_finished config p auth m cx = Done (r, cx') → StepOk server r cx'.
Proof.
  intros Hq [Hname Hkey] Hauth Hread Hh. unfold handle_finished, well_read in *.
  destruct (m_payload m) as [|[typ []] encoded| |] eqn:Hm; try by (injection Hh as <- <-; left).
  rename p0 into finished.
  simpl in Hread. pose proof (kept_refl cx) as Hk.
  keep_next Hh Hk tag Htag ltac:(auto with keeps). unfold hs_outcome in Htag.
  destruct (sign_server_finish _ _) as [tag'|] eqn:Hsign; [|done]. injection Htag as -> <-.
  keep_next Hh Hk u Hr ltac:(apply keeps_refuse).
  apply refuse_if_inv in Hr as [Hr ->]. apply negb_false_iff, bool_decide_eq_true in Hr as ->.
  keep_next Hh Hk early Hget ltac:(apply keeps_get). clear Hget.
  keep_next Hh Hk t1 Hearly ltac:(apply (keeps_end_early p)). apply (end_early_extends p) in Hearly.
  keep_next Hh Hk t2 Hauthed ltac:(apply keeps_client_auth). apply client_auth_extends in Hauthed.
  keep_next Hh Hk pre Hpre ltac:(apply keeps_pre_finished). destruct pre as [pre verify_data].
  keep_next Hh Hk t3 Hfin ltac:(apply keeps_emit). apply emit_extends in Hfin.
  keep_next Hh Hk u1 Hu1 ltac:(auto with keeps). keep_next Hh Hk u2 Hu2 ltac:(auto with keeps).
  keep_next Hh Hk kt Hkt ltac:(apply keeps_into_traffic).
  injection Hh as <- <-. split; [done|].
  apply kept_alike in Hk. eapply proved_alike; [eapply alike_trans; [exact Hk|by eapply starts_alike]|].
  exists (hp_key_schedule p), (hp_transcript p).
  split_and!; [done..|]. destruct (extends_trans _ _ _ Hearly (extends_trans _ _ _ Hauthed Hfin)) as [_ (later & Hl)].
  exists encoded, finished, later. split_and!; [done|done|]. cbn [et_transcript]. rewrite Hl. unfold add_message.
  rewrite Hm. destruct (hp_transcript p). simpl. by rewrite <- app_assoc.
Qed.

(** ** Traffic *)

Lemma alikes_rest f : (∀ r, cr_peer_certificates (f r) = cr_peer_certificates r) → Alikes (modify_rest f).
Proof. intros Hf cx r cx' [= <- <-]. destruct cx. by split; [|apply Hf]. Qed.

Lemma keeps_should_update k : Keeps (should_update_key k).
Proof. unfold should_update_key. keeps_parts. Qed.

Lemma keeps_notify : Keeps enqueue_notification.
Proof.
  unfold enqueue_notification. apply keeps_bind; [auto with keeps|intros].
  apply keeps_bind; [by apply keeps_wire|intros]. keeps_fields.
Qed.

Lemma keeps_key_update s k : Keeps (handle_key_update s k).
Proof.
  unfold handle_key_update, update_encrypter_and_notify, update_decrypter.
  apply keeps_bind; [auto with keeps|intros _]. apply keeps_bind; [apply keeps_should_update|intros update].
  apply keeps_bind.
  - destruct update; [|auto with keeps]. apply keeps_bind; [auto with keeps|intros [secret t]].
    apply keeps_bind; [apply keeps_notify|auto with keeps].
  - intros ks. apply keeps_bind; [|auto with keeps].
    apply keeps_bind; [auto with keeps|intros [secret t]]. auto with keeps.
Qed.

Lemma key_update_inv s k cx s' cx' :
  handle_key_update s k cx = Done (Ok s', cx') →
  et_server_name s' = et_server_name s ∧ et_suite s' = et_suite s ∧ et_transcript s' = et_transcript s.
Proof.
  intros Hh. do 4 apply hs_bind_inv in Hh as (? & ? & _ & Hh). injection Hh as <- _. by destruct s.
Qed.

Lemma alikes_traffic s now m : Alikes (handle_traffic s now m).
Proof.
  unfold handle_traffic. destruct (m_payload m) as [|[? []] ?| |]; try (apply keeps_alikes; auto with keeps; done).
  - apply keeps_alikes. unfold handle_new_ticket_tls13. keeps_parts.
  - apply keeps_alikes, keeps_bind; [apply keeps_key_update|auto with keeps].
  - apply alikes_bind; [apply alikes_rest; by intros []|]. intros. apply keeps_alikes, keeps_ret.
Qed.

Lemma traffic_inv s now m cx st cx' :
  handle_traffic s now m cx = Done (Ok st, cx') →
  ∃ s', st = ST_Traffic s' ∧ et_server_name s' = et_server_name s ∧ et_suite s' = et_suite s ∧
    et_transcript s' = et_transcript s.
Proof.
  unfold handle_traffic. destruct (m_payload m) as [|[? []] ?| |]; try done; intros Hh.
  - apply hs_bind_inv in Hh as (? & ? & _ & Hh). injection Hh as <- _. by exists s.
  - apply hs_bind_inv in Hh as (s' & ? & Hu & Hh). injection Hh as <- _. exists s'. split; [done|].
    by eapply key_update_inv.
  - apply hs_bind_inv in Hh as (? & ? & _ & Hh). injection Hh as <- _. by exists s.
Qed.

Lemma traffic_step server s now m cx r cx' :
  StateOk server (ST_Traffic s) cx → handle_traffic s now m cx = Done (r, cx') → StepOk server r cx'.
Proof.
  intros [Hname Hp] Hh. apply alikes_traffic in Hh as Ha. apply (proved_alike _ _ _ _ _ Ha) in Hp.
  destruct r as [st|e].
  - apply traffic_inv in Hh as (s' & -> & Hn & Hs & Ht). split; [congruence|by rewrite Hs, Ht].
  - right. by eexists _, _.
Qed.
(** ** The hellos *)

Definition outcome_is {A} (r : result HsError A) (P : A → Prop) : Prop :=
  match r with Ok a => P a | Err _ => True end.

(** One step on in a request that either fails, with what it has kept, or goes on. *)
Ltac retry_next Hh Hk keeps :=
  let Hn := fresh "Hn" in
  apply keep_or in Hh as [(? & -> & Hn)|(? & ? & _ & Hn & Hh)];
    [left; eexists; split; [done|exact (kept_trans _ _ _ Hk Hn)]
    |apply (kept_trans _ _ _ Hk) in Hn; clear Hk; rename Hn into Hk
    |keeps].

(** A retry request either fails with the context as it was, or leads to another hello. *)
Lemma retry_cases vs next offered_share m hrr cx r cx' :
  ex_offered_key_share next = Some offered_share →
  handle_hello_retry_request node_config vs next [] m hrr cx = Done (r, cx') →
  (∃ e, r = Err e ∧ kept_context cx cx') ∨
  (∃ own suite transcript cx1, kept_context cx cx1 ∧
     emit_client_hello_for_retry node_config vs transcript (Some hrr) (Some own) [] suite (ex_input next) cx1 =
       Done (r, cx')).
Proof.
  intros Hoff Hh. unfold handle_hello_retry_request in Hh. rewrite Hoff in Hh.
  pose proof (kept_refl cx) as Hk.
  do 8 retry_next Hh Hk ltac:(auto with keeps). retry_next Hh Hk ltac:(keeps_fields).
  destruct (find_cipher_suite _ _) as [cs|].
  2:{ left. injection Hh as <- <-. eexists. split; [done|]. eapply kept_trans; [exact Hk|by apply keeps_event]. }
  do 2 retry_next Hh Hk ltac:(keeps_fields). retry_next Hh Hk ltac:(apply keeps_retry_share).
  right. by eexists _, _, _, _.
Qed.

Lemma retry_step server sni next m hrr n cx r cx' :
  randomness_ok → hkdf_ok → sni_of server = Done sni → message_said read_as m (HP_HelloRetryRequest hrr) →
  Waiting read_as server n cx (ExpectServerHelloOrHelloRetryRequest next []) →
  handle_hello_retry_request node_config supported_verify_schemes next [] m hrr cx = Done (r, cx') →
  still cx cx' ∧ outcome_is r (λ s, Waiting read_as server (S n) cx' s ∧ s = ExpectServerHelloOnly (hs_next s)).
Proof.
  intros Hr Hkdf Hsni Hsaid Hw Hh. destruct r as [s|e].
  { destruct (waiting_retry _ _ _ _ _ _ _ _ _ _ _ Hr Hkdf Hsni Hsaid Hw Hh) as (? & ? & ?). by split. }
  split; [|done]. destruct Hw as [(own & Hoff & _) _ Horder Hearly Hserver _ _ _ _ _]. simpl in *.
  destruct (retry_cases _ _ _ _ _ _ _ _ Hoff Hh) as [(e' & _ & Hk)|(o & suite & t & cx1 & (Hc & _ & He & _) & Hemit)];
    [apply Hk|].
  destruct (new_alternative_total (Some hrr) o cx1 Hr) as [alt Halt].
  destruct (node_emit supported_verify_schemes t (Some hrr) o suite (ex_input next) cx1 sni alt)
    as (s1 & cx2 & Hemit' & _); [done|by rewrite Hserver|by rewrite Hc|auto|done|].
  by rewrite Hemit in Hemit'.
Qed.

Lemma agreed_keyed cx t :
  Agreed read_as cx (ee_suite t) (ee_transcript t) (ee_key_schedule t) →
  Keyed cx (ee_suite t) (ee_transcript t) (ee_key_schedule t).
Proof. intros Ha. exists (ee_transcript t), []. by rewrite app_nil_r. Qed.

Lemma server_hello_step server n cx s m h r cx' :
  message_said read_as m (HP_ServerHello h) →
  Waiting read_as server n cx s → (n ≤ 2)%nat → quiet cx →
  handle_server_hello node_config (hs_next s) m h cx = Done (r, cx') →
  quiet cx' ∧ outcome_is r (λ a, ∀ t, a = AfterTls13 t → StateOk server (ST_EncryptedExtensions t) cx').
Proof.
  intros Hsaid Hw Hn Hq Hh. apply stills_server_hello in Hh as Hs. pose proof (quiet_still _ _ Hs Hq) as Hq'.
  split; [done|]. destruct r as [a|e]; [|done].
  destruct (server_hello_done _ _ _ _ _ _ _ _ _ Hsaid Hw Hn Hh) as (_ & _ & Ha). intros t ->.
  destruct (Ha t eq_refl) as (Hagreed & Hres & Hname). split_and!; try done. by apply agreed_keyed.
Qed.

Lemma state_kept server st cx cx' : kept_context cx cx' → StateOk server st cx → StateOk server st cx'.
Proof.
  intros Hk. pose proof (kept_alike _ _ Hk) as Ha.
  destruct st as [[next extra|next]|s|p|p auth|p cert auth|p auth|s]; simpl.
  - intros (Hq & He & Hw). split_and!; eauto using quiet_kept, waiting_kept.
  - intros (Hq & n & Hw & Hn). split; [by eapply quiet_kept|]. exists n. eauto using waiting_kept.
  - intros (Hq & Hres & Hn & Hkey). split_and!; eauto using quiet_kept, keyed_alike.
  - intros [Hq Hp]. split_and!; eauto using quiet_kept, parts_kept.
  - intros [Hq Hp]. split_and!; eauto using quiet_kept, parts_kept.
  - intros [Hq Hp]. split_and!; eauto using quiet_kept, parts_kept.
  - intros (Hq & Hp & Hauth). split_and!; eauto using quiet_kept, parts_kept, authenticated_alike.
  - intros [Hn Hp]. split_and!; eauto using proved_alike.
Qed.

Lemma sound_kept server cx cx' : kept_context cx cx' → Sound server cx → Sound server cx'.
Proof.
  intros Hk [Hq|(suite & hh & Hp)]; [left; by eapply quiet_kept|]. right. exists suite, hh.
  eapply proved_alike; [by apply kept_alike|done].
Qed.

(** ** Messages *)

Definition Handled (server : PkiServerName) (r : result HsError (ClientState + option Tls12ClientSessionValue))
    (cx : Context) : Prop :=
  match r with Ok (inl st) => StateOk server st cx | _ => Sound server cx end.

Lemma handled_step server (m : Hs ClientState) cx r cx' :
  (∀ r cx', m cx = Done (r, cx') → StepOk server r cx') →
  (inl <$> m) cx = Done (r, cx') → Handled server r cx'.
Proof.
  intros Hm. unfold fmap, hs_fmap, mbind, hs_bind. destruct (m cx) as [[[a|e] cx1]|] eqn:Hcx; [| |done].
  - intros [= <- <-]. by apply (Hm (Ok a)).
  - intros [= <- <-]. by apply (Hm (Err e)).
Qed.

Lemma hello_step server sni now s m cx r cx' :
  randomness_ok → hkdf_ok → sni_of server = Done sni → well_read m →
  StateOk server (ST_Hello s) cx → state_handle node_config now (ST_Hello s) m cx = Done (r, cx') →
  Handled server r cx'.
Proof.
  intros Hr Hkdf Hsni Hread Hs. unfold state_handle. unfold mbind at 1, hs_bind at 1.
  destruct (handle_answer _ _ _ _ _) as [[r1 cx1]|] eqn:Ha; [|done]. unfold handle_answer in Ha.
  assert (∀ typ p b, m_payload m = MP_Handshake (mkHandshake typ p) b → message_said read_as m p) as Hsaid.
  { intros typ p b Hp. unfold well_read in Hread. rewrite Hp in Hread. by eexists _, b. }
  assert (∀ h n, message_said read_as m (HP_ServerHello h) → Waiting read_as server n cx s → (n ≤ 2)%nat → quiet cx →
    (inr <$> handle_server_hello node_config (hs_next s) m h) cx = Done (r1, cx1) →
    match r1 with
    | Ok a => Done (Ok match a with
                       | inl s => inl (ST_Hello s)
                       | inr (AfterTls13 s) => inl (ST_EncryptedExtensions s)
                       | inr (AfterTls12 v) => inr v
                       end, cx1)
    | Err e => Done (Err e, cx1) end = Done (r, cx') → Handled server r cx') as Hhello.
  { intros h n Hm Hw Hn Hq. unfold fmap, hs_fmap, mbind, hs_bind.
    destruct (handle_server_hello _ _ _ _ _) as [[r2 cx2]|] eqn:Hh; [|done].
    destruct (server_hello_step _ _ _ _ _ _ _ _ Hm Hw Hn Hq Hh) as [Hq' Hok].
    destruct r2 as [[t|v]|e]; intros [= <- <-] [= <- <-]; [by apply Hok|by left..]. }
  destruct s as [next extra|next]; simpl in Hs.
  - destruct Hs as (Hq & -> & Hw). destruct (m_payload m) as [|[? []] ?| |];
      try (injection Ha as <- <-; intros [= <- <-]; by left); [by eapply Hhello; eauto|].
    unfold fmap, hs_fmap, mbind, hs_bind in Ha.
    destruct (handle_hello_retry_request _ _ _ _ _ _ _) as [[r2 cx2]|] eqn:Hh; [|done].
    destruct (retry_step _ _ _ _ _ _ _ _ _ Hr Hkdf Hsni (Hsaid _ _ _ eq_refl) Hw Hh) as [Hstill Hok].
    pose proof (quiet_still _ _ Hstill Hq).
    destruct r2 as [s2|e]; injection Ha as <- <-; intros [= <- <-]; [|by left].
    destruct Hok as [Hw2 Hs2]. rewrite Hs2 in *. split; [done|]. eauto.
  - destruct Hs as (Hq & n & Hw & Hn). destruct (m_payload m) as [|[? []] ?| |];
      try (injection Ha as <- <-; intros [= <- <-]; by left). by eapply Hhello; eauto.
Qed.

Lemma state_step server sni now st m cx r cx' :
  randomness_ok → hkdf_ok → sni_of server = Done sni → well_read m →
  StateOk server st cx → state_handle node_config now st m cx = Done (r, cx') → Handled server r cx'.
Proof.
  intros Hr Hkdf Hsni Hread Hs. destruct st as [s|s|p|p auth|p cert auth|p auth|s].
  - by eapply hello_step.
  - apply handled_step. intros. by eapply encrypted_extensions_step.
  - destruct Hs as [Hq Hp]. apply handled_step. intros r1 cx1. unfold handle_certificate_or_certreq.
    destruct (m_payload m) as [|[? []] ?| |];
      try (intros [= <- <-]; by left); eauto using certificate_step, certificate_request_step.
  - destruct Hs. apply handled_step. eauto using certificate_step.
  - destruct Hs. apply handled_step. eauto using certificate_verify_step.
  - destruct Hs as (? & ? & ?). apply handled_step. eauto using finished_step.
  - apply handled_step. intros. by eapply traffic_step.
Qed.

Lemma main_protocol_step server sni now st m cx r cx' :
  randomness_ok → hkdf_ok → sni_of server = Done sni → well_read m →
  StateOk server st cx → process_main_protocol node_config now st m cx = Done (r, cx') → Handled server r cx'.
Proof.
  intros Hr Hkdf Hsni Hread Hs. unfold process_main_protocol. case_match.
  { intros [= <- <-]. eapply state_kept; [by apply keeps_event|done]. }
  destruct (state_handle _ _ _ _ _) as [[r1 cx1]|] eqn:Hh; [|done]. eapply state_step in Hh; try done.
  destruct r1 as [?|e]; [by intros [= <- <-]|]. simpl in Hh.
  destruct e; intros [= <- <-]; try done; (eapply sound_kept; [by apply keeps_event|done]).
Qed.

Lemma keeps_alert a : Keeps (process_alert a).
Proof.
  unfold process_alert. destruct (al_level a); try apply keeps_fatal.
  all: case_match; [apply keeps_rest; by intros []|]; case_match; [|apply keeps_err].
  all: apply keeps_bind; [apply keeps_get|intros]; case_match; [apply keeps_fatal|apply keeps_ret].
Qed.

Lemma message_well_read p m : message_of_plain p = Ok m → well_read m.
Proof.
  destruct p as [typ vers bytes]. unfold message_of_plain, well_read. simpl. destruct typ; simpl; try done.
  - destruct (ccs_read bytes) as [[]|]; [|done]. by intros [= <-].
  - destruct (alert_read bytes) as [[]|]; [|done]. by intros [= <-].
  - destruct (handshake_read_version vers bytes) as [[[typ pay] rest]|] eqn:Hr; [|done].
    intros [= <-]. by exists vers, typ, rest.
  - by intros [= <-].
Qed.

Lemma process_msg_step server sni now st m cx r cx' :
  randomness_ok → hkdf_ok → sni_of server = Done sni →
  StateOk server st cx → process_msg node_config now st m cx = Done (r, cx') → Handled server r cx'.
Proof.
  intros Hr Hkdf Hsni Hs Hh. pose proof (state_sound _ _ _ Hs) as Hsound. unfold process_msg in Hh.
  apply keep_or in Hh as [(? & -> & Hk)|(r0 & cx0 & Hget & _ & Hh)];
    [by eapply sound_kept| |apply keeps_get].
  injection Hget as <- <-. case_match.
  { case_match; [injection Hh as <- <-; eapply sound_kept; [by apply keeps_event|done]|].
    apply keep_or in Hh as [(? & -> & Hk)|(? & cx1 & _ & Hk & Hh)];
      [by eapply sound_kept| |apply keeps_rest; by intros []].
    injection Hh as <- <-. by eapply state_kept. }
  destruct (message_of_plain m) as [m'|e] eqn:Hm.
  2:{ injection Hh as <- <-. eapply sound_kept; [by apply keeps_event|done]. }
  apply message_well_read in Hm.
  destruct (m_payload m') eqn:Hp; try (by eapply main_protocol_step).
  apply keep_or in Hh as [(? & -> & Hk)|(? & cx1 & _ & Hk & Hh)];
    [by eapply sound_kept| |apply keeps_alert].
  injection Hh as <- <-. by eapply state_kept.
Qed.

(** ** Connections *)

Definition ConnectionOk (server : PkiServerName) (c : Connection) (cx : Context) : Prop :=
  match c with CN_Live st => StateOk server st cx | _ => Sound server cx end.

Lemma connection_sound server c cx : ConnectionOk server c cx → Sound server cx.
Proof. destruct c; [apply state_sound|done..]. Qed.

Lemma keeps_deframer_error e : Keeps (deframer_error e).
Proof. destruct e; try apply keeps_fatal; apply keeps_err. Qed.

Lemma aligned_kept b cx : kept_context cx (cx <| cx_aligned_handshake := b |>).
Proof. destruct cx. split_and!; try done. Qed.

Lemma packets_step server sni now input : ∀ st cx c r cx',
  randomness_ok → hkdf_ok → sni_of server = Done sni → StateOk server st cx →
  process_packets node_config now st input cx = Done (c, r, cx') → ConnectionOk server c cx'.
Proof.
  induction input as [|[aligned m|e] input IH]; intros st cx c r cx' Hr Hkdf Hsni Hs; simpl.
  - by intros [= <- <- <-].
  - apply (state_kept _ _ _ _ (aligned_kept aligned cx)) in Hs.
    destruct (process_msg _ _ _ _ _) as [[r1 cx1]|] eqn:Hm; [|done].
    eapply process_msg_step in Hm; try done.
    destruct r1 as [[st1|v]|e]; simpl; [by apply IH|by intros [= <- <- <-]..].
  - destruct (deframer_error e cx) as [[r1 cx1]|] eqn:He; [|done]. intros [= <- <- <-].
    eapply sound_kept; [by eapply keeps_deframer_error|by eapply state_sound].
Qed.

Lemma calls_step server sni calls : ∀ c cx c' rs cx',
  randomness_ok → hkdf_ok → sni_of server = Done sni → ConnectionOk server c cx →
  process_calls node_config c calls cx = Done (c', rs, cx') → ConnectionOk server c' cx'.
Proof.
  induction calls as [|[now input] calls IH]; intros c cx c' rs cx' Hr Hkdf Hsni Hc; simpl.
  - by intros [= <- <- <-].
  - destruct (process_new_packets _ _ _ _ _) as [[[c1 r1] cx1]|] eqn:Hp; [|done]. simpl.
    destruct (process_calls _ _ _ _) as [[[c2 rs2] cx2]|] eqn:Hq; [|done]. intros [= <- <- <-].
    eapply IH in Hq; try done. destruct c as [st|e|v later]; simpl in Hp.
    + by eapply packets_step.
    + by injection Hp as <- <- <-.
    + by injection Hp as <- <- <-.
Qed.

Lemma find_session_hint `{SessionKeys} server now store :
  kx_hint server (snd (find_session server now store)) = kx_hint server store.
Proof.
  unfold find_session, take_tls13_ticket, kx_hint, lc_get, lc_update.
  destruct (lc_map store !! server_key server) as [d|] eqn:Hd; simpl; [|by rewrite Hd].
  rewrite lookup_insert_eq. by destruct d.
Qed.

(** A new connection, which has not received anything. *)
Lemma new_connection_ok `{SessionKeys} server sni now store cx st store' cx1 :
  randomness_ok → hkdf_ok → sni_of server = Done sni →
  kx_hint server store ≠ Some (NG_Unknown 0x001E) →
  extension_order (cx_craft cx) = [] → our_key_share_alt (cx_craft cx) = [] →
  ed_is_enabled (cx_early_data cx) = false → clear_messages cx = [] → quiet cx →
  for_client node_config server [] now store cx = Done (Ok (st, store'), cx1) →
  StateOk server st cx1.
Proof.
  intros Hr Hkdf Hsni Hhint Horder Halts Hearly Hempty Hq Hnew.
  unfold for_client in Hnew. pose proof (find_session_hint server now store) as Hsame.
  destruct (find_session _ _ _) as [found store1]. simpl in Hsame. rewrite <- Hsame in Hhint.
  apply hs_bind_inv in Hnew as (s & cx2 & Hstart & [= <- <- ->]).
  destruct (waiting_first read_as supported_verify_schemes found (kx_hint server store1) server sni cx s cx1)
    as (Hw & Hs & Hstill); [done..|].
  rewrite Hs in *. simpl in *. split_and!; [by eapply quiet_still|done|done].
Qed.

(** C10: For every server and whatever is received from it, in whatever calls, as long as the
    connection has not turned to TLS 1.2 (which the client offers too, and whose handshake is
    not modelled): once the client may send application data or gives any out to its caller, the
    server has proved who it is. The handshake keys were agreed on with the private key of a
    share that a hello of this connection contained and the share in a server hello that was
    read, over the transcript of these hellos; the chain that the connection gives out was
    accepted for the name of the server, the key of its first certificate has signed the
    transcript that begins with that agreement, and the Finished of the server is the MAC of
    that transcript under the handshake keys. *)
Theorem data_only_from_proved_server `{SessionKeys} config server sni now store cx st store' cx1 calls c rs cx' :
  build_tls_config = Done config → randomness_ok → hkdf_ok → sni_of server = Done sni →
  kx_hint server store ≠ Some (NG_Unknown 0x001E) →
  extension_order (cx_craft cx) = [] → our_key_share_alt (cx_craft cx) = [] →
  ed_is_enabled (cx_early_data cx) = false → clear_messages cx = [] → quiet cx →
  for_client config server [] now store cx = Done (Ok (st, store'), cx1) →
  process_calls config (CN_Live st) calls cx1 = Done (c, rs, cx') → (∀ v later, c ≠ CN_Tls12 v later) →
  EV_StartTraffic ∈ cx_log cx' ∨ cv_chunks (cr_received_plaintext (cx_rest cx')) ≠ [] →
  ∃ suite hh, Proved server suite hh cx'.
Proof.
  rewrite build_tls_config_done. intros [= <-] Hr Hkdf Hsni Hhint Horder Halts Hearly Hempty Hq Hnew Hcalls _ Hdata.
  assert (ConnectionOk server c cx') as Hc.
  { eapply calls_step; [done..| |exact Hcalls]. by eapply new_connection_ok. }
  apply connection_sound in Hc as [[]|Hp]; [|done]. by destruct Hdata.
Qed.
End Traffic.
