(* ===== verification/TlsDeframerFacts.v ===== *)
(** * TlsDeframerFacts: the buffer in place is a stream

    What the deframer does in its one buffer is what a pair does: the handshake bytes that are
    joined so far, and the bytes that are not read yet. On the pair it is shown that it does
    not matter in which pieces bytes come in. *)

From S2P Require Import Prelude TlsCodec TlsEnums TlsHello TlsMessages TlsRecord TlsSession Craft.
From S2P Require Import TlsContext TlsKeys TlsHandshake TlsClient TlsDeframer NodeTls NodeTlsFacts NodeTlsRuns NodeTlsTraffic.

(** What ring promises of opening: a text that is shorter by the tag. *)
Class RingOpens `{RingAead} := {
  opened_length : ∀ a k n aad c p,
    aead_open a k n aad c = Some p → length c = (length p + aead_tag_len a)%nat;
}.

(** ** Ranges *)

Definition range (a b : nat) (l : list Z) : list Z := firstn (b - a) (skipn a l).

Section Ranges.
Implicit Types (a b i : nat) (l bytes : list Z).

Lemma slice_range a b l : (a ≤ b ≤ length l)%nat → slice a b l = Done (range a b l).
Proof.
  intros [? ?]. unfold slice. by rewrite (proj2 (Nat.leb_le _ _)), (proj2 (Nat.leb_le _ _)).
Qed.

Lemma range_length a b l : (b ≤ length l)%nat → length (range a b l) = (b - a)%nat.
Proof. intros. unfold range. rewrite length_firstn, length_skipn. lia. Qed.

Lemma range_empty a l : range a a l = [].
Proof. unfold range. by rewrite Nat.sub_diag. Qed.

Lemma range_split a b i l : (a ≤ i ≤ b)%nat → (b ≤ length l)%nat → range a b l = range a i l ++ range i b l.
Proof.
  intros ? ?. unfold range. replace (b - a)%nat with ((i - a) + (b - i))%nat by lia.
  rewrite <- (firstn_skipn (i - a) (firstn _ _)), firstn_firstn, Nat.min_l, skipn_firstn_comm, skipn_skipn by lia.
  f_equal. replace (i - a + (b - i) - (i - a))%nat with (b - i)%nat by lia. do 2 f_equal. lia.
Qed.

Lemma range_suffix a b l hd rest :
  (a ≤ b ≤ length l)%nat → range a b l = hd ++ rest → range (a + length hd) b l = rest.
Proof.
  intros Hab Hr. assert (length (range a b l) = (b - a)%nat) as Hl by (apply range_length; lia).
  rewrite Hr, length_app in Hl. rewrite (range_split a b (a + length hd)) in Hr by lia.
  apply app_inj_1 in Hr as [_ Hr]; [done|]. rewrite range_length; lia.
Qed.

Lemma range_nil a b l : (b ≤ a)%nat → range a b l = [].
Proof. intros. unfold range. by replace (b - a)%nat with 0%nat by lia. Qed.

(** What [overwrite] leaves of a buffer. *)
Lemma overwrite_ranges i bytes l :
  (i + length bytes ≤ length l)%nat →
  ∃ l', overwrite i bytes l = Done l' ∧ length l' = length l ∧
    (∀ a, (a ≤ i)%nat → range a (i + length bytes) l' = range a i l ++ bytes) ∧
    (∀ a b, (i + length bytes ≤ a)%nat → range a b l' = range a b l) ∧
    (∀ a b, (b ≤ i)%nat → range a b l' = range a b l).
Proof.
  intros Hfit. unfold overwrite. rewrite (proj2 (Nat.leb_le _ _)) by done. eexists. split; [done|].
  assert (length (firstn i l) = i) as Hi by (rewrite length_firstn; lia). split_and!.
  - rewrite !length_app, Hi, length_skipn. lia.
  - intros a Ha. unfold range. rewrite skipn_app, Hi. replace (a - i)%nat with 0%nat by lia. simpl.
    rewrite firstn_app. f_equal.
    + rewrite firstn_all2 by (rewrite length_skipn, Hi; lia). by rewrite skipn_firstn_comm.
    + rewrite length_skipn, Hi. replace (i + length bytes - a - (i - a))%nat with (length bytes) by lia.
      by rewrite drop_0, take_app_length.
  - intros a b Ha. unfold range. f_equal. rewrite skipn_app, Hi, (skipn_all2 (firstn i l)) by lia. simpl.
    rewrite skipn_app, (skipn_all2 bytes) by lia. simpl. rewrite skipn_skipn. f_equal. lia.
  - intros a b Hb. unfold range. destruct (Nat.le_gt_cases b a) as [?|?].
    { by replace (b - a)%nat with 0%nat by lia. }
    rewrite skipn_app, firstn_app, length_skipn, Hi. replace (b - a - (i - a))%nat with 0%nat by lia.
    rewrite firstn_0, app_nil_r, skipn_firstn_comm, firstn_firstn. f_equal. lia.
Qed.
End Ranges.

(** ** Records *)

Section Reading.

Lemma take_or_inv e n r x r' : take_or e n r = Ok (x, r') → r = x ++ r' ∧ length x = n.
Proof.
  unfold take_or. destruct (Nat.ltb_spec (length r) n); [done|]. intros [= <- <-].
  split; [by rewrite firstn_skipn|]. rewrite length_firstn. lia.
Qed.

Lemma take_or_app e n r x r' b : take_or e n r = Ok (x, r') → take_or e n (r ++ b) = Ok (x, r' ++ b).
Proof.
  intros Ht. apply take_or_inv in Ht as [-> <-]. unfold take_or. rewrite !length_app.
  replace (_ <? _)%nat with false by (symmetry; apply Nat.ltb_ge; lia).
  by rewrite <- app_assoc, firstn_app, firstn_all, Nat.sub_diag, app_nil_r, skipn_app, skipn_all, Nat.sub_diag.
Qed.

(** A reader of exactly [n] bytes, that does not look at what is behind them. *)
Definition Exactly {A} (n : nat) (m : Read A) : Prop :=
  ∀ r, match m r with
       | Ok (x, r') => (∃ w, r = w ++ r' ∧ length w = n) ∧ ∀ b, m (r ++ b) = Ok (x, r' ++ b)
       | Err _ => True
       end.

Lemma exactly_uint s n : Exactly n (uint_read s n).
Proof.
  intros r. unfold uint_read. destruct (take_or _ n r) as [[x r']|] eqn:Ht; [|done]. split.
  - exists x. by apply take_or_inv in Ht.
  - intros b. by rewrite (take_or_app _ _ _ _ _ b Ht).
Qed.

Lemma exactly_enum {E} `{TlsEnum E} : Exactly (enum_width (E := E)) (enum_read (E := E)).
Proof.
  intros r. unfold enum_read.
  match goal with |- context [uint_read ?s ?n] => pose proof (exactly_uint s n r) as Hr; set (m := uint_read s n) in * end.
  destruct (m r) as [[x r']|]; [|done]. destruct Hr as [Hw Hb]. split; [done|]. intros b. by rewrite Hb.
Qed.

Lemma header_inv {A} n (m : Read A) r x r' :
  Exactly n m → header m r = Ok (x, r') →
  (∃ w, r = w ++ r' ∧ length w = n) ∧ ∀ b, header m (r ++ b) = Ok (x, r' ++ b).
Proof.
  intros He. specialize (He r). unfold header. destruct (m r) as [[y r1]|]; [|done].
  destruct He as [Hw Hb]. intros [= <- <-]. split; [done|]. intros b. by rewrite Hb.
Qed.

Lemma header_err {A} (m : Read A) r e : header m r = Err e → e = ME_TooShortForHeader.
Proof. unfold header. destruct (m r); [done|]. by intros [= <-]. Qed.

Lemma take_or_short e n r e' : take_or e n r = Err e' → (length r < n)%nat.
Proof. unfold take_or. by destruct (Nat.ltb_spec (length r) n). Qed.
Lemma uint_short s n r e : uint_read s n r = Err e → (length r < n)%nat.
Proof.
  unfold uint_read. destruct (take_or _ n r) as [[x r']|] eqn:Ht; [done|]. intros _. by apply take_or_short in Ht.
Qed.
Lemma header_enum_short `{TlsEnum E} r e :
  header (enum_read (E := E)) r = Err e → (length r < enum_width (E := E))%nat.
Proof.
  unfold header, enum_read. match goal with |- context [uint_read ?s ?n r] => destruct (uint_read s n r) as [[x r']|] eqn:Hu end;
    [done|]. intros _. by apply uint_short in Hu.
Qed.

(** A record that is not there in full is shorter than the longest one. *)
Lemma opaque_read_short r e :
  opaque_read r = Err e → record_error e = None → Z.of_nat (length r) < MAX_WIRE_SIZE.
Proof.
  assert (MAX_WIRE_SIZE = MAX_PAYLOAD + 5) as -> by done. assert (0 < MAX_PAYLOAD) by done. unfold opaque_read, mbind, result_bind.
  destruct (header enum_read r) as [[typ r1]|] eqn:H1; [|intros _ _; apply header_enum_short in H1; simpl in H1; lia].
  apply (header_inv _ _ _ _ _ exactly_enum) in H1 as [(w1 & -> & Hw1) _].
  destruct (craft_is_unknown typ); [by intros [= <-]|].
  destruct (header enum_read r1) as [[version r2]|] eqn:H2.
  2: { intros _ _. apply header_enum_short in H2. rewrite length_app. simpl in *. lia. }
  apply (header_inv _ _ _ _ _ exactly_enum) in H2 as [(w2 & -> & Hw2) _].
  destruct (match version with PV_Unknown v => _ | _ => _ end); [by intros [= <-]|].
  destruct (header u16_read r2) as [[len r3]|] eqn:H3.
  2: { intros _ _. unfold header in H3. destruct (u16_read r2) eqn:Hu; [done|]. apply uint_short in Hu.
       rewrite !length_app. simpl in *. lia. }
  apply (header_inv _ _ _ _ _ (exactly_uint _ 2)) in H3 as [(w3 & -> & Hw3) _].
  destruct (negb _ && _); [by intros [= <-]|]. destruct (Z.leb_spec MAX_PAYLOAD len); [by intros [= <-]|].
  destruct (reader_sub _ r3) as [[payload r4]|] eqn:Hs; [done|]. intros _ _. apply take_or_short in Hs.
  rewrite !length_app. simpl in *. lia.
Qed.

(** A record that is read has five bytes in front of its payload, and what is behind it is
    not looked at. *)
Lemma opaque_read_inv r m rest :
  opaque_read r = Ok (m, rest) →
  (∃ hd, r = hd ++ om_payload m ++ rest ∧ length hd = 5%nat) ∧
  ∀ b, opaque_read (r ++ b) = Ok (m, rest ++ b).
Proof.
  unfold opaque_read, mbind, result_bind.
  destruct (header enum_read r) as [[typ r1]|] eqn:H1; [|done].
  apply (header_inv _ _ _ _ _ exactly_enum) in H1 as [(w1 & -> & Hw1) Hb1].
  destruct (craft_is_unknown typ) eqn:Hk; [done|].
  destruct (header enum_read r1) as [[version r2]|] eqn:H2; [|done].
  apply (header_inv _ _ _ _ _ exactly_enum) in H2 as [(w2 & -> & Hw2) Hb2].
  destruct (match version with PV_Unknown v => _ | _ => _ end) eqn:Hv; [done|].
  destruct (header u16_read r2) as [[len r3]|] eqn:H3; [|done].
  apply (header_inv _ _ _ _ _ (exactly_uint _ 2)) in H3 as [(w3 & -> & Hw3) Hb3].
  destruct (negb _ && _) eqn:He; [done|]. destruct (MAX_PAYLOAD <=? len) eqn:Hm; [done|].
  destruct (reader_sub _ r3) as [[payload r4]|] eqn:Hs; [|done]. intros [= <- <-].
  pose proof (take_or_inv _ _ _ _ _ Hs) as [-> Hl]. split.
  - exists (w1 ++ w2 ++ w3). rewrite <- !app_assoc. split; [done|]. rewrite !length_app, Hw1, Hw2, Hw3. done.
  - intros b. rewrite Hb1, Hk, Hb2, Hv, Hb3, He, Hm.
    unfold reader_sub in *. by rewrite (take_or_app _ _ _ _ _ b Hs).
Qed.

(** An error that is not only a record in parts stays one. *)
Lemma opaque_read_err r e what b :
  opaque_read r = Err e → record_error e = Some what → opaque_read (r ++ b) = Err e.
Proof.
  unfold opaque_read, mbind, result_bind.
  destruct (header enum_read r) as [[typ r1]|] eqn:H1; [|by intros [= <-]; apply header_err in H1 as ->].
  apply (header_inv _ _ _ _ _ exactly_enum) in H1 as [_ ->].
  destruct (craft_is_unknown typ) eqn:Hk; [done|].
  destruct (header enum_read r1) as [[version r2]|] eqn:H2; [|by intros [= <-]; apply header_err in H2 as ->].
  apply (header_inv _ _ _ _ _ exactly_enum) in H2 as [_ ->].
  destruct (match version with PV_Unknown v => _ | _ => _ end) eqn:Hv; [done|].
  destruct (header u16_read r2) as [[len r3]|] eqn:H3; [|by intros [= <-]; apply header_err in H3 as ->].
  apply (header_inv _ _ _ _ _ (exactly_uint _ 2)) in H3 as [_ ->].
  destruct (negb _ && _) eqn:He; [done|]. destruct (MAX_PAYLOAD <=? len) eqn:Hm; [done|].
  destruct (reader_sub _ r3) as [[payload r4]|] eqn:Hs; [done|]. by intros [= <-].
Qed.

Lemma payload_size_app hs b n : payload_size hs = Ok (Some n) → payload_size (hs ++ b) = Ok (Some n).
Proof.
  unfold payload_size. destruct (Nat.ltb_spec (length hs) HEADER_SIZE); [done|].
  replace (_ <? _)%nat with false by (symmetry; apply Nat.ltb_ge; rewrite length_app; lia).
  by rewrite firstn_app, (proj2 (Nat.sub_0_le _ _)), app_nil_r by done.
Qed.
End Reading.

(** ** Decryption *)

Lemma unpad_shorter l : (length (snd (unpad_reversed l)) ≤ length l)%nat.
Proof. induction l as [|x l IH]; simpl; [done|]. case_match; simpl; [lia|]. rewrite length_rev. lia. Qed.

Lemma unpadded_shorter m p :
  into_tls13_unpadded_message m = Ok p → (length (pm_payload p) ≤ length (om_payload m))%nat.
Proof.
  unfold into_tls13_unpadded_message, unpad_tls13. case_match; [done|].
  pose proof (unpad_shorter (rev (om_payload m))) as Hl. rewrite length_rev in Hl.
  destruct (unpad_reversed _) as [typ payload]. repeat case_match; try done. by intros [= <-].
Qed.

Lemma decrypted_shorter `{RingOpens} l m d l' :
  decrypt_incoming m l = (Ok (Some d), l') → (length (pm_payload (dc_plaintext d)) ≤ length (om_payload m))%nat.
Proof.
  unfold decrypt_incoming. destruct (rl_decrypt_state l); try (intros [= <- _]; done).
  destruct (rl_decrypter l) as [k|]; [|destruct (doing_trial_decryption _ l) as [[] ?]; done].
  destruct (message_decrypt k m (rl_read_seq l)) as [p|e] eqn:Hd.
  2: { destruct e; try done. by destruct (doing_trial_decryption _ l) as [[] ?]. }
  intros [= <- _]. simpl. unfold message_decrypt in Hd. destruct (_ <? _)%nat; [done|].
  destruct (aead_open _ _ _ _ _) as [plain|] eqn:Ho; [|done]. apply opened_length in Ho.
  apply unpadded_shorter in Hd. destruct m; simpl in *. lia.
Qed.

(** ** The stream

    A pair instead of a buffer, and what one turn does with it. *)

Record Stream := mkStream {
  st_joined : option (ProtocolVersion * list Z);
  st_raw : list Z;
}.

(** What a turn finds: to wait for bytes, an error, to go on, or a message. *)
Inductive Turn :=
  | T_Wait | T_Fail (e : HsError) | T_Again (s : Stream) | T_Give (m : Deframed) (s : Stream).

(** The length of a message that is there in full. *)
Definition hs_ready (hs : list Z) : option nat :=
  match payload_size hs with
  | Ok (Some n) => if (n <=? length hs)%nat then Some n else None
  | _ => None
  end.

(** A message off the joined bytes; one behind it must not be too large. *)
Definition give_joined (v : ProtocolVersion) (hs : list Z) (n : nat) (raw : list Z) : Turn :=
  let message := mkPlain CO_Handshake v (firstn n hs) in
  match skipn n hs with
  | [] => T_Give (mkDeframed false true true message) (mkStream None raw)
  | rest =>
      match payload_size rest with
      | Err e => T_Fail e
      | Ok _ => T_Give (mkDeframed false false true message) (mkStream (Some (v, rest)) raw)
      end
  end.

(** A handshake payload goes behind what is joined. *)
Definition join (joined : option (ProtocolVersion * list Z)) (m : PlainMessage) : ProtocolVersion * list Z :=
  match joined with Some (v, hs) => (v, hs ++ pm_payload m) | None => (pm_version m, pm_payload m) end.

Definition join_turn (joined : option (ProtocolVersion * list Z)) (m : PlainMessage) (rest : list Z) : Turn :=
  let '(v, hs) := join joined m in
  match payload_size hs with
  | Err e => T_Fail e
  | Ok _ => T_Again (mkStream (Some (v, hs)) rest)
  end.

Section Streams.
Context `{RingAead}.
Implicit Types (l : RecordLayer) (s : Stream).

Definition record_turn (negotiated : option ProtocolVersion) l s : Turn * RecordLayer :=
  match opaque_read (st_raw s) with
  | Err e =>
      (match record_error e with
       | None => T_Wait
       | Some e => T_Fail (HE_InvalidMessage (Invalid e))
       end, l)
  | Ok (m, rest) =>
      let joining := opt_is_some (st_joined s) in
      if negb joining && allowed_plaintext m l negotiated
      then (T_Give (alone (into_plain_message m)) (mkStream None rest), l)
      else
        let '(r, l) := decrypt_incoming m l in
        (match r with
         | Err e => T_Fail (decrypt_error e)
         | Ok None =>
             if joining then T_Fail (HE_Misbehaved RejectedEarlyDataInterleavedWithHandshakeMessage)
             else T_Again (mkStream None rest)
         | Ok (Some decrypted) =>
             let msg := dc_plaintext decrypted in
             if bool_decide (pm_typ msg = CO_Handshake) then join_turn (st_joined s) msg rest
             else if joining then T_Fail (HE_Misbehaved MessageInterleavedWithHandshakeMessage)
             else T_Give (alone msg) (mkStream None rest)
         end, l)
  end.

Definition stream_turn (negotiated : option ProtocolVersion) l s : Turn * RecordLayer :=
  match st_joined s ≫= (λ '(v, hs), (λ n, (v, hs, n)) <$> hs_ready hs) with
  | Some (v, hs, n) => (give_joined v hs n (st_raw s), l)
  | None => record_turn negotiated l s
  end.

(** Turns up to an error, a message, or bytes that are missing. *)
Inductive Pops (negotiated : option ProtocolVersion) :
    RecordLayer → Stream → result HsError (option Deframed * Stream) → RecordLayer → Prop :=
  | pops_wait l s l' : stream_turn negotiated l s = (T_Wait, l') → Pops negotiated l s (Ok (None, s)) l'
  | pops_fail l s e l' : stream_turn negotiated l s = (T_Fail e, l') → Pops negotiated l s (Err e) l'
  | pops_give l s m s' l' :
      stream_turn negotiated l s = (T_Give m s', l') → Pops negotiated l s (Ok (Some m, s')) l'
  | pops_again l s s1 l1 r l' :
      stream_turn negotiated l s = (T_Again s1, l1) → Pops negotiated l1 s1 r l' → Pops negotiated l s r l'.
End Streams.

(** ** The buffer as a stream *)

Definition stream_of (d : MessageDeframer) : Stream :=
  mkStream
    (match df_joining_hs d with
     | Some m => Some (mt_version m, range (mt_payload_start m) (mt_payload_end m) (df_buf d))
     | None => None
     end)
    (range (unread_start d) (df_used d) (df_buf d)).

(** What is joined lies in front of what is not read, and its length is known as soon as it
    can be. *)
Record deframer_ok (d : MessageDeframer) : Prop := {
  dok_error : df_last_error d = None;
  dok_used : (df_used d ≤ length (df_buf d))%nat;
  dok_joining :
    match df_joining_hs d with
    | Some m =>
        (mt_payload_start m ≤ mt_payload_end m ≤ mt_message_end m)%nat ∧ (mt_message_end m ≤ df_used d)%nat ∧
        payload_size (range (mt_payload_start m) (mt_payload_end m) (df_buf d)) = Ok (mt_expected_len m)
    | None => True
    end;
}.

Lemma deframer_new_ok : deframer_ok deframer_new.
Proof. by split. Qed.

Lemma unread_start_used d : deframer_ok d → (unread_start d ≤ df_used d)%nat.
Proof. intros [_ _ Hj]. unfold unread_start. destruct (df_joining_hs d); [naive_solver|lia]. Qed.

Lemma joined_len_ready m buf :
  payload_size (range (mt_payload_start m) (mt_payload_end m) buf) = Ok (mt_expected_len m) →
  (mt_payload_end m ≤ length buf)%nat →
  joined_len m = hs_ready (range (mt_payload_start m) (mt_payload_end m) buf).
Proof. intros Hs Hb. unfold joined_len, hs_ready, payload_len. by rewrite Hs, range_length. Qed.

Lemma discard_ranges t d :
  (t ≤ df_used d ≤ length (df_buf d))%nat →
  ∃ d', discard t d = Done d' ∧ df_used d' = (df_used d - t)%nat ∧ length (df_buf d') = length (df_buf d) ∧
    range 0 (df_used d') (df_buf d') = range t (df_used d) (df_buf d) ∧
    df_joining_hs d' = df_joining_hs d ∧ df_last_error d' = df_last_error d.
Proof.
  intros [Ht Hu]. unfold discard. destruct (Nat.ltb_spec t (df_used d)) as [Hlt|Hge].
  - rewrite slice_range by lia. simpl.
    assert (length (range t (df_used d) (df_buf d)) = (df_used d - t)%nat) as Hl by (apply range_length; lia).
    destruct (overwrite_ranges 0 (range t (df_used d) (df_buf d)) (df_buf d)) as (buf & -> & Hb & Hr & _ & _); [lia|].
    eexists. split; [done|]. destruct d; simpl in *. split_and!; try done.
    specialize (Hr 0%nat ltac:(lia)). by rewrite Hl in Hr.
  - replace t with (df_used d) by lia. rewrite Nat.eqb_refl. eexists. split; [done|].
    destruct d; simpl in *. rewrite Nat.sub_diag. split_and!; try done. by rewrite !range_empty.
Qed.

(** What is left after a message that was not joined, or that was the last one. *)
Lemma discard_ok t d :
  df_last_error d = None → df_joining_hs d = None → (t ≤ df_used d ≤ length (df_buf d))%nat →
  ∃ d', discard t d = Done d' ∧ deframer_ok d' ∧ stream_of d' = mkStream None (range t (df_used d) (df_buf d)) ∧
    df_used d' = (df_used d - t)%nat ∧ df_joining_hs d' = None.
Proof.
  intros He Hj Ht. destruct (discard_ranges t d Ht) as (d' & Hd & Hu & Hl & Hr & Hj' & He').
  rewrite Hj in Hj'. exists d'. split_and!; try done.
  - split; [congruence|lia|by rewrite Hj'].
  - unfold stream_of, unread_start. by rewrite Hj', Hr.
Qed.

Lemma hs_state_spec used m :
  hs_state used m = HS_Blocked ∧ joined_len m = None ∧ (used ≤ mt_message_end m)%nat ∨
  hs_state used m = HS_Continue ∧ joined_len m = None ∧ (mt_message_end m < used)%nat ∨
  ∃ len, hs_state used m = HS_Complete len ∧ joined_len m = Some len.
Proof.
  unfold hs_state. destruct (joined_len m); [eauto|]. destruct (Nat.ltb_spec (mt_message_end m) used); naive_solver.
Qed.

Lemma join_turn_raw joined m rest s : join_turn joined m rest = T_Again s → st_raw s = rest.
Proof. unfold join_turn. destruct (join joined m). destruct (payload_size _); [|done]. by intros [= <-]. Qed.

(** What [append_hs] joins is behind what is joined, and in front of what is not read. *)
Lemma append_hs_joins m0 end_ d :
  deframer_ok d → (unread_start d + length (pm_payload m0) ≤ end_ ≤ df_used d)%nat →
  ∃ r d', append_hs (pm_version m0) (pm_payload m0) end_ d = Done (r, d') ∧
    match join_turn (st_joined (stream_of d)) m0 (range end_ (df_used d) (df_buf d)) with
    | T_Again s =>
        deframer_ok d' ∧ stream_of d' = s ∧ df_used d' = df_used d ∧
        ∃ m, df_joining_hs d' = Some m ∧ mt_message_end m = end_ ∧ r = Ok (hs_state (df_used d') m)
    | T_Fail e => r = Err e
    | _ => False
    end.
Proof.
  intros Hok Hend. pose proof (unread_start_used d Hok) as Hus. destruct Hok as [He Hu Hj].
  destruct d as [last buf joining used], m0 as [typ version payload]. unfold join_turn, append_hs, unread_start in *.
  simpl in *. destruct joining as [m|]; simpl in *.
  - destruct Hj as ((Hse & Hem) & Hmu & Hs), m as [mend ps pe v len]. simpl in *.
    destruct (overwrite_ranges pe payload buf) as (buf' & -> & Hb & Hr & Hr' & _); [lia|].
    simpl. rewrite <- (Hr ps), <- (Hr' end_ used) by lia.
    assert (ps ≤ pe + length payload ≤ end_)%nat as Hpe by lia.
    destruct len as [len|].
    + pose proof (payload_size_app _ payload _ Hs) as Hs'. rewrite <- (Hr ps) in Hs' by lia.
      rewrite Hs'. do 2 eexists. split; [done|]. split_and!; simpl; try done; [|eauto 10].
      split; simpl; [done|lia|]. split_and!; try lia; done.
    + rewrite slice_range by (rewrite Hb; lia). simpl.
      destruct (payload_size (range ps (pe + length payload) buf')) as [len|e] eqn:Hs'; [|eauto].
      do 2 eexists. split; [done|]. split_and!; simpl; try done; [|eauto 10].
      split; simpl; [done|lia|]. split_and!; try lia; done.
  - destruct (payload_size payload) as [len|e] eqn:Hs; [|eauto].
    destruct (overwrite_ranges 0 payload buf) as (buf' & -> & Hb & Hr & Hr' & _); [lia|].
    specialize (Hr 0%nat ltac:(lia)). simpl in Hr.
    do 2 eexists. split; [done|]. split_and!; simpl; try done;
      [|by unfold stream_of, unread_start; simpl; rewrite Hr, (Hr' end_ used) by lia|eauto 10].
    split; simpl; [done|lia|]. rewrite Hr. split_and!; try lia; done.
Qed.

(** What the loop of [pop] ends with, as turns on a stream. *)
Definition loop_found `{RingAead} negotiated l (s : Stream) (r : result HsError Popped) l' d' : Prop :=
  match r with
  | Err e => Pops negotiated l s (Err e) l'
  | Ok PP_None => deframer_ok d' ∧ Pops negotiated l s (Ok (None, stream_of d')) l'
  | Ok (PP_Message m) => deframer_ok d' ∧ Pops negotiated l s (Ok (Some m, stream_of d')) l'
  | Ok (PP_Joined len) =>
      deframer_ok d' ∧ df_joining_hs d' ≫= joined_len = Some len ∧
      ∀ r l2, Pops negotiated l' (stream_of d') r l2 → Pops negotiated l s r l2
  end.

Lemma loop_found_again `{RingAead} negotiated l s l1 s1 r l' d' :
  stream_turn negotiated l s = (T_Again s1, l1) →
  loop_found negotiated l1 s1 r l' d' → loop_found negotiated l s r l' d'.
Proof.
  intros Ht Hr. unfold loop_found in *. repeat case_match; naive_solver eauto using pops_again.
Qed.

Lemma turn_unjoined `{RingAead} negotiated l d :
  deframer_ok d → df_joining_hs d ≫= joined_len = None →
  stream_turn negotiated l (stream_of d) = record_turn negotiated l (stream_of d).
Proof.
  intros [_ Hu Hj] Hjoined. unfold stream_turn. simpl. destruct (df_joining_hs d) as [m|]; [|done].
  destruct Hj as ((? & ?) & ? & Hs). simpl in *. rewrite (joined_len_ready m (df_buf d)) in Hjoined by (done || lia).
  by rewrite Hjoined.
Qed.

(** Where a record ends that is read. *)
Lemma record_at d m rest end_ :
  deframer_ok d → opaque_read (range (unread_start d) (df_used d) (df_buf d)) = Ok (m, rest) →
  end_ = (unread_start d + (length (range (unread_start d) (df_used d) (df_buf d)) - length rest))%nat →
  (unread_start d + length (om_payload m) + 5 = end_)%nat ∧ (end_ + length rest = df_used d)%nat ∧
  range end_ (df_used d) (df_buf d) = rest.
Proof.
  intros Hok Hread ->. pose proof (unread_start_used d Hok) as Hus. pose proof (dok_used d Hok) as Hu.
  apply opaque_read_inv in Hread as [(hd & Hr & Hhd) _].
  pose proof (range_length (unread_start d) (df_used d) (df_buf d) Hu) as Hl. rewrite Hr, !length_app in *.
  split_and!; [lia..|]. rewrite app_assoc in Hr. apply range_suffix in Hr; [|lia]. rewrite <- Hr. f_equal.
  rewrite length_app. lia.
Qed.

(** What the loop of [pop] finds is what the turns on the stream find. *)
Lemma pop_loop_turns `{RingOpens} negotiated fuel l d :
  deframer_ok d → (df_used d - unread_start d < fuel)%nat →
  ∃ r l' d', pop_loop fuel negotiated l d = Some (Done (r, l', d')) ∧
    loop_found negotiated l (stream_of d) r l' d'.
Proof.
  revert l d. induction fuel as [|fuel IH]; intros l d Hok Hfuel; [lia|]. simpl.
  destruct (df_joining_hs d ≫= joined_len) as [len|] eqn:Hjoined.
  { do 3 eexists. split; [done|]. by split_and!. }
  pose proof (unread_start_used d Hok) as Hus. pose proof (dok_used d Hok) as Hu.
 pose proof (dok_error d Hok) as He.
  rewrite slice_range by lia.
  pose proof (turn_unjoined negotiated l d Hok Hjoined) as Hturn.
  assert (st_raw (stream_of d) = range (unread_start d) (df_used d) (df_buf d)) as Hraw by done.
  assert (opt_is_some (st_joined (stream_of d)) = opt_is_some (df_joining_hs d)) as Hjo
    by (simpl; by destruct (df_joining_hs d)).
  unfold record_turn in Hturn. rewrite Hraw, Hjo in Hturn. clear Hraw Hjo.
  destruct (opaque_read _) as [[m rest]|e] eqn:Hread.
  2: { destruct (record_error e) as [e'|].
       - do 3 eexists. split; [done|]. by apply pops_fail.
       - do 3 eexists. split; [done|]. split; [done|]. by apply pops_wait. }
  set (end_ := (unread_start d + _)%nat). destruct (record_at d m rest end_ Hok Hread eq_refl) as (Hm & Hlen & Hrest).
  clearbody end_.
  assert (df_joining_hs d = None → ∃ d', discard end_ d = Done d' ∧ deframer_ok d' ∧
    stream_of d' = mkStream None rest ∧ df_used d' = (df_used d - end_)%nat ∧ df_joining_hs d' = None) as Hdiscard.
  { intros Hj. rewrite <- Hrest. apply discard_ok; [done|done|lia]. }
  destruct (negb _ && _) eqn:Hplain.
  { apply andb_true_iff in Hplain as [Hj _]. destruct (df_joining_hs d) eqn:Hj'; [done|].
    destruct Hdiscard as (d' & -> & Hok' & Hs & _); [done|].
    do 3 eexists. split; [done|]. split; [done|]. rewrite Hs. by apply pops_give. }
  clear Hplain. destruct (decrypt_incoming m l) as [[[decrypted|]|e] l1] eqn:Hdec.
  - case_bool_decide as Hh; simpl.
    + destruct (append_hs_joins (dc_plaintext decrypted) end_ d Hok) as (r & d' & -> & Hj).
      { apply decrypted_shorter in Hdec. lia. }
      rewrite Hrest in Hj. destruct (join_turn _ _ _) as [|e|s|] eqn:Hjt; try done.
      * subst r. do 3 eexists. split; [done|]. by apply pops_fail.
      * destruct Hj as (Hok' & <- & Hu' & m' & Hm' & Hend' & ->).
        destruct (hs_state_spec (df_used d') m') as [(-> & Hn & Hu2)|[(-> & Hn & Hu2)|(len & -> & Hn)]].
        -- do 3 eexists. split; [done|]. split; [done|]. eapply pops_again; [done|].
           apply pops_wait. rewrite turn_unjoined by (done || by rewrite Hm'). unfold record_turn.
           apply join_turn_raw in Hjt as ->. by destruct rest; [|simpl in *; lia].
        -- destruct (IH l1 d') as (r & l' & d2 & -> & Hr); [done| |].
           { unfold unread_start in *. rewrite Hm', Hu', Hend'. lia. }
           do 3 eexists. split; [done|]. by eapply loop_found_again.
        -- do 3 eexists. split; [done|]. split_and!; [done|by rewrite Hm'|]. intros. by eapply pops_again.
    + destruct (df_joining_hs d) eqn:Hj; simpl in *.
      * do 3 eexists. split; [done|]. by apply pops_fail.
      * destruct Hdiscard as (d' & -> & Hok' & Hs & _); [done|].
        do 3 eexists. split; [done|]. split; [done|]. rewrite Hs. by apply pops_give.
  - destruct (df_joining_hs d) eqn:Hj; simpl in *.
    + do 3 eexists. split; [done|]. by apply pops_fail.
    + destruct Hdiscard as (d' & -> & Hok' & Hs & Hu' & Hj'); [done|].
      destruct (IH l1 d') as (r & l' & d2 & -> & Hr); [done| |].
      { unfold unread_start in *. rewrite Hj', Hu'. rewrite Hj in *. lia. }
      do 3 eexists. split; [done|]. rewrite Hs in Hr. by eapply loop_found_again.
  - do 3 eexists. split; [done|]. by apply pops_fail.
Qed.

Lemma range_firstn a b n (l : list Z) : (a + n ≤ b)%nat → range a (a + n) l = firstn n (range a b l).
Proof. intros. unfold range. rewrite firstn_firstn. f_equal. lia. Qed.
Lemma range_skipn a b n (l : list Z) : range (a + n) b l = skipn n (range a b l).
Proof. unfold range. rewrite skipn_firstn_comm, skipn_skipn. f_equal; [lia|]. f_equal. lia. Qed.

Lemma joined_len_le m len : joined_len m = Some len → (len ≤ payload_len m)%nat.
Proof.
  unfold joined_len. destruct (mt_expected_len m) as [n|]; [|done].
  destruct (Nat.leb_spec n (payload_len m)); [|done]. by intros [= <-].
Qed.

Lemma nothing_read `{RingAead} negotiated l d :
  deframer_ok d → df_used d = 0%nat → stream_turn negotiated l (stream_of d) = (T_Wait, l).
Proof.
  intros [_ Hu Hj] Hz. unfold stream_of, stream_turn, record_turn, unread_start. simpl.
  rewrite Hz in *. destruct (df_joining_hs d) as [m|]; simpl; [|done].
  destruct Hj as ((? & ?) & ? & Hs). by rewrite range_nil, range_nil by lia.
Qed.

(** A message that is joined is what the stream gives. *)
Lemma take_joined_turn `{RingAead} negotiated l m len d :
  deframer_ok d → df_joining_hs d = Some m → joined_len m = Some len →
  ∃ r d', take_joined len d = Done (r, d') ∧
    match r with
    | Err e => stream_turn negotiated l (stream_of d) = (T_Fail e, l)
    | Ok msg => deframer_ok d' ∧ stream_turn negotiated l (stream_of d) = (T_Give msg (stream_of d'), l)
    end.
Proof.
  intros Hok Hj Hlen. destruct Hok as [He Hu Hm]. rewrite Hj in Hm. destruct Hm as ((Hse & Hem) & Hmu & Hs).
  pose proof Hlen as Hready. rewrite (joined_len_ready m (df_buf d)) in Hready by (done || lia).
  pose proof (joined_len_le m len Hlen) as Hle. unfold payload_len in Hle. unfold stream_turn. simpl. rewrite Hj. simpl. rewrite Hready. simpl.
  unfold take_joined. rewrite Hj, (slice_range (mt_payload_start m)) by lia. simpl.
  unfold give_joined. rewrite <- range_skipn, <- range_firstn by lia.
  unfold payload_len. destruct (Nat.ltb_spec len (mt_payload_end m - mt_payload_start m)) as [Hmore|Hall].
  - destruct (range (mt_payload_start m + len) _ _) as [|x rest] eqn:Hrest.
    { apply (f_equal length) in Hrest. rewrite range_length in Hrest by lia. simpl in Hrest. lia. }
    destruct m as [mend ps pe v expected], d as [last buf joining used]. simpl in *.
    subst joining. rewrite slice_range, Hrest by lia. simpl.
    destruct (payload_size (x :: rest)) as [n|e] eqn:Hn; (do 2 eexists; split; [reflexivity|]); [|done].
    split; [|unfold stream_of; simpl; by rewrite Hrest].
    split; simpl; [done|done|]. rewrite Hrest. split_and!; (lia || done).
  - rewrite (range_nil (_ + _)) by lia.
    destruct d as [last buf joining used]. simpl in *. subst joining.
    destruct (discard_ok (mt_message_end m) (mkDeframer last buf None used)) as (d' & -> & Hok' & Hs' & _);
      [done|done|simpl; lia|].
    do 2 eexists. split; [done|]. split; [done|]. by rewrite Hs'.
Qed.

(** [pop], as turns on the stream. *)
Lemma pop_turns `{RingOpens} negotiated l d :
  deframer_ok d →
  ∃ r l' d', pop negotiated l d = Some (Done (r, l', d')) ∧
    match r with
    | Ok m => deframer_ok d' ∧ Pops negotiated l (stream_of d) (Ok (m, stream_of d')) l'
    | Err e => Pops negotiated l (stream_of d) (Err e) l'
    end.
Proof.
  intros Hok. unfold pop. rewrite (dok_error d Hok). destruct (Nat.eqb_spec (df_used d) 0) as [Hzero|_].
  { do 3 eexists. split; [done|]. split; [done|]. by apply pops_wait, nothing_read. }
  destruct (pop_loop_turns negotiated (S (df_used d - unread_start d)) l d Hok) as (r & l' & d' & -> & Hr); [lia|].
  destruct r as [[|m|len]|e]; simpl in Hr; [by eauto 10..| |by eauto 10].
  destruct Hr as (Hok' & Hm & Hpops). destruct (df_joining_hs d') as [m|] eqn:Hj; [|done].
  destruct (take_joined_turn negotiated l' m len d' Hok' Hj Hm) as (r & d2 & -> & Hr).
  destruct r as [msg|e]; do 3 eexists; (split; [done|]).
  - destruct Hr as [Hok2 Ht]. split; [done|]. by apply Hpops, pops_give.
  - by apply Hpops, pops_fail.
Qed.

(** ** Pieces

    More bytes behind a stream change nothing of a turn that did not wait for them. *)

Definition more (b : list Z) (s : Stream) : Stream := mkStream (st_joined s) (st_raw s ++ b).

Lemma more_more b c s : more c (more b s) = more (b ++ c) s.
Proof. destruct s. unfold more. simpl. by rewrite <- app_assoc. Qed.
Lemma more_nil s : more [] s = s.
Proof. destruct s. unfold more. simpl. by rewrite app_nil_r. Qed.

Definition more_turn (b : list Z) (t : Turn) : Turn :=
  match t with
  | T_Again s => T_Again (more b s)
  | T_Give m s => T_Give m (more b s)
  | t => t
  end.

Lemma give_joined_more b v hs n raw : give_joined v hs n (raw ++ b) = more_turn b (give_joined v hs n raw).
Proof. unfold give_joined. repeat case_match; by simplify_eq. Qed.
Lemma join_turn_more b joined m rest : join_turn joined m (rest ++ b) = more_turn b (join_turn joined m rest).
Proof. unfold join_turn. destruct (join joined m). by destruct (payload_size _). Qed.

Lemma turn_more `{RingAead} negotiated l s t l' b :
  stream_turn negotiated l s = (t, l') →
  match t with T_Wait => l' = l | _ => stream_turn negotiated l (more b s) = (more_turn b t, l') end.
Proof.
  unfold stream_turn. simpl. destruct (st_joined s ≫= _) as [[[v hs] n]|].
  { intros [= <- <-]. rewrite give_joined_more. unfold give_joined. repeat case_match; done. }
  unfold record_turn. simpl. destruct (opaque_read (st_raw s)) as [[m rest]|e] eqn:Hread.
  - rewrite (proj2 (opaque_read_inv _ _ _ Hread) b). destruct (negb _ && _); [by intros [= <- <-]|].
    destruct (decrypt_incoming m l) as [r l1]. intros [= <- <-].
    destruct r as [[d|]|e]; [|by destruct (opt_is_some _)|done]. case_bool_decide.
    + rewrite join_turn_more. unfold join_turn. destruct (join _ _). by destruct (payload_size _).
    + by destruct (opt_is_some _).
  - destruct (record_error e) eqn:He; [|by intros [= <- <-]]. intros [= <- <-].
    by rewrite (opaque_read_err _ _ _ b Hread He), He.
Qed.

Lemma pops_more `{RingAead} negotiated l s r l' b :
  Pops negotiated l s r l' →
  match r with
  | Ok (None, s') => ∀ r2 l2, Pops negotiated l' (more b s') r2 l2 → Pops negotiated l (more b s) r2 l2
  | Ok (Some m, s') => Pops negotiated l (more b s) (Ok (Some m, more b s')) l'
  | Err e => Pops negotiated l (more b s) (Err e) l'
  end.
Proof.
  induction 1 as [l s l' Ht|l s e l' Ht|l s m s' l' Ht|l s s1 l1 r l' Ht _ IH];
    apply (turn_more _ _ _ _ _ b) in Ht; simpl in *.
  - by subst.
  - by apply pops_fail.
  - by apply pops_give.
  - destruct r as [[[m|] s']|e]; eauto using pops_again.
Qed.

(** Turns find one thing only. *)
Lemma pops_fun `{RingAead} negotiated l s r1 l1 r2 l2 :
  Pops negotiated l s r1 l1 → Pops negotiated l s r2 l2 → r1 = r2 ∧ l1 = l2.
Proof.
  intros H1. revert r2 l2. induction H1 as [? ? ? Ht|? ? ? ? Ht|? ? ? ? ? Ht|? ? ? ? ? ? Ht _ IH];
    inversion 1 as [? ? ? Ht2|? ? ? ? Ht2|? ? ? ? ? Ht2|? ? ? ? ? ? Ht2]; subst; rewrite Ht in Ht2; simplify_eq; eauto.
Qed.

Lemma pops_waits `{RingAead} negotiated l s s' l' :
  Pops negotiated l s (Ok (None, s')) l' → stream_turn negotiated l' s' = (T_Wait, l').
Proof.
  remember (Ok (None, s')) as r eqn:Hr. intros Hp. revert Hr. induction Hp as [l s l' Ht| | |]; intros Hr; try done; [|eauto].
  simplify_eq. pose proof (turn_more _ _ _ _ _ [] Ht) as Hl. simpl in Hl. by subst l'.
Qed.

(** Bytes that are still not enough. *)
Lemma pops_wait_again `{RingAead} negotiated l s s' l' :
  Pops negotiated l s (Ok (None, s')) l' → Pops negotiated l' s' (Ok (None, s')) l'.
Proof. intros Hp. by apply pops_wait, (pops_waits _ l s). Qed.

(** ** The size of a stream

    Each turn makes it smaller, so that there is an end of messages. *)

Definition st_size (s : Stream) : nat :=
  (length (from_option snd [] (st_joined s)) + length (st_raw s))%nat.

Lemma payload_size_header hs n : payload_size hs = Ok (Some n) → (4 ≤ n)%nat.
Proof.
  unfold payload_size, HEADER_SIZE. destruct (_ <? _)%nat; [done|]. destruct (u24_read _) as [[len r]|]; [|done].
  destruct (_ <? _); [done|]. intros [= <-]. lia.
Qed.

Lemma give_joined_size v hs n raw m s :
  hs_ready hs = Some n → give_joined v hs n raw = T_Give m s → (st_size s < length hs + length raw)%nat.
Proof.
  unfold hs_ready. destruct (payload_size hs) as [[k|]|] eqn:Hp; try done. apply payload_size_header in Hp.
  destruct (Nat.leb_spec k (length hs)); [|done]. intros [= ->] Hg. unfold give_joined in Hg.
  assert (length (skipn n hs) = (length hs - n)%nat) as Hl by apply length_skipn.
  destruct (skipn n hs) as [|x rest]; [|destruct (payload_size _)]; simplify_eq; unfold st_size; simpl in *; lia.
Qed.

Lemma join_turn_size joined m rest s :
  join_turn joined m rest = T_Again s →
  st_size s = (length (from_option snd [] joined) + length (pm_payload m) + length rest)%nat.
Proof.
  unfold join_turn, join. destruct joined as [[v hs]|]; destruct (payload_size _); try done; intros [= <-];
    unfold st_size; simpl; rewrite ?length_app; lia.
Qed.

Lemma turn_size `{RingOpens} negotiated l s t l' :
  stream_turn negotiated l s = (t, l') →
  match t with T_Again s' | T_Give _ s' => (st_size s' < st_size s)%nat | _ => True end.
Proof.
  unfold stream_turn. destruct (st_joined s ≫= _) as [[[v hs] n]|] eqn:Hready.
  { apply bind_Some in Hready as ([v' hs'] & Hj & (n' & Hn & [= <- <- <-])%fmap_Some). intros [= <- <-].
    destruct (give_joined _ _ _ _) eqn:Hg; try done; [unfold give_joined in Hg; by repeat case_match|].
    eapply give_joined_size in Hg; [|done]. unfold st_size at 2. by rewrite Hj. }
  unfold record_turn. destruct (opaque_read (st_raw s)) as [[m rest]|e] eqn:Hread.
  2: { intros [= <- <-]. by destruct (record_error e). }
  apply opaque_read_inv in Hread as [(hd & Hraw & Hhd) _].
  assert (length (st_raw s) = 5 + length (om_payload m) + length rest)%nat as Hl.
  { rewrite Hraw, !length_app. lia. }
  assert (st_size (mkStream None rest) < st_size s)%nat as Hrest by (unfold st_size; simpl; lia).
  destruct (_ && _); [by intros [= <- <-]|]. destruct (decrypt_incoming m l) as [r l1] eqn:Hdec. intros [= <- <-].
  destruct r as [[d|]|e]; [|by destruct (opt_is_some _)|done]. case_bool_decide; [|by destruct (opt_is_some _)].
  apply decrypted_shorter in Hdec. destruct (join_turn _ _ _) eqn:Hj; try done.
  - apply join_turn_size in Hj. unfold st_size at 2. lia.
  - unfold join_turn in Hj. by repeat case_match.
Qed.

Lemma pops_size `{RingOpens} negotiated l s r l' :
  Pops negotiated l s r l' →
  match r with
  | Ok (Some _, s') => (st_size s' < st_size s)%nat
  | Ok (None, s') => (st_size s' ≤ st_size s)%nat
  | Err _ => True
  end.
Proof.
  induction 1 as [l s l' Ht|l s e l' Ht|l s m s' l' Ht|l s s1 l1 r l' Ht _ IH]; apply turn_size in Ht; try done.
  destruct r as [[[m|] s']|e]; lia.
Qed.

Lemma size_used d : deframer_ok d → (st_size (stream_of d) ≤ df_used d)%nat.
Proof.
  intros [_ Hu Hj]. unfold st_size, stream_of, unread_start. simpl. rewrite range_length by lia.
  destruct (df_joining_hs d) as [m|]; simpl; [|lia]. destruct Hj as ((? & ?) & ? & ?). rewrite range_length; lia.
Qed.

(** ** Reading *)

Lemma resize_length n l : length (resize n l) = n.
Proof. unfold resize. rewrite length_app, length_firstn, length_replicate. lia. Qed.

(** A buffer that is resized to no less than what is used keeps what is used. *)
Lemma resize_range a b n l : (b ≤ n)%nat → (b ≤ length l)%nat → range a b (resize n l) = range a b l.
Proof.
  intros Hn Hl. unfold range, resize. destruct (Nat.le_gt_cases b a) as [?|?].
  { by replace (b - a)%nat with 0%nat by lia. }
  rewrite skipn_app, firstn_app, length_skipn, length_firstn.
  replace (b - a - (min n (length l) - a))%nat with 0%nat by lia.
  rewrite firstn_0, app_nil_r, skipn_firstn_comm, firstn_firstn. f_equal. lia.
Qed.

Definition allow_max (d : MessageDeframer) : nat :=
  Z.to_nat match df_joining_hs d with Some _ => MAX_HANDSHAKE_SIZE | None => MAX_WIRE_SIZE end.

(** Another buffer with the same bytes in it. *)
Lemma same_bytes d buf :
  deframer_ok d → (df_used d ≤ length buf)%nat →
  (∀ a b, (b ≤ df_used d)%nat → range a b buf = range a b (df_buf d)) →
  deframer_ok (d <| df_buf := buf |>) ∧ stream_of (d <| df_buf := buf |>) = stream_of d.
Proof.
  intros Hok Hl Hr. pose proof (unread_start_used d Hok). destruct Hok as [He Hu Hj], d as [last b joining used].
  unfold stream_of, unread_start in *. simpl in *. split.
  - split; simpl; [done|done|]. destruct joining as [m|]; [|done]. destruct Hj as ((? & ?) & ? & ?).
    rewrite Hr by lia. by split_and!.
  - f_equal; [|by rewrite Hr by lia]. destruct joining as [m|]; [|done]. destruct Hj as ((? & ?) & ? & ?).
    by rewrite Hr by lia.
Qed.

Lemma prepare_read_ok d :
  deframer_ok d →
  match prepare_read d with
  | Err _ => (allow_max d ≤ df_used d)%nat
  | Ok d' => deframer_ok d' ∧ stream_of d' = stream_of d ∧ df_used d' = df_used d ∧ (df_used d < length (df_buf d'))%nat
  end.
Proof.
  intros Hok. pose proof (dok_used d Hok) as Hu. unfold prepare_read. fold (allow_max d).
  destruct (Nat.leb_spec (allow_max d) (df_used d)) as [?|Hroom]; [done|].
  set (need := Nat.min _ _). assert (df_used d < need)%nat as Hneed by (subst need; unfold READ_SIZE; lia).
  destruct (_ || _) eqn:Hresize.
  - destruct (same_bytes d (resize need (df_buf d)) Hok) as [Hok' Hs].
    + rewrite resize_length. lia.
    + intros. apply resize_range; lia.
    + split_and!; [done..|by destruct d|]. destruct d. simpl in *. by rewrite resize_length.
  - apply orb_false_iff in Hresize as [[Hn _]%orb_false_iff _]. apply Nat.ltb_ge in Hn. split_and!; (done || lia).
Qed.

(** What is read is behind what was there. *)
Lemma deframer_read_more bytes d :
  deframer_ok d →
  match deframer_read bytes d with
  | Done (Ok n, d') =>
      deframer_ok d' ∧ stream_of d' = more (firstn n bytes) (stream_of d) ∧ (n ≤ length bytes)%nat ∧
      (bytes ≠ [] → 0 < n)%nat
  | Done (Err _, d') => d' = d ∧ (allow_max d ≤ df_used d)%nat
  | Panic => False
  end.
Proof.
  intros Hok. unfold deframer_read. pose proof (prepare_read_ok d Hok) as Hp.
  destruct (prepare_read d) as [d1|?]; [|done]. destruct Hp as (Hok1 & Hs1 & Hu1 & Hroom).
  set (new := firstn _ bytes).
  assert (length new = Nat.min (length (df_buf d1) - df_used d1) (length bytes)) as Hnew by apply length_firstn.
  destruct (overwrite_ranges (df_used d1) new (df_buf d1)) as (buf & -> & Hb & Hbehind & _ & Hkeep); [lia|].
  simpl. pose proof (unread_start_used d1 Hok1) as Hus. destruct Hok1 as [He Hu Hj], d1 as [last b1 joining used].
  unfold stream_of, unread_start in *. simpl in *. rewrite <- Hs1. split_and!.
  - split; simpl; [done|lia|]. destruct joining as [m|]; [|done]. destruct Hj as ((? & ?) & ? & ?).
    rewrite Hkeep by lia. split_and!; (done || lia).
  - unfold more. simpl. rewrite Hbehind by lia. f_equal.
    + destruct joining as [m|]; [|done]. destruct Hj as ((? & ?) & ? & ?). by rewrite Hkeep by lia.
    + f_equal. subst new. rewrite length_firstn. by rewrite <- firstn_firstn, firstn_all.
  - lia.
  - intros Hne. destruct bytes; [done|]. simpl in *. lia.
Qed.

(** ** Connections *)

(** The record layer is a part of a connection; its version is another one. *)
Class ReceiverLaws `{RingAead} (C : Type) `{!Receiver C} : Prop := {
  rv_layer_set : ∀ l (c : C), rv_layer (rv_set_layer l c) = l;
  rv_set_layer_same : ∀ c : C, rv_set_layer (rv_layer c) c = c;
  rv_set_set : ∀ l1 l2 (c : C), rv_set_layer l2 (rv_set_layer l1 c) = rv_set_layer l2 c;
  rv_negotiated_set : ∀ l (c : C), rv_negotiated (rv_set_layer l c) = rv_negotiated c;
}.

Section Connections.
Context `{ReceiverLaws C}.
Implicit Types (c : C) (s : Stream) (d : MessageDeframer).

(** [drain], on a stream. *)
Inductive Drains : C → Stream → outcome (C * option Stream) → Prop :=
  | drains_wait c s s' l :
      Pops (rv_negotiated c) (rv_layer c) s (Ok (None, s')) l → Drains c s (Done (rv_set_layer l c, Some s'))
  | drains_error c s e l :
      Pops (rv_negotiated c) (rv_layer c) s (Err e) l →
      Drains c s (c ← rv_error e (rv_set_layer l c); Done (c, None))
  | drains_end c s m s' l c' :
      Pops (rv_negotiated c) (rv_layer c) s (Ok (Some m, s')) l →
      rv_message m (rv_set_layer l c) = Done (c', false) → Drains c s (Done (c', None))
  | drains_panic c s m s' l :
      Pops (rv_negotiated c) (rv_layer c) s (Ok (Some m, s')) l →
      rv_message m (rv_set_layer l c) = Panic → Drains c s Panic
  | drains_next c s m s' l c' r :
      Pops (rv_negotiated c) (rv_layer c) s (Ok (Some m, s')) l →
      rv_message m (rv_set_layer l c) = Done (c', true) → Drains c' s' r → Drains c s r.

Lemma drains_fun c s r1 r2 : Drains c s r1 → Drains c s r2 → r1 = r2.
Proof.
  intros H1. revert r2. induction H1 as [? ? ? ? Hp|? ? ? ? Hp|? ? ? ? ? ? Hp Hm|? ? ? ? ? Hp Hm|? ? ? ? ? ? ? Hp Hm _ IH];
    inversion 1 as [? ? ? ? Hp2|? ? ? ? Hp2|? ? ? ? ? ? Hp2 Hm2|? ? ? ? ? Hp2 Hm2|? ? ? ? ? ? ? Hp2 Hm2]; subst;
    destruct (pops_fun _ _ _ _ _ _ _ Hp Hp2); simplify_eq; try (rewrite Hm in Hm2; simplify_eq); eauto.
Qed.

(** To wait is to have done the turns that could be done. *)
Lemma drains_waited c s l' s' r :
  (∀ r2 l2, Pops (rv_negotiated c) l' s' r2 l2 → Pops (rv_negotiated c) (rv_layer c) s r2 l2) →
  Drains (rv_set_layer l' c) s' r → Drains c s r.
Proof.
  intros Hp. inversion 1 as [? ? ? ? Hp2|? ? ? ? Hp2|? ? ? ? ? ? Hp2 Hm|? ? ? ? ? Hp2 Hm|? ? ? ? ? ? ? Hp2 Hm]; subst;
    rewrite rv_layer_set, rv_negotiated_set in Hp2; rewrite ?rv_set_set in *; apply Hp in Hp2.
  - by apply drains_wait.
  - by apply drains_error.
  - by eapply drains_end.
  - by eapply drains_panic.
  - by eapply drains_next.
Qed.

(** Bytes that come later change nothing of what was done before. *)
Lemma drains_more c s r b :
  Drains c s r →
  match r with
  | Done (c', Some s') => ∀ r2, Drains c' (more b s') r2 → Drains c (more b s) r2
  | _ => Drains c (more b s) r
  end.
Proof.
  induction 1 as [c s s' l Hp|c s e l Hp|c s m s' l c' Hp Hm|c s m s' l Hp Hm|c s m s' l c' r Hp Hm _ IH];
    apply (pops_more _ _ _ _ _ b) in Hp; simpl in Hp.
  - intros r2. by apply drains_waited.
  - apply drains_error in Hp. by destruct (rv_error _ _).
  - by eapply drains_end.
  - by eapply drains_panic.
  - destruct r as [[c2 [s2|]]|]; eauto using drains_next.
Qed.

(** A connection that waits for bytes. *)
Definition Settled c s : Prop := Drains c s (Done (c, Some s)).

Lemma drains_settled c s c' s' : Drains c s (Done (c', Some s')) → Settled c' s'.
Proof.
  remember (Done (c', Some s')) as r eqn:Hr. intros Hd. revert Hr.
  induction Hd as [c s s1 l Hp|c s e l Hp|c s m s1 l c1 Hp Hm|c s m s1 l Hp Hm|c s m s1 l c1 r Hp Hm _ IH];
    intros Hr; simplify_eq; [| |by apply IH].
  - apply pops_wait_again in Hp. rewrite <- (rv_layer_set l c) in Hp at 1. rewrite <- (rv_negotiated_set l c) in Hp.
    apply drains_wait in Hp. by rewrite rv_set_set in Hp.
  - by destruct (rv_error _ _).
Qed.

(** What a loop ends with, on a stream. *)
Definition drained (r : outcome (C * option MessageDeframer)) : outcome (C * option Stream) :=
  match r with Done (c, d) => Done (c, option_map stream_of d) | Panic => Panic end.
Definition still_ok (r : outcome (C * option MessageDeframer)) : Prop :=
  match r with Done (_, Some d) => deframer_ok d | _ => True end.

Lemma drain_drains `{!RingOpens} fuel c d :
  deframer_ok d → (st_size (stream_of d) < fuel)%nat →
  ∃ r, drain fuel c d = Some r ∧ still_ok r ∧ Drains c (stream_of d) (drained r).
Proof.
  revert c d. induction fuel as [|fuel IH]; intros c d Hok Hfuel; [lia|]. simpl.
  destruct (pop_turns (rv_negotiated c) (rv_layer c) d Hok) as (r & l & d' & -> & Hr).
  destruct r as [[m|]|e].
  - destruct Hr as [Hok' Hp]. destruct (rv_message m (rv_set_layer l c)) as [[c' [|]]|] eqn:Hm.
    + pose proof (pops_size _ _ _ _ _ Hp) as Hsize. simpl in Hsize.
      destruct (IH c' d' Hok') as (r & -> & Hok2 & Hd); [lia|]. eauto using drains_next.
    + eexists. split; [done|]. split; [done|]. by eapply drains_end.
    + eexists. split; [done|]. split; [done|]. by eapply drains_panic.
  - destruct Hr as [Hok' Hp]. eexists. split; [done|]. split; [done|]. by apply drains_wait.
  - apply drains_error in Hr. eexists. split; [done|]. by destruct (rv_error _ _).
Qed.

Lemma drains_waits c s c' s' :
  Drains c s (Done (c', Some s')) → stream_turn (rv_negotiated c') (rv_layer c') s' = (T_Wait, rv_layer c').
Proof.
  remember (Done (c', Some s')) as r eqn:Hr. intros Hd. revert Hr.
  induction Hd as [c s s1 l Hp|c s e l Hp|c s m s1 l c1 Hp Hm|c s m s1 l Hp Hm|c s m s1 l c1 r Hp Hm _ IH];
    intros Hr; simplify_eq; [| |by apply IH].
  - rewrite rv_negotiated_set, rv_layer_set. by eapply pops_waits.
  - by destruct (rv_error _ _).
Qed.

(** A connection that waits has room for more, but in the middle of a handshake message. *)
Lemma settled_room c d :
  deframer_ok d → Settled c (stream_of d) → (allow_max d ≤ df_used d)%nat →
  df_joining_hs d ≠ None ∧ MAX_HANDSHAKE_SIZE ≤ Z.of_nat (df_used d).
Proof.
  intros Hok Hs%drains_waits Hfull. unfold allow_max in Hfull. destruct (df_joining_hs d) as [m|] eqn:Hj.
  { split; [done|]. lia. }
  exfalso. unfold stream_turn, record_turn, stream_of, unread_start in Hs. rewrite Hj in Hs. simpl in Hs.
  pose proof (range_length 0 (df_used d) (df_buf d) (dok_used d Hok)) as Hl. rewrite Nat.sub_0_r in Hl.
  destruct (opaque_read _) as [[m rest]|e] eqn:Hread.
  - repeat case_match; simplify_eq; unfold join_turn in *; repeat case_match; done.
  - destruct (record_error e) eqn:He; [done|]. apply opaque_read_short in Hread; [|done]. lia.
Qed.

(** What pieces come to, on a stream. *)
Definition fed_stream (r : outcome (C * Fed)) : outcome (C * option Stream) :=
  match r with
  | Panic => Panic
  | Done (c, Fed_Open d) | Done (c, Fed_Full d) => Done (c, Some (stream_of d))
  | Done (c, Fed_Ended) => Done (c, None)
  end.

(** A buffer is only full in the middle of a handshake message. *)
Definition full_joining (r : outcome (C * Fed)) : Prop :=
  match r with
  | Done (_, Fed_Full d) => df_joining_hs d ≠ None ∧ MAX_HANDSHAKE_SIZE ≤ Z.of_nat (df_used d)
  | _ => False
  end.

Lemma feed_drains `{!RingOpens} fuel c d pieces :
  deframer_ok d → Settled c (stream_of d) → (length (concat pieces) + length pieces < fuel)%nat →
  ∃ r taken, feed fuel c d pieces = Some r ∧ Drains c (more taken (stream_of d)) (fed_stream r) ∧
    (taken = concat pieces ∨ full_joining r).
Proof.
  revert c d pieces. induction fuel as [|fuel IH]; intros c d pieces Hok Hs Hfuel; [lia|].
  destruct pieces as [|[|x piece] pieces]; cbn [feed].
  { do 2 eexists. split; [done|]. split; [|by left]. simpl. by rewrite more_nil. }
  { destruct (IH c d pieces Hok Hs) as (r & taken & -> & Hr); [simpl in *; lia|]. eauto. }
  pose proof (deframer_read_more (x :: piece) d Hok) as Hread.
  destruct (deframer_read (x :: piece) d) as [[[n|] d']|]; [| |done].
  2: { destruct Hread as [-> Hfull]. exists (Done (c, Fed_Full d)), []. rewrite more_nil. split_and!; [done..|].
       right. by eapply settled_room. }
  destruct Hread as (Hok' & Hs' & Hn & Hpos). specialize (Hpos ltac:(done)).
  destruct (drain_drains (S (df_used d')) c d' Hok') as (r & -> & Hok2 & Hd).
  { pose proof (size_used d' Hok'). lia. }
  assert (concat ((x :: piece) :: pieces) = firstn n (x :: piece) ++ concat (skipn n (x :: piece) :: pieces)) as ->.
  { cbn [concat]. by rewrite app_assoc, firstn_skipn. }
  set (later := skipn n (x :: piece) :: pieces).
  assert (length (concat later) + length later < fuel)%nat as Hlater.
  { subst later. cbn [concat length] in *. rewrite !length_app in *. rewrite length_skipn. simpl in *. lia. }
  pose proof (λ b, drains_more _ _ _ b Hd) as Hmore. rewrite Hs' in Hmore.
  destruct r as [[c' [d2|]]|]; simpl in Hd, Hok2, Hmore.
  - destruct (IH c' d2 later Hok2 (drains_settled _ _ _ _ Hd) Hlater) as (r & taken & -> & Hr & Htaken).
    exists r, (firstn n (x :: piece) ++ taken). split; [done|]. rewrite <- more_more. split; [by apply Hmore|].
    destruct Htaken as [->|?]; [by left|by right].
  - exists (Done (c', Fed_Ended)), (firstn n (x :: piece) ++ concat later). rewrite <- more_more. eauto.
  - exists Panic, (firstn n (x :: piece) ++ concat later). rewrite <- more_more. eauto.
Qed.

Lemma new_settled c : Settled c (stream_of deframer_new).
Proof.
  unfold Settled. rewrite <- (rv_set_layer_same c) at 2. apply drains_wait, pops_wait.
  by apply nothing_read; [apply deframer_new_ok|].
Qed.

Lemma feed_all_drains `{!RingOpens} c pieces :
  ∃ r taken, feed_all c pieces = Some r ∧ Drains c (more taken (stream_of deframer_new)) (fed_stream r) ∧
    (taken = concat pieces ∨ full_joining r).
Proof. apply feed_drains; [apply deframer_new_ok|apply new_settled|lia]. Qed.

(** It does not matter in which pieces bytes come in: either the handshake message in the
    buffer is too large, or the connection comes to the same. *)
(** C13: It does not matter in which pieces bytes come in. For every connection, whatever it
    does with the messages that it is given, and every two ways to cut the same bytes: reading
    and processing them ends, and either a handshake message is too large for the buffer, or
    both ways the connection comes to the same, with the same joined and unread bytes. *)
Theorem pieces_do_not_matter `{!RingOpens} c (pieces1 pieces2 : list (list Z)) :
  concat pieces1 = concat pieces2 →
  ∃ r1 r2, feed_all c pieces1 = Some r1 ∧ feed_all c pieces2 = Some r2 ∧
    (full_joining r1 ∨ full_joining r2 ∨ fed_stream r1 = fed_stream r2).
Proof.
  intros Heq.
  destruct (feed_all_drains c pieces1) as (r1 & b1 & Hf1 & Hd1 & Hb1).
  destruct (feed_all_drains c pieces2) as (r2 & b2 & Hf2 & Hd2 & Hb2).
  exists r1, r2. split_and!; [done..|].
  destruct Hb1 as [->|?]; [|by left]. destruct Hb2 as [->|?]; [|by right; left]. right; right. rewrite Heq in Hd1.
  by eapply drains_fun.
Qed.
End Connections.

(** ** The client *)

Section Client.
Context `{TlsCrypto, DnsNames, RingAead, !RingOpens, RingHash, ServerVerifier}.

#[export] Instance client_laws config now : ReceiverLaws ClientConnection (Receiver0 := client_receiver config now).
Proof. split; intros; by destruct c. Qed.

Lemma turn_no_close negotiated l s m s' l' :
  stream_turn negotiated l s = (T_Give m s', l') → dd_want_close_before_decrypt m = false.
Proof.
  unfold stream_turn, record_turn, give_joined, join_turn. intros Ht.
  repeat case_match; simplify_eq; done.
Qed.

Lemma pops_no_close negotiated l s m s' l' :
  Pops negotiated l s (Ok (Some m, s')) l' → dd_want_close_before_decrypt m = false.
Proof.
  remember (Ok (Some m, s')) as r eqn:Hr. intros Hp. revert Hr.
  induction Hp as [| |l s m1 s1 l' Ht|]; intros Hr; simplify_eq; [by eapply turn_no_close|eauto].
Qed.

Lemma client_message_packets config now m st c c' goes :
  client_message config now m c = Done (c', goes) → cc_connection c = CN_Live st →
  dd_want_close_before_decrypt m = false →
  if goes
  then ∃ st', cc_connection c' = CN_Live st' ∧ ∀ input,
         process_packets config now st (DF_Message (dd_aligned m) (dd_message m) :: input) (cc_cx c) =
         process_packets config now st' input (cc_cx c')
  else ∃ r, process_packets config now st [DF_Message (dd_aligned m) (dd_message m)] (cc_cx c) =
            Done (cc_connection c', r, cc_cx c').
Proof.
  unfold client_message. intros Hm Hlive Hclose. rewrite Hlive, Hclose in Hm. simpl.
  destruct (process_msg _ _ _ _ _) as [[[[st'|v]|e] cx']|]; simpl in *; simplify_eq; simpl; eauto.
Qed.

(** What the client does with bytes is what it does with the messages in them. *)
Lemma drains_packets config now c s c' s' st :
  Drains (Receiver0 := client_receiver config now) c s (Done (c', s')) → cc_connection c = CN_Live st →
  ∃ input r, process_packets config now st input (cc_cx c) = Done (cc_connection c', r, cc_cx c').
Proof.
  remember (Done (c', s')) as r eqn:Hr. intros Hd. revert st Hr.
  induction Hd as [c s s1 l Hp|c s e l Hp|c s m s1 l c1 Hp Hm|c s m s1 l Hp Hm|c s m s1 l c1 r Hp Hm _ IH];
    intros st Hr Hlive; simplify_eq.
  - exists [], (Ok ()). by destruct c; simpl in *; subst.
  - exists [DF_Error e]. simpl in *. unfold client_error in Hr. destruct c; simpl in *.
    destruct (deframer_error e _) as [[r cx]|]; simpl in *; simplify_eq. by eexists.
  - apply pops_no_close in Hp. apply (client_message_packets _ _ _ st) in Hm; [|by destruct c|done].
    destruct Hm as [r Hm]. exists [DF_Message (dd_aligned m) (dd_message m)], r. by destruct c.
  - apply pops_no_close in Hp. apply (client_message_packets _ _ _ st) in Hm; [|by destruct c|done].
    destruct Hm as (st1 & Hlive1 & Hm). destruct (IH st1) as (input & r & Hi); [done..|].
    exists (DF_Message (dd_aligned m) (dd_message m) :: input), r. rewrite <- Hi, <- Hm. by destruct c.
Qed.
(** A client that reads bytes in pieces comes to an end with them, and does what it does when
    it is given the messages in them. *)
Lemma client_feeds config now c pieces st :
  cc_connection c = CN_Live st →
  ∃ r, feed_all (H0 := client_receiver config now) c pieces = Some r ∧
    match r with
    | Done (c', _) =>
        ∃ input e, process_packets config now st input (cc_cx c) = Done (cc_connection c', e, cc_cx c')
    | Panic => True
    end.
Proof.
  intros Hlive.
  destruct (feed_all_drains (Receiver0 := client_receiver config now) c pieces) as (r & taken & Hf & Hd & _).
  exists r. split; [done|]. destruct r as [[c' fed]|]; [|done].
  destruct fed; simpl in Hd; by eapply drains_packets in Hd.
Qed.

(** Over TCP: whatever bytes a server sends and in whatever pieces they arrive, what
    NodeTlsTraffic shows of messages, unless the server has chosen TLS 1.2. *)
Theorem bytes_only_from_proved_server `{SessionKeys} server sni now store cx st store' cx1 pieces c fed :
  randomness_ok → hkdf_ok → sni_of server = Done sni →
  kx_hint server store ≠ Some (NG_Unknown 0x001E) →
  extension_order (cx_craft cx) = [] → our_key_share_alt (cx_craft cx) = [] →
  ed_is_enabled (cx_early_data cx) = false → clear_messages cx = [] → quiet cx →
  for_client node_config server [] now store cx = Done (Ok (st, store'), cx1) →
  feed_all (H0 := client_receiver node_config now)
    (mkClientConnection (CN_Live st) cx1 record_layer_new) pieces = Some (Done (c, fed)) →
  (∀ v later, cc_connection c ≠ CN_Tls12 v later) →
  EV_StartTraffic ∈ cx_log (cc_cx c) ∨ cv_chunks (cr_received_plaintext (cx_rest (cc_cx c))) ≠ [] →
  ∃ suite hh, Proved server suite hh (cc_cx c).
Proof.
  intros Hr Hkdf Hsni Hhint Horder Halts Hearly Hempty Hq Hnew Hfeed _ Hdata.
  destruct (client_feeds node_config now (mkClientConnection (CN_Live st) cx1 record_layer_new) pieces st)
    as (r & Hf & Hc); [done|]. rewrite Hfeed in Hf. injection Hf as <-. destruct Hc as (input & e & Hp).
  eapply packets_step in Hp; [|done..|by eapply new_connection_ok].
  apply connection_sound in Hp as [[]|?]; [|by eauto]. by destruct Hdata.
Qed.
End Client.
