(* ===== verification/TokenStore.v ===== *)
(** * TokenStore: the gateway's tokens (src/src/store/token_store.rs)

    The table is a finite map from ids to rows whose [token] column is unique.
    As for the accounts, the outcomes of the next statements are a list. *)

From S2P Require Import Prelude Text Http Model AccountStore.

Record TokenStore := mkTokenStore {
  ts_rows : gmap Z ApiToken;
  ts_next_id : Z;
  ts_faults : list (option string);
}.

Definition token_fault (s : TokenStore) : option AppError * TokenStore :=
  match ts_faults s with
  | [] => (None, s)
  | f :: fs => (Internal <$> f, s <| ts_faults := fs |>)
  end.

Definition token_exec (effect : gmap Z ApiToken → gmap Z ApiToken) (s : TokenStore)
    : result AppError unit * TokenStore :=
  let '(f, s) := token_fault s in
  match f with
  | Some e => (Err e, s)
  | None => (Ok tt, s <| ts_rows := effect (ts_rows s) |>)
  end.

(** The row, if any, that a [WHERE] clause selects. *)
Definition token_where (p : ApiToken → bool) (rows : gmap Z ApiToken) : option ApiToken :=
  snd <$> head (filter (λ e, p e.2 = true) (map_to_list rows)).

(** [unique_error]: the text of the database's constraint violation. *)
Definition token_create (t : ApiToken) (unique_error : string) (now : DateTime) (s : TokenStore)
    : result AppError ApiToken * TokenStore :=
  let '(f, s) := token_fault s in
  match f with
  | Some e => (Err e, s)
  | None =>
      if opt_is_some (token_where (λ row, String.eqb (tok_token row) (tok_token t)) (ts_rows s))
      then (Err (Internal unique_error), s)
      else
        let stored := t <| tok_id := ts_next_id s |> <| tok_created_at := fmt_time now |>
                        <| tok_updated_at := fmt_time now |> in
        (Ok (t <| tok_id := ts_next_id s |>),
         s <| ts_rows := <[ts_next_id s := stored]> (ts_rows s) |>
           <| ts_next_id := ts_next_id s + 1 |>)
  end.

Definition token_update (t : ApiToken) (now : DateTime) (s : TokenStore)
    : result AppError unit * TokenStore :=
  token_exec (alter (λ row,
    row <| tok_name := tok_name t |> <| tok_allowed_accounts := tok_allowed_accounts t |>
        <| tok_blocked_accounts := tok_blocked_accounts t |> <| tok_status := tok_status t |>
        <| tok_updated_at := fmt_time now |>) (tok_id t)) s.

Definition token_delete (id : Z) (s : TokenStore) : result AppError unit * TokenStore :=
  token_exec (delete id) s.

Definition token_get_by_id (id : Z) (s : TokenStore) : result AppError ApiToken * TokenStore :=
  let '(f, s) := token_fault s in
  (match f with Some e => Err e | None => ok_or (ts_rows s !! id) NotFound end, s).

Definition get_by_token (token : string) (s : TokenStore)
    : result AppError (option ApiToken) * TokenStore :=
  let '(f, s) := token_fault s in
  (match f with
   | Some e => Err e
   | None =>
       Ok (token_where (λ row, String.eqb (tok_token row) token
                               && bool_decide (tok_status row = TS_Active)) (ts_rows s))
   end, s).
