(* ===== verification/Admin.v ===== *)
(** * Admin: the administration interface (src/src/handler/router.rs, src/src/middleware/auth.rs)

    The password in front of the administration routes and one operation per route; the
    routes of reports are with the reports. What axum and serde make of a request (the
    route, the path parameter, the typed body) is the operation itself. *)

From S2P Require Import Prelude Text F64 Json Http Model Identity Cache Limit AccountStore Account.
From S2P Require Import GatewayHeaders OAuthFlow TokenStore.

(** ** Lists of tokens (src/src/store/token_store.rs) *)

(** [created_at DESC]; the rows come in the order of their ids. *)
Definition newer_token (a b : ApiToken) : bool := tok_created_at b <=? tok_created_at a.

Definition token_rows (s : TokenStore) : list ApiToken :=
  sort_by newer_token (snd <$> sort_by (λ a b : Z * ApiToken, a.1 <=? b.1) (map_to_list (ts_rows s))).

Definition token_query {A} (f : TokenStore → A) (s : TokenStore) : result AppError A * TokenStore :=
  let '(fault, s) := token_fault s in
  (match fault with Some e => Err e | None => Ok (f s) end, s).

Definition token_list : TokenStore → result AppError (list ApiToken) * TokenStore := token_query token_rows.

(** A negative limit is none and a negative offset 0, as SQLite has it. *)
Definition token_list_paged (page page_size : Z)
    : TokenStore → result AppError (list ApiToken) * TokenStore :=
  token_query (λ s,
    let offset := wrap i64 (wrap i64 (page - 1) * page_size) in
    let rows := drop (Z.to_nat offset) (token_rows s) in
    if page_size <? 0 then rows else take (Z.to_nat page_size) rows).

Definition token_count : TokenStore → result AppError Z * TokenStore :=
  token_query (λ s, Z.of_nat (size (ts_rows s))).

(** ** Requests *)

Inductive ClientDateTime := CD_Millis (ms : Z) | CD_Text (text : string).

Record CreateAccountRequest := mkCreateAccount {
  cr_name : option string;
  cr_email : string;
  cr_token : option string;
  cr_setup_token : option string;
  cr_auth_type : option string;
  cr_access_token : option string;
  cr_refresh_token : option string;
  cr_expires_at : option ClientDateTime;
  cr_proxy_url : option string;
  cr_billing_mode : option string;
  cr_account_uuid : option string;
  cr_organization_uuid : option string;
  cr_subscription_type : option string;
  cr_concurrency : option Z;
  cr_priority : option Z;
  cr_auto_telemetry : option bool;
}.

Record CreateTokenRequest := mkCreateToken {
  ct_name : option string;
  ct_allowed_accounts : option string;
  ct_blocked_accounts : option string;
}.

Section times.
Context `{Chrono}.

Definition timestamp_millis_to_utc (ts : Z) : option DateTime :=
  if in_chrono (from_millis ts) then Some (from_millis ts) else None.

Definition parse_client_datetime_str (value : string) : option DateTime :=
  let trimmed := trim value in
  if is_empty trimmed then None
  else match parse_int i64 trimmed with
       | Some ms => timestamp_millis_to_utc ms
       | None => parse_from_rfc3339 trimmed
       end.

Definition client_datetime_to_utc (v : ClientDateTime) : option DateTime :=
  match v with
  | CD_Millis ts => timestamp_millis_to_utc ts
  | CD_Text text => parse_client_datetime_str text
  end.

Definition client_datetime_value_to_utc (v : Value) : option DateTime :=
  match v with
  | VNumber _ => as_i64 v ≫= timestamp_millis_to_utc
  | VString s => parse_client_datetime_str s
  | _ => None
  end.
End times.

(** ** Edits of an account *)

(** The number of characters of a text in UTF-8. *)
Fixpoint char_count (s : string) : Z :=
  match s with
  | EmptyString => 0
  | String c s =>
      (if (128 <=? byte_val c) && (byte_val c <? 192) then 0 else 1) + char_count s
  end.

(** [is_control]: U+0000 to U+001F, U+007F to U+009F. *)
Fixpoint has_space_or_control (s : string) : bool :=
  match s with
  | EmptyString => false
  | String a r =>
      ws1 a || (byte_val a <? 32) || (byte_val a =? 127)
      || match r with
         | String b r2 =>
             ws2 a b || ((byte_val a =? 194) && (128 <=? byte_val b) && (byte_val b <? 160))
             || match r2 with String c _ => ws3 a b c | EmptyString => false end
         | EmptyString => false
         end
      || has_space_or_control r
  end.

Definition working_dir_ok (path : string) : bool :=
  negb (is_empty path) && starts_with "/" path && (char_count path <=? 1024)
  && negb (has_space_or_control path).

Definition apply_prompt_working_dir_update (prompt updates : Value) : result AppError Value :=
  match vget updates "prompt_working_dir" with
  | None => Ok prompt
  | Some value =>
      match as_str value with
      | None => Err (BadRequest "prompt_working_dir must be a string")
      | Some raw =>
          let path := trim raw in
          if negb (working_dir_ok path) then
            Err (BadRequest "prompt_working_dir must be an absolute path without whitespace or control characters and at most 1024 characters")
          else match as_object prompt with
               | None => Err (BadRequest "account canonical_prompt_env must be a JSON object")
               | Some m => Ok (VObject (<["working_dir" := VString path]> m))
               end
      end
  end.

(** [if let Some(s) = updates.get(k).and_then(|v| v.as_str()) { .. }], for a text and for
    one that is not empty. *)
Definition edit_str (k : string) (updates : Value) (f : string → Account → Account) (a : Account)
    : Account := match get_str updates k with Some s => f s a | None => a end.

Definition edit_nonempty (k : string) (updates : Value) (f : string → Account → Account)
    : Account → Account := edit_str k updates (λ s a, if is_empty s then a else f s a).

(** A positive number, cut to the width of the field. *)
Definition edit_positive (k : string) (updates : Value) (f : Z → Account → Account) (a : Account)
    : Account :=
  match vget updates k ≫= as_i64 with
  | Some n => if 0 <? n then f (wrap i32 n) a else a
  | None => a
  end.

(** A field that is set to the text, or cleared, when it is named. *)
Definition edit_named (k : string) (updates : Value) (f : option string → Account → Account)
    (a : Account) : Account :=
  match vget updates k with Some v => f (as_str v) a | None => a end.

Definition set_auth_type (s : string) (a : Account) : Account :=
  let a := a <| acc_auth_type := auth_type_from_string s |> in
  match acc_auth_type a with
  | AT_SetupToken =>
      a <| acc_access_token := "" |> <| acc_refresh_token := "" |> <| acc_expires_at := None |>
        <| acc_oauth_refreshed_at := None |> <| acc_auth_error := "" |>
  | AT_Oauth => a <| acc_setup_token := "" |>
  end.

Section edits.
Context `{Chrono}.

Definition edit_expires (updates : Value) (a : Account) : Account :=
  match vget updates "expires_at" with
  | Some v => a <| acc_expires_at := client_datetime_value_to_utc v |>
  | None => a
  end.

Definition edit_telemetry (updates : Value) (a : Account) : Account :=
  match vget updates "auto_telemetry" ≫= as_bool with
  | Some b => a <| acc_auto_telemetry := b |>
  | None => a
  end.

(** The edits before the status is looked at. *)
Definition edit_fields (updates : Value) (a : Account) : Account :=
  let a := edit_nonempty "name" updates (λ s a, a <| acc_name := s |>) a in
  let a := edit_nonempty "email" updates (λ s a, a <| acc_email := s |>) a in
  let a := edit_str "auth_type" updates set_auth_type a in
  let a := edit_str "token" updates (λ s a, a <| acc_setup_token := s |>) a in
  let a := edit_str "setup_token" updates (λ s a, a <| acc_setup_token := s |>) a in
  let a := edit_str "access_token" updates (λ s a, a <| acc_access_token := s |>) a in
  let a := edit_str "refresh_token" updates (λ s a, a <| acc_refresh_token := s |>) a in
  let a := edit_expires updates a in
  let a := edit_str "proxy_url" updates (λ s a, a <| acc_proxy_url := s |>) a in
  let a := edit_positive "concurrency" updates (λ n a, a <| acc_concurrency := n |>) a in
  edit_positive "priority" updates (λ n a, a <| acc_priority := n |>) a.

(** The edits after it. *)
Definition edit_rest (updates : Value) (a : Account) : Account :=
  let a := edit_nonempty "status" updates (λ s a, a <| acc_status := account_status_from_string s |>) a in
  let a := edit_nonempty "billing_mode" updates (λ s a, a <| acc_billing_mode := billing_mode_from_string s |>) a in
  let a := edit_named "account_uuid" updates (λ o a, a <| acc_account_uuid := o |>) a in
  let a := edit_named "organization_uuid" updates (λ o a, a <| acc_organization_uuid := o |>) a in
  let a := edit_named "subscription_type" updates (λ o a, a <| acc_subscription_type := o |>) a in
  edit_telemetry updates a.
End edits.

(** ** New accounts and tokens *)

(** [now], [later]: the readings for the two times of creation. *)
Definition account_of_request `{Chrono} (req : CreateAccountRequest) (now later : DateTime) : Account := {|
  acc_id := 0;
  acc_name := default "" (cr_name req);
  acc_email := cr_email req;
  acc_status := AS_Active;
  acc_auth_type := auth_type_from_string (default "setup_token" (cr_auth_type req));
  acc_setup_token := default "" (opt_or (cr_setup_token req) (cr_token req));
  acc_access_token := default "" (cr_access_token req);
  acc_refresh_token := default "" (cr_refresh_token req);
  acc_expires_at := cr_expires_at req ≫= client_datetime_to_utc;
  acc_oauth_refreshed_at := None;
  acc_auth_error := "";
  acc_proxy_url := default "" (cr_proxy_url req);
  acc_device_id := "";
  acc_canonical_env := VObject ∅;
  acc_canonical_prompt := VObject ∅;
  acc_canonical_process := VObject ∅;
  acc_billing_mode := billing_mode_from_string (default "strip" (cr_billing_mode req));
  acc_account_uuid := cr_account_uuid req;
  acc_organization_uuid := cr_organization_uuid req;
  acc_subscription_type := cr_subscription_type req;
  acc_concurrency := default 3 (cr_concurrency req);
  acc_priority := default 50 (cr_priority req);
  acc_rate_limited_at := None;
  acc_rate_limit_reset_at := None;
  acc_disable_reason := "";
  acc_auto_telemetry := default false (cr_auto_telemetry req);
  acc_telemetry_count := 0;
  acc_usage_data := VObject ∅;
  acc_usage_fetched_at := None;
  acc_created_at := now;
  acc_updated_at := later;
|}.

Definition CHARSET : string := "abcdefghijklmnopqrstuvwxyzABCDEFGHIJKLMNOPQRSTUVWXYZ0123456789".

(** [draw i]: the [i]-th random index, below the length of the set. *)
Definition generate_token (draw : nat → nat) : string :=
  "sk-" +:+ String.string_of_list_ascii
              (omap (λ i, String.get (draw i) CHARSET) (seq 0 61)).

Definition token_of_request (req : CreateTokenRequest) (draw : nat → nat) (now later : DateTime)
    : ApiToken :=
  mkApiToken 0 (default "" (ct_name req)) (generate_token draw) (default "" (ct_allowed_accounts req))
    (default "" (ct_blocked_accounts req)) TS_Active now later.

Definition edit_token (updates : Value) (t : ApiToken) : ApiToken :=
  let t := match get_str updates "name" with Some s => t <| tok_name := s |> | None => t end in
  let t := match get_str updates "allowed_accounts" with
           | Some s => t <| tok_allowed_accounts := s |>
           | None => t
           end in
  let t := match get_str updates "blocked_accounts" with
           | Some s => t <| tok_blocked_accounts := s |>
           | None => t
           end in
  match get_str updates "status" with
  | Some s => if is_empty s then t else t <| tok_status := token_status_from_string s |>
  | None => t
  end.

(** ** The operations *)

Record PageQuery := mkPageQuery { pgq_page : option Z; pgq_page_size : option Z }.

Definition page_number (q : PageQuery) : Z := Z.max (default 1 (pgq_page q)) 1.
Definition page_length (d : Z) (q : PageQuery) : Z := Z.max 1 (Z.min (default d (pgq_page_size q)) 100).
Definition page_total (total size : Z) : Z := (total + size - 1) ÷ size.

Inductive AdminReply :=
  | AR_Accounts (data : list (Account * option DateTime)) (total page page_size total_pages : Z)
  | AR_Account (status : Z) (a : Account)
  | AR_Tokens (data : list ApiToken) (total page page_size total_pages : Z)
  | AR_Token (status : Z) (t : ApiToken)
  | AR_Deleted
  | AR_Ok
  | AR_Usage (usage : Value)
  | AR_Failed (message : string)
  | AR_Dashboard (total active error disabled tokens : Z)
  | AR_AuthUrl (u : AuthUrl)
  | AR_Exchange (r : ExchangeCodeResponse).

Inductive AdminCall :=
  | AC_ListAccounts (q : PageQuery)
  | AC_CreateAccount (req : CreateAccountRequest)
  | AC_UpdateAccount (id : Z) (updates : Value)
  | AC_DeleteAccount (id : Z)
  | AC_TestAccount (id : Z)
  | AC_RefreshUsage (id : Z)
  | AC_ListTokens (q : PageQuery)
  | AC_CreateToken (req : CreateTokenRequest)
  | AC_UpdateToken (id : Z) (updates : Value)
  | AC_DeleteToken (id : Z)
  | AC_Dashboard
  | AC_AuthUrl (setup_token : bool) (proxy_url : option string)
  | AC_Exchange (setup_token : bool) (session_id code : string).

(** The clocks, the random draws and the concurrent state that one call meets. *)
Record AdminEnv := mkAdminEnv {
  ae_now : DateTime;
  ae_later : DateTime;
  ae_instant : Instant;
  ae_identity : string * Value * Value * Value;
  ae_token_draw : nat → nat;
  ae_unique_error : string;
  ae_resolve : ResolveEnv;
  ae_session_id : string;
  ae_request_id : string;
  ae_auth : AuthDraws;
  (** [get_session_expires_at]: when the telemetry session of an account ends. *)
  ae_telemetry_expires : Z → option DateTime;
}.

Record AdminState (C : Type) := mkAdminState {
  an_accounts : AccountService C;
  an_tokens : TokenStore;
  an_sessions : Sessions;
}.
Arguments mkAdminState {_}.
Arguments an_accounts {_}.
Arguments an_tokens {_}.
Arguments an_sessions {_}.

(** ** The monad of the handlers: state, errors and panics *)

Definition Handler (C A : Type) : Type := AdminState C → outcome (result AppError A * AdminState C).

#[export] Instance handler_ret C : MRet (Handler C) := λ A a s, Done (Ok a, s).
#[export] Instance handler_bind C : MBind (Handler C) := λ A B f m s,
  '(r, s) ← m s;
  match r with Ok a => f a s | Err e => Done (Err e, s) end.

(** The result of a computation as a value: [match f().await { .. }]. *)
Definition attempt {C A} (m : Handler C A) : Handler C (result AppError A) := λ s,
  '(r, s) ← m s; Done (Ok r, s).

Definition fail {C A} (e : AppError) : Handler C A := λ s, Done (Err e, s).

Definition of_result {C A} (r : result AppError A) : Handler C A := λ s, Done (r, s).

Definition on_service {C A} (f : AccountService C → result AppError A * AccountService C) : Handler C A :=
  λ s, let '(r, svc) := f (an_accounts s) in Done (r, s <| an_accounts := svc |>).

Definition on_store {C A} (f : AccountStore → result AppError A * AccountStore) : Handler C A :=
  on_service (λ svc, let '(r, store) := f (sa_store svc) in (r, svc <| sa_store := store |>)).

Definition on_tokens {C A} (f : TokenStore → result AppError A * TokenStore) : Handler C A :=
  λ s, let '(r, tokens) := f (an_tokens s) in Done (r, s <| an_tokens := tokens |>).

Definition on_sessions {C A} (f : Sessions → A * Sessions) : Handler C A :=
  λ s, let '(r, m) := f (an_sessions s) in Done (Ok r, s <| an_sessions := m |>).

Section admin.
Context {C : Type} `{CacheStore C} `{Chrono} `{UnicodeCase} `{JsonText} `{Digest}.
Context `{HttpClient} `{Base64Url}.
(** The token endpoint, and the usage endpoint. *)
Context (endpoint : TokenEndpoint) (fetch : string → string → result AppError Value).
Abbreviation M := (Handler C).

Definition list_accounts (e : AdminEnv) (q : PageQuery) : M AdminReply :=
  let page := page_number q in
  let page_size := page_length 12 q in
  total ← on_store count;
  accounts ← on_store (list_paged page page_size);
  mret (AR_Accounts ((λ a, (a, ae_telemetry_expires e (acc_id a))) <$> accounts) total page page_size
          (page_total total page_size)).

Definition admin_create_account (e : AdminEnv) (req : CreateAccountRequest) : M AdminReply :=
  if is_empty (cr_email req) then fail (BadRequest "email is required")
  else
    a ← on_service (λ s, create_account s (account_of_request req (ae_now e) (ae_later e))
                           (ae_identity e) (ae_now e));
    mret (AR_Account 201 a).

Definition get_account (id : Z) : M Account := on_store (get_by_id id).

Definition admin_update_account (e : AdminEnv) (id : Z) (updates : Value) : M AdminReply :=
  existing ← get_account id;
  prompt ← of_result (apply_prompt_working_dir_update (acc_canonical_prompt existing) updates);
  let existing := edit_fields updates (existing <| acc_canonical_prompt := prompt |>) in
  if is_some_and (get_str updates "status") (String.eqb "active") then
    _ ← on_store (enable_account id (ae_now e));
    a ← get_account id; mret (AR_Account 200 a)
  else if is_some_and (get_str updates "status") (String.eqb "disabled") then
    _ ← on_store (disable_account id AS_Disabled "手动停用" None (ae_now e));
    a ← get_account id; mret (AR_Account 200 a)
  else
    let existing := edit_rest updates existing in
    _ ← on_service (λ s, update_account s existing (ae_now e));
    mret (AR_Account 200 existing).

Definition admin_delete_account (id : Z) : M AdminReply :=
  _ ← on_store (store_delete id); mret AR_Deleted.

Definition resolve_upstream_token (e : AdminEnv) (id : Z) : M string :=
  account ← get_account id;
  on_service (λ s, resolve_upstream_token_with endpoint s account (ae_resolve e)).

Definition test_account (e : AdminEnv) (id : Z) : M AdminReply :=
  account ← get_account id;
  token ← attempt (resolve_upstream_token e id);
  match token with
  | Err err => mret (AR_Failed (app_error_to_string err))
  | Ok token =>
      match test_token token (acc_proxy_url account) (acc_canonical_env account)
              (ae_session_id e) (ae_request_id e) with
      | Ok _ => mret AR_Ok
      | Err err => mret (AR_Failed (app_error_to_string err))
      end
  end.

Definition usage_message (err : AppError) : string :=
  match err with
  | BadRequest msg => msg
  | TooManyRequests _ => "用量查询接口超限，请一分钟后再试"
  | _ => app_error_to_string err
  end.

Definition admin_refresh_usage (e : AdminEnv) (id : Z) : M AdminReply := λ s,
  '(r, _, svc) ← refresh_usage endpoint fetch (an_accounts s) id (ae_now e) (ae_instant e) (ae_resolve e);
  Done (Ok match r with Ok usage => AR_Usage usage | Err err => AR_Failed (usage_message err) end,
        s <| an_accounts := svc |>).

Definition list_tokens (q : PageQuery) : M AdminReply :=
  let page := page_number q in
  let page_size := page_length 20 q in
  total ← on_tokens token_count;
  tokens ← on_tokens (token_list_paged page page_size);
  mret (AR_Tokens tokens total page page_size (page_total total page_size)).

Definition create_token (e : AdminEnv) (req : CreateTokenRequest) : M AdminReply :=
  t ← on_tokens (token_create (token_of_request req (ae_token_draw e) (ae_now e) (ae_later e))
                   (ae_unique_error e) (ae_now e));
  mret (AR_Token 201 t).

Definition update_token (e : AdminEnv) (id : Z) (updates : Value) : M AdminReply :=
  existing ← on_tokens (token_get_by_id id);
  let existing := edit_token updates existing in
  _ ← on_tokens (token_update existing (ae_now e));
  mret (AR_Token 200 existing).

Definition delete_token_handler (id : Z) : M AdminReply :=
  _ ← on_tokens (token_delete id); mret AR_Deleted.

Definition count_status (status : AccountStatus) (l : list Account) : Z :=
  Z.of_nat (length (filter (λ a, acc_status a = status) l)).

Definition get_dashboard : M AdminReply :=
  accounts ← on_store list_all;
  tokens ← attempt (on_tokens token_count);
  mret (AR_Dashboard (Z.of_nat (length accounts)) (count_status AS_Active accounts)
          (count_status AS_Error accounts) (count_status AS_Disabled accounts)
          (default 0 (res_ok tokens))).

Definition oauth_auth_url (e : AdminEnv) (setup : bool) (proxy_url : option string) : M AdminReply :=
  u ← on_sessions ((if setup then generate_setup_token_url else generate_auth_url) proxy_url (ae_auth e));
  mret (AR_AuthUrl u).

Definition oauth_exchange (e : AdminEnv) (setup : bool) (session_id code : string) : M AdminReply :=
  r ← on_sessions (do_exchange session_id code setup (ae_instant e) (ae_now e));
  r ← of_result r;
  mret (AR_Exchange r).

Definition admin_handle (e : AdminEnv) (c : AdminCall) : M AdminReply :=
  match c with
  | AC_ListAccounts q => list_accounts e q
  | AC_CreateAccount req => admin_create_account e req
  | AC_UpdateAccount id updates => admin_update_account e id updates
  | AC_DeleteAccount id => admin_delete_account id
  | AC_TestAccount id => test_account e id
  | AC_RefreshUsage id => admin_refresh_usage e id
  | AC_ListTokens q => list_tokens q
  | AC_CreateToken req => create_token e req
  | AC_UpdateToken id updates => update_token e id updates
  | AC_DeleteToken id => delete_token_handler id
  | AC_Dashboard => get_dashboard
  | AC_AuthUrl setup proxy_url => oauth_auth_url e setup proxy_url
  | AC_Exchange setup session_id code => oauth_exchange e setup session_id code
  end.

(** ** The password (src/src/middleware/auth.rs) *)

(** [ct_eq]: the comparison of bytes in constant time. *)
Context (ct_eq : string → string → bool).

(** What an administration route answers. *)
Inductive AdminResponse :=
  | AP_Reply (r : AdminReply)
  | AP_Error (status : Z) (body : Value).

Definition err_json (status : Z) (msg : string) : AdminResponse :=
  AP_Error status (VObject {["error" := VString msg]}).

Definition admin_auth (password : string) (headers : HeaderMap)
    (next : AdminState C → outcome (AdminResponse * AdminState C)) (s : AdminState C)
    : outcome (AdminResponse * AdminState C) :=
  let key := extract_key headers in
  if is_empty key || negb (ct_eq key password) then Done (err_json 401 "invalid password", s)
  else next s.

(** A request to an administration route. *)
Definition admin_request (password : string) (headers : HeaderMap) (e : AdminEnv) (c : AdminCall)
    : AdminState C → outcome (AdminResponse * AdminState C) :=
  admin_auth password headers (λ s,
    '(r, s) ← admin_handle e c s;
    Done (match r with
          | Ok reply => AP_Reply reply
          | Err err => let '(status, body) := app_error_into_response err in AP_Error status body
          end, s)).
End admin.
