(* ===== verification/AdminFacts.v ===== *)
(** * AdminFacts: the theorems on the administration interface

    Nothing is done without the password; what an edit of an account stores; a switch on
    or off stores nothing else; two inputs that are accepted and should not be. *)

From S2P Require Import Prelude Text F64 Json Http Model Identity Cache Limit AccountStore Account.
From S2P Require Import GatewayHeaders OAuthFlow TokenStore Admin.

(** ** Statements that succeed *)

Lemma exec_invalidating_ok effect s s' :
  exec_invalidating effect s = (Ok tt, s') → as_rows s' = effect (as_rows s).
Proof.
  unfold exec_invalidating, exec, next_fault. destruct s as [rows next [|[m|] fs] cache]; simpl; by intros [= <-].
Qed.

Lemma get_by_id_ok id s a s' :
  get_by_id id s = (Ok a, s') →
  ∃ row, as_rows s !! id = Some row ∧ a = row_to_account row ∧ as_rows s' = as_rows s.
Proof.
  unfold get_by_id, next_fault. destruct s as [rows next [|[m|] fs] cache]; simpl; intros [= Hr <-]; try done.
  all: simpl; destruct (rows !! id) as [row|]; [|done]; injection Hr as <-; by exists row.
Qed.

(** ** Edits and the fields that they leave alone *)

Lemma edit_str_keeps {B} (π : Account → B) k u f a :
  (∀ s a, π (f s a) = π a) → π (edit_str k u f a) = π a.
Proof. intros Hf. unfold edit_str. by destruct (get_str u k). Qed.

Lemma edit_nonempty_keeps {B} (π : Account → B) k u f a :
  (∀ s a, π (f s a) = π a) → π (edit_nonempty k u f a) = π a.
Proof. intros Hf. apply edit_str_keeps. intros s b. by destruct (is_empty s). Qed.

Lemma edit_positive_keeps {B} (π : Account → B) k u f a :
  (∀ n a, π (f n a) = π a) → π (edit_positive k u f a) = π a.
Proof. intros Hf. unfold edit_positive. destruct (_ ≫= _) as [n|]; [|done]. by case_match. Qed.

Lemma edit_named_keeps {B} (π : Account → B) k u f a :
  (∀ o a, π (f o a) = π a) → π (edit_named k u f a) = π a.
Proof. intros Hf. unfold edit_named. by destruct (vget u k). Qed.

(** What an edit makes of its own field. *)
Lemma edit_str_sets {B} (π : Account → B) k u f g a :
  (∀ s a, π (f s a) = g s) → π (edit_str k u f a) = default (π a) (g <$> get_str u k).
Proof. intros Hf. unfold edit_str. by destruct (get_str u k); simpl. Qed.

Definition not_empty (s : string) : bool := negb (is_empty s).

Lemma edit_nonempty_sets {B} (π : Account → B) k u f g a :
  (∀ s a, π (f s a) = g s) →
  π (edit_nonempty k u f a) = default (π a) (g <$> opt_filter not_empty (get_str u k)).
Proof.
  intros Hf. unfold edit_nonempty, edit_str. destruct (get_str u k) as [s|]; [|done].
  unfold not_empty. by destruct (is_empty s) eqn:Hs; simpl; rewrite Hs.
Qed.

(** A number that an edit takes. *)
Definition positive_of (k : string) (u : Value) : option Z := opt_filter (λ n, 0 <? n) (vget u k ≫= as_i64).

Lemma edit_positive_sets (π : Account → Z) k u f a :
  (∀ n a, π (f n a) = n) → π (edit_positive k u f a) = default (π a) (wrap i32 <$> positive_of k u).
Proof.
  intros Hf. unfold edit_positive, positive_of. destruct (_ ≫= _) as [n|]; [|done]. simpl. by case_match.
Qed.

Definition named_of (k : string) (u : Value) (old : option string) : option string :=
  match vget u k with Some v => as_str v | None => old end.

Lemma edit_named_sets (π : Account → option string) k u f a :
  (∀ o a, π (f o a) = o) → π (edit_named k u f a) = named_of k u (π a).
Proof. intros Hf. unfold edit_named, named_of. by destruct (vget u k). Qed.

Lemma set_auth_type_keeps {B} (π : Account → B) :
  (∀ t a, π (a <| acc_auth_type := t |>) = π a) → (∀ s a, π (a <| acc_setup_token := s |>) = π a) →
  (∀ a, π (a <| acc_access_token := "" |> <| acc_refresh_token := "" |> <| acc_expires_at := None |>
             <| acc_oauth_refreshed_at := None |> <| acc_auth_error := "" |>) = π a) →
  ∀ s a, π (set_auth_type s a) = π a.
Proof.
  intros Ht Hs Ha s a. unfold set_auth_type. destruct (acc_auth_type _); by rewrite ?Ha, ?Hs, Ht.
Qed.

Section facts.
Context `{Chrono}.

Lemma edit_expires_keeps {B} (π : Account → B) u a :
  (∀ o a, π (a <| acc_expires_at := o |>) = π a) → π (edit_expires u a) = π a.
Proof. intros Hf. unfold edit_expires. by case_match. Qed.

Lemma edit_telemetry_keeps {B} (π : Account → B) u a :
  (∀ b a, π (a <| acc_auto_telemetry := b |>) = π a) → π (edit_telemetry u a) = π a.
Proof. intros Hf. unfold edit_telemetry. by case_match. Qed.

Lemma edit_telemetry_sets u a :
  acc_auto_telemetry (edit_telemetry u a) = default (acc_auto_telemetry a) (vget u "auto_telemetry" ≫= as_bool).
Proof. unfold edit_telemetry. case_match; [by destruct a|done]. Qed.

(** Peel the edits that leave the field [π] alone. *)
Ltac peel π :=
  unfold edit_rest, edit_fields; cbv zeta;
  repeat (etrans; [first
    [ apply (edit_str_keeps π); first [by intros ? [] | by apply set_auth_type_keeps; intros; destruct_and?]
    | apply (edit_str_keeps π); apply set_auth_type_keeps; by intros; match goal with a : Account |- _ => destruct a end
    | apply (edit_nonempty_keeps π); by intros ? []
    | apply (edit_positive_keeps π); by intros ? []
    | apply (edit_named_keeps π); by intros ? []
    | apply (edit_expires_keeps π); by intros ? []
    | apply (edit_telemetry_keeps π); by intros ? [] ]|]).

(** The own field of an edit, after those that leave it alone. *)
Tactic Notation "own" constr(π) uconstr(lem) := peel π; etrans; [apply lem; by intros ? []|]; f_equal; peel π; done.

(** The kind of account after an edit, and a credential that the change to another kind clears. *)
Definition edited_kind (u : Value) (old : AccountAuthType) : AccountAuthType :=
  default old (auth_type_from_string <$> get_str u "auth_type").

Definition unless_kind (k : AccountAuthType) (u : Value) (old : string) : string :=
  if bool_decide (auth_type_from_string <$> get_str u "auth_type" = Some k) then "" else old.

Lemma edited_fields u a :
  let b := edit_rest u (edit_fields u a) in
  acc_id b = acc_id a ∧ acc_canonical_prompt b = acc_canonical_prompt a
  ∧ acc_canonical_env b = acc_canonical_env a
  ∧ acc_name b = default (acc_name a) (opt_filter not_empty (get_str u "name"))
  ∧ acc_email b = default (acc_email a) (opt_filter not_empty (get_str u "email"))
  ∧ acc_proxy_url b = default (acc_proxy_url a) (get_str u "proxy_url")
  ∧ acc_auth_type b = edited_kind u (acc_auth_type a)
  ∧ acc_status b = default (acc_status a)
      (account_status_from_string <$> opt_filter not_empty (get_str u "status"))
  ∧ acc_billing_mode b = default (acc_billing_mode a)
      (billing_mode_from_string <$> opt_filter not_empty (get_str u "billing_mode"))
  ∧ acc_concurrency b = default (acc_concurrency a) (wrap i32 <$> positive_of "concurrency" u)
  ∧ acc_priority b = default (acc_priority a) (wrap i32 <$> positive_of "priority" u)
  ∧ acc_account_uuid b = named_of "account_uuid" u (acc_account_uuid a)
  ∧ acc_organization_uuid b = named_of "organization_uuid" u (acc_organization_uuid a)
  ∧ acc_subscription_type b = named_of "subscription_type" u (acc_subscription_type a)
  ∧ acc_auto_telemetry b = default (acc_auto_telemetry a) (vget u "auto_telemetry" ≫= as_bool).
Proof.
  assert (∀ o : option string, (λ s, s) <$> o = o) as Hid by by intros [].
  cbv zeta. split_and!.
  - peel acc_id. done.
  - peel acc_canonical_prompt. done.
  - peel acc_canonical_env. done.
  - rewrite <- (Hid (opt_filter _ _)). own acc_name (edit_nonempty_sets acc_name "name" u _ (λ s, s)).
  - rewrite <- (Hid (opt_filter _ _)). own acc_email (edit_nonempty_sets acc_email "email" u _ (λ s, s)).
  - rewrite <- (Hid (get_str u _)). own acc_proxy_url (edit_str_sets acc_proxy_url "proxy_url" u _ (λ s, s)).
  - peel acc_auth_type. etrans; [apply (edit_str_sets acc_auth_type _ _ _ auth_type_from_string)|].
    + intros s b. unfold set_auth_type. destruct b. simpl. by destruct (auth_type_from_string s).
    + unfold edited_kind. f_equal. peel acc_auth_type. done.
  - own acc_status (edit_nonempty_sets acc_status "status" u _ account_status_from_string).
  - own acc_billing_mode (edit_nonempty_sets acc_billing_mode "billing_mode" u _ billing_mode_from_string).
  - own acc_concurrency (edit_positive_sets acc_concurrency "concurrency" u).
  - own acc_priority (edit_positive_sets acc_priority "priority" u).
  - own acc_account_uuid (edit_named_sets acc_account_uuid "account_uuid" u).
  - own acc_organization_uuid (edit_named_sets acc_organization_uuid "organization_uuid" u).
  - own acc_subscription_type (edit_named_sets acc_subscription_type "subscription_type" u).
  - own acc_auto_telemetry (edit_telemetry_sets u).
Qed.

Lemma edit_expires_sets u a :
  acc_expires_at (edit_expires u a) =
    match vget u "expires_at" with Some v => client_datetime_value_to_utc v | None => acc_expires_at a end.
Proof. unfold edit_expires. destruct (vget u "expires_at"); [by destruct a|done]. Qed.

Lemma set_auth_type_expiry s a :
  acc_expires_at (set_auth_type s a) =
    if bool_decide (auth_type_from_string s = AT_SetupToken) then None else acc_expires_at a.
Proof. unfold set_auth_type. destruct a. simpl. by destruct (auth_type_from_string s). Qed.

Lemma edited_expiry u a :
  acc_expires_at (edit_rest u (edit_fields u a)) =
    match vget u "expires_at" with
    | Some v => client_datetime_value_to_utc v
    | None => if bool_decide (auth_type_from_string <$> get_str u "auth_type" = Some AT_SetupToken) then None
              else acc_expires_at a
    end.
Proof.
  peel acc_expires_at. etrans; [apply edit_expires_sets|]. destruct (vget u "expires_at") as [v|]; [done|].
  peel acc_expires_at. unfold edit_str at 1. destruct (get_str u "auth_type") as [t|].
  - etrans; [apply set_auth_type_expiry|].
    destruct (decide (auth_type_from_string t = AT_SetupToken)) as [Ht|Ht].
    + rewrite !bool_decide_true; [done|by simpl; rewrite Ht|done].
    + rewrite !bool_decide_false; [peel acc_expires_at; done|simpl; congruence|done].
  - rewrite bool_decide_false by done. peel acc_expires_at. done.
Qed.

Lemma edited_credentials u a :
  let b := edit_rest u (edit_fields u a) in
  acc_setup_token b =
    default (default (unless_kind AT_Oauth u (acc_setup_token a)) (get_str u "token")) (get_str u "setup_token")
  ∧ acc_access_token b = default (unless_kind AT_SetupToken u (acc_access_token a)) (get_str u "access_token")
  ∧ acc_refresh_token b = default (unless_kind AT_SetupToken u (acc_refresh_token a)) (get_str u "refresh_token").
Proof.
  assert (∀ o : option string, (λ s, s) <$> o = o) as Hid by by intros [].
  assert (∀ b, acc_setup_token (edit_str "auth_type" u set_auth_type b) = unless_kind AT_Oauth u (acc_setup_token b)
    ∧ acc_access_token (edit_str "auth_type" u set_auth_type b) = unless_kind AT_SetupToken u (acc_access_token b)
    ∧ acc_refresh_token (edit_str "auth_type" u set_auth_type b) = unless_kind AT_SetupToken u (acc_refresh_token b))
    as Hkind.
  { intros b. unfold edit_str, unless_kind, set_auth_type. destruct (get_str u "auth_type") as [s|]; [|done].
    destruct b. simpl. by destruct (auth_type_from_string s). }
  assert (∀ k b, acc_setup_token (edit_str k u (λ s a, a <| acc_setup_token := s |>) b)
                 = default (acc_setup_token b) (get_str u k)) as Hset.
  { intros k b. rewrite <- (Hid (get_str u k)). apply edit_str_sets. by intros ? []. }
  cbv zeta. split_and!.
  - peel acc_setup_token. rewrite !Hset, (proj1 (Hkind _)). do 3 f_equal. peel acc_setup_token. done.
  - rewrite <- (Hid (get_str u "access_token")). peel acc_access_token.
    etrans; [apply (edit_str_sets acc_access_token _ _ _ (λ s, s)); by intros ? []|]. f_equal.
    peel acc_access_token. rewrite (proj1 (proj2 (Hkind _))). f_equal. peel acc_access_token. done.
  - rewrite <- (Hid (get_str u "refresh_token")). peel acc_refresh_token.
    etrans; [apply (edit_str_sets acc_refresh_token _ _ _ (λ s, s)); by intros ? []|]. f_equal.
    peel acc_refresh_token. rewrite (proj2 (proj2 (Hkind _))). f_equal. peel acc_refresh_token. done.
Qed.
End facts.

(** ** Updates of accounts *)

Section admin.
Context {C : Type} `{CacheStore C} `{Chrono} `{UnicodeCase} `{JsonText} `{Digest}.

Lemma on_store_done {A} (f : AccountStore → result AppError A * AccountStore) (s : AdminState C) r s' :
  on_store f s = Done (r, s') →
  ∃ store, f (sa_store (an_accounts s)) = (r, store) ∧ sa_store (an_accounts s') = store
    ∧ an_tokens s' = an_tokens s ∧ an_sessions s' = an_sessions s.
Proof.
  unfold on_store, on_service. destruct s as [[store cache lim cool] toks sess]. simpl.
  destruct (f store) as [r0 store']. intros [= <- <-]. by exists store'.
Qed.

Lemma handler_bind_ok {A B} (m : Handler C A) (f : A → Handler C B) s b s' :
  (m ≫= f) s = Done (Ok b, s') → ∃ a s1, m s = Done (Ok a, s1) ∧ f a s1 = Done (Ok b, s').
Proof.
  unfold mbind at 1, handler_bind. destruct (m s) as [[[a|e] s1]|]; cbn [mbind outcome_bind]; try done.
  intros Hf. by exists a, s1.
Qed.

Lemma update_account_ok (svc svc' : AccountService C) a now :
  update_account svc a now = (Ok tt, svc') →
  ∃ b store, normalize_account_auth a = Ok b ∧ update b now (sa_store svc) = (Ok tt, store)
    ∧ sa_store svc' = store.
Proof.
  unfold update_account. destruct (normalize_account_auth a) as [b|]; [|done].
  destruct (update b now (sa_store svc)) as [r store] eqn:Hu. intros [= -> <-]. exists b, store. by destruct svc.
Qed.

Lemma edit_status_other (o : option string) (t : string) : o ≠ Some t → is_some_and o (String.eqb t) = false.
Proof. intros Ho. destruct o as [s|]; [|done]. simpl. apply String.eqb_neq. congruence. Qed.

(** What [normalize_account_auth] leaves alone. *)
Lemma normalize_fields a b :
  normalize_account_auth a = Ok b →
  acc_id b = acc_id a ∧ acc_canonical_prompt b = acc_canonical_prompt a
  ∧ acc_canonical_env b = acc_canonical_env a ∧ acc_name b = acc_name a ∧ acc_email b = acc_email a
  ∧ acc_proxy_url b = acc_proxy_url a ∧ acc_auth_type b = acc_auth_type a ∧ acc_status b = acc_status a
  ∧ acc_billing_mode b = acc_billing_mode a ∧ acc_concurrency b = acc_concurrency a
  ∧ acc_priority b = acc_priority a ∧ acc_account_uuid b = acc_account_uuid a
  ∧ acc_organization_uuid b = acc_organization_uuid a ∧ acc_subscription_type b = acc_subscription_type a
  ∧ acc_auto_telemetry b = acc_auto_telemetry a
  ∧ match acc_auth_type a with
    | AT_SetupToken => acc_setup_token b = acc_setup_token a ∧ not_empty (trim (acc_setup_token a)) = true
        ∧ acc_access_token b = "" ∧ acc_refresh_token b = ""
    | AT_Oauth => acc_setup_token b = "" ∧ acc_refresh_token b = acc_refresh_token a
        ∧ not_empty (trim (acc_refresh_token a)) = true
        ∧ acc_access_token b = (if is_empty (trim (acc_access_token a)) then "" else acc_access_token a)
    end.
Proof.
  unfold normalize_account_auth, not_empty. destruct (acc_auth_type a) eqn:Hk.
  - destruct (is_empty (trim (acc_setup_token a))) eqn:He; [done|]. intros [= <-]. by destruct a.
  - destruct (is_empty (trim (acc_refresh_token a))) eqn:He; [done|]. intros [= <-].
    destruct a. simpl in *. destruct (is_empty (trim acc_access_token)) eqn:Ha; simpl; by rewrite ?Ha.
Qed.

Lemma normalize_expiry a b :
  normalize_account_auth a = Ok b →
  acc_expires_at b = match acc_auth_type a with
    | AT_SetupToken => None
    | AT_Oauth => if is_empty (trim (acc_access_token a)) then None else acc_expires_at a
    end.
Proof.
  unfold normalize_account_auth. destruct (acc_auth_type a), a; simpl; case_match; try done;
    intros [= <-]; [done|]. by case_match.
Qed.

(** What [update] writes: the fields that can be edited, into the row of the account. *)
Lemma update_stored b now store store2 row :
  as_rows store !! acc_id b = Some row → update b now store = (Ok tt, store2) →
  ∃ row', as_rows store2 = <[acc_id b := row']> (as_rows store)
    ∧ acc_name row' = acc_name b ∧ acc_email row' = acc_email b ∧ acc_proxy_url row' = acc_proxy_url b
    ∧ acc_status row' = acc_status b ∧ acc_billing_mode row' = acc_billing_mode b
    ∧ acc_concurrency row' = acc_concurrency b ∧ acc_priority row' = acc_priority b
    ∧ acc_auto_telemetry row' = acc_auto_telemetry b ∧ acc_auth_type row' = acc_auth_type b
    ∧ acc_canonical_prompt row' = acc_canonical_prompt b
    ∧ acc_setup_token row' = acc_setup_token b ∧ acc_access_token row' = acc_access_token b
    ∧ acc_refresh_token row' = acc_refresh_token b
    ∧ acc_id row' = acc_id row ∧ acc_device_id row' = acc_device_id row
    ∧ acc_canonical_process row' = acc_canonical_process row
    ∧ acc_rate_limited_at row' = acc_rate_limited_at row
    ∧ acc_rate_limit_reset_at row' = acc_rate_limit_reset_at row
    ∧ acc_usage_data row' = acc_usage_data row ∧ acc_telemetry_count row' = acc_telemetry_count row
    ∧ acc_account_uuid row' = acc_account_uuid b ∧ acc_organization_uuid row' = acc_organization_uuid b
    ∧ acc_subscription_type row' = acc_subscription_type b
    ∧ acc_expires_at row' = fmt_time <$> acc_expires_at b.
Proof.
  intros Hrow Hu. unfold update in Hu. apply exec_invalidating_ok in Hu. rewrite Hu. unfold update_row.
  eexists. split.
  - apply map_eq. intros i. destruct (decide (i = acc_id b)) as [->|Hi].
    + by rewrite lookup_alter_eq, lookup_insert_eq, Hrow.
    + by rewrite lookup_alter_ne, lookup_insert_ne by done.
  - destruct row. simpl. done.
Qed.

(** An edit that is no switch of the status and succeeds: the edited account, normalized,
    is written over the row that was read. *)
Lemma edit_runs e id updates (s : AdminState C) reply s' :
  get_str updates "status" ≠ Some "active" → get_str updates "status" ≠ Some "disabled" →
  (∀ row, as_rows (sa_store (an_accounts s)) !! id = Some row → acc_id row = id) →
  admin_update_account e id updates s = Done (Ok reply, s') →
  ∃ row prompt b store store2, as_rows (sa_store (an_accounts s)) !! id = Some row
    ∧ apply_prompt_working_dir_update (acc_canonical_prompt row) updates = Ok prompt
    ∧ normalize_account_auth
        (edit_rest updates (edit_fields updates ((row_to_account row) <| acc_canonical_prompt := prompt |>))) = Ok b
    ∧ acc_id b = id ∧ as_rows store = as_rows (sa_store (an_accounts s))
    ∧ update b (ae_now e) store = (Ok tt, store2)
    ∧ sa_store (an_accounts s') = store2 ∧ an_tokens s' = an_tokens s.
Proof.
  intros Hna Hnd Hid Hrun. unfold admin_update_account in Hrun.
  apply handler_bind_ok in Hrun as (a & s1 & Hget & Hrun).
  apply on_store_done in Hget as (store & Hget & Hst & Ht & _).
  apply get_by_id_ok in Hget as (row & Hrow & -> & Hrows).
  apply handler_bind_ok in Hrun as (prompt & s2 & [= Hprompt <-] & Hrun).
  cbv zeta in Hrun. rewrite !edit_status_other in Hrun by done.
  apply handler_bind_ok in Hrun as ([] & s2 & Hup & [= <- <-]).
  unfold on_service in Hup. destruct (update_account (an_accounts s1) _ _) as [r svc] eqn:Hu.
  injection Hup as -> <-. apply update_account_ok in Hu as (b & store2 & Hnorm & Hupd & Hst2).
  exists row, prompt, b, store, store2. destruct s1 as [svc1 toks sess]. simpl in Hst, Ht |- *.
  rewrite <- Hst. split_and!; try done.
  - by destruct row.
  - destruct (normalize_fields _ _ Hnorm) as [-> _].
    rewrite (proj1 (edited_fields updates _)).
    rewrite <- (Hid row Hrow). by destruct row.
  - by rewrite Hst.
Qed.

(** *** What an edit stores *)

(** The row after an edit that is no switch of the status. Numbers count when they are positive,
    and are then cut to 32 bits; empty texts do not count for the name, the mail address, the
    status and the billing mode. *)
Record edited (u : Value) (row row' : Account) : Prop := {
  ed_name : acc_name row' = default (acc_name row) (opt_filter not_empty (get_str u "name"));
  ed_email : acc_email row' = default (acc_email row) (opt_filter not_empty (get_str u "email"));
  ed_proxy : acc_proxy_url row' = default (acc_proxy_url row) (get_str u "proxy_url");
  ed_status : acc_status row' = default (acc_status row)
    (account_status_from_string <$> opt_filter not_empty (get_str u "status"));
  ed_billing : acc_billing_mode row' = default (acc_billing_mode row)
    (billing_mode_from_string <$> opt_filter not_empty (get_str u "billing_mode"));
  ed_concurrency : acc_concurrency row' =
    default (acc_concurrency row) (wrap i32 <$> positive_of "concurrency" u);
  ed_priority : acc_priority row' = default (acc_priority row) (wrap i32 <$> positive_of "priority" u);
  ed_telemetry : acc_auto_telemetry row' =
    default (acc_auto_telemetry row) (vget u "auto_telemetry" ≫= as_bool);
  ed_account : acc_account_uuid row' = named_of "account_uuid" u (acc_account_uuid row);
  ed_organization : acc_organization_uuid row' = named_of "organization_uuid" u (acc_organization_uuid row);
  ed_subscription : acc_subscription_type row' = named_of "subscription_type" u (acc_subscription_type row);
  ed_prompt : apply_prompt_working_dir_update (acc_canonical_prompt row) u = Ok (acc_canonical_prompt row');
  ed_kind : acc_auth_type row' = edited_kind u (acc_auth_type row);
  ed_setup : acc_auth_type row' = AT_SetupToken →
    acc_setup_token row' =
      default (default (unless_kind AT_Oauth u (acc_setup_token row)) (get_str u "token")) (get_str u "setup_token")
    ∧ not_empty (trim (acc_setup_token row')) = true
    ∧ acc_access_token row' = "" ∧ acc_refresh_token row' = "" ∧ acc_expires_at row' = None;
  ed_oauth : acc_auth_type row' = AT_Oauth →
    let access := default (acc_access_token row) (get_str u "access_token") in
    acc_setup_token row' = "" ∧ not_empty (trim (acc_refresh_token row')) = true
    ∧ acc_refresh_token row' = default (acc_refresh_token row) (get_str u "refresh_token")
    ∧ acc_access_token row' = (if is_empty (trim access) then "" else access)
    ∧ acc_expires_at row' =
        (if is_empty (trim access) then None
         else fmt_time <$> match vget u "expires_at" with
                           | Some v => client_datetime_value_to_utc v
                           | None => acc_expires_at row
                           end);
  ed_identity : acc_id row' = acc_id row ∧ acc_device_id row' = acc_device_id row
    ∧ acc_canonical_process row' = acc_canonical_process row;
  ed_state : acc_rate_limited_at row' = acc_rate_limited_at row
    ∧ acc_rate_limit_reset_at row' = acc_rate_limit_reset_at row
    ∧ acc_usage_data row' = acc_usage_data row ∧ acc_telemetry_count row' = acc_telemetry_count row;
}.

(** An OAuth account after the edit was not named a setup-token account. *)
Lemma oauth_not_switched u old :
  edited_kind u old = AT_Oauth →
  bool_decide (auth_type_from_string <$> get_str u "auth_type" = Some AT_SetupToken) = false.
Proof.
  unfold edited_kind. intros Hk. apply bool_decide_eq_false. intros Hs. rewrite Hs in Hk. done.
Qed.

Lemma normalized_edited u row prompt b row' :
  apply_prompt_working_dir_update (acc_canonical_prompt row) u = Ok prompt →
  let a := (row_to_account row) <| acc_canonical_prompt := prompt |> in
  normalize_account_auth (edit_rest u (edit_fields u a)) = Ok b →
  (∀ store store2 now, as_rows store !! acc_id b = Some row → update b now store = (Ok tt, store2) →
     as_rows store2 !! acc_id b = Some row' → edited u row row').
Proof.
  intros Hprompt a Hnorm store store2 now Hrow Hupd Hrow'.
  apply (update_stored b _ _ _ row) in Hupd as (row2 & Hrows & Un & Ue & Upx & Us & Ub & Uc & Upr & Uau & Ut & Up & Ust
    & Uat & Urt & Kid & Kdev & Kproc & Krl & Krr & Kud & Ktc & Uac & Uor & Usu & Uex); [|done].
  rewrite Hrows, lookup_insert_eq in Hrow'. injection Hrow' as ->.
  pose proof (normalize_expiry _ _ Hnorm) as Nex. apply normalize_fields in Hnorm.
  destruct (edited_fields u a) as (_ & Fp & _ & Fn & Fe & Fpx & Ft & Fs & Fb & Fc & Fpr & Fac & For & Fsu & Fau).
  destruct (edited_credentials u a) as (Gs & Ga & Gr). pose proof (edited_expiry u a) as Fex.
  destruct Hnorm as (_ & Np & _ & Nn & Ne & Npx & Nt & Ns & Nb & Nc & Npr & Nac & Nor & Nsu & Nau & Ncred).
  rewrite Ft in Nex, Ncred. clear Hrows Hrow.
  generalize dependent (edit_rest u (edit_fields u a)). intros ed **.
  assert (edited_kind u (acc_auth_type a) = edited_kind u (acc_auth_type row)) as Ek by (subst a; by destruct row).
  split; try (subst a; destruct row; simpl in *; congruence).
  - intros Hk. assert (edited_kind u (acc_auth_type a) = AT_SetupToken) as Hk2 by congruence.
    rewrite Hk2 in Ncred, Nex. destruct Ncred as (C1 & C2 & C3 & C4).
    split_and!; [rewrite Ust, C1, Gs; subst a; by destruct row|by rewrite Ust, C1|congruence..|].
    by rewrite Uex, Nex.
  - intros Hk access. assert (edited_kind u (acc_auth_type a) = AT_Oauth) as Hk2 by congruence.
    rewrite Hk2 in Ncred, Nex. destruct Ncred as (C1 & C2 & C3 & C4).
    assert (acc_access_token ed = access) as Hacc.
    { rewrite Ga. unfold unless_kind. rewrite (oauth_not_switched _ _ Hk2). subst a access. by destruct row. }
    assert (acc_refresh_token ed = default (acc_refresh_token row) (get_str u "refresh_token")) as Href.
    { rewrite Gr. unfold unless_kind. rewrite (oauth_not_switched _ _ Hk2). subst a. by destruct row. }
    rewrite (oauth_not_switched _ _ Hk2) in Fex. rewrite Hacc in C4, Nex.
    split_and!; [congruence|congruence|congruence|congruence|].
    rewrite Uex, Nex, Fex. destruct (is_empty (trim access)); [done|]. f_equal.
    subst a. by destruct row.
  - done.
  - done.
Qed.

(** A switch of the status, to active or to disabled: nothing but the status, its reason and
    the marks of a rate limit is written. *)
Definition switched (status : AccountStatus) (reason : string) (row row' : Account) : Prop :=
  ∃ t, row' = row <| acc_status := status |> <| acc_disable_reason := reason |>
                <| acc_rate_limited_at := None |> <| acc_rate_limit_reset_at := None |>
                <| acc_updated_at := t |>.

Lemma switch_runs e id u (s : AdminState C) reply s' t :
  get_str u "status" = Some t → t = "active" ∨ t = "disabled" →
  admin_update_account e id u s = Done (Ok reply, s') →
  ∃ row row', as_rows (sa_store (an_accounts s)) !! id = Some row
    ∧ as_rows (sa_store (an_accounts s')) = <[id := row']> (as_rows (sa_store (an_accounts s)))
    ∧ an_tokens s' = an_tokens s
    ∧ if String.eqb t "active" then switched AS_Active "" row row'
      else switched AS_Disabled "手动停用" row row'.
Proof.
  intros Hs Ht Hrun. unfold admin_update_account in Hrun.
  apply handler_bind_ok in Hrun as (a & s1 & Hget & Hrun).
  apply on_store_done in Hget as (store & Hget & Hst & Htk & _).
  apply get_by_id_ok in Hget as (row & Hrow & -> & Hrows).
  apply handler_bind_ok in Hrun as (prompt & s2 & [= _ <-] & Hrun). cbv zeta in Hrun. rewrite Hs in Hrun.
  assert (∀ f : Account → Account, ∀ st2, (∃ st, (exec_invalidating (update_row id f) st) = (Ok tt, st2)
      ∧ as_rows st = as_rows (sa_store (an_accounts s))) →
    as_rows st2 = <[id := f row]> (as_rows (sa_store (an_accounts s)))) as Hex.
  { intros f st2 (st & Hx & Hr). apply exec_invalidating_ok in Hx. rewrite Hx, Hr. apply map_eq. intros i.
    unfold update_row. destruct (decide (i = id)) as [->|Hi].
    - by rewrite lookup_alter_eq, lookup_insert_eq, Hrow.
    - by rewrite lookup_alter_ne, lookup_insert_ne by done. }
  assert (∀ (g : AccountStore → result AppError unit * AccountStore) f,
    (∀ st, g st = exec_invalidating (update_row id f) st) →
    (_ ← on_store g; a ← get_account id; mret (AR_Account 200 a)) s1 = Done (Ok reply, s') →
    as_rows (sa_store (an_accounts s')) = <[id := f row]> (as_rows (sa_store (an_accounts s)))
    ∧ an_tokens s' = an_tokens s) as Hgo.
  { intros g f Hg Hr. apply handler_bind_ok in Hr as ([] & s3 & Hon & Hr).
    apply on_store_done in Hon as (st3 & Hon & Hst3 & Htk3 & _). rewrite Hg in Hon.
    apply handler_bind_ok in Hr as (a & s4 & Hget & [= _ <-]).
    apply on_store_done in Hget as (st4 & Hget & Hst4 & Htk4 & _).
    apply get_by_id_ok in Hget as (row4 & _ & _ & Hrows4).
    split; [|congruence]. rewrite Hst4, Hrows4, Hst3. apply (Hex f).
    exists (sa_store (an_accounts s1)). split; [done|]. congruence. }
  destruct Ht as [->| ->]; simpl in Hrun.
  - apply (Hgo _ (λ row, row <| acc_status := AS_Active |> <| acc_disable_reason := "" |>
        <| acc_rate_limited_at := None |> <| acc_rate_limit_reset_at := None |>
        <| acc_updated_at := fmt_time (ae_now e) |>)) in Hrun as [-> ->]; [|done].
    exists row. eexists. split_and!; [done..|]. simpl. by exists (fmt_time (ae_now e)).
  - apply (Hgo _ (λ row, row <| acc_status := AS_Disabled |> <| acc_disable_reason := "手动停用" |>
        <| acc_rate_limited_at := None |> <| acc_rate_limit_reset_at := None |>
        <| acc_updated_at := fmt_time (ae_now e) |>)) in Hrun as [-> ->]; [|done].
    exists row. eexists. split_and!; [done..|]. simpl. by exists (fmt_time (ae_now e)).
Qed.

(** C23: A request to edit an account that is answered with success changes that account's row
    and no other. If it sets the status to active or disabled, it writes that status, its reason
    and cleared rate-limit marks, and nothing else that it names (finding router.rs:490).
    Otherwise each field that it names with a usable value gets that value (an empty text is not
    usable for the name, the mail address, the status and the billing mode; a concurrency or
    priority counts when positive and is then cut to 32 bits, finding router.rs:480), every
    other one keeps its own, the credentials and their expiry are those of the resulting kind of
    account, and the identity, the limits, the usage and the counters stay as they are. *)
Theorem account_edit_stored e id updates (s : AdminState C) reply s' :
  (∀ row, as_rows (sa_store (an_accounts s)) !! id = Some row → acc_id row = id) →
  admin_update_account e id updates s = Done (Ok reply, s') →
  ∃ row row', as_rows (sa_store (an_accounts s)) !! id = Some row
    ∧ as_rows (sa_store (an_accounts s')) = <[id := row']> (as_rows (sa_store (an_accounts s)))
    ∧ an_tokens s' = an_tokens s
    ∧ (get_str updates "status" = Some "active" → switched AS_Active "" row row')
    ∧ (get_str updates "status" = Some "disabled" → switched AS_Disabled "手动停用" row row')
    ∧ (get_str updates "status" ∉ [Some "active"; Some "disabled"] → edited updates row row').
Proof.
  intros Hid Hrun.
  destruct (decide (get_str updates "status" = Some "active")) as [Ha|Ha];
    [|destruct (decide (get_str updates "status" = Some "disabled")) as [Hd|Hd]].
  - destruct (switch_runs _ _ _ _ _ _ _ Ha (or_introl eq_refl) Hrun) as (row & row' & H1' & H2' & H3' & H4').
    exists row, row'. rewrite Ha. split_and!; try done. set_solver.
  - destruct (switch_runs _ _ _ _ _ _ _ Hd (or_intror eq_refl) Hrun) as (row & row' & H1' & H2' & H3' & H4').
    exists row, row'. rewrite Hd. split_and!; try done. set_solver.
  - apply edit_runs in Hrun as (row & prompt & b & store & store2 & Hrow & Hprompt & Hnorm & Hb & Hrows1 & Hupd
      & Hst & Ht); [|done..].
    rewrite <- Hrows1, <- Hb in Hrow. pose proof Hupd as Hupd'.
    apply (update_stored b _ _ _ row) in Hupd' as (row' & Hrows & _); [|done].
    exists row, row'. rewrite Hst, Hrows, Hrows1, Hb, Ht. rewrite Hrows1, Hb in Hrow. split_and!; try done.
    intros _. eapply (normalized_edited _ _ _ _ _ Hprompt Hnorm store store2); [|done|].
    + by rewrite Hrows1, Hb.
    + rewrite Hrows. by rewrite lookup_insert_eq.
Qed.

(** A positive concurrency is cut to 32 bits, not to the range of the field: when the cut
    leaves no positive number the account is stored with it, and from then on it never gets a
    slot, whatever store keeps the counts. *)
Theorem wrapped_concurrency_blocks (held : C → string → Z) `{!SlotLaws C held} e id updates n (s : AdminState C) reply s' :
  get_str updates "status" ≠ Some "active" → get_str updates "status" ≠ Some "disabled" →
  (∀ row, as_rows (sa_store (an_accounts s)) !! id = Some row → acc_id row = id) →
  vget updates "concurrency" ≫= as_i64 = Some n → 0 < n → wrap i32 n ≤ 0 →
  admin_update_account e id updates s = Done (Ok reply, s') →
  ∃ row', as_rows (sa_store (an_accounts s')) !! id = Some row' ∧ acc_concurrency row' = wrap i32 n
    ∧ ∀ svc : AccountService C, 0 ≤ held (sa_cache svc) (slot_key id) →
        (account_acquire_slot svc id (acc_concurrency row')).1 ≠ Ok true.
Proof.
  intros Hna Hnd Hid Hn Hpos Hwrap Hrun.
  apply edit_runs in Hrun as (row & prompt & b & store & store2 & Hrow & _ & Hnorm & Hb & Hrows1 & Hupd & Hst & _);
    [|done..].
  apply (update_stored b _ _ _ row) in Hupd as (row' & Hrows & Hf); [|by rewrite Hb, Hrows1].
  destruct Hf as (_ & _ & _ & _ & _ & Hc & _).
  apply normalize_fields in Hnorm as (_ & _ & _ & _ & _ & _ & _ & _ & _ & Hnc & _).
  assert (acc_concurrency row' = wrap i32 n) as Hrc.
  { rewrite Hc, Hnc. edestruct edited_fields as (_ & _ & _ & _ & _ & _ & _ & _ & _ & -> & _).
    unfold positive_of. rewrite Hn. simpl. apply Z.ltb_lt in Hpos as ->. done. }
  exists row'. split_and!; [by rewrite Hst, Hrows, Hb, lookup_insert_eq|done|].
  intros svc Hcount Hslot. unfold account_acquire_slot in Hslot.
  destruct (acquire_slot _ _ _ (sa_cache svc)) as [r cache'] eqn:Ha. simpl in Hslot. subst r.
  apply (acquire_slot_spec _ _ _ _ _ _ (slot_key id)) in Ha as [Hlt _]. lia.
Qed.

(** A request that switches an account on or off does nothing else: every other field
    that it names is dropped, and the answer does not say so. *)
Theorem status_switch_drops_the_rest e id updates (s : AdminState C) t :
  t = "active" ∨ t = "disabled" →
  get_str updates "status" = Some t → vget updates "prompt_working_dir" = None →
  admin_update_account e id updates s = admin_update_account e id (VObject {["status" := VString t]}) s.
Proof.
  intros Ht Hs Hp. unfold admin_update_account, mbind, handler_bind.
  destruct (get_account id s) as [[[a|] s1]|]; cbn [mbind outcome_bind]; [|done..].
  assert (∀ u, vget u "prompt_working_dir" = None → apply_prompt_working_dir_update (acc_canonical_prompt a) u
    = Ok (acc_canonical_prompt a)) as Hprompt by (intros u Hu; unfold apply_prompt_working_dir_update; by rewrite Hu).
  rewrite !Hprompt by done. cbv [of_result]. cbn [mbind outcome_bind].
  assert (get_str (VObject {["status" := VString t]}) "status" = Some t) as Hs' by by vm_compute.
  rewrite Hs, Hs'. by destruct Ht as [-> | ->].
Qed.
End admin.

(** ** The password *)

Section password.
Context {C : Type} `{CacheStore C} `{Chrono} `{UnicodeCase} `{JsonText} `{Digest}.
Context `{HttpClient} `{Base64Url}.
Context (endpoint : TokenEndpoint) (fetch : string → string → result AppError Value).
Context (ct_eq : string → string → bool).
Hypothesis ct_eq_spec : ∀ a b, ct_eq a b = true ↔ a = b.

(** Without the password nothing is done: a request whose key is not the password, or any
    request when the password is empty, is answered 401 and leaves the state as it is; with the
    password, the operation runs, and its error becomes the response of the error. *)
Theorem admin_needs_password password headers e c (s : AdminState C) :
  (extract_key headers ≠ password ∨ password = "" →
     admin_request endpoint fetch ct_eq password headers e c s = Done (err_json 401 "invalid password", s))
  ∧ (extract_key headers = password → password ≠ "" → ∀ r s',
      admin_handle endpoint fetch e c s = Done (r, s') →
      admin_request endpoint fetch ct_eq password headers e c s = Done (match r with
        | Ok reply => AP_Reply reply
        | Err err => AP_Error (app_error_into_response err).1 (app_error_into_response err).2
        end, s')).
Proof.
  unfold admin_request, admin_auth. split.
  - intros Hk. destruct (is_empty (extract_key headers)) eqn:He; [done|]. simpl.
    destruct (ct_eq _ _) eqn:Hc; [|done]. apply ct_eq_spec in Hc as Hc'. destruct Hk as [Hk| ->]; [done|].
    by rewrite Hc' in He.
  - intros Hk Hne r s' Hrun. rewrite (proj2 (ct_eq_spec _ _) Hk), Hk.
    destruct (is_empty password) eqn:He; [by destruct password|]. simpl. rewrite Hrun. cbn [mbind outcome_bind].
    destruct r as [|err]; [done|]. by destruct (app_error_into_response err).
Qed.
End password.

(** ** Lists of accounts of a token *)

(** A list of allowed accounts in which nothing is a number does not allow nothing: it
    reads like an empty one, and every account is permitted. *)
Theorem unreadable_allow_list (t : ApiToken) exclude_ids id :
  forallb (λ part, negb (opt_is_some (parse_int i64 (trim part)))) (split_on "," (tok_allowed_accounts t)) = true →
  id ∉ exclude_ids → id_permitted exclude_ids (allowed_account_ids t) id = true.
Proof.
  intros Hall Hid. assert (allowed_account_ids t = []) as ->.
  { unfold allowed_account_ids, parse_id_list. destruct (is_empty _); [done|].
    revert Hall. generalize (split_on "," (tok_allowed_accounts t)). intros l.
    induction l as [|p l IH]; [done|]. simpl. intros [Hp Hl]%andb_prop.
    destruct (parse_int i64 (trim p)); [done|]. by apply IH. }
  unfold id_permitted. rewrite bool_decide_eq_false_2 by done. done.
Qed.
