(* ===== verification/Gateway.v ===== *)
(** * Gateway: a request from the client to upstream and back
    (src/src/service/gateway.rs, src/src/handler/router.rs)

    The whole of [handle_request], [forward_request] and the authentication in
    front of them: choice of an account, the concurrency slot and its holder,
    credentials, the upstream call, absorption of the limit headers, the body
    stream that carries the slot. What spawned tasks are to do is a list of
    tasks; calls on the telemetry, audit and performance services are a list of
    events. The request rewriter is the class [Rewriter] of RewriteBody.v. *)

From S2P Require Import Prelude Text F64 Json Http Model Cache Limit Pricing UsageParse Usage.
From S2P Require Import Identity AccountStore Account GatewayHeaders Rewriter RewriteBody TokenStore.

(** ** Requests and answers *)

(** [rq_body]: what [to_bytes] with its limit of 10 MiB gives. *)
Record GatewayRequest := mkGatewayRequest {
  rq_method : string;
  rq_path : string;
  rq_query : string;
  rq_headers : HeaderMap;
  rq_body : result string string;
  rq_performance : bool;
}.

Record UpstreamRequest := mkUpstreamRequest {
  ur_method : string;
  ur_url : string;
  ur_headers : gmap string string;
  ur_host : string;
  ur_body : string;
  ur_proxy : string;
}.

(** What a body stream gives, one item per poll, before it ends. *)
Inductive StreamItem := SI_Chunk (bytes : string) | SI_Error (timeout : bool).

Record UpstreamResponse := mkUpstreamResponse {
  up_status : Z;
  up_headers : HeaderMap;
  up_stream : list StreamItem;
}.

Inductive UpstreamResult := U_Failed (timeout : bool) | U_Response (r : UpstreamResponse).

(** ** Calls on other services *)

Inductive GatewayEvent :=
  | GE_AuditRequest (account_id : Z)
  | GE_AuditResponse (account_id status : Z)
  | GE_AuditSendFailed (account_id : Z)
  | GE_AuditCountTokens (account_id : Z)
  | GE_Activate (account_id : Z) (token correlation_id : string)
  | GE_Cancel (account_id : Z) (correlation_id : string)
  | GE_Perf (call : GatewayPerf)
with GatewayPerf :=
  | GP_Request (model : option string) (stream : bool)
  | GP_Account (account_id : Z)
  | GP_Token (token_id : Z)
  | GP_Stage (name : string)
  | GP_Phase (name : string)
  | GP_SendFailed (timeout : bool)
  | GP_ReadFailed (timeout : bool)
  | GP_Upstream (status : Z) (request_id : option string) (stream : bool).

(** ** The service *)

Section types.
Context `{Codecs}.

(** A response body. [B_Stream] carries the observer, whether read errors are
    reported to the performance handle, and the slot that it holds. *)
Inductive Body :=
  | B_Json (v : Value)
  | B_Text (s : string)
  | B_Empty
  | B_Stream (items : list StreamItem) (observed : option ResponseObserver) (perf : bool)
      (slot : string).

Record GatewayResponse := mkGatewayResponse {
  gr_status : Z;
  gr_headers : HeaderMap;
  gr_body : Body;
}.

(** What was handed to [tokio::spawn]: the release of a slot by its holder, the
    write of an account's limits, the reading of an abandoned body to its end. *)
Inductive Task :=
  | T_Release (key : string)
  | T_Flush (account_id : Z)
  | T_Drain (items : list StreamItem) (observed : ResponseObserver).

Record GatewayService (C : Type) := mkGateway {
  gw_accounts : AccountService C;
  gw_usage : UsageService;
  gw_tasks : list Task;
  gw_events : list GatewayEvent;
}.
End types.
Arguments mkGateway {_ _}.
Arguments gw_accounts {_ _}.
Arguments gw_usage {_ _}.
Arguments gw_tasks {_ _}.
Arguments gw_events {_ _}.

(** The clocks, random draws and identifiers of one request. *)
Record GatewayEnv := mkGatewayEnv {
  ge_select : SelectClock;
  ge_draw : nat → nat;
  ge_resolve : ResolveEnv;
  ge_uuid : string;
  ge_utc : DateTime;
  ge_now : Instant;
  ge_disable : DateTime;
  ge_absorb : AbsorbClock;
  ge_header : HeaderDraws;
  ge_body : BodyDraws;
}.

Section gateway.
Context {C : Type} `{CacheStore C} `{Chrono} `{UnicodeCase} `{JsonText} `{Digest} `{Codecs} `{Rewriter}.
Abbreviation Gateway := (GatewayService C).

Definition emit (g : Gateway) (e : GatewayEvent) : Gateway :=
  g <| gw_events := gw_events g ++ [e] |>.

Definition emit_perf (performance : bool) (g : Gateway) (p : GatewayPerf) : Gateway :=
  if performance then emit g (GE_Perf p) else g.

Definition spawn (g : Gateway) (t : Task) : Gateway := g <| gw_tasks := gw_tasks g ++ [t] |>.

(** Dropping a [SlotHolder] that was not disarmed. *)
Definition drop_slot (g : Gateway) (key : string) : Gateway := spawn g (T_Release key).

(** [IntoResponse for AppError]. *)
Definition error_response (e : AppError) : GatewayResponse :=
  let '(status, body) := app_error_into_response e in
  mkGatewayResponse status [("content-type", "application/json")] (B_Json body).

(** ** Bodies *)

(** What an observed stream does with an item, or with the end. *)
Definition observe_item (o : option ResponseObserver) (s : UsageService)
    (item : option StreamItem) (c : SubmitClock)
    : outcome (option ResponseObserver * UsageService) :=
  stream_step o s
    match item with
    | Some (SI_Chunk b) => SS_Chunk b
    | Some (SI_Error _) => SS_Error
    | None => SS_End
    end c.

(** Polling a body: the item, and the body that is left. An observer panics
    only after its attempt was taken, when it has nothing more to record. *)
Definition body_poll (g : Gateway) (b : Body) (c : SubmitClock)
    : outcome (option StreamItem) * Body * Gateway :=
  match b with
  | B_Stream items observed perf slot =>
      let g := match head items with
               | Some (SI_Error timeout) => emit_perf perf g (GP_ReadFailed timeout)
               | _ => g
               end in
      match observe_item observed (gw_usage g) (head items) c with
      | Done (observed, usage) =>
          (Done (head items), B_Stream (tail items) observed perf slot, g <| gw_usage := usage |>)
      | Panic => (Panic, B_Stream (tail items) None perf slot, g)
      end
  | _ => (Done None, b, g)
  end.

(** Dropping a body: its stream first, then the slot that it holds. *)
Definition body_drop (g : Gateway) (b : Body) (c : SubmitClock) : Gateway :=
  match b with
  | B_Stream _ observed _ slot =>
      let g := match stream_step observed (gw_usage g) SS_Drop c with
               | Done (_, usage) => g <| gw_usage := usage |>
               | Panic => g
               end in
      drop_slot g slot
  | _ => g
  end.

(** ** The wrapped errors *)

Definition wrap_429_response (g : Gateway) (r : GatewayResponse) (c : SubmitClock)
    : GatewayResponse * Gateway :=
  (mkGatewayResponse (gr_status r) (wrap_429_headers (gr_headers r)) (B_Text GENERIC_429_BODY),
   body_drop g (gr_body r) c).

Definition wrap_5xx_response (g : Gateway) (r : GatewayResponse) (c : SubmitClock)
    : GatewayResponse * Gateway :=
  (mkGatewayResponse (gr_status r) (wrap_5xx_headers (gr_headers r)) (B_Text GENERIC_5XX_BODY),
   body_drop g (gr_body r) c).

(** ** [forward_request] *)

Definition is_wrapped_error (status : Z) : bool :=
  (status =? 429) || ((500 <=? status) && (status <=? 599)).

(** The body for the client, and the gateway once the slot is handed on. *)
Definition build_body (g : Gateway) (status : Z) (items : list StreamItem)
    (usage_attempt : option UsageAttempt) (performance : bool) (slot : string) : Body * Gateway :=
  let wrapped_error := is_wrapped_error status in
  let observation := performance && negb wrapped_error in
  match usage_attempt with
  | Some attempt =>
      let observed := observer_new attempt observation in
      if wrapped_error then (B_Empty, spawn (drop_slot g slot) (T_Drain items observed))
      else (B_Stream items (Some observed) observation slot, g)
  | None => (B_Stream items None observation slot, g)
  end.

(** The account is disabled for good; a failed statement is only logged. *)
Definition disable_on_403 (g : Gateway) (status account_id : Z) (now : DateTime) : Gateway :=
  if status =? 403 then
    let svc := gw_accounts g in
    let '(_, store) :=
      disable_account account_id AS_Disabled "403 认证失败" None now (sa_store svc) in
    g <| gw_accounts := svc <| sa_store := store |> |>
  else g.

(** The limit headers, and the write that they may call for. *)
Definition absorb_response (g : Gateway) (account_id : Z) (model_class : ModelClass) (status : Z)
    (headers : HeaderMap) (c : AbsorbClock) : outcome unit * Gateway :=
  let svc := gw_accounts g in
  let '(flush, limits) := absorb_headers (sa_limits svc) account_id model_class status headers c in
  let g := g <| gw_accounts := svc <| sa_limits := limits |> |> in
  match flush with
  | Panic => (Panic, g)
  | Done true => (Done tt, spawn g (T_Flush account_id))
  | Done false => (Done tt, g)
  end.

Definition telemetry_correlation (attempt : option UsageAttempt) : option string :=
  at_attempt_id <$> opt_filter at_telemetry_enabled attempt.

Definition complete_attempt (attempt : UsageAttempt) (status : Z) (headers : HeaderMap)
    : UsageAttempt :=
  complete_response
    (attempt <| at_is_stream := usage_response_is_stream headers (at_is_stream attempt) |>)
    status (upstream_request_id headers) (usage_content_encoding headers).

(** [audited]: an audit request was begun. *)
Definition forward_request (upstream : UpstreamRequest → UpstreamResult) (g : Gateway)
    (req : UpstreamRequest) (account : Account) (slot : string) (model_class : ModelClass)
    (usage_attempt : option UsageAttempt) (audited performance : bool) (e : GatewayEnv)
    : outcome (result AppError GatewayResponse) * Gateway :=
  let id := acc_id account in
  let g := emit_perf performance g (GP_Phase "waiting_upstream") in
  match upstream req with
  | U_Failed timeout =>
      let g := emit_perf performance g (GP_SendFailed timeout) in
      let g := if audited : bool then emit g (GE_AuditSendFailed id) else g in
      let g := match telemetry_correlation usage_attempt with
               | Some correlation_id => emit g (GE_Cancel id correlation_id)
               | None => g
               end in
      (Done (Err (BadGateway "upstream request failed")), drop_slot g slot)
  | U_Response resp =>
      let status := up_status resp in
      let headers := up_headers resp in
      let g := emit_perf performance g (GP_Stage "upstream_headers") in
      let g := emit_perf performance g
                 (GP_Upstream status (upstream_request_id headers)
                    (usage_response_is_stream headers
                       (is_some_and usage_attempt at_is_stream))) in
      let g := if audited : bool then emit g (GE_AuditResponse id status) else g in
      let usage_attempt := (λ a, complete_attempt a status headers) <$> usage_attempt in
      let g := disable_on_403 g status id (ge_disable e) in
      let '(absorbed, g) := absorb_response g id model_class status headers (ge_absorb e) in
      match absorbed with
      | Panic => (Panic, drop_slot g slot)
      | Done _ =>
          let '(body, g) := build_body g status (up_stream resp) usage_attempt performance slot in
          (Done (Ok (mkGatewayResponse status (forwarded_headers headers) body)), g)
      end
  end.

(** ** [handle_request] *)

(** A request body as JSON; what cannot be read is an empty object. *)
Definition body_json (bytes : string) : Value :=
  if is_empty bytes then VObject ∅ else default (VObject ∅) (res_ok (json_from_str bytes)).

Definition body_model (body : Value) : string := default "" (get_str body "model").

Definition body_stream (body : Value) : bool :=
  default false (vget body "stream" ≫= as_bool).

Definition client_user_agent (headers : gmap string string) : string :=
  default "" (opt_or (headers !! "User-Agent") (headers !! "user-agent")).

(** The account for a request, or the refusal. A panicking selection has not
    touched the slots; what it did to the session is not tracked. *)
Definition choose_account (g : Gateway) (session_hash : string) (api_token : option ApiToken)
    (model_class : ModelClass) (e : GatewayEnv) : outcome (result AppError Account) * Gateway :=
  let allowed_ids := default [] (allowed_account_ids <$> api_token) in
  let blocked_ids := default [] (blocked_account_ids <$> api_token) in
  match select_account (gw_accounts g) session_hash blocked_ids allowed_ids model_class
          (ge_draw e) (ge_select e) with
  | Panic => (Panic, g)
  | Done (r, svc) =>
      (Done (map_err (λ err, ServiceUnavailable ("no available account: " +:+ app_error_to_string err)) r),
       g <| gw_accounts := svc |>)
  end.

(** The answer to a telemetry request that the gateway keeps to itself. *)
Definition intercepted (account : Account) (path : string) : option GatewayResponse :=
  if acc_auto_telemetry account && is_telemetry_path path then
    let body := if contains "/metrics_enabled" path
                then fake_metrics_enabled_response else fake_telemetry_response in
    Some (mkGatewayResponse 200 [("content-type", "application/json")] (B_Json body))
  else None.

(** The slot of an account; the key, once it is taken. *)
Definition take_slot (g : Gateway) (account : Account) : result AppError string * Gateway :=
  let '(r, svc) := account_acquire_slot (gw_accounts g) (acc_id account) (acc_concurrency account) in
  let g := g <| gw_accounts := svc |> in
  (match r with
   | Ok true => Ok (slot_key (acc_id account))
   | _ => Err (TooManyRequests "concurrency slot unavailable")
   end, g).

(** The rewritten request: body, headers without credentials, model, and whether
    it asks for a stream. A body that is not JSON counts as an empty object. *)
Definition rewrite_request (bytes path : string) (headers : gmap string string) (account : Account)
    (client_type : ClientType) (e : GatewayEnv)
    : outcome (string * gmap string string * string * bool) :=
  rewritten_body ← rewriter_body bytes path account client_type (ge_body e);
  let rewritten := default (VObject ∅) (res_ok (json_from_str rewritten_body)) in
  let model_id := body_model (body_json bytes) in
  let rewritten_headers :=
    rewriter_headers headers account client_type model_id rewritten (ge_header e) in
  let cleaned :=
    if bool_decide (client_type = CT_API) then clean_session_id_from_body rewritten else rewritten in
  let final_body :=
    if bool_decide (client_type = CT_API)
    then default rewritten_body (res_ok (json_to_string cleaned)) else rewritten_body in
  Done (final_body, rewritten_headers, default model_id (get_str cleaned "model"),
        body_stream cleaned).

(** The audit request of an inference; other endpoints are only counted. *)
Definition begin_audit (g : Gateway) (account_id : Z) (endpoint : MessageEndpoint) : bool * Gateway :=
  match endpoint with
  | ME_Inference => (true, emit g (GE_AuditRequest account_id))
  | ME_CountTokens => (false, emit g (GE_AuditCountTokens account_id))
  | ME_Other => (false, g)
  end.

(** The attempt of an authenticated inference, announced to the telemetry. *)
Definition begin_attempt (g : Gateway) (account : Account) (endpoint : MessageEndpoint)
    (api_token : option ApiToken) (final_model : string) (is_stream : bool) (token : string)
    (e : GatewayEnv) : option UsageAttempt * Gateway :=
  match (if bool_decide (endpoint = ME_Inference) then api_token else None) with
  | None => (None, g)
  | Some t =>
      let attempt := attempt_begin (ge_uuid e) (ge_utc e) (ge_now e) (acc_id account) (tok_id t)
                       final_model is_stream in
      if acc_auto_telemetry account
      then (Some (attempt <| at_telemetry_enabled := true |>),
            emit g (GE_Activate (acc_id account) token (at_attempt_id attempt)))
      else (Some attempt, g)
  end.

(** Everything that happens while the slot is held. *)
Definition serve_with_slot (endpoint : TokenEndpoint)
    (upstream : UpstreamRequest → UpstreamResult) (g : Gateway) (req : GatewayRequest)
    (bytes : string) (headers : gmap string string) (client_type : ClientType) (account : Account)
    (slot : string) (model_class : ModelClass) (api_token : option ApiToken) (e : GatewayEnv)
    : outcome (result AppError GatewayResponse) * Gateway :=
  let performance := rq_performance req in
  match rewrite_request bytes (rq_path req) headers account client_type e with
  | Panic => (Panic, drop_slot g slot)
  | Done (final_body, rewritten_headers, final_model, is_stream) =>
      let g := emit_perf performance g (GP_Stage "rewrite") in
      let message_endpoint := classify_message_endpoint (rq_path req) in
      let '(audited, g) := begin_audit g (acc_id account) message_endpoint in
      let '(token, svc) :=
        resolve_upstream_token_with endpoint (gw_accounts g) account (ge_resolve e) in
      let g := g <| gw_accounts := svc |> in
      match token with
      | Err error =>
          let g := if audited : bool then emit g (GE_AuditSendFailed (acc_id account)) else g in
          (Done (Err error), drop_slot g slot)
      | Ok upstream_token =>
          let '(usage_attempt, g) :=
            begin_attempt g account message_endpoint api_token final_model is_stream
              upstream_token e in
          let final_headers := <["authorization" := "Bearer " +:+ upstream_token]> rewritten_headers in
          let g := emit_perf performance g (GP_Stage "resolve_token") in
          let ureq := mkUpstreamRequest (upstream_method (rq_method req))
                        (target_url (rq_path req) (rq_query req)) final_headers "api.anthropic.com"
                        final_body (acc_proxy_url account) in
          forward_request upstream g ureq account slot model_class usage_attempt audited
            performance e
      end
  end.

(** A server error or a 429 of upstream is answered with a generic body. *)
Definition finish_response (g : Gateway) (r : GatewayResponse) (c : SubmitClock)
    : GatewayResponse * Gateway :=
  if (500 <=? gr_status r) && (gr_status r <=? 599) then wrap_5xx_response g r c
  else if gr_status r =? 429 then wrap_429_response g r c
  else (r, g).

Definition handle_request_inner (endpoint : TokenEndpoint)
    (upstream : UpstreamRequest → UpstreamResult) (g : Gateway) (req : GatewayRequest)
    (api_token : option ApiToken) (e : GatewayEnv) (c : SubmitClock)
    : outcome (result AppError GatewayResponse) * Gateway :=
  let performance := rq_performance req in
  let headers := extract_headers (rq_headers req) in
  let ua := client_user_agent headers in
  match rq_body req with
  | Err err => (Done (Err (BadRequest ("failed to read body: " +:+ err))), g)
  | Ok bytes =>
      let g := emit_perf performance g (GP_Stage "body_read") in
      let body := body_json bytes in
      let g := emit_perf performance g (GP_Request (get_str body "model") (body_stream body)) in
      let client_type := detect_client_type ua body in
      let session_hash := generate_session_hash ua body client_type in
      let g := emit_perf performance g (GP_Stage "session_hash") in
      let model_class := from_model_id (body_model body) in
      let '(chosen, g) := choose_account g session_hash api_token model_class e in
      match chosen with
      | Panic => (Panic, g)
      | Done (Err error) => (Done (Err error), g)
      | Done (Ok account) =>
          let g := emit_perf performance g (GP_Account (acc_id account)) in
          let g := emit_perf performance g (GP_Stage "routing") in
          match intercepted account (rq_path req) with
          | Some answer => (Done (Ok answer), g)
          | None =>
              let '(taken, g) := take_slot g account in
              match taken with
              | Err error => (Done (Err error), g)
              | Ok slot =>
                  let g := emit_perf performance g (GP_Stage "slot_acquire") in
                  let '(r, g) :=
                    serve_with_slot endpoint upstream g req bytes headers client_type account slot
                      model_class api_token e in
                  match r with
                  | Done (Ok resp) =>
                      let g := emit_perf performance g (GP_Stage "forward_done") in
                      let '(resp, g) := finish_response g resp c in (Done (Ok resp), g)
                  | _ => (r, g)
                  end
              end
          end
      end
  end.

Definition handle_request (endpoint : TokenEndpoint) (upstream : UpstreamRequest → UpstreamResult)
    (g : Gateway) (req : GatewayRequest) (api_token : option ApiToken) (e : GatewayEnv)
    (c : SubmitClock) : outcome GatewayResponse * Gateway :=
  let '(r, g) := handle_request_inner endpoint upstream g req api_token e c in
  (match r with
   | Done (Ok resp) => Done resp
   | Done (Err error) => Done (error_response error)
   | Panic => Panic
   end, g).

(** ** The token in front of it (src/src/handler/router.rs) *)

Definition err_json (status : Z) (msg : string) : GatewayResponse :=
  mkGatewayResponse status [("content-type", "application/json")]
    (B_Json (VObject {["error" := VString msg]})).

Definition authenticate (tokens : TokenStore) (req : GatewayRequest)
    : (GatewayResponse + ApiToken) * TokenStore :=
  let key := extract_key (rq_headers req) in
  if is_empty key then (inl (err_json 401 "missing api key"), tokens)
  else
    let '(r, tokens) := get_by_token key tokens in
    (match r with
     | Ok (Some t) => inr t
     | Ok None => inl (err_json 401 "invalid api key")
     | Err _ => inl (err_json 500 "authentication failed")
     end, tokens).

Definition gateway_authenticated (endpoint : TokenEndpoint)
    (upstream : UpstreamRequest → UpstreamResult) (g : Gateway) (tokens : TokenStore)
    (req : GatewayRequest) (e : GatewayEnv) (c : SubmitClock)
    : outcome GatewayResponse * Gateway * TokenStore :=
  let '(token, tokens) := authenticate tokens req in
  let g := emit_perf (rq_performance req) g (GP_Stage "auth") in
  match token with
  | inl response => (Done response, g, tokens)
  | inr api_token =>
      let g := emit_perf (rq_performance req) g (GP_Token (tok_id api_token)) in
      let '(r, g) := handle_request endpoint upstream g req (Some api_token) e c in
      (r, g, tokens)
  end.

(** ** Spawned tasks *)

(** An abandoned body is read to its end by the observer alone. *)
Fixpoint drain (o : option ResponseObserver) (s : UsageService) (items : list StreamItem)
    (c : nat → SubmitClock) : outcome (option ResponseObserver * UsageService) :=
  match items with
  | [] => observe_item o s None (c 0%nat)
  | item :: items =>
      '(o, s) ← observe_item o s (Some item) (c (S (length items)));
      drain o s items c
  end.

Definition run_task (g : Gateway) (t : Task) (now : DateTime) (c : nat → SubmitClock) : Gateway :=
  let svc := gw_accounts g in
  match t with
  | T_Release key =>
      g <| gw_accounts := svc <| sa_cache := release_slot key (sa_cache svc) |> |>
  | T_Flush account_id =>
      let '(_, store) :=
        flush_to_db (db := account_limits now) json_to_string (sa_limits svc) account_id
          now (sa_store svc) in
      g <| gw_accounts := svc <| sa_store := store |> |>
  | T_Drain items observed =>
      match drain (Some observed) (gw_usage g) items c with
      | Done (_, usage) => g <| gw_usage := usage |>
      | Panic => g
      end
  end.

(** The runtime runs the first pending task. *)
Definition run_next (g : Gateway) (now : DateTime) (c : nat → SubmitClock) : Gateway :=
  match gw_tasks g with
  | [] => g
  | t :: ts => run_task (g <| gw_tasks := ts |>) t now c
  end.
End gateway.
