(* ===== verification/GatewayFacts.v ===== *)
(** * GatewayFacts: the theorems on serving a request

    Every slot that is taken is given back exactly once, by the body that
    carries it or on every path that has no such body; upstream errors do not
    reach the client; an account that upstream forbids or throttles is not
    chosen again; upstream is asked only on behalf of one account. *)

From S2P Require Import Prelude Text F64 Json Http Model Identity Cache Limit LimitFacts.
From S2P Require Import Pricing UsageParse Usage AccountStore Account AccountFacts AccountRuns.
From S2P Require Import AccountAuthFacts GatewayHeaders Rewriter RewriteBody RewriterFacts.
From S2P Require Import TokenStore Gateway.

(** ** Specification *)

Definition is_release (key : string) `{Codecs} (t : Task) : bool :=
  match t with T_Release k => String.eqb k key | _ => false end.

(** The releases that were spawned and have not run, and the slots that bodies
    carry. *)
Definition pending `{Codecs} (tasks : list Task) (key : string) : Z :=
  Z.of_nat (length (filter (λ t, is_release key t = true) tasks)).

Definition carried `{Codecs} (b : Body) (key : string) : Z :=
  match b with B_Stream _ _ _ k => if String.eqb k key then 1 else 0 | _ => 0 end.

Definition carried_all `{Codecs} (bodies : list Body) (key : string) : Z :=
  foldr (λ b n, carried b key + n) 0 bodies.

(** The gateway and the response bodies that its clients still read. *)
Record System `{Codecs} (C : Type) := mkSystem {
  sy_gateway : GatewayService C;
  sy_bodies : list Body;
}.
Arguments mkSystem {_ _}.
Arguments sy_gateway {_ _}.
Arguments sy_bodies {_ _}.

Definition answer_bodies `{Codecs} (r : outcome GatewayResponse) : list Body :=
  match r with Done resp => [gr_body resp] | Panic => [] end.

Section system.
Context {C : Type} `{CacheStore C} `{Chrono} `{UnicodeCase} `{JsonText} `{Digest} `{Codecs} `{Rewriter}.

(** Serving a request, polling or dropping the body of a response, and running
    a spawned task. *)
Inductive sys_step : System C → System C → Prop :=
  | Sy_request endpoint upstream req token e c g bodies r g' :
      handle_request endpoint upstream g req token e c = (r, g') →
      sys_step (mkSystem g bodies) (mkSystem g' (answer_bodies r ++ bodies))
  | Sy_poll c g before b after item b' g' :
      body_poll g b c = (item, b', g') →
      sys_step (mkSystem g (before ++ b :: after)) (mkSystem g' (before ++ b' :: after))
  | Sy_drop c g before b after :
      sys_step (mkSystem g (before ++ b :: after)) (mkSystem (body_drop g b c) (before ++ after))
  | Sy_task now c g bodies :
      sys_step (mkSystem g bodies) (mkSystem (run_next g now c) bodies).
End system.

Section slots.
Context {C : Type} `{CacheStore C} `{Chrono} `{UnicodeCase} `{JsonText} `{Digest} `{Codecs} `{Rewriter}.
Context (count : C → string → Z) `{!SlotLaws C count}.
Implicit Types g : GatewayService C.

(** The slots that are taken and not about to be given back. *)
Definition in_use g (key : string) : Z :=
  count (sa_cache (gw_accounts g)) key - pending (gw_tasks g) key.

(** Every slot in use is carried by a body. *)
Definition accounted (s : System C) : Prop :=
  ∀ key, in_use (sy_gateway s) key = carried_all (sy_bodies s) key.

(** *** Calls that do not touch the slots *)

Lemma pending_app l1 l2 key : pending (l1 ++ l2) key = pending l1 key + pending l2 key.
Proof. unfold pending. rewrite filter_app, length_app. lia. Qed.

Lemma in_use_emit g e key : in_use (emit g e) key = in_use g key.
Proof. by destruct g. Qed.

Lemma in_use_emit_perf b g p key : in_use (emit_perf b g p) key = in_use g key.
Proof. destruct b; [apply in_use_emit|done]. Qed.

Lemma in_use_usage g u key : in_use (g <| gw_usage := u |>) key = in_use g key.
Proof. by destruct g. Qed.

Lemma in_use_accounts g svc key :
  count (sa_cache svc) key = count (sa_cache (gw_accounts g)) key →
  in_use (g <| gw_accounts := svc |>) key = in_use g key.
Proof. destruct g. unfold in_use. simpl. lia. Qed.

Lemma pending_nil key : pending [] key = 0.
Proof. done. Qed.

Lemma pending_cons t l key : pending (t :: l) key = (if is_release key t then 1 else 0) + pending l key.
Proof.
  unfold pending. rewrite filter_cons. case_decide as Ht; rewrite ?Ht; cbn [length]; [lia|].
  apply not_true_is_false in Ht. rewrite Ht. lia.
Qed.

Lemma in_use_spawn g t key :
  in_use (spawn g t) key = in_use g key - (if is_release key t then 1 else 0).
Proof.
  destruct g. unfold in_use. simpl. rewrite pending_app, pending_cons, pending_nil. lia.
Qed.

Lemma in_use_drop_slot g slot key :
  in_use (drop_slot g slot) key = in_use g key - (if String.eqb slot key then 1 else 0).
Proof. apply in_use_spawn. Qed.

Lemma select_sticky_slots s h ex al mc c o s' key :
  select_sticky s h ex al mc c = Done (o, s') →
  count (sa_cache s') key = count (sa_cache s) key.
Proof.
  unfold select_sticky. destruct (is_empty h); [by intros [= <- <-]|].
  destruct (session_ops_keep_slots h 0 0 (sk_session c) (sa_cache s) key) as (E & _ & _).
  destruct (get_session_account_id h (sk_session c) (sa_cache s)) as [bound cache]. simpl in E.
  set (s1 := s <| sa_cache := cache |>).
  assert (sa_cache s1 = cache) as C1 by by destruct s. clearbody s1. rewrite <- C1 in E.
  destruct bound as [[id|]|]; try by intros [= <- <-].
  destruct (0 <? id); [|by intros [= <- <-]].
  assert (sa_cache (sticky_lookup s1 id c).2 = sa_cache s1) as E1.
  { unfold sticky_lookup. destruct (get_schedulable_cached _ _ _); [done|].
    destruct (get_by_id _ _). by destruct s1. }
  destruct (sticky_lookup s1 id c) as [account s2]. simpl in E1.
  assert (∀ (o3 : option Account) s3, Done (None, s2 <| sa_cache := (delete_session h (sa_cache s2)).2 |>)
      = Done (o3, s3) → count (sa_cache s3) key = count (sa_cache s) key) as Hunbind.
  { intros o3 s3 [= _ <-]. destruct (session_ops_keep_slots h 0 0 0 (sa_cache s2) key) as (_ & _ & E3).
    destruct s2. simpl in *. congruence. }
  destruct account as [a|]; [|apply Hunbind].
  destruct (sticky_usable s2 a id ex al mc c) as [[]|]; cbn [mbind outcome_bind];
    [intros [= _ <-]; congruence|apply Hunbind|by intros [=]].
Qed.

Lemma select_account_slots s h ex al mc draw c r s' key :
  select_account s h ex al mc draw c = Done (r, s') →
  count (sa_cache s') key = count (sa_cache s) key.
Proof.
  unfold select_account. destruct (select_sticky s h ex al mc c) as [[o s1]|] eqn:Hst; [|by intros [=]].
  apply (select_sticky_slots _ _ _ _ _ _ _ _ key) in Hst. cbn [mbind outcome_bind].
  destruct o as [a|]; [by intros [= _ <-]|].
  destruct (list_schedulable _ _ _) as [[v|e] st]; [|intros [= _ <-]; by destruct s1].
  set (s2 := s1 <| sa_store := st |>).
  assert (sa_cache s2 = sa_cache s1) as E2 by by destruct s1. clearbody s2.
  destruct (select_candidates _ _ _ _ _ v) as [[|x xs]|]; cbn [mbind outcome_bind];
    [intros [= _ <-]; congruence| |by intros [=]].
  destruct (select_by_priority _ _) as [a|]; [|by intros [=]]. cbn [mbind outcome_bind].
  intros [= _ <-]. destruct (is_empty h); [congruence|].
  destruct (session_ops_keep_slots h (acc_id a) STICKY_SESSION_TTL (sk_bind c) (sa_cache s2) key)
    as (_ & E3 & _). destruct s2. simpl in *. congruence.
Qed.

Lemma resolve_token_slots endpoint s a e r s' key :
  resolve_upstream_token_with endpoint s a e = (r, s') →
  count (sa_cache s') key = count (sa_cache s) key.
Proof.
  unfold resolve_upstream_token_with, resolve_oauth_access_token.
  destruct (acc_auth_type a); [destruct (is_empty _); by intros [= _ <-]|].
  destruct (has_valid_oauth_access_token _ _ _); [by intros [= _ <-]|].
  destruct (is_empty _).
  { destruct (update_auth_error _ _ _ _). intros [= _ <-]. by destruct s. }
  set (k := oauth_lock_key _).
  destruct (lock_ops_keep_slots k (re_owner e) OAUTH_LOCK_TTL (re_lock e) (sa_cache s) key) as [E _].
  destruct (acquire_lock _ _ _ _ _) as [acquired ca]. simpl in E.
  set (s1 := s <| sa_cache := ca |>).
  assert (sa_cache s1 = ca) as C1 by by destruct s. clearbody s1.
  destruct acquired as [[]|]; [| |intros [= _ <-]; congruence].
  - destruct (refresh_oauth_access_token _ _ _ _ _) as [r2 s2] eqn:Hr.
    apply refresh_oauth_spec in Hr as [Hr _]. intros [= _ <-].
    destruct (lock_ops_keep_slots k (re_owner e) 0 0 (sa_cache s2) key) as [_ E2].
    destruct s2. simpl in *. congruence.
  - intros Hw. apply wait_for_token_spec in Hw as [-> _]. congruence.
Qed.

(** *** The parts of a request *)

Lemma choose_account_in_use g h token mc e r g' key :
  choose_account g h token mc e = (r, g') → in_use g' key = in_use g key.
Proof.
  unfold choose_account. destruct (select_account _ _ _ _ _ _ _) as [[r2 svc]|] eqn:Hs;
    intros [= _ <-]; [|done].
  apply in_use_accounts. by eapply select_account_slots.
Qed.

Lemma take_slot_in_use g a r g' key :
  take_slot g a = (r, g') →
  in_use g' key = in_use g key + match r with Ok k => if String.eqb k key then 1 else 0 | Err _ => 0 end.
Proof.
  unfold take_slot, account_acquire_slot. generalize (slot_key (acc_id a)). intros k.
  destruct (acquire_slot k _ _ _) as [ra cache] eqn:Ha.
  pose proof (acquire_slot_spec _ _ _ _ _ _ key Ha) as Hc. destruct g as [[st ca li cd] us ts ev].
  simpl in *. intros [= <- <-]. unfold in_use. simpl.
  destruct ra as [[]|]; simpl in *.
  - destruct Hc as [_ Hc]. rewrite Hc. destruct (String.eqb_spec k key) as [->|Hne].
    + rewrite decide_True by done. lia.
    + rewrite decide_False by congruence. lia.
  - destruct Hc as [_ Hc]. lia.
  - lia.
Qed.

Lemma begin_audit_in_use g id ep b g' key :
  begin_audit g id ep = (b, g') → in_use g' key = in_use g key.
Proof. destruct ep; intros [= _ <-]; by rewrite ?in_use_emit. Qed.

Lemma begin_attempt_in_use g a ep token m st t e o g' key :
  begin_attempt g a ep token m st t e = (o, g') → in_use g' key = in_use g key.
Proof.
  unfold begin_attempt. destruct (if bool_decide _ then _ else _); [|by intros [= _ <-]].
  destruct (acc_auto_telemetry a); intros [= _ <-]; by rewrite ?in_use_emit.
Qed.

Lemma disable_on_403_in_use g status id now key :
  in_use (disable_on_403 g status id now) key = in_use g key.
Proof.
  unfold disable_on_403. destruct (status =? 403); [|done].
  destruct (disable_account _ _ _ _ _ _) as [r st]. apply in_use_accounts. by destruct g as [[] ? ? ?].
Qed.

Lemma absorb_response_in_use g id mc status headers c r g' key :
  absorb_response g id mc status headers c = (r, g') → in_use g' key = in_use g key.
Proof.
  unfold absorb_response. destruct (absorb_headers _ _ _ _ _ _) as [flush limits].
  set (g1 := g <| gw_accounts := _ |>).
  assert (in_use g1 key = in_use g key) as <-.
  { apply in_use_accounts. by destruct g as [[] ? ? ?]. }
  clearbody g1. destruct flush as [[]|]; intros [= _ <-]; [|done..].
  rewrite in_use_spawn. simpl. lia.
Qed.

Lemma build_body_in_use g status items a perf slot b g' key :
  build_body g status items a perf slot = (b, g') →
  in_use g' key = in_use g key - (if String.eqb slot key then 1 else 0) + carried b key.
Proof.
  unfold build_body. destruct a as [attempt|]; [|intros [= <- <-]; simpl; lia].
  destruct (is_wrapped_error status); intros [= <- <-]; simpl; [|lia].
  rewrite in_use_spawn, in_use_drop_slot. simpl. lia.
Qed.

Lemma forward_request_in_use upstream g req a slot mc o au perf e r g' key :
  forward_request upstream g req a slot mc o au perf e = (r, g') →
  in_use g' key = in_use g key - (if String.eqb slot key then 1 else 0)
    + match r with Done (Ok resp) => carried (gr_body resp) key | _ => 0 end.
Proof.
  unfold forward_request. destruct (upstream req) as [timeout|resp].
  - intros [= <- <-]. rewrite in_use_drop_slot.
    destruct (telemetry_correlation o), au; by rewrite ?in_use_emit, ?in_use_emit_perf, Z.add_0_r.
  - set (g1 := emit_perf perf (emit_perf perf _ _) _).
    set (g2 := if au then _ else g1). set (g3 := disable_on_403 g2 _ _ _).
    assert (in_use g3 key = in_use g key) as <-.
    { unfold g3. rewrite disable_on_403_in_use.
      assert (in_use g2 key = in_use g1 key) as -> by (unfold g2; destruct au; rewrite ?in_use_emit; done).
      unfold g1. by rewrite !in_use_emit_perf. }
    clearbody g3. destruct (absorb_response g3 _ _ _ _ _) as [absorbed g4] eqn:Ha.
    apply (absorb_response_in_use _ _ _ _ _ _ _ _ key) in Ha as <-.
    destruct absorbed as [[]|].
    + destruct (build_body _ _ _ _ _ _) as [b g5] eqn:Hb. intros [= <- <-]. simpl.
      by apply (build_body_in_use _ _ _ _ _ _ _ _ key) in Hb.
    + intros [= <- <-]. by rewrite in_use_drop_slot, Z.add_0_r.
Qed.

Lemma serve_with_slot_in_use ep upstream g req bytes headers ct a slot mc token e r g' key :
  serve_with_slot ep upstream g req bytes headers ct a slot mc token e = (r, g') →
  in_use g' key = in_use g key - (if String.eqb slot key then 1 else 0)
    + match r with Done (Ok resp) => carried (gr_body resp) key | _ => 0 end.
Proof.
  unfold serve_with_slot. destruct (rewrite_request _ _ _ _ _ _) as [[[[fb rh] fm] st]|]; [|intros [= <- <-]; rewrite in_use_drop_slot; lia].
  destruct (begin_audit _ _ _) as [au g1] eqn:Hau. apply (begin_audit_in_use _ _ _ _ _ key) in Hau.
  rewrite in_use_emit_perf in Hau. rewrite <- Hau.
  destruct (resolve_upstream_token_with _ _ _ _) as [t svc] eqn:Ht.
  set (g2 := g1 <| gw_accounts := svc |>).
  assert (in_use g2 key = in_use g1 key) as <-.
  { apply in_use_accounts. by eapply resolve_token_slots. }
  clearbody g2. destruct t as [t|err].
  - destruct (begin_attempt _ _ _ _ _ _ _ _) as [o g3] eqn:Hb.
    apply (begin_attempt_in_use _ _ _ _ _ _ _ _ _ _ key) in Hb as <-.
    intros Hf. apply (forward_request_in_use _ _ _ _ _ _ _ _ _ _ _ _ key) in Hf.
    by rewrite in_use_emit_perf in Hf.
  - intros [= <- <-]. rewrite in_use_drop_slot. destruct au; rewrite ?in_use_emit; lia.
Qed.

Lemma body_drop_in_use g b c key : in_use (body_drop g b c) key = in_use g key - carried b key.
Proof.
  destruct b as [| | |items o perf slot]; simpl; try lia.
  rewrite in_use_drop_slot. destruct (stream_step _ _ _ _) as [[o2 u]|]; [|done].
  by destruct g.
Qed.

Lemma finish_response_in_use g r c r' g' key :
  finish_response g r c = (r', g') →
  in_use g' key - carried (gr_body r') key = in_use g key - carried (gr_body r) key.
Proof.
  unfold finish_response, wrap_5xx_response, wrap_429_response.
  destruct (_ && _); [intros [= <- <-]; simpl; rewrite body_drop_in_use; lia|].
  destruct (_ =? _); intros [= <- <-]; simpl; rewrite ?body_drop_in_use; lia.
Qed.

Lemma handle_inner_in_use ep upstream g req token e c r g' key :
  handle_request_inner ep upstream g req token e c = (r, g') →
  in_use g' key = in_use g key
    + match r with Done (Ok resp) => carried (gr_body resp) key | _ => 0 end.
Proof.
  unfold handle_request_inner. destruct (rq_body req) as [bytes|err]; [|intros [= <- <-]; lia].
  destruct (choose_account _ _ _ _ _) as [chosen g1] eqn:Hc.
  apply (choose_account_in_use _ _ _ _ _ _ _ key) in Hc. rewrite !in_use_emit_perf in Hc.
  rewrite <- Hc. destruct chosen as [[a|err]|]; [|intros [= <- <-]; lia..].
  destruct (intercepted a _) as [answer|] eqn:Hi.
  { intros [= <- <-]. rewrite !in_use_emit_perf. unfold intercepted in Hi.
    destruct (_ && _); [|done]. injection Hi as <-. simpl. lia. }
  destruct (take_slot _ a) as [taken g2] eqn:Ht.
  apply (take_slot_in_use _ _ _ _ key) in Ht. rewrite !in_use_emit_perf in Ht.
  destruct taken as [slot|err]; [|intros [= <- <-]; lia].
  destruct (serve_with_slot _ _ _ _ _ _ _ _ _ _ _ _) as [r3 g3] eqn:Hs.
  apply (serve_with_slot_in_use _ _ _ _ _ _ _ _ _ _ _ _ _ _ key) in Hs.
  rewrite in_use_emit_perf in Hs. destruct r3 as [[resp|err]|]; [|intros [= <- <-]; lia..].
  destruct (finish_response _ _ _) as [resp' g4] eqn:Hf.
  apply (finish_response_in_use _ _ _ _ _ key) in Hf. rewrite in_use_emit_perf in Hf.
  intros [= <- <-]. simpl. lia.
Qed.

Lemma handle_request_in_use ep upstream g req token e c r g' key :
  handle_request ep upstream g req token e c = (r, g') →
  in_use g' key = in_use g key + carried_all (answer_bodies r) key.
Proof.
  unfold handle_request. destruct (handle_request_inner _ _ _ _ _ _ _) as [r1 g1] eqn:Hi.
  apply (handle_inner_in_use _ _ _ _ _ _ _ _ _ key) in Hi. intros [= <- <-].
  destruct r1 as [[resp|err]|]; simpl; [lia| |lia].
  unfold error_response. destruct (app_error_into_response err). simpl. lia.
Qed.

Lemma body_poll_in_use g b c item b' g' key :
  body_poll g b c = (item, b', g') → in_use g' key = in_use g key ∧ carried b' key = carried b key.
Proof.
  destruct b as [| | |items o perf slot]; try by intros [= _ <- <-]. unfold body_poll.
  set (g1 := match head items with Some (SI_Error t) => _ | _ => _ end).
  assert (in_use g1 key = in_use g key) as <-.
  { unfold g1. destruct (head items) as [[]|]; by rewrite ?in_use_emit_perf. }
  clearbody g1. destruct (observe_item _ _ _ _) as [[o2 u]|]; intros [= _ <- <-]; [|done].
  split; [|done]. by destruct g1.
Qed.

Lemma run_next_in_use g now c key :
  0 ≤ in_use g key → in_use (run_next g now c) key = in_use g key.
Proof.
  unfold run_next. destruct g as [[st ca li cd] us [|t ts] ev]; [done|]. unfold in_use. simpl.
  rewrite pending_cons. assert (0 ≤ pending ts key) by (unfold pending; lia).
  destruct t as [k|id|items o]; simpl.
  - rewrite release_slot_spec. intros Hn. destruct (String.eqb_spec k key) as [->|Hne].
    + rewrite decide_True by done. destruct (Z.ltb_spec 0 (count ca key)); lia.
    + rewrite decide_False by congruence. lia.
  - destruct (flush_to_db _ _ _ _ _). simpl. lia.
  - destruct (drain _ _ _ _) as [[? ?]|]; simpl; lia.
Qed.

Lemma carried_nonneg b key : 0 ≤ carried b key.
Proof. destruct b; simpl; try lia. destruct (String.eqb _ _); lia. Qed.

Lemma carried_all_nonneg bodies key : 0 ≤ carried_all bodies key.
Proof.
  induction bodies as [|b l IH]; simpl; [lia|]. pose proof (carried_nonneg b key). lia.
Qed.

Lemma carried_all_app l1 l2 key :
  carried_all (l1 ++ l2) key = carried_all l1 key + carried_all l2 key.
Proof. induction l1 as [|b l IH]; simpl; lia. Qed.

Lemma accounted_step s s' : sys_step s s' → accounted s → accounted s'.
Proof.
  intros Hs Ha key. specialize (Ha key).
  destruct Hs as [ep up req token e c g bodies r g' Hr|c g l1 b l2 item b' g' Hp|c g l1 b l2|now c g bodies];
    simpl in *; rewrite ?carried_all_app in *; simpl in *.
  - rewrite (handle_request_in_use _ _ _ _ _ _ _ _ _ key Hr). lia.
  - destruct (body_poll_in_use _ _ _ _ _ _ key Hp) as [-> ->]. lia.
  - rewrite body_drop_in_use. lia.
  - pose proof (carried_all_nonneg bodies key). rewrite run_next_in_use; lia.
Qed.

(** C4: However requests, polls and drops of response bodies and spawned tasks follow each
    other, every concurrency slot in the cache is carried by exactly one open response body or
    by one pending release; when no body is open and no task is pending, no slot is taken. This
    holds for every cache that keeps the slot contract, and on every path of a request, panics
    included. *)
Theorem slots_never_leak s s' :
  accounted s → rtc sys_step s s' →
  accounted s' ∧
  (sy_bodies s' = [] → gw_tasks (sy_gateway s') = [] →
   ∀ key, count (sa_cache (gw_accounts (sy_gateway s'))) key = 0).
Proof.
  intros Ha Hr. assert (accounted s') as Ha'.
  { induction Hr as [|s s1 s2 Hs _ IH]; [done|]. apply IH. by eapply accounted_step. }
  split; [done|]. intros Hb Ht key. specialize (Ha' key). unfold in_use in Ha'.
  rewrite Hb, Ht in Ha'. unfold pending in Ha'. simpl in Ha'. lia.
Qed.
End slots.

(** ** What the client sees *)

(** A body that upstream sent. *)
Definition from_upstream `{Codecs} (b : Body) : Prop :=
  match b with B_Stream _ _ _ _ => True | _ => False end.

Section client.
Context {C : Type} `{CacheStore C} `{Chrono} `{UnicodeCase} `{JsonText} `{Digest} `{Codecs} `{Rewriter}.
Implicit Types g : GatewayService C.

(** What has been said of a header list: no gateway fingerprint in it. *)
Lemma forwarded_clean headers :
  Forall (λ kv, is_gateway_fingerprint_header kv.1 = false) (forwarded_headers headers).
Proof. apply Forall_forall. intros kv Hkv. by apply list_elem_of_filter in Hkv as [? _]. Qed.

Lemma wrapped_clean (p : string * string → Prop) `{∀ kv, Decision (p kv)} (headers : HeaderMap) :
  Forall (λ kv, is_gateway_fingerprint_header kv.1 = false) headers →
  Forall (λ kv, is_gateway_fingerprint_header kv.1 = false)
    (filter p headers ++ [("content-type", "application/json")]).
Proof.
  intros Hh. apply Forall_app. split; [|by repeat constructor].
  apply Forall_forall. intros kv [_ Hin]%list_elem_of_filter.
  rewrite Forall_forall in Hh. by apply Hh.
Qed.

Lemma wrap_5xx_untraced headers :
  Forall (λ kv, is_trace_header (to_ascii_lowercase kv.1) = false) (wrap_5xx_headers headers).
Proof.
  apply Forall_app. split; [|by repeat constructor].
  apply Forall_forall. intros kv [Hkv _]%list_elem_of_filter. by apply orb_false_elim in Hkv as [_ ?].
Qed.

Lemma forward_request_clean upstream g req a slot mc o au perf e resp g' :
  forward_request upstream g req a slot mc o au perf e = (Done (Ok resp), g') →
  Forall (λ kv, is_gateway_fingerprint_header kv.1 = false) (gr_headers resp).
Proof.
  unfold forward_request. destruct (upstream req) as [|up]; [by intros [=]|].
  destruct (absorb_response _ _ _ _ _ _) as [[[]|] g1]; [|by intros [=]].
  destruct (build_body _ _ _ _ _ _). intros [= <- <-]. apply forwarded_clean.
Qed.

(** A served request answers with what the upstream call gave. *)
Lemma serve_forwards ep upstream g req bytes headers ct a slot mc token e resp g' :
  serve_with_slot ep upstream g req bytes headers ct a slot mc token e = (Done (Ok resp), g') →
  ∃ g1 ureq o au,
    forward_request upstream g1 ureq a slot mc o au (rq_performance req) e = (Done (Ok resp), g').
Proof.
  unfold serve_with_slot. destruct (rewrite_request _ _ _ _ _ _) as [[[[fb rh] fm] st]|]; [|by intros [=]].
  destruct (begin_audit _ _ _) as [au g1]. destruct (resolve_upstream_token_with _ _ _ _) as [[t|err] svc];
    [|by intros [=]].
  destruct (begin_attempt _ _ _ _ _ _ _ _) as [o g3]. eauto.
Qed.

Lemma finish_response_hides g r c r' g' :
  Forall (λ kv, is_gateway_fingerprint_header kv.1 = false) (gr_headers r) →
  finish_response g r c = (r', g') →
  Forall (λ kv, is_gateway_fingerprint_header kv.1 = false) (gr_headers r') ∧
  (is_wrapped_error (gr_status r') = true → ¬ from_upstream (gr_body r')) ∧
  (500 ≤ gr_status r' ≤ 599 →
   Forall (λ kv, is_trace_header (to_ascii_lowercase kv.1) = false) (gr_headers r')).
Proof.
  intros Hh. unfold finish_response, is_wrapped_error.
  destruct ((500 <=? gr_status r) && (gr_status r <=? 599)) eqn:Hs5;
    [|destruct (gr_status r =? 429) eqn:Hs4]; intros [= <- <-]; simpl.
  - split_and!; [by apply wrapped_clean|auto|intros _; apply wrap_5xx_untraced].
  - split_and!; [by apply wrapped_clean|auto|]. intros Hs. bool_prop. lia.
  - split_and!; [done| |]; rewrite ?Hs4, ?Hs5; [done|]. intros Hs. bool_prop. lia.
Qed.

Lemma plain_answer_hides status v :
  let r := mkGatewayResponse status [("content-type", "application/json")] (B_Json v) in
  Forall (λ kv, is_gateway_fingerprint_header kv.1 = false) (gr_headers r) ∧
  (is_wrapped_error (gr_status r) = true → ¬ from_upstream (gr_body r)) ∧
  (500 ≤ gr_status r ≤ 599 →
   Forall (λ kv, is_trace_header (to_ascii_lowercase kv.1) = false) (gr_headers r)).
Proof. split_and!; [by repeat constructor|auto|intros _; by repeat constructor]. Qed.

(** C5: A response of the gateway never carries a gateway fingerprint header; one with status
    429 or 5xx never carries a body that upstream sent, and one with status 5xx no header that
    traces the upstream request. *)
Theorem upstream_errors_hidden endpoint upstream g req token e c r g' :
  handle_request endpoint upstream g req token e c = (Done r, g') →
  Forall (λ kv, is_gateway_fingerprint_header kv.1 = false) (gr_headers r) ∧
  (is_wrapped_error (gr_status r) = true → ¬ from_upstream (gr_body r)) ∧
  (500 ≤ gr_status r ≤ 599 →
   Forall (λ kv, is_trace_header (to_ascii_lowercase kv.1) = false) (gr_headers r)).
Proof.
  unfold handle_request, handle_request_inner.
  destruct (rq_body req) as [bytes|err]; [|intros [= <- _]; apply plain_answer_hides].
  destruct (choose_account _ _ _ _ _) as [chosen g1].
  destruct chosen as [[a|err]|]; [| |by intros [=]];
    [|intros [= <- _]; unfold error_response; destruct (app_error_into_response err);
      apply plain_answer_hides].
  destruct (intercepted a _) as [answer|] eqn:Hi.
  { intros [= <- _]. unfold intercepted in Hi. destruct (_ && _); [|done]. injection Hi as <-.
    apply plain_answer_hides. }
  destruct (take_slot _ a) as [[slot|err] g2];
    [|intros [= <- _]; unfold error_response; destruct (app_error_into_response err);
      apply plain_answer_hides].
  destruct (serve_with_slot _ _ _ _ _ _ _ _ _ _ _ _) as [r3 g3] eqn:Hs.
  destruct r3 as [[resp|err]|]; [| |by intros [=]];
    [|intros [= <- _]; unfold error_response; destruct (app_error_into_response err);
      apply plain_answer_hides].
  destruct (finish_response _ _ _) as [resp' g4] eqn:Hf. intros [= <- _].
  apply serve_forwards in Hs as (g5 & ureq & o & au & Hs). apply forward_request_clean in Hs.
  by apply (finish_response_hides _ _ _ _ _ Hs) in Hf.
Qed.

(** ** What an upstream refusal does to the account *)

Lemma disable_on_403_store g id now :
  as_faults (sa_store (gw_accounts g)) = [] →
  disable_account id AS_Disabled "403 认证失败" None now (sa_store (gw_accounts g))
  = (Ok tt, sa_store (gw_accounts (disable_on_403 g 403 id now))).
Proof.
  intros Hf. unfold disable_on_403, disable_account, exec_invalidating, exec, next_fault.
  rewrite Hf. by destruct g as [[] ? ? ?].
Qed.

(** The account table is only touched by the 403 rule. *)
Lemma forward_request_store upstream g req a slot mc o au perf e up r g' :
  upstream req = U_Response up →
  forward_request upstream g req a slot mc o au perf e = (r, g') →
  ∃ g0, gw_accounts g0 = gw_accounts g ∧
    sa_store (gw_accounts g') =
      sa_store (gw_accounts (disable_on_403 g0 (up_status up) (acc_id a) (ge_disable e))) ∧
    sa_limits (gw_accounts g') =
      (absorb_headers (sa_limits (gw_accounts g)) (acc_id a) mc (up_status up) (up_headers up)
         (ge_absorb e)).2.
Proof.
  intros Hup. unfold forward_request. rewrite Hup.
  set (g1 := emit_perf perf (emit_perf perf _ _) _). set (g2 := if au then _ else g1).
  assert (gw_accounts g2 = gw_accounts g) as E.
  { unfold g2, g1. destruct g, au, perf; done. }
  clearbody g2. intros Hf. exists g2. split; [done|]. rewrite <- E.
  set (g3 := disable_on_403 g2 _ _ _) in *.
  assert (sa_limits (gw_accounts g3) = sa_limits (gw_accounts g2)) as L.
  { unfold g3, disable_on_403. destruct (_ =? _); [|done].
    destruct (disable_account _ _ _ _ _ _). by destruct g2 as [[] ? ? ?]. }
  clearbody g3. rewrite <- L. revert Hf. unfold absorb_response.
  destruct (absorb_headers _ _ _ _ _ _) as [flush limits]. simpl.
  destruct flush as [[]|]; [| |intros [= _ <-]; by destruct g3 as [[] ? ? ?]];
    unfold build_body;
    (destruct o as [at'|]; simpl; [destruct (is_wrapped_error _)|]);
    intros [= _ <-]; by destruct g3 as [[] ? ? ?].
Qed.

(** After upstream answered a request with 403 and the statement that disables the account
    succeeded, no later selection returns that account. *)
Theorem forbidden_account_leaves upstream g req a slot mc o au perf e up r g' qs :
  table_inv (sa_store (gw_accounts g)) → as_faults (sa_store (gw_accounts g)) = [] →
  upstream req = U_Response up → up_status up = 403 →
  forward_request upstream g req a slot mc o au perf e = (r, g') →
  Forall (λ r, ∀ b, r = Ok b → acc_id b ≠ acc_id a) (select_run (gw_accounts g') qs).
Proof.
  intros Hi Hf Hup Hs Hr.
  destruct (forward_request_store _ _ _ _ _ _ _ _ _ _ _ _ _ Hup Hr) as (g0 & E & Est & _).
  rewrite Hs in Est. rewrite <- E in Hi, Hf.
  pose proof (disable_on_403_store g0 (acc_id a) (ge_disable e) Hf) as Hd. rewrite <- Est in Hd.
  pose proof (disable_account_inv (acc_id a) AS_Disabled "403 认证失败" None (ge_disable e) _ Hi) as Hi'.
  rewrite Hd in Hi'. apply select_run_barred; [done|]. eapply disable_bars; [|exact Hd]; done.
Qed.

Lemma absorb_header_less st id mc headers c :
  lst_poisoned st = false →
  parse_unified_headers headers = None → parse_rpm_tpm_headers headers = None →
  in_chrono (ac_utc c + dur_from_std (header_less_ban headers)) = true →
  ∃ s, lst_states (absorb_headers st id mc 429 headers c).2 !! id = Some s ∧
    match scoped_group mc with
    | None => ls_rate_limited_until s = Some (ac_utc c + dur_from_std (header_less_ban headers))
    | Some g => ls_scoped_rate_limited_until s !! g
                = Some (ac_utc c + dur_from_std (header_less_ban headers))
    end.
Proof.
  intros Hp Hu Hr Hc. unfold absorb_headers. rewrite Hp, header_less_state by done.
  generalize (ac_utc c + dur_from_std (header_less_ban headers)). intros t.
  eexists. split; [destruct st; simpl; apply lookup_insert_eq|].
  destruct (scoped_group mc) as [g|] eqn:Hg.
  - destruct (set_scoped_ban_frame (state_of st id) g t) as (_ & _ & _ & _ & _ & _ & _ & _ & _ & E).
    destruct (opt_is_some _), (set_scoped_ban _ _ _); simpl in *; rewrite E; apply lookup_insert_eq.
  - by destruct (opt_is_some _), (state_of st id).
Qed.

(** *** The limits after a request *)

(** The account that is chosen for a request: the one that the selection gives for the session
    and the model of the body and the lists of the client's token. *)
Definition selected g (req : GatewayRequest) (token : option ApiToken) (e : GatewayEnv)
    (a : Account) (svc : AccountService C) : Prop :=
  ∃ bytes, rq_body req = Ok bytes ∧
    let ua := client_user_agent (extract_headers (rq_headers req)) in
    let body := body_json bytes in
    select_account (gw_accounts g) (generate_session_hash ua body (detect_client_type ua body))
      (default [] (blocked_account_ids <$> token)) (default [] (allowed_account_ids <$> token))
      (from_model_id (body_model body)) (ge_draw e) (ge_select e) = Done (Ok a, svc).

Lemma emit_perf_accounts b g p : gw_accounts (emit_perf b g p) = gw_accounts g.
Proof. destruct b; by destruct g. Qed.

Lemma begin_audit_accounts g id ep b g' :
  begin_audit g id ep = (b, g') → gw_accounts g' = gw_accounts g.
Proof. destruct ep; intros [= _ <-]; by destruct g. Qed.

Lemma begin_attempt_accounts g a ep token m st t e o g' :
  begin_attempt g a ep token m st t e = (o, g') → gw_accounts g' = gw_accounts g.
Proof.
  unfold begin_attempt. destruct (if bool_decide _ then _ else _); [|by intros [= _ <-]].
  destruct (acc_auto_telemetry a); intros [= _ <-]; by destruct g.
Qed.

Lemma choose_account_limits g h token mc e r g' :
  choose_account g h token mc e = (r, g') →
  sa_limits (gw_accounts g') = sa_limits (gw_accounts g).
Proof.
  unfold choose_account. destruct (select_account _ _ _ _ _ _ _) as [[r2 svc]|] eqn:Hs;
    intros [= _ <-]; [|done].
  apply select_account_limits in Hs as <-. by destruct g.
Qed.

Lemma choose_account_selected g req token e bytes a g' :
  rq_body req = Ok bytes →
  let ua := client_user_agent (extract_headers (rq_headers req)) in
  let body := body_json bytes in
  choose_account g (generate_session_hash ua body (detect_client_type ua body)) token
    (from_model_id (body_model body)) e = (Done (Ok a), g') →
  selected g req token e a (gw_accounts g').
Proof.
  intros Hb ua body. unfold choose_account.
  destruct (select_account _ _ _ _ _ _ _) as [[r2 svc]|] eqn:Hs; intros [= Hr <-].
  destruct r2 as [a'|]; [|done]. injection Hr as ->. exists bytes. split; [done|].
  cbv zeta. fold ua body. rewrite Hs. by destruct g.
Qed.

Lemma take_slot_limits g a r g' :
  take_slot g a = (r, g') → sa_limits (gw_accounts g') = sa_limits (gw_accounts g).
Proof.
  unfold take_slot, account_acquire_slot. destruct (acquire_slot _ _ _ _) as [ra cache].
  intros [= _ <-]. by destruct g as [[] ? ? ?].
Qed.

Lemma body_drop_accounts g b c : gw_accounts (body_drop g b c) = gw_accounts g.
Proof.
  destruct b as [| | |items o perf slot]; [done..|]. simpl.
  destruct (stream_step _ _ _ _) as [[o2 u]|]; by destruct g.
Qed.

Lemma finish_response_accounts g r c r' g' :
  finish_response g r c = (r', g') → gw_accounts g' = gw_accounts g.
Proof.
  unfold finish_response, wrap_5xx_response, wrap_429_response.
  destruct (_ && _); [intros [= _ <-]; apply body_drop_accounts|].
  destruct (_ =? _); intros [= _ <-]; [apply body_drop_accounts|done].
Qed.

(** What the limits are after a request: as before, or with the one response of upstream for
    the account [id] absorbed. *)
Definition absorbed_for (upstream : UpstreamRequest → UpstreamResult) (g g' : GatewayService C)
    (id : Z) : Prop :=
  ∃ ureq up mc c, upstream ureq = U_Response up ∧
    sa_limits (gw_accounts g') =
      limit_step id (sa_limits (gw_accounts g)) (Absorb mc (up_status up) (up_headers up) c).

Lemma forward_request_limits upstream g req a slot mc o au perf e r g' :
  forward_request upstream g req a slot mc o au perf e = (r, g') →
  sa_limits (gw_accounts g') = sa_limits (gw_accounts g) ∨ absorbed_for upstream g g' (acc_id a).
Proof.
  intros Hf. destruct (upstream req) as [timeout|up] eqn:Hup.
  - left. unfold forward_request in Hf. rewrite Hup in Hf. injection Hf as _ <-.
    destruct perf, au, (telemetry_correlation o); by destruct g.
  - right. destruct (forward_request_store _ _ _ _ _ _ _ _ _ _ _ _ _ Hup Hf) as (_ & _ & _ & El).
    by exists req, up, mc, (ge_absorb e).
Qed.

Lemma serve_with_slot_limits ep upstream g req bytes headers ct a slot mc token e r g' :
  serve_with_slot ep upstream g req bytes headers ct a slot mc token e = (r, g') →
  sa_limits (gw_accounts g') = sa_limits (gw_accounts g) ∨ absorbed_for upstream g g' (acc_id a).
Proof.
  unfold serve_with_slot, absorbed_for.
  destruct (rewrite_request _ _ _ _ _ _) as [[[[fb rh] fm] st]|]; [|intros [= _ <-]; left; by destruct g].
  destruct (begin_audit _ _ _) as [au g1] eqn:Hau.
  apply begin_audit_accounts in Hau. rewrite emit_perf_accounts in Hau. rewrite <- Hau.
  destruct (resolve_upstream_token_with _ _ _ _) as [t svc] eqn:Ht.
  apply resolve_token_limits in Ht. set (g2 := g1 <| gw_accounts := svc |>).
  assert (sa_limits (gw_accounts g2) = sa_limits (gw_accounts g1)) as <- by by rewrite <- Ht; destruct g1.
  clearbody g2. destruct t as [t|err]; [|intros [= _ <-]; left; by destruct au, g2].
  destruct (begin_attempt _ _ _ _ _ _ _ _) as [o g3] eqn:Hb.
  apply begin_attempt_accounts in Hb as <-.
  rewrite <- (emit_perf_accounts (rq_performance req) g3 (GP_Stage "resolve_token")).
  apply forward_request_limits.
Qed.

(** A request absorbs at most one response, for the account that was chosen for it. *)
Lemma handle_request_limits ep upstream g req token e c r g' :
  handle_request ep upstream g req token e c = (r, g') →
  sa_limits (gw_accounts g') = sa_limits (gw_accounts g) ∨
  ∃ a svc, selected g req token e a svc ∧ absorbed_for upstream g g' (acc_id a).
Proof.
  unfold handle_request. destruct (handle_request_inner _ _ _ _ _ _ _) as [r1 g1] eqn:Hi.
  intros [= _ <-]. revert Hi. unfold handle_request_inner, absorbed_for.
  destruct (rq_body req) as [bytes|err] eqn:Hb; [|intros [= _ <-]; by left].
  match goal with |- context [choose_account ?g0] => set (g0' := g0) end.
  assert (gw_accounts g0' = gw_accounts g) as E0 by (unfold g0'; by rewrite !emit_perf_accounts).
  clearbody g0'. rewrite <- E0. destruct (choose_account _ _ _ _ _) as [chosen g2] eqn:Hc.
  pose proof Hc as Hsel. apply choose_account_limits in Hc as <-.
  destruct chosen as [[a|err]|]; [|intros [= _ <-]; by left..].
  apply (choose_account_selected _ _ _ _ _ _ _ Hb) in Hsel.
  assert (selected g req token e a (gw_accounts g2)) as Hsel'.
  { unfold selected in *. by rewrite <- E0. }
  match goal with |- context [take_slot ?g0] => set (g3 := g0) end.
  assert (gw_accounts g3 = gw_accounts g2) as <- by (unfold g3; by rewrite !emit_perf_accounts).
  clearbody g3. destruct (intercepted a _); [intros [= _ <-]; by left|].
  destruct (take_slot _ a) as [taken g4] eqn:Ht. apply take_slot_limits in Ht as <-.
  destruct taken as [slot|err]; [|intros [= _ <-]; by left].
  destruct (serve_with_slot _ _ _ _ _ _ _ _ _ _ _ _) as [r5 g5] eqn:Hs.
  apply serve_with_slot_limits in Hs. unfold absorbed_for in Hs. rewrite emit_perf_accounts in Hs.
  assert (∀ g6, gw_accounts g6 = gw_accounts g5 →
    sa_limits (gw_accounts g6) = sa_limits (gw_accounts g4) ∨
    ∃ a svc, selected g req token e a svc ∧ ∃ ureq up mc c0, upstream ureq = U_Response up ∧
      sa_limits (gw_accounts g6) =
        limit_step (acc_id a) (sa_limits (gw_accounts g4)) (Absorb mc (up_status up) (up_headers up) c0))
    as Hdone.
  { intros g6 ->. destruct Hs as [Hs|Hs]; [by left|right; eauto]. }
  destruct r5 as [[resp|err]|]; [|intros [= _ <-]; by apply Hdone..].
  destruct (finish_response _ _ _) as [resp' g6] eqn:Hf. intros [= _ <-].
  apply finish_response_accounts in Hf. rewrite emit_perf_accounts in Hf. by apply Hdone.
Qed.

(** What may happen to the gateway while nothing says 429 to the account [id]: whole requests,
    queries of an account's usage, and whatever leaves the limits alone (edits of accounts and
    of the cache, polls, tasks). *)
Inductive no_429_since (id : Z) (g : GatewayService C) : GatewayService C → Prop :=
  | NS_now : no_429_since id g g
  | NS_request ep upstream g1 req token e c r g2 :
      no_429_since id g g1 →
      (∀ a svc ureq up, selected g1 req token e a svc → acc_id a = id →
         upstream ureq = U_Response up → up_status up ≠ 429) →
      handle_request ep upstream g1 req token e c = (r, g2) → no_429_since id g g2
  | NS_usage g1 id' usage now g2 :
      no_429_since id g g1 →
      sa_limits (gw_accounts g2) = (ingest_usage_json (sa_limits (gw_accounts g1)) id' usage now).2 →
      no_429_since id g g2
  | NS_other g1 g2 :
      no_429_since id g g1 → sa_limits (gw_accounts g2) = sa_limits (gw_accounts g1) →
      no_429_since id g g2.

Lemma no_429_banned id g g' mc t :
  no_429_since id g g' → banned (sa_limits (gw_accounts g)) id mc t →
  banned (sa_limits (gw_accounts g')) id mc t.
Proof.
  intros Hs Hb. induction Hs as [|ep upstream g1 req token e c r g2 _ IH Hno Hr|g1 id' usage now g2 _ IH E|g1 g2 _ IH E];
    [done| | |by rewrite E].
  - apply handle_request_limits in Hr as [->|(a & svc & Hsel & ureq & up & mc' & c' & Hup & ->)]; [done|].
    apply banned_step; [done|]. destruct (decide (acc_id a = id)) as [He|Hne]; [right|by left].
    by eapply Hno.
  - rewrite E. apply (banned_step _ _ _ id' _ (Ingest usage now)); [done|by right].
Qed.

(** C30: After upstream answered a request with a 429 without limit headers, and until
    retry-after (or the default) has passed, no selection for a model that the ban covers
    returns that account, whatever requests, usage queries and changes of the table and the
    cache come in between, as long as upstream gives that account no further 429, which may
    replace the ban by a shorter one. *)
Theorem throttled_account_avoided upstream g req a slot mc o au perf e up r g' :
  let ban_end := ac_utc (ge_absorb e) + dur_from_std (header_less_ban (up_headers up)) in
  lst_poisoned (sa_limits (gw_accounts g)) = false →
  upstream req = U_Response up → up_status up = 429 →
  parse_unified_headers (up_headers up) = None → parse_rpm_tpm_headers (up_headers up) = None →
  in_chrono ban_end = true →
  forward_request upstream g req a slot mc o au perf e = (r, g') →
  ∀ g2 h ex al mc' draw c b s',
    no_429_since (acc_id a) g' g2 → table_inv (sa_store (gw_accounts g2)) →
    scoped_group mc = None ∨ mc' = mc →
    (∀ i, sk_sticky c i < ban_end) → (∀ id i, sk_limits c id i < ban_end) →
    select_account (gw_accounts g2) h ex al mc' draw c = Done (Ok b, s') → acc_id b ≠ acc_id a.
Proof.
  intros ban_end Hp Hup Hs Hu Hrt Hc Hr g2 h ex al mc' draw c b s' Hns Hi Hmc Hclk1 Hclk2 Hsel Hid.
  destruct (forward_request_store _ _ _ _ _ _ _ _ _ _ _ _ _ Hup Hr) as (g0 & _ & _ & El).
  rewrite Hs in El.
  assert (banned (sa_limits (gw_accounts g2)) (acc_id a) mc ban_end) as Hb.
  { apply (no_429_banned _ _ _ _ _ Hns). rewrite El. by apply absorb_header_less. }
  destruct (select_account_from _ _ _ _ _ _ _ _ _ Hi Hsel) as (_ & _ & _ & clk & (_ & av & Hav & Ht) & Hclk).
  assert (∀ i, clk i < ban_end) as Hlt by (destruct Hclk as [Hk|Hk]; rewrite Hk; auto).
  rewrite Hid in Hav. rewrite (banned_unavailable _ _ _ _ _ _ _ Hb Hmc Hlt Hav) in Ht. done.
Qed.
End client.

(** ** What is sent upstream

    Whatever a client asks, upstream is asked with the token and proxy of the chosen account
    and with whitelisted headers; and what happens to a body that is no JSON. *)

Section requests.
Context {C : Type} `{CacheStore C} `{Chrono} `{UnicodeCase} `{JsonText} `{Digest} `{Codecs} `{Rewriter}.
Context `{!RewriterLaws}.
Implicit Types g : GatewayService C.

(** The request [ureq] is one that the client's request [req] may cause: it is made for the
    account that the selection gives for it, which is stored, active and permitted to the token
    and has a free slot; through that account's proxy, with a token of that account, and with
    the headers and the body that the rewriter makes for it. *)
Record sent_as (endpoint : TokenEndpoint) g (req : GatewayRequest) (token : option ApiToken)
    (e : GatewayEnv) (a : Account) (ureq : UpstreamRequest) : Prop := {
  sent_chosen : ∃ svc svc', selected g req token e a svc ∧
    account_acquire_slot svc (acc_id a) (acc_concurrency a) = (Ok true, svc');
  sent_stored : ∃ now, from_store now (sa_store (gw_accounts g)) a;
  sent_active : acc_status a = AS_Active;
  sent_permitted : id_permitted (default [] (blocked_account_ids <$> token))
    (default [] (allowed_account_ids <$> token)) (acc_id a) = true;
  sent_host : ur_host ureq = "api.anthropic.com";
  sent_url : starts_with UPSTREAM_BASE (ur_url ureq) = true;
  sent_method : ur_method ureq ∈ ["GET"; "POST"; "PUT"; "DELETE"; "PATCH"];
  sent_proxy : ur_proxy ureq = acc_proxy_url a;
  sent_token : ∃ t, own_token endpoint (sa_store (gw_accounts g)) a (ge_resolve e) t ∧
    ur_headers ureq !! "authorization" = Some ("Bearer " +:+ t);
  sent_headers k v : ur_headers ureq !! k = Some v →
    k = "authorization" ∨ is_allowed_header (to_ascii_lowercase k) = true;
  sent_rewritten : ∃ bytes headers model stream, rq_body req = Ok bytes ∧
    let client := extract_headers (rq_headers req) in
    rewrite_request bytes (rq_path req) client a
      (detect_client_type (client_user_agent client) (body_json bytes)) e
    = Done (ur_body ureq, headers, model, stream) ∧
    delete "authorization" (ur_headers ureq) = delete "authorization" headers;
}.

Definition sent_for (endpoint : TokenEndpoint) g (req : GatewayRequest) (token : option ApiToken)
    (e : GatewayEnv) (ureq : UpstreamRequest) : Prop := ∃ a, sent_as endpoint g req token e a ureq.

(** What the selection promises of the account that it chose. *)
Lemma selected_stored g req token e a svc :
  table_inv (sa_store (gw_accounts g)) → selected g req token e a svc →
  (∃ now, from_store now (sa_store (gw_accounts g)) a) ∧ acc_status a = AS_Active ∧
  id_permitted (default [] (blocked_account_ids <$> token))
    (default [] (allowed_account_ids <$> token)) (acc_id a) = true ∧
  as_rows (sa_store svc) = as_rows (sa_store (gw_accounts g)).
Proof.
  intros Hi (bytes & _ & Hsel).
  apply (select_account_from _ _ _ _ _ _ _ _ _ Hi) in Hsel as (Hs & Hf & R & clk & [Hp _] & _).
  unfold is_schedulable in Hs. by apply bool_decide_eq_true in Hs.
Qed.

Lemma own_token_rows endpoint st st' a e t :
  as_rows st' = as_rows st → own_token endpoint st' a e t → own_token endpoint st a e t.
Proof.
  intros E. unfold own_token. destruct (acc_auth_type a); [done|].
  intros [Hu|(st2 & row & Hl & Hr)]; [by left|right]. exists st2, row. split; [|done].
  apply (later_table_trans _ _ st'); [|done]. by apply (LT_read _ _ st); [apply LT_now|].
Qed.

Lemma upstream_method_known m : upstream_method m ∈ ["GET"; "POST"; "PUT"; "DELETE"; "PATCH"].
Proof.
  unfold upstream_method. destruct (existsb _ _) eqn:He; [|set_solver].
  apply existsb_exists in He as (x & Hx & ->%String.eqb_eq). by apply list_elem_of_In.
Qed.

Lemma target_url_upstream path query : starts_with UPSTREAM_BASE (target_url path query) = true.
Proof.
  apply starts_with_true. unfold target_url. rewrite <- !str_app_assoc.
  destruct (negb (is_empty query)); eauto.
Qed.

Lemma forward_request_ext up1 up2 g ureq a slot mc o au perf e :
  up1 ureq = up2 ureq →
  forward_request up1 g ureq a slot mc o au perf e = forward_request up2 g ureq a slot mc o au perf e.
Proof. intros Hu. unfold forward_request. by rewrite Hu. Qed.

Lemma rewrite_request_headers bytes path headers a ct e b h m st :
  rewrite_request bytes path headers a ct e = Done (b, h, m, st) →
  ∀ k v, h !! k = Some v → is_allowed_header (to_ascii_lowercase k) = true.
Proof.
  unfold rewrite_request. destruct (rewriter_body _ _ _ _ _) as [rb|]; [|by intros [=]].
  cbn [mbind outcome_bind]. intros Hd%Done_inj. injection Hd as _ <- _ _.
  intros k v. apply rewriter_headers_allowed.
Qed.

Lemma serve_with_slot_ext endpoint up1 up2 g g0 req bytes a svc svc' slot mc token e :
  rq_body req = Ok bytes → table_inv (sa_store (gw_accounts g0)) →
  (∀ ureq, sent_for endpoint g0 req token e ureq → up1 ureq = up2 ureq) →
  selected g0 req token e a svc →
  account_acquire_slot svc (acc_id a) (acc_concurrency a) = (Ok true, svc') →
  gw_accounts g = svc' →
  let headers := extract_headers (rq_headers req) in
  let ct := detect_client_type (client_user_agent headers) (body_json bytes) in
  serve_with_slot endpoint up1 g req bytes headers ct a slot mc token e
  = serve_with_slot endpoint up2 g req bytes headers ct a slot mc token e.
Proof.
  intros Hb Hi Hu Hsel Hslot Hg headers ct.
  destruct (selected_stored _ _ _ _ _ _ Hi Hsel) as (Hf & Hact & Hp & R).
  assert (as_rows (sa_store (gw_accounts g)) = as_rows (sa_store (gw_accounts g0))) as Rg.
  { rewrite Hg, <- R. unfold account_acquire_slot in Hslot.
    destruct (acquire_slot _ _ _ _) as [ra ca]. injection Hslot as _ <-. by destruct svc. }
  unfold serve_with_slot.
  destruct (rewrite_request _ _ _ _ _ _) as [[[[fb rh] fm] st]|] eqn:Hr; [|done].
  destruct (begin_audit _ _ _) as [au g1] eqn:Hau.
  apply begin_audit_accounts in Hau. rewrite emit_perf_accounts in Hau. rewrite <- Hau in Rg.
  destruct (resolve_upstream_token_with _ _ _ _) as [[t|err] svc2] eqn:Ht; [|done].
  destruct (begin_attempt _ _ _ _ _ _ _ _) as [o g2].
  apply forward_request_ext, Hu. exists a. split; simpl; [by eauto|done..| | | | | |].
  - apply target_url_upstream.
  - apply upstream_method_known.
  - done.
  - exists t. split; [|apply lookup_insert_eq].
    by eapply own_token_rows, resolve_own_token.
  - intros k v. destruct (decide (k = "authorization")) as [->|Hk]; [by left|].
    rewrite lookup_insert_ne by done. intros Hv. right. by eapply rewrite_request_headers.
  - exists bytes, rh, fm, st. split_and!; [done..|]. apply delete_insert_eq.
Qed.

(** C6: The answer to a request depends on upstream only through requests that are made for the
    one account that the selection gives for this request's session, model and token lists; that
    account is stored, active, permitted to the token and had a free slot; what is sent goes to
    the official host, through that account's own proxy, with that account's own token (its
    setup token, the unexpired OAuth token that it or its row holds, or what the token endpoint
    gave for its row's refresh token), with the body and headers that the rewriter makes for it
    and no header of the client but the whitelisted ones; nothing else is ever sent. *)
Theorem upstream_sees_accounts_only endpoint up1 up2 g req token e c :
  table_inv (sa_store (gw_accounts g)) →
  (∀ ureq, sent_for endpoint g req token e ureq → up1 ureq = up2 ureq) →
  handle_request endpoint up1 g req token e c = handle_request endpoint up2 g req token e c.
Proof.
  intros Hi Hu. unfold handle_request.
  assert (handle_request_inner endpoint up1 g req token e c
          = handle_request_inner endpoint up2 g req token e c) as ->; [|done].
  unfold handle_request_inner. destruct (rq_body req) as [bytes|] eqn:Hb; [|done].
  match goal with |- context [choose_account ?g0] => set (g0' := g0) end.
  assert (gw_accounts g0' = gw_accounts g) as E0 by (unfold g0'; by rewrite !emit_perf_accounts).
  clearbody g0'. destruct (choose_account _ _ _ _ _) as [[[a|err]|] g1] eqn:Hc; [|done..].
  destruct (intercepted _ _); [done|]. destruct (take_slot _ _) as [[slot|err] g2] eqn:Ht; [|done].
  apply (choose_account_selected _ _ _ _ _ _ _ Hb) in Hc. unfold selected in Hc. rewrite E0 in Hc.
  unfold take_slot in Ht. rewrite !emit_perf_accounts in Ht.
  destruct (account_acquire_slot _ _ _) as [ra svc'] eqn:Hslot. destruct ra as [[]|]; try done.
  injection Ht as _ Ht.
  erewrite (serve_with_slot_ext endpoint up1 up2); [done|done|exact Hi|exact Hu|exact Hc|exact Hslot|].
  rewrite emit_perf_accounts, <- Ht. by destruct (emit_perf _ _ _).
Qed.
End requests.

(** ** Bodies *)

Fixpoint vpath (v : Value) (ks : list string) : option Value :=
  match ks with [] => Some v | k :: ks => vget v k ≫= λ v, vpath v ks end.

(** What the JSON library is trusted for: a value is always printed, and when it
    is read back it has the same fields. *)
Class JsonLaws `{JsonText} : Prop := {
  json_prints v : is_Some (res_ok (json_to_string v));
  json_keeps_fields v s v' ks :
    json_to_string v = Ok s → json_from_str s = Ok v' →
    opt_is_some (vpath v' ks) = opt_is_some (vpath v ks);
}.

Section bodies.
Context `{JsonText} `{Digest} `{Rewriter}.

Lemma cleaned_has_no_session v : vpath (clean_session_id_from_body v) ["metadata"; "_session_id"] = None.
Proof.
  unfold clean_session_id_from_body. destruct v as [| | | | |m]; try done. simpl.
  destruct (m !! "metadata") as [md|] eqn:Hm; simpl; [|by rewrite Hm].
  destruct md as [| | | | |md]; simpl; rewrite ?Hm; try done.
  rewrite lookup_insert_eq. simpl. by rewrite lookup_delete_eq.
Qed.

(** The session id that the rewriter leaves in a body for the headers is not
    in the body that goes upstream. *)
Theorem session_marker_removed `{!JsonLaws} bytes path headers a e b h m st v :
  rewrite_request bytes path headers a CT_API e = Done (b, h, m, st) →
  json_from_str b = Ok v → vpath v ["metadata"; "_session_id"] = None.
Proof.
  unfold rewrite_request. destruct (rewriter_body _ _ _ _ _) as [rb|]; [|by intros [=]].
  cbn [mbind outcome_bind]. intros Hd%Done_inj Hv. injection Hd as Hb _ _ _.
  set (cleaned := clean_session_id_from_body _) in Hb.
  destruct (json_prints cleaned) as [s Hs].
  destruct (json_to_string cleaned) as [s'|] eqn:Hp; [|done]. simpl in Hs, Hb. subst s'.
  pose proof (json_keeps_fields _ _ _ ["metadata"; "_session_id"] Hp Hv) as Hk.
  unfold cleaned in Hk at 1. rewrite cleaned_has_no_session in Hk.
  by destruct (vpath v _).
Qed.
End bodies.

(** A body that is no JSON goes upstream as it is only from the official client; for any
    other client it is replaced by an empty object. *)
Theorem unreadable_body_replaced `{JsonText} `{Digest} `{RegexEngine} `{BodyCodecs}
    bytes path headers a ct e err b h m st :
  json_from_str bytes = Err err →
  rewrite_request bytes path headers a ct e = Done (b, h, m, st) →
  b = match ct with
      | CT_ClaudeCode => bytes
      | CT_API => default bytes (res_ok (json_to_string (VObject ∅)))
      end.
Proof.
  intros Herr. unfold rewrite_request, rewriter_body, rewriter_service, rewrite_body. rewrite Herr.
  destruct (is_empty bytes); cbn [mbind outcome_bind];
    rewrite Herr; intros Hd%Done_inj; injection Hd as <- _ _ _; by destruct ct.
Qed.
