(* ===== verification/Demo.v ===== *)
(** * Demo: concrete instances of the interfaces

    A calendar, a JSON reader, digests, codecs and a regular expression engine,
    small enough to compute with, at which the theorems are run. *)

From S2P Require Import Prelude Text F64 Json Http Model Limit UsageParse Usage Rewriter RewriteBody.

#[export] Existing Instance chrono_demo.

#[export] Instance upper_demo : UnicodeCase := { char_to_uppercase := λ s, str_map upper s }.

(** A reader that knows two texts. *)
Definition body_demo : Value :=
  VObject
    (<["model" := VString "claude-opus-5"]>
     (<["usage" := VObject
          (<["input_tokens" := VNumber (NInt 10)]>
           (<["output_tokens" := VNumber (NInt 5)]> ∅))]> ∅)).

#[export] Instance json_demo : JsonText := {
  json_from_str s := if String.eqb s "{}" then Ok (VObject ∅)
                     else if String.eqb s "body" then Ok body_demo else Err "expected value";
  json_to_string v := Ok "{}";
  float_to_string f := "0.5";
}.

#[export] Instance digest_demo : Digest := { sha256 s := s; hex_encode s := s }.

(** A codec that copies. *)
Definition copy_codec : Codec := mkCodec unit tt (λ _ b, (tt, [b], true)) (λ _, (tt, [], true)).

#[export] Instance codecs_demo : Codecs := {
  gzip := copy_codec; zlib := copy_codec; raw_deflate := copy_codec; brotli := copy_codec;
  zstd := copy_codec; zstd_available := true;
}.

(** An engine for which every pattern matches the first byte of a text. *)
#[export] Instance regex_demo : RegexEngine := {
  captures_iter pattern text :=
    match text with EmptyString => [] | _ => [mkCaptures 0 1 ""] end;
  regex_expand text caps template := template;
}.

#[export] Instance regex_demo_laws : RegexLaws.
Proof. intros pattern [|c text]; simpl; repeat split; lia. Qed.

#[export] Instance body_codecs_demo : BodyCodecs := {
  base64_decode s := Some s;
  base64_encode s := s;
  xxh64 s seed := str_len s + seed;
}.

Definition header_draws_demo : HeaderDraws :=
  mkHeaderDraws (replicate 16 1) (replicate 16 2).

Definition body_draws_demo : BodyDraws :=
  mkBodyDraws (replicate 16 3) (200, 7) (λ _ _ low _, low).
