(* ===== verification/Examples.v ===== *)
(** * Examples: the theorems at concrete inputs

    For the theorems with hypotheses, a run where they hold, at the instances
    of Demo.v. *)

From S2P Require Import Prelude Text F64 Json Http Model Cache Limit LimitFacts LimitStoreFacts.
From S2P Require Import Pricing PricingFacts PricingRules PricingTables.
From S2P Require Import UsageParse UsageParseFacts Usage UsageFacts.
From S2P Require Import AccountStore Account AccountFacts AccountRuns AccountAuthFacts.
From S2P Require Import GatewayHeaders Rewriter RewriteBody TokenStore Gateway GatewayFacts Demo.

#[local] Existing Instance MemoryFacts.memory_slot_laws.

(** ** Limits *)

Definition sonnet_headers : HeaderMap :=
  [("anthropic-ratelimit-unified-status", "rejected");
   ("anthropic-ratelimit-unified-representative-claim", "seven_day_sonnet");
   ("anthropic-ratelimit-unified-7d_sonnet-utilization", "1.0");
   ("anthropic-ratelimit-unified-7d_sonnet-reset", "1000")].

Definition retry_headers : HeaderMap := [("retry-after", "30")].

Definition huge_retry_headers : HeaderMap := [("retry-after", "9000000000000")].

Definition banned_state : LimitState :=
  limit_state_default <| ls_rate_limited_until := Some (from_secs 5) |>
    <| ls_last_db_flush_at := Some (from_secs 100) |>.

Definition rejected_state : LimitState := limit_state_default <| ls_status := Some US_Rejected |>.

Definition one_state (s : LimitState) : LimitStore := limit_store_new <| lst_states := {[1 := s]} |>.

Definition clock_at (t : DateTime) : AbsorbClock := mkAbsorbClock t t t t t.

Definition rejected_ops : list LimitOp :=
  [Absorb Opus 429 retry_headers (clock_at 7); Ingest body_demo 8].

Lemma scoped_claim_isolated_witness :
  ∃ s, compute_new_state limit_state_default Opus 429 sonnet_headers 0 = Done (Some s) ∧
       ls_status s = None.
Proof.
  eexists. split; [vm_compute; reflexivity|].
  refine (proj1 (scoped_claim_isolated limit_state_default Opus 429 sonnet_headers 0 "sonnet" _ _ _));
    vm_compute; reflexivity.
Defined.

Lemma header_less_429_isolates_witness :
  ∃ s, compute_new_state limit_state_default Sonnet 429 retry_headers 0 = Done (Some s) ∧
       judge_availability s Opus (λ _, 0) = judge_availability limit_state_default Opus (λ _, 0) ∧
       is_available (judge_availability s Sonnet (λ _, 0)) = false.
Proof.
  eexists. split; [vm_compute; reflexivity|]. split.
  - refine (header_less_429_isolates limit_state_default Sonnet retry_headers 0 _ _ _ _ _ Opus
              (λ _, 0) _); vm_compute; reflexivity.
  - refine (header_less_429_isolates limit_state_default Sonnet retry_headers 0 _ _ _ _ _ Sonnet
              (λ _, 0) _); vm_compute; reflexivity.
Defined.

Lemma rejected_is_not_recovered_witness :
  ∃ a, availability (limit_run 1 (one_state rejected_state) rejected_ops) 1 Opus (λ _, 10) = Done a ∧
       is_available a = false.
Proof.
  eexists. split; [vm_compute; reflexivity|].
  refine (rejected_is_not_recovered 1 (one_state rejected_state) rejected_ops rejected_state _ _ _
            Opus (λ _, 10) _ _); vm_compute; reflexivity.
Defined.

Lemma repeated_ban_not_flushed_witness :
  ∃ new, compute_new_state banned_state Opus 429 retry_headers (from_secs 100) = Done (Some new) ∧
    flush_reason banned_state (new <| ls_updated_at := Some (from_secs 101) |>) (from_secs 101)
      (from_secs 100) = None.
Proof.
  eexists. split; [vm_compute; reflexivity|].
  refine (proj2 (repeated_ban_not_flushed banned_state Opus retry_headers (from_secs 100) _
            (from_secs 101) (from_secs 100) (from_secs 5) _ _ _ _ _ _ _) _);
    vm_compute; reflexivity.
Defined.

Lemma absorb_flush_policy_witness :
  ∃ st', absorb_headers limit_store_new 1 Opus 429 retry_headers (clock_at 7) = (Done true, st') ∧
    ls_last_db_flush_at (state_of st' 1) = Some 7.
Proof.
  eexists. split; [vm_compute; reflexivity|].
  refine (proj1 (proj2 (absorb_flush_policy limit_store_new 1 Opus 429 retry_headers (clock_at 7)
            true _ _))). vm_compute; reflexivity.
Defined.

Lemma flush_columns_agree_witness :
  ∃ json, flush_to_db (λ _, Ok "{}") (one_state banned_state) 1 0 [] =
    (Done (Ok tt), [WUsage 1 json; WSet 1 (from_secs 5)]).
Proof.
  destruct (flush_columns_agree (λ _, Ok "{}") (one_state banned_state) 1 0 banned_state [])
    as [json [Hj _]]; [vm_compute; reflexivity..|].
  exists json. exact Hj.
Defined.

Lemma huge_retry_after_poisons_witness :
  ∃ st', absorb_headers limit_store_new 1 Opus 429 huge_retry_headers (clock_at 0) = (Panic, st') ∧
    availability st' 2 Sonnet (λ _, 0) = Panic.
Proof.
  pose proof (huge_retry_after_poisons limit_store_new 1 Opus huge_retry_headers (clock_at 0)
    (from_secs 9000000000000) eq_refl ltac:(vm_compute; reflexivity) ltac:(vm_compute; reflexivity)
    ltac:(vm_compute; reflexivity) ltac:(vm_compute; discriminate) ltac:(vm_compute; reflexivity)) as Hp.
  destruct (absorb_headers _ _ _ _ _ _) as [r st']. destruct Hp as [-> Hp].
  exists st'. split; [reflexivity|]. exact (Hp 1 [] 2 Sonnet (λ _, 0)).
Defined.

Lemma absorb_never_panics_witness :
  ∃ b st', absorb_headers limit_store_new 1 Opus 429 retry_headers (clock_at 0) = (Done b, st').
Proof.
  destruct (absorb_never_panics limit_store_new 1 Opus 429 retry_headers (clock_at 0))
    as (b & st' & Ha & _); [reflexivity|vm_compute; reflexivity| |exists b, st'; exact Ha].
  split; [vm_compute; reflexivity|]. intros d Hd. vm_compute in Hd. injection Hd as <-.
  vm_compute; reflexivity.
Defined.

Definition window_state : LimitState :=
  limit_state_default <| ls_five_hour := Some (mkWindow (f_of_Z 1) (from_secs 10) US_Allowed None) |>.

Lemma snapshot_reads_back_witness :
  parse_usage_json_window (build_usage_json window_state) "five_hour" =
    Some (mkWindow (f_of_Z 1) (from_secs 10) US_Allowed None).
Proof.
  rewrite (@snapshot_reads_back chrono_demo chrono_demo_laws window_state "five_hour"
             (mkWindow (f_of_Z 1) (from_secs 10) US_Allowed None));
    [vm_compute; reflexivity|left|vm_compute; reflexivity|vm_compute; split; discriminate].
Defined.

(** ** Prices *)

Definition rule_demo : PricingRule :=
  mkRule "claude-demo" (Some 3000000000) (Some 15000000000) None None None None.

Definition engine_demo : PricingEngine := mkEngine {["claude-demo" := rule_demo]} ∅ "v" "".

Definition tokens_demo : UsageTokens := mkTokens 1000 500 0 0 7.

Definition snapshot_demo (v : string) : PricingSnapshot :=
  mkSnapshot v {["claude-demo" := rule_demo]}.

#[local] Instance pricing_demo : PricingText := {
  overrides_from_str s := Ok ∅;
  snapshot_from_str s := Ok (snapshot_demo "v");
  snapshot_to_str s := Ok "{}";
  rules_to_str m := Ok "rules";
}.

Lemma component_cost_correct_witness :
  match component_cost 1000 (Some 3000000000) with
  | Some c => Z.abs (2 * (c * 1000000 - 1000 * 3000000000)) ≤ 1000000 ∧ is_count c
  | None => ity_max i64 * 1000000 < 1000 * 3000000000 + 500000
  end.
Proof.
  apply (component_cost_correct 1000 3000000000); [simpl; lia|split; [lia|simpl; lia]].
Defined.

Lemma good_engine_demo : good_engine engine_demo.
Proof.
  split; [|apply map_Forall_empty].
  apply map_Forall_singleton. split; simpl; unfold good_rate, is_count; simpl; try lia; reflexivity || exact I.
Qed.

(** 1000 input and 500 output tokens have a price; the 7 tokens read from the cache have no rate. *)
Lemma price_correct_witness :
  ∃ rate, costs 1000 rate (Some 3000000) ∧
    charges tokens_demo K_Input (Some rule_demo) rate ∧
    uc_complete (pd_costs (price engine_demo "claude-demo" tokens_demo)) = false.
Proof.
  destruct (price_correct engine_demo "claude-demo" tokens_demo good_engine_demo
              ltac:(unfold counts_in_range; simpl; lia))
    as (o & Happ & _ & _ & Hk & _ & _ & Hc).
  destruct o as [r|]; [|discriminate (proj2 Happ "claude-demo" rule_demo eq_refl)].
  destruct Happ as [Happ|[[_ Happ]|[_ [Happ _]]]]; vm_compute in Happ; try discriminate Happ.
  destruct (Hk K_Input) as (rate & Hch & Hco). exists rate. split; [exact Hco|].
  injection Happ as <-. split; [exact Hch|vm_compute; reflexivity].
Defined.

Lemma decimal_parsers_agree_witness :
  res_ok (parse_usd_per_million " 3.75 ") = res_ok (parse_decimal_scaled " 3.75 " 9).
Proof. apply decimal_parsers_agree; vm_compute; [reflexivity|discriminate]. Defined.

Lemma engine_rules_good_witness :
  ∃ e, from_override_json None = Ok e ∧ good_engine e.
Proof.
  eexists. split; [reflexivity|].
  refine (proj1 (engine_rules_good None _ _)). reflexivity.
Defined.

Lemma snapshot_replaces_witness :
  match with_snapshot engine_demo (snapshot_demo "v1") with
  | Ok e1 => with_snapshot e1 (snapshot_demo "v2") = with_snapshot engine_demo (snapshot_demo "v2")
  | Err _ => False
  end.
Proof.
  destruct (with_snapshot engine_demo (snapshot_demo "v1")) as [e1|e] eqn:He.
  - exact (proj1 (snapshot_replaces engine_demo (snapshot_demo "v1") (snapshot_demo "v2") e1 He)).
  - vm_compute in He. discriminate.
Defined.

Lemma remote_snapshot_valid_witness :
  fetch_remote_pricing_snapshot (Err "down") (Err "down") =
    Err "all remote pricing sources failed or returned no Anthropic rules".
Proof.
  assert (∀ m, ∃ text, rules_to_str m = Ok text) as Htext by (intros m; exists "rules"; reflexivity).
  pose proof (remote_snapshot_valid (Err "down") (Err "down") Htext) as Hr.
  destruct (fetch_remote_pricing_snapshot _ _) as [s|e] eqn:He.
  - exfalso. vm_compute in He. discriminate.
  - f_equal. exact (proj1 Hr).
Defined.

(** ** Observed responses *)

Definition newline_text : string := String "010" "".
Definition event_text : string := "data: body" +:+ newline_text +:+ newline_text.

Lemma sse_parses_lines_witness :
  sse_finish (sse_feed sse_parser_default event_text) =
    (sse_lines sse_parser_default (split_on newline event_text)) <| sp_line := "" |>.
Proof. apply (sse_parses_lines sse_parser_default event_text); vm_compute; reflexivity. Defined.

Lemma stopped_parser_is_final_witness :
  let p := RP_Json (json_parser_default <| jp_invalid := true |>) in
  rp_feed p "more" = p ∧ rp_finish p = p.
Proof.
  split; apply (stopped_parser_is_final (RP_Json (json_parser_default <| jp_invalid := true |>)));
    left; reflexivity.
Defined.

Definition service_demo : UsageService :=
  mkService engine_demo [] false true 8 [] [] health_default.

Definition attempt_demo : UsageAttempt := attempt_begin "attempt" 0 0 1 1 "claude-demo" false.

Definition steps_demo : list (StreamStep * SubmitClock) :=
  [(SS_Chunk "bo", mkSubmitClock 1 1); (SS_Pending, mkSubmitClock 1 1);
   (SS_Chunk "dy", mkSubmitClock 2 2)].

Lemma recorded_exactly_once_witness :
  ∃ s', stream_run (Some (observer_new attempt_demo false)) service_demo
          (steps_demo ++ (SS_End, mkSubmitClock 3 3) :: [(SS_Drop, mkSubmitClock 4 4)])
        = Done (None, s') ∧
    length (sv_queue s') = 1%nat ∧ Recorded service_demo attempt_demo s'.
Proof.
  eexists. split; [vm_compute; reflexivity|]. split; [vm_compute; reflexivity|].
  refine (proj2 (recorded_exactly_once service_demo attempt_demo false steps_demo SS_End
            (mkSubmitClock 3 3) [(SS_Drop, mkSubmitClock 4 4)] None _ _ _));
    [right; left; reflexivity|vm_compute; reflexivity].
Defined.

Lemma record_effect_witness :
  queue_bounded (complete_without_usage service_demo attempt_demo true None (mkSubmitClock 1 1)).
Proof.
  refine (proj1 (record_effect service_demo attempt_demo _ _ _)).
  - exact (R_none service_demo attempt_demo true None (mkSubmitClock 1 1)).
  - vm_compute. discriminate.
Defined.

(** ** The in-memory cache *)

Lemma slots_within_limit_witness :
  0 ≤ Memory.slot_count (Memory.run Memory.new
        [Memory.AcquireSlot "k" 1 0; Memory.AcquireSlot "k" 1 0; Memory.ReleaseSlot "k"]) "k" ≤ 1.
Proof. apply (MemoryFacts.slots_within_limit "k" 1); [lia|reflexivity]. Defined.

Lemma session_sticks_witness :
  (Memory.get_session_account_id "h" 5
     (Memory.run (Memory.set_session_account_id "h" 7 10 0 Memory.new).2
        [Memory.GetSession "h" 3; Memory.SetSession "other" 8 10 3; Memory.DeleteSession "x"])).1
  = Ok (Some 7).
Proof. apply (MemoryFacts.session_sticks "h" 7 10 0); [reflexivity|lia]. Defined.

Lemma lock_excludes_witness :
  (Memory.acquire_lock "k" "b" 10 5
     (Memory.run (Memory.acquire_lock "k" "a" 10 0 Memory.new).2
        [Memory.AcquireLock "k" "c" 10 3; Memory.ReleaseLock "k" "b"])).1 = Ok false.
Proof.
  apply (MemoryFacts.lock_excludes "k" "a" 10 0 Memory.new _ _ "b" 10 5);
    [reflexivity|reflexivity|lia].
Defined.

(** ** Accounts *)

Definition account_demo (id priority : Z) : Account :=
  mkAccount id "name" "mail" AS_Active AT_Oauth "" "access" "refresh" (Some (from_secs 900)) None ""
    "" "device" (VObject ∅) (VObject ∅) (VObject ∅) BM_Strip None None None 3 priority None None ""
    false 0 (VObject ∅) None 0 0.

Definition table_demo : AccountStore :=
  account_store_new {[1 := account_demo 1 50; 2 := account_demo 2 10]} 3.

Definition accounts_demo : AccountService MemoryStore :=
  mkAccountService table_demo Memory.new limit_store_new ∅.

Definition select_clock (t : Instant) : SelectClock :=
  mkSelectClock t t (λ _, t) t t (λ _ _, t) t.

Definition first_draw : nat → nat := λ _, 0%nat.

Lemma table_inv_demo : table_inv table_demo.
Proof.
  split; [|done]. intros id a. simpl. rewrite lookup_insert_Some, lookup_singleton_Some.
  intros [[<- <-]|[_ [<- <-]]]; simpl; lia.
Qed.

Lemma draws_in_range_demo : draws_in_range first_draw.
Proof. intros n Hn. exact Hn. Qed.

Lemma table_inv_preserved_witness :
  table_inv (create (account_demo 0 50) 0 table_demo).2 ∧
  table_inv (store_delete 1 table_demo).2.
Proof.
  destruct (table_inv_preserved table_demo table_inv_demo)
    as (Hc & _ & _ & _ & _ & _ & _ & _ & _ & _ & Hd & _).
  split; [apply Hc|apply Hd].
Defined.

(** A resolution at one second, and one when the token is about to expire. *)
Definition resolve_demo : ResolveEnv :=
  mkResolveEnv (from_secs 1) (from_secs 1) (from_secs 1) "owner" (λ _, from_secs 1) (λ _ s, s).

Definition late_resolve : ResolveEnv :=
  mkResolveEnv (from_secs 800) (from_secs 800) (from_secs 1) "owner" (λ _, from_secs 800) (λ _ s, s).

(** An answer 429 to a usage query. *)
Definition after_usage : AccountService MemoryStore :=
  accounts_demo <| sa_usage_cooldown := {[1 := from_secs 61]} |>.

Lemma first_usage_eq :
  refresh_usage (λ _ _, Err NotFound) (λ _ _, Err (TooManyRequests "slow down")) accounts_demo 1
    (from_secs 1) (from_secs 1) resolve_demo
  = Done (Err (TooManyRequests "slow down"), true, after_usage).
Proof. vm_compute. reflexivity. Qed.

(** The first choice of a session, computed. *)
Definition first_choice : outcome (result AppError Account * AccountService MemoryStore) :=
  select_account accounts_demo "h" [] [] Opus first_draw (select_clock 1).

Definition chosen : Account :=
  Eval vm_compute in
    match first_choice with Done (Ok a, _) => a | _ => account_demo 0 0 end.

Definition after_choice : AccountService MemoryStore :=
  Eval vm_compute in match first_choice with Done (_, s) => s | _ => accounts_demo end.

Lemma first_choice_eq :
  select_account accounts_demo "h" [] [] Opus first_draw (select_clock 1)
  = Done (Ok chosen, after_choice).
Proof. vm_compute. reflexivity. Qed.

Lemma select_account_sound_witness : acc_id chosen = 2 ∧ is_schedulable chosen = true.
Proof.
  split; [reflexivity|].
  exact (proj1 (proj2 (proj2 (select_account_sound accounts_demo "h" [] [] Opus first_draw
           (select_clock 1) chosen after_choice table_inv_demo first_choice_eq)))).
Defined.

Lemma select_account_total_witness :
  ∃ r s', select_account accounts_demo "" [1; 2] [] Opus first_draw (select_clock 1) = Done (r, s').
Proof.
  destruct (select_account_total accounts_demo "" [1; 2] [] Opus first_draw (select_clock 1)
    table_inv_demo eq_refl draws_in_range_demo) as (r & s' & Hs & _).
  exists r, s'. exact Hs.
Defined.

Definition call_demo (t : Instant) : SelectCall :=
  mkSelectCall "h" [] [] Opus first_draw (select_clock t).

(** Account 2 is disabled; the next selection takes another one. *)
Definition disabled_demo : AccountService MemoryStore :=
  accounts_demo <| sa_store := (disable_account 2 AS_Disabled "off" None 5 table_demo).2 |>.

Lemma disabled_never_selected_witness :
  match select_call disabled_demo (call_demo 6) with
  | Done (Ok b, _) => acc_id b ≠ 2
  | _ => False
  end.
Proof.
  assert (match select_call disabled_demo (call_demo 6) with
          | Done (Ok b, _) => true | _ => false end = true) as Hs by (vm_compute; reflexivity).
  destruct (select_call disabled_demo (call_demo 6)) as [[[b|] s']|] eqn:Hsel; [|discriminate Hs..].
  unfold select_call in Hsel. destruct (select_account_steps 2 _ _ _ _ _ _ _ _ _ [] Hsel) as [fl Hrun].
  refine (disabled_never_selected 2 AS_Disabled "off" None 5 accounts_demo _ _ [] _ table_inv_demo
            eq_refl _ eq_refl _ Hrun b _); [discriminate|intros x Hx; by apply elem_of_nil in Hx|left].
Defined.

Lemma stale_list_outlives_disable_witness :
  ∃ v st1 st2, schedulable_query table_demo = (Ok v, st1) ∧
    disable_account 2 AS_Disabled "off" None 5 st1 = (Ok tt, st2) ∧
    ∃ a, listed (from_secs 20) (fill_schedulable (from_secs 1) v st2) a ∧ acc_id a = 2.
Proof.
  eexists _, _, _. split; [reflexivity|]. split; [reflexivity|].
  refine (proj2 (proj2 (stale_list_outlives_disable 2 (account_demo 2 10) AS_Disabled "off" None 5
            (from_secs 1) _ table_demo _ _ table_inv_demo _ _ _ eq_refl eq_refl) (from_secs 20)) _);
    [reflexivity|reflexivity|discriminate|vm_compute; reflexivity].
Defined.

Lemma session_affinity_witness :
  select_account after_choice "h" [] [] Sonnet first_draw (select_clock 9)
  = Done (Ok chosen, after_choice).
Proof.
  refine (session_affinity accounts_demo after_choice after_choice after_choice "h" [] [] Opus
            first_draw (select_clock 1) chosen [] [] [] Sonnet first_draw (select_clock 9) chosen
            eq_refl eq_refl first_choice_eq eq_refl eq_refl eq_refl _ _ _);
    vm_compute; [discriminate|reflexivity|reflexivity].
Defined.

Lemma resolved_token_usable_witness :
  (∃ now row, reads_clock resolve_demo now ∧ unexpired_token now row "access") ∨
  tokens_stored (λ _ _, Err NotFound) 1 table_demo table_demo "access".
Proof.
  apply (resolved_token_usable (λ _ _, Err NotFound) accounts_demo (account_demo 1 50) resolve_demo
           "access" accounts_demo).
  vm_compute. reflexivity.
Defined.

Lemma refresh_single_flight_witness :
  let s := accounts_demo <| sa_cache :=
             (Memory.acquire_lock (oauth_lock_key 1) "other" OAUTH_LOCK_TTL 0 Memory.new).2 |> in
  resolve_oauth_access_token (λ _ _, Err NotFound) s (account_demo 1 50) late_resolve
  = resolve_oauth_access_token (λ _ _, Err Unauthorized) s (account_demo 1 50) late_resolve.
Proof.
  intros s.
  pose proof (refresh_single_flight s (account_demo 1 50) late_resolve ltac:(vm_compute; discriminate))
    as Hs.
  transitivity (resolve_oauth_access_token (λ _ _, Err NotFound) s (account_demo 1 50) late_resolve);
    [reflexivity|symmetry; exact (proj1 (Hs (λ _ _, Err Unauthorized)))].
Defined.

Lemma usage_asked_once_a_minute_witness :
  ∃ r' s3, refresh_usage (λ _ _, Err NotFound) (λ _ _, Ok (VObject ∅)) after_usage 1
             (from_secs 50) (from_secs 50) resolve_demo = Done (r', false, s3).
Proof.
  exact (usage_asked_once_a_minute (λ _ _, Err NotFound) (λ _ _, Err (TooManyRequests "slow down"))
    accounts_demo 1 (from_secs 1) (from_secs 1) resolve_demo (Err (TooManyRequests "slow down"))
    after_usage first_usage_eq after_usage (λ _ _, Err NotFound) (λ _ _, Ok (VObject ∅))
    (from_secs 50) (from_secs 50) resolve_demo eq_refl eq_refl).
Defined.

(** ** Requests *)

Definition gateway_demo : GatewayService MemoryStore :=
  mkGateway accounts_demo service_demo [] [].

Definition request_demo : GatewayRequest :=
  mkGatewayRequest "POST" "/v1/messages" "" [] (Ok "body") false.

Definition absorb_demo : AbsorbClock := clock_at (from_secs 1).

Definition env_demo : GatewayEnv :=
  mkGatewayEnv (select_clock 1) first_draw resolve_demo "attempt" 0 0 0 absorb_demo
    header_draws_demo body_draws_demo.

Definition answer_demo (status : Z) : UpstreamResponse :=
  mkUpstreamResponse status [("x-litellm-version", "1"); ("server", "up"); ("retry-after", "30")]
    [SI_Chunk "bo"; SI_Chunk "dy"].

Definition serve_demo (status : Z) : outcome GatewayResponse * GatewayService MemoryStore :=
  handle_request (λ _ _, Err NotFound) (λ _, U_Response (answer_demo status)) gateway_demo request_demo
    None env_demo (mkSubmitClock 1 1).

(** A request whose body the client reads to the end and drops. *)
Definition served_system : System MemoryStore :=
  mkSystem (serve_demo 200).2 (answer_bodies (serve_demo 200).1 ++ []).

Lemma accounted_demo : accounted Memory.slot_count (mkSystem gateway_demo []).
Proof. intros key. reflexivity. Qed.

Lemma slots_never_leak_witness : accounted Memory.slot_count served_system.
Proof.
  refine (proj1 (slots_never_leak Memory.slot_count (mkSystem gateway_demo []) served_system
                   accounted_demo _)).
  apply rtc_once. eapply Sy_request. unfold serve_demo. apply surjective_pairing.
Defined.

Lemma upstream_errors_hidden_witness :
  match serve_demo 500 with
  | (Done r, _) =>
      gr_status r = 500 ∧ gr_body r = B_Text GENERIC_5XX_BODY ∧
      Forall (λ kv, is_trace_header (to_ascii_lowercase kv.1) = false) (gr_headers r)
  | _ => False
  end.
Proof.
  assert (match serve_demo 500 with
          | (Done r, _) => gr_status r = 500 ∧ gr_body r = B_Text GENERIC_5XX_BODY
          | _ => False end) as Hs by (vm_compute; split; reflexivity).
  destruct (serve_demo 500) as [[r|] g'] eqn:Hr; [|exact Hs].
  destruct Hs as [Hs Hb]. split; [exact Hs|]. split; [exact Hb|].
  refine (proj2 (proj2 (upstream_errors_hidden _ _ _ _ _ _ _ r g' Hr)) _). rewrite Hs. lia.
Defined.

Definition upstream_request_demo : UpstreamRequest := mkUpstreamRequest "POST" "" ∅ "" "" "".

Definition forward_demo (status : Z)
    : outcome (result AppError GatewayResponse) * GatewayService MemoryStore :=
  forward_request (λ _, U_Response (answer_demo status)) gateway_demo upstream_request_demo
    (account_demo 2 10) "slot" Opus None false false env_demo.

Lemma forbidden_account_leaves_witness :
  Forall (λ r, ∀ b, r = Ok b → acc_id b ≠ 2)
    (select_run (gw_accounts (forward_demo 403).2) [call_demo 6; call_demo (from_secs 40)]).
Proof.
  apply (forbidden_account_leaves (λ _, U_Response (answer_demo 403)) gateway_demo
           upstream_request_demo (account_demo 2 10) "slot" Opus None false false env_demo
           (answer_demo 403) (forward_demo 403).1);
    [exact table_inv_demo|reflexivity|reflexivity|reflexivity|apply surjective_pairing].
Defined.

(** Account 2 was throttled; then its usage was asked, and its row's cache was emptied. *)
Definition throttled_demo : GatewayService MemoryStore :=
  let g := (forward_demo 429).2 in
  let svc := gw_accounts g in
  g <| gw_accounts :=
    svc <| sa_limits := (ingest_usage_json (sa_limits svc) 2 (VObject ∅) (from_secs 1)).2 |> |>.

Lemma throttled_demo_since : no_429_since 2 (forward_demo 429).2 throttled_demo.
Proof.
  eapply (NS_usage _ _ _ 2 (VObject ∅) (from_secs 1)); [apply NS_now|]. vm_compute. reflexivity.
Qed.

Lemma throttled_account_avoided_witness :
  match select_account (gw_accounts throttled_demo) "" [] [] Sonnet first_draw
          (select_clock (from_secs 2)) with
  | Done (Ok b, _) => acc_id b ≠ 2
  | _ => False
  end.
Proof.
  assert (match select_account (gw_accounts throttled_demo) "" [] [] Sonnet first_draw
          (select_clock (from_secs 2)) with Done (Ok b, _) => true | _ => false end = true) as Hs
    by (vm_compute; reflexivity).
  destruct (select_account _ _ _ _ _ _ _) as [[[b|] s']|] eqn:Hsel; [|discriminate Hs..].
  refine (throttled_account_avoided (λ _, U_Response (answer_demo 429)) gateway_demo
            upstream_request_demo (account_demo 2 10) "slot" Opus None false false env_demo
            (answer_demo 429) (forward_demo 429).1 (forward_demo 429).2 eq_refl eq_refl
            eq_refl _ _ _ (surjective_pairing _) throttled_demo _ _ _ _ _ _ _ _
            throttled_demo_since table_inv_demo (or_introl eq_refl) _ _ Hsel);
    [vm_compute; reflexivity..| |]; intros; vm_compute; reflexivity.
Defined.
