(* ===== verification/RewriteExamples.v ===== *)
(** * RewriteExamples: the theorems on rewriting at concrete inputs *)

From S2P Require Import Prelude Text F64 Json Http Model Cache Limit Pricing UsageParse Usage.
From S2P Require Import Identity AccountStore Account GatewayHeaders Rewriter RewriteBody RewriterFacts.
From S2P Require Import RewriteBodyFacts RewriteTextFacts TokenStore Gateway Demo GatewayFacts.
From S2P Require Import Examples.

(** ** Headers *)

Definition client_headers_demo : gmap string string :=
  {["user-agent" := "claude-cli/1.0 (external, cli)"; "authorization" := "Bearer mine";
    "x-stainless-os" := "Plan9"; "anthropic-beta" := "mine-1, oauth-2025-04-20"]}.

Definition mac_account : Account :=
  (account_demo 1 50) <| acc_canonical_env := env_to_value (dp "arm64" "v1" "kitty" "npm") |>
    <| acc_device_id := "device" |> <| acc_organization_uuid := Some "org" |>.

Lemma headers_out_os :
  rewrite_headers client_headers_demo mac_account CT_ClaudeCode "claude-opus-5" (VObject ∅)
    header_draws_demo !! "X-Stainless-OS" = Some "MacOS".
Proof. vm_compute. reflexivity. Qed.

Lemma headers_whitelisted_witness :
  is_allowed_header "x-stainless-os" = true
  ∧ resolve_wire_casing "X-Stainless-OS" = "X-Stainless-OS".
Proof.
  pose proof (headers_whitelisted _ _ _ _ _ _ _ _ headers_out_os) as (Ha & Hw & _).
  split; [exact Ha|exact Hw].
Defined.

(** ** Messages *)

Definition chat_demo : Value :=
  VObject {["model" := VString "claude-opus-5[1m]"; "top_p" := of_i64 1;
            "messages" := VArray [VObject {["role" := VString "user"; "content" := VString "hi"]}]]}.

Definition chat_out (ct : ClientType) : outcome Value :=
  rewrite_messages chat_demo mac_account ct body_draws_demo.


(** A message with an empty text and another one; the printed body has a placeholder. *)
Definition blocks_demo : Value :=
  VObject {["model" := VString "claude-opus-5[1m]";
            "messages" := VArray [VObject {["role" := VString "user";
              "content" := VArray [VObject {["type" := VString "text"; "text" := VString ""]};
                                   VObject {["type" := VString "text"; "text" := VString "hi"]}]]}]]}.

Definition json_blocks : JsonText := {|
  json_from_str s := if String.eqb s "blocks" then Ok blocks_demo else Err "expected value";
  json_to_string v := Ok "{cch=00000}";
  float_to_string f := "0.5";
|}.

Definition blocks_out : outcome string :=
  @rewrite_body json_blocks _ _ _ "blocks" "/v1/messages" (mac_account <| acc_billing_mode := BM_Rewrite |>)
    CT_ClaudeCode body_draws_demo.

Lemma client_messages_kept_witness :
  match blocks_out with
  | Done out => attested "{cch=00000}" out ∧
      ∃ v msg, vget v "messages" = Some (VArray [msg]) ∧ vget msg "role" = Some (VString "user") ∧
        vget v "model" = Some (VString "claude-opus-5")
  | Panic => False
  end.
Proof.
  destruct blocks_out as [out|] eqn:Hout; [|vm_compute in Hout; discriminate Hout].
  destruct (@client_messages_kept json_blocks _ _ _ _ "blocks" "/v1/messages"
    (mac_account <| acc_billing_mode := BM_Rewrite |>) body_draws_demo blocks_demo out eq_refl
    ltac:(discriminate) eq_refl Hout) as (v & [(l & Hl & Hf) Hmodel _ _] & Ho).
  rewrite decide_True in Ho by (split; reflexivity). split; [exact Ho|].
  inversion Hf as [|? msg ? l' Hm Hnil]; subst. inversion Hnil; subst. exists v, msg.
  split; [exact Hl|]. split; [rewrite (proj1 Hm "role") by discriminate; reflexivity|].
  destruct Hmodel as [(s & Hs & Hv)|[_ Hno]].
  - assert (s = "claude-opus-5") as ->; [|exact Hv].
    apply (inj Some) in Hs. injection Hs as Hs. apply (strip_suffix_spec "[1m]") in Hs.
    vm_compute in Hs. congruence.
  - destruct (Hno "claude-opus-5" eq_refl).
Defined.

(** A panic that a client causes, and one that the random bytes cause. *)
Lemma messages_panic_iff_witness :
  rewrite_messages (VArray []) mac_account CT_API body_draws_demo = Panic
  ∧ rewrite_messages (VObject ∅) (mac_account <| acc_billing_mode := BM_Rewrite |>) CT_ClaudeCode
      (mkBodyDraws [] (0, 7) (λ _ _ low _, low)) = Panic.
Proof.
  split.
  - apply (messages_panic_iff (VArray []) mac_account CT_API body_draws_demo); [simpl; lia..|].
    reflexivity.
  - apply (messages_panic_iff (VObject ∅) (mac_account <| acc_billing_mode := BM_Rewrite |>)
             CT_ClaudeCode (mkBodyDraws [] (0, 7) (λ _ _ low _, low))); [simpl; lia..|].
    split; [reflexivity|]. split; reflexivity.
Defined.

Definition events_demo : list Value := [VObject {["baseUrl" := VString "me"]}].

Definition batch_demo : Value := VObject {["events" := VArray events_demo]}.

Lemma event_batch_identity_witness :
  ∃ l', vget (rewrite_event_batch mac_account body_draws_demo batch_demo) "events" = Some (VArray l')
        ∧ length l' = 1%nat.
Proof.
  destruct (event_batch_identity mac_account body_draws_demo batch_demo events_demo eq_refl)
    as (l' & Hl & Hf & _).
  exists l'. split; [exact Hl|]. symmetry. exact (Forall2_length _ _ _ Hf).
Defined.

Lemma identity_reads_back_witness :
  ∃ env vs_env vs_prompt vs_process,
    generate_canonical_identity "device" (λ _, 12%nat) (λ _, 0%nat)
    = Done ("device", vs_env, vs_prompt, vs_process)
    ∧ parse_canonical_env vs_env = env ∧ env ∈ env_presets.
Proof.
  destruct (identity_reads_back "device" (λ _, 12%nat) (λ _, 0%nat))
    as (env & prompt & process & v1 & v2 & v3 & Hg & He & Hin & _).
  - apply Nat.ltb_lt. reflexivity.
  - apply Nat.ltb_lt. reflexivity.
  - exists env, v1, v2, v3. split; [exact Hg|]. split; [exact He|exact Hin].
Defined.

(** ** Requests *)

Lemma upstream_sees_accounts_only_witness :
  handle_request (λ _ _, Err NotFound) (λ _, U_Response (answer_demo 200)) gateway_demo request_demo
    None env_demo (mkSubmitClock 1 1)
  = handle_request (λ _ _, Err NotFound)
      (λ ureq, if String.eqb (ur_host ureq) "api.anthropic.com"
               then U_Response (answer_demo 200) else U_Failed true)
      gateway_demo request_demo None env_demo (mkSubmitClock 1 1).
Proof.
  apply (upstream_sees_accounts_only (C := MemoryStore) (λ _ _, Err NotFound)); [exact table_inv_demo|].
  intros ureq [a Hs]. rewrite (sent_host _ _ _ _ _ _ _ Hs). reflexivity.
Defined.

(** A reader and a printer that know the empty object. *)
Definition json_empty : JsonText := {|
  json_from_str s := if String.eqb s "{}" then Ok (VObject ∅) else Err "expected value";
  json_to_string v :=
    Ok (match v with VObject m => if bool_decide (m = ∅) then "{}" else "?" | _ => "?" end);
  float_to_string f := "0.5";
|}.

Lemma json_empty_laws : @JsonLaws json_empty.
Proof.
  split; [intros v; eexists; reflexivity|]. intros v s v' ks Hp Hr. simpl in *. injection Hp as <-.
  destruct v as [| | | | |m]; try discriminate Hr. case_bool_decide; [|discriminate Hr].
  injection Hr as <-. by subst m.
Qed.

Definition is_done {A} (o : outcome A) : bool := match o with Done _ => true | Panic => false end.

Definition empty_request : outcome (string * gmap string string * string * bool) :=
  @rewrite_request json_empty (@rewriter_service json_empty _ _ _) "{}" "/v1/messages" ∅
    mac_account CT_API env_demo.

Lemma empty_request_done : is_done empty_request = true.
Proof. vm_compute. reflexivity. Qed.

Lemma session_marker_removed_witness :
  match empty_request with
  | Done (b, _, _, _) => ∀ v, @json_from_str json_empty b = Ok v →
                              vpath v ["metadata"; "_session_id"] = None
  | Panic => False
  end.
Proof.
  pose proof empty_request_done as Hd.
  destruct empty_request as [[[[b h] m] st]|] eqn:Hr; [|discriminate Hd].
  intros v Hv. pose proof json_empty_laws as Hl.
  exact (@session_marker_removed json_empty (@rewriter_service json_empty _ _ _) Hl
           "{}" "/v1/messages" ∅ mac_account env_demo b h m st v Hr Hv).
Defined.

Definition text_request : outcome (string * gmap string string * string * bool) :=
  rewrite_request "not json" "/v1/messages" ∅ mac_account CT_API env_demo.

Lemma text_request_done : is_done text_request = true.
Proof. vm_compute. reflexivity. Qed.

Lemma unreadable_body_replaced_witness :
  match text_request with Done (b, _, _, _) => b = "{}" | Panic => False end.
Proof.
  pose proof text_request_done as Hd.
  destruct text_request as [[[[b h] m] st]|] eqn:Hr; [|discriminate Hd].
  exact (unreadable_body_replaced "not json" "/v1/messages" ∅ mac_account CT_API env_demo
           "expected value" b h m st eq_refl Hr).
Defined.
