(* ===== verification/UsageExamples.v ===== *)
(** * UsageExamples: the theorems on usage and on measured requests at concrete inputs

    A calendar of thirty-day months, a few events, and runs of the tasks. A measurement is
    written as its identifier: a table of two rows, and runs in which one request is answered
    and another is dropped. *)

From S2P Require Import Prelude Text F64 Json Http Model Pricing UsageParse Usage UsageStore.
From S2P Require Import UsageReport UsageTasks UsageTasksFacts UsageReportFacts Performance.
From S2P Require Import PerformanceStore PerformanceTasks PerformanceFacts PerformanceRuns.
From S2P Require Import PerformanceRequestFacts Demo.

(** ** A calendar *)

#[local] Instance calendar_demo : Calendar := {
  naive_min := -90000;
  naive_max := 90000;
  days_from_monday d := (d + 3) mod 7;
  month_first d := d - d mod 30;
  format_date := int_to_string;
  parse_date s := parse_int (ITy (-90000) 90000) s;
}.

Lemma parse_int_range t s z : parse_int t s = Some z → ity_min t ≤ z ≤ ity_max t.
Proof.
  unfold parse_int. intros Hp. repeat case_match; simplify_option_eq;
    match goal with H : checked _ _ = Some _ |- _ => apply checked_Some in H as [-> ?] end; done.
Qed.

#[local] Instance calendar_demo_laws : CalendarLaws.
Proof.
  split; simpl.
  - lia.
  - intros d Hd. unfold in_chrono. simpl. unfold day_ns, from_secs. apply andb_true_iff.
    rewrite !Z.leb_le. lia.
  - intros s d Hd. by apply parse_int_range in Hd.
  - intros d. apply Z.mod_pos_bound. lia.
  - intros d. rewrite Zplus_mod_idemp_l. f_equal. lia.
  - intros d. pose proof (Z.mod_pos_bound d 30). lia.
  - intros d d' Hd. pose proof (Z.mod_pos_bound d 30). pose proof (Z.mod_pos_bound d' 30).
    pose proof (Z.div_mod d 30). pose proof (Z.div_mod d' 30). lia.
Qed.

(** ** Reports *)

Definition unpriced_costs : UsageCosts := mkCosts None None None None None 0 false 12.

Definition event_demo (key : string) (day account : Z) (model : string) : UsageEvent :=
  mkEvent key None None 0 day account 1 model (mkTokens 10 2 0 0 0) unpriced_costs "v" None 200 false.

Definition store_demo : UsageStore := mkUsageStore
  [mkUsageRow 1 (event_demo "a" 100 1 "claude-demo"); mkUsageRow 2 (event_demo "b" 103 2 "other");
   mkUsageRow 3 (event_demo "c" 500 1 "claude-demo")] 4 None [].

Definition query_demo : UsageReportQuery :=
  mkReportQuery 99 110 UG_Week None None None GB_Account.

Lemma store_demo_countable : countable (matching_events (report_filters query_demo) store_demo).
Proof. split; [|reflexivity]. repeat constructor; unfold event_ok; simpl; lia. Qed.

Lemma report_correct_witness :
  ∃ r, report query_demo ∅ ∅ store_demo = (Done (Ok r), store_demo)
    ∧ um_request_count (rp_summary r) = 2.
Proof.
  assert (naive_min + 7 ≤ rq_start_date query_demo ≤ rq_end_date query_demo) as Hstart by (simpl; lia).
  assert (rq_end_date query_demo < naive_max) as Hend by (simpl; lia).
  destruct (report_correct query_demo ∅ ∅ store_demo eq_refl store_demo_countable Hstart Hend)
    as (r & Hr & Hs & _).
  exists r. split; [exact Hr|rewrite Hs; reflexivity].
Defined.

Definition usage_query_demo : UsageQuery :=
  mkUsageQuery None (Some "90") (Some "100") None (Some 3) (Some " ") None.

Lemma usage_query_bounds_witness :
  match validate_usage_query usage_query_demo (400 * day_ns) with
  | Done (Ok q) =>
      400 - 364 ≤ rq_start_date q ≤ rq_end_date q ∧ rq_end_date q ≤ 400
      ∧ rq_end_date q - rq_start_date q < 365
      ∧ is_none_or (rq_account_id q) (λ id, 0 <? id) = true
      ∧ is_none_or (rq_api_token_id q) (λ id, 0 <? id) = true
      ∧ rq_model q ≠ Some ""
  | Done (Err e) => ∃ m, e = BadRequest m
  | Panic => uq_start_date usage_query_demo = None ∧
      ∃ s d, uq_end_date usage_query_demo = Some s ∧ parse_date s = Some d ∧ d < naive_min + 29
  end.
Proof.
  apply (usage_query_bounds usage_query_demo (400 * day_ns) 400); [reflexivity|simpl; lia].
Defined.

(** An end date in the first month of the calendar, which is no date of the demo's
    retention window either, takes the handler down instead of being refused. *)
Example early_end_date_panics :
  validate_usage_query (mkUsageQuery None None (Some "-89990") None None None None) (400 * day_ns)
  = Panic.
Proof. reflexivity. Qed.

(** ** Tasks *)

Definition usage_rule_demo : PricingRule :=
  mkRule "claude-demo" (Some 3000000000) (Some 15000000000) (Some 3750000000) (Some 6000000000)
    (Some 300000000) None.

Definition usage_engine_demo : PricingEngine := mkEngine {["claude-demo" := usage_rule_demo]} ∅ "v" "".

Definition usage_snapshot_demo : PricingSnapshot := mkSnapshot "v2" {["claude-demo" := usage_rule_demo]}.

#[local] Instance pricing_text_demo : PricingText := {
  overrides_from_str s := Ok ∅;
  snapshot_from_str s := Ok usage_snapshot_demo;
  snapshot_to_str s := Ok "{}";
  rules_to_str m := Ok "rules";
}.

Lemma store_demo_ok : store_ok store_demo.
Proof.
  split_and!; simpl; [|repeat constructor; simpl; lia|lia|repeat constructor; simpl; lia].
  repeat (apply NoDup_cons; split; [set_solver|]). constructor.
Qed.

Definition submit_demo (message : string) : UsageStep :=
  UX_Submit (attempt_begin "attempt" 0 0 1 1 "claude-demo" false)
    (mkParsedUsage (Some message) None (mkTokens 10 2 0 0 0) None true) false None (mkSubmitClock 1 1).

Definition usage_steps_demo : list UsageStep :=
  [submit_demo "m1"; submit_demo "m1"; submit_demo "m2"; UX_Take 1; UX_Delete 101; UX_Write;
   submit_demo "m3"; UX_Take 9].

Lemma events_accounted_witness :
  ∃ st, usage_run (start_inner usage_engine_demo false 0 store_demo) usage_steps_demo = Done st
    ∧ hc_observed (sv_health (ux_service st)) = wrap u64 (accounted st).
Proof.
  destruct (usage_run (start_inner usage_engine_demo false 0 store_demo) usage_steps_demo) as [st|] eqn:Hrun;
    [|exfalso; revert Hrun; vm_compute; discriminate].
  exists st. split; [reflexivity|].
  exact (proj1 (events_accounted usage_engine_demo false 0 store_demo usage_steps_demo st
                  store_demo_ok Hrun)).
Defined.

(** Four events observed: one stored, one a duplicate, one in the writer's hands. *)
Example usage_steps_demo_counts :
  match usage_run (start_inner usage_engine_demo false 0 store_demo) usage_steps_demo with
  | Done st =>
      let h := sv_health (ux_service st) in
      hc_observed h = 4 ∧ hc_persisted h = 1 ∧ hc_duplicate h = 1
      ∧ length (us_rows (ux_store st)) = 3%nat
  | Panic => False
  end.
Proof. vm_compute. repeat split. Qed.

Definition service_with_queue (q : list UsageEvent) : UsageService :=
  mkService usage_engine_demo q false false 0 [] [] health_default.

Definition writing_demo : UsageState :=
  mkUsageState (service_with_queue [event_demo "d" 101 1 "claude-demo"; event_demo "a" 101 1 "other"])
    (mkUsageStore (us_rows store_demo) 4 None [Some "locked"; Some "locked"]) None.

Lemma writer_turn_stores_witness :
  ux_batch (writer_turn 5 writing_demo) = None
  ∧ hc_persisted (sv_health (ux_service (writer_turn 5 writing_demo))) = 1
  ∧ (∀ k, k ∈ dedup_keys (us_rows (ux_store (writer_turn 5 writing_demo))) ↔
      k ∈ dedup_keys (us_rows (ux_store writing_demo)) ∨ k ∈ ["d"; "a"]).
Proof.
  destruct (writer_turn_stores 5 writing_demo ["locked"; "locked"] [] eq_refl
              ltac:(discriminate) eq_refl I) as (Hb & _ & _ & Hk).
  split; [exact Hb|]. split; [reflexivity|exact Hk].
Defined.

Lemma backfill_correct_witness :
  ∃ n s', backfill_unpriced_usage 4 usage_engine_demo store_demo = Some (Ok n, s')
    ∧ n = 2 ∧ (uc_complete ∘ ue_costs ∘ ur_event) <$> us_rows s' = [true; false; true].
Proof.
  eexists _, _. split; [apply (backfill_correct usage_engine_demo 4 store_demo); [apply store_demo_ok|reflexivity|simpl; lia]|].
  split; reflexivity.
Defined.

Lemma retention_correct_witness :
  ∃ s', retention_loop 5 103 store_demo = Some s' ∧ ur_id <$> us_rows s' = [2; 3].
Proof.
  eexists. split; [apply (retention_correct 103 5 store_demo); [reflexivity|simpl; lia]|reflexivity].
Defined.

Definition idle_demo : UsageState := mkUsageState (service_with_queue []) store_demo None.

Lemma restart_restores_pricing_witness :
  ∃ st', refresh_turn 4 (Ok usage_snapshot_demo) 0 idle_demo = Some st'
    ∧ sv_pricing (ux_service (start_inner usage_engine_demo false 0 (ux_store st')))
      = sv_pricing (ux_service st').
Proof.
  destruct (refresh_turn 4 (Ok usage_snapshot_demo) 0 idle_demo) as [st'|] eqn:Hturn;
    [|exfalso; revert Hturn; vm_compute; discriminate].
  exists st'. split; [reflexivity|].
  refine (proj2 (restart_restores_pricing 4 usage_engine_demo usage_snapshot_demo 0 idle_demo st' false 0
                   _ _ eq_refl _ Hturn)).
  - intros json _. reflexivity.
  - right. reflexivity.
  - eexists _, _. split; [vm_compute; reflexivity|reflexivity].
Defined.

(** ** Measured requests *)

#[local] Instance perf_text_demo : PerfText := {
  event_to_str e := Ok (pv_request_id e);
  event_from_str s := Ok (event_new s "instance" 0);
}.

Definition day_ms : Z := 86400000.

(** Milliseconds after the hundredth day, as a time. *)
Definition at_ms (ms : Z) : DateTime := (100 * day_ms + ms) * 1000000.

Definition row_demo (id : string) (ms duration : Z) : PerfRow :=
  mkPerfRow id "instance" (100 * day_ms + ms) (sg_day (100 * day_ms + ms)) None None (Some "claude-demo")
    false "success" (Some duration) None None None None id.

Definition table_demo : PerformanceStore :=
  mkPerfStore [row_demo "a" 10000 700; row_demo "b" 70000 900] [].

Definition filter_demo : PerformanceFilter :=
  mkPerfFilter (100 * day_ms) (100 * day_ms + 3600000) None None None None None None None true 1 20.

Lemma percentile_correct_witness :
  ∃ v, ranked 50 (sort_by f_le (f_of_Z <$> [3; 1; 2])) = Some v ∧ v ∈ f_of_Z <$> [3; 1; 2].
Proof.
  assert (f_of_Z <$> [3; 1; 2] ≠ []) as Hl by done.
  assert (1 ≤ 50 ≤ 100) as Hp by lia.
  destruct (percentile_correct 50 (f_of_Z <$> [3; 1; 2]) Hl Hp) as (v & Hv & Hin & _ & _).
  exists v. split; [exact Hv|exact Hin].
Defined.

Lemma perf_report_correct_witness :
  ∃ r, perf_report filter_demo table_demo = (Ok r, table_demo) ∧ cn_success (pr_counts r) = 2.
Proof.
  assert (pt_faults table_demo = []) as Hf by reflexivity.
  assert (ff_start_ms filter_demo ≤ ff_end_ms filter_demo ≤ ff_start_ms filter_demo + 288 * 86400000)
    as Hr by (unfold filter_demo; simpl; unfold day_ms; lia).
  destruct (perf_report_correct filter_demo table_demo Hf Hr) as (r & Hrep & Hc & _).
  exists r. split; [exact Hrep|]. rewrite Hc. vm_compute. reflexivity.
Defined.

Lemma pages_split_witness :
  ordered filter_demo (pt_rows table_demo) ≡ₚ matching filter_demo (pt_rows table_demo)
  ∧ length (matching filter_demo (pt_rows table_demo)) = 2%nat.
Proof.
  assert (pt_faults table_demo = []) as Hf by reflexivity.
  assert (1 ≤ ff_page_size filter_demo) as Hs by (simpl; lia).
  assert (∀ r, r ∈ pt_rows table_demo →
    event_from_str (pw_event_json r) = Ok (event_new (pw_event_json r) "instance" 0)) as Hd by done.
  destruct (pages_split filter_demo table_demo (λ r, event_new (pw_event_json r) "instance" 0) Hf Hs Hd)
    as (_ & Hp & _).
  split; [exact Hp|vm_compute; reflexivity].
Defined.

(** ** Runs *)

Definition clock_demo (ms : Z) : FinishClock := mkFinishClock (ms * 1000000) (at_ms ms) (at_ms ms).

Definition steps_demo : list PerfStep :=
  [PS_Begin "one" (at_ms 0) 0; PS_Begin "two" (at_ms 1) 1000000;
   PS_Op 0 (H_Bytes "data") 2000000;
   PS_Response 0 200 false 3000000 (clock_demo 3);
   PS_Poll 0 BP_End 4000000 (clock_demo 4);
   PS_Take 0 (at_ms 5); PS_Begin "three" (at_ms 6) 6000000; PS_Write; PS_Drop 1 (clock_demo 7)].

Lemma requests_measured_once_witness :
  let st := perf_run (mkPerfState (perf_new "instance" 0 true) table_demo None ∅) steps_demo in
  NoDup (ids_of st) ∧ ids_of st = ["a"; "b"; "one"; "two"; "three"].
Proof.
  assert (NoDup (row_ids table_demo ++ begun true steps_demo)) as Hnd.
  { apply (bool_decide_eq_true_1 (NoDup (row_ids table_demo ++ begun true steps_demo))).
    vm_compute. reflexivity. }
  destruct (requests_measured_once "instance" 0 true table_demo steps_demo Hnd) as (_ & Hids & _ & _).
  split; [exact Hids|vm_compute; reflexivity].
Defined.

Definition calls_demo : list ((HandleOp + Z) * Instant) :=
  [(inl (H_Upstream 200 None true), 1000000); (inl (H_Bytes "data"), 2000000);
   (inr 200, 3000000)].

Lemma measurement_timeline_witness :
  let s := foldl (λ s c, observe_call c s) (request_new "one" "instance" 0 0) calls_demo in
  let e := finished_event false 5000000 (at_ms 5) s in
  pv_duration_ms e = Some 5 ∧ pv_first_byte_ms e = Some 2 ∧ is_Some (pv_outcome e).
Proof.
  assert (StronglySorted Z.le ((snd <$> calls_demo) ++ [5000000])) as Hs by (repeat constructor; simpl; lia).
  destruct (measurement_timeline "one" "instance" 0 0 calls_demo false 5000000 (at_ms 5) Hs)
    as (_ & Hd & _ & Ho & _).
  split; [exact Hd|]. split; [vm_compute; reflexivity|exact Ho].
Defined.

Lemma cleanup_deletes_old_witness :
  ∃ s', cleanup_loop 3 101 table_demo = Some s' ∧ pt_rows s' = [].
Proof.
  assert (NoDup (pw_request_id <$> pt_rows table_demo)) as Hnd.
  { apply (bool_decide_eq_true_1 (NoDup (pw_request_id <$> pt_rows table_demo))). vm_compute. reflexivity. }
  destruct (cleanup_deletes_old 101 table_demo Hnd) as (s' & Hs & _ & Hrows).
  exists s'. split; [exact Hs|]. rewrite Hrows; [vm_compute; reflexivity|constructor].
Defined.

Definition rows_query_demo : PerformanceQuery :=
  mkPerfQuery None None (Some 1) None (Some "") None None None None None None (Some 50).

Lemma performance_query_bounds_witness :
  ∃ f, validate_performance (at_ms 0) (at_ms 0) rows_query_demo = Ok f ∧ 1 ≤ ff_page_size f ≤ 100.
Proof.
  destruct (validate_performance (at_ms 0) (at_ms 0) rows_query_demo) as [f|e] eqn:Hv; [|vm_compute in Hv; discriminate].
  exists f. split; [reflexivity|].
  assert (timestamp_millis (at_ms 0) ≤ timestamp_millis (at_ms 0)) as Hn by lia.
  assert (0 ≤ timestamp_millis (at_ms 0) ≤ 10 ^ 15) as Hd by (vm_compute; split; discriminate).
  destruct (performance_query_bounds (at_ms 0) (at_ms 0) rows_query_demo f Hn Hd Hv) as (_ & _ & _ & _ & Hp & _).
  exact Hp.
Defined.
