(* ===== verification/AdminExamples.v ===== *)
(** * AdminExamples: the theorems on the administration, the audit and telemetry at concrete
    inputs

    A client of HTTP that always answers with the same tokens, one request per theorem. *)

From S2P Require Import Prelude Text Config F64 Json Http Model Identity Cache Limit UsageParse.
From S2P Require Import Usage AccountStore Account GatewayHeaders Rewriter RewriteBody.
From S2P Require Import Fingerprint FingerprintFacts OAuthFlow OAuthFacts Telemetry.
From S2P Require Import TelemetryFacts TokenStore Admin AdminFacts Demo Examples.
From S2P Require Import RewriteExamples.

#[local] Existing Instance MemoryFacts.memory_slot_laws.

#[local] Instance http_demo : HttpClient := {
  http_send r := Ok (mkHttpResponse 200 (Ok "tokens"));
  status_text n := int_to_string n;
  read_exchange s := Ok (mkTokenExchange "access-2" "refresh-2" 100 SCOPE_FULL None None);
  read_refresh s := Ok (mkRefreshResponse "access-2" "" 100);
  read_value s := Ok body_demo;
}.

#[local] Instance base64url_demo : Base64Url := {
  base64url_encode s := str_map (λ c, if is_unreserved c then c else "_"%char) s;
}.

Lemma base64url_demo_unreserved s : str_all is_unreserved (base64url_encode s) = true.
Proof.
  induction s as [|c s IH]; [done|]. cbn [base64url_encode base64url_demo str_map str_all] in *.
  rewrite IH. by destruct (is_unreserved c) eqn:Hc; rewrite ?Hc.
Qed.

(** ** Authorizations *)

Definition draws_demo : AuthDraws := mkAuthDraws "state" "verifier" "session" 0 0.
Definition other_draws : AuthDraws := mkAuthDraws "s2" "v2" "other" 5 5.

Definition steps_demo : list FlowStep :=
  [FS_Url SCOPE_INFERENCE "" other_draws; FS_Exchange "unknown" "code" false 6 6].

Lemma authorization_redeemed_once_witness :
  (do_exchange "session" "code#st" false (from_secs 60) 0
     (flow_run (build_auth_url SCOPE_FULL "" draws_demo ∅).2 steps_demo)).1
  = Ok (mkExchangeCode "access-2" "refresh-2" 100 100 SCOPE_FULL "" "" "").
Proof.
  destruct (authorization_redeemed_once base64url_demo_unreserved SCOPE_FULL "" draws_demo ∅ "code#st" false
              (from_secs 60) 0 steps_demo) as (session & _ & Hin & _).
  - by left.
  - by repeat constructor.
  - destruct Hin as [Heq _]; [by repeat constructor|done|].
    etrans; [exact Heq|]. vm_compute. reflexivity.
Defined.

Lemma refresh_oauth_token_correct_witness :
  ∃ t, refresh_oauth_token "refresh" "" 0 = Done (Ok t) ∧ ro_expires_at t = from_secs 100.
Proof.
  destruct (refresh_oauth_token_correct "refresh" "" 0) as [Hok _].
  destruct (Hok (mkRefreshResponse "access-2" "" 100)) as (t & Ht & _ & _ & He & _).
  - by exists (mkHttpResponse 200 (Ok "tokens")).
  - split; [vm_compute; discriminate|vm_compute; reflexivity].
  - exists t. split; [exact Ht|]. by rewrite He.
Defined.

(** ** Edits *)

Definition admin_env_demo : AdminEnv :=
  mkAdminEnv (from_secs 10) (from_secs 10) 0 ("device", VObject ∅, VObject ∅, VObject ∅) (λ _, 0%nat) "UNIQUE"
    resolve_demo "session" "request" draws_demo (λ _, None).

Definition admin_demo : AdminState MemoryStore := mkAdminState accounts_demo (mkTokenStore ∅ 1 []) ∅.

Definition edit_demo : Value := VObject {["name" := VString "new"; "priority" := VNumber (NInt 7)]}.
Definition wide_demo : Value := VObject {["concurrency" := VNumber (NInt 4294967296)]}.
Definition switch_demo : Value := VObject {["status" := VString "disabled"; "name" := VString "new"]}.

Definition edited_demo (updates : Value) : AdminReply * AdminState MemoryStore :=
  match admin_update_account admin_env_demo 1 updates admin_demo with
  | Done (Ok r, s) => (r, s)
  | _ => (AR_Deleted, admin_demo)
  end.

Lemma edit_demo_done : admin_update_account admin_env_demo 1 edit_demo admin_demo
  = Done (Ok (edited_demo edit_demo).1, (edited_demo edit_demo).2).
Proof. vm_compute. reflexivity. Qed.

Lemma wide_demo_done : admin_update_account admin_env_demo 1 wide_demo admin_demo
  = Done (Ok (edited_demo wide_demo).1, (edited_demo wide_demo).2).
Proof. vm_compute. reflexivity. Qed.

Lemma demo_ids row : as_rows (sa_store (an_accounts admin_demo)) !! 1 = Some row → acc_id row = 1.
Proof. intros Hr. vm_compute in Hr. by injection Hr as <-. Qed.

Lemma account_edit_stored_witness :
  ∃ row', as_rows (sa_store (an_accounts (edited_demo edit_demo).2)) !! 1 = Some row'
    ∧ acc_name row' = "new" ∧ acc_email row' = "mail" ∧ acc_priority row' = 7 ∧ acc_concurrency row' = 3.
Proof.
  destruct (account_edit_stored admin_env_demo 1 edit_demo admin_demo _ _ demo_ids edit_demo_done)
    as (row & row' & Hrow & -> & _ & _ & _ & Hed).
  destruct Hed as [Hn He _ _ _ Hc Hp _ _ _ _ _ _ _ _ _ _];
    [rewrite !not_elem_of_cons; split_and!; [vm_compute; discriminate..|apply not_elem_of_nil]|].
  exists row'. vm_compute in Hrow. injection Hrow as <-.
  rewrite Hn, He, Hc, Hp. split_and!; [apply lookup_insert_eq|vm_compute; reflexivity..].
Defined.

Lemma wrapped_concurrency_blocks_witness :
  ∃ row', as_rows (sa_store (an_accounts (edited_demo wide_demo).2)) !! 1 = Some row'
    ∧ acc_concurrency row' = 0
    ∧ (account_acquire_slot accounts_demo 1 (acc_concurrency row')).1 ≠ Ok true.
Proof.
  destruct (wrapped_concurrency_blocks Memory.slot_count admin_env_demo 1 wide_demo 4294967296 admin_demo _ _
              ltac:(vm_compute; discriminate) ltac:(vm_compute; discriminate) demo_ids
              ltac:(vm_compute; reflexivity) ltac:(lia) ltac:(vm_compute; discriminate) wide_demo_done)
    as (row' & Hrow & Hc & Hslot).
  exists row'. split_and!; [exact Hrow|rewrite Hc; vm_compute; reflexivity|].
  apply Hslot. vm_compute. discriminate.
Defined.

Lemma status_switch_drops_the_rest_witness :
  admin_update_account admin_env_demo 1 switch_demo admin_demo
  = admin_update_account admin_env_demo 1 (VObject {["status" := VString "disabled"]}) admin_demo.
Proof.
  apply (status_switch_drops_the_rest admin_env_demo 1 switch_demo admin_demo "disabled");
    [by right|vm_compute; reflexivity|vm_compute; reflexivity].
Defined.

(** ** The password, and the lists of a token *)

Lemma eqb_demo_spec a b : String.eqb a b = true ↔ a = b.
Proof. apply String.eqb_eq. Qed.

Lemma admin_needs_password_witness :
  admin_request (λ _ _, Err NotFound) (λ _ _, Err NotFound) String.eqb "secret" [("x-api-key", "wrong")]
    admin_env_demo (AC_DeleteAccount 1) admin_demo
  = Done (err_json 401 "invalid password", admin_demo).
Proof.
  apply (admin_needs_password (λ _ _, Err NotFound) (λ _ _, Err NotFound) String.eqb eqb_demo_spec).
  left. vm_compute. discriminate.
Defined.

Lemma unreadable_allow_list_witness :
  id_permitted [] (allowed_account_ids (mkApiToken 1 "t" "sk" "1O; 2" "" TS_Active 0 0)) 9 = true.
Proof.
  apply (unreadable_allow_list (mkApiToken 1 "t" "sk" "1O; 2" "" TS_Active 0 0) [] 9);
    [vm_compute; reflexivity|by intros ?%elem_of_nil].
Defined.

(** ** The configuration *)

Definition database_demo (user password : string) : DatabaseConfig :=
  mkDatabaseConfig (Some "postgres") None "db.local" 5432 user password "db".

(** The user and the password are written into the connection string as they are: two
    configurations that differ give the same string. *)
Lemma dsn_not_escaped : dsn (database_demo "app:a" "b") = dsn (database_demo "app" "a:b").
Proof. vm_compute. reflexivity. Qed.

(** ** The audit and telemetry *)

(** ** The audit *)

(** A client whose name is spelled in another way: its entry point is not taken over. *)
Definition odd_agent : string := "Claude-CLI/1.0 (external, sdk-cli)".

Definition odd_headers : list (string * string) :=
  map_to_list (rewrite_headers {["user-agent" := odd_agent]} mac_account CT_ClaudeCode "claude-opus-5"
    (VObject ∅) header_draws_demo).

Definition odd_observation : AuditRequestObservation :=
  build_fingerprint_observation mac_account CT_ClaudeCode odd_agent odd_headers (VObject ∅) "claude-opus-5" true.

Lemma rewritten_requests_unremarkable_witness :
  FM_UaEntrypoint ∈ ao_mismatches odd_observation
  ∧ user_agent_entrypoint odd_agent ≠ user_agent_entrypoint (default "" (map_header odd_headers "user-agent")).
Proof.
  assert (FM_UaEntrypoint ∈ ao_mismatches odd_observation) as Hin.
  { apply (bool_decide_eq_true_1 _). vm_compute. reflexivity. }
  split; [exact Hin|].
  destruct (env_from_value (normalize_canonical_env_json (acc_canonical_env mac_account))) as [env|] eqn:Henv;
    [|exfalso; vm_compute in Henv; discriminate Henv].
  exact (proj2 (proj2 (rewritten_requests_unremarkable {["user-agent" := odd_agent]} mac_account CT_ClaudeCode
    "claude-opus-5" (VObject ∅) header_draws_demo odd_headers env odd_agent true _ Henv (reflexivity _) Hin))).
Defined.

(** A request that is received, one whose end finds the worker behind, and a flush. *)
Definition audit_demo : list AuditStep :=
  [AT_Begin odd_observation; AT_Begin odd_observation; AT_Receive (λ _, 1); AT_Response 0 200; AT_Receive (λ _, 2); AT_Drop 0;
   AT_Flush 3].

Lemma audited_requests_accounted_witness :
  let s := audit_run (audit_system true true) audit_demo in
  flight_of 1 (ax_worker s) + begins_in 1 (fa_queue (ax_audit s))
  = open_of 1 (ax_guards s) + ends_in 1 (fa_queue (ax_audit s)) + times_in 1 (ax_lost s)
  ∧ reported_in 1 (aw_records (ax_worker s)) + counted_of 1 (ax_worker s)
    + begins_in 1 (fa_queue (ax_audit s)) = 2.
Proof.
  destruct (audited_requests_accounted true true audit_demo 1) as [Hf Hc]; [simpl; lia|].
  split; [exact Hf|]. etrans; [exact (Hc eq_refl)|]. reflexivity.
Defined.

Lemma audit_records_safe_witness :
  ∃ r t, r ∈ aw_records (ax_worker (audit_run (audit_system true true) audit_demo))
    ∧ t ∈ record_texts r ∧ recorded_text audit_demo t.
Proof.
  destruct (aw_records (ax_worker (audit_run (audit_system true true) audit_demo))) as [|r rs] eqn:Hr;
    [exfalso; vm_compute in Hr; discriminate Hr|].
  destruct (record_texts r) as [|t ts] eqn:Ht.
  { exfalso. revert Ht. assert (negb (bool_decide (record_texts <$> head
      (aw_records (ax_worker (audit_run (audit_system true true) audit_demo))) = Some []))) as Hne by (vm_compute; exact I).
    rewrite Hr in Hne. simpl in Hne. intros Ht. rewrite Ht in Hne. by rewrite bool_decide_eq_true_2 in Hne. }
  exists r, t. split; [left|]. split; [rewrite Ht; left|].
  apply (audit_records_safe true true audit_demo r t).
  - repeat constructor; eexists _, _, _, _, _, _, _; reflexivity.
  - rewrite Hr. left.
  - rewrite Ht. left.
Defined.

(** ** Telemetry *)

Definition tel_account : Account := mac_account <| acc_auto_telemetry := true |> <| acc_proxy_url := "proxy" |>.

Definition tel_profile : TelemetryRequestProfile :=
  mkTelProfile "claude-opus-5" "" "cli" (Some "cli") None true None None false 1.

Definition activate_env (now : Z) : ActivateEnv := mkActivateEnv now now (λ _ low _, low) f_zero "session".

Definition completion_demo (c : string) : CompletedInferenceObservation :=
  mkObservation c 1 5 "claude-opus-5" None (Some tokens_default) None 5 None None 200 true false.

Definition tick_env (now : Z) : TickEnv :=
  mkTickEnv now now now now (λ _ low _, low) 3 (λ _, f_zero) (λ _, "uuid").

Definition time_text (t : DateTime) : string := "time".

Definition sent_ok : result SendError HttpResponse := Ok (mkHttpResponse 200 (Ok "")).

(** Three requests: one is completed and sent, one cancelled, one given up. *)
Definition tel_steps : list TelStep :=
  let activate c := TT_Activate tel_account "token" c 0 tel_profile (activate_env 0) in
  [activate "a"; activate "b"; activate "c"; TT_Complete (completion_demo "a"); TT_Cancel 1 "b";
   TT_Tick 0 (tick_env (from_secs 1)); TT_Send 0 sent_ok 0; TT_Tick 0 (tick_env (from_secs 1300))].

Definition tel_end : outcome (list (TelemetryService * TelStep) * TelemetryService) :=
  tel_run time_text (telemetry_new table_demo (audit_start true)) tel_steps.

(** What is looked at of the end of the run. *)
Definition tel_end_ok (trace : list (TelemetryService * TelStep)) (s : TelemetryService) : Prop :=
  times (registers 1 "a") trace = 1 ∧ held 1 "a" (ts_sessions s) = 0
  ∧ times (replaces 1 "a") trace = 0 ∧ times (cancels 1 "a") trace = 0 ∧ times (discards 1 "a") trace = 0
  ∧ times (times_out 1 "a") trace = 0 ∧ opt_is_some (ts_sessions s !! 1) = false ∧ length (ts_sent s) = 1%nat.

#[local] Instance tel_end_ok_dec trace s : Decision (tel_end_ok trace s).
Proof. unfold tel_end_ok. apply _. Defined.

Lemma tel_end_checked : ∃ trace s, tel_end = Done (trace, s) ∧ tel_end_ok trace s.
Proof.
  assert (match tel_end with Done (trace, s) => bool_decide (tel_end_ok trace s) | Panic => false end = true) as Hok
    by (vm_compute; reflexivity).
  destruct tel_end as [[trace s]|]; [|discriminate Hok]. apply bool_decide_eq_true in Hok. by exists trace, s.
Qed.

Lemma telemetry_requests_accounted_witness :
  ∃ trace s, tel_end = Done (trace, s)
    ∧ total (λ x, batches time_text 1 "a" x.1 x.2) trace = 1 ∧ loops_of 1 s = 0.
Proof.
  destruct tel_end_checked as (trace & s & Hrun & H1 & H2 & H3 & H4 & H5 & H6 & H7 & _).
  exists trace, s. split; [exact Hrun|].
  destruct (telemetry_requests_accounted time_text _ _ _ _ _ 1 "a" Hrun) as [Ha Hl].
  rewrite Hl, H7. split; [lia|reflexivity].
Defined.

Lemma telemetry_sends_authorised_witness :
  ∃ trace s r, tel_end = Done (trace, s) ∧ ts_sent s = [r] ∧ acc_proxy_url tel_account = hq_proxy r.
Proof.
  destruct tel_end_checked as (trace & s & Hrun & _ & _ & _ & _ & _ & _ & _ & Hlen).
  destruct (ts_sent s) as [|r [|]] eqn:Hr; [discriminate Hlen| |discriminate Hlen].
  exists trace, s, r. split; [exact Hrun|]. split; [exact Hr|].
  destruct (telemetry_sends_authorised time_text _ _ _ _ _ r Hrun) as (_ & Hex); [rewrite Hr; left|].
  destruct Hex as (s1 & a & t & c & ts & p & e & s2 & a' & t' & c' & ts' & p' & e' & _ & Hin & _ & _ & _ & _ & Hp).
  rewrite Hp.
  assert (TT_Activate a' t' c' ts' p' e' ∈ tel_steps) as Hsub.
  { rewrite <- (run_steps time_text _ _ _ _ Hrun). exact (list_elem_of_fmap_2 snd _ _ Hin). }
  clear -Hsub. unfold tel_steps in Hsub.
  repeat (apply elem_of_cons in Hsub as [Hsub|Hsub]; [first [discriminate Hsub|by injection Hsub as ->]|]).
  apply not_elem_of_nil in Hsub as [].
Defined.

(** After the last request the session still has one completion; thirteen turns end it. *)
Definition tel_waiting : TelemetryService :=
  match tel_run time_text (telemetry_new table_demo (audit_start true))
      [TT_Activate tel_account "token" "a" 0 tel_profile (activate_env 0); TT_Complete (completion_demo "a")] with
  | Done (_, s) => s
  | Panic => telemetry_new table_demo (audit_start true)
  end.

Definition late_turn (n : nat) : WakeUp :=
  mkWakeUp (tick_env (from_secs (1300 + Z.of_nat n))) (Err (mkSendError "" "")) 0.

Definition late_turns : list WakeUp := late_turn <$> seq 1 13.

Lemma tel_waiting_loops : ts_loops tel_waiting = [mkTelLoop 1 "proxy" None].
Proof. vm_compute. reflexivity. Qed.

Lemma tel_waiting_session : ∃ session, ts_sessions tel_waiting !! 1 = Some session
  ∧ te_next_event_allowed_at session = 0 ∧ te_last_event_batch_at session = - from_secs 10
  ∧ te_expires_at session = from_secs 600 ∧ size (te_pending session) = 0%nat ∧ length (te_ready session) = 1%nat.
Proof.
  assert (match ts_sessions tel_waiting !! 1 with
          | Some session => bool_decide (te_next_event_allowed_at session = 0
              ∧ te_last_event_batch_at session = - from_secs 10 ∧ te_expires_at session = from_secs 600
              ∧ size (te_pending session) = 0%nat ∧ length (te_ready session) = 1%nat)
          | None => false
          end = true) as Hok by (vm_compute; reflexivity).
  destruct (ts_sessions tel_waiting !! 1) as [session|]; [|discriminate Hok].
  exists session. split; [done|]. by apply bool_decide_eq_true in Hok.
Qed.

Lemma late_turns_late session start len :
  te_expires_at session = from_secs 600 → te_pending session = ∅ →
  late_wake_ups session (from_secs (1299 + Z.of_nat start)) (late_turn <$> seq start len).
Proof.
  intros He Hp. induction len as [|len IH] in start |- *; simpl; [done|]. rewrite He, Hp. unfold from_secs in *.
  split; [lia|]. split; [lia|]. split; [lia|]. split; [apply map_Forall_empty|].
  replace (1300 + Z.of_nat start) with (1299 + Z.of_nat (S start)) by lia. apply IH.
Qed.

Lemma telemetry_session_ends_witness :
  ts_sessions (wake_ups time_text 0 1 late_turns tel_waiting) !! 1 = None
  ∧ ts_loops (wake_ups time_text 0 1 late_turns tel_waiting) = [].
Proof.
  destruct tel_waiting_session as (session & Hs & Ha & Hb & He & Hp & Hr). apply map_size_empty_inv in Hp.
  destruct (telemetry_session_ends time_text 0 1 "proxy" session (from_secs 1300) 1 late_turns tel_waiting) as [Es El].
  - rewrite tel_waiting_loops. reflexivity.
  - exact Hs.
  - rewrite Ha. unfold from_secs. lia.
  - rewrite Hb. unfold from_secs. lia.
  - exact (late_turns_late session 1 13 He Hp).
  - rewrite Hr. unfold EVENT_BATCH_MAX_COMPLETIONS. lia.
  - vm_compute. lia.
  - split; [rewrite Es; apply lookup_delete_eq|rewrite El, tel_waiting_loops; reflexivity].
Defined.
