(* ===== verification/NodeTlsExamples.v ===== *)
(** * NodeTlsExamples: the theorems on the TLS client at concrete inputs

    A toy crypto: the public key of draw [n] is 32 bytes [n], what ring agrees on are the
    bytes of the peer and then [n], so that a secret shows which private key it is of. *)

From S2P Require Import Prelude TlsCodec TlsEnums TlsHello TlsMessages TlsRecord TlsSession Craft.
From S2P Require Import TlsContext TlsKeys TlsHandshake TlsClient NodeTls TlsWire TlsRecordFacts.
From S2P Require Import TlsHelloFacts TlsReadFacts NodeTlsFacts NodeTlsRuns NodeTlsTraffic TlsDeframer TlsDeframerFacts.

#[local] Instance toy_crypto : TlsCrypto := {
  secure_random n k := Some (replicate k (Z.of_nat n));
  ring_public_key n g := Some (replicate 32 (Z.of_nat n));
  ring_agree n g peer := Some (peer ++ [Z.of_nat n]);
  mlkem_encapsulation_key n := replicate 1184 (Z.of_nat n);
  mlkem_decapsulate n c := Some (replicate 32 7);
  x25519_public n := replicate 32 (Z.of_nat n);
  x25519_diffie_hellman n peer := peer }.

#[local] Instance toy_names : DnsNames := { dns_name_ok l := negb (bool_decide (l = [])) }.

(** A toy AEAD, which protects nothing but has a tag; toy hashes, which keep what they are
    given, so that the salted secret of a key exchange can be read in the schedule. *)
#[local] Instance toy_aead : RingAead := {
  aead_key_len a := 32%nat;
  aead_tag_len a := 16%nat;
  aead_seal a key nonce aad plain := Some (plain ++ replicate 16 0);
  aead_open a key nonce aad sealed :=
    if (length sealed <? 16)%nat then None else Some (firstn (length sealed - 16) sealed) }.

#[local] Instance toy_hash : RingHash := {
  hash_bytes alg l := [Z.of_nat (length l) mod 256];
  hmac_sign alg key l := replicate (hash_output_len alg) (Z.of_nat (length key)) ++ l;
  hkdf_extract alg salt secret := secret;
  hkdf_expand alg prk info n := Some (firstn n (prk ++ replicate n 0)) }.

Lemma toy_hkdf_ok : hkdf_ok.
Proof. intros alg prk info n _. by eexists. Qed.

Definition toy_rest : CommonRest :=
  mkRest false false 0 None None (mkChunks [] None) false [] [].

Definition toy_context : Context :=
  mkContext (craft_data_new [1; 2; 3; 4; 5; 6; 7]) 0 None None None None (mkEarlyData 0 ED_Disabled)
    false true [] toy_rest.

(** The name [a.b]. *)
Definition toy_server : PkiServerName := PkiDnsName [97; 46; 98].

Lemma toy_randomness_ok : randomness_ok.
Proof. split; intros; eexists; [split; [done|apply length_replicate]|done]. Qed.

(** ** The fingerprint *)

Lemma grease_seeds_valid_witness :
  length [1; 2; 3; 4; 5; 6; 7] = NumOfGrease ∧
  grease_get toy_context GI_Extension1 ≠ grease_get toy_context GI_Extension2.
Proof.
  split; [reflexivity|].
  exact (proj2 (grease_seeds_valid [1; 2; 3; 4; 5; 6; 7] toy_context (reflexivity _) (reflexivity _))).
Defined.

(** Placeholders in front and at the end, as browsers have them. *)
Definition shuffled_specs : list ExtensionSpec :=
  [ES_Craft Grease1] ++ NODEJS_EXTENSION ++
  [ES_Craft Grease2; ES_Craft CX_Padding; ES_Keep (Optional ET_PreSharedKey)].

Lemma shuffle_keeps_places_witness :
  ∃ order cx', shuffle_extensions shuffled_specs toy_context = Done (order, cx') ∧
    order ≡ₚ seq 0 16 ∧ order !! 0%nat = Some 0%nat ∧ order !! 15%nat = Some 15%nat.
Proof.
  destruct (shuffle_keeps_places shuffled_specs toy_context) as (order & cx' & H1 & H2 & H3); [done|].
  exists order, cx'. split_and!; [exact H1|exact H2|by eapply H3|by eapply H3].
Defined.

Example shuffled_order :
  fst <$> (match shuffle_extensions shuffled_specs toy_context with Done r => Some r | Panic => None end)
  = Some [0; 2; 3; 11; 7; 10; 12; 6; 5; 4; 9; 8; 1; 13; 14; 15]%nat.
Proof. vm_compute. reflexivity. Qed.

(** ** The first hello *)

Definition toy_start : outcome (result HsError HelloState * Context) :=
  start_handshake node_config [] None None toy_server [] toy_context.

Lemma node_hello_sent_witness :
  ∃ s cx' hello shares,
    toy_start = Done (Ok s, cx') ∧ clear_messages cx' = [handshake_client_hello_encode hello []] ∧
    ks_group <$> shares = [NG_X25519; X25519MLKEM768_GROUP] ∧
    get_type <$> ch_extensions hello = node_extension_types true.
Proof.
  destruct (node_hello_sent node_config [] None None toy_server (Some [97; 46; 98]) toy_context)
    as (s & cx' & hello & shares & H1 & H2 & _ & _ & _ & H3 & H4 & _);
    [vm_compute; reflexivity|exact toy_randomness_ok|exact toy_hkdf_ok|done|vm_compute; reflexivity|done|done|].
  exists s, cx', hello, shares. split_and!; [exact H1|exact H2|exact H4|exact H3].
Defined.

(** The hello of the first message, with shorter shares of a key. *)
Definition toy_hello : ClientHelloPayload :=
  mkClientHello PV_TLSv1_2 (mkRandom (replicate 32 5)) (mkSessionId 32 (replicate 32 6))
    ((λ c, val_or c 0) <$> NODEJS_CIPHER) [CM_Null]
    (node_extensions (Some [97; 46; 98]) (TicketOffer (mkPayload []))
      [key_share_new NG_X25519 (replicate 32 9)]).

Lemma client_hello_reads_back_witness :
  hello_ok toy_hello = true ∧
  handshake_read_version PV_TLSv1_2 (handshake_client_hello_encode toy_hello []) =
    Ok (mkHandshake HT_ClientHello (HP_ClientHello (canon_hello toy_hello)), []).
Proof.
  assert (hello_ok toy_hello = true) as Hok by (vm_compute; reflexivity).
  split; [exact Hok|]. apply (client_hello_reads_back PV_TLSv1_2 toy_hello Hok). vm_compute. reflexivity.
Defined.

(** ** Whole handshakes *)

Definition toy_message (typ : HandshakeType) (p : HandshakePayload) : Message :=
  mkMessage PV_TLSv1_2
    match payload_handshake (mkHandshake typ p) with Done p => p | Panic => MP_ApplicationData [] end.

Definition toy_answer (g : NamedGroup) (share : list Z) : Message :=
  toy_message HT_ServerHello (HP_ServerHello (mkServerHello PV_TLSv1_2 (mkRandom (replicate 32 8))
    (match toy_start with Done (Ok s, _) => in_session_id (ex_input (hs_next s)) | _ => mkSessionId 0 [] end)
    CS_TLS13_AES_128_GCM_SHA256 CM_Null
    [SE_SupportedVersions PV_TLSv1_3; SE_KeyShare (key_share_new g share)])).

Definition toy_retry (exts : list HelloRetryExtension) : Message :=
  toy_message HT_HelloRetryRequest (HP_HelloRetryRequest (mkHRR PV_TLSv1_2
    (match toy_start with Done (Ok s, _) => in_session_id (ex_input (hs_next s)) | _ => mkSessionId 0 [] end)
    CS_TLS13_AES_128_GCM_SHA256 (HRR_SupportedVersions PV_TLSv1_3 :: exts))).

Definition toy_run (answers : list Message)
    : outcome (result HsError (HelloState + AfterServerHello) * Context) :=
  (s ← start_handshake node_config [] None None toy_server [];
   handle_answers node_config [] s answers) toy_context.

Definition toy_secret (answers : list Message) : option (NamedGroup * list Z * nat) :=
  match toy_run answers with
  | Done (Ok (inr (AfterTls13 t)), cx) => 
      match cr_store_ops (cx_rest cx) with
      | [SO_SetKxHint _ g] =>
          Some (g, he_prk (ks_current (kh_ks (ee_key_schedule t))), length (clear_messages cx))
      | _ => None
      end
  | _ => None
  end.

Example first_answers :
  toy_secret [toy_answer NG_X25519 [9]] = Some (NG_X25519, [9; 3], 1%nat) ∧
  toy_secret [toy_answer X25519MLKEM768_GROUP (replicate 1120 9)] =
    Some (X25519MLKEM768_GROUP, replicate 32 7 ++ replicate 32 9, 1%nat) ∧
  toy_secret [toy_answer X25519MLKEM768_GROUP (replicate 1119 9)] = None ∧
  toy_secret [toy_answer NG_secp256r1 [9]] = None.
Proof. vm_compute. done. Qed.

(** The groups of the shares, with the first byte of each, and the types of the extensions of
    the hellos that a run sends. *)
Definition toy_hellos (answers : list Message) : list ClientHelloPayload :=
  match toy_run answers with
  | Done (_, cx) =>
      omap (λ b, match handshake_read_version PV_TLSv1_2 b with
                 | Ok (mkHandshake _ (HP_ClientHello h), _) => Some h
                 | _ => None
                 end) (clear_messages cx)
  | Panic => []
  end.

Definition toy_shares (h : ClientHelloPayload) : list (NamedGroup * option Z) :=
  (λ k, (ks_group k, head (p16_bytes (ks_payload k)))) <$> default [] (get_keyshare_extension h).

(** A retry for another group: the second hello has one share, of that group, but the server
    may still use the X25519 share of the first one. *)
Example retry_for_other_group :
  toy_shares <$> toy_hellos [toy_retry [HRR_KeyShare NG_secp256r1]] =
    [[(NG_X25519, Some 3); (X25519MLKEM768_GROUP, Some 0)]; [(NG_secp256r1, Some 4)]] ∧
  toy_secret [toy_retry [HRR_KeyShare NG_secp256r1]; toy_answer NG_secp256r1 [9]] =
    Some (NG_secp256r1, [9; 4], 2%nat) ∧
  toy_secret [toy_retry [HRR_KeyShare NG_secp256r1]; toy_answer NG_X25519 [9]] =
    Some (NG_X25519, [9; 3], 2%nat).
Proof. vm_compute. done. Qed.

(** A retry with nothing but a cookie: the second hello does not give the cookie back, and has
    a new X25519 share, whereas the secret is made with the key of the first one. *)
Example retry_with_cookie :
  toy_shares <$> toy_hellos [toy_retry [HRR_Cookie (mkPayloadU16 [1])]] =
    [[(NG_X25519, Some 3); (X25519MLKEM768_GROUP, Some 0)];
     [(NG_X25519, Some 4); (X25519MLKEM768_GROUP, Some 0)]] ∧
  (λ h, opt_is_some (find_extension h ET_Cookie)) <$> toy_hellos [toy_retry [HRR_Cookie (mkPayloadU16 [1])]] =
    [false; false] ∧
  toy_secret [toy_retry [HRR_Cookie (mkPayloadU16 [1])]; toy_answer NG_X25519 [9]] =
    Some (NG_X25519, [9; 3], 2%nat).
Proof. vm_compute. done. Qed.

Definition retried_answers : list Message :=
  [toy_retry [HRR_KeyShare NG_secp256r1]; toy_answer NG_secp256r1 [9]].

Lemma secret_of_sent_share_witness :
  match toy_run retried_answers with
  | Done (Ok (inr (AfterTls13 t)), cx') =>
      (length (clear_messages cx') ≤ 2)%nat ∧
      Agreed (answered retried_answers) cx' (ee_suite t) (ee_transcript t) (ee_key_schedule t) ∧ ee_resuming_session t = None
  | _ => False
  end.
Proof.
  assert (toy_secret retried_answers = Some (NG_secp256r1, [9; 4], 2%nat)) as Hs
    by (vm_compute; reflexivity).
  unfold toy_secret in Hs. destruct (toy_run retried_answers) as [[[r|e] cx']|] eqn:Hrun; [|done..].
  destruct (secret_of_sent_share node_config [] None None toy_server (Some [97; 46; 98]) toy_context
    retried_answers r cx') as [Hlen Hsec];
    [vm_compute; reflexivity|exact toy_randomness_ok|exact toy_hkdf_ok|done|vm_compute; reflexivity|
     done|done|done|done|exact Hrun|].
  destruct r as [s|[t|o]]; [done| |done]. split; [exact Hlen|]. by apply Hsec.
Defined.

(** ** Up to traffic

    A verifier that accepts the one certificate [7], for a signature that is the hash of the
    message, and a store with one key per server. *)
#[local] Instance toy_verifier : ServerVerifier := {
  supported_verify_schemes := [];
  verify_server_cert cert inter server ocsp now :=
    if bool_decide (cert_der cert = [7]) then Ok tt else Err (HE_InvalidCertificate CertUnknownIssuer);
  verify_tls13_signature message cert dss :=
    if bool_decide (p16_bytes (dss_sig dss) = [Z.of_nat (length message)]) then Ok tt
    else Err (HE_InvalidCertificate CertBadSignature);
  cert_provider alg bytes := None }.

#[local] Instance toy_keys : SessionKeys := {
  server_key server := match server with PkiDnsName n => n | PkiIpAddress a => a end;
  deque_capacity n := n }.

Definition toy_client : outcome (result HsError (ClientState * ClientSessionMemoryCache) * Context) :=
  for_client node_config toy_server [] 5 default_sessions toy_context.

(** What the server sends, to the state in which the client is after [calls]. *)
Definition toy_state (calls : list (Z * list FromDeframer)) : option (ClientState * Context) :=
  match toy_client with
  | Done (Ok (st, _), cx) =>
      match process_calls node_config (CN_Live st) calls cx with
      | Done (CN_Live st, _, cx) => Some (st, cx)
      | _ => None
      end
  | _ => None
  end.

(** A message as it comes out of its protection. *)
Definition toy_protected (typ : HandshakeType) (p : HandshakePayload) : Message :=
  mkMessage PV_TLSv1_3 (m_payload (toy_message typ p)).

Definition toy_packet (m : Message) : FromDeframer := DF_Message true (plain_of_message m).

Definition toy_certificate (cert : list Z) : Message :=
  toy_protected HT_Certificate (HP_CertificateTls13 (mkCertPayload (mkPayloadU8 []) [cert_entry_new (mkCert cert)])).

Definition toy_flight (cert : list Z) : list (Z * list FromDeframer) :=
  [(6, [toy_packet (toy_answer NG_X25519 [9])]);
   (7, [DF_Message true (mkPlain CO_ChangeCipherSpec PV_TLSv1_2 [1]);
        toy_packet (toy_protected HT_EncryptedExtensions (HP_EncryptedExtensions []));
        toy_packet (toy_certificate cert);
        toy_packet (toy_protected HT_CertificateVerify
          (HP_CertificateVerify (mkDss SS_ED25519 (mkPayloadU16 [99]))))])].

Definition toy_finished (calls : list (Z * list FromDeframer)) : Message :=
  toy_protected HT_Finished (HP_Finished (mkPayload
    match toy_state calls with
    | Some (ST_Finished p _, _) =>
        match sign_server_finish (hp_key_schedule p) (get_current_hash (hp_transcript p)) with
        | Done tag => tag
        | Panic => []
        end
    | _ => []
    end)).

(** The handshake, its end, and two records of data. *)
Definition toy_calls (cert finished : list Z) : list (Z * list FromDeframer) :=
  toy_flight cert ++
  [(8, [DF_Message true (mkPlain CO_Handshake PV_TLSv1_3 finished);
        DF_Message true (mkPlain CO_ApplicationData PV_TLSv1_3 [1; 2]);
        DF_Message true (mkPlain CO_ApplicationData PV_TLSv1_3 [3])])].

Definition turned_tls12 (c : Connection) : bool := match c with CN_Tls12 _ _ => true | _ => false end.

Definition toy_received (calls : list (Z * list FromDeframer)) : option (list (list Z) * bool) :=
  match toy_client with
  | Done (Ok (st, _), cx) =>
      match process_calls node_config (CN_Live st) calls cx with
      | Done (c, _, cx) =>
          if turned_tls12 c then None else
          Some (cv_chunks (cr_received_plaintext (cx_rest cx)),
                existsb (λ e, match e with EV_StartTraffic => true | _ => false end) (cx_log cx))
      | Panic => None
      end
  | _ => None
  end.

Definition toy_finished_bytes : list Z :=
  payload_encode (m_payload (toy_finished (toy_flight [7]))) [].

(** With another certificate, or with another last byte of the MAC, there is no data. *)
Example received_data :
  toy_received (toy_calls [7] toy_finished_bytes) = Some ([[1; 2]; [3]], true) ∧
  toy_received (toy_calls [8] toy_finished_bytes) = Some ([], false) ∧
  toy_received (toy_calls [7] (removelast toy_finished_bytes ++ [77])) = Some ([], false).
Proof. vm_compute. done. Qed.

Lemma data_only_from_proved_server_witness :
  match toy_client with
  | Done (Ok (st, _), cx) =>
      match process_calls node_config (CN_Live st) (toy_calls [7] toy_finished_bytes) cx with
      | Done (_, _, cx') =>
          cv_chunks (cr_received_plaintext (cx_rest cx')) = [[1; 2]; [3]] ∧
          ∃ suite hh, Proved toy_server suite hh cx'
      | Panic => False
      end
  | _ => False
  end.
Proof.
  assert (toy_received (toy_calls [7] toy_finished_bytes) = Some ([[1; 2]; [3]], true)) as Hr
    by (vm_compute; reflexivity).
  unfold toy_received in Hr. destruct toy_client as [[[[st store]|e] cx1]|] eqn:Hnew; [|done..].
  destruct (process_calls node_config (CN_Live st) _ cx1) as [[[c rs] cx']|] eqn:Hcalls; [|done].
  destruct (turned_tls12 c) eqn:H12; [done|]. injection Hr as Hdata _. split; [exact Hdata|].
  apply (data_only_from_proved_server node_config toy_server (Some [97; 46; 98]) 5 default_sessions toy_context
    st store cx1 (toy_calls [7] toy_finished_bytes) c rs cx');
    [vm_compute; reflexivity|exact toy_randomness_ok|exact toy_hkdf_ok|vm_compute; reflexivity|done|done|
     done|done|done| |exact Hnew|exact Hcalls|intros v later Hc; rewrite Hc in H12; discriminate H12|right; rewrite Hdata; discriminate].
  split; [done|done|]. unfold toy_context. apply not_elem_of_nil.
Defined.

(** ** Records *)

#[local] Instance toy_aead_laws : RingAeadLaws.
Proof.
  split; simpl.
  - intros _ k n aad p c [= <-]. rewrite length_app. simpl.
    destruct (Nat.ltb_spec (length p + 16) 16); [lia|]. f_equal.
    replace (length p + 16 - 16)%nat with (length p) by lia.
    by rewrite firstn_app, firstn_all, Nat.sub_diag, app_nil_r.
  - intros _ k n aad p c [= <-]. by rewrite length_app.
  - done.
Qed.

#[local] Instance toy_opens : RingOpens.
Proof.
  split. simpl. intros _ k n aad c p. destruct (Nat.ltb_spec (length c) 16); [done|]. intros [= <-].
  rewrite length_firstn. lia.
Qed.

(** The handshake as bytes: two messages in one record, and one message in two records. *)
Definition toy_record (m : PlainMessage) : list Z := opaque_encode (into_unencrypted_opaque m).
Definition toy_sealed (typ : ContentType) (payload : list Z) : list Z :=
  opaque_encode (mkOpaque CO_ApplicationData PV_TLSv1_2 (encode typ payload ++ replicate 16 0)).
Definition toy_handshake_bytes (m : Message) : list Z := pm_payload (plain_of_message m).

Definition toy_stream : list Z :=
  let signed := toy_handshake_bytes (toy_protected HT_CertificateVerify
    (HP_CertificateVerify (mkDss SS_ED25519 (mkPayloadU16 [99])))) in
  toy_record (plain_of_message (toy_answer NG_X25519 [9])) ++
  toy_record (mkPlain CO_ChangeCipherSpec PV_TLSv1_2 [1]) ++
  toy_sealed CO_Handshake
    (toy_handshake_bytes (toy_protected HT_EncryptedExtensions (HP_EncryptedExtensions [])) ++
     toy_handshake_bytes (toy_certificate [7]) ++ firstn 3 signed) ++
  toy_sealed CO_Handshake (skipn 3 signed) ++
  toy_sealed CO_Handshake toy_finished_bytes ++
  toy_sealed CO_ApplicationData [1; 2] ++ toy_sealed CO_ApplicationData [3].

#[local] Instance toy_receiver : Receiver ClientConnection := client_receiver node_config 5.

Definition toy_connection : ClientConnection :=
  match toy_client with
  | Done (Ok (st, _), cx) => mkClientConnection (CN_Live st) cx record_layer_new
  | _ => mkClientConnection (CN_Failed HE_HandshakeNotComplete) toy_context record_layer_new
  end.

(** What the client has for its caller, and how many bytes wait for more. *)
Definition toy_fed (pieces : list (list Z)) : option (list (list Z) * option nat) :=
  match feed_all toy_connection pieces with
  | Some (Done (c, fed)) =>
      Some (cv_chunks (cr_received_plaintext (cx_rest (cc_cx c))),
            match fed with Fed_Open d => Some (df_used d) | _ => None end)
  | _ => None
  end.

(** At once, byte by byte, but for the last byte, and with one byte changed. *)
Example fed_in_pieces :
  toy_fed [toy_stream] = Some ([[1; 2]; [3]], Some 0%nat) ∧
  toy_fed ((λ b, [b]) <$> toy_stream) = Some ([[1; 2]; [3]], Some 0%nat) ∧
  toy_fed [firstn 200 toy_stream; []; removelast (skipn 200 toy_stream)] = Some ([[1; 2]], Some 22%nat) ∧
  toy_fed [<[1%nat := 9]> toy_stream] = Some ([], None).
Proof. vm_compute. done. Qed.

Lemma toy_fed_open pieces r data n :
  toy_fed pieces = Some (data, Some n) → feed_all toy_connection pieces = Some r → ¬ full_joining r.
Proof. unfold toy_fed. intros Hf Hr. rewrite Hr in Hf. destruct r as [[c []]|]; [intros []|done..]. Qed.

Lemma pieces_do_not_matter_witness :
  ∃ r1 r2, feed_all toy_connection [toy_stream] = Some r1 ∧
    feed_all toy_connection ((λ b, [b]) <$> toy_stream) = Some r2 ∧ fed_stream r1 = fed_stream r2.
Proof.
  assert (toy_fed [toy_stream] = Some ([[1; 2]; [3]], Some 0%nat)) as H1 by (vm_compute; reflexivity).
  assert (toy_fed ((λ b, [b]) <$> toy_stream) = Some ([[1; 2]; [3]], Some 0%nat)) as H2 by (vm_compute; reflexivity).
  assert (concat [toy_stream] = concat ((λ b, [b]) <$> toy_stream)) as Heq by (vm_compute; reflexivity).
  destruct (pieces_do_not_matter toy_connection [toy_stream] ((λ b, [b]) <$> toy_stream) Heq)
    as (r1 & r2 & Hr1 & Hr2 & Hr).
  exists r1, r2. split; [exact Hr1|]. split; [exact Hr2|].
  destruct Hr as [Hf|[Hf|Hr]]; [| |exact Hr]; exfalso.
  - exact (toy_fed_open _ _ _ _ H1 Hr1 Hf).
  - exact (toy_fed_open _ _ _ _ H2 Hr2 Hf).
Defined.

Definition toy_key : MessageKey := mkMessageKey AES_128_GCM (replicate 32 1) (replicate 12 2).

(** Fragments of three bytes. *)
Definition toy_sender : Sender :=
  mkSender (set_message_encrypter toy_key record_layer_new) 3 (cv_new None) (cv_new None) true None false.

Definition toy_peer : RecordLayer := set_message_decrypter toy_key record_layer_new.

Definition toy_texts : list PlainMessage :=
  [mkPlain CO_ApplicationData PV_TLSv1_2 [1; 2; 3; 4]; mkPlain CO_Alert PV_TLSv1_2 [1; 0]].

Lemma protected_messages_received_witness :
  ∃ s' wire peer', send_all (send_msg_encrypt 1) toy_texts toy_sender = Some (Done s') ∧
    concat (cv_chunks (snd_tls s')) = wire ∧
    receive_all (length wire) wire toy_peer =
      Some ([mkPlain CO_ApplicationData PV_TLSv1_3 [1; 2; 3]; mkPlain CO_ApplicationData PV_TLSv1_3 [4];
             mkPlain CO_Alert PV_TLSv1_3 [1; 0]], peer').
Proof.
  destruct (protected_messages_received 0 toy_key toy_texts toy_sender toy_peer)
    as (s' & wire & peer' & Hsend & Hwire & Hread & _ & _);
    [intros n aad p; eexists; reflexivity|simpl; lia|done|by repeat constructor|done|done|done|done|done|].
  exists s', wire, peer'. split_and!; [exact Hsend|exact Hwire|exact Hread].
Defined.

Lemma no_nonce_twice_witness :
  let m := mkPlain CO_ApplicationData PV_TLSv1_2 [1] in
  let ops := [LO_SetEncrypter toy_key; LO_Encrypt m; LO_Encrypt m; LO_PrepareEncrypter toy_key; LO_Encrypt m] in
  let nonces := sealed_nonces (Aead := recording toy_aead) 0 ops record_layer_new in
  fst <$> nonces = [1; 1; 2]%nat ∧ NoDup nonces.
Proof.
  intros m ops nonces. split; [vm_compute; reflexivity|].
  apply (no_nonce_twice toy_aead ops record_layer_new); [done|]. by repeat constructor.
Defined.
